(* ===== verification/_CoqProject ===== *)
-Q . S2P
Prelude.v
CMem.v
Core.v
CoreSpec.v
Session.v
Engines.v
EngineSpec.v
VectorMath.v
Extension.v
TransactionId.v
Varsup.v
ItemPtr.v
Bytes.v
Page.v
PageInv.v
PageAdd.v
PageCompact.v
PageRepair.v
PageIndex.v
PageChecksum.v
PageExample.v
HeapTuple.v
Snapshot.v
Clog.v
Subtrans.v
ProcArray.v
ProcArraySpec.v
Server.v
ServerInv.v
ServerArray.v
ServerSnapshot.v
ServerSteps.v
ServerHistory.v
ServerReads.v
Startup.v
ServerRun.v
Visibility.v
VisibilitySpec.v
VacuumSpec.v
Freeze.v
FreezeSpec.v
FreezeTuple.v
UpdateSpec.v
ServerLaws.v
ServerSpec.v
ComboCid.v
Xact.v
XactInv.v
XactSpec.v
XactProg.v
XactEnd.v
XactStmt.v
XactSession.v
XactCurrent.v
