(* ===== verification/Prelude.v ===== *)
(** * Verification of EpiphanyDB

    EpiphanyDB is a C API with five storage engines ([src/include/epiphanydb.h],
    [src/src]), an extension that exposes it to SQL
    ([src/postgresql/contrib/epiphanydb]) and the PostgreSQL 17 server it is built
    into ([src/postgresql]).  This library models the API, the engines and the
    extension, and of the server the part every storage engine depends on:
    transaction ids, the commit log, the process array and snapshots, the
    decision which version of a row a transaction sees, the layout of the pages that
    hold the rows, and the state machine of transaction blocks and savepoints.

    The definitions are functions: a w-bit integer is a [Z] with its wraparound
    written out, a fallible function returns an option or an error, and a
    stateful one passes its state.  They keep the names of the C functions.

    ** The EpiphanyDB API and engines

    - [CMem] is the C machine: a heap of typed blocks, an oracle that decides
      which allocations and [fopen] calls succeed, undefined behaviour as an outcome,
      and a weakest precondition with its rules.
    - [Core] has every function of [epiphanydb_core.c].  [CoreSpec] states what
      each does to the heap on every branch: initialising and cleaning up restores
      the heap, name lookups stay inside their tables, no error code reaches its message.
      [Session] lifts this to clients: a client that uses only handles it holds, in any
      order and under any allocation failures, never meets undefined
      behaviour, and the heap is exactly what it holds.
    - [Engines] has the five files of [src/src/storage], one Module each; the
      operations that are stubs in the source are stubs here.  [EngineSpec]: table creation
      writes inside its path buffers and leaks nothing; its only undefined behaviour is a
      NULL path buffer, which it does not check, and happens exactly when the table is allocated and one of
      its path buffers is not; initialisation leaks its context.
    - [VectorMath] has the three distance functions of [vector_storage.c] on
      IEEE single precision ([SpecFloat] with 24 and 128): symmetric bit for bit,
      defined, not negative; the cosine similarity loses vectors all of whose components are at most 2^-75, and
      exactly those, to underflow, and is NaN for a vector with a component of 2^64 or more and itself.
    - [Extension] has the SQL functions of [epiphanydb.c], with errors as jumps,
      the locals that [PG_CATCH] finds after one, and the unpacking of text arguments ([detoast.c], [fmgr.c]): what memory
      each call leaves, and which failures are undefined behaviour.

    ** Transactions in the server

    - [TransactionId]: [transam.h] and the comparisons of [transam.c].  Circular
      comparison agrees with the 64-bit order inside a window of 2^31.
    - [Varsup]: [varsup.c].  A step relation interleaves the two critical sections of
      [GetNewTransactionId] of up to [MAX_BACKENDS] processes with updates of the limits;
      by induction over it the counter never comes within reach of the oldest
      id.  Recovery's epoch inference and the OID generator are here too.
    - [ItemPtr] and [HeapTuple]: item pointers and the tuple header with its flag words.
    - [Snapshot]: the snapshot structure, [XidInMVCCSnapshot], the vectorised
      search [pg_lfind32], the parent walk of [subtrans.c].
    - [Clog]: [clog.c] and the status functions of [transam.c].  The pages of the
      commit log hold two-bit fields; a commit is a list of page updates.
      Readers see a transaction tree commit at one update, other transactions
      keep their status, the one-entry cache of [TransactionLogFetch] is never stale,
      LSNs of asynchronous commits are not lost.
    - [ProcArray]: [procarray.c] outside recovery.  The dense arrays mirror the
      processes in every reachable state.  [ProcArraySpec] reads the array as full
      ids: a snapshot answers by what ran when it was taken, and
      [TransactionIdIsInProgress] is exact.
    - [Visibility]: every function of [heapam_visibility.c].  Each reads
      transaction state that others change between two reads, so the state is
      indexed by a clock that advances with every read (class [XactEnv]).
      [VisibilitySpec] states the laws of that state (class [XactLaws]) and shows
      that the MVCC check refines snapshot visibility, that answers repeat, and that
      only hint bits change.  [VacuumSpec]: what VACUUM may remove.  [UpdateSpec]: what
      UPDATE is told, and the dirty check of unique indexes.
    - [Freeze]: the freezing of a tuple in [heapam.c], with assertions whose failure is an outcome.  [FreezeSpec]: the limits of a table, tuples
      within them, and what becomes of a multixact.  [FreezeTuple]: no observer sees a frozen tuple differently, and
      the ids left on the page respect the limits and the trackers.
    - [Subtrans]: the pages of [subtrans.c] and the extension of both logs by zeroed pages.
    - [Server]: the logs, the counters, the process array and the backends in one state, and the steps
      of the backends in any order, each the work under one lock: connecting, assigning an id,
      recording its parent, writing one page of the end of a transaction or subtransaction, leaving
      the process array, taking a snapshot.  [ServerInv], [ServerArray], [ServerSnapshot] and
      [ServerSteps]: the invariant and that every step keeps it.  [Startup]: the end of
      [StartupXLOG] with [TrimCLOG] and [StartupSUBTRANS] establishes it.  [ServerRun]: the steps as a
      function, reachability, and that a backend brings its transaction to the end by its own steps wherever it is
      interrupted, and leaves the process array without its ids.
      [ServerHistory] and [ServerReads]: what the steps of others leave alone, and what a backend finds
      that reads the process array and, later, the logs.  [ServerLaws] discharges [XactLaws] for a backend of
      the running server.  [ServerSpec]: on the server the MVCC check shows what had committed when
      the snapshot was taken, whole transactions only, and the outcomes of ids whose parents are recorded are final.
    - [ComboCid]: [combocid.c] in an error monad; ids keep their meaning through
      failures, serialisation for parallel workers, and deletion of own tuples.

    - [Xact]: [xact.c] with its drivers, in a monad with errors and fatal errors: the stack of
      transaction states and its operations, the state machine of
      [CommitTransactionCommandInternal] and [AbortCurrentTransactionInternal], the
      transaction statements ([utility.c]), the loop over the statements of a query string and over query strings
      ([exec_simple_query] and [PostgresMain] of [postgres.c]) and the exception blocks of
      PL/pgSQL ([exec_stmt_block]).  A statement is a tree of writes, blocks and failures.
    - [XactInv]: the invariant on ids, children and saved states, and a weakest precondition rule for
      each operation on the stack.  [XactSpec]: the abstract description of a session, in which the work of a
      savepoint or a block is a multiset of rows, and the abstraction function.  [XactProg],
      [XactEnd], [XactStmt]: statements with nested blocks, the ends of transactions at any
      depth, and transaction statements refine it.  [XactSession]: so do whole sessions;
      no branch for an impossible state is taken, [ROLLBACK] always completes, the fate of
      an id is final.  [XactCurrent]: the test for the ids of the own transaction is exact.

    ** Pages

    - [Bytes]: buffers of bytes and little-endian fields.
    - [Page]: [bufpage.c], [bufpage.h], [itemid.h] and [checksum_impl.h].  A page is a buffer of
      [BLCKSZ] bytes; a copy that would leave it is undefined, a report of corruption an error.
    - [PageInv]: well-formed pages ([page_ok]: the header in order, the items aligned, inside the item space
      and apart from each other) and their abstraction ([view]: the entries with their state and bytes).
    - [PageAdd]: adding an item, the promises of the free space functions, new pages, truncation of the line pointers.
      [PageCompact] and [PageRepair]: compaction in place and through the buffer, and [PageRepairFragmentation].  [PageIndex]: deletion one by one and
      in bulk, deletion that keeps the numbers, overwriting.  Each operation keeps pages well-formed and is described by what it does
      to the entries.  [PageChecksum]: what is written verifies, and in which cases a misplaced page is refused.
      [PageExample]: a test for well-formed pages, and concrete ones.

    How the parts meet: [Visibility] uses the interface [XactEnv], whose functions
    [Clog] ([TransactionIdDidCommit]), [ProcArray] ([TransactionIdIsInProgress]),
    [Snapshot] and [ComboCid] model in detail; [ComboCid] instantiates the part about
    command ids.  [ProcArray] publishes ids by [publish_xid] of [Varsup], and
    [ProcArraySpec] answers for the snapshots [Snapshot] tests.  [Server] composes these operations as
    [AssignTransactionId], [CommitTransaction], [AbortTransaction] and [RecordTransactionAbort] of [xact.c] do, and
    [ServerLaws] gives the interface of [Visibility] its instance.

    ** Bounds and fuel

    - [while] in this file bounds the loops that skip special ids: at most three
      ids are special, and the advance and retreat theorems cover all normal ids.
    - [lfind32_blocks] runs with fuel above the number of elements and is shown to return.
    - [topmost_loop] and the recursion of [TransactionIdDidCommit] take fuel; the
      theorems show that the depth of the tree, or the distance to
      [TransactionXmin], is enough.  [set_status_by_pages] has one unit for each
      subtransaction and uses up at least one in every round.
    - [walk_fuel] of [ServerReads], the number of ids assigned since startup, exceeds the depth of every tree.
      [zero_pages] has one unit for each page between the two it is given.
    - [commit_subs] and the loops around the state machine run with the depth of the stack as fuel;
      running out is an error that [XactSession] shows to be unreachable.
    - The ids a session obtains come from the class [IdSupply]: ascending and within one window of
      2^31: the theorems on sessions are about a history of fewer than 2^31 ids, in which
      [Varsup] shows ids to compare correctly.
    - Windows of 2^31 ids are what the server itself maintains; [Varsup] proves it.
    - [MAX_BACKENDS] is 2^18 - 1; 2^18 bounds the array in [ProcArraySpec].
    - [BLCKSZ] is the default of the build, 8192.  Pages are laid out as on 64-bit little-endian machines.
    - [find_unused] runs with the number of line pointers as fuel, which is enough to reach the limit of its loop.  The local
      buffer of [compactify_tuples] has unknown contents, an argument the theorems quantify over.

    ** Not modelled

    The parser, planner, executor, catalogs, types, index access methods, buffer
    manager, WAL, replication, clients and tools of PostgreSQL: they are I/O,
    generated, or need a model of SQL.  Of the modelled files: the group update of
    [clog.c], its truncation; recovery ([KnownAssignedXids]), vacuum horizons
    and virtual ids of [procarray.c]; storage of multixacts, whose members and whose creation are
    oracles; the user data part of a tuple; in [xact.c] parallel workers,
    callbacks, resource owners and WAL records, and whether the work before a commit or a PREPARE succeeds, the reservation of the
    name in [MarkAsPreparing] included, is an input; errors of [AssignTransactionId] after it has stored the id; [COMMIT PREPARED]; registration of the extension's configuration variables.  Memory ordering: each definition
    is the work under one lock, or is split where the code drops it. *)
From Stdlib Require Export ZArith Lia.
From stdpp Require Export base tactics numbers gmap strings option.
From stdpp Require Export list.

Declare Scope epi_scope.
Delimit Scope epi_scope with epi.
Open Scope epi_scope.

(** ** Machine integers *)

(** Unsigned arithmetic on a [w]-bit type is arithmetic modulo [2^w]; a cast
    to [int32] takes the representative in [-2^31, 2^31). *)
Definition wrap (w x : Z) : Z := (x mod 2 ^ w)%Z.
Definition u8 (x : Z) : Z := wrap 8 x.
Definition u16 (x : Z) : Z := wrap 16 x.
Definition u32 (x : Z) : Z := wrap 32 x.
Definition u64 (x : Z) : Z := wrap 64 x.
Definition s32 (x : Z) : Z :=
  (let y := u32 x in if y <? 2 ^ 31 then y else y - 2 ^ 32)%Z.

Create HintDb epi.
Create Rewrite HintDb epi_rw.

Lemma u32_range x : (0 <= u32 x < 2 ^ 32)%Z.
Proof. apply Z.mod_pos_bound. lia. Qed.

Lemma u32_small x : (0 <= x < 2 ^ 32)%Z -> u32 x = x.
Proof. apply Z.mod_small. Qed.

Lemma u64_range x : (0 <= u64 x < 2 ^ 64)%Z.
Proof. apply Z.mod_pos_bound. lia. Qed.

Lemma u64_small x : (0 <= x < 2 ^ 64)%Z -> u64 x = x.
Proof. apply Z.mod_small. Qed.

(** A cast to [int32] is the identity on differences that fit. *)
Lemma s32_small x : (- 2 ^ 31 <= x < 2 ^ 31)%Z -> s32 x = x.
Proof.
  intros Hx. unfold s32, u32, wrap.
  destruct (decide (0 <= x)%Z).
  - rewrite Z.mod_small by lia. case_match; [done|]. rewrite Z.ltb_ge in *. lia.
  - replace (x mod 2 ^ 32)%Z with (x + 2 ^ 32)%Z.
    + case_match; [rewrite Z.ltb_lt in *|]; lia.
    + rewrite <- (Z.mod_small (x + 2 ^ 32) (2 ^ 32))%Z by lia.
      by rewrite <- (Z_mod_plus_full x 1), Z.mul_1_l.
Qed.

(** [int32] casts only see their argument modulo [2^32]. *)
Lemma s32_congr x y : u32 x = u32 y -> s32 x = s32 y.
Proof. unfold s32. by intros ->. Qed.

Lemma u32_sub_l x y : u32 (u32 x - y) = u32 (x - y).
Proof. unfold u32, wrap. by rewrite Zminus_mod_idemp_l. Qed.

Lemma u32_sub_r x y : u32 (x - u32 y) = u32 (x - y).
Proof. unfold u32, wrap. by rewrite Zminus_mod_idemp_r. Qed.

Lemma u32_add_l x y : u32 (u32 x + y) = u32 (x + y).
Proof. unfold u32, wrap. by rewrite Zplus_mod_idemp_l. Qed.

Lemma u32_u32 x : u32 (u32 x) = u32 x.
Proof. apply u32_small, u32_range. Qed.

Lemma s32_range x : (- 2 ^ 31 <= s32 x < 2 ^ 31)%Z.
Proof.
  unfold s32. pose proof (u32_range x). cbv zeta.
  destruct (Z.ltb_spec (u32 x) (2 ^ 31)); lia.
Qed.

#[export] Hint Resolve u32_range u64_range s32_range : epi.
#[export] Hint Rewrite u32_sub_l u32_sub_r u32_add_l u32_u32 : epi_rw.

(** ** Flag words *)

(** [tst m b] is the C condition [m & b] (non-zero). *)
Definition tst (m b : Z) : bool := negb (Z.land m b =? 0)%Z.

Lemma tst_lor m a b : tst (Z.lor m a) b = tst m b || tst a b.
Proof.
  unfold tst. rewrite Z.land_lor_distr_l.
  destruct (Z.eqb_spec (Z.lor (Z.land m b) (Z.land a b)) 0) as [H|H].
  - apply Z.lor_eq_0_iff in H as [-> ->]. done.
  - destruct (Z.eqb_spec (Z.land m b) 0) as [H1|]; [|done].
    destruct (Z.eqb_spec (Z.land a b) 0) as [H2|]; [|done].
    rewrite H1, H2 in H. done.
Qed.

Lemma tst_pow2 m k : (0 <= k)%Z -> tst m (2 ^ k) = Z.testbit m k.
Proof.
  intros Hk. unfold tst. destruct (Z.testbit m k) eqn:E.
  - apply negb_true_iff, Z.eqb_neq. intros H.
    apply (f_equal (fun z => Z.testbit z k)) in H.
    rewrite Z.land_spec, Z.pow2_bits_true, Z.testbit_0_l, E in H by lia. done.
  - apply negb_false_iff, Z.eqb_eq, Z.bits_inj'. intros i Hi.
    rewrite Z.land_spec, Z.testbit_0_l.
    destruct (decide (i = k)) as [->|]; [by rewrite E|].
    rewrite Z.pow2_bits_false by lia. apply andb_false_r.
Qed.

Lemma land_bit m k : (0 <= k)%Z -> Z.land m (2 ^ k) = if tst m (2 ^ k) then (2 ^ k)%Z else 0%Z.
Proof.
  intros Hk. rewrite tst_pow2 by done. apply Z.bits_inj'. intros i Hi.
  rewrite Z.land_spec. destruct (decide (i = k)) as [->|].
  - destruct (Z.testbit m k) eqn:E; [by rewrite Z.pow2_bits_true|by rewrite Z.testbit_0_l].
  - rewrite (Z.pow2_bits_false k i) by lia. rewrite andb_false_r.
    destruct (Z.testbit m k); [by rewrite Z.pow2_bits_false by lia|by rewrite Z.testbit_0_l].
Qed.

(** A masked comparison [(m & K) == V] with a [w]-bit mask is decided bit by
    bit. *)
Lemma land_eqb_bits m K V w :
  (0 <= K < 2 ^ w)%Z -> (0 <= V < 2 ^ w)%Z -> (0 <= w)%Z ->
  Z.land V K = V ->
  (Z.land m K =? V)%Z = true <->
  (forall i, (0 <= i < w)%Z -> Z.testbit K i = true -> Z.testbit m i = Z.testbit V i).
Proof.
  intros HK HV Hw HVK. rewrite Z.eqb_eq. split.
  - intros <- i Hi Hb. by rewrite Z.land_spec, Hb, andb_true_r.
  - intros H. apply Z.bits_inj'. intros i Hi. rewrite <- HVK, !Z.land_spec.
    destruct (Z.testbit K i) eqn:HKi; [|by rewrite !andb_false_r].
    rewrite !andb_true_r. destruct (decide (i < w)%Z) as [|Hge]; [apply H; [lia|done]|].
    exfalso. rewrite <- (Z.mod_small K (2 ^ w)) in HKi by lia.
    rewrite Z.mod_pow2_bits_high in HKi by lia. done.
Qed.

(** ** Loops *)

(** [while (c) f;] with at most [fuel] iterations. *)
Fixpoint while {A} (fuel : nat) (c : A -> bool) (f : A -> A) (a : A) : A :=
  match fuel with
  | O => a
  | S k => if c a then while k c f (f a) else a
  end.

(** A loop that makes a measure bounded by the fuel decrease leaves through
    its exit test. *)
Lemma while_exit {A} (mu : A -> nat) (c : A -> bool) (f : A -> A) fuel a :
  (forall b, c b = true -> (mu (f b) < mu b)%nat) ->
  (forall b, mu b = 0%nat -> c b = false) ->
  (mu a <= fuel)%nat -> c (while fuel c f a) = false.
Proof.
  intros Hdec Hz. revert a. induction fuel as [|k IH]; intros a Ha; simpl.
  - apply Hz. lia.
  - destruct (c a) eqn:E; [|done]. apply IH. apply Hdec in E. lia.
Qed.

Lemma while_false {A} fuel (c : A -> bool) f a : c a = false -> while fuel c f a = a.
Proof. destruct fuel; simpl; [done|]. by intros ->. Qed.

(** ** Small tactics *)

(** Case analysis on every [if] and [match] on a variable-headed test of the
    goal, keeping the equations. *)
Ltac destruct_ifs :=
  repeat match goal with
  | |- context [if ?b then _ else _] => destruct b eqn:?
  end.

(** ** Lists *)

Lemma in_take {A} n (x : A) l : x ∈ take n l -> x ∈ l.
Proof. intros (i & Hi & _)%elem_of_take. by eapply list_elem_of_lookup_2. Qed.

Lemma in_drop {A} n (x : A) l : x ∈ drop n l -> x ∈ l.
Proof. intros Hx. rewrite <- (take_drop n l). apply elem_of_app. by right. Qed.

(** Turn boolean comparisons of the context into propositions. *)
Ltac b2p :=
  repeat match goal with
  | H : (_ =? _)%Z = true |- _ => apply Z.eqb_eq in H
  | H : (_ =? _)%Z = false |- _ => apply Z.eqb_neq in H
  | H : (_ <? _)%Z = true |- _ => apply Z.ltb_lt in H
  | H : (_ <? _)%Z = false |- _ => apply Z.ltb_ge in H
  | H : (_ <=? _)%Z = true |- _ => apply Z.leb_le in H
  | H : (_ <=? _)%Z = false |- _ => apply Z.leb_gt in H
  | H : (_ >=? _)%Z = _ |- _ => rewrite Z.geb_leb in H
  | H : (_ >? _)%Z = _ |- _ => rewrite Z.gtb_ltb in H
  | H : _ && _ = true |- _ => apply andb_true_iff in H as [? ?]
  | H : _ || _ = false |- _ => apply orb_false_iff in H as [? ?]
  | H : negb _ = true |- _ => apply negb_true_iff in H
  | H : negb _ = false |- _ => apply negb_false_iff in H
  end.
