(* ===== verification/CMem.v ===== *)
(** * The C abstract machine used by the EpiphanyDB sources

    The files of [src/src] manage C objects by hand: [malloc], [strdup],
    [free], [memset], string formatting into allocated buffers, and [fopen].
    This file models what they use of the C library: a heap of typed blocks
    with [NULL] and dangling pointers, an environment that decides whether
    each allocation or [fopen] succeeds, and undefined behaviour as an
    outcome.  A block, once freed, is never handed out again, so every use of
    a stale pointer is caught as [Undef].

    The heap is generic in the type [S] of the program's structs. *)
From Stdlib Require Import SpecFloat.
From S2P Require Import Prelude.

Abbreviation loc := positive.

(** A pointer value; [None] is [NULL]. *)
Definition ptr := option loc.
Abbreviation NULL := (@None loc).

Definition is_null (p : ptr) : bool :=
  match p with None => true | Some _ => false end.

(** Why an execution is undefined. *)
Inductive ub :=
| NullDeref      (* access through NULL *)
| Dangling       (* access to, or free of, a block that is not allocated *)
| Overflow       (* write past the end of a buffer *)
| BadType        (* access with the wrong effective type *)
| Indeterminate. (* use of an uninitialised object *)

Section CMem.
Context {S : Type}.

(** Contents of one block.  [CRaw n] is [n] bytes of indeterminate value (a
    fresh [malloc]), [CZero n] the same after [memset 0], [CStr n s] a buffer
    of [n] bytes holding the NUL-terminated string [s]; the others are the
    structures and the objects the API passes by reference ([CFile] is an open stream). *)
Inductive cell :=
| CRaw (size : Z)
| CZero (size : Z)
| CStr (size : Z) (s : string)
| CStruct (s : S)
| CPtr (p : ptr)
| CInt (z : Z)
| CDouble (d : spec_float)
| CFile (path : string).

(** [m_env] is the sequence of answers of the environment: the head says
    whether the next allocation or [fopen] succeeds; when it is exhausted they
    all succeed.  [m_files] is the file system: contents by path. *)
Record mem := Mem {
  m_heap : gmap loc cell;
  m_next : loc;
  m_env : list bool;
  m_files : gmap string string
}.

Inductive outcome (A : Type) :=
| Ret (a : A) (m : mem)
| Undef (u : ub).
Arguments Ret {A} a m.
Arguments Undef {A} u.

Definition M (A : Type) : Type := mem -> outcome A.

Definition ret {A} (a : A) : M A := fun m => Ret a m.
Definition bind {A B} (c : M A) (k : A -> M B) : M B := fun m =>
  match c m with
  | Ret a m' => k a m'
  | Undef u => Undef u
  end.
Definition undef {A} (u : ub) : M A := fun _ => Undef u.

(** The next answer of the environment. *)
Definition ask : M bool := fun m =>
  match m_env m with
  | [] => Ret true m
  | b :: e => Ret b (Mem (m_heap m) (m_next m) e (m_files m))
  end.

(** Allocate a block holding [c]; never fails. *)
Definition alloc (c : cell) : M ptr := fun m =>
  Ret (Some (m_next m))
      (Mem (<[m_next m := c]> (m_heap m)) (Pos.succ (m_next m)) (m_env m) (m_files m)).

Definition load (p : ptr) : M cell := fun m =>
  match p with
  | None => Undef NullDeref
  | Some l => match m_heap m !! l with
              | None => Undef Dangling
              | Some c => Ret c m
              end
  end.

Definition store (p : ptr) (c : cell) : M unit := fun m =>
  match p with
  | None => Undef NullDeref
  | Some l => match m_heap m !! l with
              | None => Undef Dangling
              | Some _ => Ret tt (Mem (<[l := c]> (m_heap m)) (m_next m) (m_env m) (m_files m))
              end
  end.

(** [free(NULL)] is a no-op; freeing a block that is not allocated is
    undefined. *)
Definition free (p : ptr) : M unit := fun m =>
  match p with
  | None => Ret tt m
  | Some l => match m_heap m !! l with
              | None => Undef Dangling
              | Some _ => Ret tt (Mem (delete l (m_heap m)) (m_next m) (m_env m) (m_files m))
              end
  end.

(** [malloc] of an object whose initial (indeterminate) contents is [c]. *)
Definition malloc_as (c : cell) : M ptr :=
  bind ask (fun ok => if ok then alloc c else ret NULL).

Definition malloc (n : Z) : M ptr := malloc_as (CRaw n).

Definition load_str (p : ptr) : M string :=
  bind (load p) (fun c =>
  match c with
  | CStr _ s => ret s
  | CZero _ => ret EmptyString
  | CRaw _ => undef Indeterminate
  | _ => undef BadType
  end).

Definition strlen (p : ptr) : M Z :=
  bind (load_str p) (fun s => ret (Z.of_nat (String.length s))).

(** [strdup(p)]: a fresh buffer of [strlen(p) + 1] bytes, or [NULL]. *)
Definition strdup (p : ptr) : M ptr :=
  bind (load_str p) (fun s => malloc_as (CStr (Z.of_nat (String.length s) + 1) s)).

(** [strdup] of a string literal. *)
Definition strdup_lit (s : string) : M ptr :=
  malloc_as (CStr (Z.of_nat (String.length s) + 1) s).

Definition buf_size (c : cell) : option Z :=
  match c with
  | CRaw n | CZero n | CStr n _ => Some n
  | _ => None
  end.

(** [sprintf(p, ...)] producing the text [s]: the buffer must have room for
    [s] and its terminating NUL. *)
Definition sprintf (p : ptr) (s : string) : M unit :=
  bind (load p) (fun c =>
  match buf_size c with
  | None => undef BadType
  | Some n =>
      if (Z.of_nat (String.length s) + 1 <=? n)%Z then store p (CStr n s)
      else undef Overflow
  end).

(** [snprintf(p, lim, ...)]: as above, but at most [lim - 1] characters are
    written ([lim > 0] here: both callers pass a positive size). *)
Definition snprintf (p : ptr) (lim : Z) (s : string) : M unit :=
  let s' := String.substring 0 (Z.to_nat (lim - 1)) s in
  sprintf p s'.

(** [fopen(path, "w+b")]: creates or truncates the file, or fails. *)
Definition fopen_wb (p : ptr) : M ptr :=
  bind (load_str p) (fun path =>
  bind ask (fun ok =>
  if ok then fun m =>
    alloc (CFile path) (Mem (m_heap m) (m_next m) (m_env m) (<[path := EmptyString]> (m_files m)))
  else ret NULL)).

Definition fclose (p : ptr) : M unit :=
  bind (load p) (fun c =>
  match c with
  | CFile _ => free p
  | _ => undef BadType
  end).

(** Reading an object that may still be indeterminate. *)
Definition defined {A} (o : option A) : M A :=
  match o with
  | Some a => ret a
  | None => undef Indeterminate
  end.

(** ** Reasoning about executions *)

(** Every allocated block lies below [m_next]. *)
Definition heap_below (h : gmap loc cell) (n : loc) : Prop :=
  forall l, is_Some (h !! l) -> (l < n)%positive.
Definition mem_ok (m : mem) : Prop := heap_below (m_heap m) (m_next m).

(** [wpx U c Q m]: running [c] from [m] ends in a result and a memory
    satisfying [Q], or is undefined for a reason in [U].  [wp c Q m] excludes
    undefined behaviour altogether. *)
Definition wpx {A} (U : ub -> Prop) (c : M A) (Q : A -> mem -> Prop) (m : mem) : Prop :=
  match c m with
  | Ret a m' => Q a m'
  | Undef u => U u
  end.

(** The environment's answer to the next request. *)
Definition env_ok (e : list bool) : bool :=
  match e with [] => true | b :: _ => b end.

Lemma env_ok_false e : env_ok e = false -> false ∈ e.
Proof. destruct e as [|[] e]; simpl; try done. intros _. by left. Qed.

Lemma env_tail e : false ∈ tail e -> false ∈ e.
Proof. destruct e; simpl; [done|]. by right. Qed.

Lemma wp_ret U {A} (a : A) Q m : Q a m -> wpx U (ret a) Q m.
Proof. done. Qed.

Lemma wp_bind U {A B} (c : M A) (k : A -> M B) Q m :
  wpx U c (fun a m' => wpx U (k a) Q m') m -> wpx U (bind c k) Q m.
Proof. unfold wpx, bind. by destruct (c m). Qed.

Lemma wp_mono U {A} (c : M A) (P Q : A -> mem -> Prop) m :
  wpx U c P m -> (forall a m', P a m' -> Q a m') -> wpx U c Q m.
Proof. unfold wpx. destruct (c m); naive_solver. Qed.

Lemma wp_exec {A} (c : M A) Q m :
  wpx (fun _ => False) c Q m -> exists a m', c m = Ret a m' /\ Q a m'.
Proof. unfold wpx. destruct (c m); [eauto|done]. Qed.

Lemma wp_load U l c Q h n e f :
  h !! l = Some c -> Q c (Mem h n e f) -> wpx U (load (Some l)) Q (Mem h n e f).
Proof. unfold wpx, load; simpl. by intros ->. Qed.

Lemma wp_store U l c c' Q h n e f :
  h !! l = Some c' -> Q tt (Mem (<[l:=c]> h) n e f) -> wpx U (store (Some l) c) Q (Mem h n e f).
Proof. unfold wpx, store; simpl. by intros ->. Qed.

Lemma wp_free U l c Q h n e f :
  h !! l = Some c -> Q tt (Mem (delete l h) n e f) -> wpx U (free (Some l)) Q (Mem h n e f).
Proof. unfold wpx, free; simpl. by intros ->. Qed.

Lemma wp_free_null U (Q : unit -> mem -> Prop) m : Q tt m -> wpx U (free NULL) Q m.
Proof. done. Qed.

Lemma wp_malloc_as U c Q h n e f :
  (env_ok e = true -> Q (Some n) (Mem (<[n:=c]> h) (Pos.succ n) (tail e) f)) ->
  (env_ok e = false -> Q NULL (Mem h n (tail e) f)) ->
  wpx U (malloc_as c) Q (Mem h n e f).
Proof.
  unfold wpx, malloc_as, bind, ask, alloc, ret; simpl.
  destruct e as [|[] e]; simpl; auto.
Qed.

Lemma wp_load_str U l z s Q h n e f :
  h !! l = Some (CStr z s) -> Q s (Mem h n e f) -> wpx U (load_str (Some l)) Q (Mem h n e f).
Proof. intros Hl HQ. apply wp_bind. by eapply wp_load. Qed.

Lemma wp_strdup U l z s Q h n e f :
  h !! l = Some (CStr z s) ->
  wpx U (malloc_as (CStr (Z.of_nat (String.length s) + 1) s)) Q (Mem h n e f) ->
  wpx U (strdup (Some l)) Q (Mem h n e f).
Proof. intros Hl HQ. apply wp_bind. by eapply wp_load_str. Qed.

Lemma wp_sprintf U l c z s Q h n e f :
  h !! l = Some c -> buf_size c = Some z -> (Z.of_nat (String.length s) + 1 <= z)%Z ->
  Q tt (Mem (<[l:=CStr z s]> h) n e f) -> wpx U (sprintf (Some l) s) Q (Mem h n e f).
Proof.
  intros Hl Hc Hz HQ. apply wp_bind. eapply wp_load; [done|]. rewrite Hc.
  apply Z.leb_le in Hz. rewrite Hz. by eapply wp_store.
Qed.

Lemma wp_sprintf_null (U : ub -> Prop) s Q m : U NullDeref -> wpx U (sprintf NULL s) Q m.
Proof. done. Qed.

Lemma heap_below_fresh h n l : heap_below h n -> (n <= l)%positive -> h !! l = None.
Proof.
  intros Hok Hl. destruct (h !! l) eqn:E; [|done].
  assert (l < n)%positive by (apply Hok; eauto). lia.
Qed.

Lemma heap_below_lt h n l c : heap_below h n -> h !! l = Some c -> (l < n)%positive.
Proof. intros Hok Hl. apply Hok. eauto. Qed.

Lemma heap_below_insert h n l c :
  heap_below h n -> (l < n)%positive -> heap_below (<[l:=c]> h) n.
Proof. intros Hok Hl k [x Hk]. rewrite lookup_insert in Hk. case_decide; subst; eauto. Qed.

Lemma heap_below_alloc h n c : heap_below h n -> heap_below (<[n:=c]> h) (Pos.succ n).
Proof.
  intros Hok. apply heap_below_insert; [|lia].
  intros k Hk. apply Hok in Hk. lia.
Qed.

Lemma heap_below_delete h n l : heap_below h n -> heap_below (delete l h) n.
Proof. intros Hok k [x Hk]. rewrite lookup_delete in Hk. case_decide; simplify_eq; eauto. Qed.

End CMem.

Arguments cell S : clear implicits.
Arguments mem S : clear implicits.
Arguments outcome S A : clear implicits.
Arguments M S A : clear implicits.
Arguments Ret {S A} a m.
Arguments Undef {S A} u.

Abbreviation wp := (wpx (fun _ => False)).

Declare Scope cmem_scope.
Delimit Scope cmem_scope with cmem.
Notation "x <-- c ;; k" := (bind c (fun x => k))
  (at level 100, c at next level, right associativity) : cmem_scope.
Notation "c ;;; k" := (bind c (fun _ => k))
  (at level 100, k at level 200, right associativity) : cmem_scope.
Open Scope cmem_scope.

#[export] Hint Resolve heap_below_insert heap_below_alloc heap_below_delete : epi.
#[export] Hint Extern 1 (_ < _)%positive => lia : epi.
#[export] Hint Resolve env_ok_false env_tail : epi.

(** Lookups in a heap built by updates: decide the equalities of addresses. *)
Ltac heap_lookup :=
  repeat first
    [ rewrite lookup_insert_eq
    | rewrite lookup_delete_eq
    | rewrite lookup_insert_ne by (intros ?; subst; lia)
    | rewrite lookup_delete_ne by (intros ?; subst; lia) ];
  try eassumption; try reflexivity.

(** Equality of two such heaps, by extensionality. *)
Ltac heap_ext :=
  simpl; apply map_eq; intros ?i;
  repeat first [rewrite lookup_insert | rewrite lookup_delete | rewrite lookup_union
               | rewrite lookup_empty | rewrite lookup_singleton];
  repeat case_decide; simplify_eq; try lia; try congruence; auto;
  try (first [symmetry|idtac]; eapply heap_below_fresh; [eassumption|lia]).

(** Distinctness of concrete addresses. *)
Ltac nodup_locs :=
  simpl; repeat (apply NoDup_cons_2; [rewrite list_elem_of_In; simpl; intuition lia|]);
  apply NoDup_nil_2.

Ltac nodup_inv H :=
  simpl in H; rewrite ?list.NoDup_cons, ?list_elem_of_In in H; simpl in H;
  repeat match goal with
  | H : _ /\ _ |- _ => destruct H
  | H : ~ (_ \/ _) |- _ => apply Decidable.not_or in H
  end.

(** Concrete blocks above [n] are not allocated. *)
Ltac fresh_locs :=
  simpl; repeat (apply Forall_cons_2; [simpl; eapply heap_below_fresh; [eassumption|lia]|]);
  apply Forall_nil_2.

(** One step of symbolic execution. *)
Ltac wp_step :=
  lazymatch goal with
  | |- wpx _ (bind _ _) _ _ => apply wp_bind
  | |- wpx _ (ret _) _ _ => apply wp_ret
  | |- wpx _ (load (Some _)) _ _ => eapply wp_load; [heap_lookup|]
  | |- wpx _ (store (Some _) _) _ _ => eapply wp_store; [heap_lookup|]
  | |- wpx _ (free (Some _)) _ _ => eapply wp_free; [heap_lookup|]
  | |- wpx _ (free None) _ _ => apply wp_free_null
  | |- wpx _ (malloc_as _) _ _ => apply wp_malloc_as; intros ?Henv
  | |- wpx _ (malloc _) _ _ => unfold malloc; apply wp_malloc_as; intros ?Henv
  | |- wpx _ (strdup (Some _)) _ _ => eapply wp_strdup; [heap_lookup|]
  | |- wpx _ (strdup_lit _) _ _ => unfold strdup_lit; apply wp_malloc_as; intros ?Henv
  | |- wpx _ (load_str (Some _)) _ _ => eapply wp_load_str; [heap_lookup|]
  end; cbv beta iota zeta.
