(* ===== verification/Core.v ===== *)
(** * The core API: [src/src/epiphanydb_core.c]

    Contexts, tables, transactions and indexes are C objects behind opaque
    handles.  Every function of the file is a definition below, over the heap
    model of [CMem]; the [struct]s are the records [EpiphanyDBContext], ...

    Two error constants the C file uses, [EPIPHANYDB_ERROR_OUT_OF_MEMORY] and
    [EPIPHANYDB_ERROR_STORAGE_ENGINE], are declared nowhere in the repository;
    they are parameters of the model. *)
From S2P Require Import Prelude CMem.
Local Open Scope Z_scope.

(** ** Constants and data of [include/epiphanydb.h] *)

Definition EPIPHANYDB_VERSION_STRING : string := "1.0.0".

Inductive EpiphanyDBStorageType :=
| EPIPHANYDB_STORAGE_HEAP
| EPIPHANYDB_STORAGE_COLUMNAR
| EPIPHANYDB_STORAGE_VECTOR
| EPIPHANYDB_STORAGE_TIMESERIES
| EPIPHANYDB_STORAGE_GRAPH.

(** The enumerators' values; [EPIPHANYDB_STORAGE_MAX] closes the list.  The
    enumeration has no negative enumerator, so a value of the C type is an
    unsigned 32-bit number. *)
Definition storage_type_val (t : EpiphanyDBStorageType) : Z :=
  match t with
  | EPIPHANYDB_STORAGE_HEAP => 0
  | EPIPHANYDB_STORAGE_COLUMNAR => 1
  | EPIPHANYDB_STORAGE_VECTOR => 2
  | EPIPHANYDB_STORAGE_TIMESERIES => 3
  | EPIPHANYDB_STORAGE_GRAPH => 4
  end.
Definition EPIPHANYDB_STORAGE_MAX : Z := 5.

Inductive EpiphanyDBError :=
| EPIPHANYDB_SUCCESS
| EPIPHANYDB_ERROR_INVALID_PARAM
| EPIPHANYDB_ERROR_NOT_FOUND
| EPIPHANYDB_ERROR_ALREADY_EXISTS
| EPIPHANYDB_ERROR_INDEX
| EPIPHANYDB_ERROR_TRANSACTION
| EPIPHANYDB_ERROR_STORAGE
| EPIPHANYDB_ERROR_MEMORY
| EPIPHANYDB_ERROR_IO
| EPIPHANYDB_ERROR_UNKNOWN.

Definition error_val (e : EpiphanyDBError) : Z :=
  match e with
  | EPIPHANYDB_SUCCESS => 0
  | EPIPHANYDB_ERROR_INVALID_PARAM => -1
  | EPIPHANYDB_ERROR_NOT_FOUND => -2
  | EPIPHANYDB_ERROR_ALREADY_EXISTS => -3
  | EPIPHANYDB_ERROR_INDEX => -4
  | EPIPHANYDB_ERROR_TRANSACTION => -5
  | EPIPHANYDB_ERROR_STORAGE => -6
  | EPIPHANYDB_ERROR_MEMORY => -7
  | EPIPHANYDB_ERROR_IO => -8
  | EPIPHANYDB_ERROR_UNKNOWN => -99
  end.

Abbreviation SUCCESS := (error_val EPIPHANYDB_SUCCESS).
Abbreviation INVALID_PARAM := (error_val EPIPHANYDB_ERROR_INVALID_PARAM).

Record EpiphanyDBConfig := Config {
  data_directory : ptr;
  log_directory : ptr;
  cfg_shared_memory_size : Z;
  max_connections : Z;
  enable_logging : bool;
  enable_compression : bool;
  default_storage_type : Z
}.

(** ** Internal structures of [epiphanydb_core.c] *)

Record EpiphanyDBContext := Context_ {
  config : EpiphanyDBConfig;
  initialized : bool;
  shared_memory : ptr;
  shared_memory_size : Z;
  connection_count : Z
}.

Record EpiphanyDBTable := Table_ {
  tbl_name : ptr;
  storage_type : Z;
  tbl_context : ptr;
  storage_handle : ptr;
  is_open : bool
}.

Record EpiphanyDBTransaction := Transaction_ {
  txn_context : ptr;
  transaction_id : Z;
  is_active : bool;
  transaction_data : ptr
}.

Record EpiphanyDBIndex := Index_ {
  idx_name : ptr;
  idx_table : ptr;
  column_names : ptr;
  num_columns : Z;
  index_handle : ptr
}.

(** What [memset(p, 0, sizeof *p)] leaves in each. *)
Definition zero_config : EpiphanyDBConfig := Config NULL NULL 0 0 false false 0.
Definition zero_context : EpiphanyDBContext := Context_ zero_config false NULL 0 0.
Definition zero_table : EpiphanyDBTable := Table_ NULL 0 NULL NULL false.
Definition zero_transaction : EpiphanyDBTransaction := Transaction_ NULL 0 false NULL.

Inductive core_struct :=
| SConfig (c : EpiphanyDBConfig)
| SContext (c : EpiphanyDBContext)
| STable (t : EpiphanyDBTable)
| STransaction (t : EpiphanyDBTransaction)
| SIndex (i : EpiphanyDBIndex).

Abbreviation CM := (M core_struct).

Definition get_config (p : ptr) : CM EpiphanyDBConfig :=
  c <-- load p;;
  match c with
  | CStruct (SConfig x) => ret x
  | CRaw _ => undef Indeterminate
  | _ => undef BadType
  end.
Definition get_context (p : ptr) : CM EpiphanyDBContext :=
  c <-- load p;;
  match c with
  | CStruct (SContext x) => ret x
  | CRaw _ => undef Indeterminate
  | _ => undef BadType
  end.
Definition get_table (p : ptr) : CM EpiphanyDBTable :=
  c <-- load p;;
  match c with
  | CStruct (STable x) => ret x
  | CRaw _ => undef Indeterminate
  | _ => undef BadType
  end.
Definition get_transaction (p : ptr) : CM EpiphanyDBTransaction :=
  c <-- load p;;
  match c with
  | CStruct (STransaction x) => ret x
  | CRaw _ => undef Indeterminate
  | _ => undef BadType
  end.

Definition put_context (p : ptr) (x : EpiphanyDBContext) : CM unit := store p (CStruct (SContext x)).
Definition put_table (p : ptr) (x : EpiphanyDBTable) : CM unit := store p (CStruct (STable x)).
Definition put_transaction (p : ptr) (x : EpiphanyDBTransaction) : CM unit :=
  store p (CStruct (STransaction x)).

(** Field assignments. *)
Definition set_config (x : EpiphanyDBContext) (c : EpiphanyDBConfig) : EpiphanyDBContext :=
  Context_ c (initialized x) (shared_memory x) (shared_memory_size x) (connection_count x).
Definition set_data_directory (c : EpiphanyDBConfig) (p : ptr) : EpiphanyDBConfig :=
  Config p (log_directory c) (cfg_shared_memory_size c) (max_connections c)
    (enable_logging c) (enable_compression c) (default_storage_type c).
Definition set_log_directory (c : EpiphanyDBConfig) (p : ptr) : EpiphanyDBConfig :=
  Config (data_directory c) p (cfg_shared_memory_size c) (max_connections c)
    (enable_logging c) (enable_compression c) (default_storage_type c).
Definition set_shared_memory (x : EpiphanyDBContext) (p : ptr) : EpiphanyDBContext :=
  Context_ (config x) (initialized x) p (shared_memory_size x) (connection_count x).
Definition set_shared_memory_size (x : EpiphanyDBContext) (n : Z) : EpiphanyDBContext :=
  Context_ (config x) (initialized x) (shared_memory x) n (connection_count x).
Definition set_initialized (x : EpiphanyDBContext) (b : bool) : EpiphanyDBContext :=
  Context_ (config x) b (shared_memory x) (shared_memory_size x) (connection_count x).
Definition set_connection_count (x : EpiphanyDBContext) (n : Z) : EpiphanyDBContext :=
  Context_ (config x) (initialized x) (shared_memory x) (shared_memory_size x) n.

(** Sizes of the structures on an LP64 machine. *)
Definition sizeof_EpiphanyDBContext : Z := 72.
Definition sizeof_EpiphanyDBTable : Z := 40.
Definition sizeof_EpiphanyDBTransaction : Z := 32.

(** A block of statements that may return early: [Some r] when it executed
    [return r], [None] when control falls through to [k]. *)
Definition or_return {A} (b : CM (option A)) (k : CM A) : CM A :=
  r <-- b;;
  match r with
  | Some e => ret e
  | None => k
  end.

(** ** Name tables *)

Definition storage_engine_names : list string :=
  ["heap"; "columnar"; "vector"; "timeseries"; "graph"]%string.

Definition error_messages : list string :=
  ["Success"; "Invalid parameter"; "Out of memory"; "I/O error"; "Storage engine error";
   "Transaction error"; "Index error"; "Unknown error"]%string.

Definition epiphanydb_version : string := EPIPHANYDB_VERSION_STRING.

(** An access [a[i]] to a constant table; [None] is an access out of bounds. *)
Definition table_at (a : list string) (i : Z) : option string :=
  if i <? 0 then None else a !! Z.to_nat i.

(** The comparison with [sizeof a / sizeof a[0]] converts [error] to the
    unsigned 64-bit [size_t]. *)
Definition epiphanydb_error_message (error : Z) : option string :=
  if (0 <=? error) && (u64 error <? Z.of_nat (length error_messages)) then
    table_at error_messages error
  else Some "Unknown error code"%string.

Definition epiphanydb_storage_engine_available (type : Z) : bool :=
  (0 <=? u32 type) && (u32 type <? EPIPHANYDB_STORAGE_MAX).

Definition epiphanydb_storage_engine_name (type : Z) : option string :=
  if (0 <=? u32 type) && (u32 type <? EPIPHANYDB_STORAGE_MAX) then
    table_at storage_engine_names (u32 type)
  else Some "unknown"%string.

(** ** The API *)

Section API.
Context (EPIPHANYDB_ERROR_OUT_OF_MEMORY EPIPHANYDB_ERROR_STORAGE_ENGINE : Z).

(** *** Contexts *)

(** The three blocks of [epiphanydb_init] that can run out of memory. *)
Definition init_data_directory (cfg : EpiphanyDBConfig) (context : ptr) : CM (option Z) :=
  if is_null (data_directory cfg) then ret None else
  d <-- strdup (data_directory cfg);;
  x <-- get_context context;;
  put_context context (set_config x (set_data_directory (config x) d));;;
  if is_null d then
    free context;;;
    ret (Some EPIPHANYDB_ERROR_OUT_OF_MEMORY)
  else ret None.

Definition init_log_directory (cfg : EpiphanyDBConfig) (context : ptr) : CM (option Z) :=
  if is_null (log_directory cfg) then ret None else
  d <-- strdup (log_directory cfg);;
  x <-- get_context context;;
  put_context context (set_config x (set_log_directory (config x) d));;;
  if is_null d then
    x <-- get_context context;;
    free (data_directory (config x));;;
    free context;;;
    ret (Some EPIPHANYDB_ERROR_OUT_OF_MEMORY)
  else ret None.

Definition init_shared_memory (cfg : EpiphanyDBConfig) (context : ptr) : CM (option Z) :=
  if negb (0 <? cfg_shared_memory_size cfg) then ret None else
  sm <-- malloc (cfg_shared_memory_size cfg);;
  x <-- get_context context;;
  put_context context (set_shared_memory x sm);;;
  if is_null sm then
    x <-- get_context context;;
    free (log_directory (config x));;;
    free (data_directory (config x));;;
    free context;;;
    ret (Some EPIPHANYDB_ERROR_OUT_OF_MEMORY)
  else
    x <-- get_context context;;
    put_context context (set_shared_memory_size x (cfg_shared_memory_size cfg));;;
    store sm (CZero (cfg_shared_memory_size cfg));;;
    ret None.

Definition epiphanydb_init (ctx cfgp : ptr) : CM Z :=
  if is_null ctx || is_null cfgp then ret INVALID_PARAM else
  context <-- malloc sizeof_EpiphanyDBContext;;
  if is_null context then ret EPIPHANYDB_ERROR_OUT_OF_MEMORY else
  put_context context zero_context;;;
  cfg <-- get_config cfgp;;
  x <-- get_context context;;
  put_context context (set_config x cfg);;;
  or_return (init_data_directory cfg context) (
  or_return (init_log_directory cfg context) (
  or_return (init_shared_memory cfg context) (
  x <-- get_context context;;
  put_context context (set_connection_count (set_initialized x true) 0);;;
  store ctx (CPtr context);;;
  ret SUCCESS))).

Definition epiphanydb_cleanup (ctx : ptr) : CM unit :=
  if is_null ctx then ret tt else
  x <-- get_context ctx;;
  (if is_null (shared_memory x) then ret tt else free (shared_memory x));;;
  (if is_null (data_directory (config x)) then ret tt else free (data_directory (config x)));;;
  (if is_null (log_directory (config x)) then ret tt else free (log_directory (config x)));;;
  put_context ctx zero_context;;;
  free ctx.

(** *** Tables *)

Definition epiphanydb_create_table (ctx table_name : ptr) (type : Z)
    (schema_definition table : ptr) : CM Z :=
  if is_null ctx || is_null table_name || is_null schema_definition || is_null table then
    ret INVALID_PARAM else
  x <-- get_context ctx;;
  if negb (initialized x) then ret INVALID_PARAM else
  if negb (epiphanydb_storage_engine_available type) then
    ret EPIPHANYDB_ERROR_STORAGE_ENGINE else
  new_table <-- malloc sizeof_EpiphanyDBTable;;
  if is_null new_table then ret EPIPHANYDB_ERROR_OUT_OF_MEMORY else
  put_table new_table zero_table;;;
  name <-- strdup table_name;;
  put_table new_table (Table_ name 0 NULL NULL false);;;
  if is_null name then
    free new_table;;;
    ret EPIPHANYDB_ERROR_OUT_OF_MEMORY
  else
    put_table new_table (Table_ name (u32 type) ctx NULL true);;;
    store table (CPtr new_table);;;
    ret SUCCESS.

(** The placeholder schema text is the literal the C code passes; the callee
    only compares its address with [NULL], so any non-null pointer [lit] to
    static storage stands for it. *)
Definition epiphanydb_open_table (lit : loc) (ctx table_name table : ptr) : CM Z :=
  if is_null ctx || is_null table_name || is_null table then ret INVALID_PARAM else
  x <-- get_context ctx;;
  if negb (initialized x) then ret INVALID_PARAM else
  epiphanydb_create_table ctx table_name (storage_type_val EPIPHANYDB_STORAGE_HEAP)
    (Some lit) table.

Definition epiphanydb_close_table (table : ptr) : CM unit :=
  if is_null table then ret tt else
  t <-- get_table table;;
  (if is_null (tbl_name t) then ret tt else free (tbl_name t));;;
  put_table table zero_table;;;
  free table.

Definition epiphanydb_drop_table (ctx table_name : ptr) : CM Z :=
  if is_null ctx || is_null table_name then ret INVALID_PARAM else
  x <-- get_context ctx;;
  if negb (initialized x) then ret INVALID_PARAM else
  ret SUCCESS.

(** *** Transactions *)

Definition epiphanydb_begin_transaction (ctx txn : ptr) : CM Z :=
  if is_null ctx || is_null txn then ret INVALID_PARAM else
  x <-- get_context ctx;;
  if negb (initialized x) then ret INVALID_PARAM else
  transaction <-- malloc sizeof_EpiphanyDBTransaction;;
  if is_null transaction then ret EPIPHANYDB_ERROR_OUT_OF_MEMORY else
  put_transaction transaction zero_transaction;;;
  put_transaction transaction (Transaction_ ctx 1 true NULL);;;
  store txn (CPtr transaction);;;
  ret SUCCESS.

Definition set_is_active (t : EpiphanyDBTransaction) (b : bool) : EpiphanyDBTransaction :=
  Transaction_ (txn_context t) (transaction_id t) b (transaction_data t).

Definition epiphanydb_commit_transaction (txn : ptr) : CM Z :=
  if is_null txn then ret INVALID_PARAM else
  t <-- get_transaction txn;;
  if negb (is_active t) then ret INVALID_PARAM else
  put_transaction txn (set_is_active t false);;;
  free txn;;;
  ret SUCCESS.

Definition epiphanydb_rollback_transaction (txn : ptr) : CM Z :=
  if is_null txn then ret INVALID_PARAM else
  t <-- get_transaction txn;;
  if negb (is_active t) then ret INVALID_PARAM else
  put_transaction txn (set_is_active t false);;;
  free txn;;;
  ret SUCCESS.

(** *** Data operations, indexes and utilities *)

Definition epiphanydb_insert (table txn data : ptr) (data_size : Z) : CM Z :=
  if is_null table || is_null data || (data_size =? 0) then ret INVALID_PARAM else
  ret SUCCESS.

Definition epiphanydb_update (table txn key : ptr) (key_size : Z) (data : ptr) (data_size : Z) : CM Z :=
  if is_null table || is_null key || (key_size =? 0) || is_null data || (data_size =? 0) then
    ret INVALID_PARAM else
  ret SUCCESS.

Definition epiphanydb_delete (table txn key : ptr) (key_size : Z) : CM Z :=
  if is_null table || is_null key || (key_size =? 0) then ret INVALID_PARAM else
  ret SUCCESS.

Definition epiphanydb_select (table txn key : ptr) (key_size : Z) (data data_size : ptr) : CM Z :=
  if is_null table || is_null key || (key_size =? 0) || is_null data || is_null data_size then
    ret INVALID_PARAM else
  store data (CPtr NULL);;;
  store data_size (CInt 0);;;
  ret SUCCESS.

Definition epiphanydb_create_index (table index_name columns : ptr) (ncolumns : Z) (index : ptr) : CM Z :=
  if is_null table || is_null index_name || is_null columns || (ncolumns <=? 0) || is_null index then
    ret INVALID_PARAM else
  store index (CPtr NULL);;;
  ret SUCCESS.

Definition epiphanydb_drop_index (index : ptr) : CM Z :=
  if is_null index then ret INVALID_PARAM else ret SUCCESS.

Definition epiphanydb_get_table_stats (table num_rows table_size : ptr) : CM Z :=
  if is_null table || is_null num_rows || is_null table_size then ret INVALID_PARAM else
  store num_rows (CInt 0);;;
  store table_size (CInt 0);;;
  ret SUCCESS.

Definition epiphanydb_vacuum_table (table : ptr) : CM Z :=
  if is_null table then ret INVALID_PARAM else ret SUCCESS.

Definition epiphanydb_analyze_table (table : ptr) : CM Z :=
  if is_null table then ret INVALID_PARAM else ret SUCCESS.

End API.
