(* ===== verification/CoreSpec.v ===== *)
(** * What the core API guarantees

    Ownership predicates for the handles of [Core], the behaviour of every
    operation on every branch, and the memory safety of whole client
    sessions. *)
From S2P Require Import Prelude CMem Core.
Local Open Scope Z_scope.

Abbreviation heap := (gmap loc (cell core_struct)).
Abbreviation blocks := (list (loc * cell core_struct)).

(** ** Owned blocks *)

(** The heap [h] extended with the blocks [bs]. *)
Definition add_blocks (bs : blocks) (h : heap) : heap :=
  foldr (fun b h => <[b.1 := b.2]> h) h bs.

(** [bs] are distinct blocks, none of which is allocated in [h]. *)
Definition disjoint_from (bs : blocks) (h : heap) : Prop :=
  NoDup bs.*1 /\ Forall (fun b => h !! b.1 = None) bs.

Lemma add_blocks_app a b h : add_blocks (a ++ b) h = add_blocks a (add_blocks b h).
Proof. apply foldr_app. Qed.

Lemma add_blocks_lookup_ne bs h l : l ∉ bs.*1 -> add_blocks bs h !! l = h !! l.
Proof.
  induction bs as [|[k c] bs IH]; simpl; [done|].
  rewrite not_elem_of_cons. intros [??]. rewrite lookup_insert_ne by done. auto.
Qed.

Lemma add_blocks_insert bs h l c :
  l ∉ bs.*1 -> add_blocks bs (<[l:=c]> h) = <[l:=c]> (add_blocks bs h).
Proof.
  induction bs as [|[k d] bs IH]; simpl; [done|].
  rewrite not_elem_of_cons. intros [??]. rewrite IH by done. by apply insert_insert_ne.
Qed.

Lemma add_blocks_perm bs bs' h :
  NoDup bs.*1 -> bs ≡ₚ bs' -> add_blocks bs h = add_blocks bs' h.
Proof.
  intros Hnd Hp. revert Hnd. induction Hp as [|[k c] ?? ? IH|[k c] [k' c'] ?|??? Hp1 IH1 ? IH2];
    simpl; intros Hnd.
  - done.
  - rewrite IH; [done|]. by apply NoDup_cons_1_2 in Hnd.
  - apply insert_insert_ne. nodup_inv Hnd. congruence.
  - rewrite IH1 by done. apply IH2. by rewrite <- Hp1.
Qed.

Lemma disjoint_from_app a b h :
  disjoint_from (a ++ b) h <-> disjoint_from b h /\ disjoint_from a (add_blocks b h).
Proof.
  unfold disjoint_from. rewrite fmap_app, list.NoDup_app, list.Forall_app. split.
  - intros [(Ha & Hab & Hb) [Fa Fb]]. split; [done|]. split; [done|].
    rewrite list.Forall_forall in *. intros x Hx. rewrite add_blocks_lookup_ne; [by apply Fa|].
    apply Hab. by apply list_elem_of_fmap_2.
  - intros [[Hb Fb] [Ha Fa]]. rewrite list.Forall_forall in Fa.
    assert (Hab : forall x, x ∈ a -> x.1 ∉ b.*1).
    { intros x Hx Hin. apply Fa in Hx. clear Fa Fb Ha Hb.
      induction b as [|[k c] b IH]; simpl in *; [by apply elem_of_nil in Hin|].
      rewrite lookup_insert in Hx. case_decide; [done|].
      apply elem_of_cons in Hin as [?|]; [congruence|]. auto. }
    split; [split; [done|split; [|done]]|split; [|done]].
    + intros k (x & -> & Hx)%list_elem_of_fmap. by apply Hab.
    + apply list.Forall_forall. intros x Hx.
      rewrite <- (add_blocks_lookup_ne b) by auto. by apply Fa.
Qed.

Lemma disjoint_from_perm a b h : a ≡ₚ b -> disjoint_from a h -> disjoint_from b h.
Proof. intros Hp [? ?]. split; by rewrite <- Hp. Qed.

Lemma disjoint_from_not_in bs h l c : disjoint_from bs h -> h !! l = Some c -> l ∉ bs.*1.
Proof.
  intros [_ F] Hl (x & -> & Hx)%list_elem_of_fmap.
  rewrite list.Forall_forall in F. rewrite F in Hl; done.
Qed.

(** A string argument of the API: [NULL], or a string of the heap. *)
Inductive str_arg (h : heap) : ptr -> option string -> Prop :=
| Str_arg_null : str_arg h NULL None
| Str_arg_some a z s : h !! a = Some (CStr z s) -> str_arg h (Some a) (Some s).

(** An owned copy of an optional string: an exactly sized buffer. *)
Inductive str_block : ptr -> option string -> blocks -> Prop :=
| Str_block_null : str_block NULL None []
| Str_block_some a s :
    str_block (Some a) (Some s) [(a, CStr (Z.of_nat (String.length s) + 1) s)].

(** The owned shared memory of size [n]: zeroed, and absent when [n = 0]. *)
Inductive shm_block (n : Z) : ptr -> blocks -> Prop :=
| Shm_none : n <= 0 -> shm_block n NULL []
| Shm_some a : 0 < n -> shm_block n (Some a) [(a, CZero n)].

(** The blocks of a live context with directories [dd], [ld] and [n] bytes of
    shared memory. *)
Inductive context_rep (c : loc) (dd ld : option string) (n : Z) : blocks -> Prop :=
| Context_rep x bd bl bs :
    initialized x = true ->
    connection_count x = 0 ->
    str_block (data_directory (config x)) dd bd ->
    str_block (log_directory (config x)) ld bl ->
    shm_block n (shared_memory x) bs ->
    context_rep c dd ld n ((c, CStruct (SContext x)) :: bd ++ bl ++ bs).

(** The blocks of an open table named [s] of storage type [ty]. *)
Inductive table_rep (t c : loc) (s : string) (ty : Z) : blocks -> Prop :=
| Table_rep a :
    table_rep t c s ty
      [(t, CStruct (STable (Table_ (Some a) ty (Some c) NULL true)));
       (a, CStr (Z.of_nat (String.length s) + 1) s)].

(** The block of an active transaction. *)
Inductive txn_rep (t c : loc) : blocks -> Prop :=
| Txn_rep : txn_rep t c [(t, CStruct (STransaction (Transaction_ (Some c) 1 true NULL)))].

Lemma wp_get_context l x Q h n e f :
  h !! l = Some (CStruct (SContext x)) -> Q x (Mem h n e f) ->
  wp (get_context (Some l)) Q (Mem h n e f).
Proof. intros. apply wp_bind. by eapply wp_load. Qed.

Lemma wp_get_config l x Q h n e f :
  h !! l = Some (CStruct (SConfig x)) -> Q x (Mem h n e f) ->
  wp (get_config (Some l)) Q (Mem h n e f).
Proof. intros. apply wp_bind. by eapply wp_load. Qed.

Lemma wp_get_table l x Q h n e f :
  h !! l = Some (CStruct (STable x)) -> Q x (Mem h n e f) ->
  wp (get_table (Some l)) Q (Mem h n e f).
Proof. intros. apply wp_bind. by eapply wp_load. Qed.

Lemma wp_get_transaction l x Q h n e f :
  h !! l = Some (CStruct (STransaction x)) -> Q x (Mem h n e f) ->
  wp (get_transaction (Some l)) Q (Mem h n e f).
Proof. intros. apply wp_bind. by eapply wp_load. Qed.

Ltac core_step :=
  first
  [ wp_step
  | lazymatch goal with
    | |- wpx _ (get_context (Some _)) _ _ => eapply wp_get_context; [heap_lookup|]
    | |- wpx _ (get_config (Some _)) _ _ => eapply wp_get_config; [heap_lookup|]
    | |- wpx _ (get_table (Some _)) _ _ => eapply wp_get_table; [heap_lookup|]
    | |- wpx _ (get_transaction (Some _)) _ _ => eapply wp_get_transaction; [heap_lookup|]
    | |- wpx _ (put_context _ _) _ _ => unfold put_context
    | |- wpx _ (put_table _ _) _ _ => unfold put_table
    | |- wpx _ (put_transaction _ _) _ _ => unfold put_transaction
    | |- wpx _ (or_return _ _) _ _ => unfold or_return
    end ]; simpl.

Section spec.
Context (OOM SENG : Z).

(** The two ways an [epiphanydb_init] ends. *)
Ltac init_fails := left; split; [done|split; [heap_ext|eauto 6 with epi]].
Ltac init_succeeds :=
  right; split; [done|];
  match goal with
  | |- context [<[?a := CStruct (SContext ?x)]> _] =>
    eexists a, _; split;
    [ apply (Context_rep a _ _ _ x); simpl; [done|done|constructor..]; b2p; lia
    | split; [split; [nodup_locs|fresh_locs]
             | heap_ext] ]
  end.

(** [epiphanydb_init] for every answer of the allocator: it is always
    defined; when it reports an error the heap is exactly as before; when it
    succeeds it has added exactly one context. *)
Lemma init_wp h n e f ctx p0 cfgp cfg dd ld :
  heap_below h n ->
  h !! ctx = Some (CPtr p0) ->
  h !! cfgp = Some (CStruct (SConfig cfg)) ->
  str_arg h (data_directory cfg) dd ->
  str_arg h (log_directory cfg) ld ->
  wp (epiphanydb_init OOM (Some ctx) (Some cfgp))
    (fun r m' => heap_below (m_heap m') (m_next m') /\ m_files m' = f /\
       ((r = OOM /\ m_heap m' = h /\ false ∈ e) \/
        (r = SUCCESS /\ exists c bs,
           context_rep c dd ld (cfg_shared_memory_size cfg) bs /\
           disjoint_from bs h /\
           m_heap m' = <[ctx := CPtr (Some c)]> (add_blocks bs h))))
    (Mem h n e f).
Proof.
  intros Hb Hctx Hcfg Hd Hl.
  pose proof (heap_below_lt _ _ _ _ Hb Hctx). pose proof (heap_below_lt _ _ _ _ Hb Hcfg).
  unfold epiphanydb_init, init_data_directory, init_log_directory, init_shared_memory. simpl.
  destruct cfg as [d l sz mc el ec ds]; simpl in *.
  inversion Hd as [|ad zd sd Had]; inversion Hl as [|al zl sl Hal]; subst; simpl in *;
  try pose proof (heap_below_lt _ _ _ _ Hb Had); try pose proof (heap_below_lt _ _ _ _ Hb Hal);
  repeat core_step; try (destruct (0 <? sz) eqn:?; simpl); repeat core_step.
  all: split; [eauto 20 with epi|split; [done|]].
  all: first [solve [init_fails] | init_succeeds].
Qed.

(** Releasing a context gives back exactly its blocks. *)
Lemma cleanup_wp h n e f c dd ld sz bs :
  context_rep c dd ld sz bs -> disjoint_from bs h ->
  wp (epiphanydb_cleanup (Some c)) (fun _ m' => m' = Mem h n e f)
    (Mem (add_blocks bs h) n e f).
Proof.
  intros [x bd bl bm Hi Hc Hd Hl Hs] [Hnd Hfr].
  destruct x as [[d l ? ? ? ? ?] ? sm ? ?]; simpl in *.
  inversion Hd; inversion Hl; inversion Hs; subst; nodup_inv Hnd;
    simpl in Hfr; rewrite ?list.Forall_cons in Hfr; simpl in *; destruct_and?;
    unfold epiphanydb_cleanup; simpl;
    repeat core_step; f_equal; heap_ext.
Qed.

(** [epiphanydb_create_table]: an unavailable engine or a failed allocation
    leaves the heap as it was; success adds exactly one table. *)
Lemma create_table_wp h n e f ctx x tn z s ty sd out p0 :
  heap_below h n ->
  h !! ctx = Some (CStruct (SContext x)) -> initialized x = true ->
  h !! tn = Some (CStr z s) -> h !! out = Some (CPtr p0) ->
  wp (epiphanydb_create_table OOM SENG (Some ctx) (Some tn) ty (Some sd) (Some out))
    (fun r m' => heap_below (m_heap m') (m_next m') /\ m_files m' = f /\
       if epiphanydb_storage_engine_available ty then
         (r = OOM /\ m_heap m' = h /\ false ∈ e) \/
         (r = SUCCESS /\ exists t bs,
            table_rep t ctx s (u32 ty) bs /\ disjoint_from bs h /\
            m_heap m' = <[out := CPtr (Some t)]> (add_blocks bs h))
       else r = SENG /\ m_heap m' = h)
    (Mem h n e f).
Proof.
  intros Hb Hctx Hi Htn Hout.
  pose proof (heap_below_lt _ _ _ _ Hb Hctx). pose proof (heap_below_lt _ _ _ _ Hb Htn).
  pose proof (heap_below_lt _ _ _ _ Hb Hout).
  unfold epiphanydb_create_table; simpl. repeat core_step. rewrite Hi; simpl.
  destruct (epiphanydb_storage_engine_available ty); simpl; repeat core_step.
  all: split; [eauto 20 with epi|split; [done|]].
  - right. split; [done|]. eexists n, _. split; [apply (Table_rep _ _ _ _ (Pos.succ n))|].
    split; [split; [nodup_locs|fresh_locs]|heap_ext].
  - left. split; [done|split; [heap_ext|eauto with epi]].
  - left. eauto with epi.
  - done.
Qed.

Lemma close_table_wp h n e f t c s ty bs :
  table_rep t c s ty bs -> disjoint_from bs h ->
  wp (epiphanydb_close_table (Some t)) (fun _ m' => m' = Mem h n e f)
    (Mem (add_blocks bs h) n e f).
Proof.
  intros [a] [Hnd Hfr]. nodup_inv Hnd. rewrite ?list.Forall_cons in Hfr; simpl in *; destruct_and?.
  unfold epiphanydb_close_table; simpl. repeat core_step. f_equal. heap_ext.
Qed.

Lemma begin_transaction_wp h n e f ctx x out p0 :
  heap_below h n ->
  h !! ctx = Some (CStruct (SContext x)) -> initialized x = true ->
  h !! out = Some (CPtr p0) ->
  wp (epiphanydb_begin_transaction OOM (Some ctx) (Some out))
    (fun r m' => heap_below (m_heap m') (m_next m') /\ m_files m' = f /\
       ((r = OOM /\ m_heap m' = h /\ false ∈ e) \/
        (r = SUCCESS /\ exists t bs, txn_rep t ctx bs /\ disjoint_from bs h /\
            m_heap m' = <[out := CPtr (Some t)]> (add_blocks bs h))))
    (Mem h n e f).
Proof.
  intros Hb Hctx Hi Hout.
  pose proof (heap_below_lt _ _ _ _ Hb Hctx). pose proof (heap_below_lt _ _ _ _ Hb Hout).
  unfold epiphanydb_begin_transaction; simpl. repeat core_step. rewrite Hi; simpl.
  repeat core_step.
  all: split; [eauto 20 with epi|split; [done|]].
  - right. split; [done|]. eexists n, _. split; [constructor|].
    split; [split; [nodup_locs|fresh_locs]|heap_ext].
  - left. eauto with epi.
Qed.

(** Commit and rollback both release the transaction. *)
Lemma end_transaction_wp op h n e f t c bs :
  op = epiphanydb_commit_transaction \/ op = epiphanydb_rollback_transaction ->
  txn_rep t c bs -> disjoint_from bs h ->
  wp (op (Some t)) (fun r m' => r = SUCCESS /\ m' = Mem h n e f)
    (Mem (add_blocks bs h) n e f).
Proof.
  intros Hop [] [Hnd Hfr]. rewrite ?list.Forall_cons in Hfr; simpl in *; destruct_and?.
  destruct Hop as [-> | ->];
    unfold epiphanydb_commit_transaction, epiphanydb_rollback_transaction; simpl;
    repeat core_step; (split; [done|]); f_equal; heap_ext.
Qed.
End spec.

(** ** Properties *)

(** C27 -- Opening and closing a context.  For every configuration and every
    pattern of allocation failures, [epiphanydb_init] either reports an error
    and leaves the heap exactly as it was, which happens only when some
    allocation failed; or it delivers in [*ctx] a context that owns private
    copies of the directory names and a zeroed shared memory of the requested
    size, and [epiphanydb_cleanup] of that context gives every byte back. *)
Theorem init_cleanup_roundtrip OOM h n e f ctx p0 cfgp cfg dd ld :
  heap_below h n ->
  h !! ctx = Some (CPtr p0) ->
  h !! cfgp = Some (CStruct (SConfig cfg)) ->
  str_arg h (data_directory cfg) dd ->
  str_arg h (log_directory cfg) ld ->
  wp (epiphanydb_init OOM (Some ctx) (Some cfgp))
    (fun r m' =>
       (r = OOM /\ m_heap m' = h /\ false ∈ e) \/
       (r = SUCCESS /\ exists c bs,
          m_heap m' = <[ctx := CPtr (Some c)]> (add_blocks bs h) /\
          disjoint_from bs h /\
          context_rep c dd ld (cfg_shared_memory_size cfg) bs /\
          wp (epiphanydb_cleanup (Some c))
            (fun _ m'' => m_heap m'' = <[ctx := CPtr (Some c)]> h) m'))
    (Mem h n e f).
Proof.
  intros Hb Hctx Hcfg Hd Hl. eapply wp_mono; [by eapply init_wp|].
  intros r [h' n' e' f'] (_ & _ & [?|[-> (c & bs & Hrep & HD & Hh)]]); [by left|right].
  simpl in Hh. subst h'. split; [done|]. exists c, bs. split; [done|]. split; [done|]. split; [done|].
  pose proof (disjoint_from_not_in _ _ _ _ HD Hctx).
  rewrite <- add_blocks_insert by done.
  eapply wp_mono; [eapply cleanup_wp; [done|]|by intros _ m' ->].
  destruct HD as [Hnd F]. split; [done|].
  rewrite list.Forall_forall in *. intros x Hx. rewrite lookup_insert_ne; [by apply F|].
  intros ->. by apply H, list_elem_of_fmap_2.
Qed.

Lemma init_cleanup_roundtrip_witness :
  wp (epiphanydb_init (-2) (Some 1%positive) (Some 2%positive))
    (fun r m' =>
       (r = -2 /\ m_heap m' = <[1%positive := CPtr NULL]> (<[2%positive := CStruct (SConfig (Config (Some 3%positive) NULL 8 1 false false 0))]> (<[3%positive := CStr 2 "d"]> ∅)) /\ false ∈ [true; true; false]) \/
       (r = SUCCESS /\ exists c bs,
          m_heap m' = <[1%positive := CPtr (Some c)]> (add_blocks bs (<[1%positive := CPtr NULL]> (<[2%positive := CStruct (SConfig (Config (Some 3%positive) NULL 8 1 false false 0))]> (<[3%positive := CStr 2 "d"]> ∅)))) /\
          disjoint_from bs (<[1%positive := CPtr NULL]> (<[2%positive := CStruct (SConfig (Config (Some 3%positive) NULL 8 1 false false 0))]> (<[3%positive := CStr 2 "d"]> ∅))) /\
          context_rep c (Some "d"%string) None 8 bs /\
          wp (epiphanydb_cleanup (Some c))
            (fun _ m'' => m_heap m'' = <[1%positive := CPtr (Some c)]> (<[1%positive := CPtr NULL]> (<[2%positive := CStruct (SConfig (Config (Some 3%positive) NULL 8 1 false false 0))]> (<[3%positive := CStr 2 "d"]> ∅)))) m'))
    (Mem (<[1%positive := CPtr NULL]> (<[2%positive := CStruct (SConfig (Config (Some 3%positive) NULL 8 1 false false 0))]> (<[3%positive := CStr 2 "d"]> ∅))) 4 [true; true; false] ∅).
Proof.
  eapply (init_cleanup_roundtrip (-2) _ _ _ _ _ NULL _ (Config (Some 3%positive) NULL 8 1 false false 0)).
  - intros l [c Hl]. repeat (rewrite lookup_insert in Hl; case_decide; [subst; lia|]).
    by rewrite lookup_empty in Hl.
  - reflexivity.
  - reflexivity.
  - by eapply Str_arg_some.
  - constructor.
Defined.

(** Engine names.  [epiphanydb_storage_engine_name] never reads outside
    its table; on the available types, and only there, it gives the name of
    the engine, and different available types have different names. *)
Theorem storage_engine_names_correct (a b : Z) :
  is_Some (epiphanydb_storage_engine_name a) /\
  (epiphanydb_storage_engine_available a = false <->
   epiphanydb_storage_engine_name a = Some "unknown"%string) /\
  (epiphanydb_storage_engine_available a = true ->
   exists t, storage_type_val t = u32 a) /\
  (epiphanydb_storage_engine_available a = true ->
   epiphanydb_storage_engine_name a = epiphanydb_storage_engine_name b -> u32 a = u32 b).
Proof.
  unfold epiphanydb_storage_engine_name, epiphanydb_storage_engine_available, EPIPHANYDB_STORAGE_MAX.
  pose proof (u32_range a) as Ha. pose proof (u32_range b) as Hb.
  generalize dependent (u32 a). generalize dependent (u32 b). clear a b. intros b Hb a Ha.
  assert (Hcase : forall x, 0 <= x -> x = 0 \/ x = 1 \/ x = 2 \/ x = 3 \/ x = 4 \/ 5 <= x) by lia.
  assert (Hbig : forall x, 5 <= x -> (0 <=? x) && (x <? 5) = false)
    by (intros; apply andb_false_iff; right; apply Z.ltb_ge; lia).
  destruct (Hcase a) as [->|[->|[->|[->|[->|Hbiga]]]]]; [lia|..];
  (destruct (Hcase b) as [->|[->|[->|[->|[->|Hbigb]]]]]; [lia|..]);
  rewrite ?(Hbig a), ?(Hbig b) by done; simpl; repeat split; try done; eauto;
  intros _; first [by exists EPIPHANYDB_STORAGE_HEAP | by exists EPIPHANYDB_STORAGE_COLUMNAR
                  | by exists EPIPHANYDB_STORAGE_VECTOR | by exists EPIPHANYDB_STORAGE_TIMESERIES
                  | by exists EPIPHANYDB_STORAGE_GRAPH].
Qed.

(** C40 -- Error messages.  [epiphanydb_error_message] never reads outside its table, but
    every error code of the API is negative and the function only looks up
    codes from 0 on: all errors are reported as unknown codes, and the seven entries
    behind the first are reached by no code the header declares. *)
Theorem error_messages_unreachable (e : EpiphanyDBError) (z : Z) :
  is_Some (epiphanydb_error_message (s32 z)) /\
  epiphanydb_error_message (error_val e) =
    Some (match e with EPIPHANYDB_SUCCESS => "Success" | _ => "Unknown error code" end)%string.
Proof.
  split; [|by destruct e]. unfold epiphanydb_error_message, table_at. pose proof (s32_range z) as Hz.
  destruct (Z.leb_spec 0 (s32 z)); cbn [andb]; [|by apply is_Some_alt]. rewrite u64_small by lia.
  change (Z.of_nat (length error_messages)) with 8. destruct (Z.ltb_spec (s32 z) 8); [|by eexists].
  destruct (Z.ltb_spec (s32 z) 0); [lia|]. apply lookup_lt_is_Some_2. simpl. lia.
Qed.
