(* ===== verification/Session.v ===== *)
(** * Client sessions of the core API

    A client drives the API through a sequence of calls.  It passes its own
    memory: configurations, names, and three variables that receive results
    (a pointer and two integers).  This file models such sessions over the
    whole API of [Core] and shows that a client which only uses handles that
    are live never runs into undefined behaviour, and that at every moment the
    heap holds exactly the client's memory and the blocks of the live handles,
    whatever the allocator answers. *)
From S2P Require Import Prelude CMem Core CoreSpec.
Local Open Scope Z_scope.

(** A handle the client holds. *)
Inductive handle :=
| HContext (c : loc)
| HTable (t : loc)
| HTxn (t : loc).

#[export] Instance handle_eq_dec : EqDecision handle.
Proof. solve_decision. Defined.

Definition handle_loc (k : handle) : loc :=
  match k with HContext l | HTable l | HTxn l => l end.

(** The blocks behind a handle. *)
Inductive rep : handle -> blocks -> Prop :=
| Rep_context c dd ld n bs : context_rep c dd ld n bs -> rep (HContext c) bs
| Rep_table t c s ty bs : table_rep t c s ty bs -> rep (HTable t) bs
| Rep_txn t c bs : txn_rep t c bs -> rep (HTxn t) bs.

(** The calls of the API, with the client's arguments. *)
Inductive call :=
| CallInit (cfgp : loc)
| CallCleanup (c : loc)
| CallCreateTable (c tn : loc) (ty : Z) (sd : loc)
| CallOpenTable (c tn : loc)
| CallCloseTable (t : loc)
| CallDropTable (c tn : loc)
| CallBegin (c : loc)
| CallCommit (t : loc)
| CallRollback (t : loc)
| CallInsert (t : loc) (txn data : ptr) (size : Z)
| CallUpdate (t : loc) (txn key : ptr) (ksize : Z) (data : ptr) (size : Z)
| CallDelete (t : loc) (txn key : ptr) (ksize : Z)
| CallSelect (t : loc) (txn key : ptr) (ksize : Z)
| CallCreateIndex (t : loc) (name cols : ptr) (ncols : Z)
| CallDropIndex (i : ptr)
| CallStats (t : loc)
| CallVacuum (t : loc)
| CallAnalyze (t : loc).

Lemma filter_not_in (k : handle) (l : list handle) : k ∉ l -> filter (fun k' => k' <> k) l = l.
Proof.
  induction l as [|x l IH]; [done|]. rewrite not_elem_of_cons. intros [??].
  rewrite filter_cons_True by congruence. f_equal. auto.
Qed.

Section session.
Context (OOM SENG : Z) (lit : loc).
(** The client's memory and its three result variables. *)
Context (base : heap) (out out1 out2 : loc).

Definition exec (k : call) : CM Z :=
  match k with
  | CallInit cfgp => epiphanydb_init OOM (Some out) (Some cfgp)
  | CallCleanup c => epiphanydb_cleanup (Some c);;; ret 0
  | CallCreateTable c tn ty sd =>
      epiphanydb_create_table OOM SENG (Some c) (Some tn) ty (Some sd) (Some out)
  | CallOpenTable c tn => epiphanydb_open_table OOM SENG lit (Some c) (Some tn) (Some out)
  | CallCloseTable t => epiphanydb_close_table (Some t);;; ret 0
  | CallDropTable c tn => epiphanydb_drop_table (Some c) (Some tn)
  | CallBegin c => epiphanydb_begin_transaction OOM (Some c) (Some out)
  | CallCommit t => epiphanydb_commit_transaction (Some t)
  | CallRollback t => epiphanydb_rollback_transaction (Some t)
  | CallInsert t txn data size => epiphanydb_insert (Some t) txn data size
  | CallUpdate t txn key ksize data size => epiphanydb_update (Some t) txn key ksize data size
  | CallDelete t txn key ksize => epiphanydb_delete (Some t) txn key ksize
  | CallSelect t txn key ksize =>
      epiphanydb_select (Some t) txn key ksize (Some out) (Some out1)
  | CallCreateIndex t name cols ncols =>
      epiphanydb_create_index (Some t) name cols ncols (Some out)
  | CallDropIndex i => epiphanydb_drop_index i
  | CallStats t => epiphanydb_get_table_stats (Some t) (Some out1) (Some out2)
  | CallVacuum t => epiphanydb_vacuum_table (Some t)
  | CallAnalyze t => epiphanydb_analyze_table (Some t)
  end.

(** The handle a successful creating call left in the result variable. *)
Definition received (mk : loc -> handle) (r : Z) (m : mem core_struct) : list handle :=
  if r =? SUCCESS then
    match m_heap m !! out with Some (CPtr (Some l)) => [mk l] | _ => [] end
  else [].

(** The live handles after call [k] returned [r] in memory [m]. *)
Definition track (live : list handle) (k : call) (r : Z) (m : mem core_struct) : list handle :=
  match k with
  | CallInit _ => received HContext r m ++ live
  | CallCreateTable _ _ _ _ | CallOpenTable _ _ => received HTable r m ++ live
  | CallBegin _ => received HTxn r m ++ live
  | CallCleanup c => filter (fun k => k <> HContext c) live
  | CallCloseTable t => filter (fun k => k <> HTable t) live
  | CallCommit t | CallRollback t => filter (fun k => k <> HTxn t) live
  | _ => live
  end.

(** The protocol: what the client may call. *)
Definition allowed (live : list handle) (k : call) : Prop :=
  match k with
  | CallInit cfgp =>
      exists cfg dd ld, base !! cfgp = Some (CStruct (SConfig cfg)) /\
        str_arg base (data_directory cfg) dd /\ str_arg base (log_directory cfg) ld
  | CallCreateTable c tn _ _ | CallOpenTable c tn =>
      HContext c ∈ live /\ exists z s, base !! tn = Some (CStr z s)
  | CallCleanup c | CallBegin c | CallDropTable c _ => HContext c ∈ live
  | CallCloseTable t => HTable t ∈ live
  | CallCommit t | CallRollback t => HTxn t ∈ live
  | _ => True
  end.

(** Running a session: the calls in order, with the live handles tracked. *)
Fixpoint session (ks : list call) (live : list handle) : CM (list handle) :=
  match ks with
  | [] => ret live
  | k :: ks => bind (exec k) (fun r m => session ks (track live k r m) m)
  end.

(** A session that follows the protocol in whatever state it reaches. *)
Fixpoint follows (ks : list call) (live : list handle) (m : mem core_struct) : Prop :=
  match ks with
  | [] => True
  | k :: ks =>
      allowed live k /\
      forall r m', exec k m = Ret r m' -> follows ks (track live k r m') m'
  end.

(** An executable check of the protocol along the run. *)
Definition str_arg_b (p : ptr) : bool :=
  match p with
  | None => true
  | Some l => match base !! l with Some (CStr _ _) => true | _ => false end
  end.

Definition allowed_b (live : list handle) (k : call) : bool :=
  match k with
  | CallInit cfgp =>
      match base !! cfgp with
      | Some (CStruct (SConfig cfg)) => str_arg_b (data_directory cfg) && str_arg_b (log_directory cfg)
      | _ => false
      end
  | CallCreateTable c tn _ _ | CallOpenTable c tn =>
      bool_decide (HContext c ∈ live) && negb (is_null (Some tn)) && str_arg_b (Some tn)
  | CallCleanup c | CallBegin c | CallDropTable c _ => bool_decide (HContext c ∈ live)
  | CallCloseTable t => bool_decide (HTable t ∈ live)
  | CallCommit t | CallRollback t => bool_decide (HTxn t ∈ live)
  | _ => true
  end.

Fixpoint follows_b (ks : list call) (live : list handle) (m : mem core_struct) : bool :=
  match ks with
  | [] => true
  | k :: ks =>
      allowed_b live k &&
      match exec k m with
      | Ret r m' => follows_b ks (track live k r m') m'
      | Undef _ => true
      end
  end.

Lemma str_arg_b_sound p : str_arg_b p = true -> exists s, str_arg base p s.
Proof.
  destruct p as [l|]; simpl; [|eauto using str_arg]. intros H.
  destruct (base !! l) as [[]|] eqn:E; try done. eauto using str_arg.
Qed.

Lemma allowed_b_sound live k : allowed_b live k = true -> allowed live k.
Proof.
  destruct k; simpl; intros H; b2p; rewrite ?bool_decide_eq_true in *; try done.
  - destruct (base !! cfgp) as [[| | |[cfg| | | |]| | | |]|] eqn:E; try done. b2p.
    destruct (str_arg_b_sound (data_directory cfg)) as [dd ?]; [done|].
    destruct (str_arg_b_sound (log_directory cfg)) as [ld ?]; [done|]. eauto 10.
  - split; [done|]. destruct (base !! tn) as [[]|]; try done. eauto.
  - split; [done|]. destruct (base !! tn) as [[]|]; try done. eauto.
Qed.

Lemma follows_b_sound ks live m : follows_b ks live m = true -> follows ks live m.
Proof.
  revert live m. induction ks as [|k ks IH]; intros live m; [done|]. cbn [follows_b follows].
  intros [Ha Hn]%andb_true_iff. split; [by apply allowed_b_sound|].
  intros r m' E. rewrite E in Hn. auto.
Qed.

(** ** The invariant *)

(** The client's memory: only the result variables change. *)
Definition client_heap (v : ptr) (w1 w2 : Z) : heap :=
  <[out := CPtr v]> (<[out1 := CInt w1]> (<[out2 := CInt w2]> base)).

Inductive inv (live : list handle) : mem core_struct -> Prop :=
| Inv bss v w1 w2 n e f :
    Forall2 rep live bss ->
    disjoint_from (concat bss) (client_heap v w1 w2) ->
    heap_below (add_blocks (concat bss) (client_heap v w1 w2)) n ->
    inv live (Mem (add_blocks (concat bss) (client_heap v w1 w2)) n e f).

Lemma rep_loc k bs : rep k bs -> handle_loc k ∈ bs.*1.
Proof. intros [? ? ? ? ? [] | ? ? ? ? ? [] | ? ? ? []]; simpl; set_solver. Qed.

(** Isolating the blocks of one live handle. *)
Lemma isolate live bss k B :
  Forall2 rep live bss -> k ∈ live -> disjoint_from (concat bss) B ->
  exists bs bss', rep k bs /\ Forall2 rep (filter (fun k' => k' <> k) live) bss' /\
    disjoint_from (concat bss') B /\
    disjoint_from bs (add_blocks (concat bss') B) /\
    add_blocks (concat bss) B = add_blocks bs (add_blocks (concat bss') B).
Proof.
  intros HR (l1 & l2 & ->)%list_elem_of_split HD.
  apply Forall2_app_inv_l in HR as (b1 & b2 & H1 & H2 & ->).
  apply Forall2_cons_inv_l in H2 as (bs & b2' & Hk & H2 & ->).
  exists bs, (b1 ++ b2').
  assert (Hp : concat (b1 ++ bs :: b2') ≡ₚ bs ++ concat (b1 ++ b2')).
  { rewrite !concat_app. simpl. rewrite !app_assoc. f_equiv. apply Permutation_app_comm. }
  pose proof (disjoint_from_perm _ _ _ Hp HD) as HD'.
  pose proof (rep_loc _ _ Hk) as Hloc.
  assert (Hout : forall l bss, Forall2 rep l bss -> concat bss ⊆ concat (b1 ++ b2') -> k ∉ l).
  { intros l bss0 HF Hsub Hin. destruct HD' as [Hnd _].
    rewrite fmap_app, list.NoDup_app in Hnd. destruct Hnd as (_ & Hnd & _).
    apply (Hnd _ Hloc). apply list_elem_of_lookup in Hin as [i Hi].
    destruct (Forall2_lookup_l _ _ _ _ _ HF Hi) as (b & Hb & Hrb).
    apply rep_loc, list_elem_of_fmap in Hrb as (x & -> & Hx).
    apply list_elem_of_fmap_2, Hsub, list_elem_of_In, in_concat.
    exists b. rewrite <- !list_elem_of_In. eauto using list_elem_of_lookup_2. }
  assert (Hf : filter (fun k' => k' <> k) (l1 ++ k :: l2) = l1 ++ l2).
  { rewrite filter_app, filter_cons_False by (intros Hn; by apply Hn).
    f_equal; apply filter_not_in.
    - apply (Hout _ _ H1). rewrite concat_app. intros x. rewrite elem_of_app. tauto.
    - apply (Hout _ _ H2). rewrite concat_app. intros x. rewrite elem_of_app. tauto. }
  rewrite Hf. apply disjoint_from_app in HD' as [HD1 HD2].
  split; [done|]. split; [by apply Forall2_app|]. split; [done|]. split; [done|].
  rewrite <- add_blocks_app. apply add_blocks_perm; [apply HD|done].
Qed.

Context (p0 : ptr) (i1 i2 : Z).
Context (Hout : base !! out = Some (CPtr p0)).
Context (Hout1 : base !! out1 = Some (CInt i1)) (Hout2 : base !! out2 = Some (CInt i2)).
Context (Hdist : out1 <> out2).
Context (HOOM : OOM <> SUCCESS) (HSENG : SENG <> SUCCESS).

Lemma out_dist : out <> out1 /\ out <> out2.
Proof. split; intros E; rewrite E in Hout; congruence. Qed.

Lemma client_lookup_base v w1 w2 l c :
  base !! l = Some c ->
  match c with CPtr _ | CInt _ => False | _ => True end ->
  client_heap v w1 w2 !! l = Some c.
Proof.
  intros Hl Hc. unfold client_heap. destruct c; try done;
    rewrite !lookup_insert_ne; solve [done | intros ->; congruence].
Qed.

Lemma str_arg_client v w1 w2 p s : str_arg base p s -> str_arg (client_heap v w1 w2) p s.
Proof. intros []; econstructor. by eapply client_lookup_base. Qed.

Lemma client_out v w1 w2 : client_heap v w1 w2 !! out = Some (CPtr v).
Proof. unfold client_heap. by rewrite lookup_insert_eq. Qed.

Lemma client_set_out v v' w1 w2 : <[out := CPtr v']> (client_heap v w1 w2) = client_heap v' w1 w2.
Proof. unfold client_heap. by rewrite insert_insert_eq. Qed.

(** The blocks of the live handles do not hide the client's memory. *)
Lemma frame_lookup bss B l c :
  disjoint_from (concat bss) B -> B !! l = Some c -> add_blocks (concat bss) B !! l = Some c.
Proof. intros HD Hl. rewrite add_blocks_lookup_ne; [done|]. by eapply disjoint_from_not_in. Qed.

Lemma str_arg_frame bss B p s :
  disjoint_from (concat bss) B -> str_arg B p s -> str_arg (add_blocks (concat bss) B) p s.
Proof. intros HD []; econstructor. by apply frame_lookup. Qed.

Lemma disjoint_from_insert bs B l c :
  is_Some (B !! l) -> disjoint_from bs B -> disjoint_from bs (<[l:=c]> B).
Proof.
  intros [d Hd] HD. split; [apply HD|].
  pose proof (disjoint_from_not_in _ _ _ _ HD Hd) as Hn. destruct HD as [_ F].
  rewrite list.Forall_forall in *. intros x Hx. rewrite lookup_insert_ne; [by apply F|].
  intros ->. by apply Hn, list_elem_of_fmap_2.
Qed.

(** A creating call that succeeded. *)
Lemma inv_created mk k bs live bss v w1 w2 r n e f :
  Forall2 rep live bss ->
  disjoint_from (concat bss) (client_heap v w1 w2) ->
  rep (mk k) bs ->
  disjoint_from bs (add_blocks (concat bss) (client_heap v w1 w2)) ->
  r = SUCCESS ->
  heap_below (<[out := CPtr (Some k)]> (add_blocks bs (add_blocks (concat bss) (client_heap v w1 w2)))) n ->
  let m := Mem (<[out := CPtr (Some k)]> (add_blocks bs (add_blocks (concat bss) (client_heap v w1 w2)))) n e f in
  inv (received mk r m ++ live) m.
Proof.
  intros HR HD Hk HDk -> Hb m. subst m. unfold received. simpl. rewrite lookup_insert_eq. simpl.
  assert (HDa : disjoint_from (bs ++ concat bss) (client_heap v w1 w2))
    by (apply disjoint_from_app; done).
  assert (E : <[out := CPtr (Some k)]> (add_blocks bs (add_blocks (concat bss) (client_heap v w1 w2)))
            = add_blocks (concat (bs :: bss)) (client_heap (Some k) w1 w2)).
  { rewrite <- add_blocks_app, <- (client_set_out v (Some k)), add_blocks_insert; [done|].
    eapply disjoint_from_not_in; [apply HDa|apply client_out]. }
  rewrite E in *. constructor; [by constructor| |done].
  rewrite <- (client_set_out v (Some k)). apply disjoint_from_insert; [rewrite client_out; eauto|done].
Qed.

(** A call that failed: nothing changed. *)
Lemma inv_failed mk r live bss v w1 w2 n e f :
  Forall2 rep live bss ->
  disjoint_from (concat bss) (client_heap v w1 w2) ->
  heap_below (add_blocks (concat bss) (client_heap v w1 w2)) n ->
  r <> SUCCESS ->
  let m := Mem (add_blocks (concat bss) (client_heap v w1 w2)) n e f in
  inv (received mk r m ++ live) m.
Proof.
  intros HR HD Hb Hr m. unfold received. rewrite (proj2 (Z.eqb_neq _ _) Hr). by constructor.
Qed.

(** A live context of the invariant, as the API sees it. *)
Lemma live_context live bss B c :
  Forall2 rep live bss -> HContext c ∈ live -> disjoint_from (concat bss) B ->
  exists x, add_blocks (concat bss) B !! c = Some (CStruct (SContext x)) /\ initialized x = true.
Proof.
  intros HR Hc HD.
  destruct (isolate _ _ _ _ HR Hc HD) as (bs & bss' & Hk & _ & _ & _ & ->).
  inversion Hk as [? ? ? ? ? [x]| |]; subst. exists x. simpl. by rewrite lookup_insert_eq.
Qed.

(** Calls that release a handle. *)
Lemma inv_released k (op : CM Z) live m :
  inv live m -> k ∈ live ->
  (forall bs h n e f, rep k bs -> disjoint_from bs h ->
     wp op (fun _ m' => m' = Mem h n e f) (Mem (add_blocks bs h) n e f)) ->
  wp op (fun _ m' => inv (filter (fun k' => k' <> k) live) m') m.
Proof.
  intros [bss v w1 w2 n e f HR HD Hb] Hk Hop.
  destruct (isolate _ _ _ _ HR Hk HD) as (bs & bss' & Hbs & HR' & HD' & HDb & E).
  rewrite E in *. eapply wp_mono; [by apply Hop|]. intros a m' ->. constructor; [done..|].
  intros l [c Hl]. apply Hb. exists c. rewrite add_blocks_lookup_ne; [done|].
  by eapply disjoint_from_not_in.
Qed.

(** The result variables keep their addresses. *)
Lemma client_dom v w1 w2 v' w1' w2' l :
  is_Some (client_heap v' w1' w2' !! l) <-> is_Some (client_heap v w1 w2 !! l).
Proof. unfold client_heap. rewrite !lookup_insert. by repeat case_decide. Qed.

Lemma disjoint_client bs v w1 w2 v' w1' w2' :
  disjoint_from bs (client_heap v w1 w2) -> disjoint_from bs (client_heap v' w1' w2').
Proof.
  intros [? F]. split; [done|]. eapply Forall_impl; [done|].
  intros b Hn. simpl in *. apply eq_None_not_Some. rewrite (client_dom v w1 w2), Hn. by intros [? ?].
Qed.

Lemma inv_store_client live bss v w1 w2 v' w1' w2' n e f :
  Forall2 rep live bss ->
  disjoint_from (concat bss) (client_heap v w1 w2) ->
  heap_below (add_blocks (concat bss) (client_heap v w1 w2)) n ->
  inv live (Mem (add_blocks (concat bss) (client_heap v' w1' w2')) n e f).
Proof.
  intros HR HD Hb. constructor; [done|by eapply disjoint_client|].
  - intros l [c Hl]. apply Hb.
    destruct (decide (l ∈ (concat bss).*1)) as [Hin|Hin].
    + destruct (add_blocks (concat bss) (client_heap v w1 w2) !! l) eqn:E; [eauto|].
      exfalso. revert Hin E. clear. induction (concat bss) as [|[k c] bs IH]; simpl.
      { by rewrite elem_of_nil. }
      rewrite lookup_insert, elem_of_cons. case_decide; [done|]. intros [?|?]; [congruence|auto].
    + rewrite add_blocks_lookup_ne in * by done. eapply client_dom. eauto.
Qed.

(** The outcome of a creating call, from its specification. *)
Ltac created_or_failed :=
  intros r [h' n' e' f'];
  intros (? & ? & [(-> & Hh & _)|[-> (? & bs & Hrep & HDb & Hh)]]); simpl in *; subst;
  [by apply inv_failed | apply inv_created; [done..|by econstructor|done|done|done]].

(** The memory of the client as a callee sees it. *)
Ltac client_arg :=
  first [ done
        | eapply frame_lookup; [done|apply client_out]
        | eapply frame_lookup; [done|by eapply client_lookup_base]
        | by apply str_arg_frame, str_arg_client ].

Lemma create_table_safe live m c tn ty sd :
  inv live m -> allowed live (CallCreateTable c tn ty sd) ->
  wp (exec (CallCreateTable c tn ty sd))
    (fun r m' => inv (track live (CallCreateTable c tn ty sd) r m') m') m.
Proof.
  intros [bss v w1 w2 n e f HR HD Hb] [Hc (z & s & Htn)].
  destruct (live_context _ _ _ _ HR Hc HD) as (x & Hx & Hi). simpl.
  eapply wp_mono; [eapply create_table_wp; client_arg|].
  destruct (epiphanydb_storage_engine_available ty); [created_or_failed|].
  intros r [h' n' e' f'] (? & ? & -> & Hh); simpl in *; subst. by apply inv_failed.
Qed.

Lemma open_table_safe live m c tn :
  inv live m -> allowed live (CallOpenTable c tn) ->
  wp (exec (CallOpenTable c tn))
    (fun r m' => inv (track live (CallOpenTable c tn) r m') m') m.
Proof.
  intros Hinv Hal. pose proof (create_table_safe live m c tn 0 lit Hinv Hal) as Hct.
  destruct Hinv as [bss v w1 w2 n e f HR HD Hb].
  destruct (live_context _ _ _ _ HR (proj1 Hal) HD) as (x & Hx & Hi).
  simpl in *. unfold epiphanydb_open_table; simpl. repeat core_step. by rewrite Hi.
Qed.

(** Writes to the result variables. *)
Lemma wp_store_client bss v w1 w2 v' w1' w2' l c Q n e f :
  disjoint_from (concat bss) (client_heap v w1 w2) ->
  is_Some (client_heap v w1 w2 !! l) ->
  <[l := c]> (client_heap v w1 w2) = client_heap v' w1' w2' ->
  Q tt (Mem (add_blocks (concat bss) (client_heap v' w1' w2')) n e f) ->
  wp (store (Some l) c) Q (Mem (add_blocks (concat bss) (client_heap v w1 w2)) n e f).
Proof.
  intros HD [d Hd] E HQ. eapply wp_store; [by apply frame_lookup|].
  rewrite <- add_blocks_insert, E; [done|]. by eapply disjoint_from_not_in.
Qed.

Lemma client_set_out1 v w1 w2 w : <[out1 := CInt w]> (client_heap v w1 w2) = client_heap v w w2.
Proof.
  destruct out_dist as [? ?]. unfold client_heap.
  by rewrite insert_insert_ne, insert_insert_eq by done.
Qed.

Lemma client_set_out2 v w1 w2 w : <[out2 := CInt w]> (client_heap v w1 w2) = client_heap v w1 w.
Proof.
  destruct out_dist as [? ?]. unfold client_heap.
  by rewrite insert_insert_ne, (insert_insert_ne _ out2 out1), insert_insert_eq by done.
Qed.

Lemma client_bound v w1 w2 l : l = out \/ l = out1 \/ l = out2 -> is_Some (client_heap v w1 w2 !! l).
Proof.
  intros Hl. unfold client_heap. rewrite !lookup_insert.
  repeat case_decide; eauto. destruct Hl as [?|[?|?]]; congruence.
Qed.

(** Calls that only look at their arguments or write the result variables. *)
Definition neutral (k : call) : bool :=
  match k with
  | CallDropTable _ _ | CallInsert _ _ _ _ | CallUpdate _ _ _ _ _ _ | CallDelete _ _ _ _
  | CallSelect _ _ _ _ | CallCreateIndex _ _ _ _ | CallDropIndex _ | CallStats _
  | CallVacuum _ | CallAnalyze _ => true
  | _ => false
  end.

Lemma neutral_safe live m k :
  inv live m -> allowed live k -> neutral k = true ->
  wp (exec k) (fun r m' => inv live m') m.
Proof.
  intros Hinv Hal Hk. destruct k; try discriminate Hk; simpl;
    unfold epiphanydb_insert, epiphanydb_update, epiphanydb_delete, epiphanydb_drop_index,
      epiphanydb_vacuum_table, epiphanydb_analyze_table; simpl;
    try (by destruct_ifs).
  all: destruct Hinv as [bss v w1 w2 n e f HR HD Hb].
  - destruct (live_context _ _ _ _ HR Hal HD) as (x & Hx & Hi).
    unfold epiphanydb_drop_table; simpl. repeat core_step. rewrite Hi. by constructor.
  - unfold epiphanydb_select; simpl. destruct_ifs; [by constructor|].
    apply wp_bind. eapply wp_store_client; [done|apply client_bound; auto|apply client_set_out|].
    apply wp_bind. eapply wp_store_client; [by eapply disjoint_client|apply client_bound; auto|apply client_set_out1|].
    by eapply inv_store_client.
  - unfold epiphanydb_create_index; simpl. destruct_ifs; [by constructor|].
    apply wp_bind. eapply wp_store_client; [done|apply client_bound; auto|apply client_set_out|].
    by eapply inv_store_client.
  - unfold epiphanydb_get_table_stats; simpl.
    apply wp_bind. eapply wp_store_client; [done|apply client_bound; auto|apply client_set_out1|].
    apply wp_bind. eapply wp_store_client; [by eapply disjoint_client|apply client_bound; auto|apply client_set_out2|].
    by eapply inv_store_client.
Qed.

(** Every allowed call is defined and keeps the invariant. *)
Lemma step_safe live m k :
  inv live m -> allowed live k ->
  wp (exec k) (fun r m' => inv (track live k r m') m') m.
Proof.
  intros Hinv Hk. destruct (neutral k) eqn:Hneu.
  { eapply wp_mono; [by eapply neutral_safe|]. intros r m' Hm'. by destruct k. }
  destruct k; try discriminate Hneu; simpl in Hk |- *.
  - destruct Hinv as [bss v w1 w2 n e f HR HD Hb]. destruct Hk as (cfg & dd & ld & Hc & Hd & Hl).
    eapply wp_mono; [eapply init_wp; client_arg|created_or_failed].
  - eapply inv_released; [done..|]. intros bs h n e f Hr HD. inversion Hr; subst.
    apply wp_bind. eapply wp_mono; [by eapply cleanup_wp|]. by intros _ m' ->.
  - by apply create_table_safe.
  - by apply open_table_safe.
  - eapply inv_released; [done..|]. intros bs h n e f Hr HD. inversion Hr; subst.
    apply wp_bind. eapply wp_mono; [by eapply close_table_wp|]. by intros _ m' ->.
  - destruct Hinv as [bss v w1 w2 n e f HR HD Hb].
    destruct (live_context _ _ _ _ HR Hk HD) as (x & Hx & Hi).
    eapply wp_mono; [eapply begin_transaction_wp; client_arg|created_or_failed].
  - eapply inv_released; [done..|]. intros bs h n e f Hr HD. inversion Hr; subst.
    eapply wp_mono; [by eapply end_transaction_wp; [left|..]|]. by intros ? ? [? ->].
  - eapply inv_released; [done..|]. intros bs h n e f Hr HD. inversion Hr; subst.
    eapply wp_mono; [by eapply end_transaction_wp; [right|..]|]. by intros ? ? [? ->].
Qed.

Lemma session_inv ks live m :
  inv live m -> follows ks live m -> wp (session ks live) (fun live' m' => inv live' m') m.
Proof.
  revert live m. induction ks as [|k ks IH]; intros live m Hinv Hf; [done|].
  destruct Hf as [Hal Hnext]. pose proof (step_safe _ _ _ Hinv Hal) as Hs. simpl.
  unfold wpx, bind in *. destruct (exec k m) as [r m'|] eqn:E; [|done].
  apply IH; [done|]. by apply Hnext.
Qed.

(** C1 -- Memory safety of client sessions.  For every client that only uses
    live handles, every sequence of API calls and every pattern of allocation
    failures: no call is undefined (no NULL or dangling access, no double
    free), and afterwards the heap is exactly the client's memory, changed in
    its result variables only, plus the blocks owned by the handles that are
    still live.  In particular a session that has released all its handles has
    leaked nothing. *)
Theorem session_safe ks n e f :
  heap_below base n ->
  follows ks [] (Mem base n e f) ->
  exists live m', session ks [] (Mem base n e f) = Ret live m' /\
    exists bss v w1 w2, Forall2 rep live bss /\
      disjoint_from (concat bss) (client_heap v w1 w2) /\
      m_heap m' = add_blocks (concat bss) (client_heap v w1 w2) /\
      (live = [] -> m_heap m' = client_heap v w1 w2).
Proof.
  intros Hb Hf. assert (Hinv : inv [] (Mem base n e f)).
  { assert (E : base = client_heap p0 i1 i2) by
      (unfold client_heap; by rewrite (insert_id base out2), (insert_id base out1), (insert_id base out)).
    rewrite E at 1. apply (Inv [] []); simpl; [done|split; constructor|by rewrite <- E]. }
  pose proof (session_inv _ _ _ Hinv Hf) as Hw. unfold wpx in Hw.
  destruct (session ks [] (Mem base n e f)) as [live m'|]; [|done].
  exists live, m'. split; [done|]. destruct Hw as [bss v w1 w2 ? ? ? HR].
  exists bss, v, w1, w2. repeat split; try done; [apply H|apply H|].
  intros ->. by inversion HR.
Qed.

End session.

(** ** A concrete session *)

Module SessionExample.

(** Client memory: a configuration at address 1 with its data directory at 2,
    a table name at 3 and the result variables at 4, 5 and 6. *)
Definition ex_base : heap :=
  <[1%positive := CStruct (SConfig (Config (Some 2%positive) NULL 16 10 true false 0))]>
  (<[2%positive := CStr 5 "/tmp"]> (<[3%positive := CStr 6 "users"]>
  (<[4%positive := CPtr NULL]> (<[5%positive := CInt 0]> (<[6%positive := CInt 0]> ∅))))).

(** Open a context, create a table, run a transaction, release everything;
    the sixth allocation of the session fails. *)
Definition ex_calls : list call :=
  [CallInit 1; CallCreateTable 7 3 1 3; CallBegin 7; CallInsert 10 (Some 12%positive) (Some 3%positive) 5;
   CallCommit 12; CallBegin 7; CallCloseTable 10; CallCleanup 7].

End SessionExample.

(** The hypotheses of [session_safe] hold for this session. *)
Lemma session_safe_witness :
  exists live m', session (-2) (-6) 3%positive 4%positive 5%positive 6%positive
      SessionExample.ex_calls [] (Mem SessionExample.ex_base 7 [true; true; true; true; true; true; false] ∅) = Ret live m' /\
    exists bss v w1 w2, Forall2 rep live bss /\
      disjoint_from (concat bss) (client_heap SessionExample.ex_base 4%positive 5%positive 6%positive v w1 w2) /\
      m_heap m' = add_blocks (concat bss) (client_heap SessionExample.ex_base 4%positive 5%positive 6%positive v w1 w2) /\
      (live = [] -> m_heap m' = client_heap SessionExample.ex_base 4%positive 5%positive 6%positive v w1 w2).
Proof.
  apply (session_safe (-2) (-6) 3%positive SessionExample.ex_base 4%positive 5%positive 6%positive NULL 0 0);
    try reflexivity; try discriminate.
  - intros l [c Hl]. unfold SessionExample.ex_base in Hl.
    repeat (rewrite lookup_insert in Hl; case_decide; [subst; lia|]). by rewrite lookup_empty in Hl.
  - apply follows_b_sound. vm_compute. reflexivity.
Defined.
