(* ===== verification/Engines.v ===== *)
(** * The storage engines: [src/src/storage/*.c]

    One module per engine.  The structures are allocated uninitialised and
    filled field by field, so a field is an [option]: [None] until it is
    assigned.  Functions that only return [EPIPHANYDB_SUCCESS] in the source
    do so here. *)
From Stdlib Require Import SpecFloat.
From S2P Require Import Prelude CMem Core.
Local Open Scope Z_scope.

Abbreviation ERROR_MEMORY := (error_val EPIPHANYDB_ERROR_MEMORY).
Abbreviation ERROR_IO := (error_val EPIPHANYDB_ERROR_IO).

(** [sizeof] of a string literal's contents, as [strlen] counts it. *)
Definition lit_len (s : string) : Z := Z.of_nat (String.length s).

(** [printf] with the format ["<pre>%s<suf>"]. *)
Definition fmt_path (pre name suf : string) : string :=
  String.append pre (String.append name suf).

(** ** Structures *)

Record HeapStorageContext := HeapStorageContext_ {
  hs_data_directory : option ptr; hs_page_size : option Z; hs_max_pages : option Z
}.
Record HeapTable := HeapTable_ {
  ht_table_name : option ptr; ht_file_path : option ptr; ht_data_file : option ptr;
  ht_num_rows : option Z; ht_row_size : option Z
}.
Record ColumnarStorageContext := ColumnarStorageContext_ {
  cs_data_directory : option ptr; cs_compression_level : option Z;
  cs_enable_vectorization : option bool
}.
Record ColumnarTable := ColumnarTable_ {
  ct_table_name : option ptr; ct_column_files : option ptr; ct_num_columns : option Z;
  ct_num_rows : option Z; ct_column_names : option ptr; ct_column_types : option ptr
}.
Record VectorStorageContext := VectorStorageContext_ {
  vs_data_directory : option ptr; vs_default_vector_dimension : option Z;
  vs_distance_metric : option ptr; vs_enable_indexing : option bool
}.
Record VectorTable := VectorTable_ {
  vt_table_name : option ptr; vt_vector_file : option ptr; vt_metadata_file : option ptr;
  vt_index_file : option ptr; vt_vector_dimension : option Z; vt_num_vectors : option Z;
  vt_distance_metric : option ptr
}.
Record TimeSeriesStorageContext := TimeSeriesStorageContext_ {
  tss_data_directory : option ptr; tss_retention_days : option Z;
  tss_compression_level : option Z; tss_enable_downsampling : option bool
}.
Record TimeSeriesTable := TimeSeriesTable_ {
  tst_table_name : option ptr; tst_data_file : option ptr; tst_index_file : option ptr;
  tst_start_time : option Z; tst_end_time : option Z; tst_num_points : option Z;
  tst_retention_seconds : option Z
}.
Record GraphStorageContext := GraphStorageContext_ {
  gs_data_directory : option ptr; gs_enable_indexing : option bool;
  gs_default_graph_format : option ptr
}.
Record GraphTable := GraphTable_ {
  gt_table_name : option ptr; gt_vertices_file : option ptr; gt_edges_file : option ptr;
  gt_properties_file : option ptr; gt_index_file : option ptr;
  gt_num_vertices : option Z; gt_num_edges : option Z; gt_is_directed : option bool
}.

Inductive engine_struct :=
| EHeapCtx (x : HeapStorageContext)
| EHeapTable (x : HeapTable)
| EColCtx (x : ColumnarStorageContext)
| EColTable (x : ColumnarTable)
| EVecCtx (x : VectorStorageContext)
| EVecTable (x : VectorTable)
| ETsCtx (x : TimeSeriesStorageContext)
| ETsTable (x : TimeSeriesTable)
| EGraphCtx (x : GraphStorageContext)
| EGraphTable (x : GraphTable).

Abbreviation EM := (M engine_struct).

(** Writing [NULL] and [0] through a pair of result pointers. *)
Definition empty_result (results num_results : ptr) : EM Z :=
  store results (CPtr NULL);;;
  store num_results (CInt 0);;;
  ret SUCCESS.

(** A path buffer: [malloc(len + strlen(suf) + 1)] and
    [sprintf(p, "<pre>%s<suf>", name)]. *)
Definition make_path (base_len : Z) (pre suf : string) (name : ptr) : EM ptr :=
  p <-- malloc (u64 (base_len + lit_len suf + 1));;
  s <-- load_str name;;
  sprintf p (fmt_path pre s suf);;;
  ret p.

(** ** Row engine: [heap_storage.c] *)

Module HeapStorage.

Definition heap_storage_init (ctx : ptr) : EM Z :=
  heap_ctx <-- malloc_as (CStruct (EHeapCtx (HeapStorageContext_ None None None)));;
  if is_null heap_ctx then ret ERROR_MEMORY else
  d <-- strdup_lit "./data/heap";;
  store heap_ctx (CStruct (EHeapCtx (HeapStorageContext_ (Some d) (Some 8192) (Some 1000000))));;;
  ret SUCCESS.

Definition heap_storage_cleanup (ctx : ptr) : EM Z := ret SUCCESS.

Definition get_heap_table (p : ptr) : EM HeapTable :=
  c <-- load p;;
  match c with CStruct (EHeapTable x) => ret x | _ => undef BadType end.

(** Releasing the two strings and the structure, in the source's order. *)
Definition free_heap_table (table : ptr) : EM unit :=
  t <-- get_heap_table table;;
  nm <-- defined (ht_table_name t);;
  free nm;;;
  fp <-- defined (ht_file_path t);;
  free fp;;;
  free table.

Definition heap_create_table (ctx table_name schema : ptr) : EM Z :=
  table <-- malloc_as (CStruct (EHeapTable (HeapTable_ None None None None None)));;
  if is_null table then ret ERROR_MEMORY else
  nm <-- strdup table_name;;
  store table (CStruct (EHeapTable (HeapTable_ (Some nm) None None None None)));;;
  len <-- strlen table_name;;
  let path_len := u64 (lit_len "./data/heap/" + len + lit_len ".heap" + 1) in
  fp <-- malloc path_len;;
  store table (CStruct (EHeapTable (HeapTable_ (Some nm) (Some fp) None None None)));;;
  s <-- load_str table_name;;
  snprintf fp path_len (fmt_path "./data/heap/" s ".heap");;;
  file <-- fopen_wb fp;;
  store table (CStruct (EHeapTable (HeapTable_ (Some nm) (Some fp) (Some file) None None)));;;
  if is_null file then
    free_heap_table table;;;
    ret ERROR_IO
  else
    store table (CStruct (EHeapTable (HeapTable_ (Some nm) (Some fp) (Some file) (Some 0) (Some 0))));;;
    fclose file;;;
    store table (CStruct (EHeapTable (HeapTable_ (Some nm) (Some fp) (Some NULL) (Some 0) (Some 0))));;;
    free_heap_table table;;;
    ret SUCCESS.

Definition heap_open_table (ctx table_name table : ptr) : EM Z := ret SUCCESS.
Definition heap_close_table (table : ptr) : EM Z := ret SUCCESS.
Definition heap_insert_row (table data : ptr) (data_size : Z) : EM Z := ret SUCCESS.
Definition heap_update_row (table key data : ptr) (data_size : Z) : EM Z := ret SUCCESS.
Definition heap_delete_row (table key : ptr) : EM Z := ret SUCCESS.
Definition heap_query_rows (table condition results num_results : ptr) : EM Z :=
  empty_result results num_results.

End HeapStorage.

(** ** Column engine: [columnar_storage.c] *)

Module ColumnarStorage.

Definition columnar_storage_init (ctx : ptr) : EM Z :=
  col_ctx <-- malloc_as (CStruct (EColCtx (ColumnarStorageContext_ None None None)));;
  if is_null col_ctx then ret ERROR_MEMORY else
  d <-- strdup_lit "./data/columnar";;
  store col_ctx (CStruct (EColCtx (ColumnarStorageContext_ (Some d) (Some 6) (Some true))));;;
  ret SUCCESS.

Definition columnar_storage_cleanup (ctx : ptr) : EM Z := ret SUCCESS.

Definition get_columnar_table (p : ptr) : EM ColumnarTable :=
  c <-- load p;;
  match c with CStruct (EColTable x) => ret x | _ => undef BadType end.

Definition columnar_create_table (ctx table_name schema : ptr) : EM Z :=
  table <-- malloc_as (CStruct (EColTable (ColumnarTable_ None None None None None None)));;
  if is_null table then ret ERROR_MEMORY else
  nm <-- strdup table_name;;
  store table (CStruct (EColTable (ColumnarTable_ (Some nm) (Some NULL) (Some 0) (Some 0) (Some NULL) (Some NULL))));;;
  t <-- get_columnar_table table;;
  nm <-- defined (ct_table_name t);;
  free nm;;;
  free table;;;
  ret SUCCESS.

Definition columnar_open_table (ctx table_name table : ptr) : EM Z := ret SUCCESS.
Definition columnar_close_table (table : ptr) : EM Z := ret SUCCESS.
Definition columnar_insert_row (table data : ptr) (data_size : Z) : EM Z := ret SUCCESS.
Definition columnar_update_row (table key data : ptr) (data_size : Z) : EM Z := ret SUCCESS.
Definition columnar_delete_row (table key : ptr) : EM Z := ret SUCCESS.
Definition columnar_query_rows (table condition results num_results : ptr) : EM Z :=
  empty_result results num_results.
Definition columnar_compress_column (data : ptr) (data_size : Z)
    (compressed_data compressed_size : ptr) : EM Z :=
  empty_result compressed_data compressed_size.
Definition columnar_decompress_column (compressed_data : ptr) (compressed_size : Z)
    (data data_size : ptr) : EM Z :=
  empty_result data data_size.
Definition columnar_vectorized_scan (table column_name condition results num_results : ptr) : EM Z :=
  empty_result results num_results.

End ColumnarStorage.

(** ** Vector engine: [vector_storage.c] (the distance functions are in
    [VectorMath]) *)

Module VectorStorage.

Definition vector_storage_init (ctx : ptr) : EM Z :=
  vec_ctx <-- malloc_as (CStruct (EVecCtx (VectorStorageContext_ None None None None)));;
  if is_null vec_ctx then ret ERROR_MEMORY else
  d <-- strdup_lit "./data/vector";;
  store vec_ctx (CStruct (EVecCtx (VectorStorageContext_ (Some d) (Some 768) None None)));;;
  dm <-- strdup_lit "cosine";;
  store vec_ctx (CStruct (EVecCtx (VectorStorageContext_ (Some d) (Some 768) (Some dm) (Some true))));;;
  ret SUCCESS.

Definition vector_storage_cleanup (ctx : ptr) : EM Z := ret SUCCESS.

Definition get_vector_table (p : ptr) : EM VectorTable :=
  c <-- load p;;
  match c with CStruct (EVecTable x) => ret x | _ => undef BadType end.

Definition free_vector_table (table : ptr) : EM unit :=
  t <-- get_vector_table table;;
  p <-- defined (vt_table_name t);; free p;;;
  p <-- defined (vt_vector_file t);; free p;;;
  p <-- defined (vt_metadata_file t);; free p;;;
  p <-- defined (vt_index_file t);; free p;;;
  p <-- defined (vt_distance_metric t);; free p;;;
  free table.

Definition vector_create_table (ctx table_name schema : ptr) : EM Z :=
  table <-- malloc_as (CStruct (EVecTable (VectorTable_ None None None None None None None)));;
  if is_null table then ret ERROR_MEMORY else
  nm <-- strdup table_name;;
  store table (CStruct (EVecTable (VectorTable_ (Some nm) None None None (Some 768) (Some 0) None)));;;
  dm <-- strdup_lit "cosine";;
  store table (CStruct (EVecTable (VectorTable_ (Some nm) None None None (Some 768) (Some 0) (Some dm))));;;
  len <-- strlen table_name;;
  let base_len := u64 (lit_len "./data/vector/" + len) in
  vf <-- make_path base_len "./data/vector/" ".vectors" table_name;;
  store table (CStruct (EVecTable (VectorTable_ (Some nm) (Some vf) None None (Some 768) (Some 0) (Some dm))));;;
  mf <-- make_path base_len "./data/vector/" ".metadata" table_name;;
  store table (CStruct (EVecTable (VectorTable_ (Some nm) (Some vf) (Some mf) None (Some 768) (Some 0) (Some dm))));;;
  xf <-- make_path base_len "./data/vector/" ".index" table_name;;
  store table (CStruct (EVecTable (VectorTable_ (Some nm) (Some vf) (Some mf) (Some xf) (Some 768) (Some 0) (Some dm))));;;
  free_vector_table table;;;
  ret SUCCESS.

Definition vector_open_table (ctx table_name table : ptr) : EM Z := ret SUCCESS.
Definition vector_close_table (table : ptr) : EM Z := ret SUCCESS.
Definition vector_insert_vector (table vector_data : ptr) (dimension : Z) (metadata : ptr) : EM Z :=
  ret SUCCESS.
Definition vector_update_vector (table key vector_data : ptr) (dimension : Z) (metadata : ptr) : EM Z :=
  ret SUCCESS.
Definition vector_delete_vector (table key : ptr) : EM Z := ret SUCCESS.
Definition vector_similarity_search (table query_vector : ptr) (dimension k : Z)
    (results num_results : ptr) : EM Z :=
  empty_result results num_results.
Definition vector_build_index (table : ptr) : EM Z := ret SUCCESS.
Definition vector_rebuild_index (table : ptr) : EM Z := ret SUCCESS.

End VectorStorage.

(** ** Time-series engine: [timeseries_storage.c] *)

Module TimeSeriesStorage.

Definition timeseries_storage_init (ctx : ptr) : EM Z :=
  ts_ctx <-- malloc_as (CStruct (ETsCtx (TimeSeriesStorageContext_ None None None None)));;
  if is_null ts_ctx then ret ERROR_MEMORY else
  d <-- strdup_lit "./data/timeseries";;
  store ts_ctx (CStruct (ETsCtx (TimeSeriesStorageContext_ (Some d) (Some 365) (Some 8) (Some true))));;;
  ret SUCCESS.

Definition timeseries_storage_cleanup (ctx : ptr) : EM Z := ret SUCCESS.

Definition get_timeseries_table (p : ptr) : EM TimeSeriesTable :=
  c <-- load p;;
  match c with CStruct (ETsTable x) => ret x | _ => undef BadType end.

Definition free_timeseries_table (table : ptr) : EM unit :=
  t <-- get_timeseries_table table;;
  p <-- defined (tst_table_name t);; free p;;;
  p <-- defined (tst_data_file t);; free p;;;
  p <-- defined (tst_index_file t);; free p;;;
  free table.

Definition timeseries_create_table (ctx table_name schema : ptr) : EM Z :=
  table <-- malloc_as (CStruct (ETsTable (TimeSeriesTable_ None None None None None None None)));;
  if is_null table then ret ERROR_MEMORY else
  nm <-- strdup table_name;;
  let secs := 365 * 24 * 3600 in
  store table (CStruct (ETsTable (TimeSeriesTable_ (Some nm) None None (Some 0) (Some 0) (Some 0) (Some secs))));;;
  len <-- strlen table_name;;
  let base_len := u64 (lit_len "./data/timeseries/" + len) in
  df <-- make_path base_len "./data/timeseries/" ".tsdb" table_name;;
  store table (CStruct (ETsTable (TimeSeriesTable_ (Some nm) (Some df) None (Some 0) (Some 0) (Some 0) (Some secs))));;;
  xf <-- make_path base_len "./data/timeseries/" ".tsidx" table_name;;
  store table (CStruct (ETsTable (TimeSeriesTable_ (Some nm) (Some df) (Some xf) (Some 0) (Some 0) (Some 0) (Some secs))));;;
  free_timeseries_table table;;;
  ret SUCCESS.

Definition timeseries_open_table (ctx table_name table : ptr) : EM Z := ret SUCCESS.
Definition timeseries_close_table (table : ptr) : EM Z := ret SUCCESS.
(** [value] is a C [double]; it is not looked at. *)
Definition timeseries_insert_point {double : Type} (table : ptr) (timestamp : Z) (value : double)
    (tags : ptr) : EM Z := ret SUCCESS.
Definition timeseries_insert_batch (table points : ptr) (num_points : Z) : EM Z := ret SUCCESS.
Definition timeseries_query_range (table : ptr) (start_time end_time : Z)
    (tags_filter results num_results : ptr) : EM Z :=
  empty_result results num_results.
Definition timeseries_delete_range (table : ptr) (start_time end_time : Z) (tags_filter : ptr) : EM Z :=
  ret SUCCESS.
Definition timeseries_downsample (table : ptr) (start_time end_time interval_seconds : Z)
    (aggregation_func results num_results : ptr) : EM Z :=
  empty_result results num_results.
Definition timeseries_compress_data (points : ptr) (num_points : Z)
    (compressed_data compressed_size : ptr) : EM Z :=
  empty_result compressed_data compressed_size.
Definition timeseries_decompress_data (compressed_data : ptr) (compressed_size : Z)
    (points num_points : ptr) : EM Z :=
  empty_result points num_points.
Definition timeseries_calculate_stats (table : ptr) (start_time end_time : Z)
    (tags_filter stats : ptr) : EM Z :=
  store stats (CPtr NULL);;;
  ret SUCCESS.
Definition timeseries_enforce_retention (table : ptr) : EM Z := ret SUCCESS.
Definition timeseries_create_time_index (table : ptr) : EM Z := ret SUCCESS.
Definition timeseries_create_continuous_aggregate (table aggregate_name : ptr)
    (interval_seconds : Z) (aggregation_func : ptr) : EM Z := ret SUCCESS.

End TimeSeriesStorage.

(** ** Graph engine: [graph_storage.c] *)

Module GraphStorage.

Definition graph_storage_init (ctx : ptr) : EM Z :=
  graph_ctx <-- malloc_as (CStruct (EGraphCtx (GraphStorageContext_ None None None)));;
  if is_null graph_ctx then ret ERROR_MEMORY else
  d <-- strdup_lit "./data/graph";;
  store graph_ctx (CStruct (EGraphCtx (GraphStorageContext_ (Some d) (Some true) None)));;;
  gf <-- strdup_lit "adjacency_list";;
  store graph_ctx (CStruct (EGraphCtx (GraphStorageContext_ (Some d) (Some true) (Some gf))));;;
  ret SUCCESS.

Definition graph_storage_cleanup (ctx : ptr) : EM Z := ret SUCCESS.

Definition get_graph_table (p : ptr) : EM GraphTable :=
  c <-- load p;;
  match c with CStruct (EGraphTable x) => ret x | _ => undef BadType end.

Definition free_graph_table (table : ptr) : EM unit :=
  t <-- get_graph_table table;;
  p <-- defined (gt_table_name t);; free p;;;
  p <-- defined (gt_vertices_file t);; free p;;;
  p <-- defined (gt_edges_file t);; free p;;;
  p <-- defined (gt_properties_file t);; free p;;;
  p <-- defined (gt_index_file t);; free p;;;
  free table.

Definition graph_create_table (ctx table_name schema : ptr) : EM Z :=
  table <-- malloc_as (CStruct (EGraphTable (GraphTable_ None None None None None None None None)));;
  if is_null table then ret ERROR_MEMORY else
  nm <-- strdup table_name;;
  let put v e p x := store table (CStruct (EGraphTable
    (GraphTable_ (Some nm) v e p x (Some 0) (Some 0) (Some true)))) in
  put None None None None;;;
  len <-- strlen table_name;;
  let base_len := u64 (lit_len "./data/graph/" + len) in
  vf <-- make_path base_len "./data/graph/" ".vertices" table_name;;
  put (Some vf) None None None;;;
  ef <-- make_path base_len "./data/graph/" ".edges" table_name;;
  put (Some vf) (Some ef) None None;;;
  pf <-- make_path base_len "./data/graph/" ".properties" table_name;;
  put (Some vf) (Some ef) (Some pf) None;;;
  xf <-- make_path base_len "./data/graph/" ".gidx" table_name;;
  put (Some vf) (Some ef) (Some pf) (Some xf);;;
  free_graph_table table;;;
  ret SUCCESS.

Definition graph_open_table (ctx table_name table : ptr) : EM Z := ret SUCCESS.
Definition graph_close_table (table : ptr) : EM Z := ret SUCCESS.
Definition graph_insert_vertex (table : ptr) (vertex_id : Z) (label properties : ptr) : EM Z :=
  ret SUCCESS.
Definition graph_insert_edge {double : Type} (table : ptr) (edge_id source_id target_id : Z)
    (label : ptr) (weight : double) (properties : ptr) : EM Z := ret SUCCESS.
Definition graph_update_vertex (table : ptr) (vertex_id : Z) (properties : ptr) : EM Z := ret SUCCESS.
Definition graph_update_edge {double : Type} (table : ptr) (edge_id : Z) (properties : ptr)
    (weight : double) : EM Z := ret SUCCESS.
Definition graph_delete_vertex (table : ptr) (vertex_id : Z) : EM Z := ret SUCCESS.
Definition graph_delete_edge (table : ptr) (edge_id : Z) : EM Z := ret SUCCESS.
Definition graph_get_neighbors (table : ptr) (vertex_id : Z) (outgoing : bool)
    (neighbors num_neighbors : ptr) : EM Z :=
  empty_result neighbors num_neighbors.
Definition graph_bfs (table : ptr) (start_vertex_id max_depth : Z)
    (visited_vertices num_visited : ptr) : EM Z :=
  empty_result visited_vertices num_visited.
Definition graph_dfs (table : ptr) (start_vertex_id max_depth : Z)
    (visited_vertices num_visited : ptr) : EM Z :=
  empty_result visited_vertices num_visited.
Definition graph_shortest_path (table : ptr) (source_id target_id : Z)
    (path path_length total_weight : ptr) : EM Z :=
  store path (CPtr NULL);;;
  store path_length (CInt 0);;;
  store total_weight (CDouble (S754_zero false));;;
  ret SUCCESS.
Definition graph_pagerank {double : Type} (table : ptr) (damping_factor : double)
    (max_iterations : Z) (tolerance : double) (pagerank_scores : ptr) : EM Z :=
  store pagerank_scores (CPtr NULL);;;
  ret SUCCESS.
Definition graph_connected_components (table components num_components : ptr) : EM Z :=
  empty_result components num_components.
Definition graph_pattern_match (table pattern_query matches num_matches : ptr) : EM Z :=
  empty_result matches num_matches.
Definition graph_calculate_stats (table stats : ptr) : EM Z :=
  store stats (CPtr NULL);;;
  ret SUCCESS.
Definition graph_create_index (table index_type : ptr) : EM Z := ret SUCCESS.
Definition graph_export (table format output_file : ptr) : EM Z := ret SUCCESS.
Definition graph_import (table format input_file : ptr) : EM Z := ret SUCCESS.

End GraphStorage.
