(* ===== verification/EngineSpec.v ===== *)
(** * What the storage engines do

    Table creation in the five engines: buffer sizes, leaks, error codes and
    the one way it can go wrong; engine initialisation; and the result
    protocol of the query functions. *)
From Stdlib Require Import SpecFloat.
From S2P Require Import Prelude CMem Core Engines.
Local Open Scope Z_scope.

Abbreviation eheap := (gmap loc (cell engine_struct)).

Lemma length_append a b : String.length (String.append a b) = (String.length a + String.length b)%nat.
Proof.
  induction a as [|c a IH]; [done|].
  change (S (String.length (String.append a b)) = S (String.length a) + String.length b)%nat. lia.
Qed.

Lemma substring_all s n : (String.length s <= n)%nat -> String.substring 0 n s = s.
Proof.
  revert n. induction s as [|c s IH]; intros [|n] Hn; simpl in *; try done; [lia|].
  f_equal. apply IH. lia.
Qed.

(** A formatted path fits its buffer exactly. *)
Lemma fmt_path_len pre s suf :
  Z.of_nat (String.length (fmt_path pre s suf)) = lit_len pre + Z.of_nat (String.length s) + lit_len suf.
Proof. unfold fmt_path, lit_len. rewrite !length_append. lia. Qed.

(** Names short enough that no path length wraps around. *)
Definition short (s : string) : Prop := Z.of_nat (String.length s) < 2 ^ 63.

Lemma wp_strlen U l z s Q (h : eheap) n e f :
  h !! l = Some (CStr z s) -> Q (Z.of_nat (String.length s)) (Mem h n e f) ->
  wpx U (strlen (Some l)) Q (Mem h n e f).
Proof. intros Hl HQ. apply wp_bind. by eapply wp_load_str. Qed.

Lemma wp_make_path (U : ub -> Prop) pre suf nm z s Q (h : eheap) n e f :
  h !! nm = Some (CStr z s) -> h !! n = None -> short s ->
  lit_len pre < 2 ^ 32 -> lit_len suf < 2 ^ 32 ->
  (env_ok e = true ->
   Q (Some n) (Mem (<[n := CStr (lit_len pre + Z.of_nat (String.length s) + lit_len suf + 1)
                            (fmt_path pre s suf)]> h) (Pos.succ n) (tail e) f)) ->
  (env_ok e = false -> U NullDeref) ->
  wpx U (make_path (u64 (lit_len pre + Z.of_nat (String.length s))) pre suf (Some nm)) Q (Mem h n e f).
Proof.
  intros Hnm Hn Hs Hpre Hsuf HQ HU. unfold make_path, short in *.
  assert (Hne : nm <> n) by congruence.
  rewrite (u64_small (lit_len pre + _)) by (unfold lit_len in *; lia).
  rewrite u64_small by (unfold lit_len in *; lia).
  wp_step. wp_step.
  - apply wp_bind. eapply wp_load_str; [by rewrite lookup_insert_ne|].
    apply wp_bind. eapply wp_sprintf; [apply lookup_insert_eq|done|rewrite fmt_path_len; lia|].
    rewrite insert_insert_eq. by apply HQ.
  - apply wp_bind. eapply wp_load_str; [done|]. apply wp_bind. by apply wp_sprintf_null, HU.
Qed.

(** [snprintf] with a limit that is large enough writes the whole text. *)
Lemma wp_snprintf U l c z lim x Q (h : eheap) n e f :
  h !! l = Some c -> buf_size c = Some z -> Z.of_nat (String.length x) + 1 <= lim -> lim <= z ->
  Q tt (Mem (<[l := CStr z x]> h) n e f) -> wpx U (snprintf (Some l) lim x) Q (Mem h n e f).
Proof.
  intros Hl Hc Hx Hz HQ. unfold snprintf. rewrite substring_all by lia.
  eapply wp_sprintf; eauto. lia.
Qed.

Lemma wp_snprintf_null (U : ub -> Prop) lim x Q (m : mem engine_struct) :
  U NullDeref -> wpx U (snprintf NULL lim x) Q m.
Proof. done. Qed.

Ltac engine_step :=
  first
  [ wp_step
  | lazymatch goal with
    | |- wpx _ (strlen (Some _)) _ _ => eapply wp_strlen; [heap_lookup|]
    | |- wpx _ (defined (Some _)) _ _ => unfold defined; apply wp_ret
    | |- wpx _ (make_path _ _ _ _) _ _ =>
        eapply wp_make_path;
        [heap_lookup | heap_lookup; eapply heap_below_fresh; [eassumption|lia]
        | done | reflexivity | reflexivity | intros ? | intros ?]
    end ]; simpl.

(** A request that was refused is one of the answers of the environment. *)
Ltac refused :=
  match goal with
  | H : env_ok _ = false |- false ∈ _ =>
      apply env_ok_false in H; repeat apply env_tail in H; exact H
  end.

(** The engine selected by a storage type. *)
Definition create_table_of (t : EpiphanyDBStorageType) : ptr -> ptr -> ptr -> EM Z :=
  match t with
  | EPIPHANYDB_STORAGE_HEAP => HeapStorage.heap_create_table
  | EPIPHANYDB_STORAGE_COLUMNAR => ColumnarStorage.columnar_create_table
  | EPIPHANYDB_STORAGE_VECTOR => VectorStorage.vector_create_table
  | EPIPHANYDB_STORAGE_TIMESERIES => TimeSeriesStorage.timeseries_create_table
  | EPIPHANYDB_STORAGE_GRAPH => GraphStorage.graph_create_table
  end.

(** Reasons for which a creation may be undefined: a NULL path buffer after an
    allocation failed. *)
Definition oom_deref (e : list bool) (u : ub) : Prop := u = NullDeref /\ false ∈ e.

Section create.
Context (h : eheap) (n : loc) (e : list bool) (f : gmap string string).
Context (nm : loc) (z : Z) (s : string) (ctx schema : ptr).
Context (Hb : heap_below h n) (Hnm : h !! nm = Some (CStr z s)) (Hs : short s).

(** The outcomes of a creation that touches no file. *)
Ltac engine_done :=
  match goal with
  | |- _ /\ _ /\ _ =>
      split; [first [left; reflexivity | right; split; [reflexivity|refused]]
             | split; [heap_ext|reflexivity]]
  | |- oom_deref _ _ => split; [reflexivity|refused]
  end.

Lemma vector_create_table_wp :
  wpx (oom_deref e) (VectorStorage.vector_create_table ctx (Some nm) schema)
    (fun r m' => (r = SUCCESS \/ r = ERROR_MEMORY /\ false ∈ e) /\ m_heap m' = h /\ m_files m' = f)
    (Mem h n e f).
Proof.
  pose proof (heap_below_lt _ _ _ _ Hb Hnm).
  unfold VectorStorage.vector_create_table, VectorStorage.free_vector_table, VectorStorage.get_vector_table.
  repeat engine_step; engine_done.
Qed.

Lemma timeseries_create_table_wp :
  wpx (oom_deref e) (TimeSeriesStorage.timeseries_create_table ctx (Some nm) schema)
    (fun r m' => (r = SUCCESS \/ r = ERROR_MEMORY /\ false ∈ e) /\ m_heap m' = h /\ m_files m' = f)
    (Mem h n e f).
Proof.
  pose proof (heap_below_lt _ _ _ _ Hb Hnm).
  unfold TimeSeriesStorage.timeseries_create_table, TimeSeriesStorage.free_timeseries_table,
    TimeSeriesStorage.get_timeseries_table.
  repeat engine_step; engine_done.
Qed.

Lemma graph_create_table_wp :
  wpx (oom_deref e) (GraphStorage.graph_create_table ctx (Some nm) schema)
    (fun r m' => (r = SUCCESS \/ r = ERROR_MEMORY /\ false ∈ e) /\ m_heap m' = h /\ m_files m' = f)
    (Mem h n e f).
Proof.
  pose proof (heap_below_lt _ _ _ _ Hb Hnm).
  unfold GraphStorage.graph_create_table, GraphStorage.free_graph_table, GraphStorage.get_graph_table.
  repeat engine_step; engine_done.
Qed.

Lemma columnar_create_table_wp :
  wpx (oom_deref e) (ColumnarStorage.columnar_create_table ctx (Some nm) schema)
    (fun r m' => (r = SUCCESS \/ r = ERROR_MEMORY /\ false ∈ e) /\ m_heap m' = h /\ m_files m' = f)
    (Mem h n e f).
Proof.
  pose proof (heap_below_lt _ _ _ _ Hb Hnm).
  unfold ColumnarStorage.columnar_create_table, ColumnarStorage.get_columnar_table.
  repeat engine_step; engine_done.
Qed.

Lemma wp_fopen U l c x Q (h' : eheap) n' e' f' :
  h' !! l = Some (CStr c x) ->
  (env_ok e' = true -> Q (Some n') (Mem (<[n' := CFile x]> h') (Pos.succ n') (tail e') (<[x := EmptyString]> f'))) ->
  (env_ok e' = false -> Q NULL (Mem h' n' (tail e') f')) ->
  wpx U (fopen_wb (Some l)) Q (Mem h' n' e' f').
Proof.
  intros Hl Ht Hf. apply wp_bind. eapply wp_load_str; [done|].
  unfold wpx, bind, ask, alloc, ret. destruct e' as [|[] e']; simpl in *; auto.
Qed.

Lemma wp_fclose U l x Q (h' : eheap) n' e' f' :
  h' !! l = Some (CFile x) -> Q tt (Mem (delete l h') n' e' f') ->
  wpx U (fclose (Some l)) Q (Mem h' n' e' f').
Proof. intros Hl HQ. apply wp_bind. eapply wp_load; [done|]. by eapply wp_free. Qed.

(** The row engine also creates the (empty) table file. *)
Lemma heap_create_table_wp :
  wpx (oom_deref e) (HeapStorage.heap_create_table ctx (Some nm) schema)
    (fun r m' => m_heap m' = h /\
       ((r = SUCCESS /\ m_files m' = <[fmt_path "./data/heap/" s ".heap" := EmptyString]> f) \/
        ((r = ERROR_IO \/ r = ERROR_MEMORY) /\ false ∈ e /\ m_files m' = f)))
    (Mem h n e f).
Proof.
  pose proof (heap_below_lt _ _ _ _ Hb Hnm).
  unfold HeapStorage.heap_create_table, HeapStorage.free_heap_table, HeapStorage.get_heap_table.
  assert (Hlen : u64 (lit_len "./data/heap/" + Z.of_nat (String.length s) + lit_len ".heap" + 1)
                 = lit_len "./data/heap/" + Z.of_nat (String.length s) + lit_len ".heap" + 1).
  { apply u64_small. unfold short, lit_len in *. simpl. lia. }
  repeat engine_step; rewrite ?Hlen in *.
  all: try (apply wp_snprintf_null; split; [reflexivity|refused]).
  all: try (eapply wp_snprintf; [heap_lookup|done|rewrite fmt_path_len; lia|lia|]).
  all: repeat engine_step.
  all: try (eapply wp_fopen; [heap_lookup| |]; intros ?; repeat engine_step).
  all: try (eapply wp_fclose; [heap_lookup|]; repeat engine_step).
  all: split; [heap_ext|].
  all: lazymatch goal with
       | |- 0 = 0 /\ _ \/ _ => left; split; reflexivity
       | |- _ => right; split; [auto|split; [refused|reflexivity]]
       end.
Qed.

End create.

(** C35 -- Table creation in all five engines.  Given any table name and any
    pattern of allocation and [fopen] failures, [*_create_table] keeps every
    path inside its buffer, frees everything it allocated, and returns
    [EPIPHANYDB_SUCCESS] whenever the environment grants all its requests; the
    row engine then has created exactly its table file, empty, and no other
    engine touches the file system.  The only undefined behaviour is the use
    of a NULL path buffer after a failed allocation. *)
Theorem create_table_outcome t (h : eheap) n e f nm z s ctx schema :
  heap_below h n -> h !! nm = Some (CStr z s) -> short s ->
  match create_table_of t ctx (Some nm) schema (Mem h n e f) with
  | Undef u => u = NullDeref /\ false ∈ e
  | Ret r m' =>
      m_heap m' = h /\
      (r = SUCCESS /\
       m_files m' = (if decide (storage_type_val t = 0)
                     then <[fmt_path "./data/heap/" s ".heap" := EmptyString]> f else f) \/
       (r = ERROR_MEMORY \/ r = ERROR_IO) /\ m_files m' = f /\ false ∈ e)
  end.
Proof.
  intros Hb Hnm Hs.
  change (wpx (oom_deref e) (create_table_of t ctx (Some nm) schema)
    (fun r m' => m_heap m' = h /\
      (r = SUCCESS /\
       m_files m' = (if decide (storage_type_val t = 0)
                     then <[fmt_path "./data/heap/" s ".heap" := EmptyString]> f else f) \/
       (r = ERROR_MEMORY \/ r = ERROR_IO) /\ m_files m' = f /\ false ∈ e)) (Mem h n e f)).
  destruct t; simpl.
  - eapply wp_mono; [by eapply heap_create_table_wp|]. simpl. intros r m'. tauto.
  - eapply wp_mono; [by eapply columnar_create_table_wp|]. simpl. intros r m'. tauto.
  - eapply wp_mono; [by eapply vector_create_table_wp|]. simpl. intros r m'. tauto.
  - eapply wp_mono; [by eapply timeseries_create_table_wp|]. simpl. intros r m'. tauto.
  - eapply wp_mono; [by eapply graph_create_table_wp|]. simpl. intros r m'. tauto.
Qed.

Lemma create_table_outcome_witness :
  match create_table_of EPIPHANYDB_STORAGE_HEAP NULL (Some 1%positive) NULL
          (Mem ({[1%positive := CStr 3 "t1"]} : eheap) 2 [] ∅) with
  | Undef u => u = NullDeref /\ false ∈ @nil bool
  | Ret r m' =>
      m_heap m' = ({[1%positive := CStr 3 "t1"]} : eheap) /\
      (r = SUCCESS /\ m_files m' = <["./data/heap/t1.heap"%string := EmptyString]> ∅ \/
       (r = ERROR_MEMORY \/ r = ERROR_IO) /\ m_files m' = ∅ /\ false ∈ @nil bool)
  end.
Proof.
  apply (create_table_outcome EPIPHANYDB_STORAGE_HEAP _ _ _ _ 1%positive 3 "t1").
  - intros l [c Hl]. apply lookup_singleton_Some in Hl as [<- _]. lia.
  - reflexivity.
  - reflexivity.
Defined.

(** The answer of the environment to the request number [i]. *)
Definition answer (e : list bool) (i : nat) : bool := default true (e !! i).

Lemma env_ok_answer e : env_ok e = answer e 0.
Proof. by destruct e. Qed.
Lemma answer_tail e i : answer (tail e) i = answer e (S i).
Proof. by destruct e. Qed.

(** The requests of a creation that are for path buffers: first come the table, its name and, in the vector engine, the
    name of the metric. *)
Definition path_requests (t : EpiphanyDBStorageType) : list nat :=
  match t with
  | EPIPHANYDB_STORAGE_HEAP => [2]
  | EPIPHANYDB_STORAGE_COLUMNAR => []
  | EPIPHANYDB_STORAGE_VECTOR => [3; 4; 5]
  | EPIPHANYDB_STORAGE_TIMESERIES => [2; 3]
  | EPIPHANYDB_STORAGE_GRAPH => [2; 3; 4; 5]
  end%nat.

(** The table is granted and some path buffer is not. *)
Definition path_refused (t : EpiphanyDBStorageType) (e : list bool) : bool :=
  answer e 0 && existsb (fun i => negb (answer e i)) (path_requests t).

Lemma create_table_paths t (h : eheap) n e f nm z s ctx schema :
  heap_below h n -> h !! nm = Some (CStr z s) -> short s ->
  wpx (fun u => u = NullDeref /\ path_refused t e = true) (create_table_of t ctx (Some nm) schema) (fun _ _ => path_refused t e = false) (Mem h n e f).
Proof.
  intros Hb Hnm Hs. pose proof (heap_below_lt _ _ _ _ Hb Hnm). unfold path_refused.
  assert (Hlen : u64 (lit_len "./data/heap/" + Z.of_nat (String.length s) + lit_len ".heap" + 1)
                 = lit_len "./data/heap/" + Z.of_nat (String.length s) + lit_len ".heap" + 1).
  { apply u64_small. unfold short, lit_len in *. simpl. lia. }
  destruct t; cbn [create_table_of path_requests existsb];
    unfold HeapStorage.heap_create_table, HeapStorage.free_heap_table, HeapStorage.get_heap_table, ColumnarStorage.columnar_create_table, ColumnarStorage.get_columnar_table,
      VectorStorage.vector_create_table, VectorStorage.free_vector_table, VectorStorage.get_vector_table, TimeSeriesStorage.timeseries_create_table,
      TimeSeriesStorage.free_timeseries_table, TimeSeriesStorage.get_timeseries_table, GraphStorage.graph_create_table, GraphStorage.free_graph_table, GraphStorage.get_graph_table;
    repeat engine_step; rewrite ?Hlen in *.
  all: try (eapply wp_snprintf; [heap_lookup|done|rewrite fmt_path_len; lia|lia|]); repeat engine_step.
  all: try (eapply wp_fopen; [heap_lookup| |]; intros ?; repeat engine_step).
  all: try (eapply wp_fclose; [heap_lookup|]; repeat engine_step).
  all: rewrite ?env_ok_answer, ?answer_tail in *; repeat match goal with H : answer _ _ = _ |- _ => rewrite H; clear H end.
  all: cbn; rewrite ?andb_false_r; rewrite ?orb_true_r; try done.
Qed.

(** C37 -- NULL dereferences.  Under every pattern of failures and in every engine, [*_create_table] is undefined exactly when the table was
    allocated and the allocation of a path buffer fails, whichever of its path buffers it is and whether or not the names were copied: it passes the NULL pointer to
    [sprintf]/[snprintf] instead of returning [EPIPHANYDB_ERROR_MEMORY].  The column engine, which builds no path, is always defined. *)
Theorem create_table_null_path t (h : eheap) n e f nm z s ctx schema :
  heap_below h n -> h !! nm = Some (CStr z s) -> short s ->
  (create_table_of t ctx (Some nm) schema (Mem h n e f) = Undef NullDeref <->
   answer e 0 = true /\ exists i, i ∈ path_requests t /\ answer e i = false) /\
  forall u, create_table_of t ctx (Some nm) schema (Mem h n e f) = Undef u -> u = NullDeref.
Proof.
  intros Hb Hnm Hs. pose proof (create_table_paths t h n e f nm z s ctx schema Hb Hnm Hs) as H. unfold wpx in H.
  assert (Hiff : path_refused t e = true <-> answer e 0 = true /\ exists i, i ∈ path_requests t /\ answer e i = false).
  { unfold path_refused. rewrite andb_true_iff, existsb_exists. apply and_iff_compat_l. split; intros (i & Hi & Ha); exists i;
      (split; [by apply list_elem_of_In|]); by apply negb_true_iff. }
  rewrite <- Hiff. destruct (create_table_of _ _ _ _ _) as [r m|u].
  - split; [split; [done|congruence]|done].
  - destruct H as [-> Hp]. split; [done|]. by intros u [= ->].
Qed.

(** In the graph engine the third of four path buffers is refused. *)
Lemma create_table_null_path_witness :
  create_table_of EPIPHANYDB_STORAGE_GRAPH NULL (Some 1%positive) NULL
    (Mem ({[1%positive := CStr 2 "g"]} : eheap) 2 [true; true; true; true; false] ∅) = Undef NullDeref.
Proof.
  apply (create_table_null_path EPIPHANYDB_STORAGE_GRAPH _ _ _ _ 1%positive 2 "g").
  - intros l [c Hl]. apply lookup_singleton_Some in Hl as [<- _]. lia.
  - reflexivity.
  - reflexivity.
  - split; [reflexivity|]. exists 4%nat. split; [vm_compute; repeat constructor|reflexivity].
Defined.

Definition storage_init_of (t : EpiphanyDBStorageType) : ptr -> EM Z :=
  match t with
  | EPIPHANYDB_STORAGE_HEAP => HeapStorage.heap_storage_init
  | EPIPHANYDB_STORAGE_COLUMNAR => ColumnarStorage.columnar_storage_init
  | EPIPHANYDB_STORAGE_VECTOR => VectorStorage.vector_storage_init
  | EPIPHANYDB_STORAGE_TIMESERIES => TimeSeriesStorage.timeseries_storage_init
  | EPIPHANYDB_STORAGE_GRAPH => GraphStorage.graph_storage_init
  end.

Definition storage_cleanup_of (t : EpiphanyDBStorageType) : ptr -> EM Z :=
  match t with
  | EPIPHANYDB_STORAGE_HEAP => HeapStorage.heap_storage_cleanup
  | EPIPHANYDB_STORAGE_COLUMNAR => ColumnarStorage.columnar_storage_cleanup
  | EPIPHANYDB_STORAGE_VECTOR => VectorStorage.vector_storage_cleanup
  | EPIPHANYDB_STORAGE_TIMESERIES => TimeSeriesStorage.timeseries_storage_cleanup
  | EPIPHANYDB_STORAGE_GRAPH => GraphStorage.graph_storage_cleanup
  end.

(** The blocks an engine context consists of. *)
Definition engine_blocks (t : EpiphanyDBStorageType) : nat :=
  match t with
  | EPIPHANYDB_STORAGE_VECTOR | EPIPHANYDB_STORAGE_GRAPH => 3
  | _ => 2
  end.

(** The engine contexts leak.  Initialising any engine and cleaning it up
    again reports success twice and leaves the blocks of the engine context
    allocated: no pointer to them is stored anywhere. *)
Theorem storage_init_leaks t (h : eheap) n f ctx :
  heap_below h n ->
  exists m', (r1 <-- storage_init_of t ctx;; r2 <-- storage_cleanup_of t ctx;; ret (r1, r2))
               (Mem h n [] f) = Ret (SUCCESS, SUCCESS) m' /\
    size (m_heap m') = (size h + engine_blocks t)%nat /\
    (forall l, is_Some (h !! l) -> m_heap m' !! l = h !! l).
Proof.
  intros Hb.
  assert (Hold : forall l, is_Some (h !! l) -> l <> n /\ l <> Pos.succ n /\ l <> Pos.succ (Pos.succ n))
    by (intros l Hl; apply Hb in Hl; lia).
  set (op := bind (storage_init_of t ctx) _).
  assert (Hw : wp op (fun r m' => r = (SUCCESS, SUCCESS) /\
     size (m_heap m') = (size h + engine_blocks t)%nat /\
     (forall l, is_Some (h !! l) -> m_heap m' !! l = h !! l)) (Mem h n [] f)).
  { subst op. destruct t; simpl;
    unfold HeapStorage.heap_storage_init, ColumnarStorage.columnar_storage_init,
      VectorStorage.vector_storage_init, TimeSeriesStorage.timeseries_storage_init,
      GraphStorage.graph_storage_init;
    repeat engine_step; try discriminate; (split; [done|]); simpl; split.
    all: try (intros l Hl; destruct (Hold l Hl) as (? & ? & ?); by rewrite !lookup_insert_ne by congruence).
    all: repeat first
      [ rewrite map_size_insert_None by (heap_lookup; eapply heap_below_fresh; [eassumption|lia])
      | rewrite map_size_insert_Some by (eexists; heap_lookup) ].
    all: simpl; lia. }
  apply wp_exec in Hw as (r & m' & E & -> & Hsz & Hl). eauto.
Qed.

