(* ===== verification/VectorMath.v ===== *)
(** * Vector distances

    The three distance functions of [src/src/storage/vector_storage.c] on IEEE
    single precision numbers: every operation rounds to nearest even in binary32, with
    subnormals, infinities and NaN (payloads are not distinguished), as on the
    targets where a float expression is evaluated in single precision.  A read
    beyond the end of a vector is undefined behaviour, the result [None]. *)
From Stdlib Require Import SpecFloat.
From S2P Require Import Prelude.
Local Open Scope Z_scope.

(** ** Single precision *)

Definition f32 : Type := spec_float.
Definition fadd : f32 -> f32 -> f32 := SFadd 24 128.
Definition fsub : f32 -> f32 -> f32 := SFsub 24 128.
Definition fmul : f32 -> f32 -> f32 := SFmul 24 128.
Definition fdiv : f32 -> f32 -> f32 := SFdiv 24 128.
Definition sqrtf : f32 -> f32 := SFsqrt 24 128.
Definition fabsf : f32 -> f32 := SFabs.
Definition feqb : f32 -> f32 -> bool := SFeqb.
Definition f0 : f32 := S754_zero false.

(** ** The functions *)

(** The loop from index [i], with [n] elements to go. *)
Fixpoint cosine_loop (vec1 vec2 : list f32) (i n : nat) (acc : f32 * f32 * f32) : option (f32 * f32 * f32) :=
  match n with
  | O => Some acc
  | S n' =>
      let '(dot_product, norm1, norm2) := acc in
      x ← vec1 !! i; y ← vec2 !! i;
      cosine_loop vec1 vec2 (S i) n'
        (fadd dot_product (fmul x y), fadd norm1 (fmul x x), fadd norm2 (fmul y y))
  end.

Definition vector_cosine_similarity (vec1 vec2 : list f32) (dimension : nat) : option f32 :=
  '(dot_product, norm1, norm2) ← cosine_loop vec1 vec2 0 dimension (f0, f0, f0);
  Some (if feqb norm1 f0 || feqb norm2 f0 then f0
        else fdiv dot_product (fmul (sqrtf norm1) (sqrtf norm2))).

Fixpoint euclidean_loop (vec1 vec2 : list f32) (i n : nat) (sum : f32) : option f32 :=
  match n with
  | O => Some sum
  | S n' =>
      x ← vec1 !! i; y ← vec2 !! i;
      let diff := fsub x y in
      euclidean_loop vec1 vec2 (S i) n' (fadd sum (fmul diff diff))
  end.

Definition vector_euclidean_distance (vec1 vec2 : list f32) (dimension : nat) : option f32 :=
  sum ← euclidean_loop vec1 vec2 0 dimension f0; Some (sqrtf sum).

Fixpoint manhattan_loop (vec1 vec2 : list f32) (i n : nat) (sum : f32) : option f32 :=
  match n with
  | O => Some sum
  | S n' =>
      x ← vec1 !! i; y ← vec2 !! i;
      manhattan_loop vec1 vec2 (S i) n' (fadd sum (fabsf (fsub x y)))
  end.

Definition vector_manhattan_distance (vec1 vec2 : list f32) (dimension : nat) : option f32 :=
  manhattan_loop vec1 vec2 0 dimension f0.

(** ** Arithmetic facts *)

Lemma round_opp s m e : binary_round 24 128 (negb s) m e = SFopp (binary_round 24 128 s m e).
Proof.
  unfold binary_round. destruct (shl_align _ _ _) as [mz ez]. unfold binary_round_aux.
  destruct (shr_fexp _ _ _ _ _) as [r1 e1]. destruct (shr_fexp _ _ _ _ _) as [r2 e2].
  destruct (shr_m r2); [done| |done]. by destruct (e2 <=? _).
Qed.

Lemma abs_opp x : SFabs (SFopp x) = SFabs x.
Proof. by destruct x. Qed.

Lemma abs_normalize m e s s' :
  SFabs (binary_normalize 24 128 (- m) e s) = SFabs (binary_normalize 24 128 m e s').
Proof.
  destruct m as [|p|p]; simpl; [done| |];
    [change true with (negb false)|change false with (negb true)]; by rewrite round_opp, abs_opp.
Qed.

(** Differences agree up to the sign. *)
Lemma fabs_sub_comm x y : fabsf (fsub x y) = fabsf (fsub y x).
Proof.
  unfold fabsf, fsub. destruct x as [sx|sx| |sx mx ex], y as [sy|sy| |sy my ey]; simpl; try done;
    try (by destruct sx, sy).
  rewrite (Z.min_comm ey ex). rewrite <- (abs_normalize _ _ false false). f_equal. f_equal. lia.
Qed.

(** A square does not see the sign. *)
Lemma fmul_abs x : fmul x x = fmul (fabsf x) (fabsf x).
Proof. unfold fmul, fabsf. destruct x as [s|s| |s m e]; simpl; try done; by rewrite xorb_nilpotent. Qed.

Lemma fmul_comm x y : fmul x y = fmul y x.
Proof.
  unfold fmul. destruct x as [sx|sx| |sx mx ex], y as [sy|sy| |sy my ey]; simpl; try done;
    rewrite (xorb_comm sy sx); [done..|].
  by rewrite (Pos.mul_comm my mx), (Z.add_comm ey ex).
Qed.

(** A number that is not negative: [+0], positive or [+inf]; not NaN. *)
Definition nonneg (x : f32) : bool :=
  match x with
  | S754_zero s | S754_infinity s | S754_finite s _ _ => negb s
  | S754_nan => false
  end.

Definition finite (x : f32) : bool :=
  match x with S754_zero _ | S754_finite _ _ _ => true | _ => false end.

Lemma shr_nonneg r e n : 0 <= shr_m r -> 0 <= shr_m (fst (shr r e n)).
Proof.
  intros H. unfold shr. destruct n as [|p|p]; [done| |done]. simpl.
  assert (Hstep : forall r, 0 <= shr_m r -> 0 <= shr_m (shr_1 r)).
  { intros [[|[q|q|]|q] b c]; simpl; lia. }
  revert r H. induction p as [p IH|p IH|]; intros r H; simpl; auto.
Qed.

Lemma loc_nonneg m l : 0 <= m -> 0 <= shr_m (shr_record_of_loc m l).
Proof. by destruct l as [|[]]. Qed.

Lemma rne_nonneg m l : 0 <= m -> 0 <= round_nearest_even m l.
Proof. intros H. destruct l as [|[]]; simpl; try lia. destruct (Z.even m); lia. Qed.

Lemma round_aux_nonneg m e l : 0 <= m -> nonneg (binary_round_aux 24 128 false m e l) = true.
Proof.
  intros H. unfold binary_round_aux, shr_fexp. destruct (shr _ _ _) as [r1 e1] eqn:E1.
  assert (H1 : 0 <= shr_m r1).
  { change r1 with (fst (r1, e1)). rewrite <- E1. by apply shr_nonneg, loc_nonneg. }
  destruct (shr _ e1 _) as [r2 e2] eqn:E2.
  assert (H2 : 0 <= shr_m r2).
  { change r2 with (fst (r2, e2)). rewrite <- E2. by apply shr_nonneg, loc_nonneg, rne_nonneg. }
  destruct (shr_m r2); [done| |lia]. by destruct (e2 <=? _).
Qed.

Lemma round_nonneg m e : nonneg (binary_round 24 128 false m e) = true.
Proof. unfold binary_round. destruct (shl_align _ _ _). by apply round_aux_nonneg. Qed.

Lemma fadd_nonneg x y : nonneg x = true -> nonneg y = true -> nonneg (fadd x y) = true.
Proof.
  unfold fadd. destruct x as [[]|[]| |[] mx ex], y as [[]|[]| |[] my ey]; simpl; try done.
  intros _ _. apply round_nonneg.
Qed.

Lemma fabsf_nonneg x : x <> S754_nan -> nonneg (fabsf x) = true.
Proof. by destruct x. Qed.

Lemma fmul_self_nonneg x : x <> S754_nan -> nonneg (fmul x x) = true.
Proof.
  unfold fmul. destruct x as [s|s| |s m e]; simpl; try done; intros _; rewrite xorb_nilpotent; [done..|].
  by apply round_aux_nonneg.
Qed.

Lemma sqrtf_nonneg x : nonneg x = true -> nonneg (sqrtf x) = true.
Proof.
  unfold sqrtf. destruct x as [s|[]| |[] m e]; simpl; try done. intros _.
  unfold SFsqrt_core_binary. match goal with |- context [Z.sqrtrem ?a] => pose proof (Z.sqrtrem_sqrt a) as Hq end.
  destruct (Z.sqrtrem _) as [q r]. apply round_aux_nonneg. simpl in Hq. rewrite Hq. apply Z.sqrt_nonneg.
Qed.

Lemma nonneg_number x : nonneg x = true -> x <> S754_nan.
Proof. by destruct x. Qed.

Lemma fsub_number x y : finite x = true -> finite y = true -> fsub x y <> S754_nan.
Proof.
  unfold fsub. destruct x as [sx|sx| |sx mx ex], y as [sy|sy| |sy my ey]; simpl; try done.
  - by destruct sx, sy.
  - intros _ _. unfold binary_normalize. destruct (_ - _) as [|p|p]; [done|apply nonneg_number, round_nonneg|].
    change true with (negb false). rewrite round_opp. intros H.
    pose proof (round_nonneg p (Z.min ex ey)) as Hn. by destruct (binary_round _ _ _ _ _).
Qed.

Lemma fsub_self x : finite x = true -> fsub x x = f0.
Proof. unfold fsub. destruct x as [[]|s| |s m e]; simpl; try done. by rewrite Z.sub_diag. Qed.

(** ** The loops *)

Lemma cosine_loop_comm v1 v2 i n d n1 n2 :
  cosine_loop v2 v1 i n (d, n2, n1) = (fun '(d, n1, n2) => (d, n2, n1)) <$> cosine_loop v1 v2 i n (d, n1, n2).
Proof.
  revert i d n1 n2. induction n as [|n IH]; intros; simpl; [done|].
  destruct (v1 !! i) as [x|], (v2 !! i) as [y|]; simpl; try done. by rewrite (fmul_comm y x), IH.
Qed.

Lemma euclidean_loop_comm v1 v2 i n s : euclidean_loop v2 v1 i n s = euclidean_loop v1 v2 i n s.
Proof.
  revert i s. induction n as [|n IH]; intros; simpl; [done|].
  destruct (v1 !! i) as [x|], (v2 !! i) as [y|]; simpl; try done.
  by rewrite (fmul_abs (fsub y x)), (fabs_sub_comm y x), <- fmul_abs, IH.
Qed.

Lemma manhattan_loop_comm v1 v2 i n s : manhattan_loop v2 v1 i n s = manhattan_loop v1 v2 i n s.
Proof.
  revert i s. induction n as [|n IH]; intros; simpl; [done|].
  destruct (v1 !! i) as [x|], (v2 !! i) as [y|]; simpl; try done. by rewrite (fabs_sub_comm y x), IH.
Qed.

(** The elements [i .. i+n-1] are there and finite. *)
Definition finite_range (v : list f32) (i n : nat) : Prop :=
  forall k, (i <= k < i + n)%nat -> exists x, v !! k = Some x /\ finite x = true.

Lemma finite_range_next v i n : finite_range v i (S n) ->
  exists x, v !! i = Some x /\ finite x = true /\ finite_range v (S i) n.
Proof.
  intros H. destruct (H i) as (x & Hx & Hf); [lia|]. exists x. do 2 (split; [done|]).
  intros k Hk. apply H. lia.
Qed.

Lemma euclidean_loop_nonneg v1 v2 i n s :
  finite_range v1 i n -> finite_range v2 i n -> nonneg s = true ->
  exists r, euclidean_loop v1 v2 i n s = Some r /\ nonneg r = true.
Proof.
  revert i s. induction n as [|n IH]; intros i s H1 H2 Hs; simpl; [by eauto|].
  apply finite_range_next in H1 as (x & -> & Hx & H1), H2 as (y & -> & Hy & H2). simpl.
  apply IH; [done..|]. by apply fadd_nonneg, fmul_self_nonneg, fsub_number.
Qed.

Lemma manhattan_loop_nonneg v1 v2 i n s :
  finite_range v1 i n -> finite_range v2 i n -> nonneg s = true ->
  exists r, manhattan_loop v1 v2 i n s = Some r /\ nonneg r = true.
Proof.
  revert i s. induction n as [|n IH]; intros i s H1 H2 Hs; simpl; [by eauto|].
  apply finite_range_next in H1 as (x & -> & Hx & H1), H2 as (y & -> & Hy & H2). simpl.
  apply IH; [done..|]. by apply fadd_nonneg, fabsf_nonneg, fsub_number.
Qed.

Lemma cosine_loop_defined v1 v2 i n acc :
  finite_range v1 i n -> finite_range v2 i n -> is_Some (cosine_loop v1 v2 i n acc).
Proof.
  revert i acc. induction n as [|n IH]; intros i [[d n1] n2] H1 H2; simpl; [by eauto|].
  apply finite_range_next in H1 as (x & -> & _ & H1), H2 as (y & -> & _ & H2). by apply IH.
Qed.

Lemma self_loops v i n :
  finite_range v i n -> euclidean_loop v v i n f0 = Some f0 /\ manhattan_loop v v i n f0 = Some f0.
Proof.
  revert i. induction n as [|n IH]; intros i H; simpl; [done|].
  apply finite_range_next in H as (x & -> & Hx & H). simpl. rewrite !fsub_self by done. by apply IH.
Qed.

(** The three distance functions are symmetric, bit for bit: for all vectors,
    with infinities and NaN among them and whatever the rounding, exchanging the
    arguments does not change the result. *)
Theorem vector_distances_symmetric v1 v2 n :
  vector_cosine_similarity v2 v1 n = vector_cosine_similarity v1 v2 n /\
  vector_euclidean_distance v2 v1 n = vector_euclidean_distance v1 v2 n /\
  vector_manhattan_distance v2 v1 n = vector_manhattan_distance v1 v2 n.
Proof.
  unfold vector_cosine_similarity, vector_euclidean_distance, vector_manhattan_distance.
  rewrite cosine_loop_comm, euclidean_loop_comm, manhattan_loop_comm. split; [|done].
  destruct (cosine_loop v1 v2 0 n (f0, f0, f0)) as [[[d n1] n2]|]; [simpl|done].
  by rewrite orb_comm, (fmul_comm (sqrtf n2)).
Qed.

(** C36 -- On vectors whose first [n] elements are finite, the distance functions read
    inside the vectors only and return; the two distances are never negative and never NaN (they
    may overflow to infinity), and the distance of a vector to itself is exactly zero. *)
Theorem vector_distances_defined v1 v2 n :
  finite_range v1 0 n -> finite_range v2 0 n ->
  is_Some (vector_cosine_similarity v1 v2 n) /\
  (exists d, vector_euclidean_distance v1 v2 n = Some d /\ nonneg d = true) /\
  (exists d, vector_manhattan_distance v1 v2 n = Some d /\ nonneg d = true) /\
  vector_euclidean_distance v1 v1 n = Some f0 /\ vector_manhattan_distance v1 v1 n = Some f0.
Proof.
  intros H1 H2. unfold vector_cosine_similarity, vector_euclidean_distance, vector_manhattan_distance.
  destruct (cosine_loop_defined v1 v2 0 n (f0, f0, f0)) as [[[d m1] m2] ->]; [done..|].
  destruct (euclidean_loop_nonneg v1 v2 0 n f0) as (e & -> & He); [done..|].
  destruct (manhattan_loop_nonneg v1 v2 0 n f0) as (m & -> & Hm); [done..|].
  destruct (self_loops v1 0 n) as [-> ->]; [done|]. simpl.
  split; [by eauto|]. split; [eauto using sqrtf_nonneg|]. eauto.
Qed.

Definition f32_of_Z (z : Z) : f32 := binary_normalize 24 128 z 0 false.

Lemma vector_distances_defined_witness :
  vector_euclidean_distance [f32_of_Z 3; f32_of_Z 0] [f32_of_Z 0; f32_of_Z 4] 2 = Some (f32_of_Z 5) /\
  vector_euclidean_distance [f32_of_Z 3; f32_of_Z 0] [f32_of_Z 3; f32_of_Z 0] 2 = Some f0.
Proof.
  split; [reflexivity|].
  apply (vector_distances_defined [f32_of_Z 3; f32_of_Z 0] [f32_of_Z 0; f32_of_Z 4] 2);
    (intros [|[|k]] Hk; [eexists; split; reflexivity..|lia]).
Defined.

(** ** Where rounding loses a number *)

Lemma digits_bounds m : 2 ^ (Z.pos (digits2_pos m) - 1) <= Z.pos m < 2 ^ Z.pos (digits2_pos m).
Proof.
  induction m as [m IH|m IH|]; simpl; [| |lia];
    rewrite Pos2Z.inj_succ; replace (Z.succ (Z.pos (digits2_pos m)) - 1) with (Z.succ (Z.pos (digits2_pos m) - 1)) by lia;
    rewrite !Z.pow_succ_r by lia; lia.
Qed.

Lemma shr_1_step m r s : 0 <= m -> shr_1 (Build_shr_record m r s) = Build_shr_record (m / 2) (Z.odd m) (r || s).
Proof. intros H. rewrite <- Z.div2_div. destruct m as [|[p|p|]|p]; simpl; try done; lia. Qed.

Lemma odd_mod m k : 0 <= m -> Z.odd (m / 2 ^ Z.of_nat k) || negb (m mod 2 ^ Z.of_nat k =? 0) = negb (m mod 2 ^ Z.of_nat (S k) =? 0).
Proof.
  intros Hm. rewrite Nat2Z.inj_succ, Z.pow_succ_r by lia. set (b := 2 ^ Z.of_nat k). assert (Hb : 0 < b) by (apply Z.pow_pos_nonneg; lia).
  rewrite (Z.mul_comm 2 b), Z.rem_mul_r, (Zmod_odd (m / b)) by lia. pose proof (Z.mod_pos_bound m b Hb).
  destruct (Z.odd _); simpl; [|by rewrite Z.mul_0_r, Z.add_0_r].
  symmetry. apply negb_true_iff, Z.eqb_neq. lia.
Qed.

(** After [k + 1] shifts: the quotient, the bit below it, and whether anything else was lost. *)
Lemma shr_steps m k : 0 <= m ->
  Nat.iter (S k) shr_1 (Build_shr_record m false false) =
  Build_shr_record (m / 2 ^ Z.of_nat (S k)) (Z.odd (m / 2 ^ Z.of_nat k)) (negb (m mod 2 ^ Z.of_nat k =? 0)).
Proof.
  intros Hm. induction k as [|k IH].
  - cbn [Nat.iter]. rewrite shr_1_step by done. change (2 ^ Z.of_nat 0) with 1. by rewrite Z.div_1_r, Z.mod_1_r.
  - rewrite Nat.iter_succ, IH, shr_1_step by (apply Z.div_pos; [done|apply Z.pow_pos_nonneg; lia]).
    rewrite odd_mod by done. f_equal. rewrite (Nat2Z.inj_succ (S k)), Z.pow_succ_r, Z.mul_comm by lia. apply Z.div_div; [|lia].
    apply Z.pow_nonzero; lia.
Qed.

Lemma iter_pos_nat {A} (f : A -> A) p x : SpecFloat.iter_pos f p x = Nat.iter (Pos.to_nat p) f x.
Proof.
  revert x. induction p as [p IH|p IH|]; intros x; cbn [SpecFloat.iter_pos]; [| |done]; rewrite !IH.
  - rewrite Pos2Nat.inj_xI, Nat.iter_succ_r. simpl. rewrite Nat.add_0_r. symmetry. apply Nat.iter_add.
  - rewrite Pos2Nat.inj_xO. simpl. rewrite Nat.add_0_r. symmetry. apply Nat.iter_add.
Qed.

(** What is left of [m] after rounding away [k + 1] bits: nothing exactly when it is at most half a unit. *)
Definition kept_bits (m : Z) (k : nat) : Z :=
  let r := Nat.iter (S k) shr_1 (Build_shr_record m false false) in round_nearest_even (shr_m r) (loc_of_shr_record r).

Lemma kept_bits_zero m k : 0 <= m -> m <= 2 ^ Z.of_nat k -> kept_bits m k = 0.
Proof.
  intros Hm Hk. unfold kept_bits. rewrite shr_steps by done. cbn [shr_m loc_of_shr_record].
  assert (Hq : m / 2 ^ Z.of_nat (S k) = 0).
  { apply Z.div_small. split; [done|]. rewrite Nat2Z.inj_succ, Z.pow_succ_r by lia.
    assert (0 < 2 ^ Z.of_nat k) by (apply Z.pow_pos_nonneg; lia). lia. }
  rewrite Hq. destruct (Z.eq_dec m (2 ^ Z.of_nat k)) as [->|Hne].
  - rewrite Z.div_same, Z.mod_same by (apply Z.pow_nonzero; lia). done.
  - rewrite (Z.div_small m) by lia. simpl. by destruct (negb _).
Qed.

Lemma kept_bits_pos m k : 2 ^ Z.of_nat k < m -> 0 < kept_bits m k.
Proof.
  intros Hk. assert (Hp : 0 < 2 ^ Z.of_nat k) by (apply Z.pow_pos_nonneg; lia).
  unfold kept_bits. rewrite shr_steps by lia. cbn [shr_m loc_of_shr_record].
  assert (Hs : 2 ^ Z.of_nat (S k) = 2 * 2 ^ Z.of_nat k) by (rewrite Nat2Z.inj_succ, Z.pow_succ_r; lia).
  destruct (Z.lt_ge_cases m (2 ^ Z.of_nat (S k))) as [Hlt|Hge].
  - assert (H1 : m / 2 ^ Z.of_nat k = 1) by (symmetry; apply (Z.div_unique m (2 ^ Z.of_nat k) 1 (m - 2 ^ Z.of_nat k)); lia).
    assert (H2 : m mod 2 ^ Z.of_nat k = m - 2 ^ Z.of_nat k)
      by (symmetry; apply (Z.mod_unique m (2 ^ Z.of_nat k) 1 (m - 2 ^ Z.of_nat k)); lia).
    rewrite (Z.div_small m (2 ^ Z.of_nat (S k))), H1, H2 by lia. simpl.
    by replace (m - 2 ^ Z.of_nat k =? 0) with false by (symmetry; apply Z.eqb_neq; lia).
  - assert (1 <= m / 2 ^ Z.of_nat (S k)) by (apply Z.div_le_lower_bound; lia).
    destruct (Z.odd _), (negb _); simpl; try lia. destruct (Z.even _); lia.
Qed.

(** The exponent below which bits are rounded away. *)
Definition cut (m : positive) (e : Z) : Z := Z.max (Z.pos (digits2_pos m) + e - 24) (-149) - e.

Lemma cut_fexp m e : fexp 24 128 (Zdigits2 (Z.pos m) + e) - e = cut m e.
Proof. reflexivity. Qed.

(** Rounding a second time loses no number that is on the grid of exponents. *)
Lemma second_shift m e : -149 <= e ->
  exists r e', shr_fexp 24 128 (Z.pos m) e loc_Exact = (r, e') /\ 0 < shr_m r /\ e <= e'.
Proof.
  intros He. unfold shr_fexp. rewrite cut_fexp. pose proof (digits_bounds m) as Hd. unfold shr. cbn [shr_record_of_loc].
  destruct (cut m e) as [|p|p] eqn:Hc; (eexists _, _; split; [done|]; split; [|lia]); [done| |done].
  rewrite iter_pos_nat.
  destruct (Pos.to_nat p) as [|k] eqn:Hk; [lia|]. rewrite shr_steps by lia. cbn [shr_m].
  replace (Z.of_nat (S k)) with (Z.pos p) by lia. unfold cut in Hc.
  assert (2 ^ Z.pos p <= 2 ^ (Z.pos (digits2_pos m) - 1)) by (apply Z.pow_le_mono_r; lia).
  apply Z.lt_le_trans with 1; [lia|]. apply Z.div_le_lower_bound; [apply Z.pow_pos_nonneg|]; lia.
Qed.

(** A positive number is rounded to zero exactly when it is at most half the unit; otherwise the result is positive, or
    infinite when its exponent is too large. *)
Lemma round_aux_cases m e s :
  let n := cut m e in
  if (0 <? n) && (2 * Z.pos m <=? 2 ^ n) then binary_round_aux 24 128 s (Z.pos m) e loc_Exact = S754_zero s
  else exists m' e', e + Z.max 0 n <= e' /\
    binary_round_aux 24 128 s (Z.pos m) e loc_Exact = if e' <=? 104 then S754_finite s m' e' else S754_infinity s.
Proof.
  cbv zeta. unfold binary_round_aux. unfold shr_fexp at 1 3. rewrite !cut_fexp. cbn [shr_record_of_loc]. unfold shr.
  assert (Hgrid : -149 <= e + Z.max 0 (cut m e)) by (unfold cut; lia).
  assert (Hfin : forall q e1, e + Z.max 0 (cut m e) = e1 -> 0 < q ->
    exists m' e', e + Z.max 0 (cut m e) <= e' /\
      (let '(r, e2) := shr_fexp 24 128 q e1 loc_Exact in
       match shr_m r with Z0 => S754_zero s | Z.pos m => if e2 <=? 128 - 24 then S754_finite s m e2 else S754_infinity s | _ => S754_nan end)
      = if e' <=? 104 then S754_finite s m' e' else S754_infinity s).
  { intros [|q|q] e1 <- Hq; [lia| |lia]. destruct (second_shift q _ Hgrid) as (r & e' & -> & Hr & He).
    destruct (shr_m r) as [|m'|m']; [lia| |lia]. exists m', e'. done. }
  destruct (cut m e) as [|p|p] eqn:Hc; [by apply Hfin; [lia|]| |by apply Hfin; [lia|]].
  rewrite iter_pos_nat. destruct (Pos.to_nat p) as [|k] eqn:Hk; [lia|]. fold (kept_bits (Z.pos m) k).
  assert (Hpk : 2 ^ Z.pos p = 2 * 2 ^ Z.of_nat k) by (replace (Z.pos p) with (Z.succ (Z.of_nat k)) by lia; rewrite Z.pow_succ_r; lia).
  cbn [Z.ltb Z.compare andb]. destruct (Z.leb_spec (2 * Z.pos m) (2 ^ Z.pos p)) as [Hle|Hgt].
  - rewrite kept_bits_zero by lia. unfold shr_fexp, fexp, SpecFloat.emin, shr. simpl.
    destruct (Z.max _ _ - _) eqn:E; simpl; try done. exfalso. unfold cut in Hc. lia.
  - apply Hfin; [lia|]. apply kept_bits_pos. lia.
Qed.

(** ** Squares and their sums *)

(** A finite number of the format. *)
Definition representable (x : f32) : Prop := finite x = true /\ valid_binary 24 128 x = true.

(** At most [2^-75] and at least [2^64] in absolute value, in units of [2^-149]. *)
Definition small (x : f32) : bool :=
  match x with S754_zero _ => true | S754_finite _ m e => Z.pos m * 2 ^ (e + 149) <=? 2 ^ 74 | _ => false end.
Definition huge (x : f32) : bool :=
  match x with S754_finite _ m e => 2 ^ 213 <=? Z.pos m * 2 ^ (e + 149) | _ => false end.

(** Not below the smallest exponent of the format. *)
Definition on_grid (x : f32) : Prop := match x with S754_finite _ _ e => -149 <= e | _ => True end.

Lemma bounded_grid m e : bounded 24 128 m e = true -> -149 <= e /\ Z.pos m < 2 ^ 24.
Proof.
  unfold bounded, canonical_mantissa. rewrite andb_true_iff, Z.eqb_eq. unfold fexp, SpecFloat.emin. intros [H _].
  split; [lia|]. pose proof (digits_bounds m). apply Z.lt_le_trans with (2 ^ Z.pos (digits2_pos m)); [lia|].
  apply Z.pow_le_mono_r; lia.
Qed.

Lemma square_cut m e : -149 <= e ->
  (0 <? cut (m * m) (e + e)) && (2 * Z.pos (m * m) <=? 2 ^ cut (m * m) (e + e)) = (Z.pos m * 2 ^ (e + 149) <=? 2 ^ 74).
Proof.
  intros He. pose proof (digits_bounds (m * m)) as [Hd _]. unfold cut. set (d := Z.pos (digits2_pos (m * m))) in *.
  assert (H2 : forall a, 0 <= a -> 2 * 2 ^ a = 2 ^ (a + 1)) by (intros; rewrite Z.add_1_r, Z.pow_succ_r; lia).
  assert (Hlow : 2 ^ d <= 2 * Z.pos (m * m)).
  { replace d with (d - 1 + 1) by lia. rewrite <- H2 by lia. lia. }
  destruct (Z.le_gt_cases e (-75)) as [Hs|Hs].
  - replace 74 with ((-75 - e) + (e + 149)) by lia. rewrite (Z.pow_add_r 2 (-75 - e)) by lia.
    assert (0 < 2 ^ (e + 149)) by (apply Z.pow_pos_nonneg; lia). assert (Hp : 0 < 2 ^ (-75 - e)) by (apply Z.pow_pos_nonneg; lia).
    assert (Hb : 2 ^ (-149 - (e + e)) = 2 * (2 ^ (-75 - e) * 2 ^ (-75 - e))).
    { rewrite <- Z.pow_add_r, H2 by lia. f_equal. lia. }
    apply eq_bool_prop_intro. rewrite !Is_true_true, andb_true_iff, Z.ltb_lt, !Z.leb_le, <- Z.mul_le_mono_pos_r by lia.
    rewrite Pos2Z.inj_mul in *. split.
    + intros [_ Hle]. destruct (Z.max_spec (d + (e + e) - 24) (-149)) as [[? Hm]|[? Hm]]; rewrite Hm in Hle.
      * rewrite Hb in Hle. nia.
      * exfalso. assert (2 ^ (d + (e + e) - 24 - (e + e)) < 2 ^ d) by (apply Z.pow_lt_mono_r; lia). lia.
    + intros Hle. split; [lia|]. apply Z.le_trans with (2 ^ (-149 - (e + e))); [rewrite Hb; nia|]. apply Z.pow_le_mono_r; lia.
  - rewrite (proj2 (Z.leb_gt _ (2 ^ 74))).
    + apply andb_false_iff. right. apply Z.leb_gt. apply Z.lt_le_trans with (2 ^ d); [|done].
      apply Z.pow_lt_mono_r; lia.
    + apply Z.lt_le_trans with (2 ^ (e + 149)); [apply Z.pow_lt_mono_r; lia|].
      assert (0 < 2 ^ (e + 149)) by (apply Z.pow_pos_nonneg; lia). nia.
Qed.

Definition is_zero (x : f32) : bool := match x with S754_zero _ => true | _ => false end.

Lemma feqb_zero x : feqb x f0 = is_zero x.
Proof. by destruct x as [|[]| |[]]. Qed.

(** What holds of a squared norm: not negative, not NaN, on the grid. *)
Definition norm_ok (x : f32) : Prop := nonneg x = true /\ on_grid x.

Lemma round_grid m e s : on_grid (binary_round_aux 24 128 s (Z.pos m) e loc_Exact).
Proof.
  pose proof (round_aux_cases m e s) as H. cbv zeta in H. destruct (_ && _); [by rewrite H|].
  destruct H as (m' & e' & He & ->). destruct (e' <=? 104); [|done]. simpl. unfold cut in He. lia.
Qed.

Lemma round_on_grid m e : -149 <= e ->
  is_zero (binary_round 24 128 false m e) = false /\ norm_ok (binary_round 24 128 false m e).
Proof.
  intros He. split; [|split; [apply round_nonneg|]].
  - unfold binary_round. destruct (shl_align m e _) as [m1 e1] eqn:Ha.
    assert (H1 : -149 <= e1).
    { unfold shl_align in Ha. destruct (_ - e) eqn:E; injection Ha as <- <-; [done..|]. unfold fexp, SpecFloat.emin. lia. }
    pose proof (round_aux_cases m1 e1 false) as H. cbv zeta in H.
    destruct (_ && _) eqn:Hz; [|destruct H as (m' & e' & _ & ->); by destruct (e' <=? 104)].
    exfalso. apply andb_true_iff in Hz as [Hn Hz]. apply Z.ltb_lt in Hn. apply Z.leb_le in Hz. pose proof (digits_bounds m1) as [Hd _].
    unfold cut in *. set (d := Z.pos (digits2_pos m1)) in *.
    assert (2 ^ (Z.max (d + e1 - 24) (-149) - e1) < 2 ^ (d - 1)) by (apply Z.pow_lt_mono_r; lia). lia.
  - unfold binary_round. destruct (shl_align m e _). apply round_grid.
Qed.

(** A sum of such numbers is zero exactly when both are. *)
Lemma fadd_norm x y : norm_ok x -> norm_ok y ->
  norm_ok (fadd x y) /\ is_zero (fadd x y) = is_zero x && is_zero y.
Proof.
  unfold norm_ok, fadd. intros [Hx Gx] [Hy Gy].
  destruct x as [[]|[]| |[] mx ex], y as [[]|[]| |[] my ey]; simpl in *; try done.
  destruct (round_on_grid (fst (shl_align mx ex (Z.min ex ey)) + fst (shl_align my ey (Z.min ex ey))) (Z.min ex ey)) as [-> H]; [lia|done].
Qed.

(** The square of a number is zero exactly when the number is small. *)
Lemma fmul_self_norm x : representable x -> norm_ok (fmul x x) /\ is_zero (fmul x x) = small x.
Proof.
  intros [Hf Hv]. assert (Hn : nonneg (fmul x x) = true) by (apply fmul_self_nonneg; by destruct x).
  unfold norm_ok. rewrite Hn. clear Hn. destruct x as [s|s| |s m e]; try done. apply bounded_grid in Hv as [He _].
  unfold fmul, SFmul, small. split; [split; [done|apply round_grid]|].
  pose proof (round_aux_cases (m * m) (e + e) (xorb s s)) as H. cbv zeta in H. rewrite square_cut in H by done.
  destruct (_ <=? _); [by rewrite H|]. destruct H as (m' & e' & _ & ->). by destruct (e' <=? 104).
Qed.

(** The square of a huge number is infinite. *)
Lemma fmul_self_huge x : representable x -> huge x = true -> fmul x x = S754_infinity false.
Proof.
  intros [Hf Hv] Hh. destruct x as [s|s| |s m e]; try done. apply bounded_grid in Hv as [He _]. apply Z.leb_le in Hh.
  unfold fmul, SFmul. rewrite xorb_nilpotent. pose proof (round_aux_cases (m * m) (e + e) false) as H. cbv zeta in H.
  rewrite square_cut in H by done. rewrite (proj2 (Z.leb_gt _ _)) in H by lia.
  destruct H as (m' & e' & He' & ->). rewrite (proj2 (Z.leb_gt _ _)); [done|].
  enough (128 < Z.pos (digits2_pos (m * m)) + (e + e)) by (unfold cut in He'; lia).
  pose proof (digits_bounds (m * m)) as [_ Hd]. set (d := Z.pos (digits2_pos (m * m))) in *.
  destruct (Z.lt_ge_cases 128 (d + (e + e))) as [|Hle]; [done|exfalso]. rewrite Pos2Z.inj_mul in Hd.
  assert (Hp : 0 < 2 ^ (e + 149)) by (apply Z.pow_pos_nonneg; lia).
  assert (Hsq : 2 ^ d * (2 ^ (e + 149) * 2 ^ (e + 149)) <= 2 ^ 213 * 2 ^ 213).
  { rewrite <- !Z.pow_add_r by lia. apply Z.pow_le_mono_r; lia. }
  nia.
Qed.

(** ** The sums of the loop *)

Definition squared_norm (acc : f32) (v : list f32) : f32 := foldl (fun a x => fadd a (fmul x x)) acc v.
Definition dot (acc : f32) (v1 v2 : list f32) : f32 := foldl (fun a '(x, y) => fadd a (fmul x y)) acc (zip v1 v2).

Lemma cosine_loop_sums v1 v2 i n d n1 n2 :
  (i + n <= length v1)%nat -> (i + n <= length v2)%nat ->
  cosine_loop v1 v2 i n (d, n1, n2) =
  Some (dot d (take n (drop i v1)) (take n (drop i v2)), squared_norm n1 (take n (drop i v1)), squared_norm n2 (take n (drop i v2))).
Proof.
  revert i d n1 n2. induction n as [|n IH]; intros i d n1 n2 H1 H2; [done|].
  destruct (lookup_lt_is_Some_2 v1 i) as [x Hx]; [lia|]. destruct (lookup_lt_is_Some_2 v2 i) as [y Hy]; [lia|].
  rewrite (drop_S v1 x i Hx), (drop_S v2 y i Hy). simpl. rewrite Hx, Hy. simpl. apply IH; lia.
Qed.

Lemma squared_norm_zero acc v : norm_ok acc -> Forall representable v ->
  norm_ok (squared_norm acc v) /\ is_zero (squared_norm acc v) = is_zero acc && forallb small v.
Proof.
  intros Ha Hv. revert acc Ha. induction Hv as [|x v Hx _ IH]; intros acc Ha; simpl; [by rewrite andb_true_r|].
  destruct (fmul_self_norm x Hx) as [Hm Hz]. destruct (fadd_norm acc (fmul x x) Ha Hm) as [Hs Hsz].
  destruct (IH _ Hs) as [H1 H2]. split; [done|]. etrans; [exact H2|]. by rewrite Hsz, Hz, andb_assoc.
Qed.

Lemma squared_norm_infinite v : Forall representable v -> squared_norm (S754_infinity false) v = S754_infinity false.
Proof.
  induction 1 as [|x v Hx _ IH]; [done|]. simpl. destruct (fmul_self_norm x Hx) as [[Hn _] _].
  destruct (fmul x x) as [|[]| |]; done.
Qed.

Lemma squared_norm_huge acc v : norm_ok acc -> Forall representable v -> existsb huge v = true ->
  squared_norm acc v = S754_infinity false.
Proof.
  intros Ha Hv. revert acc Ha. induction Hv as [|x v Hx Hv IH]; intros acc Ha; [done|]. simpl. rewrite orb_true_iff. intros [Hh|Hh].
  - rewrite (fmul_self_huge x Hx Hh). destruct Ha as [Ha _]. destruct acc as [[]|[]| |[]]; try done; by apply squared_norm_infinite.
  - apply IH; [|done]. apply fadd_norm; [done|]. by apply fmul_self_norm.
Qed.

Lemma dot_self acc v : dot acc v v = squared_norm acc v.
Proof. revert acc. induction v as [|x v IH]; intros acc; [done|]. apply IH. Qed.

(** C38 -- Where [vector_cosine_similarity] loses the vectors.  For all vectors of finite numbers and every dimension: the function returns the
    quotient of the sums it accumulates unless all components of one of the vectors are at most [2^-75] in absolute value, where the squares underflow and it returns 0,
    the answer for a zero vector, even for the similarity of a nonzero vector with itself; and the similarity with itself
    of a vector with a component of at least [2^64] in absolute value is NaN, since its squared norm overflows. *)
Theorem cosine_similarity_underflow v1 v2 n :
  (n <= length v1)%nat -> (n <= length v2)%nat -> Forall representable (take n v1) -> Forall representable (take n v2) ->
  vector_cosine_similarity v1 v2 n =
    Some (if forallb small (take n v1) || forallb small (take n v2) then f0
          else fdiv (dot f0 (take n v1) (take n v2))
                 (fmul (sqrtf (squared_norm f0 (take n v1))) (sqrtf (squared_norm f0 (take n v2))))) /\
  (existsb huge (take n v1) = true -> vector_cosine_similarity v1 v1 n = Some S754_nan).
Proof.
  intros L1 L2 R1 R2. assert (H0 : norm_ok f0) by done. unfold vector_cosine_similarity. rewrite !cosine_loop_sums by done. simpl. rewrite !drop_0.
  rewrite !feqb_zero. destruct (squared_norm_zero f0 (take n v1) H0 R1) as [_ ->], (squared_norm_zero f0 (take n v2) H0 R2) as [_ ->].
  split; [done|]. intros Hh. rewrite dot_self, (squared_norm_huge f0 (take n v1) H0 R1 Hh).
  assert (Hs : forallb small (take n v1) = false).
  { apply not_true_iff_false. intros Ha. apply existsb_exists in Hh as (x & Hx & Hh). rewrite forallb_forall in Ha. specialize (Ha x Hx).
    destruct x as [| | |s m e]; try done. apply Z.leb_le in Ha, Hh. lia. }
  simpl. by rewrite Hs.
Qed.

(** Two components of [2^-80] and [3 * 2^-90]; one of [2^70]. *)
Definition tiny : list f32 := [S754_finite false (2 ^ 23) (-103); S754_finite true (3 * 2 ^ 22) (-112)].
Definition big : list f32 := [S754_finite false (2 ^ 23) 47; f32_of_Z 1].

Lemma cosine_similarity_underflow_witness :
  vector_cosine_similarity tiny tiny 2 = Some f0 /\ vector_cosine_similarity tiny big 2 = Some f0 /\
  vector_cosine_similarity big big 2 = Some S754_nan /\
  vector_cosine_similarity [f32_of_Z 3; f32_of_Z 4] [f32_of_Z 3; f32_of_Z 4] 2 = Some (f32_of_Z 1).
Proof.
  assert (R : Forall representable (take 2 tiny) /\ Forall representable (take 2 big)) by (repeat constructor).
  destruct R as [Rt Rb]. split; [|split; [|split]].
  - by rewrite (proj1 (cosine_similarity_underflow tiny tiny 2 ltac:(simpl; lia) ltac:(simpl; lia) Rt Rt)).
  - by rewrite (proj1 (cosine_similarity_underflow tiny big 2 ltac:(simpl; lia) ltac:(simpl; lia) Rt Rb)).
  - apply (proj2 (cosine_similarity_underflow big big 2 ltac:(simpl; lia) ltac:(simpl; lia) Rb Rb)). reflexivity.
  - rewrite (proj1 (cosine_similarity_underflow [f32_of_Z 3; f32_of_Z 4] [f32_of_Z 3; f32_of_Z 4] 2 ltac:(simpl; lia) ltac:(simpl; lia) ltac:(repeat constructor) ltac:(repeat constructor))).
    reflexivity.
Defined.
