(* ===== verification/Extension.v ===== *)
(** * The PostgreSQL extension

    [src/postgresql/contrib/epiphanydb]: the SQL functions of the extension.  Memory is
    palloc'ed and a failure is a non-local jump: [ereport(ERROR)] leaves the
    function, or enters the enclosing [PG_CATCH].  The C standard leaves the
    value of a local variable indeterminate there when it was changed since the
    [PG_TRY] and is not volatile, and using such a value is undefined behaviour; the model
    keeps track of it.  A text argument is plain, compressed, stored in a TOAST table or an indirect
    pointer, and fetching it may allocate a copy. *)
From S2P Require Import Prelude.
From stdpp Require Import strings.
Local Open Scope Z_scope.

(** ** Memory, errors and locals *)

Inductive errcode :=
| ERRCODE_NULL_VALUE_NOT_ALLOWED
| ERRCODE_INVALID_PARAMETER_VALUE
| ERRCODE_INVALID_BINARY_REPRESENTATION
| ERRCODE_FEATURE_NOT_SUPPORTED
| ERRCODE_DATA_CORRUPTED
| ERRCODE_INTERNAL_ERROR
| ERRCODE_OUT_OF_MEMORY.

(** Compressed data, by what comes of decompressing it: a text, an error after the
    result was allocated, or an error because the method is unknown or not compiled in. *)
Inductive compressed :=
| Good (str : string)
| Corrupt
| UnknownMethod
| UnsupportedMethod.

(** A value inside a tuple or a block: not compressed, with a short or a long header, or compressed. *)
Inductive flat := Plain (short : bool) (str : string) | Compressed (c : compressed).

(** A value in a TOAST table. *)
Inductive stored := Raw (str : string) | Packed (c : compressed).

(** A datum of type text; [None] for a value with a missing or damaged chunk.  Texts have no expanded
    form, and an indirect pointer does not point to another one. *)
Inductive direct := Flat (f : flat) | OnDisk (chunks : option stored).
Inductive varlena := Direct (d : direct) | Indirect (d : direct).

(** What a block of memory holds. *)
Inductive block := CString (str : string) | Text (f : flat).

(** The blocks that are allocated, the number of requests so far, and which requests fail. *)
Record memctx := { live : gmap nat block; requests : nat; fails : nat -> bool }.

(** The value of a [char *] variable. *)
Inductive local_ptr := NULL | Ptr (block : nat) | Indeterminate.

#[export] Instance local_ptr_eq_dec : EqDecision local_ptr.
Proof. solve_decision. Defined.

(** The locals of [epiphanydb_create_table_sql] that [PG_CATCH] reads. *)
Record locals := { table_name : local_ptr; storage_type : local_ptr; schema_definition : local_ptr }.

Record fstate := { mem : memctx; loc : locals }.

Inductive outcome (A : Type) :=
| Returns (a : A)
| Raises (e : errcode)
| Undefined.
Arguments Returns {A} a.
Arguments Raises {A} e.
Arguments Undefined {A}.

Definition Ext (A : Type) : Type := fstate -> fstate * outcome A.
Definition eret {A} (a : A) : Ext A := fun s => (s, Returns a).
Definition ereport {A} (e : errcode) : Ext A := fun s => (s, Raises e).
Definition undefined {A} : Ext A := fun s => (s, Undefined).
Definition ebind {A B} (c : Ext A) (k : A -> Ext B) : Ext B := fun s =>
  match c s with
  | (s', Returns a) => k a s'
  | (s', Raises e) => (s', Raises e)
  | (s', Undefined) => (s', Undefined)
  end.
Definition get_loc : Ext locals := fun s => (s, Returns (loc s)).
Definition set_loc (f : locals -> locals) : Ext unit := fun s => ({| mem := mem s; loc := f (loc s) |}, Returns tt).

Declare Scope ext_scope.
Delimit Scope ext_scope with ext.
Notation "x <- c ; k" := (ebind c (fun x => k)) (at level 100, c at next level, right associativity) : ext_scope.
Notation "c ;; k" := (ebind c (fun _ => k)) (at level 100, right associativity) : ext_scope.
Local Open Scope ext_scope.

(** [palloc] raises an error instead of returning NULL. *)
Definition palloc (c : block) : Ext nat := fun s =>
  let m := mem s in
  let n := requests m in
  if fails m n then
    ({| mem := {| live := live m; requests := S n; fails := fails m |}; loc := loc s |}, Raises ERRCODE_OUT_OF_MEMORY)
  else
    ({| mem := {| live := <[n := c]> (live m); requests := S n; fails := fails m |}; loc := loc s |}, Returns n).

Definition cstring_to_text (s : string) : Ext nat := palloc (Text (Plain false s)).

(** Freeing what is not allocated, or a pointer without a value, is undefined. *)
Definition pfree (p : local_ptr) : Ext unit := fun s =>
  match p with
  | Ptr b =>
      match live (mem s) !! b with
      | Some _ => ({| mem := {| live := delete b (live (mem s)); requests := requests (mem s); fails := fails (mem s) |};
                      loc := loc s |}, Returns tt)
      | None => (s, Undefined)
      end
  | NULL | Indeterminate => (s, Undefined)
  end.

(** [if (p) pfree(p);] *)
Definition free_if_set (p : local_ptr) : Ext unit :=
  match p with
  | NULL => eret tt
  | Ptr _ => pfree p
  | Indeterminate => undefined
  end.

Definition strlen (b : nat) : Ext nat := fun s =>
  match live (mem s) !! b with
  | Some (CString str) => (s, Returns (String.length str))
  | _ => (s, Undefined)
  end.

(** ** Texts *)

(** The contents stay unfinished when the data is corrupt. *)
Definition toast_decompress_datum (c : compressed) : Ext nat :=
  match c with
  | Good str => palloc (Text (Plain false str))
  | Corrupt => palloc (Text (Plain false ""));; ereport ERRCODE_DATA_CORRUPTED
  | UnknownMethod => ereport ERRCODE_INTERNAL_ERROR
  | UnsupportedMethod => ereport ERRCODE_FEATURE_NOT_SUPPORTED
  end.

Definition toast_fetch_datum (chunks : option stored) : Ext nat :=
  match chunks with
  | Some (Raw str) => palloc (Text (Plain false str))
  | Some (Packed c) => palloc (Text (Compressed c))
  | None => palloc (Text (Plain false ""));; ereport ERRCODE_DATA_CORRUPTED
  end.

(** [None] when the value is returned as it is. *)
Definition detoast_direct (d : direct) : Ext (option nat) :=
  match d with
  | OnDisk chunks =>
      b <- toast_fetch_datum chunks;
      match chunks with
      | Some (Packed c) => b' <- toast_decompress_datum c; pfree (Ptr b);; eret (Some b')
      | _ => eret (Some b)
      end
  | Flat (Compressed c) => b <- toast_decompress_datum c; eret (Some b)
  | Flat (Plain true str) => b <- palloc (Text (Plain false str)); eret (Some b)
  | Flat (Plain false _) => eret None
  end.

(** An indirect value that needs no unpacking is copied. *)
Definition detoast_attr (v : varlena) : Ext (option nat) :=
  match v with
  | Direct d => detoast_direct d
  | Indirect d =>
      r <- detoast_direct d;
      match r, d with
      | None, Flat f => b <- palloc (Text f); eret (Some b)
      | r, _ => eret r
      end
  end.

(** A [text *]: the argument itself, or a block. *)
Inductive text_ptr := Arg (v : varlena) | Copy (b : nat).

(** Whether the value is compressed or external. *)
Definition extended (v : varlena) : bool := match v with Direct (Flat (Plain _ _)) => false | _ => true end.

Definition pg_detoast_datum_packed (t : text_ptr) : Ext text_ptr := fun s =>
  match t with
  | Arg v =>
      if extended v then (r <- detoast_attr v; eret (match r with Some b => Copy b | None => t end)) s else (s, Returns t)
  | Copy b =>
      match live (mem s) !! b with
      | Some (Text (Plain _ _)) => (s, Returns t)
      | Some (Text (Compressed c)) => (b' <- toast_decompress_datum c; eret (Copy b')) s
      | _ => (s, Undefined)
      end
  end.

Definition PG_GETARG_TEXT_PP (v : varlena) : Ext text_ptr := pg_detoast_datum_packed (Arg v).

(** The characters a pointer to an unpacked text leads to. *)
Definition VARDATA_ANY (t : text_ptr) : Ext string := fun s =>
  match t with
  | Arg (Direct (Flat (Plain _ str))) => (s, Returns str)
  | Copy b => match live (mem s) !! b with Some (Text (Plain _ str)) => (s, Returns str) | _ => (s, Undefined) end
  | _ => (s, Undefined)
  end.

Definition text_to_cstring (t : text_ptr) : Ext nat :=
  tunpacked <- pg_detoast_datum_packed t;
  str <- VARDATA_ANY tunpacked;
  result <- palloc (CString str);
  match t, tunpacked with
  | Arg _, Copy b => pfree (Ptr b);; eret result
  | Copy b, Copy b' => if (b =? b')%nat then eret result else pfree (Ptr b');; eret result
  | _, _ => eret result
  end.

(** What a local that is not volatile holds after the jump, if it was [before] at [PG_TRY]. *)
Definition after_jump (before now : local_ptr) : local_ptr := if decide (before = now) then now else Indeterminate.

Definition clobber (before now : locals) : locals :=
  {| table_name := after_jump (table_name before) (table_name now);
     storage_type := after_jump (storage_type before) (storage_type now);
     schema_definition := after_jump (schema_definition before) (schema_definition now) |}.

(** [PG_TRY(); body PG_CATCH(); handler PG_RE_THROW(); PG_END_TRY();] *)
Definition PG_TRY_CATCH_RETHROW (body handler : Ext unit) : Ext unit := fun s =>
  match body s with
  | (s', Raises e) =>
      match handler {| mem := mem s'; loc := clobber (loc s) (loc s') |} with
      | (s'', Returns _) => (s'', Raises e)
      | r => r
      end
  | r => r
  end.

(** ** The functions *)

(** [enum_out] on the catalog [pg_enum]. *)
Definition enum_out (pg_enum : Z -> option string) (enumval : Z) : Ext nat :=
  match pg_enum enumval with
  | Some label => palloc (CString label)
  | None => ereport ERRCODE_INVALID_BINARY_REPRESENTATION
  end.

Definition epiphanydb_version : Ext nat := cstring_to_text "EpiphanyDB 1.0.0".

(** The body of the [PG_TRY]; log messages are left out. *)
Definition create_table_body (pg_enum : Z -> option string) (name : varlena) (type : Z) (schema : varlena) : Ext unit :=
  table_name_text <- PG_GETARG_TEXT_PP name;
  schema_definition_text <- PG_GETARG_TEXT_PP schema;
  n <- text_to_cstring table_name_text;
  set_loc (fun l => {| table_name := Ptr n; storage_type := storage_type l; schema_definition := schema_definition l |});;
  d <- text_to_cstring schema_definition_text;
  set_loc (fun l => {| table_name := table_name l; storage_type := storage_type l; schema_definition := Ptr d |});;
  t <- enum_out pg_enum type;
  set_loc (fun l => {| table_name := table_name l; storage_type := Ptr t; schema_definition := schema_definition l |});;
  len <- strlen n;
  if (len =? 0)%nat then ereport ERRCODE_INVALID_PARAMETER_VALUE
  else
    len <- strlen d;
    if (len =? 0)%nat then ereport ERRCODE_INVALID_PARAMETER_VALUE else eret tt.

Definition free_locals : Ext unit :=
  l <- get_loc;
  free_if_set (table_name l);; free_if_set (storage_type l);; free_if_set (schema_definition l).

(** An argument is [None] when it is SQL NULL. *)
Definition epiphanydb_create_table_sql (pg_enum : Z -> option string)
  (name : option varlena) (type : option Z) (schema : option varlena) : Ext bool :=
  set_loc (fun _ => {| table_name := NULL; storage_type := NULL; schema_definition := NULL |});;
  match name, type, schema with
  | Some name, Some type, Some schema =>
      PG_TRY_CATCH_RETHROW (create_table_body pg_enum name type schema) free_locals;;
      free_locals;;
      eret true
  | _, _, _ => ereport ERRCODE_NULL_VALUE_NOT_ALLOWED
  end.

(** The result is the text, whatever the table. *)
Definition epiphanydb_get_table_storage_engine (name : varlena) : Ext nat :=
  t <- PG_GETARG_TEXT_PP name; n <- text_to_cstring t; pfree (Ptr n);; cstring_to_text "heap".

(** [composite] says whether the caller accepts a record. *)
Definition epiphanydb_get_table_stats_sql (composite : bool) (name : varlena) : Ext (Z * Z) :=
  t <- PG_GETARG_TEXT_PP name; n <- text_to_cstring t;
  if negb composite then ereport ERRCODE_FEATURE_NOT_SUPPORTED else pfree (Ptr n);; eret (0, 0).

Definition epiphanydb_vacuum_table_sql (name : varlena) : Ext bool :=
  t <- PG_GETARG_TEXT_PP name; n <- text_to_cstring t; pfree (Ptr n);; eret true.

Definition epiphanydb_analyze_table_sql (name : varlena) : Ext bool :=
  t <- PG_GETARG_TEXT_PP name; n <- text_to_cstring t; pfree (Ptr n);; eret true.

(** ** Reading an argument *)

(** The next free block is not allocated. *)
Definition mem_ok (m : memctx) : Prop := forall b, (requests m <= b)%nat -> live m !! b = None.

(** The request number [k] from now on succeeds. *)
Definition grants (m : memctx) (k : nat) : bool := negb (fails m (requests m + k)).

(** [m'] has [k] blocks more than [m]; those of [m] are as they were. *)
Definition adds (m m' : memctx) (k : nat) : Prop :=
  exists kept : gmap nat block, live m' = kept ∪ live m /\ kept ##ₘ live m /\ size kept = k.

Lemma adds_none m m' : live m' = live m -> adds m m' 0.
Proof. intros E. exists ∅. rewrite (left_id_L ∅ (∪)), map_size_empty. split; [done|]. split; [apply map_disjoint_empty_l|done]. Qed.

Lemma adds_one m m' b c : mem_ok m -> (requests m <= b)%nat -> live m' = <[b := c]> (live m) -> adds m m' 1.
Proof.
  intros Hm Hb E. exists {[b := c]}. rewrite insert_union_singleton_l in E. split; [done|]. split; [|apply map_size_singleton].
  apply map_disjoint_singleton_l. by apply Hm.
Qed.

Lemma adds_more m m1 m2 k k' : adds m m1 k -> adds m1 m2 k' -> adds m m2 (k + k').
Proof.
  intros (x & E1 & D1 & <-) (y & E2 & D2 & <-). rewrite E1 in D2, E2. apply map_disjoint_union_r in D2 as [D2 D3]. exists (y ∪ x).
  split; [by rewrite <- map_union_assoc|]. split; [by apply map_disjoint_union_l|]. rewrite map_size_disj_union by done. lia.
Qed.

(** The characters of a datum, if it is not damaged, and the number of blocks that fetching it leaves. *)
Definition text_of (v : varlena) : option string :=
  match v with
  | Direct d | Indirect d =>
      match d with
      | Flat (Plain _ str) | Flat (Compressed (Good str)) | OnDisk (Some (Raw str)) | OnDisk (Some (Packed (Good str))) => Some str
      | _ => None
      end
  end.
Definition copies (v : varlena) : nat := if extended v then 1 else 0.

(** The pointer leads to an unpacked text. *)
Definition holds (m : memctx) (t : text_ptr) (str : string) : Prop :=
  match t with
  | Arg v => exists short, v = Direct (Flat (Plain short str))
  | Copy b => live m !! b = Some (Text (Plain false str))
  end.

(** What the rest of the function can rely on after a step that only allocates. *)
Record only_allocates (s s' : fstate) : Prop := {
  oa_loc : loc s' = loc s;
  oa_fails : fails (mem s') = fails (mem s);
  oa_requests : (requests (mem s) <= requests (mem s'))%nat;
  oa_ok : mem_ok (mem s')
}.

(** An allocation, and what it does to the memory. *)
Definition allocated (c : block) (s : fstate) : fstate :=
  {| mem := {| live := <[requests (mem s) := c]> (live (mem s)); requests := S (requests (mem s)); fails := fails (mem s) |}; loc := loc s |}.
Definition refused (s : fstate) : fstate :=
  {| mem := {| live := live (mem s); requests := S (requests (mem s)); fails := fails (mem s) |}; loc := loc s |}.

Lemma palloc_eq c s :
  palloc c s = if fails (mem s) (requests (mem s)) then (refused s, Raises ERRCODE_OUT_OF_MEMORY) else (allocated c s, Returns (requests (mem s))).
Proof. done. Qed.

Lemma allocated_ok c s : mem_ok (mem s) -> only_allocates s (allocated c s).
Proof. intros Hm. split; cbn; [done|done|lia|]. intros b Hb. cbn in *. rewrite lookup_insert_ne by lia. apply Hm. lia. Qed.
Lemma refused_ok s : mem_ok (mem s) -> only_allocates s (refused s).
Proof. intros Hm. split; cbn; [done|done|lia|]. intros b Hb. cbn in *. apply Hm. lia. Qed.
Lemma only_allocates_trans s1 s2 s3 : only_allocates s1 s2 -> only_allocates s2 s3 -> only_allocates s1 s3.
Proof. intros [A1 A2 A3 A4] [B1 B2 B3 B4]. split; [congruence|congruence|lia|done]. Qed.

(** The outcome of fetching a datum: a pointer to its text, with at most one block more, or an error. *)
Definition fetched (v : varlena) (s s' : fstate) (r : outcome text_ptr) : Prop :=
  only_allocates s s' /\
  match r with
  | Returns t => exists str, text_of v = Some str /\ holds (mem s') t str /\ adds (mem s) (mem s') (copies v)
  | Raises e => text_of v = None \/ exists k, (requests (mem s) <= k)%nat /\ fails (mem s) k = true
  | Undefined => False
  end.

Lemma fetched_refused v s : mem_ok (mem s) -> fails (mem s) (requests (mem s)) = true -> fetched v s (refused s) (Raises ERRCODE_OUT_OF_MEMORY).
Proof. intros Hm Hf. split; [by apply refused_ok|]. right. by exists (requests (mem s)). Qed.

Lemma fetched_copy v s str : mem_ok (mem s) -> text_of v = Some str -> copies v = 1%nat ->
  fetched v s (allocated (Text (Plain false str)) s) (Returns (Copy (requests (mem s)))).
Proof.
  intros Hm Ht Hc. split; [by apply allocated_ok|]. exists str. split; [done|]. split; [cbn; by rewrite lookup_insert_eq|].
  rewrite Hc. by eapply adds_one.
Qed.

(** Decompression with its result left in a block. *)
Lemma decompress_fetched v c s : mem_ok (mem s) -> copies v = 1%nat -> (forall str, c = Good str -> text_of v = Some str) ->
  (match c with Good _ => True | _ => text_of v = None end) ->
  let '(s', r) := (b <- toast_decompress_datum c; eret (Copy b)) s in fetched v s s' r.
Proof.
  intros Hm Hc Hg Hb. unfold ebind, toast_decompress_datum. destruct c as [str| | |]; rewrite ?palloc_eq.
  - destruct (fails (mem s) (requests (mem s))) eqn:Ef; [by apply fetched_refused|]. apply fetched_copy; [done|by apply Hg|done].
  - unfold ebind. rewrite palloc_eq. destruct (fails (mem s) (requests (mem s))) eqn:Ef; [by apply fetched_refused|]. split; [by apply allocated_ok|by left].
  - split; [split; [done|done|lia|done]|by left].
  - split; [split; [done|done|lia|done]|by left].
Qed.

(** A compressed value in a TOAST table: the fetched block is freed after its contents were unpacked. *)
Lemma packed_fetched v c s : mem_ok (mem s) -> copies v = 1%nat -> (forall str, c = Good str -> text_of v = Some str) ->
  (match c with Good _ => True | _ => text_of v = None end) ->
  let '(s', r) := (r <- detoast_direct (OnDisk (Some (Packed c))); eret (match r with Some b => Copy b | None => Arg v end)) s in fetched v s s' r.
Proof.
  intros Hm Hc Hg Hb. unfold detoast_direct, toast_fetch_datum, ebind. rewrite palloc_eq. destruct (fails (mem s) (requests (mem s))) eqn:Ef; [by apply fetched_refused|].
  set (s1 := allocated (Text (Compressed c)) s). assert (Hs1 : only_allocates s s1) by (by apply allocated_ok).
  assert (Hbad : forall s2 e, only_allocates s1 s2 -> text_of v = None -> fetched v s s2 (Raises e)) by (intros; split; [by eapply only_allocates_trans|by left]).
  destruct c as [str| | |]; cbn [toast_decompress_datum]; unfold ebind; rewrite ?palloc_eq; try (apply Hbad; [split; [done|done|lia|apply (oa_ok _ _ Hs1)]|done]).
  - destruct (fails (mem s1) (requests (mem s1))) eqn:Ef1.
    { split; [eapply only_allocates_trans; [done|by apply refused_ok, (oa_ok _ _ Hs1)]|]. right. exists (requests (mem s1)). split; [apply (oa_requests _ _ Hs1)|exact Ef1]. }
    unfold pfree. cbn [allocated mem live s1 requests fails loc eret]. rewrite lookup_insert_ne, lookup_insert_eq by lia. cbn [mem live requests fails loc].
    assert (E : delete (requests (mem s)) (<[S (requests (mem s)):=Text (Plain false str)]> (<[requests (mem s):=Text (Compressed (Good str))]> (live (mem s)))) =
      <[S (requests (mem s)):=Text (Plain false str)]> (live (mem s))).
    { apply map_eq. intros k. destruct (decide (k = requests (mem s))) as [->|]; [rewrite lookup_delete_eq, lookup_insert_ne by lia; symmetry; by apply Hm|].
      rewrite lookup_delete_ne by done. destruct (decide (k = S (requests (mem s)))) as [->|]; [by rewrite !lookup_insert_eq|by rewrite !lookup_insert_ne]. }
    rewrite E. split; [split; cbn; [done|done|lia|]|exists str; split; [by apply Hg|]; split; [cbn; by rewrite lookup_insert_eq|]].
    + intros b Hb'. cbn in *. rewrite lookup_insert_ne by lia. apply Hm. lia.
    + rewrite Hc. eapply (adds_one _ _ (S (requests (mem s)))); [done|lia|done].
  - destruct (fails (mem s1) (requests (mem s1))) eqn:Ef1; (apply Hbad; [|done]); [apply refused_ok|apply allocated_ok]; apply (oa_ok _ _ Hs1).
Qed.

Lemma getarg_fetched v s : mem_ok (mem s) -> let '(s', r) := PG_GETARG_TEXT_PP v s in fetched v s s' r.
Proof.
  intros Hm. unfold PG_GETARG_TEXT_PP, pg_detoast_datum_packed.
  assert (Hsame : forall short str, fetched (Direct (Flat (Plain short str))) s s (Returns (Arg (Direct (Flat (Plain short str)))))).
  { intros short str. split; [split; [done|done|lia|done]|]. exists str. split; [done|]. split; [by exists short|]. by apply adds_none. }
  destruct v as [d|d]; destruct d as [f|chunks]; [destruct f as [short str|c]|destruct chunks as [[str|c]|]|destruct f as [short str|c]|destruct chunks as [[str|c]|]]; cbn [extended].
  - apply Hsame.
  - cbn [detoast_attr detoast_direct]. pose proof (decompress_fetched (Direct (Flat (Compressed c))) c s Hm eq_refl) as H. unfold ebind in *.
    destruct (toast_decompress_datum c s) as [s' [b|e|]]; apply H; try (by intros str ->); by destruct c.
  - cbn [detoast_attr detoast_direct toast_fetch_datum]. unfold ebind. rewrite palloc_eq. destruct (fails _ _) eqn:Ef; [by apply fetched_refused|by apply fetched_copy].
  - apply (packed_fetched (Direct (OnDisk (Some (Packed c)))) c s Hm eq_refl); [by intros str ->|by destruct c].
  - cbn [detoast_attr detoast_direct toast_fetch_datum]. unfold ebind. rewrite palloc_eq. destruct (fails _ _) eqn:Ef; [by apply fetched_refused|]. split; [by apply allocated_ok|by left].
  - destruct short; cbn [detoast_attr detoast_direct]; unfold ebind, eret; rewrite palloc_eq; destruct (fails _ _) eqn:Ef; (by apply fetched_refused) || by apply fetched_copy.
  - cbn [detoast_attr detoast_direct]. pose proof (decompress_fetched (Indirect (Flat (Compressed c))) c s Hm eq_refl) as H. unfold ebind in *.
    destruct (toast_decompress_datum c s) as [s' [b|e|]]; apply H; try (by intros str ->); by destruct c.
  - cbn [detoast_attr detoast_direct toast_fetch_datum]. unfold ebind. rewrite palloc_eq. destruct (fails _ _) eqn:Ef; [by apply fetched_refused|by apply fetched_copy].
  - pose proof (packed_fetched (Indirect (OnDisk (Some (Packed c)))) c s Hm eq_refl) as H. cbn [detoast_attr]. unfold ebind in *.
    destruct (detoast_direct (OnDisk (Some (Packed c))) s) as [s' [[b|]|e|]]; apply H; try (by intros str ->); by destruct c.
  - cbn [detoast_attr detoast_direct toast_fetch_datum]. unfold ebind. rewrite palloc_eq. destruct (fails _ _) eqn:Ef; [by apply fetched_refused|]. split; [by apply allocated_ok|by left].
Qed.

(** Copying an unpacked text takes one allocation. *)
Lemma text_to_cstring_holds t str s : holds (mem s) t str -> text_to_cstring t s = palloc (CString str) s.
Proof.
  unfold text_to_cstring, pg_detoast_datum_packed, ebind. destruct t as [v|b]; cbn [holds].
  - intros [short ->]. cbn. by destruct (palloc _ s) as [? []].
  - intros E. rewrite E. cbn. rewrite E. destruct (palloc _ s) as [? []]; [|done..]. by rewrite Nat.eqb_refl.
Qed.

Lemma holds_kept m t str c : mem_ok m -> holds m t str -> forall rq fl, holds {| live := <[requests m := c]> (live m); requests := rq; fails := fl |} t str.
Proof. intros Hm. destruct t as [v|b]; [done|]. cbn. intros E _ _. rewrite lookup_insert_ne; [done|]. intros <-. by rewrite Hm in E. Qed.

Lemma holds_adds m m' k t str : adds m m' k -> holds m t str -> holds m' t str.
Proof. intros (kept & E & D & _). destruct t as [v|b]; [done|]. cbn. rewrite E. intros H. by apply lookup_union_Some_r. Qed.

(** ** Creating a table *)

(** Both texts are fetched before the first local is set. *)
Definition read_arguments (name schema : varlena) : Ext (text_ptr * text_ptr) :=
  x <- PG_GETARG_TEXT_PP name; y <- PG_GETARG_TEXT_PP schema; eret (x, y).

Lemma arguments_fetched n d s : mem_ok (mem s) ->
  let '(s', r) := read_arguments n d s in
  only_allocates s s' /\
  match r with
  | Returns (x, y) => exists tn td, text_of n = Some tn /\ text_of d = Some td /\ holds (mem s') x tn /\ holds (mem s') y td /\
      adds (mem s) (mem s') (copies n + copies d)
  | Raises e => text_of n = None \/ text_of d = None \/ exists k, (requests (mem s) <= k)%nat /\ fails (mem s) k = true
  | Undefined => False
  end.
Proof.
  intros Hm. unfold read_arguments, ebind. pose proof (getarg_fetched n s Hm) as H1. destruct (PG_GETARG_TEXT_PP n s) as [s1 [x|e|]]; [|destruct H1 as [? [?|?]]; auto|by destruct H1].
  destruct H1 as (O1 & tn & Tn & Hx & A1). pose proof (getarg_fetched d s1 (oa_ok _ _ O1)) as H2. destruct (PG_GETARG_TEXT_PP d s1) as [s2 [y|e|]]; [| |by destruct H2].
  - destruct H2 as (O2 & td & Td & Hy & A2). split; [by eapply only_allocates_trans|]. exists tn, td. do 2 (split; [done|]). split; [by eapply holds_adds|].
    split; [done|by eapply adds_more].
  - destruct H2 as [O2 H2]. split; [by eapply only_allocates_trans|]. destruct H2 as [?|(k & Hk & Hf)]; [by auto|]. right. right. exists k.
    rewrite (oa_fails _ _ O1) in Hf. pose proof (oa_requests _ _ O1). split; [lia|done].
Qed.

(** What follows. *)
Definition after_arguments (pg_enum : Z -> option string) (type : Z) (x y : text_ptr) : Ext unit :=
  n <- text_to_cstring x;
  set_loc (fun l => {| table_name := Ptr n; storage_type := storage_type l; schema_definition := schema_definition l |});;
  d <- text_to_cstring y;
  set_loc (fun l => {| table_name := table_name l; storage_type := storage_type l; schema_definition := Ptr d |});;
  t <- enum_out pg_enum type;
  set_loc (fun l => {| table_name := table_name l; storage_type := Ptr t; schema_definition := schema_definition l |});;
  len <- strlen n;
  if (len =? 0)%nat then ereport ERRCODE_INVALID_PARAMETER_VALUE
  else
    len <- strlen d;
    if (len =? 0)%nat then ereport ERRCODE_INVALID_PARAMETER_VALUE else eret tt.

Lemma body_reads pg_enum n t d s :
  create_table_body pg_enum n t d s =
  match read_arguments n d s with
  | (s', Returns (x, y)) => after_arguments pg_enum t x y s'
  | (s', Raises e) => (s', Raises e)
  | (s', Undefined) => (s', Undefined)
  end.
Proof.
  unfold create_table_body, read_arguments, after_arguments, ebind. destruct (PG_GETARG_TEXT_PP n s) as [s1 [x|e|]]; [|reflexivity..].
  by destruct (PG_GETARG_TEXT_PP d s1) as [s2 [y|e|]].
Qed.

(** The three blocks of a successful call are freed again. *)
Lemma free_three (l : gmap nat block) (n : nat) (x y z : block) :
  (forall b, (n <= b)%nat -> l !! b = None) ->
  delete (S n) (delete (S (S n)) (delete n (<[S (S n) := z]> (<[S n := y]> (<[n := x]> l))))) = l.
Proof.
  intros Hl. apply map_eq. intros k.
  destruct (decide (k = n)) as [->|]; [|destruct (decide (k = S n)) as [->|]; [|destruct (decide (k = S (S n))) as [->|]]].
  - rewrite !lookup_delete_ne, lookup_delete_eq by lia. symmetry. by apply Hl.
  - rewrite lookup_delete_eq. symmetry. apply Hl. lia.
  - rewrite lookup_delete_ne, lookup_delete_eq by lia. symmetry. apply Hl. lia.
  - by rewrite !lookup_delete_ne, !lookup_insert_ne by lia.
Qed.

Lemma length_zero (str : string) : (String.length str =? 0)%nat = negb (bool_decide (str <> EmptyString)).
Proof. by destruct str. Qed.

Definition no_locals : locals := {| table_name := NULL; storage_type := NULL; schema_definition := NULL |}.

(** The conditions under which the body runs to its end, after the first copy. *)
Definition body_succeeds (m : memctx) (pg_enum : Z -> option string) (n : string) (t : Z) (d : string) : bool :=
  grants m 1 && bool_decide (is_Some (pg_enum t)) && grants m 2 &&
  bool_decide (n <> EmptyString) && bool_decide (d <> EmptyString).

Local Ltac run := cbn [mem loc live requests fails table_name storage_type schema_definition negb andb].

Lemma body_outcome pg_enum t x y n d m :
  mem_ok m -> holds m x n -> holds m y d ->
  let '(s', r) := after_arguments pg_enum t x y {| mem := m; loc := no_locals |} in
  let b := requests m in
  if negb (grants m 0) then r = Raises ERRCODE_OUT_OF_MEMORY /\ live (mem s') = live m /\ loc s' = no_locals
  else if body_succeeds m pg_enum n t d then
    r = Returns tt /\
    loc s' = {| table_name := Ptr b; storage_type := Ptr (S (S b)); schema_definition := Ptr (S b) |} /\
    exists label, live (mem s') = <[S (S b) := CString label]> (<[S b := CString d]> (<[b := CString n]> (live m)))
  else (exists e, r = Raises e) /\ table_name (loc s') = Ptr b.
Proof.
  intros Hm Hx Hy. unfold body_succeeds, grants. rewrite Nat.add_0_r, Nat.add_1_r. replace (requests m + 2)%nat with (S (S (requests m))) by lia.
  unfold after_arguments, ebind. rewrite (text_to_cstring_holds x n) by done. unfold palloc, set_loc. run.
  destruct (fails m (requests m)) eqn:E0; run; [done|].
  rewrite (text_to_cstring_holds y d) by (by apply holds_kept). unfold palloc at 1, enum_out. run.
  destruct (fails m (S (requests m))); run; [by eauto|].
  destruct (pg_enum t) as [label|]; [|cbn; by eauto].
  unfold palloc. run. rewrite (bool_decide_eq_true_2 (is_Some (Some label))) by by eexists.
  destruct (fails m (S (S (requests m)))); run; [by eauto|].
  unfold strlen. run. rewrite !lookup_insert_ne, lookup_insert_eq, length_zero by lia.
  destruct (bool_decide (n <> EmptyString)); run; [|cbn; by eauto].
  rewrite lookup_insert_ne, lookup_insert_eq, length_zero by lia.
  destruct (bool_decide (d <> EmptyString)); cbn; by eauto.
Qed.

(** The call with all arguments, after they were read. *)
Lemma call_outcome pg_enum t x y n d s :
  mem_ok (mem s) -> loc s = no_locals -> holds (mem s) x n -> holds (mem s) y d ->
  let '(s', r) := (PG_TRY_CATCH_RETHROW (after_arguments pg_enum t x y) free_locals;; free_locals;; eret true) s in
  if negb (grants (mem s) 0) then r = Raises ERRCODE_OUT_OF_MEMORY /\ live (mem s') = live (mem s)
  else if body_succeeds (mem s) pg_enum n t d then r = Returns true /\ live (mem s') = live (mem s)
  else r = Undefined.
Proof.
  intros Hm El Hx Hy. destruct s as [m l]. cbn [mem loc] in *. subst l. pose proof (body_outcome pg_enum t x y n d m Hm Hx Hy) as Hb. unfold ebind at 1, PG_TRY_CATCH_RETHROW.
  destruct (after_arguments _ _ _ _ _) as [s' r]. cbv zeta in Hb. cbn [loc].
  destruct (negb (grants m 0)); [|destruct (body_succeeds _ _ _ _ _)].
  - destruct Hb as (-> & Hl & ->). done.
  - destruct Hb as (-> & Hl & label & Hlive). destruct s' as [[lv rq fl] lc]. cbn in Hl, Hlive. subst lc lv.
    unfold free_locals, ebind, get_loc, free_if_set, pfree. cbn [mem loc live table_name storage_type schema_definition].
    rewrite !lookup_insert_ne, lookup_insert_eq by lia. cbn [mem live].
    rewrite lookup_delete_ne, lookup_insert_eq by lia. cbn [mem live].
    rewrite !lookup_delete_ne, lookup_insert_ne, lookup_insert_eq by lia. split; [done|]. cbn. by apply free_three.
  - destruct Hb as [[e ->] Hn]. unfold free_locals, ebind, get_loc, clobber. cbn [loc table_name]. rewrite Hn.
    unfold after_jump. by rewrite decide_False by done.
Qed.

(** C39 -- [epiphanydb_create_table_sql] on every input, with text arguments that are plain, compressed, in a TOAST table or
    indirect.  A NULL argument is reported as an error and leaves no memory behind.  An argument that cannot be fetched, because it is
    damaged or memory runs out, is reported, and so is a failure to copy the name.  With memory enough, an enum value that exists and a name and a schema that are not
    empty the function returns true; of the memory it allocated one block is left for each argument that had to be unpacked, which it
    never frees, and none for plain arguments.  Every other failure (no memory later, an unknown enum value, an empty name or schema) is
    raised after the locals were set inside [PG_TRY]: since they are not volatile, [PG_CATCH] then reads indeterminate
    pointers, and the behaviour is undefined. *)
Theorem create_table_sql_outcome pg_enum name type schema s :
  mem_ok (mem s) ->
  let '(s', r) := epiphanydb_create_table_sql pg_enum name type schema s in
  match name, type, schema with
  | Some n, Some t, Some d =>
      let '(s1, r1) := read_arguments n d {| mem := mem s; loc := no_locals |} in
      match r1 with
      | Returns _ =>
          exists tn td, text_of n = Some tn /\ text_of d = Some td /\
          if negb (grants (mem s1) 0) then r = Raises ERRCODE_OUT_OF_MEMORY /\ adds (mem s) (mem s') (copies n + copies d)
          else if body_succeeds (mem s1) pg_enum tn t td then r = Returns true /\ adds (mem s) (mem s') (copies n + copies d)
          else r = Undefined
      | Raises e =>
          r = Raises e /\ live (mem s') = live (mem s1) /\
          (text_of n = None \/ text_of d = None \/ exists k, (requests (mem s) <= k)%nat /\ fails (mem s) k = true)
      | Undefined => False
      end
  | _, _, _ => r = Raises ERRCODE_NULL_VALUE_NOT_ALLOWED /\ live (mem s') = live (mem s)
  end.
Proof.
  intros Hm. unfold epiphanydb_create_table_sql, ebind at 1, set_loc. destruct name as [n|], type as [t|], schema as [d|]; try done.
  fold no_locals. set (s0 := {| mem := mem s; loc := no_locals |}). pose proof (arguments_fetched n d s0 Hm) as H.
  unfold ebind at 1, PG_TRY_CATCH_RETHROW. rewrite body_reads. destruct (read_arguments n d s0) as [s1 [[x y]|e|]]; [| |by destruct H].
  - destruct H as (O & tn & td & Tn & Td & Hx & Hy & A). pose proof (call_outcome pg_enum t x y tn td s1 (oa_ok _ _ O) (oa_loc _ _ O) Hx Hy) as Hc.
    unfold ebind at 1, PG_TRY_CATCH_RETHROW in Hc. rewrite (oa_loc _ _ O) in Hc. change (loc s0) with no_locals in *.
    destruct (match _ with (_, _) => _ end) as [s' r]. exists tn, td. do 2 (split; [done|]).
    assert (Hadds : live (mem s') = live (mem s1) -> adds (mem s) (mem s') (copies n + copies d)) by (intros E; unfold adds in *; by rewrite E).
    destruct (negb _); [destruct Hc; auto|]. destruct (body_succeeds _ _ _ _ _); [destruct Hc; auto|done].
  - destruct H as [O Hw]. rewrite (oa_loc _ _ O). done.
Qed.

(** A call with an empty name, one with plain arguments, and one whose schema is compressed. *)
Definition fresh_memory : memctx := {| live := ∅; requests := 0; fails := fun _ => false |}.
Definition engine_catalog (oid : Z) : option string := if oid =? 16384 then Some "heap"%string else None.
Definition plain (str : string) : varlena := Direct (Flat (Plain true str)).
Definition call (name schema : varlena) : fstate * outcome bool :=
  epiphanydb_create_table_sql engine_catalog (Some name) (Some 16384) (Some schema) {| mem := fresh_memory; loc := no_locals |}.

Lemma create_table_sql_outcome_witness :
  snd (call (plain "") (plain "id int")) = Undefined /\
  snd (call (plain "t") (plain "id int")) = Returns true /\
  adds fresh_memory (mem (fst (call (plain "t") (Direct (Flat (Compressed (Good "id int"))))))) 1.
Proof.
  assert (Hm : mem_ok fresh_memory) by (intros b _; apply lookup_empty).
  pose proof (fun n d => create_table_sql_outcome engine_catalog (Some n) (Some 16384) (Some d) {| mem := fresh_memory; loc := no_locals |} Hm) as H.
  split; [|split].
  - specialize (H (plain "") (plain "id int")). unfold call. destruct (epiphanydb_create_table_sql _ _ _ _ _) as [s' r]. destruct H as (tn & td & [= <-] & [= <-] & H). exact H.
  - specialize (H (plain "t") (plain "id int")). unfold call. destruct (epiphanydb_create_table_sql _ _ _ _ _) as [s' r]. destruct H as (tn & td & [= <-] & [= <-] & H). exact (proj1 H).
  - specialize (H (plain "t") (Direct (Flat (Compressed (Good "id int"))))). unfold call. destruct (epiphanydb_create_table_sql _ _ _ _ _) as [s' r].
    destruct H as (tn & td & [= <-] & [= <-] & H). exact (proj2 H).
Defined.
