(* ===== verification/TransactionId.v ===== *)
(** * Transaction identifiers

    The 32-bit, wrapping transaction ids and their 64-bit "full" counterparts:
    the macros and inline functions of [access/transam.h] and the comparison
    functions of [transam.c] (both in [src/postgresql/src]).  The results show
    that the circular comparison agrees with the order of the full ids inside
    a window of [2^31] ids, where and how it stops being an order outside, and
    that the 32-bit and 64-bit counters advance in step. *)
From S2P Require Import Prelude.
Local Open Scope Z_scope.

Abbreviation TransactionId := Z.

Definition InvalidTransactionId : TransactionId := 0.
Definition BootstrapTransactionId : TransactionId := 1.
Definition FrozenTransactionId : TransactionId := 2.
Definition FirstNormalTransactionId : TransactionId := 3.
Definition MaxTransactionId : TransactionId := 0xFFFFFFFF.

Definition TransactionIdIsValid (xid : TransactionId) : bool := negb (xid =? InvalidTransactionId).
Definition TransactionIdIsNormal (xid : TransactionId) : bool := xid >=? FirstNormalTransactionId.
Definition TransactionIdEquals (id1 id2 : TransactionId) : bool := id1 =? id2.

Record FullTransactionId := FullXid { value : Z }.

Definition EpochFromFullTransactionId (x : FullTransactionId) : Z := u32 (Z.shiftr (value x) 32).
Definition XidFromFullTransactionId (x : FullTransactionId) : Z := u32 (value x).
Definition U64FromFullTransactionId (x : FullTransactionId) : Z := value x.
Definition FullTransactionIdEquals (a b : FullTransactionId) : bool := value a =? value b.
Definition FullTransactionIdPrecedes (a b : FullTransactionId) : bool := value a <? value b.
Definition FullTransactionIdPrecedesOrEquals (a b : FullTransactionId) : bool := value a <=? value b.
Definition FullTransactionIdFollows (a b : FullTransactionId) : bool := value a >? value b.
Definition FullTransactionIdFollowsOrEquals (a b : FullTransactionId) : bool := value a >=? value b.
Definition FullTransactionIdIsValid (x : FullTransactionId) : bool :=
  TransactionIdIsValid (XidFromFullTransactionId x).

Definition FullTransactionIdFromEpochAndXid (epoch : Z) (xid : TransactionId) : FullTransactionId :=
  FullXid (Z.lor (u64 (Z.shiftl epoch 32)) xid).
Definition FullTransactionIdFromU64 (v : Z) : FullTransactionId := FullXid v.

Definition InvalidFullTransactionId : FullTransactionId :=
  FullTransactionIdFromEpochAndXid 0 InvalidTransactionId.
Definition FirstNormalFullTransactionId : FullTransactionId :=
  FullTransactionIdFromEpochAndXid 0 FirstNormalTransactionId.
Definition FullTransactionIdIsNormal (x : FullTransactionId) : bool :=
  FullTransactionIdFollowsOrEquals x FirstNormalFullTransactionId.

(** [dest]++ and [dest]-- on the two widths. *)
Definition incr32 (x : Z) : Z := u32 (x + 1).
Definition decr32 (x : Z) : Z := u32 (x - 1).
Definition incr64 (x : FullTransactionId) : FullTransactionId := FullXid (u64 (value x + 1)).
Definition decr64 (x : FullTransactionId) : FullTransactionId := FullXid (u64 (value x - 1)).

(** The loops that step over special ids run at most three times: [fuel 3]. *)
Definition special32 (x : Z) : bool := x <? FirstNormalTransactionId.
Definition special64 (x : FullTransactionId) : bool :=
  XidFromFullTransactionId x <? FirstNormalTransactionId.

Definition TransactionIdAdvance (dest : TransactionId) : TransactionId :=
  let dest := incr32 dest in
  if dest <? FirstNormalTransactionId then FirstNormalTransactionId else dest.

Definition TransactionIdRetreat (dest : TransactionId) : TransactionId :=
  while 3 special32 decr32 (decr32 dest).

Definition FullTransactionIdRetreat (dest : FullTransactionId) : FullTransactionId :=
  let dest := decr64 dest in
  if FullTransactionIdPrecedes dest FirstNormalFullTransactionId then dest
  else while 3 special64 decr64 dest.

Definition FullTransactionIdAdvance (dest : FullTransactionId) : FullTransactionId :=
  let dest := incr64 dest in
  if FullTransactionIdPrecedes dest FirstNormalFullTransactionId then dest
  else while 3 special64 incr64 dest.

Definition NormalTransactionIdPrecedes (id1 id2 : TransactionId) : bool := s32 (id1 - id2) <? 0.
Definition NormalTransactionIdFollows (id1 id2 : TransactionId) : bool := s32 (id1 - id2) >? 0.

(** ** [transam.c] *)

Definition TransactionIdPrecedes (id1 id2 : TransactionId) : bool :=
  if negb (TransactionIdIsNormal id1) || negb (TransactionIdIsNormal id2)
  then id1 <? id2
  else let diff := s32 (id1 - id2) in diff <? 0.

Definition TransactionIdPrecedesOrEquals (id1 id2 : TransactionId) : bool :=
  if negb (TransactionIdIsNormal id1) || negb (TransactionIdIsNormal id2)
  then id1 <=? id2
  else let diff := s32 (id1 - id2) in diff <=? 0.

Definition TransactionIdFollows (id1 id2 : TransactionId) : bool :=
  if negb (TransactionIdIsNormal id1) || negb (TransactionIdIsNormal id2)
  then id1 >? id2
  else let diff := s32 (id1 - id2) in diff >? 0.

Definition TransactionIdFollowsOrEquals (id1 id2 : TransactionId) : bool :=
  if negb (TransactionIdIsNormal id1) || negb (TransactionIdIsNormal id2)
  then id1 >=? id2
  else let diff := s32 (id1 - id2) in diff >=? 0.

(** [xids] is the array, [nxids] counts down to its first element. *)
Fixpoint latest_loop (xids : list TransactionId) (nxids : nat) (result : TransactionId) : TransactionId :=
  match nxids with
  | O => result
  | S k =>
      let x := nth k xids InvalidTransactionId in
      latest_loop xids k (if TransactionIdPrecedes result x then x else result)
  end.

Definition TransactionIdLatest (mainxid : TransactionId) (nxids : nat) (xids : list TransactionId) :
  TransactionId := latest_loop xids nxids mainxid.

(** ** [transam.h], backend-only helpers *)

Definition TransactionIdRetreatedBy (xid amount : Z) : TransactionId :=
  while 3 special32 decr32 (u32 (xid - amount)).

Definition TransactionIdOlder (a b : TransactionId) : TransactionId :=
  if negb (TransactionIdIsValid a) then b
  else if negb (TransactionIdIsValid b) then a
  else if TransactionIdPrecedes a b then a else b.

Definition NormalTransactionIdOlder (a b : TransactionId) : TransactionId :=
  if NormalTransactionIdPrecedes a b then a else b.

Definition FullTransactionIdNewer (a b : FullTransactionId) : FullTransactionId :=
  if negb (FullTransactionIdIsValid a) then b
  else if negb (FullTransactionIdIsValid b) then a
  else if FullTransactionIdFollows a b then a else b.

(** ** Circular comparison *)

(** A full id whose 32-bit part is not one of the special ids. *)
Definition normal_full (x : FullTransactionId) : Prop :=
  0 <= value x < 2 ^ 64 /\ FirstNormalTransactionId <= u32 (value x).

Lemma normal_is_normal x :
  FirstNormalTransactionId <= x -> TransactionIdIsNormal x = true.
Proof. intros H. apply Z.geb_le, H. Qed.

Lemma window_diff a b : - 2 ^ 31 <= a - b < 2 ^ 31 -> s32 (u32 a - u32 b) = a - b.
Proof.
  intros H. rewrite <- (s32_small (a - b)) by done.
  apply s32_congr. by rewrite u32_sub_l, u32_sub_r.
Qed.

(** All four comparisons, for ids less than [2^31] apart. *)
Lemma compare_window a b :
  FirstNormalTransactionId <= u32 a -> FirstNormalTransactionId <= u32 b ->
  - 2 ^ 31 < a - b < 2 ^ 31 ->
  TransactionIdPrecedes (u32 a) (u32 b) = (a <? b) /\
  TransactionIdPrecedesOrEquals (u32 a) (u32 b) = (a <=? b) /\
  TransactionIdFollows (u32 a) (u32 b) = (a >? b) /\
  TransactionIdFollowsOrEquals (u32 a) (u32 b) = (a >=? b).
Proof.
  intros Ha Hb Hd.
  unfold TransactionIdPrecedes, TransactionIdPrecedesOrEquals, TransactionIdFollows,
    TransactionIdFollowsOrEquals.
  rewrite !normal_is_normal, window_diff by (done || lia). simpl.
  rewrite !Z.geb_leb, !Z.gtb_ltb. repeat split; apply Bool.eq_iff_eq_true; rewrite ?Z.ltb_lt, ?Z.leb_le; lia.
Qed.

(** ** The counters *)

Ltac xid_euclid :=
  unfold normal_full, XidFromFullTransactionId, u32, u64, wrap, FirstNormalTransactionId, MaxTransactionId in *; cbn [value] in *;
  Z.div_mod_to_equations; lia.

Lemma full_precedes_first x : FullTransactionIdPrecedes x FirstNormalFullTransactionId = (value x <? 3).
Proof. done. Qed.

(** The distance between a normal id and the next one. *)
Definition step_of (xid : Z) : Z := if xid =? MaxTransactionId then 4 else 1.

Lemma special64_spec x : special64 x = (u32 (value x) <? 3).
Proof. done. Qed.

Lemma full_advance_value x :
  normal_full x -> value x + 4 < 2 ^ 64 ->
  FullTransactionIdAdvance x = FullXid (value x + step_of (u32 (value x))).
Proof.
  intros [Hr Hn] Hmax. destruct x as [v]. cbn [value] in *.
  unfold FullTransactionIdAdvance, incr64. rewrite full_precedes_first. cbn [value].
  rewrite u64_small by lia. destruct (Z.ltb_spec (v + 1) 3); [exfalso; xid_euclid|].
  unfold step_of. destruct (Z.eqb_spec (u32 v) MaxTransactionId) as [E|E].
  - cbn [while]. rewrite !special64_spec. cbn [value incr64]. unfold incr64. cbn [value].
    rewrite (u64_small (v + 1 + 1)), (u64_small (v + 1 + 1 + 1)), (u64_small (v + 1 + 1 + 1 + 1)) by lia.
    rewrite !(proj2 (Z.ltb_lt _ _)) by xid_euclid. f_equal. lia.
  - apply while_false. rewrite special64_spec. apply Z.ltb_ge. cbn [value]. xid_euclid.
Qed.

Lemma full_advance_normal x :
  normal_full x -> value x + 4 < 2 ^ 64 -> normal_full (FullTransactionIdAdvance x).
Proof.
  intros Hx Hm. rewrite full_advance_value by done. unfold step_of. cbn [value].
  destruct (Z.eqb_spec (u32 (value x)) MaxTransactionId); xid_euclid.
Qed.

Lemma full_retreat_value x y :
  normal_full x -> normal_full y -> value y = value x + step_of (u32 (value x)) ->
  FullTransactionIdRetreat y = x.
Proof.
  destruct x as [v], y as [w]. unfold FullTransactionIdRetreat, decr64, step_of.
  rewrite full_precedes_first. cbn [value]. intros Hx Hy.
  destruct (Z.eqb_spec (u32 v) MaxTransactionId) as [Hv|Hv]; intros E;
    (rewrite u64_small by xid_euclid); (rewrite (proj2 (Z.ltb_ge _ _)) by xid_euclid).
  - cbn [while]. rewrite !special64_spec. unfold decr64. cbn [value].
    rewrite (u64_small (w - 1 - 1)), (u64_small (w - 1 - 1 - 1)), (u64_small (w - 1 - 1 - 1 - 1)) by xid_euclid.
    rewrite !(proj2 (Z.ltb_lt _ _)) by xid_euclid. f_equal. lia.
  - rewrite while_false; [f_equal; lia|]. rewrite special64_spec. apply Z.ltb_ge. cbn [value]. xid_euclid.
Qed.

Lemma advance_value xid :
  FirstNormalTransactionId <= xid <= MaxTransactionId ->
  TransactionIdAdvance xid = u32 (xid + step_of xid).
Proof.
  intros H. unfold TransactionIdAdvance, incr32, step_of.
  destruct (Z.eqb_spec xid MaxTransactionId) as [->|]; [done|].
  rewrite (proj2 (Z.ltb_ge _ _)); [done|]. xid_euclid.
Qed.

Lemma retreat_advance xid :
  FirstNormalTransactionId <= xid <= MaxTransactionId ->
  TransactionIdRetreat (TransactionIdAdvance xid) = xid.
Proof.
  intros H. rewrite advance_value by done. unfold step_of.
  destruct (Z.eqb_spec xid MaxTransactionId) as [->|]; [reflexivity|].
  unfold TransactionIdRetreat. replace (decr32 (u32 (xid + 1))) with xid by (unfold decr32; xid_euclid).
  apply while_false, Z.ltb_ge. unfold FirstNormalTransactionId in *. lia.
Qed.

Lemma xid_of_normal x : normal_full x -> FirstNormalTransactionId <= XidFromFullTransactionId x <= MaxTransactionId.
Proof. intros [_ H]. split; [exact H|]. pose proof (u32_range (value x)). unfold MaxTransactionId, XidFromFullTransactionId. lia. Qed.

(** Circular comparison of transaction ids.  For any two full ids whose
    32-bit parts are normal and which are less than [2^31] apart, comparing the
    32-bit parts with any of the four comparison functions of [transam.c]
    decides the order of the full ids. *)
Theorem xid_order_window (a b : FullTransactionId) :
  normal_full a -> normal_full b -> Z.abs (value a - value b) < 2 ^ 31 ->
  let x := XidFromFullTransactionId a in
  let y := XidFromFullTransactionId b in
  TransactionIdPrecedes x y = FullTransactionIdPrecedes a b /\
  TransactionIdPrecedesOrEquals x y = FullTransactionIdPrecedesOrEquals a b /\
  TransactionIdFollows x y = FullTransactionIdFollows a b /\
  TransactionIdFollowsOrEquals x y = FullTransactionIdFollowsOrEquals a b.
Proof. intros [_ Ha] [_ Hb] Hd. apply compare_window; [done|done|lia]. Qed.

Lemma xid_order_window_witness :
  let a := FullTransactionIdFromEpochAndXid 6 MaxTransactionId in
  let b := FullTransactionIdFromEpochAndXid 7 FirstNormalTransactionId in
  TransactionIdPrecedes (XidFromFullTransactionId a) (XidFromFullTransactionId b) = true.
Proof.
  apply (xid_order_window (FullTransactionIdFromEpochAndXid 6 MaxTransactionId)
    (FullTransactionIdFromEpochAndXid 7 FirstNormalTransactionId));
    [split; vm_compute; intuition discriminate.. | reflexivity].
Defined.

(** The limits of circular comparison.  On normal ids [Precedes] is
    irreflexive and, of two different ids, at least one precedes the other;
    both precede each other exactly when they are [2^31] apart.  It is not
    transitive: there are three ids in a cycle. *)
Theorem xid_order_limits :
  (forall x y, FirstNormalTransactionId <= x <= MaxTransactionId ->
     FirstNormalTransactionId <= y <= MaxTransactionId ->
     TransactionIdPrecedes x x = false /\
     (x <> y -> TransactionIdPrecedes x y || TransactionIdPrecedes y x = true) /\
     (TransactionIdPrecedes x y && TransactionIdPrecedes y x = true <-> Z.abs (x - y) = 2 ^ 31)) /\
  exists x y z, Forall (fun i => FirstNormalTransactionId <= i <= MaxTransactionId) [x; y; z] /\
    TransactionIdPrecedes x y && TransactionIdPrecedes y z && TransactionIdPrecedes z x = true.
Proof.
  split.
  - intros x y Hx Hy. unfold TransactionIdPrecedes.
    rewrite !normal_is_normal by lia. cbn [negb orb]. cbv zeta.
    rewrite orb_true_iff, andb_true_iff, !Z.ltb_lt, Z.ltb_ge.
    unfold s32, u32, wrap, FirstNormalTransactionId, MaxTransactionId in *. cbv zeta.
    rewrite Z.sub_diag. split; [done|].
    destruct (Z.ltb_spec ((x - y) mod 2 ^ 32) (2 ^ 31)), (Z.ltb_spec ((y - x) mod 2 ^ 32) (2 ^ 31));
      Z.div_mod_to_equations; lia.
  - exists 3, (2 ^ 30 + 3), (2 ^ 31 + 5). split; [|reflexivity].
    repeat (apply Forall_cons_2; [vm_compute; intuition discriminate|]). apply Forall_nil_2.
Qed.

Lemma full_advance_xid x :
  normal_full x -> value x + 4 < 2 ^ 64 ->
  XidFromFullTransactionId (FullTransactionIdAdvance x) = TransactionIdAdvance (XidFromFullTransactionId x).
Proof.
  intros Hx Hm. pose proof (xid_of_normal x Hx). rewrite advance_value, full_advance_value by done.
  unfold XidFromFullTransactionId. cbn [value]. by rewrite u32_add_l.
Qed.

(** The counters run in step.  Below the end of the 64-bit space,
    advancing a normal full id yields the next normal full id (nothing normal
    in between, wraparound of the 32-bit part included), its 32-bit part is
    what [TransactionIdAdvance] computes from the old 32-bit part, and both
    [Retreat] operations undo the step. *)
Theorem advance_in_step (x : FullTransactionId) :
  normal_full x -> value x + 4 < 2 ^ 64 ->
  let x' := FullTransactionIdAdvance x in
  normal_full x' /\ value x < value x' /\
  (forall y, normal_full y -> value x < value y -> value x' <= value y) /\
  XidFromFullTransactionId x' = TransactionIdAdvance (XidFromFullTransactionId x) /\
  FullTransactionIdRetreat x' = x /\
  TransactionIdRetreat (XidFromFullTransactionId x') = XidFromFullTransactionId x.
Proof.
  intros Hx Hm. cbv zeta. pose proof (full_advance_normal x Hx Hm) as Hn.
  pose proof (xid_of_normal x Hx) as Hr.
  pose proof (full_advance_xid x Hx Hm) as Hs.
  rewrite Hs, retreat_advance, (full_retreat_value x) by (done || by rewrite full_advance_value).
  rewrite full_advance_value in * by done. cbn [value].
  split; [done|]. unfold step_of in *.
  destruct (Z.eqb_spec (u32 (value x)) MaxTransactionId); (split; [lia|]); (split; [|done]);
    intros [w]; cbn [value]; xid_euclid.
Qed.

Lemma advance_in_step_witness :
  XidFromFullTransactionId (FullTransactionIdAdvance (FullTransactionIdFromEpochAndXid 0 MaxTransactionId)) =
  TransactionIdAdvance MaxTransactionId.
Proof.
  apply (advance_in_step (FullTransactionIdFromEpochAndXid 0 MaxTransactionId));
    [split; vm_compute; intuition discriminate | reflexivity].
Defined.

(** The largest of the first [n] elements of [l] and [m], scanned from the back. *)
Fixpoint max_below (l : list Z) (n : nat) (m : Z) : Z :=
  match n with
  | O => m
  | S k => max_below l k (Z.max m (nth k l 0))
  end.

Lemma max_below_spec l n m :
  (n <= length l)%nat ->
  m <= max_below l n m /\ (forall x, In x (firstn n l) -> x <= max_below l n m) /\
  (max_below l n m = m \/ In (max_below l n m) (firstn n l)).
Proof.
  revert m. induction n as [|k IH]; intros m Hn; [simpl; split; [lia|tauto]|].
  destruct (IH (Z.max m (nth k l 0))) as (H1 & H2 & H3); [lia|]. simpl max_below.
  destruct (nth_lookup_or_length l k 0) as [Hk|]; [|lia].
  rewrite (take_S_r _ _ _ Hk). set (r := max_below l k _) in *. split; [lia|]. split.
  - intros x Hx. apply in_app_or in Hx as [Hx|[<-|[]]]; [by apply H2|lia].
  - destruct H3 as [->|H3]; [|right; apply in_or_app; by left].
    destruct (Z.max_spec m (nth k l 0)) as [[_ ->]|[_ ->]]; [right|by left].
    apply in_or_app. right. by left.
Qed.

(** [TransactionIdLatest].  When the main id and its [nxids] children are
    the 32-bit parts of normal full ids lying in one window of [2^31] ids, the
    result is the 32-bit part of the largest of them. *)
Theorem latest_is_max (lo m : Z) (fx : list Z) (nxids : nat) :
  (nxids <= length fx)%nat ->
  Forall (fun v => FirstNormalTransactionId <= u32 v /\ lo <= v < lo + 2 ^ 31) (m :: fx) ->
  exists v, TransactionIdLatest (u32 m) nxids (map u32 fx) = u32 v /\
    In v (m :: firstn nxids fx) /\ (forall w, In w (m :: firstn nxids fx) -> w <= v).
Proof.
  intros Hn Hall. exists (max_below fx nxids m).
  assert (Hmax := max_below_spec fx nxids m Hn).
  split; [|split; [simpl; destruct Hmax as (? & ? & [->|?]); auto
                  |intros w [<-|Hw]; [lia|by apply Hmax]]].
  apply Forall_cons_1 in Hall as [Hm Hfx]. clear Hmax. unfold TransactionIdLatest.
  revert m Hm. induction nxids as [|k IH]; intros m Hm; [done|]. simpl.
  assert (Hk : FirstNormalTransactionId <= u32 (nth k fx 0) /\ lo <= nth k fx 0 < lo + 2 ^ 31).
  { rewrite list.Forall_forall in Hfx. apply Hfx, list_elem_of_In, nth_In. lia. }
  rewrite <- IH by (lia || (destruct (Z.max_spec m (nth k fx 0)) as [[_ ->]|[_ ->]]; done)).
  rewrite (nth_indep _ _ (u32 0)) by (rewrite length_map; lia). rewrite map_nth.
  destruct (compare_window m (nth k fx 0)) as [-> _]; [tauto|tauto|lia|].
  f_equal. destruct (Z.ltb_spec m (nth k fx 0)); f_equal; lia.
Qed.

Lemma latest_is_max_witness :
  exists v, TransactionIdLatest (u32 (2 ^ 32 - 5)) 2 (map u32 [2 ^ 32 - 3; 2 ^ 32 + 9]) = u32 v /\
    In v [2 ^ 32 - 5; 2 ^ 32 - 3; 2 ^ 32 + 9] /\
    (forall w, In w [2 ^ 32 - 5; 2 ^ 32 - 3; 2 ^ 32 + 9] -> w <= v).
Proof.
  apply (latest_is_max (2 ^ 32 - 10) (2 ^ 32 - 5) [2 ^ 32 - 3; 2 ^ 32 + 9] 2); [simpl; lia|].
  repeat (apply Forall_cons_2; [vm_compute; intuition discriminate|]). apply Forall_nil_2.
Defined.

(** Backing up never yields a special id: three rounds of the loop are enough. *)
Lemma retreated_by_value xid amount :
  let y := u32 (xid - amount) in
  TransactionIdRetreatedBy xid amount = if y <? FirstNormalTransactionId then MaxTransactionId else y.
Proof.
  cbv zeta. unfold TransactionIdRetreatedBy. pose proof (u32_range (xid - amount)) as Hr.
  destruct (Z.ltb_spec (u32 (xid - amount)) FirstNormalTransactionId) as [H|H].
  - assert (Hc : u32 (xid - amount) = 0 \/ u32 (xid - amount) = 1 \/ u32 (xid - amount) = 2)
      by (unfold FirstNormalTransactionId in *; lia).
    by destruct Hc as [->|[->| ->]].
  - by apply while_false, Z.ltb_ge.
Qed.
