(* ===== verification/Varsup.v ===== *)
(** * Assignment of transaction ids and object ids

    [src/postgresql/src/backend/access/transam/varsup.c]: the shared counters
    [TransamVariables], [GetNewTransactionId] with its wraparound protection,
    [SetTransactionIdLimit], recovery's epoch inference, and the OID generator.
    [GetNewTransactionId] drops [XidGenLock] in the middle, so what the other
    processes do meanwhile is an argument of its definition, and the protection
    is proved for a step relation in which any number of backends interleave.

    The SLRU extensions ([ExtendCLOG], [ExtendCommitTs], [ExtendSUBTRANS]) are an
    argument: whether they succeed for the new id or raise an error. *)
From stdpp Require Import sorting.
From S2P Require Import Prelude TransactionId.
Local Open Scope Z_scope.

Abbreviation Oid := Z.

Definition FirstGenbkiObjectId : Oid := 10000.
Definition FirstUnpinnedObjectId : Oid := 12000.
Definition FirstNormalObjectId : Oid := 16384.
Definition VAR_OID_PREFETCH : Z := 8192.
Definition PGPROC_MAX_CACHED_SUBXIDS : nat := 64.

Record TransamVariablesData := {
  nextOid : Oid;
  oidCount : Z;
  nextXid : FullTransactionId;
  oldestXid : TransactionId;
  xidVacLimit : TransactionId;
  xidWarnLimit : TransactionId;
  xidStopLimit : TransactionId;
  xidWrapLimit : TransactionId;
  oldestXidDB : Oid;
  oldestCommitTsXid : TransactionId;
  newestCommitTsXid : TransactionId;
  latestCompletedXid : FullTransactionId;
  xactCompletionCount : Z;
  oldestClogXid : TransactionId
}.

(** [memset(TransamVariables, 0, sizeof(TransamVariablesData))]. *)
Definition VarsupShmemInit : TransamVariablesData :=
  {| nextOid := 0; oidCount := 0; nextXid := FullXid 0; oldestXid := 0; xidVacLimit := 0;
     xidWarnLimit := 0; xidStopLimit := 0; xidWrapLimit := 0; oldestXidDB := 0;
     oldestCommitTsXid := 0; newestCommitTsXid := 0; latestCompletedXid := FullXid 0;
     xactCompletionCount := 0; oldestClogXid := 0 |}.

Definition set_nextXid (x : FullTransactionId) (v : TransamVariablesData) : TransamVariablesData :=
  {| nextOid := nextOid v; oidCount := oidCount v; nextXid := x; oldestXid := oldestXid v;
     xidVacLimit := xidVacLimit v; xidWarnLimit := xidWarnLimit v; xidStopLimit := xidStopLimit v;
     xidWrapLimit := xidWrapLimit v; oldestXidDB := oldestXidDB v;
     oldestCommitTsXid := oldestCommitTsXid v; newestCommitTsXid := newestCommitTsXid v;
     latestCompletedXid := latestCompletedXid v; xactCompletionCount := xactCompletionCount v;
     oldestClogXid := oldestClogXid v |}.

Definition set_oid (o c : Z) (v : TransamVariablesData) : TransamVariablesData :=
  {| nextOid := o; oidCount := c; nextXid := nextXid v; oldestXid := oldestXid v;
     xidVacLimit := xidVacLimit v; xidWarnLimit := xidWarnLimit v; xidStopLimit := xidStopLimit v;
     xidWrapLimit := xidWrapLimit v; oldestXidDB := oldestXidDB v;
     oldestCommitTsXid := oldestCommitTsXid v; newestCommitTsXid := newestCommitTsXid v;
     latestCompletedXid := latestCompletedXid v; xactCompletionCount := xactCompletionCount v;
     oldestClogXid := oldestClogXid v |}.

Definition set_limits (oldest vac warn stop wrap : TransactionId) (db : Oid)
  (v : TransamVariablesData) : TransamVariablesData :=
  {| nextOid := nextOid v; oidCount := oidCount v; nextXid := nextXid v; oldestXid := oldest;
     xidVacLimit := vac; xidWarnLimit := warn; xidStopLimit := stop;
     xidWrapLimit := wrap; oldestXidDB := db;
     oldestCommitTsXid := oldestCommitTsXid v; newestCommitTsXid := newestCommitTsXid v;
     latestCompletedXid := latestCompletedXid v; xactCompletionCount := xactCompletionCount v;
     oldestClogXid := oldestClogXid v |}.

Definition set_oldestClogXid (x : TransactionId) (v : TransamVariablesData) : TransamVariablesData :=
  {| nextOid := nextOid v; oidCount := oidCount v; nextXid := nextXid v; oldestXid := oldestXid v;
     xidVacLimit := xidVacLimit v; xidWarnLimit := xidWarnLimit v; xidStopLimit := xidStopLimit v;
     xidWrapLimit := xidWrapLimit v; oldestXidDB := oldestXidDB v;
     oldestCommitTsXid := oldestCommitTsXid v; newestCommitTsXid := newestCommitTsXid v;
     latestCompletedXid := latestCompletedXid v; xactCompletionCount := xactCompletionCount v;
     oldestClogXid := x |}.

(** What the calling process knows about itself. *)
Record process_mode := {
  IsInParallelMode : bool;
  IsBootstrapProcessingMode : bool;
  RecoveryInProgress : bool;
  IsUnderPostmaster : bool;
  IsPostmasterEnvironment : bool;
  InRecovery : bool
}.

(** Effects outside the counters: the autovacuum signal, the warning with the
    number of transactions left, and the WAL record that reserves OIDs. *)
Inductive event :=
| PMSIGNAL_START_AUTOVAC_LAUNCHER
| WARNING_must_be_vacuumed_within (n : Z)
| XLogPutNextOid (o : Oid).

Inductive varsup_error :=
| ERR_parallel_operation
| ERR_during_recovery
| ERR_wraparound_protection
| ERR_extend
| ERR_oid_counter
| ERR_oid_too_late.

(** The calling process's entry in the process array, and the mirrored arrays of
    [ProcGlobal] at [MyProc->pgxactoff]. *)
Record XidCacheStatus := { count : nat; overflowed : bool }.
Record PGPROC := {
  proc_xid : TransactionId;
  proc_subxids : list TransactionId;
  subxidStatus : XidCacheStatus;
  global_xid : TransactionId;
  global_subxidState : XidCacheStatus
}.

(** ** [GetNewTransactionId] *)

(** What the check against the limits decides: go on holding the lock, go on
    after having released and re-acquired it, or refuse. *)
Inductive limit_check := KeepLock | Reacquire | Refuse.

Definition GetNewTransactionId_check (env : process_mode) (v : TransamVariablesData) :
  limit_check * list event :=
  let xid := XidFromFullTransactionId (nextXid v) in
  if TransactionIdFollowsOrEquals xid (xidVacLimit v) then
    let signal := if IsUnderPostmaster env && (xid mod 65536 =? 0)
                  then [PMSIGNAL_START_AUTOVAC_LAUNCHER] else [] in
    if IsUnderPostmaster env && TransactionIdFollowsOrEquals xid (xidStopLimit v)
    then (Refuse, signal)
    else if TransactionIdFollowsOrEquals xid (xidWarnLimit v)
    then (Reacquire, signal ++ [WARNING_must_be_vacuumed_within (u32 (xidWrapLimit v - xid))])
    else (Reacquire, signal)
  else (KeepLock, []).

(** Storing the new id where other backends see it. *)
Definition publish_xid (isSubXact : bool) (xid : TransactionId) (p : PGPROC) : PGPROC :=
  if negb isSubXact then
    {| proc_xid := xid; proc_subxids := proc_subxids p; subxidStatus := subxidStatus p;
       global_xid := xid; global_subxidState := global_subxidState p |}
  else
    let nxids := count (subxidStatus p) in
    if (nxids <? PGPROC_MAX_CACHED_SUBXIDS)%nat then
      {| proc_xid := proc_xid p; proc_subxids := <[nxids := xid]> (proc_subxids p);
         subxidStatus := {| count := S nxids; overflowed := overflowed (subxidStatus p) |};
         global_xid := global_xid p;
         global_subxidState := {| count := S nxids; overflowed := overflowed (global_subxidState p) |} |}
    else
      {| proc_xid := proc_xid p; proc_subxids := proc_subxids p;
         subxidStatus := {| count := nxids; overflowed := true |};
         global_xid := global_xid p;
         global_subxidState := {| count := count (global_subxidState p); overflowed := true |} |}.

Definition publish_bootstrap (p : PGPROC) : PGPROC :=
  {| proc_xid := BootstrapTransactionId; proc_subxids := proc_subxids p; subxidStatus := subxidStatus p;
     global_xid := BootstrapTransactionId; global_subxidState := global_subxidState p |}.

(** The part after the check, under the lock: [full_xid] is the (re-)read
    counter.  When an extension fails the counter has not moved. *)
Definition GetNewTransactionId_assign (extend : TransactionId -> bool) (isSubXact : bool)
  (v : TransamVariablesData) (p : PGPROC) :
  (varsup_error + FullTransactionId) * TransamVariablesData * PGPROC :=
  let full_xid := nextXid v in
  let xid := XidFromFullTransactionId full_xid in
  if negb (extend xid) then (inl ERR_extend, v, p)
  else (inr full_xid, set_nextXid (FullTransactionIdAdvance (nextXid v)) v, publish_xid isSubXact xid p).

(** [others] is what the other processes do to the counters while the lock is
    released. *)
Definition GetNewTransactionId (env : process_mode) (extend : TransactionId -> bool)
  (others : TransamVariablesData -> TransamVariablesData) (isSubXact : bool)
  (v : TransamVariablesData) (p : PGPROC) :
  (varsup_error + FullTransactionId) * TransamVariablesData * PGPROC * list event :=
  if IsInParallelMode env then (inl ERR_parallel_operation, v, p, [])
  else if IsBootstrapProcessingMode env then
    (inr (FullTransactionIdFromEpochAndXid 0 BootstrapTransactionId), v, publish_bootstrap p, [])
  else if RecoveryInProgress env then (inl ERR_during_recovery, v, p, [])
  else
    match GetNewTransactionId_check env v with
    | (Refuse, ev) => (inl ERR_wraparound_protection, v, p, ev)
    | (KeepLock, ev) => (GetNewTransactionId_assign extend isSubXact v p, ev)
    | (Reacquire, ev) => (GetNewTransactionId_assign extend isSubXact (others v) p, ev)
    end.

Definition ReadNextFullTransactionId (v : TransamVariablesData) : FullTransactionId := nextXid v.
Definition ReadNextTransactionId (v : TransamVariablesData) : TransactionId :=
  XidFromFullTransactionId (ReadNextFullTransactionId v).

(** ** Recovery, limits *)

Definition AdvanceNextFullTransactionIdPastXid (xid : TransactionId) (v : TransamVariablesData) :
  TransamVariablesData :=
  let next_xid := XidFromFullTransactionId (nextXid v) in
  if negb (TransactionIdFollowsOrEquals xid next_xid) then v
  else
    let xid := TransactionIdAdvance xid in
    let epoch := EpochFromFullTransactionId (nextXid v) in
    let epoch := if xid <? next_xid then u32 (epoch + 1) else epoch in
    set_nextXid (FullTransactionIdFromEpochAndXid epoch xid) v.

Definition AdvanceOldestClogXid (oldest_datfrozenxid : TransactionId) (v : TransamVariablesData) :
  TransamVariablesData :=
  if TransactionIdPrecedes (oldestClogXid v) oldest_datfrozenxid
  then set_oldestClogXid oldest_datfrozenxid v else v.

(** The limits computed from the oldest [datfrozenxid]. *)
Definition wrap_limit (oldest_datfrozenxid : TransactionId) : TransactionId :=
  let l := u32 (oldest_datfrozenxid + Z.shiftr MaxTransactionId 1) in
  if l <? FirstNormalTransactionId then u32 (l + FirstNormalTransactionId) else l.
Definition limit_before (xidWrapLimit margin : Z) : TransactionId :=
  let l := u32 (xidWrapLimit - margin) in
  if l <? FirstNormalTransactionId then u32 (l - FirstNormalTransactionId) else l.
Definition vac_limit (oldest_datfrozenxid autovacuum_freeze_max_age : Z) : TransactionId :=
  let l := u32 (oldest_datfrozenxid + autovacuum_freeze_max_age) in
  if l <? FirstNormalTransactionId then u32 (l + FirstNormalTransactionId) else l.

Definition SetTransactionIdLimit (env : process_mode) (autovacuum_freeze_max_age : Z)
  (oldest_datfrozenxid : TransactionId) (oldest_datoid : Oid) (v : TransamVariablesData) :
  TransamVariablesData * list event :=
  let wrap := wrap_limit oldest_datfrozenxid in
  let stop := limit_before wrap 3000000 in
  let warn := limit_before wrap 40000000 in
  let vac := vac_limit oldest_datfrozenxid autovacuum_freeze_max_age in
  let v' := set_limits oldest_datfrozenxid vac warn stop wrap oldest_datoid v in
  let curXid := XidFromFullTransactionId (nextXid v') in
  (v',
   (if TransactionIdFollowsOrEquals curXid vac && IsUnderPostmaster env && negb (InRecovery env)
    then [PMSIGNAL_START_AUTOVAC_LAUNCHER] else []) ++
   (if TransactionIdFollowsOrEquals curXid warn && negb (InRecovery env)
    then [WARNING_must_be_vacuumed_within (u32 (wrap - curXid))] else [])).

(** [db_exists]: the lookup of [oldestXidDB] in the system cache. *)
Definition ForceTransactionIdLimitUpdate (db_exists : Oid -> bool) (v : TransamVariablesData) : bool :=
  let next := XidFromFullTransactionId (nextXid v) in
  if negb (TransactionIdIsNormal (oldestXid v)) then true
  else if negb (TransactionIdIsValid (xidVacLimit v)) then true
  else if TransactionIdFollowsOrEquals next (xidVacLimit v) then true
  else if negb (db_exists (oldestXidDB v)) then true
  else false.

(** ** Object ids *)

Definition GetNewObjectId (env : process_mode) (v : TransamVariablesData) :
  (varsup_error + Oid) * TransamVariablesData * list event :=
  if RecoveryInProgress env then (inl ERR_during_recovery, v, [])
  else
    let v := if nextOid v <? FirstNormalObjectId then
               if IsPostmasterEnvironment env then set_oid FirstNormalObjectId 0 v
               else if nextOid v <? FirstGenbkiObjectId then set_oid FirstNormalObjectId 0 v else v
             else v in
    let ev := if oidCount v =? 0 then [XLogPutNextOid (u32 (nextOid v + VAR_OID_PREFETCH))] else [] in
    let v := if oidCount v =? 0 then set_oid (nextOid v) VAR_OID_PREFETCH v else v in
    (inr (nextOid v), set_oid (u32 (nextOid v + 1)) (u32 (oidCount v - 1)) v, ev).

Definition SetNextObjectId (env : process_mode) (o : Oid) (v : TransamVariablesData) :
  (varsup_error + unit) * TransamVariablesData :=
  if IsPostmasterEnvironment env then (inl ERR_oid_counter, v)
  else if nextOid v >? o then (inl ERR_oid_too_late, v)
  else (inr tt, set_oid o 0 v).

Definition StopGeneratingPinnedObjectIds (env : process_mode) (v : TransamVariablesData) :
  (varsup_error + unit) * TransamVariablesData := SetNextObjectId env FirstUnpinnedObjectId v.

(** The condition asserted by [AssertTransactionIdInAllowableRange] (true when
    the function returns early). *)
Definition AssertTransactionIdInAllowableRange (xid : TransactionId) (v : TransamVariablesData) : bool :=
  TransactionIdIsValid xid &&
  (negb (TransactionIdIsNormal xid) ||
   (TransactionIdFollowsOrEquals xid (oldestXid v) ||
    TransactionIdPrecedesOrEquals xid (XidFromFullTransactionId (nextXid v)))).

(** ** The limits, as full ids *)

Ltac lim_euclid :=
  unfold u32, u64, wrap, FirstNormalTransactionId, MaxTransactionId in *;
  Z.div_mod_to_equations; lia.

Lemma wrap_limit_full o :
  exists w, wrap_limit (u32 o) = u32 w /\ FirstNormalTransactionId <= u32 w /\
    o + 2 ^ 31 - 1 <= w <= o + 2 ^ 31 + 2.
Proof.
  unfold wrap_limit. change (Z.shiftr MaxTransactionId 1) with (2 ^ 31 - 1). cbv zeta.
  rewrite u32_add_l. destruct (Z.ltb_spec (u32 (o + (2 ^ 31 - 1))) FirstNormalTransactionId).
  - exists (o + (2 ^ 31 - 1) + 3). rewrite u32_add_l. split; [done|]. split; [lim_euclid|lia].
  - exists (o + (2 ^ 31 - 1)). split; [done|]. split; [done|lia].
Qed.

Lemma limit_before_full w margin :
  exists s, limit_before (u32 w) margin = u32 s /\ FirstNormalTransactionId <= u32 s /\
    w - margin - 3 <= s <= w - margin.
Proof.
  unfold limit_before. cbv zeta. rewrite u32_sub_l.
  destruct (Z.ltb_spec (u32 (w - margin)) FirstNormalTransactionId).
  - exists (w - margin - 3). rewrite u32_sub_l. split; [done|]. split; [lim_euclid|lia].
  - exists (w - margin). split; [done|]. split; [done|lia].
Qed.

Lemma vac_limit_full o age :
  exists s, vac_limit (u32 o) age = u32 s /\ FirstNormalTransactionId <= u32 s /\
    o + age <= s <= o + age + 3.
Proof.
  unfold vac_limit. cbv zeta. rewrite u32_add_l.
  destruct (Z.ltb_spec (u32 (o + age)) FirstNormalTransactionId).
  - exists (o + age + 3). rewrite u32_add_l. split; [done|]. split; [lim_euclid|lia].
  - exists (o + age). split; [done|]. split; [done|lia].
Qed.

(** The counters hold the limits computed from the full id [o]. *)
Definition limits_from (o age : Z) (v : TransamVariablesData) : Prop :=
  oldestXid v = u32 o /\ xidVacLimit v = vac_limit (u32 o) age /\
  xidStopLimit v = limit_before (wrap_limit (u32 o)) 3000000.

(** How far past the oldest id the counter may be when a check lets an
    assignment through. *)
Definition stop_bound (o : Z) : Z := o + 2 ^ 31 + 2 - 3000000.

Lemma follows_or_equals_window a b :
  FirstNormalTransactionId <= u32 a -> FirstNormalTransactionId <= u32 b ->
  - 2 ^ 31 < a - b < 2 ^ 31 -> TransactionIdFollowsOrEquals (u32 a) (u32 b) = (a >=? b).
Proof. intros Ha Hb Hd. apply (compare_window a b Ha Hb Hd). Qed.

Lemma check_passes env o age v :
  IsUnderPostmaster env = true -> 0 <= age <= 2000000000 ->
  limits_from o age v -> normal_full (nextXid v) ->
  o <= value (nextXid v) < o + 2 ^ 31 ->
  (GetNewTransactionId_check env v).1 <> Refuse -> value (nextXid v) < stop_bound o.
Proof.
  intros Hpm Hage (_ & Hvac & Hstop) [_ Hn] Hw. unfold GetNewTransactionId_check, XidFromFullTransactionId.
  rewrite Hpm, Hvac, Hstop. cbn [andb].
  destruct (wrap_limit_full o) as (w & -> & _ & Hwr).
  destruct (limit_before_full w 3000000) as (s & -> & Hs & Hsr).
  destruct (vac_limit_full o age) as (a & -> & Ha & Har).
  rewrite !follows_or_equals_window, !Z.geb_leb by (done || lia). unfold stop_bound.
  destruct (Z.leb_spec a (value (nextXid v))); [|intros _; lia].
  destruct (Z.leb_spec s (value (nextXid v))); [done|intros _; lia].
Qed.

(** ** Concurrent assignment *)

(** [waiting] says, for each backend, whether it has passed the check, released
    the lock and not yet re-acquired it; [oldest] is the full id behind
    [oldestXid]; [handed] are the ids assigned so far, latest first. *)
Record xid_machine := XM {
  vars : TransamVariablesData;
  waiting : list bool;
  oldest : Z;
  handed : list FullTransactionId
}.

Definition hand (r : varsup_error + FullTransactionId) (l : list FullTransactionId) :=
  match r with inr f => f :: l | inl _ => l end.

Section machine.
Context (env : process_mode) (age : Z).

(** One critical section of one process.  The 64-bit counter is taken not to
    be exhausted. *)
Inductive xid_step : xid_machine -> xid_machine -> Prop :=
| step_keep v w o hd i extend sub p ev r v' p' :
    w !! i = Some false -> GetNewTransactionId_check env v = (KeepLock, ev) ->
    GetNewTransactionId_assign extend sub v p = (r, v', p') -> value (nextXid v) + 4 < 2 ^ 64 ->
    xid_step (XM v w o hd) (XM v' w o (hand r hd))
| step_release v w o hd i ev :
    w !! i = Some false -> GetNewTransactionId_check env v = (Reacquire, ev) ->
    xid_step (XM v w o hd) (XM v (<[i := true]> w) o hd)
| step_reacquire v w o hd i extend sub p r v' p' :
    w !! i = Some true ->
    GetNewTransactionId_assign extend sub v p = (r, v', p') -> value (nextXid v) + 4 < 2 ^ 64 ->
    xid_step (XM v w o hd) (XM v' (<[i := false]> w) o (hand r hd))
| step_limit v w o hd o' db v' ev :
    o <= o' <= value (nextXid v) -> FirstNormalTransactionId <= u32 o' ->
    SetTransactionIdLimit env age (u32 o') db v = (v', ev) ->
    xid_step (XM v w o hd) (XM v' w o' hd).

Fixpoint ntrue (l : list bool) : nat :=
  match l with [] => 0 | b :: l => (if b then 1 else 0) + ntrue l end.

Lemma ntrue_length l : (ntrue l <= length l)%nat.
Proof. induction l as [|[] l IH]; simpl; lia. Qed.

Lemma ntrue_set l i : l !! i = Some false -> ntrue (<[i := true]> l) = S (ntrue l).
Proof.
  revert i. induction l as [|b l IH]; intros [|i] H; simpl in *; simplify_eq; [done|].
  rewrite (IH _ H). lia.
Qed.

Lemma ntrue_clear l i : l !! i = Some true -> S (ntrue (<[i := false]> l)) = ntrue l.
Proof.
  revert i. induction l as [|b l IH]; intros [|i] H; simpl in *; simplify_eq; [done|].
  rewrite <- (IH _ H). lia.
Qed.

Definition xid_inv (N : nat) (m : xid_machine) : Prop :=
  length (waiting m) = N /\ limits_from (oldest m) age (vars m) /\
  normal_full (nextXid (vars m)) /\ FirstNormalTransactionId <= u32 (oldest m) /\
  oldest m <= value (nextXid (vars m)) <=
    stop_bound (oldest m) + 4 * (Z.of_nat N - Z.of_nat (ntrue (waiting m))) /\
  StronglySorted (fun a b => value b < value a) (nextXid (vars m) :: handed m) /\
  Forall normal_full (handed m).

Lemma assign_inv extend sub v p r v' p' :
  GetNewTransactionId_assign extend sub v p = (r, v', p') ->
  (exists e, r = inl e /\ v' = v) \/
  (r = inr (nextXid v) /\ v' = set_nextXid (FullTransactionIdAdvance (nextXid v)) v).
Proof. unfold GetNewTransactionId_assign. destruct (extend _); intros [= <- <- <-]; eauto. Qed.

(** An assignment keeps the invariant when the counter has room for it. *)
Lemma assign_keeps N v w o hd extend sub p r v' p' w' :
  xid_inv N (XM v w o hd) ->
  GetNewTransactionId_assign extend sub v p = (r, v', p') -> value (nextXid v) + 4 < 2 ^ 64 ->
  length w' = N -> (ntrue w' <= ntrue w)%nat ->
  value (nextXid v) + 4 <= stop_bound o + 4 * (Z.of_nat N - Z.of_nat (ntrue w')) ->
  xid_inv N (XM v' w' o (hand r hd)).
Proof.
  intros (Hl & Hlim & Hn & Ho & Hb & Hs & Hf) Ha Hroom Hl' Hk Hbound. unfold xid_inv in *. simpl in *.
  apply assign_inv in Ha as [(e & -> & ->)|[-> ->]]; [repeat split; (done || apply Hn || apply Hlim || lia)|].
  pose proof (full_advance_normal _ Hn Hroom) as Hn'.
  assert (Hv : value (nextXid v) < value (FullTransactionIdAdvance (nextXid v)) <= value (nextXid v) + 4).
  { rewrite full_advance_value by done. unfold step_of. simpl. case_match; lia. }
  split; [done|]. split; [exact Hlim|]. split; [done|]. split; [done|]. split; [simpl; lia|]. split.
  - apply SSorted_cons; [exact Hs|]. simpl. apply Forall_cons_2; [lia|].
    apply StronglySorted_inv in Hs as [_ Hs]. eapply Forall_impl; [exact Hs|]. simpl. lia.
  - by apply Forall_cons_2.
Qed.

Lemma xid_step_inv N m m' :
  IsUnderPostmaster env = true -> 0 <= age <= 2000000000 -> Z.of_nat N <= 0x3FFFF ->
  xid_step m m' -> xid_inv N m -> xid_inv N m'.
Proof.
  intros Hpm Hage HN Hstep Hinv. destruct Hstep as
    [v w o hd i extend sub p ev r v' p' Hw Hc Ha Hroom|v w o hd i ev Hw Hc
    |v w o hd i extend sub p r v' p' Hw Ha Hroom|v w o hd o' db v' ev Ho Hno Hset];
  pose proof Hinv as (Hl & Hlim & Hn & Hon & Hb & Hs & Hf); simpl in *;
  pose proof (ntrue_length w); unfold stop_bound in Hb.
  - pose proof (ntrue_set w i Hw). pose proof (ntrue_length (<[i:=true]> w)). rewrite length_insert in *.
    eapply assign_keeps; [done|done|done|done|lia|].
    assert (value (nextXid v) < stop_bound o)
      by (apply (check_passes env o age); [done..|lia|by rewrite Hc]). lia.
  - assert (value (nextXid v) < stop_bound o)
      by (apply (check_passes env o age); [done..|lia|by rewrite Hc]).
    pose proof (ntrue_set w i Hw). pose proof (ntrue_length (<[i:=true]> w)).
    unfold xid_inv. simpl. rewrite length_insert in *. repeat split; (done || apply Hn || apply Hlim || lia).
  - pose proof (ntrue_clear w i Hw).
    eapply assign_keeps; [done|done|done|by rewrite length_insert|lia|]. unfold stop_bound. lia.
  - unfold SetTransactionIdLimit in Hset. injection Hset as <- _.
    unfold xid_inv, stop_bound. simpl. repeat split; (done || apply Hn || lia).
Qed.

End machine.

(** The counters right after the limits were set, with nobody waiting and the
    counter not yet past the stop limit. *)
Definition xid_started (env : process_mode) (age : Z) (N : nat) (m : xid_machine) : Prop :=
  waiting m = replicate N false /\ handed m = [] /\
  normal_full (nextXid (vars m)) /\ FirstNormalTransactionId <= u32 (oldest m) /\
  oldest m <= value (nextXid (vars m)) <= stop_bound (oldest m) /\
  limits_from (oldest m) age (vars m).

Lemma ntrue_replicate n : ntrue (replicate n false) = 0%nat.
Proof. by induction n. Qed.

(** C3 -- Wraparound protection under concurrency.  From a started cluster,
    whatever number of backends up to [MAX_BACKENDS] assign transaction ids, in
    any interleaving of their critical sections with each other and with
    updates of the limits, the counter never gets [2^31] ids ahead of the
    oldest id, although [GetNewTransactionId] does not repeat its check after
    it re-acquires the lock.  Ids are handed out in strictly increasing order,
    and any two of them not older than the oldest id are compared correctly by
    [TransactionIdPrecedes]. *)
Theorem no_xid_wraparound env age N m0 m :
  IsUnderPostmaster env = true -> 0 <= age <= 2000000000 -> Z.of_nat N <= 0x3FFFF ->
  xid_started env age N m0 -> rtc (xid_step env age) m0 m ->
  value (nextXid (vars m)) - oldest m < 2 ^ 31 - 1 /\
  StronglySorted (fun a b => value b < value a) (nextXid (vars m) :: handed m) /\
  (forall a b, In a (handed m) -> In b (handed m) -> oldest m <= value a -> oldest m <= value b ->
     TransactionIdPrecedes (XidFromFullTransactionId a) (XidFromFullTransactionId b) =
     FullTransactionIdPrecedes a b).
Proof.
  intros Hpm Hage HN (Hw & Hh & Hn & Hon & Hb & Hlim) Hsteps.
  assert (Hinv : xid_inv age N m).
  { assert (H0 : xid_inv age N m0).
    { unfold xid_inv. rewrite Hw, Hh, ntrue_replicate, length_replicate.
      repeat split; (done || apply Hn || apply Hlim || (try lia)); repeat constructor. }
    clear -Hsteps H0 Hpm Hage HN. induction Hsteps as [|x y z Hs _ IH]; [done|].
    apply IH. by eapply xid_step_inv. }
  destruct Hinv as (Hl & _ & _ & _ & Hbound & Hsort & Hf). unfold stop_bound in Hbound.
  assert (Hwin : value (nextXid (vars m)) - oldest m < 2 ^ 31 - 1) by lia.
  split; [done|]. split; [done|]. intros a b Ha Hb' Hoa Hob.
  apply StronglySorted_inv in Hsort as [_ Hlt].
  rewrite Stdlib.Lists.List.Forall_forall in Hlt, Hf.
  pose proof (Hlt _ Ha). pose proof (Hlt _ Hb'). simpl in *.
  apply compare_window; [by apply Hf|by apply Hf|lia].
Qed.

(** A run of two backends that both pass the check one id before the stop limit. *)
Module XidExample.
Definition env := {| IsInParallelMode := false; IsBootstrapProcessingMode := false;
  RecoveryInProgress := false; IsUnderPostmaster := true; IsPostmasterEnvironment := true;
  InRecovery := false |}.
Definition first : Z := 2 ^ 31 + 2 - 3000001.
Definition v0 := (SetTransactionIdLimit env 200000000 3 1 (set_nextXid (FullXid first) VarsupShmemInit)).1.
Definition proc := {| proc_xid := 0; proc_subxids := []; subxidStatus := {| count := 0; overflowed := false |};
  global_xid := 0; global_subxidState := {| count := 0; overflowed := false |} |}.
Definition m0 := XM v0 [false; false] 3 [].
Definition m4 := XM (set_nextXid (FullXid (first + 2)) v0) [false; false] 3 [FullXid (first + 1); FullXid first].

Lemma started : xid_started env 200000000 2 m0.
Proof. repeat split; vm_compute; intuition discriminate. Qed.

Lemma run : rtc (xid_step env 200000000) m0 m4.
Proof.
  eapply rtc_l. { eapply (step_release _ _ _ _ _ _ 0%nat); reflexivity. }
  eapply rtc_l. { eapply (step_release _ _ _ _ _ _ 1%nat); reflexivity. }
  eapply rtc_l. { eapply (step_reacquire _ _ _ _ _ _ 1%nat (fun _ => true) false proc); reflexivity. }
  eapply rtc_l. { eapply (step_reacquire _ _ _ _ _ _ 0%nat (fun _ => true) false proc); reflexivity. }
  apply rtc_refl.
Qed.
End XidExample.

Lemma no_xid_wraparound_witness :
  rtc (xid_step XidExample.env 200000000) XidExample.m0 XidExample.m4 /\
  value (nextXid (vars XidExample.m4)) - oldest XidExample.m4 < 2 ^ 31 - 1.
Proof.
  split; [exact XidExample.run|].
  apply (no_xid_wraparound XidExample.env 200000000 2 XidExample.m0 XidExample.m4);
    [reflexivity | lia | vm_compute; discriminate | exact XidExample.started | exact XidExample.run].
Defined.

(** ** Recovery *)

Lemma epoch_xid_value e x :
  0 <= e < 2 ^ 32 -> 0 <= x < 2 ^ 32 -> FullTransactionIdFromEpochAndXid e x = FullXid (e * 2 ^ 32 + x).
Proof.
  intros He Hx. unfold FullTransactionIdFromEpochAndXid. f_equal.
  rewrite Z.shiftl_mul_pow2, u64_small by lia.
  rewrite <- Z.add_lor_land. enough (Z.land (e * 2 ^ 32) x = 0) by lia.
  rewrite <- (Z.mod_small x (2 ^ 32)) by lia. apply Z.bits_inj'. intros i Hi.
  rewrite Z.land_spec, Z.testbit_0_l. destruct (Z.ltb_spec i 32).
  - by rewrite Z.mul_pow2_bits_low.
  - rewrite Z.mod_pow2_bits_high by lia. apply andb_false_r.
Qed.

Lemma epoch_of x : 0 <= value x < 2 ^ 64 -> EpochFromFullTransactionId x = value x / 2 ^ 32.
Proof.
  intros Hx. unfold EpochFromFullTransactionId. rewrite Z.shiftr_div_pow2 by lia.
  apply u32_small. lim_euclid.
Qed.

(** Epoch inference in recovery.  WAL and two-phase state hold 32-bit
    ids.  When the id [f] found there lies less than [2^31] ids before or after
    [nextXid], [AdvanceNextFullTransactionIdPastXid] called with its 32-bit part
    leaves [nextXid] at the later of its old value and the full id that follows
    [f], including when the 32-bit part wraps around in between. *)
Theorem advance_past_xid (f : FullTransactionId) (v : TransamVariablesData) :
  normal_full f -> normal_full (nextXid v) -> Z.abs (value f - value (nextXid v)) < 2 ^ 31 ->
  value f + 2 ^ 32 < 2 ^ 64 ->
  nextXid (AdvanceNextFullTransactionIdPastXid (XidFromFullTransactionId f) v) =
  if FullTransactionIdFollowsOrEquals f (nextXid v) then FullTransactionIdAdvance f else nextXid v.
Proof.
  intros Hf Hn Hd Hroom. unfold AdvanceNextFullTransactionIdPastXid.
  pose proof (xid_of_normal f Hf) as Hxf. pose proof (full_advance_normal f Hf ltac:(lia)) as [Hr' _].
  unfold XidFromFullTransactionId at 1 2.
  rewrite follows_or_equals_window by (apply Hf || apply Hn || lia).
  unfold FullTransactionIdFollowsOrEquals. destruct (value f >=? value (nextXid v)) eqn:E; [|done].
  simpl. b2p. rewrite epoch_of by apply Hn. rewrite advance_value by done.
  rewrite full_advance_value in * by (done || lia). simpl in Hr'.
  unfold XidFromFullTransactionId. rewrite u32_add_l.
  assert (Hs : step_of (u32 (value f)) = 1 \/ step_of (u32 (value f)) = 4)
    by (unfold step_of; case_match; auto).
  set (st := step_of _) in *. destruct Hn as [Hn0 _].
  destruct (Z.ltb_spec (u32 (value f + st)) (u32 (value (nextXid v)))) as [Hlt|Hge].
  - rewrite u32_small by lim_euclid. rewrite epoch_xid_value; [|lim_euclid|apply u32_range].
    f_equal. lim_euclid.
  - rewrite epoch_xid_value; [|lim_euclid|apply u32_range]. f_equal. lim_euclid.
Qed.

Lemma advance_past_xid_witness :
  nextXid (AdvanceNextFullTransactionIdPastXid 10
    (set_nextXid (FullTransactionIdFromEpochAndXid 4 (MaxTransactionId - 2)) VarsupShmemInit)) =
  FullTransactionIdFromEpochAndXid 5 11.
Proof.
  apply (advance_past_xid (FullTransactionIdFromEpochAndXid 5 10)
    (set_nextXid (FullTransactionIdFromEpochAndXid 4 (MaxTransactionId - 2)) VarsupShmemInit));
    [split; vm_compute; intuition discriminate.. | reflexivity | reflexivity].
Defined.

(** ** Object ids *)

Section oids.
Context (env : process_mode).
Context (Hpm : IsPostmasterEnvironment env = true) (Hrec : RecoveryInProgress env = false).

(** [n] allocations in a row: the OIDs, the counters and the WAL records. *)
Fixpoint new_oids (n : nat) (v : TransamVariablesData) : list Oid * TransamVariablesData * list event :=
  match n with
  | O => ([], v, [])
  | S k =>
      match GetNewObjectId env v with
      | (inr o, v', ev) => let '(os, v'', evs) := new_oids k v' in (o :: os, v'', ev ++ evs)
      | (inl _, v', ev) => ([], v', ev)
      end
  end.

Definition oid_start (v : TransamVariablesData) : Z := Z.max (nextOid v) FirstNormalObjectId.

(** The [i]-th OID after [s] on the cycle of the OIDs from [FirstNormalObjectId] up. *)
Definition oid_cycle (s : Oid) (i : nat) : Oid :=
  FirstNormalObjectId + (s - FirstNormalObjectId + Z.of_nat i) mod (2 ^ 32 - FirstNormalObjectId).

(** [reserved] is the OID up to which the WAL says OIDs may have been used. *)
Definition oid_inv (reserved : Oid) (v : TransamVariablesData) : Prop :=
  0 <= nextOid v < 2 ^ 32 /\ 0 <= oidCount v <= VAR_OID_PREFETCH /\
  (oidCount v <> 0 -> reserved = u32 (nextOid v + oidCount v)).

Definition reserve (reserved : Oid) (ev : list event) : Oid :=
  fold_left (fun r e => match e with XLogPutNextOid o => o | _ => r end) ev reserved.

Lemma new_oid_spec reserved v :
  oid_inv reserved v ->
  exists v' ev, GetNewObjectId env v = (inr (oid_start v), v', ev) /\
    nextOid v' = u32 (oid_start v + 1) /\ oid_inv (reserve reserved ev) v' /\
    reserve reserved ev = u32 (oid_start v + 1 + oidCount v').
Proof.
  intros (Ho & Hc & Hr). unfold GetNewObjectId, oid_start, oid_inv, VAR_OID_PREFETCH in *.
  rewrite Hpm, Hrec. cbv zeta.
  destruct (Z.ltb_spec (nextOid v) FirstNormalObjectId) as [Hlt|Hge].
  - rewrite Z.max_r by lia. do 2 eexists. split; [reflexivity|]. vm_compute. intuition congruence.
  - rewrite Z.max_l by lia. destruct (Z.eqb_spec (oidCount v) 0) as [E|E].
    + do 2 eexists. split; [reflexivity|]. simpl. pose proof (u32_range (nextOid v + 1)).
      change (u32 (8192 - 1)) with 8191. rewrite u32_add_l.
      split; [done|]. split; [split; [done|]; split; [lia|intros _]|]; f_equal; lia.
    + do 2 eexists. split; [reflexivity|]. simpl. pose proof (u32_range (nextOid v + 1)).
      rewrite u32_add_l, (u32_small (oidCount v - 1)) by lia. rewrite Hr by done.
      split; [done|]. split; [split; [done|]; split; [lia|intros _]|]; f_equal; lia.
Qed.

Lemma oid_cycle_range s i : FirstNormalObjectId <= oid_cycle s i < 2 ^ 32.
Proof.
  unfold oid_cycle, FirstNormalObjectId.
  pose proof (Z.mod_pos_bound (s - 16384 + Z.of_nat i) (2 ^ 32 - 16384)). lia.
Qed.

Lemma oid_cycle_0 s : FirstNormalObjectId <= s < 2 ^ 32 -> oid_cycle s 0 = s.
Proof. intros H. unfold oid_cycle. rewrite Z.mod_small; lia. Qed.

Lemma oid_cycle_S s i :
  FirstNormalObjectId <= s < 2 ^ 32 ->
  oid_cycle (Z.max (u32 (s + 1)) FirstNormalObjectId) i = oid_cycle s (S i).
Proof.
  intros H. unfold oid_cycle. f_equal. destruct (decide (s = 2 ^ 32 - 1)) as [->|].
  - change (Z.max _ _) with FirstNormalObjectId. unfold FirstNormalObjectId.
    replace (2 ^ 32 - 1 - 16384 + Z.of_nat (S i)) with (16384 - 16384 + Z.of_nat i + 1 * (2 ^ 32 - 16384)) by lia.
    by rewrite Z_mod_plus_full.
  - rewrite u32_small, Z.max_l by (unfold FirstNormalObjectId in *; lia). f_equal. lia.
Qed.

Lemma new_oids_spec n reserved v :
  oid_inv reserved v ->
  let '(os, v', ev) := new_oids n v in
  os = map (oid_cycle (oid_start v)) (seq 0 n) /\ oid_inv (reserve reserved ev) v'.
Proof.
  revert reserved v. induction n as [|k IH]; intros reserved v Hinv; [by split|]. cbn [new_oids].
  destruct (new_oid_spec reserved v Hinv) as (v1 & ev1 & -> & Hnext & Hinv1 & _).
  specialize (IH _ _ Hinv1). destruct (new_oids k v1) as [[os v2] ev2].
  assert (Hst : FirstNormalObjectId <= oid_start v < 2 ^ 32).
  { destruct Hinv as [? _]. unfold oid_start, FirstNormalObjectId. lia. }
  destruct IH as [-> Hinv2]. split.
  - cbn [seq map]. rewrite oid_cycle_0, <- seq_shift, map_map by done. f_equal.
    apply map_ext. intros i. unfold oid_start at 1. rewrite Hnext. by apply oid_cycle_S.
  - unfold reserve in *. by rewrite fold_left_app.
Qed.

Lemma oid_cycle_inj s i j :
  Z.of_nat i < 2 ^ 32 - FirstNormalObjectId -> Z.of_nat j < 2 ^ 32 - FirstNormalObjectId ->
  oid_cycle s i = oid_cycle s j -> i = j.
Proof.
  unfold oid_cycle, FirstNormalObjectId. intros Hi Hj H.
  assert (E : (s - 16384 + Z.of_nat i) mod (2 ^ 32 - 16384) = (s - 16384 + Z.of_nat j) mod (2 ^ 32 - 16384)) by lia.
  clear H. Z.div_mod_to_equations. lia.
Qed.

End oids.

(** The OID generator.  In a running server, [n] successive allocations
    return exactly the next [n] OIDs on the cycle from [FirstNormalObjectId] to
    [2^32 - 1]: never [InvalidOid] or a reserved OID, and no OID twice within one
    turn of the cycle.  Throughout, the last WAL record reserves exactly the
    OIDs up to the end of the current batch, so restarting from it skips the
    unused ones and repeats none of the batch. *)
Theorem oid_generator env n reserved v :
  IsPostmasterEnvironment env = true -> RecoveryInProgress env = false -> oid_inv reserved v ->
  let '(os, v', ev) := new_oids env n v in
  os = map (oid_cycle (oid_start v)) (seq 0 n) /\
  Forall (fun o => FirstNormalObjectId <= o < 2 ^ 32) os /\
  (Z.of_nat n <= 2 ^ 32 - FirstNormalObjectId -> NoDup os) /\
  oid_inv (reserve reserved ev) v'.
Proof.
  intros Hpm Hrec Hinv. pose proof (new_oids_spec env Hpm Hrec n reserved v Hinv) as H.
  destruct (new_oids env n v) as [[os v'] ev]. destruct H as [-> Hinv']. split; [done|]. split.
  - apply list.Forall_forall. intros o Ho. apply list_elem_of_In, in_map_iff in Ho as (i & <- & _).
    apply oid_cycle_range.
  - split; [|done]. intros Hn. apply NoDup_ListNoDup.
    apply Finite.Injective_map_NoDup_in; [|apply seq_NoDup].
    intros i j Hi Hj. apply in_seq in Hi, Hj. apply oid_cycle_inj; lia.
Qed.

Lemma oid_generator_witness :
  let '(os, v', ev) := new_oids XidExample.env 3 (set_oid (2 ^ 32 - 2) 5 VarsupShmemInit) in
  os = [2 ^ 32 - 2; 2 ^ 32 - 1; FirstNormalObjectId].
Proof.
  pose proof (oid_generator XidExample.env 3 3 (set_oid (2 ^ 32 - 2) 5 VarsupShmemInit) eq_refl eq_refl) as H.
  assert (Hi : oid_inv 3 (set_oid (2 ^ 32 - 2) 5 VarsupShmemInit)) by (vm_compute; intuition congruence).
  specialize (H Hi). destruct (new_oids _ _ _) as [[os v'] ev]. destruct H as [-> _]. reflexivity.
Defined.

(** The range assertion accepts too much.  Its comment announces a check
    that the id lies between [oldestXid] and [nextXid], but the two comparisons
    are joined by a disjunction: every normal id less than [2^31] away from
    both is accepted, on whichever side of the range it lies. *)
Theorem allowable_range_accepts (f : FullTransactionId) (o : Z) (v : TransamVariablesData) :
  normal_full f -> normal_full (nextXid v) -> FirstNormalTransactionId <= u32 o ->
  oldestXid v = u32 o -> o <= value (nextXid v) ->
  Z.abs (value f - o) < 2 ^ 31 -> Z.abs (value f - value (nextXid v)) < 2 ^ 31 ->
  AssertTransactionIdInAllowableRange (XidFromFullTransactionId f) v = true.
Proof.
  intros Hf Hn Ho Hold Hle H1 H2. unfold AssertTransactionIdInAllowableRange, XidFromFullTransactionId.
  rewrite Hold, normal_is_normal by apply Hf.
  destruct (compare_window (value f) o) as (_ & _ & _ & ->); [apply Hf|done|lia|].
  destruct (compare_window (value f) (value (nextXid v))) as (_ & -> & _); [apply Hf|apply Hn|lia|].
  unfold TransactionIdIsValid, InvalidTransactionId.
  destruct Hf as [_ Hf]. rewrite (proj2 (Z.eqb_neq _ _)) by (unfold FirstNormalTransactionId in Hf; lia).
  simpl. rewrite orb_true_iff, Z.geb_le, Z.leb_le. lia.
Qed.

Lemma allowable_range_accepts_witness :
  let v := set_limits 1000 0 0 0 0 0 (set_nextXid (FullXid 2000) VarsupShmemInit) in
  AssertTransactionIdInAllowableRange 500 v = true /\ AssertTransactionIdInAllowableRange 3000 v = true.
Proof.
  split; [apply (allowable_range_accepts (FullXid 500) 1000) | apply (allowable_range_accepts (FullXid 3000) 1000)];
    solve [split; vm_compute; intuition discriminate | vm_compute; discriminate | reflexivity].
Defined.
