(* ===== verification/ItemPtr.v ===== *)
(** * Block numbers and item pointers

    [storage/block.h], [storage/off.h], [storage/itemptr.h] and
    [backend/storage/page/itemptr.c] of [src/postgresql/src]: the six-byte
    pointers to tuples.  The result is that every operation is arithmetic on
    one 48-bit number. *)
From S2P Require Import Prelude.
Local Open Scope Z_scope.

Abbreviation BlockNumber := Z.
Abbreviation OffsetNumber := Z.

Definition BLCKSZ : Z := 8192.
Definition InvalidBlockNumber : BlockNumber := 0xFFFFFFFF.
Definition MaxBlockNumber : BlockNumber := 0xFFFFFFFE.
Definition InvalidOffsetNumber : OffsetNumber := 0.
Definition FirstOffsetNumber : OffsetNumber := 1.
Definition MaxOffsetNumber : OffsetNumber := BLCKSZ / 4.
Definition OffsetNumberIsValid (o : OffsetNumber) : bool := negb (o =? InvalidOffsetNumber) && (o <=? MaxOffsetNumber).
Definition PG_UINT16_MAX : Z := 0xFFFF.

Definition OffsetNumberNext (o : OffsetNumber) : OffsetNumber := u16 (1 + o).
Definition OffsetNumberPrev (o : OffsetNumber) : OffsetNumber := u16 (-1 + o).

Record BlockIdData := { bi_hi : Z; bi_lo : Z }.
Record ItemPointerData := { ip_blkid : BlockIdData; ip_posid : OffsetNumber }.

#[export] Instance BlockIdData_eq_dec : EqDecision BlockIdData.
Proof. solve_decision. Defined.
#[export] Instance ItemPointerData_eq_dec : EqDecision ItemPointerData.
Proof. solve_decision. Defined.

Definition BlockNumberIsValid (b : BlockNumber) : bool := negb (b =? InvalidBlockNumber).
Definition BlockIdSet (b : BlockNumber) : BlockIdData :=
  {| bi_hi := u16 (Z.shiftr b 16); bi_lo := u16 (Z.land b 0xffff) |}.
Definition BlockIdEquals (a b : BlockIdData) : bool := (bi_hi a =? bi_hi b) && (bi_lo a =? bi_lo b).
Definition BlockIdGetBlockNumber (b : BlockIdData) : BlockNumber :=
  Z.lor (u32 (Z.shiftl (bi_hi b) 16)) (bi_lo b).

Definition SpecTokenOffsetNumber : OffsetNumber := 0xfffe.
Definition MovedPartitionsOffsetNumber : OffsetNumber := 0xfffd.
Definition MovedPartitionsBlockNumber : BlockNumber := InvalidBlockNumber.

(** The pointer argument is never NULL here. *)
Definition ItemPointerIsValid (p : ItemPointerData) : bool := negb (ip_posid p =? 0).
Definition ItemPointerGetBlockNumberNoCheck (p : ItemPointerData) : BlockNumber :=
  BlockIdGetBlockNumber (ip_blkid p).
Definition ItemPointerGetBlockNumber (p : ItemPointerData) : BlockNumber :=
  ItemPointerGetBlockNumberNoCheck p.
Definition ItemPointerGetOffsetNumberNoCheck (p : ItemPointerData) : OffsetNumber := ip_posid p.
Definition ItemPointerGetOffsetNumber (p : ItemPointerData) : OffsetNumber :=
  ItemPointerGetOffsetNumberNoCheck p.
Definition ItemPointerSet (b : BlockNumber) (o : OffsetNumber) : ItemPointerData :=
  {| ip_blkid := BlockIdSet b; ip_posid := o |}.
Definition ItemPointerSetBlockNumber (p : ItemPointerData) (b : BlockNumber) : ItemPointerData :=
  {| ip_blkid := BlockIdSet b; ip_posid := ip_posid p |}.
Definition ItemPointerSetOffsetNumber (p : ItemPointerData) (o : OffsetNumber) : ItemPointerData :=
  {| ip_blkid := ip_blkid p; ip_posid := o |}.
Definition ItemPointerSetInvalid : ItemPointerData :=
  {| ip_blkid := BlockIdSet InvalidBlockNumber; ip_posid := InvalidOffsetNumber |}.
Definition ItemPointerIndicatesMovedPartitions (p : ItemPointerData) : bool :=
  (ItemPointerGetOffsetNumber p =? MovedPartitionsOffsetNumber) &&
  (ItemPointerGetBlockNumberNoCheck p =? MovedPartitionsBlockNumber).
Definition ItemPointerSetMovedPartitions : ItemPointerData :=
  ItemPointerSet MovedPartitionsBlockNumber MovedPartitionsOffsetNumber.

(** ** [itemptr.c] *)

Definition ItemPointerEquals (p1 p2 : ItemPointerData) : bool :=
  if (ItemPointerGetBlockNumber p1 =? ItemPointerGetBlockNumber p2) &&
     (ItemPointerGetOffsetNumber p1 =? ItemPointerGetOffsetNumber p2)
  then true else false.

Definition ItemPointerCompare (arg1 arg2 : ItemPointerData) : Z :=
  let b1 := ItemPointerGetBlockNumberNoCheck arg1 in
  let b2 := ItemPointerGetBlockNumberNoCheck arg2 in
  if b1 <? b2 then -1
  else if b1 >? b2 then 1
  else if ItemPointerGetOffsetNumberNoCheck arg1 <? ItemPointerGetOffsetNumberNoCheck arg2 then -1
  else if ItemPointerGetOffsetNumberNoCheck arg1 >? ItemPointerGetOffsetNumberNoCheck arg2 then 1
  else 0.

Definition ItemPointerInc (p : ItemPointerData) : ItemPointerData :=
  let blk := ItemPointerGetBlockNumberNoCheck p in
  let off := ItemPointerGetOffsetNumberNoCheck p in
  if off =? PG_UINT16_MAX then
    if negb (blk =? InvalidBlockNumber) then ItemPointerSet (u32 (blk + 1)) 0
    else ItemPointerSet blk off
  else ItemPointerSet blk (u16 (off + 1)).

Definition ItemPointerDec (p : ItemPointerData) : ItemPointerData :=
  let blk := ItemPointerGetBlockNumberNoCheck p in
  let off := ItemPointerGetOffsetNumberNoCheck p in
  if off =? 0 then
    if negb (blk =? 0) then ItemPointerSet (u32 (blk - 1)) PG_UINT16_MAX
    else ItemPointerSet blk off
  else ItemPointerSet blk (u16 (off - 1)).

(** ** Item pointers as 48-bit numbers *)

(** The three fields are [uint16]. *)
Definition itemptr_ok (p : ItemPointerData) : Prop :=
  0 <= bi_hi (ip_blkid p) < 2 ^ 16 /\ 0 <= bi_lo (ip_blkid p) < 2 ^ 16 /\ 0 <= ip_posid p < 2 ^ 16.

Definition itemptr_val (p : ItemPointerData) : Z :=
  ItemPointerGetBlockNumberNoCheck p * 2 ^ 16 + ip_posid p.

Definition itemptr_of (v : Z) : ItemPointerData := ItemPointerSet (v / 2 ^ 16) (v mod 2 ^ 16).

(** The bits of a sum whose parts do not overlap. *)
Lemma lor_shift_add a b k : 0 <= k -> 0 <= b < 2 ^ k -> Z.lor (Z.shiftl a k) b = a * 2 ^ k + b.
Proof.
  intros Hk Hb. rewrite Z.shiftl_mul_pow2 by lia. rewrite <- Z.add_lor_land.
  enough (Z.land (a * 2 ^ k) b = 0) by lia.
  rewrite <- (Z.mod_small b (2 ^ k)) by lia. apply Z.bits_inj'. intros i Hi.
  rewrite Z.land_spec, Z.testbit_0_l. destruct (Z.ltb_spec i k).
  - by rewrite Z.mul_pow2_bits_low.
  - rewrite Z.mod_pow2_bits_high by lia. apply andb_false_r.
Qed.

Lemma block_number_val b :
  0 <= bi_hi b < 2 ^ 16 -> 0 <= bi_lo b < 2 ^ 16 ->
  BlockIdGetBlockNumber b = bi_hi b * 2 ^ 16 + bi_lo b.
Proof.
  intros Hh Hl. unfold BlockIdGetBlockNumber.
  rewrite u32_small by (rewrite Z.shiftl_mul_pow2 by lia; lia). by apply lor_shift_add.
Qed.

Lemma block_id_set_val b :
  0 <= b < 2 ^ 32 -> bi_hi (BlockIdSet b) = b / 2 ^ 16 /\ bi_lo (BlockIdSet b) = b mod 2 ^ 16.
Proof.
  intros Hb. simpl. change 0xffff with (Z.ones 16).
  rewrite Z.shiftr_div_pow2, Z.land_ones by lia. unfold u16, wrap. split.
  - apply Z.mod_small. Z.div_mod_to_equations. lia.
  - apply Zmod_mod.
Qed.

Lemma block_id_roundtrip b : 0 <= b < 2 ^ 32 -> BlockIdGetBlockNumber (BlockIdSet b) = b.
Proof.
  intros Hb. destruct (block_id_set_val b Hb) as [Hh Hl].
  rewrite block_number_val; rewrite ?Hh, ?Hl; Z.div_mod_to_equations; lia.
Qed.

Lemma itemptr_set_ok b o : 0 <= b < 2 ^ 32 -> 0 <= o < 2 ^ 16 -> itemptr_ok (ItemPointerSet b o).
Proof.
  intros Hb Ho. destruct (block_id_set_val b Hb) as [Hh Hl].
  unfold itemptr_ok, ItemPointerSet. cbn [ip_blkid ip_posid]. rewrite Hh, Hl. Z.div_mod_to_equations. lia.
Qed.

Lemma block_number_range p : itemptr_ok p -> 0 <= ItemPointerGetBlockNumberNoCheck p < 2 ^ 32.
Proof.
  intros (Hh & Hl & _). unfold ItemPointerGetBlockNumberNoCheck. rewrite block_number_val by done. lia.
Qed.

Lemma itemptr_set_get p :
  itemptr_ok p -> ItemPointerSet (ItemPointerGetBlockNumberNoCheck p) (ip_posid p) = p.
Proof.
  destruct p as [[h l] o]. intros (Hh & Hl & Ho). unfold ItemPointerSet. simpl in *. f_equal.
  pose proof (block_number_range {| ip_blkid := {| bi_hi := h; bi_lo := l |}; ip_posid := o |}) as Hr.
  unfold ItemPointerGetBlockNumberNoCheck in *. simpl in *.
  rewrite block_number_val in * by done. simpl in *.
  destruct (block_id_set_val (h * 2 ^ 16 + l)) as [H1 H2]; [apply Hr; done|].
  destruct (BlockIdSet _) as [h' l']. simpl in *. subst. f_equal; Z.div_mod_to_equations; lia.
Qed.

Lemma itemptr_val_set b o :
  0 <= b < 2 ^ 32 -> itemptr_val (ItemPointerSet b o) = b * 2 ^ 16 + o.
Proof. intros Hb. unfold itemptr_val, ItemPointerGetBlockNumberNoCheck. simpl. by rewrite block_id_roundtrip. Qed.

Lemma itemptr_inc_val p :
  itemptr_ok p ->
  itemptr_ok (ItemPointerInc p) /\ itemptr_val (ItemPointerInc p) = Z.min (itemptr_val p + 1) (2 ^ 48 - 1).
Proof.
  intros Hp. pose proof (block_number_range p Hp). destruct Hp as (_ & _ & Ho).
  unfold ItemPointerInc, ItemPointerGetOffsetNumberNoCheck, PG_UINT16_MAX, InvalidBlockNumber.
  unfold itemptr_val at 2. set (b := ItemPointerGetBlockNumberNoCheck p) in *.
  destruct (Z.eqb_spec (ip_posid p) 0xFFFF) as [E|E].
  - destruct (Z.eqb_spec b 0xFFFFFFFF); simpl negb; cbv iota.
    + rewrite itemptr_val_set by lia. split; [apply itemptr_set_ok|]; lia.
    + rewrite u32_small, itemptr_val_set by lia. split; [apply itemptr_set_ok|]; lia.
  - unfold u16, wrap. rewrite Z.mod_small, itemptr_val_set by lia. split; [apply itemptr_set_ok|]; lia.
Qed.

Lemma itemptr_dec_val p :
  itemptr_ok p ->
  itemptr_ok (ItemPointerDec p) /\ itemptr_val (ItemPointerDec p) = Z.max (itemptr_val p - 1) 0.
Proof.
  intros Hp. pose proof (block_number_range p Hp). destruct Hp as (_ & _ & Ho).
  unfold ItemPointerDec, ItemPointerGetOffsetNumberNoCheck, PG_UINT16_MAX.
  unfold itemptr_val at 2. set (b := ItemPointerGetBlockNumberNoCheck p) in *.
  destruct (Z.eqb_spec (ip_posid p) 0) as [E|E].
  - destruct (Z.eqb_spec b 0); simpl negb; cbv iota.
    + rewrite itemptr_val_set by lia. split; [apply itemptr_set_ok|]; lia.
    + rewrite u32_small, itemptr_val_set by lia. split; [apply itemptr_set_ok|]; lia.
  - unfold u16, wrap. rewrite Z.mod_small, itemptr_val_set by lia. split; [apply itemptr_set_ok|]; lia.
Qed.

Lemma itemptr_of_val p : itemptr_ok p -> itemptr_of (itemptr_val p) = p.
Proof.
  intros Hp. pose proof Hp as (_ & _ & Ho). transitivity (ItemPointerSet (ItemPointerGetBlockNumberNoCheck p) (ip_posid p));
    [|by apply itemptr_set_get].
  unfold itemptr_of, itemptr_val. f_equal; Z.div_mod_to_equations; lia.
Qed.

Lemma itemptr_equals_spec p q :
  itemptr_ok p -> itemptr_ok q -> ItemPointerEquals p q = bool_decide (p = q).
Proof.
  intros Hp Hq. unfold ItemPointerEquals, ItemPointerGetBlockNumber, ItemPointerGetOffsetNumber,
    ItemPointerGetOffsetNumberNoCheck.
  case_bool_decide as E; [subst q; by rewrite !Z.eqb_refl|].
  destruct (_ && _) eqn:Hc; [|done]. b2p. destruct E.
  rewrite <- (itemptr_set_get p), <- (itemptr_set_get q) by done. congruence.
Qed.

Lemma itemptr_compare_spec p q :
  itemptr_ok p -> itemptr_ok q ->
  ItemPointerCompare p q = match itemptr_val p ?= itemptr_val q with Lt => -1 | Eq => 0 | Gt => 1 end.
Proof.
  intros (_ & _ & Hop) (_ & _ & Hoq). unfold ItemPointerCompare, ItemPointerGetOffsetNumberNoCheck, itemptr_val.
  rewrite !Z.gtb_ltb. destruct (Z.compare_spec
    (ItemPointerGetBlockNumberNoCheck p * 2 ^ 16 + ip_posid p) (ItemPointerGetBlockNumberNoCheck q * 2 ^ 16 + ip_posid q));
  repeat match goal with |- context [?x <? ?y] => destruct (Z.ltb_spec x y) end; lia.
Qed.

(** Item pointers are 48-bit numbers.  [itemptr_val] and [itemptr_of] are
    inverse bijections between well-formed item pointers and [0, 2^48);
    [ItemPointerEquals] and [ItemPointerCompare] compare the numbers, and
    [ItemPointerInc] and [ItemPointerDec] step to the next and previous number,
    stopping at the ends of the range. *)
Theorem itemptr_arithmetic (p q : ItemPointerData) (v : Z) :
  itemptr_ok p -> itemptr_ok q -> 0 <= v < 2 ^ 48 ->
  (itemptr_ok (itemptr_of v) /\ itemptr_val (itemptr_of v) = v) /\
  itemptr_of (itemptr_val p) = p /\
  ItemPointerEquals p q = bool_decide (p = q) /\
  ItemPointerCompare p q =
    match itemptr_val p ?= itemptr_val q with Lt => -1 | Eq => 0 | Gt => 1 end /\
  (itemptr_ok (ItemPointerInc p) /\ itemptr_val (ItemPointerInc p) = Z.min (itemptr_val p + 1) (2 ^ 48 - 1)) /\
  (itemptr_ok (ItemPointerDec p) /\ itemptr_val (ItemPointerDec p) = Z.max (itemptr_val p - 1) 0).
Proof.
  intros Hp Hq Hv. split.
  { unfold itemptr_of. rewrite itemptr_val_set by (Z.div_mod_to_equations; lia).
    split; [apply itemptr_set_ok|]; Z.div_mod_to_equations; lia. }
  split; [by apply itemptr_of_val|]. split; [by apply itemptr_equals_spec|].
  split; [by apply itemptr_compare_spec|]. split; [by apply itemptr_inc_val|by apply itemptr_dec_val].
Qed.

Lemma itemptr_arithmetic_witness :
  let p := {| ip_blkid := {| bi_hi := 1; bi_lo := 0xFFFF |}; ip_posid := 0xFFFF |} in
  itemptr_val (ItemPointerInc p) = Z.min (itemptr_val p + 1) (2 ^ 48 - 1).
Proof.
  apply (itemptr_arithmetic {| ip_blkid := {| bi_hi := 1; bi_lo := 0xFFFF |}; ip_posid := 0xFFFF |}
    {| ip_blkid := {| bi_hi := 1; bi_lo := 0xFFFF |}; ip_posid := 0xFFFF |} 0);
    vm_compute; intuition discriminate.
Defined.
