(* ===== verification/Bytes.v ===== *)
(** * Bytes

    A buffer is a list of bytes; the functions here read and write a part of it, and the numbers in it, which
    are stored with the lowest byte first. *)
From S2P Require Import Prelude.
Local Open Scope Z_scope.

Abbreviation bytes := (list Z).

Definition len (l : bytes) : Z := Z.of_nat (length l).
Definition peek (i : Z) (l : bytes) : Z := default 0 (l !! Z.to_nat i).
Definition slice (off n : Z) (l : bytes) : bytes := take (Z.to_nat n) (drop (Z.to_nat off) l).
Definition blit (off : Z) (bs l : bytes) : bytes := take (Z.to_nat off) l ++ bs ++ drop (Z.to_nat off + length bs) l.

Definition is_byte (b : Z) : Prop := 0 <= b < 256.

(** Numbers of [n] bytes. *)
Fixpoint le (bs : bytes) : Z := match bs with [] => 0 | b :: bs => b + 256 * le bs end.
Fixpoint to_le (n : nat) (v : Z) : bytes := match n with O => [] | S n => v mod 256 :: to_le n (v / 256) end.

Definition get (n : nat) (off : Z) (l : bytes) : Z := le (slice off (Z.of_nat n) l).
Definition put (n : nat) (off v : Z) (l : bytes) : bytes := blit off (to_le n v) l.

(** ** Parts of a buffer *)

Lemma len_nonneg l : 0 <= len l.
Proof. unfold len. lia. Qed.
#[export] Hint Resolve len_nonneg : epi.

Lemma len_app l k : len (l ++ k) = len l + len k.
Proof. unfold len. rewrite length_app. lia. Qed.

Lemma len_slice off n l : 0 <= off -> 0 <= n -> off + n <= len l -> len (slice off n l) = n.
Proof. unfold len, slice. intros. rewrite length_take, length_drop. lia. Qed.

Lemma len_blit off bs l : 0 <= off -> off + len bs <= len l -> len (blit off bs l) = len l.
Proof. unfold len, blit. intros. rewrite !length_app, length_take, length_drop. lia. Qed.

Lemma peek_slice i off n l : 0 <= off -> 0 <= i < n -> peek i (slice off n l) = peek (off + i) l.
Proof.
  intros Ho Hi. unfold peek, slice. rewrite lookup_take_lt by lia. rewrite lookup_drop. do 2 f_equal. lia.
Qed.

Lemma peek_blit i off bs l :
  0 <= off -> 0 <= i -> off + len bs <= len l ->
  peek i (blit off bs l) = if decide (off <= i < off + len bs) then peek (i - off) bs else peek i l.
Proof.
  unfold peek, blit, len. intros Ho Hi Hl. case_decide as Hd.
  - rewrite lookup_app_r, length_take by (rewrite length_take; lia). rewrite lookup_app_l by lia. do 2 f_equal. lia.
  - destruct (decide (i < off)).
    + rewrite lookup_app_l by (rewrite length_take; lia). by rewrite lookup_take_lt by lia.
    + rewrite lookup_app_r, length_take by (rewrite length_take; lia). rewrite lookup_app_r by lia. rewrite lookup_drop. do 2 f_equal. lia.
Qed.

Lemma bytes_ext l k : len l = len k -> (forall i, 0 <= i < len l -> peek i l = peek i k) -> l = k.
Proof.
  unfold len. intros Hl H. apply list_eq_same_length with (length l); [lia|done|]. intros i x y Hi Hx Hy.
  specialize (H (Z.of_nat i) ltac:(lia)). unfold peek in H. rewrite Nat2Z.id in H. by rewrite Hx, Hy in H.
Qed.

(** Two parts are the same when their bytes are. *)
Lemma slice_ext o o' n l l' :
  0 <= o -> 0 <= o' -> 0 <= n -> o + n <= len l -> o' + n <= len l' ->
  (forall k, 0 <= k < n -> peek (o + k) l = peek (o' + k) l') <-> slice o n l = slice o' n l'.
Proof.
  intros. split.
  - intros Hk. apply bytes_ext; rewrite !len_slice by lia; [done|]. intros i Hi. rewrite !peek_slice by lia. by apply Hk.
  - intros E k Hk. apply (f_equal (peek k)) in E. by rewrite !peek_slice in E by lia.
Qed.

Lemma slice_blit_out o n off bs l :
  0 <= o -> 0 <= n -> 0 <= off -> o + n <= len l -> off + len bs <= len l -> o + n <= off \/ off + len bs <= o ->
  slice o n (blit off bs l) = slice o n l.
Proof.
  intros Ho Hn Hf Hl Hb Hd. apply slice_ext; rewrite ?len_blit by lia; try lia. intros k Hk. rewrite peek_blit by lia. by rewrite decide_False by lia.
Qed.

Lemma slice_blit_in o n off bs l :
  0 <= off <= o -> 0 <= n -> off + len bs <= len l -> o + n <= off + len bs ->
  slice o n (blit off bs l) = slice (o - off) n bs.
Proof.
  intros Ho Hn Hb Hd. apply slice_ext; rewrite ?len_blit by lia; try lia. intros k Hk. rewrite peek_blit by lia. rewrite decide_True by lia.
  f_equal. lia.
Qed.

Lemma slice_all l : slice 0 (len l) l = l.
Proof. unfold slice, len. rewrite Nat2Z.id. by rewrite firstn_all. Qed.

Lemma slice_blit_same off bs l : 0 <= off -> off + len bs <= len l -> slice off (len bs) (blit off bs l) = bs.
Proof. intros. rewrite slice_blit_in by (auto with epi || lia). rewrite Z.sub_diag. apply slice_all. Qed.

Lemma slice_slice o n a m l : 0 <= o -> 0 <= a -> 0 <= n -> o + n <= m -> a + m <= len l -> slice o n (slice a m l) = slice (a + o) n l.
Proof.
  intros. apply slice_ext; rewrite ?len_slice by lia; try lia. intros k Hk. rewrite peek_slice by lia. f_equal. lia.
Qed.

Lemma slice_0 o l : slice o 0 l = [].
Proof. done. Qed.

(** ** Bytes and numbers *)

Lemma Forall_slice P o n l : Forall P l -> Forall P (slice o n l).
Proof. intros H. by apply Forall_take, Forall_drop. Qed.

Lemma Forall_blit P off bs l : Forall P l -> Forall P bs -> Forall P (blit off bs l).
Proof. intros Hl Hb. apply Forall_app. split; [by apply Forall_take|]. apply Forall_app. split; [done|by apply Forall_drop]. Qed.

Lemma len_to_le n v : len (to_le n v) = Z.of_nat n.
Proof. unfold len. f_equal. revert v. induction n as [|n IH]; intros v; [done|]. simpl. by rewrite IH. Qed.

Lemma to_le_bytes n v : Forall is_byte (to_le n v).
Proof. revert v. induction n as [|n IH]; intros v; constructor; [|apply IH]. apply Z.mod_pos_bound. lia. Qed.

Lemma le_to_le n v : le (to_le n v) = v mod 256 ^ Z.of_nat n.
Proof.
  revert v. induction n as [|n IH]; intros v; [by rewrite Z.mod_1_r|]. cbn [to_le le]. rewrite IH.
  rewrite Nat2Z.inj_succ, Z.pow_succ_r by lia. rewrite Z.rem_mul_r by lia. done.
Qed.

Lemma le_range bs : Forall is_byte bs -> 0 <= le bs < 256 ^ len bs.
Proof.
  unfold len. induction 1 as [|b bs Hb _ IH]; [simpl; lia|]. cbn [le length]. rewrite Nat2Z.inj_succ, Z.pow_succ_r by lia. unfold is_byte in Hb. lia.
Qed.

Lemma to_le_le bs : Forall is_byte bs -> to_le (length bs) (le bs) = bs.
Proof.
  induction 1 as [|b bs Hb _ IH]; [done|]. cbn [length le to_le]. unfold is_byte in Hb.
  replace (b + 256 * le bs) with (b + le bs * 256) by lia. rewrite Z.mod_add, Z.mod_small by lia. rewrite Z.div_add, Z.div_small by lia.
  by rewrite Z.add_0_l, IH.
Qed.

Lemma get_put_same n off v l : 0 <= off -> off + Z.of_nat n <= len l -> get n off (put n off v l) = v mod 256 ^ Z.of_nat n.
Proof.
  intros Ho Hl. unfold get, put. pose proof (len_to_le n v) as E. rewrite <- E at 1. rewrite slice_blit_same by lia. apply le_to_le.
Qed.

Lemma get_blit_out n o off bs l :
  0 <= o -> 0 <= off -> o + Z.of_nat n <= len l -> off + len bs <= len l -> o + Z.of_nat n <= off \/ off + len bs <= o ->
  get n o (blit off bs l) = get n o l.
Proof. intros. unfold get. by rewrite slice_blit_out by lia. Qed.

Lemma get_put_out n m o off v l :
  0 <= o -> 0 <= off -> o + Z.of_nat n <= len l -> off + Z.of_nat m <= len l -> o + Z.of_nat n <= off \/ off + Z.of_nat m <= o ->
  get n o (put m off v l) = get n o l.
Proof. intros. apply get_blit_out; rewrite ?len_to_le; lia. Qed.

Lemma len_put n off v l : 0 <= off -> off + Z.of_nat n <= len l -> len (put n off v l) = len l.
Proof. intros. apply len_blit; [done|]. rewrite len_to_le. lia. Qed.

Lemma get_range n off l : 0 <= off -> off + Z.of_nat n <= len l -> Forall is_byte l -> 0 <= get n off l < 256 ^ Z.of_nat n.
Proof.
  intros Ho Hl Hb. unfold get. pose proof (le_range _ (Forall_slice is_byte off (Z.of_nat n) l Hb)) as H. rewrite len_slice in H by lia. done.
Qed.

(** A number is put back where it came from. *)
Lemma put_get n off l : 0 <= off -> off + Z.of_nat n <= len l -> Forall is_byte l -> put n off (get n off l) l = l.
Proof.
  intros Ho Hl Hb. unfold put, get. assert (E : length (slice off (Z.of_nat n) l) = n).
  { pose proof (len_slice off (Z.of_nat n) l ltac:(lia) ltac:(lia) ltac:(lia)) as H. unfold len in H. lia. }
  rewrite <- E at 1. rewrite to_le_le by (by apply Forall_slice). apply bytes_ext; rewrite len_blit by (rewrite ?len_slice; lia); [done|].
  intros i Hi. rewrite peek_blit by (rewrite ?len_slice; lia). case_decide as Hd; [|done]. rewrite len_slice in Hd by lia.
  rewrite peek_slice by lia. f_equal. lia.
Qed.
