(* ===== verification/Page.v ===== *)
(** * Pages

    [storage/itemid.h], [storage/bufpage.h] and [backend/storage/page/bufpage.c] of [src/postgresql/src]: a page of a
    table or an index is a buffer of [BLCKSZ] bytes with a header, an array of line pointers that grows upwards
    from the header, items that are placed downwards from the special space at the end, and free
    space between them.  The fields lie where the C compilers for 64-bit little-endian machines put them.

    A copy that would leave the buffer is undefined behaviour; reports of corruption are errors. *)
From S2P Require Import Prelude TransactionId ItemPtr Bytes.
Local Open Scope Z_scope.

(** ** Outcomes *)

Inductive outcome (A : Type) :=
| Done (a : A)
| Error
| Panic
| Undefined.
Arguments Done {A} a.
Arguments Error {A}.
Arguments Panic {A}.
Arguments Undefined {A}.

Definition obind {A B} (c : outcome A) (k : A -> outcome B) : outcome B :=
  match c with Done a => k a | Error => Error | Panic => Panic | Undefined => Undefined end.
Notation "'do' x <- c ; k" := (obind c (fun x => k)) (at level 200, x pattern, c at level 100, k at level 200, right associativity).

Definition MAXALIGN (x : Z) : Z := Z.land (u64 (x + 7)) (Z.lnot 7).

(** [memmove] and [memcpy] inside the buffer; the source of a copy may be another buffer. *)
Definition memcpy (dst : Z) (bs : bytes) (p : bytes) : outcome bytes :=
  if (0 <=? dst) && (dst + len bs <=? len p) then Done (blit dst bs p) else Undefined.
Definition memread (src n : Z) (p : bytes) : outcome bytes :=
  if (0 <=? src) && (0 <=? n) && (src + n <=? len p) then Done (slice src n p) else Undefined.
Definition memmove (dst src n : Z) (p : bytes) : outcome bytes := do bs <- memread src n p; memcpy dst bs p.

(** ** Line pointers *)

Record ItemIdData := { lp_off : Z; lp_flags : Z; lp_len : Z }.

Definition LP_UNUSED : Z := 0.
Definition LP_NORMAL : Z := 1.
Definition LP_REDIRECT : Z := 2.
Definition LP_DEAD : Z := 3.

(** The bit fields of 15, 2 and 15 bits. *)
Definition decode_lp (w : Z) : ItemIdData :=
  {| lp_off := w mod 2 ^ 15; lp_flags := (w / 2 ^ 15) mod 2 ^ 2; lp_len := (w / 2 ^ 17) mod 2 ^ 15 |}.
Definition encode_lp (i : ItemIdData) : Z :=
  wrap 15 (lp_off i) + 2 ^ 15 * wrap 2 (lp_flags i) + 2 ^ 17 * wrap 15 (lp_len i).

Definition ItemIdIsUsed (i : ItemIdData) : bool := negb (lp_flags i =? LP_UNUSED).
Definition ItemIdIsNormal (i : ItemIdData) : bool := lp_flags i =? LP_NORMAL.
Definition ItemIdIsRedirected (i : ItemIdData) : bool := lp_flags i =? LP_REDIRECT.
Definition ItemIdIsDead (i : ItemIdData) : bool := lp_flags i =? LP_DEAD.
Definition ItemIdHasStorage (i : ItemIdData) : bool := negb (lp_len i =? 0).
Definition ItemIdSetUnused : ItemIdData := {| lp_off := 0; lp_flags := LP_UNUSED; lp_len := 0 |}.
Definition ItemIdSetNormal (off len : Z) : ItemIdData := {| lp_off := off; lp_flags := LP_NORMAL; lp_len := len |}.
Definition ItemIdSetRedirect (link : Z) : ItemIdData := {| lp_off := link; lp_flags := LP_REDIRECT; lp_len := 0 |}.
Definition ItemIdSetDead : ItemIdData := {| lp_off := 0; lp_flags := LP_DEAD; lp_len := 0 |}.
Definition ItemIdMarkDead (i : ItemIdData) : ItemIdData := {| lp_off := lp_off i; lp_flags := LP_DEAD; lp_len := lp_len i |}.
Definition set_lp_off (off : Z) (i : ItemIdData) : ItemIdData := {| lp_off := off; lp_flags := lp_flags i; lp_len := lp_len i |}.

(** ** The header *)

Definition SizeOfPageHeaderData : Z := 24.
Definition SizeOfItemIdData : Z := 4.

Definition pd_checksum (p : bytes) : Z := get 2 8 p.
Definition pd_flags (p : bytes) : Z := get 2 10 p.
Definition pd_lower (p : bytes) : Z := get 2 12 p.
Definition pd_upper (p : bytes) : Z := get 2 14 p.
Definition pd_special (p : bytes) : Z := get 2 16 p.
Definition pd_pagesize_version (p : bytes) : Z := get 2 18 p.
Definition pd_prune_xid (p : bytes) : TransactionId := get 4 20 p.

Definition set_pd_checksum (v : Z) (p : bytes) : bytes := put 2 8 v p.
Definition set_pd_flags (v : Z) (p : bytes) : bytes := put 2 10 v p.
Definition set_pd_lower (v : Z) (p : bytes) : bytes := put 2 12 v p.
Definition set_pd_upper (v : Z) (p : bytes) : bytes := put 2 14 v p.
Definition set_pd_special (v : Z) (p : bytes) : bytes := put 2 16 v p.
Definition set_pd_pagesize_version (v : Z) (p : bytes) : bytes := put 2 18 v p.
Definition set_pd_prune_xid (v : TransactionId) (p : bytes) : bytes := put 4 20 v p.

Definition PD_HAS_FREE_LINES : Z := 1.
Definition PD_PAGE_FULL : Z := 2.
Definition PD_ALL_VISIBLE : Z := 4.
Definition PD_VALID_FLAG_BITS : Z := 7.
Definition PG_PAGE_LAYOUT_VERSION : Z := 4.

Definition PageIsEmpty (p : bytes) : bool := pd_lower p <=? SizeOfPageHeaderData.
Definition PageIsNew (p : bytes) : bool := pd_upper p =? 0.

(** The address of a line pointer; reading and writing one. *)
Definition lp_addr (off : OffsetNumber) : Z := SizeOfPageHeaderData + SizeOfItemIdData * (off - 1).
Definition PageGetItemId (off : OffsetNumber) (p : bytes) : ItemIdData := decode_lp (get 4 (lp_addr off) p).
Definition put_lp (off : OffsetNumber) (i : ItemIdData) (p : bytes) : bytes := put 4 (lp_addr off) (encode_lp i) p.

Definition PageGetPageSize (p : bytes) : Z := Z.land (pd_pagesize_version p) 0xFF00.
Definition PageSetPageSizeAndVersion (size version : Z) (p : bytes) : bytes := set_pd_pagesize_version (Z.lor size version) p.
Definition PageGetSpecialSize (p : bytes) : Z := u16 (PageGetPageSize p - pd_special p).
Definition PageGetItem (i : ItemIdData) (p : bytes) : bytes := slice (lp_off i) (lp_len i) p.

Definition PageGetMaxOffsetNumber (p : bytes) : OffsetNumber :=
  if pd_lower p <=? SizeOfPageHeaderData then 0 else (pd_lower p - SizeOfPageHeaderData) / SizeOfItemIdData.

Definition PageHasFreeLinePointers (p : bytes) : bool := tst (pd_flags p) PD_HAS_FREE_LINES.
Definition PageSetHasFreeLinePointers (p : bytes) : bytes := set_pd_flags (Z.lor (pd_flags p) PD_HAS_FREE_LINES) p.
Definition PageClearHasFreeLinePointers (p : bytes) : bytes := set_pd_flags (Z.land (pd_flags p) (Z.lnot PD_HAS_FREE_LINES)) p.
Definition PageIsFull (p : bytes) : bool := tst (pd_flags p) PD_PAGE_FULL.
Definition PageSetFull (p : bytes) : bytes := set_pd_flags (Z.lor (pd_flags p) PD_PAGE_FULL) p.
Definition PageClearFull (p : bytes) : bytes := set_pd_flags (Z.land (pd_flags p) (Z.lnot PD_PAGE_FULL)) p.
Definition PageIsAllVisible (p : bytes) : bool := tst (pd_flags p) PD_ALL_VISIBLE.
Definition PageSetAllVisible (p : bytes) : bytes := set_pd_flags (Z.lor (pd_flags p) PD_ALL_VISIBLE) p.
Definition PageClearAllVisible (p : bytes) : bytes := set_pd_flags (Z.land (pd_flags p) (Z.lnot PD_ALL_VISIBLE)) p.
Definition PageSetPrunable (xid : TransactionId) (p : bytes) : bytes :=
  if negb (TransactionIdIsValid (pd_prune_xid p)) || TransactionIdPrecedes xid (pd_prune_xid p) then set_pd_prune_xid xid p else p.
Definition PageClearPrunable (p : bytes) : bytes := set_pd_prune_xid InvalidTransactionId p.

Definition PAI_OVERWRITE : Z := 1.
Definition PAI_IS_HEAP : Z := 2.
Definition MaxHeapTuplesPerPage : Z := (BLCKSZ - SizeOfPageHeaderData) / (MAXALIGN 23 + SizeOfItemIdData).
Definition MaxIndexTuplesPerPage : Z := (BLCKSZ - SizeOfPageHeaderData) / (MAXALIGN (8 + 1) + SizeOfItemIdData).

(** ** [bufpage.c] *)

Definition PageInit (specialSize : Z) : bytes :=
  let specialSize := MAXALIGN specialSize in
  let p := replicate (Z.to_nat BLCKSZ) 0 in
  let p := set_pd_flags 0 p in
  let p := set_pd_lower SizeOfPageHeaderData p in
  let p := set_pd_upper (BLCKSZ - specialSize) p in
  let p := set_pd_special (BLCKSZ - specialSize) p in
  PageSetPageSizeAndVersion BLCKSZ PG_PAGE_LAYOUT_VERSION p.

(** The test of the header that the functions begin with; the stricter one also wants the special space aligned. *)
Definition corrupted_pointers (p : bytes) : bool :=
  (pd_lower p <? SizeOfPageHeaderData) || (pd_lower p >? pd_upper p) || (pd_upper p >? pd_special p) || (pd_special p >? BLCKSZ).
Definition corrupted_page (p : bytes) : bool := corrupted_pointers p || negb (pd_special p =? MAXALIGN (pd_special p)).

(** The search for an unused line pointer from [off] on. *)
Fixpoint find_unused (fuel : nat) (off limit : OffsetNumber) (p : bytes) : OffsetNumber :=
  match fuel with
  | O => off
  | S fuel =>
      if off <? limit then
        let i := PageGetItemId off p in
        if negb (ItemIdIsUsed i) && negb (ItemIdHasStorage i) then off else find_unused fuel (off + 1) limit p
      else off
  end.

(** The line pointer for a new item, whether others must make room for it, and the page with its hint reset if it was wrong;
    [None] when the one asked for is in use. *)
Definition select_offset (offsetNumber limit : OffsetNumber) (flags : Z) (p : bytes) : option (OffsetNumber * bool * bytes) :=
  if OffsetNumberIsValid offsetNumber then
    if tst flags PAI_OVERWRITE then
      let i := PageGetItemId offsetNumber p in
      if (offsetNumber <? limit) && (ItemIdIsUsed i || ItemIdHasStorage i) then None else Some (offsetNumber, false, p)
    else Some (offsetNumber, offsetNumber <? limit, p)
  else if PageHasFreeLinePointers p then
    let off := find_unused (Z.to_nat limit) FirstOffsetNumber limit p in
    Some (off, false, if off >=? limit then PageClearHasFreeLinePointers p else p)
  else Some (limit, false, p).

Definition PageAddItemExtended (item : bytes) (offsetNumber : OffsetNumber) (flags : Z) (p : bytes) : outcome (OffsetNumber * bytes) :=
  if corrupted_pointers p then Panic
  else
    let limit := OffsetNumberNext (PageGetMaxOffsetNumber p) in
    match select_offset offsetNumber limit flags p with
    | None => Done (InvalidOffsetNumber, p)
    | Some (off, needshuffle, p) =>
        if off >? limit then Done (InvalidOffsetNumber, p)
        else if tst flags PAI_IS_HEAP && (off >? MaxHeapTuplesPerPage) then Done (InvalidOffsetNumber, p)
        else
          let lower := if (off =? limit) || needshuffle then pd_lower p + SizeOfItemIdData else pd_lower p in
          let upper := pd_upper p - s32 (MAXALIGN (len item)) in
          if lower >? upper then Done (InvalidOffsetNumber, p)
          else
            do p <- (if needshuffle then memmove (lp_addr (off + 1)) (lp_addr off) ((limit - off) * SizeOfItemIdData) p else Done p);
            let p := put_lp off (ItemIdSetNormal upper (len item)) p in
            do p <- memcpy upper item p;
            Done (off, set_pd_upper upper (set_pd_lower lower p))
    end.

Definition PageGetFreeSpace (p : bytes) : Z :=
  let space := pd_upper p - pd_lower p in
  if space <? SizeOfItemIdData then 0 else space - SizeOfItemIdData.
Definition PageGetFreeSpaceForMultipleTuples (ntups : Z) (p : bytes) : Z :=
  let space := pd_upper p - pd_lower p in
  if space <? s32 (ntups * SizeOfItemIdData) then 0 else u64 (s32 (space - ntups * SizeOfItemIdData)).
Definition PageGetExactFreeSpace (p : bytes) : Z :=
  let space := pd_upper p - pd_lower p in
  if space <? 0 then 0 else space.

(** The loop of [PageGetHeapFreeSpace] that confirms the hint. *)
Definition any_unused (p : bytes) : bool :=
  existsb (fun off => negb (ItemIdIsUsed (PageGetItemId off p))) (seqZ FirstOffsetNumber (PageGetMaxOffsetNumber p)).

Definition PageGetHeapFreeSpace (p : bytes) : Z :=
  let space := PageGetFreeSpace p in
  if (space >? 0) && (PageGetMaxOffsetNumber p >=? MaxHeapTuplesPerPage) then
    if PageHasFreeLinePointers p then if any_unused p then space else 0 else 0
  else space.

(** *** Compaction *)

Record itemIdCompactData := { offsetindex : Z; itemoff : Z; alignedlen : Z }.

Definition item_end (i : itemIdCompactData) : Z := itemoff i + alignedlen i.

(** The loop over the items that are in their place already: the end of the place of the next one, the item the loop stops at, and the
    items from there on. *)
Fixpoint skip_placed (upper : Z) (items : list itemIdCompactData) (last : itemIdCompactData) :
    Z * itemIdCompactData * list itemIdCompactData :=
  match items with
  | [] => (upper, last, [])
  | i :: rest => if negb (upper =? item_end i) then (upper, i, items) else skip_placed (upper - alignedlen i) rest i
  end.

(** The pending bytes from [head] to [tail] go to [upper]; they are in the page itself or in a copy of it. *)
Definition move_pending (scratch : option bytes) (upper head tail : Z) (p : bytes) : outcome bytes :=
  do bs <- memread head (tail - head) (default p scratch); memcpy upper bs p.

(** The loop that places the items; a run of adjacent items is moved as a whole when the next gap comes. *)
Fixpoint compact_loop (scratch : option bytes) (items : list itemIdCompactData) (upper head tail : Z) (p : bytes) :
    outcome (Z * Z * Z * bytes) :=
  match items with
  | [] => Done (upper, head, tail, p)
  | i :: rest =>
      do (tail, p) <- (if negb (head =? item_end i) then do p <- move_pending scratch upper head tail p; Done (item_end i, p) else Done (tail, p));
      let upper := upper - alignedlen i in
      let p := put_lp (offsetindex i + 1) (set_lp_off upper (PageGetItemId (offsetindex i + 1) p)) p in
      compact_loop scratch rest upper (itemoff i) tail p
  end.

Definition compact_from (scratch : option bytes) (items : list itemIdCompactData) (first : itemIdCompactData) (upper : Z) (p : bytes) :
    outcome bytes :=
  do (upper, head, tail, p) <- compact_loop scratch items upper (item_end first) (item_end first) p;
  do p <- move_pending scratch upper head tail p;
  Done (set_pd_upper upper p).

(** The copies of single items. *)
Fixpoint copy_items (items : list itemIdCompactData) (p scratch : bytes) : outcome bytes :=
  match items with
  | [] => Done scratch
  | i :: rest => do bs <- memread (itemoff i) (alignedlen i) p; do scratch <- memcpy (itemoff i) bs scratch; copy_items rest p scratch
  end.

(** The contents of the local buffer are [garbage] at first. *)
Definition compactify_tuples (garbage : bytes) (items : list itemIdCompactData) (p : bytes) (presorted : bool) : outcome bytes :=
  match items with
  | [] => Undefined
  | first :: _ =>
      if presorted then
        let '(upper, i, rest) := skip_placed (pd_special p) items first in
        compact_from None rest i upper p
      else if Z.of_nat (length items) <? PageGetMaxOffsetNumber p / 4 then
        do scratch <- copy_items items p garbage;
        compact_from (Some scratch) items first (pd_special p) p
      else
        let '(upper, i, rest) := skip_placed (pd_special p) items first in
        do bs <- memread (pd_upper p) (upper - pd_upper p) p;
        do scratch <- memcpy (pd_upper p) bs garbage;
        compact_from (Some scratch) rest i upper p
  end.

Record scan := {
  sc_items : list itemIdCompactData;
  sc_last : Z;
  sc_presorted : bool;
  sc_totallen : Z;
  sc_finalused : OffsetNumber;
  sc_nunused : Z
}.

(** An item to keep is noted. *)
Definition keep_item (index off len : Z) (s : scan) : scan := {|
  sc_items := sc_items s ++ [{| offsetindex := index; itemoff := off; alignedlen := MAXALIGN len |}];
  sc_last := if sc_last s >? off then off else sc_last s;
  sc_presorted := if sc_last s >? off then sc_presorted s else false;
  sc_totallen := sc_totallen s + MAXALIGN len;
  sc_finalused := sc_finalused s;
  sc_nunused := sc_nunused s
|}.
Definition used_upto (off : OffsetNumber) (s : scan) : scan := {|
  sc_items := sc_items s; sc_last := sc_last s; sc_presorted := sc_presorted s; sc_totallen := sc_totallen s;
  sc_finalused := off; sc_nunused := sc_nunused s |}.
Definition one_unused (s : scan) : scan := {|
  sc_items := sc_items s; sc_last := sc_last s; sc_presorted := sc_presorted s; sc_totallen := sc_totallen s;
  sc_finalused := sc_finalused s; sc_nunused := sc_nunused s + 1 |}.
Definition start_scan (special : Z) : scan := {|
  sc_items := []; sc_last := special; sc_presorted := true; sc_totallen := 0; sc_finalused := InvalidOffsetNumber; sc_nunused := 0 |}.

(** The scan of [n] line pointers from [off] on; the array for the items has [MaxHeapTuplesPerPage] elements. *)
Fixpoint repair_scan (n : nat) (off : OffsetNumber) (upper special : Z) (s : scan) (p : bytes) : outcome (scan * bytes) :=
  match n with
  | O => Done (s, p)
  | S n =>
      let i := PageGetItemId off p in
      if ItemIdIsUsed i then
        if ItemIdHasStorage i then
          if MaxHeapTuplesPerPage <=? Z.of_nat (length (sc_items s)) then Undefined
          else if (lp_off i <? upper) || (lp_off i >=? special) then Error
          else repair_scan n (off + 1) upper special (used_upto off (keep_item (off - 1) (lp_off i) (lp_len i) s)) p
        else repair_scan n (off + 1) upper special (used_upto off s) p
      else repair_scan n (off + 1) upper special (one_unused s) (put_lp off ItemIdSetUnused p)
  end.

Definition set_free_lines (b : bool) (p : bytes) : bytes :=
  if b then PageSetHasFreeLinePointers p else PageClearHasFreeLinePointers p.

Definition PageRepairFragmentation (garbage p : bytes) : outcome bytes :=
  let lower := pd_lower p in
  let upper := pd_upper p in
  let special := pd_special p in
  if corrupted_page p then Error
  else
    let nline := PageGetMaxOffsetNumber p in
    do (s, p) <- repair_scan (Z.to_nat nline) FirstOffsetNumber upper special (start_scan special) p;
    do p <- (if Z.of_nat (length (sc_items s)) =? 0 then Done (set_pd_upper special p)
             else if sc_totallen s >? special - lower then Error
             else compactify_tuples garbage (sc_items s) p (sc_presorted s));
    let nunusedend := nline - sc_finalused s in
    let '(nunused, p) :=
      if negb (sc_finalused s =? nline) then (sc_nunused s - nunusedend, set_pd_lower (pd_lower p - SizeOfItemIdData * nunusedend) p)
      else (sc_nunused s, p) in
    Done (set_free_lines (nunused >? 0) p).

(** The scan from the line pointer [n] down: how many at the end to drop, and whether an unused one stays. *)
Fixpoint truncate_scan (n : nat) (countdone : bool) (nunusedend : Z) (p : bytes) : Z * bool :=
  match n with
  | O => (nunusedend, false)
  | S n' =>
      let used := ItemIdIsUsed (PageGetItemId (Z.of_nat n) p) in
      if negb countdone && (Z.of_nat n >? FirstOffsetNumber) then
        if negb used then truncate_scan n' countdone (nunusedend + 1) p else truncate_scan n' true nunusedend p
      else if negb used then (nunusedend, true) else truncate_scan n' countdone nunusedend p
  end.

Definition PageTruncateLinePointerArray (p : bytes) : bytes :=
  let '(nunusedend, sethint) := truncate_scan (Z.to_nat (PageGetMaxOffsetNumber p)) false 0 p in
  let p := if nunusedend >? 0 then set_pd_lower (pd_lower p - SizeOfItemIdData * nunusedend) p else p in
  set_free_lines sethint p.

(** *** Index pages *)

(** The test of the line pointer an operation is given. *)
Definition corrupted_item (i : ItemIdData) (p : bytes) : bool :=
  (lp_off i <? pd_upper p) || (lp_off i + lp_len i >? pd_special p) || negb (lp_off i =? MAXALIGN (lp_off i)).

(** The line pointers [off], [off + 1], ... ([n] of them) to items placed up to [offset] follow these by [delta]; [storage] is the
    test for storage, which [PageIndexTupleDelete] leaves out. *)
Fixpoint shift_items (n : nat) (off : OffsetNumber) (storage : bool) (offset delta : Z) (p : bytes) : bytes :=
  match n with
  | O => p
  | S n =>
      let i := PageGetItemId off p in
      let p := if (negb storage || ItemIdHasStorage i) && (lp_off i <=? offset) then put_lp off (set_lp_off (lp_off i + delta) i) p else p in
      shift_items n (off + 1) storage offset delta p
  end.

Definition PageIndexTupleDelete (offnum : OffsetNumber) (p : bytes) : outcome bytes :=
  if corrupted_page p then Error
  else
    let nline := PageGetMaxOffsetNumber p in
    if (offnum <=? 0) || (offnum >? nline) then Error
    else
      let tup := PageGetItemId offnum p in
      let offset := lp_off tup in
      if corrupted_item tup p then Error
      else
        let size := MAXALIGN (lp_len tup) in
        let nbytes := pd_lower p - lp_addr (offnum + 1) in
        do p <- (if nbytes >? 0 then memmove (lp_addr offnum) (lp_addr (offnum + 1)) nbytes p else Done p);
        do p <- (if offset >? pd_upper p then memmove (pd_upper p + size) (pd_upper p) (offset - pd_upper p) p else Done p);
        let p := set_pd_upper (pd_upper p + size) p in
        let p := set_pd_lower (pd_lower p - SizeOfItemIdData) p in
        Done (if negb (PageIsEmpty p) then shift_items (Z.to_nat (nline - 1)) 1 false offset size p else p).

Definition PageIndexTupleDeleteNoCompact (offnum : OffsetNumber) (p : bytes) : outcome bytes :=
  if corrupted_page p then Error
  else
    let nline := PageGetMaxOffsetNumber p in
    if (offnum <=? 0) || (offnum >? nline) then Error
    else
      let tup := PageGetItemId offnum p in
      let offset := lp_off tup in
      if corrupted_item tup p then Error
      else
        let size := MAXALIGN (lp_len tup) in
        let '(nline, p) :=
          if offnum <? nline then (nline, put_lp offnum ItemIdSetUnused p)
          else (nline - 1, set_pd_lower (pd_lower p - SizeOfItemIdData) p) in
        do p <- (if offset >? pd_upper p then memmove (pd_upper p + size) (pd_upper p) (offset - pd_upper p) p else Done p);
        let p := set_pd_upper (pd_upper p + size) p in
        Done (if negb (PageIsEmpty p) then shift_items (Z.to_nat nline) 1 true offset size p else p).

(** [false] when there is not enough space. *)
Definition PageIndexTupleOverwrite (offnum : OffsetNumber) (newtup : bytes) (p : bytes) : outcome (bool * bytes) :=
  if corrupted_page p then Error
  else
    let itemcount := PageGetMaxOffsetNumber p in
    if (offnum <=? 0) || (offnum >? itemcount) then Error
    else
      let tupid := PageGetItemId offnum p in
      let offset := lp_off tupid in
      if corrupted_item tupid p then Error
      else
        let oldsize := MAXALIGN (lp_len tupid) in
        let alignednewsize := MAXALIGN (len newtup) in
        if alignednewsize >? oldsize + (pd_upper p - pd_lower p) then Done (false, p)
        else
          let size_diff := oldsize - s32 alignednewsize in
          do p <- (if negb (size_diff =? 0) then
                     do p <- memmove (pd_upper p + size_diff) (pd_upper p) (offset - pd_upper p) p;
                     let p := set_pd_upper (pd_upper p + size_diff) p in
                     Done (shift_items (Z.to_nat itemcount) FirstOffsetNumber true offset size_diff p)
                   else Done p);
          let tupid := {| lp_off := offset + size_diff; lp_flags := lp_flags (PageGetItemId offnum p); lp_len := len newtup |} in
          let p := put_lp offnum tupid p in
          do p <- memcpy (lp_off (PageGetItemId offnum p)) newtup p;
          Done (true, p).

(** The scan of [PageIndexMultiDelete]: the items to keep, their line pointers in the new order and the offsets that are
    left to delete.  The arrays have [MaxIndexTuplesPerPage] elements. *)
Fixpoint delete_scan (n : nat) (off : OffsetNumber) (itemnos : list OffsetNumber) (s : scan) (lps : list ItemIdData) (p : bytes) :
    outcome (scan * list ItemIdData * list OffsetNumber) :=
  match n with
  | O => Done (s, lps, itemnos)
  | S n =>
      let i := PageGetItemId off p in
      if corrupted_item i p then Error
      else
        let keep :=
          if MaxIndexTuplesPerPage <=? Z.of_nat (length lps) then Undefined
          else delete_scan n (off + 1) itemnos (keep_item (Z.of_nat (length lps)) (lp_off i) (lp_len i) s) (lps ++ [i]) p in
        match itemnos with
        | next :: itemnos => if off =? next then delete_scan n (off + 1) itemnos s lps p else keep
        | [] => keep
        end
  end.

Definition delete_backwards (itemnos : list OffsetNumber) (p : bytes) : outcome bytes :=
  foldr (fun off c => do p <- c; PageIndexTupleDelete off p) (Done p) itemnos.

Definition put_lps (lps : list ItemIdData) (p : bytes) : outcome bytes :=
  memcpy SizeOfPageHeaderData (concat (map (fun i => to_le 4 (encode_lp i)) lps)) p.

Definition PageIndexMultiDelete (garbage : bytes) (itemnos : list OffsetNumber) (p : bytes) : outcome bytes :=
  if Z.of_nat (length itemnos) <=? 2 then delete_backwards itemnos p
  else
    let lower := pd_lower p in
    let special := pd_special p in
    if corrupted_page p then Error
    else
      do (s, lps, others) <- delete_scan (Z.to_nat (PageGetMaxOffsetNumber p)) FirstOffsetNumber itemnos (start_scan special) [] p;
      if negb (Z.of_nat (length others) =? 0) then Error
      else if sc_totallen s >? special - lower then Error
      else
        do p <- put_lps lps p;
        let p := set_pd_lower (SizeOfPageHeaderData + Z.of_nat (length lps) * SizeOfItemIdData) p in
        if Z.of_nat (length lps) >? 0 then compactify_tuples garbage (sc_items s) p (sc_presorted s)
        else Done (set_pd_upper special p).

(** *** Copies *)

Definition PageGetTempPageCopy (p : bytes) : outcome bytes := memread 0 (PageGetPageSize p) p.

Definition PageGetTempPageCopySpecial (p : bytes) : outcome bytes :=
  let temp := PageInit (PageGetSpecialSize p) in
  do bs <- memread (pd_special p) (PageGetSpecialSize p) p;
  memcpy (pd_special temp) bs temp.

Definition PageRestoreTempPage (temp old : bytes) : outcome bytes :=
  do bs <- memread 0 (PageGetPageSize temp) temp;
  memcpy 0 bs old.

(** *** Checksums ([storage/checksum_impl.h]) *)

Definition N_SUMS : nat := 32.
Definition FNV_PRIME : Z := 16777619.

Definition checksumBaseOffsets : list Z := [
  0x5B1F36E9; 0xB8525960; 0x02AB50AA; 0x1DE66D2A;
  0x79FF467A; 0x9BB9F8A3; 0x217E7CD2; 0x83E13D2C;
  0xF8D4474F; 0xE39EB970; 0x42C6AE16; 0x993216FA;
  0x7B093B5D; 0x98DAFF3C; 0xF718902A; 0x0B1C9CDB;
  0xE58F764B; 0x187636BC; 0x5D7B3BB1; 0xE73DE7DE;
  0x92BEC979; 0xCCA6C0B2; 0x304A0979; 0x85AA43D4;
  0x783125BB; 0x6CA8EAA2; 0xE407EAC6; 0x4B5CFC3E;
  0x9FBF8C76; 0x15CA20BE; 0xF2CA9FD3; 0x959BD756
].

Definition CHECKSUM_COMP (checksum value : Z) : Z :=
  let tmp := Z.lxor checksum value in
  Z.lxor (u32 (tmp * FNV_PRIME)) (Z.shiftr tmp 17).

(** Row [i] of the page: [N_SUMS] words. *)
Definition checksum_row (p : bytes) (i : nat) : list Z :=
  map (fun j => get 4 (Z.of_nat (4 * (N_SUMS * i + j))) p) (seq 0 N_SUMS).

Definition pg_checksum_block (p : bytes) : Z :=
  let sums := foldl (fun sums i => zip_with CHECKSUM_COMP sums (checksum_row p i)) checksumBaseOffsets (seq 0 (Z.to_nat BLCKSZ / (4 * N_SUMS))) in
  let sums := foldl (fun sums _ => map (fun s => CHECKSUM_COMP s 0) sums) sums (seq 0 2) in
  foldl Z.lxor 0 sums.

Definition pg_checksum_page (p : bytes) (blkno : BlockNumber) : Z :=
  let checksum := pg_checksum_block (set_pd_checksum 0 p) in
  let checksum := Z.lxor checksum blkno in
  u16 (checksum mod 65535 + 1).

Definition PageSetChecksumInplace (DataChecksumsEnabled : bool) (blkno : BlockNumber) (p : bytes) : bytes :=
  if PageIsNew p || negb DataChecksumsEnabled then p else set_pd_checksum (pg_checksum_page p blkno) p.

(** The copy that is returned for writing; the page itself keeps its checksum. *)
Definition PageSetChecksumCopy (DataChecksumsEnabled : bool) (blkno : BlockNumber) (p : bytes) : bytes :=
  if PageIsNew p || negb DataChecksumsEnabled then p
  else
    let pageCopy := p in
    set_pd_checksum (pg_checksum_page pageCopy blkno) pageCopy.

Definition header_sane (p : bytes) : bool :=
  (Z.land (pd_flags p) (Z.lnot PD_VALID_FLAG_BITS) =? 0) && (pd_lower p <=? pd_upper p) && (pd_upper p <=? pd_special p) &&
  (pd_special p <=? BLCKSZ) && (pd_special p =? MAXALIGN (pd_special p)).

Definition PageIsVerifiedExtended (DataChecksumsEnabled ignore_checksum_failure : bool) (blkno : BlockNumber) (p : bytes) : bool :=
  let checksum_failure := negb (PageIsNew p) && DataChecksumsEnabled && negb (pg_checksum_page p blkno =? pd_checksum p) in
  let sane := negb (PageIsNew p) && header_sane p in
  if sane && negb checksum_failure then true
  else if forallb (Z.eqb 0) p then true
  else checksum_failure && sane && ignore_checksum_failure.
