(* ===== verification/PageInv.v ===== *)
(** * Pages as lists of entries

    What the bytes of a page stand for: one entry for each line pointer, with its state and the bytes of its item; and the
    invariant under which the items do not overlap each other, the line pointers or the special space. *)
From S2P Require Import Prelude TransactionId ItemPtr Bytes Page.
Local Open Scope Z_scope.

(** ** Alignment *)

Lemma MAXALIGN_div x : 0 <= x < 2 ^ 63 -> MAXALIGN x = 8 * ((x + 7) / 8).
Proof.
  intros Hx. unfold MAXALIGN. rewrite u64_small by lia. change (Z.lnot 7) with (Z.lnot (Z.ones 3)).
  rewrite <- Z.ldiff_land, Z.ldiff_ones_r by lia. rewrite Z.shiftl_mul_pow2, Z.shiftr_div_pow2 by lia. change (2 ^ 3) with 8. lia.
Qed.

Lemma MAXALIGN_bounds x : 0 <= x < 2 ^ 63 -> x <= MAXALIGN x < x + 8 /\ MAXALIGN x mod 8 = 0.
Proof.
  intros Hx. rewrite MAXALIGN_div by done. split; [Z.div_mod_to_equations; lia|]. rewrite Z.mul_comm. apply Z.mod_mul. lia.
Qed.

Lemma MAXALIGN_id x : 0 <= x < 2 ^ 63 -> x mod 8 = 0 <-> x = MAXALIGN x.
Proof.
  intros Hx. pose proof (MAXALIGN_bounds x Hx) as [H1 H2]. split; [|by intros ->]. intros E. rewrite MAXALIGN_div in * by done.
  Z.div_mod_to_equations. lia.
Qed.

(** ** Line pointers *)

Definition lp_fits (i : ItemIdData) : Prop := 0 <= lp_off i < 2 ^ 15 /\ 0 <= lp_flags i < 4 /\ 0 <= lp_len i < 2 ^ 15.

Lemma decode_fits w : lp_fits (decode_lp w).
Proof. split; [|split]; apply Z.mod_pos_bound; lia. Qed.

Lemma decode_encode i : lp_fits i -> decode_lp (encode_lp i mod 256 ^ Z.of_nat 4) = i.
Proof.
  destruct i as [off flags len]. intros (H1 & H2 & H3). cbn [lp_off lp_flags lp_len] in *. unfold decode_lp, encode_lp, wrap. cbn [lp_off lp_flags lp_len].
  rewrite (Z.mod_small off), (Z.mod_small flags), (Z.mod_small len) by lia. change (256 ^ Z.of_nat 4) with (2 ^ 32).
  rewrite (Z.mod_small (off + 2 ^ 15 * flags + 2 ^ 17 * len)) by lia.
  f_equal; Z.div_mod_to_equations; lia.
Qed.

(** ** Bytes of a page *)

Record sized (p : bytes) : Prop := { sz_len : len p = BLCKSZ; sz_bytes : Forall is_byte p }.

Lemma sized_blit off bs p : sized p -> 0 <= off -> off + len bs <= BLCKSZ -> Forall is_byte bs -> sized (blit off bs p).
Proof. intros [H1 H2] Ho Hl Hb. split; [rewrite len_blit; lia|by apply Forall_blit]. Qed.

Lemma sized_put n off v p : sized p -> 0 <= off -> off + Z.of_nat n <= BLCKSZ -> sized (put n off v p).
Proof. intros Hs Ho Hl. apply sized_blit; [done|done|by rewrite len_to_le|apply to_le_bytes]. Qed.

(** The first [n] line pointers. *)
Definition lines (n : Z) (p : bytes) : list ItemIdData := map (fun off => PageGetItemId off p) (seqZ 1 n).

Definition line (p : bytes) : list ItemIdData := lines (PageGetMaxOffsetNumber p) p.

Lemma length_lines n p : 0 <= n -> Z.of_nat (length (lines n p)) = n.
Proof. intros Hn. unfold lines. rewrite length_map, length_seqZ. lia. Qed.

Lemma lookup_lines n p (i : nat) : Z.of_nat i < n -> lines n p !! i = Some (PageGetItemId (Z.of_nat i + 1) p).
Proof.
  intros Hi. unfold lines. rewrite list_lookup_fmap, lookup_seqZ_lt by lia. simpl. do 2 f_equal. lia.
Qed.

Lemma lines_ext n p q : (forall off, 1 <= off <= n -> PageGetItemId off q = PageGetItemId off p) -> lines n q = lines n p.
Proof. intros H. apply map_ext_in. intros off Hin%list_elem_of_In%elem_of_seqZ. apply H. lia. Qed.

Lemma lines_snoc n p : 0 <= n -> lines (n + 1) p = lines n p ++ [PageGetItemId (n + 1) p].
Proof.
  intros Hn. unfold lines. rewrite seqZ_app by lia. rewrite map_app. f_equal. simpl. by rewrite (Z.add_comm 1 n).
Qed.

Lemma lines_take n m p : 0 <= m <= n -> lines m p = take (Z.to_nat m) (lines n p).
Proof.
  intros Hm. unfold lines. rewrite <- fmap_take. f_equal. replace n with (m + (n - m)) by lia. rewrite seqZ_app by lia.
  rewrite take_app_length'; [done|]. rewrite length_seqZ. done.
Qed.

Lemma get_lp_put off i p : sized p -> 1 <= off -> lp_addr off + 4 <= BLCKSZ -> lp_fits i -> PageGetItemId off (put_lp off i p) = i.
Proof.
  intros [Hl _] Ho Ha Hi. unfold PageGetItemId, put_lp. rewrite get_put_same; [by apply decode_encode|unfold lp_addr, SizeOfPageHeaderData, SizeOfItemIdData; lia|].
  change (Z.of_nat 4) with 4. lia.
Qed.

(** A write that is not over a line pointer leaves it alone. *)
Lemma get_lp_blit off o bs p :
  sized p -> 1 <= off -> lp_addr off + 4 <= BLCKSZ -> 0 <= o -> o + len bs <= BLCKSZ -> lp_addr off + 4 <= o \/ o + len bs <= lp_addr off ->
  PageGetItemId off (blit o bs p) = PageGetItemId off p.
Proof.
  intros [Hl _] Ho Ha H1 H2 H3. unfold PageGetItemId. unfold lp_addr, SizeOfPageHeaderData, SizeOfItemIdData in *.
  rewrite get_blit_out by lia. done.
Qed.

Lemma get_lp_put_ne off off' i p :
  sized p -> 1 <= off -> 1 <= off' -> off <> off' -> lp_addr off + 4 <= BLCKSZ -> lp_addr off' + 4 <= BLCKSZ ->
  PageGetItemId off (put_lp off' i p) = PageGetItemId off p.
Proof.
  intros. apply get_lp_blit; try done; rewrite ?len_to_le; unfold lp_addr, SizeOfPageHeaderData, SizeOfItemIdData in *; lia.
Qed.

Lemma lines_put n off i p :
  sized p -> 1 <= off <= n -> 24 + 4 * n <= BLCKSZ -> lp_fits i -> lines n (put_lp off i p) = <[Z.to_nat (off - 1) := i]> (lines n p).
Proof.
  intros Hs Ho Hn Hi. apply list_eq. intros k. destruct (decide (Z.of_nat k < n)) as [Hk|Hk].
  - rewrite lookup_lines by done. pose proof (length_lines n p ltac:(lia)) as Hlen. unfold lp_addr, SizeOfPageHeaderData, SizeOfItemIdData in *.
    destruct (decide (k = Z.to_nat (off - 1))) as [->|Hne].
    + rewrite list_lookup_insert_eq by lia. replace (Z.of_nat (Z.to_nat (off - 1)) + 1) with off by lia.
      rewrite get_lp_put; [done|done|lia|unfold lp_addr, SizeOfPageHeaderData, SizeOfItemIdData; lia|done].
    + rewrite list_lookup_insert_ne by done. rewrite lookup_lines by done.
      rewrite get_lp_put_ne; [done|done|lia|lia|lia|unfold lp_addr, SizeOfPageHeaderData, SizeOfItemIdData; lia..].
  - rewrite !lookup_ge_None_2; [done|rewrite length_insert|]; pose proof (length_lines n p ltac:(lia)); pose proof (length_lines n (put_lp off i p) ltac:(lia)); lia.
Qed.

(** Writes behind the line pointers. *)
Lemma lines_blit n o bs p :
  sized p -> 24 + 4 * n <= o -> 0 <= o -> o + len bs <= BLCKSZ -> lines n (blit o bs p) = lines n p.
Proof.
  intros Hs Hn Ho Hl. apply lines_ext. intros off Hoff. pose proof (len_nonneg bs).
  apply get_lp_blit; try done; unfold lp_addr, SizeOfPageHeaderData, SizeOfItemIdData; lia.
Qed.

(** Writes to the header. *)
Lemma lines_header n o bs p : sized p -> 0 <= o -> o + len bs <= 24 -> 24 + 4 * n <= BLCKSZ -> lines n (blit o bs p) = lines n p.
Proof.
  intros Hs Ho Hl Hn. apply lines_ext. intros off Hoff.
  apply get_lp_blit; try done; unfold lp_addr, SizeOfPageHeaderData, SizeOfItemIdData, BLCKSZ in *; lia.
Qed.

Lemma lines_fits n p : Forall lp_fits (lines n p).
Proof. apply Forall_fmap, Forall_true. intros off. apply decode_fits. Qed.

(** ** The header *)

Lemma sget_put_same n off v p :
  sized p -> 0 <= off -> off + Z.of_nat n <= BLCKSZ -> 0 <= v < 256 ^ Z.of_nat n -> get n off (put n off v p) = v.
Proof. intros [Hl _] Ho Hn Hv. rewrite get_put_same by lia. by apply Z.mod_small. Qed.

Lemma sget_blit_out n o off bs p :
  sized p -> 0 <= o -> 0 <= off -> o + Z.of_nat n <= BLCKSZ -> off + len bs <= BLCKSZ -> o + Z.of_nat n <= off \/ off + len bs <= o ->
  get n o (blit off bs p) = get n o p.
Proof. intros [Hl _] **. apply get_blit_out; lia. Qed.

Lemma sget_range n off p : sized p -> 0 <= off -> off + Z.of_nat n <= BLCKSZ -> 0 <= get n off p < 256 ^ Z.of_nat n.
Proof. intros [Hl Hb] Ho Hn. apply get_range; [done|lia|done]. Qed.

(** A sized page with [n] line pointers [L] and these boundaries. *)
Record shape (p : bytes) (n upper special : Z) (L : list ItemIdData) : Prop := {
  sh_sized : sized p;
  sh_lines : 0 <= n /\ 24 + 4 * n <= BLCKSZ;
  sh_lower : pd_lower p = 24 + 4 * n;
  sh_upper : pd_upper p = upper;
  sh_special : pd_special p = special;
  sh_line : lines n p = L
}.

Lemma max_offset p n : 0 <= n -> pd_lower p = 24 + 4 * n -> PageGetMaxOffsetNumber p = n.
Proof.
  intros Hn E. unfold PageGetMaxOffsetNumber, SizeOfPageHeaderData, SizeOfItemIdData. rewrite E. destruct (Z.leb_spec (24 + 4 * n) 24); [lia|].
  replace (24 + 4 * n - 24) with (n * 4) by lia. by rewrite Z.div_mul by lia.
Qed.

Lemma shape_max p n u s L : shape p n u s L -> PageGetMaxOffsetNumber p = n.
Proof. intros H. apply max_offset; apply H. Qed.

Lemma shape_of_line p n u s L : shape p n u s L -> line p = L.
Proof. intros H. unfold line. rewrite (shape_max _ _ _ _ _ H). apply H. Qed.

Lemma shape_length p n u s L : shape p n u s L -> Z.of_nat (length L) = n.
Proof. intros H. rewrite <- (sh_line _ _ _ _ _ H). apply length_lines, H. Qed.

Lemma shape_lookup p n u s L off : shape p n u s L -> 1 <= off <= n -> L !! Z.to_nat (off - 1) = Some (PageGetItemId off p).
Proof. intros H Ho. rewrite <- (sh_line _ _ _ _ _ H), lookup_lines by lia. do 2 f_equal. lia. Qed.

Lemma shape_lp_at p n u s L off i : shape p n u s L -> 1 <= off <= n -> L !! Z.to_nat (off - 1) = Some i -> PageGetItemId off p = i.
Proof. intros H Ho E. rewrite (shape_lookup _ _ _ _ _ _ H Ho) in E. by injection E. Qed.

Ltac header_out H :=
  unfold pd_lower, pd_upper, pd_special, pd_flags, set_pd_lower, set_pd_upper, set_pd_special, set_pd_flags, set_pd_prune_xid, set_pd_checksum, put_lp, put;
  rewrite sget_blit_out; [apply H|apply H|..]; rewrite ?len_to_le; unfold lp_addr, SizeOfPageHeaderData, SizeOfItemIdData, BLCKSZ in *; lia.

Section shape.
Context (p : bytes) (n upper special : Z) (L : list ItemIdData) (H : shape p n upper special L).

Lemma shape_set_upper u : 0 <= u < 2 ^ 16 -> shape (set_pd_upper u p) n u special L.
Proof.
  intros Hu. destruct (sh_lines _ _ _ _ _ H). split; [apply sized_put; [apply H|done|done]|done|header_out H| |header_out H|].
  - unfold pd_upper, set_pd_upper. by rewrite sget_put_same by (done || apply H).
  - rewrite <- (sh_line _ _ _ _ _ H). apply lines_header; rewrite ?len_to_le; [apply H|done..].
Qed.

Lemma shape_set_lower m : 0 <= m -> 24 + 4 * m <= BLCKSZ -> shape (set_pd_lower (24 + 4 * m) p) m upper special (lines m p).
Proof.
  intros Hm Hb. split; [apply sized_put; [apply H|done|done]|done| |header_out H|header_out H|].
  - unfold pd_lower, set_pd_lower. rewrite sget_put_same; [done|apply H|done|done|unfold BLCKSZ in Hb; split; [lia|]]. change (256 ^ Z.of_nat 2) with 65536. lia.
  - apply lines_header; rewrite ?len_to_le; [apply H|done..].
Qed.

Lemma shape_set_flags v : shape (set_pd_flags v p) n upper special L.
Proof.
  destruct (sh_lines _ _ _ _ _ H). split; [apply sized_put; [apply H|done|done]|done|header_out H|header_out H|header_out H|].
  rewrite <- (sh_line _ _ _ _ _ H). apply lines_header; rewrite ?len_to_le; [apply H|done..].
Qed.

Lemma shape_put_lp off i : 1 <= off <= n -> lp_fits i -> shape (put_lp off i p) n upper special (<[Z.to_nat (off - 1) := i]> L).
Proof.
  intros Ho Hi. destruct (sh_lines _ _ _ _ _ H).
  split; [apply sized_put; [apply H|..]|done|header_out H|header_out H|header_out H|];
    [unfold lp_addr, SizeOfPageHeaderData, SizeOfItemIdData, BLCKSZ in *; lia..|].
  rewrite <- (sh_line _ _ _ _ _ H). by apply lines_put; [apply H|..].
Qed.

(** A line pointer behind the others. *)
Lemma shape_new_lp i :
  24 + 4 * (n + 1) <= BLCKSZ -> lp_fits i ->
  shape (put_lp (n + 1) i p) n upper special L /\ PageGetItemId (n + 1) (put_lp (n + 1) i p) = i.
Proof.
  intros Hn Hi. destruct (sh_lines _ _ _ _ _ H).
  assert (Ha : lp_addr (n + 1) = 24 + 4 * n) by (unfold lp_addr, SizeOfPageHeaderData, SizeOfItemIdData; lia). split.
  - split; [apply sized_put; [apply H|..]|done|header_out H|header_out H|header_out H|]; [lia..|].
    rewrite <- (sh_line _ _ _ _ _ H). apply lines_blit; rewrite ?len_to_le; [apply H|lia..].
  - apply get_lp_put; [apply H|lia|lia|done].
Qed.

(** A write to the item space. *)
Lemma shape_blit o bs : 24 + 4 * n <= o -> o + len bs <= BLCKSZ -> Forall is_byte bs -> shape (blit o bs p) n upper special L.
Proof.
  intros Ho Hl Hb. destruct (sh_lines _ _ _ _ _ H). split; [apply sized_blit; [apply H|lia|done|done]|done|header_out H|header_out H|header_out H|].
  rewrite <- (sh_line _ _ _ _ _ H). apply lines_blit; [apply H|lia..].
Qed.
End shape.

Lemma shape_lines p n u s L m : shape p n u s L -> 0 <= m <= n -> lines m p = take (Z.to_nat m) L.
Proof. intros H Hm. rewrite <- (sh_line _ _ _ _ _ H). by apply lines_take. Qed.

(** The item space does not notice writes to the header and the line pointers. *)
Lemma slice_front o k off bs p : sized p -> 0 <= off -> off + len bs <= o -> 0 <= k -> o + k <= BLCKSZ -> slice o k (blit off bs p) = slice o k p.
Proof. intros [Hl _] **. pose proof (len_nonneg bs). apply slice_blit_out; lia. Qed.

Lemma slice_put_lp o k off i p :
  sized p -> 1 <= off -> 24 + 4 * off <= o -> 0 <= k -> o + k <= BLCKSZ -> slice o k (put_lp off i p) = slice o k p.
Proof. intros. apply slice_front; rewrite ?len_to_le; try done; unfold lp_addr, SizeOfPageHeaderData, SizeOfItemIdData; lia. Qed.

(** ** Items *)

Definition stored (i : ItemIdData) : Prop := lp_len i <> 0.
Definition lp_end (i : ItemIdData) : Z := lp_off i + MAXALIGN (lp_len i).

(** The item lies between the boundaries, aligned. *)
Definition placed (upper special : Z) (i : ItemIdData) : Prop :=
  (stored i -> upper <= lp_off i /\ lp_end i <= special /\ lp_off i mod 8 = 0) /\ (lp_flags i = LP_UNUSED \/ lp_flags i = LP_REDIRECT -> lp_len i = 0).

Definition apart (i j : ItemIdData) : Prop := stored i -> stored j -> lp_end i <= lp_off j \/ lp_end j <= lp_off i.

Fixpoint all_apart (l : list ItemIdData) : Prop :=
  match l with [] => True | i :: l => Forall (apart i) l /\ all_apart l end.

Record lines_ok (upper special : Z) (l : list ItemIdData) : Prop := {
  lo_placed : Forall (placed upper special) l;
  lo_apart : all_apart l
}.

Record page_ok (p : bytes) : Prop := {
  po_sized : sized p;
  po_lower : 24 <= pd_lower p <= pd_upper p /\ pd_lower p mod 4 = 0;
  po_upper : pd_upper p <= pd_special p <= BLCKSZ /\ pd_upper p mod 8 = 0 /\ pd_special p mod 8 = 0;
  po_lines : lines_ok (pd_upper p) (pd_special p) (line p)
}.

(** What a line pointer stands for. *)
Record entry := { e_flags : Z; e_link : Z; e_data : bytes }.

Definition entry_of (p : bytes) (i : ItemIdData) : entry := {|
  e_flags := lp_flags i;
  e_link := if lp_flags i =? LP_REDIRECT then lp_off i else 0;
  e_data := PageGetItem i p
|}.

Definition view (p : bytes) : list entry := map (entry_of p) (line p).
Definition special_space (p : bytes) : bytes := slice (pd_special p) (BLCKSZ - pd_special p) p.

Definition unused_entry : entry := {| e_flags := LP_UNUSED; e_link := 0; e_data := [] |}.
Definition normal_entry (item : bytes) : entry := {| e_flags := LP_NORMAL; e_link := 0; e_data := item |}.

Lemma apart_sym i j : apart i j -> apart j i.
Proof. intros H Hj Hi. destruct (H Hi Hj); [by right|by left]. Qed.

Lemma all_apart_perm l k : l ≡ₚ k -> all_apart l -> all_apart k.
Proof.
  induction 1 as [|i l k HP IH|i j l|l1 l2 l3 _ IH1 _ IH2]; [done| | |by auto].
  - intros [Hi Hl]. split; [by rewrite <- HP|by apply IH].
  - intros [Hj [Hi Hl]]. apply Forall_cons in Hj as [Hij Hj]. split; [constructor; [by apply apart_sym|done]|done].
Qed.

Lemma lines_ok_perm u s l k : l ≡ₚ k -> lines_ok u s l -> lines_ok u s k.
Proof. intros HP [H1 H2]. split; [by rewrite <- HP|by eapply all_apart_perm]. Qed.

Lemma lines_ok_cons u s i l : lines_ok u s (i :: l) <-> placed u s i /\ Forall (apart i) l /\ lines_ok u s l.
Proof. split; [intros [[H1 H2]%Forall_cons [H3 H4]]; exact (conj H1 (conj H3 (Build_lines_ok _ _ _ H2 H4)))|]. intros (? & ? & [? ?]). split; [by constructor|done]. Qed.

Lemma lines_ok_mono u u' s l : u' <= u -> lines_ok u s l -> lines_ok u' s l.
Proof.
  intros Hu [H1 H2]. split; [|done]. eapply Forall_impl; [done|]. intros i [H ?]. split; [|done]. intros Hi. destruct (H Hi) as (? & ? & ?).
  repeat split; [lia|done|done].
Qed.

Lemma lines_ok_app u s l k : lines_ok u s (l ++ k) -> lines_ok u s l /\ lines_ok u s k.
Proof.
  induction l as [|i l IH]; simpl; [intros H; split; [split; [constructor|done]|done]|].
  intros (Hi & Ha & Hl)%lines_ok_cons. destruct (IH Hl) as [H1 H2]. split; [|done]. apply lines_ok_cons. apply Forall_app in Ha as [Ha _]. exact (conj Hi (conj Ha H1)).
Qed.

Lemma lines_ok_sublist u s l k : k ⊆+ l -> lines_ok u s l -> lines_ok u s k.
Proof. intros [m Hm]%submseteq_Permutation H. apply (lines_ok_perm _ _ _ _ Hm) in H. by apply lines_ok_app in H as [? _]. Qed.

(** Without storage a line pointer does not matter. *)
Lemma lines_ok_empty u s i l : lp_len i = 0 -> lines_ok u s l -> lines_ok u s (i :: l).
Proof.
  intros Hi Hl. apply lines_ok_cons. split; [split; [by intros []|done]|]. split; [|done]. apply Forall_true. intros j Hs. by destruct Hs.
Qed.

(** An item placed right below the others. *)
Lemma lines_ok_below u u' s i l :
  lines_ok u s l -> lp_off i = u' -> lp_end i <= u -> u' mod 8 = 0 -> u' <= u -> u <= s ->
  (lp_flags i = LP_UNUSED \/ lp_flags i = LP_REDIRECT -> lp_len i = 0) -> lines_ok u' s (i :: l).
Proof.
  intros Hl Eo He Hm Hu Hs Hf. apply lines_ok_cons. split; [|split; [|by apply (lines_ok_mono u)]].
  - split; [|done]. intros _. rewrite Eo. repeat split; [lia|lia|done].
  - destruct Hl as [Hp _]. eapply Forall_impl; [done|]. intros j [Hj _] Hi Hsj. destruct (Hj Hsj) as (? & _). left. lia.
Qed.

(** Replacing one line pointer. *)
Lemma insert_perm (k : nat) (i j : ItemIdData) (l : list ItemIdData) : l !! k = Some j -> <[k := i]> l ≡ₚ i :: delete k l.
Proof.
  intros E. rewrite insert_take_drop by (by eapply lookup_lt_Some). rewrite delete_take_drop. by rewrite <- Permutation_middle.
Qed.

Lemma delete_sub {A} (k : nat) (l : list A) : delete k l ⊆+ l.
Proof. apply sublist_submseteq, sublist_delete. Qed.

Lemma page_shape p : page_ok p -> exists n, shape p n (pd_upper p) (pd_special p) (line p) /\ lines_ok (pd_upper p) (pd_special p) (line p) /\
  24 + 4 * n <= pd_upper p <= pd_special p /\ pd_special p <= BLCKSZ /\ pd_upper p mod 8 = 0 /\ pd_special p mod 8 = 0.
Proof.
  intros [Hs [Hl1 Hl2] (Hu1 & Hu2 & Hu3) Hok]. exists ((pd_lower p - 24) / 4).
  assert (E : pd_lower p = 24 + 4 * ((pd_lower p - 24) / 4)) by (Z.div_mod_to_equations; lia).
  assert (H0 : 0 <= (pd_lower p - 24) / 4) by (apply Z.div_pos; lia).
  split; [|repeat split; try done; try lia; apply Hok].
  split; [done|lia|done|done|done|]. unfold line. by rewrite (max_offset p _ H0 E).
Qed.

Lemma shape_ok p n u s L :
  shape p n u s L -> lines_ok u s L -> 24 + 4 * n <= u <= s -> s <= BLCKSZ -> u mod 8 = 0 -> s mod 8 = 0 -> page_ok p.
Proof.
  intros H Hl Hu Hs H1 H2. pose proof (shape_of_line _ _ _ _ _ H) as El. destruct H. split; [done| | |rewrite sh_upper0, sh_special0, El; done].
  - rewrite sh_lower0, sh_upper0. split; [lia|]. replace (24 + 4 * n) with ((6 + n) * 4) by lia. by apply Z.mod_mul.
  - rewrite sh_upper0, sh_special0. split; [lia|done].
Qed.

(** The entries of a page whose items have stayed what they were. *)
Lemma view_shape p n u s L : shape p n u s L -> view p = map (entry_of p) L.
Proof. intros H. unfold view. by rewrite (shape_of_line _ _ _ _ _ H). Qed.

Lemma entry_same p q i : PageGetItem i q = PageGetItem i p -> entry_of q i = entry_of p i.
Proof. intros E. unfold entry_of. by rewrite E. Qed.

Lemma entry_empty p q i : lp_len i = 0 -> entry_of q i = entry_of p i.
Proof. intros E. apply entry_same. unfold PageGetItem. by rewrite E. Qed.

Lemma stored_dec i : stored i \/ lp_len i = 0.
Proof. unfold stored. lia. Qed.

Lemma lp_end_bounds i : lp_fits i -> lp_off i + lp_len i <= lp_end i < lp_off i + lp_len i + 8.
Proof. intros (_ & _ & H). unfold lp_end. pose proof (MAXALIGN_bounds (lp_len i) ltac:(lia)). lia. Qed.

(** When the bytes of the items are the same, so are the entries. *)
Lemma entries_same p q u s L :
  lines_ok u s L -> Forall lp_fits L -> 0 <= u ->
  (forall o k, u <= o -> 0 <= k -> o + k <= s -> slice o k q = slice o k p) -> map (entry_of q) L = map (entry_of p) L.
Proof.
  intros [Hp _] Hf Hu Hs. apply map_ext_in. intros i Hi%list_elem_of_In. rewrite list.Forall_forall in Hp, Hf.
  destruct (stored_dec i) as [Hst|E]; [|by apply entry_empty]. destruct (proj1 (Hp i Hi) Hst) as (H1 & H2 & _).
  pose proof (lp_end_bounds i (Hf i Hi)). pose proof (Hf i Hi) as (? & ? & ?). apply entry_same, Hs; lia.
Qed.
