(* ===== verification/PageAdd.v ===== *)
(** * Adding items to a page

    [PageInit] gives an empty page; [PageAddItemExtended] adds one entry and leaves the others as they were, or refuses; it does not refuse an
    item for which [PageGetHeapFreeSpace] has promised room; [PageTruncateLinePointerArray] drops unused entries at the end. *)
From S2P Require Import Prelude TransactionId ItemPtr Bytes Page PageInv.
Local Open Scope Z_scope.

Lemma shape_blit_any p n u s L o bs :
  shape p n u s L -> 24 <= o -> o + len bs <= BLCKSZ -> Forall is_byte bs -> shape (blit o bs p) n u s (lines n (blit o bs p)).
Proof.
  intros H Ho Hl Hb. destruct (sh_lines _ _ _ _ _ H). split; [apply sized_blit; [apply H|lia|done|done]|done|header_out H|header_out H|header_out H|done].
Qed.

Lemma memcpy_done dst bs p : 0 <= dst -> dst + len bs <= len p -> memcpy dst bs p = Done (blit dst bs p).
Proof. intros H1 H2. unfold memcpy. by rewrite (proj2 (Z.leb_le _ _) H1), (proj2 (Z.leb_le _ _) H2). Qed.

Lemma memread_done src n p : 0 <= src -> 0 <= n -> src + n <= len p -> memread src n p = Done (slice src n p).
Proof. intros H1 H2 H3. unfold memread. by rewrite (proj2 (Z.leb_le _ _) H1), (proj2 (Z.leb_le _ _) H2), (proj2 (Z.leb_le _ _) H3). Qed.

Lemma memmove_done dst src n p :
  0 <= src -> 0 <= dst -> 0 <= n -> src + n <= len p -> dst + n <= len p -> memmove dst src n p = Done (blit dst (slice src n p) p).
Proof. intros. unfold memmove. rewrite memread_done by lia. cbn [obind]. apply memcpy_done; [done|]. rewrite len_slice by lia. lia. Qed.

Lemma page_not_corrupted p : page_ok p -> corrupted_page p = false.
Proof.
  intros [Hs Hl (Hu & Hm & Hm') _]. unfold corrupted_page, corrupted_pointers, SizeOfPageHeaderData. rewrite !Z.gtb_ltb.
  rewrite !(proj2 (Z.ltb_ge _ _)) by lia. cbn [orb]. apply negb_false_iff, Z.eqb_eq, MAXALIGN_id; [unfold BLCKSZ in *; lia|done].
Qed.

Lemma corrupted_page_false p : corrupted_page p = false -> corrupted_pointers p = false.
Proof. unfold corrupted_page. by intros [? _]%orb_false_iff. Qed.

(** ** The line pointer of a new item *)

(** The line pointers from [off] on move up. *)
Lemma shuffle_lines p n u s L off i :
  shape p n u s L -> 1 <= off <= n -> 24 + 4 * (n + 1) <= BLCKSZ -> lp_fits i ->
  let q := put_lp off i (blit (lp_addr (off + 1)) (slice (lp_addr off) ((n + 1 - off) * 4) p) p) in
  shape q n u s (lines n q) /\ lines (n + 1) q = take (Z.to_nat (off - 1)) L ++ i :: drop (Z.to_nat (off - 1)) L /\
  forall o k, 24 + 4 * (n + 1) <= o -> 0 <= k -> o + k <= BLCKSZ -> slice o k q = slice o k p.
Proof.
  intros H Ho Hb Hi q. pose proof (sh_sized _ _ _ _ _ H) as Hs. pose proof (sz_len _ Hs) as Hl.
  assert (Ea : forall j, lp_addr j = 20 + 4 * j) by (intros j; unfold lp_addr, SizeOfPageHeaderData, SizeOfItemIdData; lia).
  set (bs := slice (lp_addr off) ((n + 1 - off) * 4) p) in *. assert (Eb : len bs = (n + 1 - off) * 4) by (apply len_slice; rewrite ?Ea; lia).
  assert (Hbs : Forall is_byte bs) by (apply Forall_slice, Hs).
  set (p1 := blit (lp_addr (off + 1)) bs p) in *. assert (H1 : shape p1 n u s (lines n p1)) by (eapply shape_blit_any; [done|rewrite ?Ea; lia..|done]).
  assert (Hsame : forall j, 1 <= j < off -> PageGetItemId j q = PageGetItemId j p).
  { intros j Hj. unfold q. rewrite get_lp_put_ne; [|apply H1|lia|lia|lia|rewrite Ea; lia..]. apply get_lp_blit; [done|lia|rewrite ?Ea; lia..]. }
  assert (Hmoved : forall j, off < j <= n + 1 -> PageGetItemId j q = PageGetItemId (j - 1) p).
  { intros j Hj. unfold q. rewrite get_lp_put_ne; [|apply H1|lia|lia|lia|rewrite Ea; lia..]. unfold PageGetItemId, get, p1, bs. f_equal. f_equal.
    change (Z.of_nat 4) with 4. rewrite slice_blit_in; rewrite ?len_slice, ?Ea by (rewrite ?Ea; lia); [|lia..].
    rewrite slice_slice by lia. f_equal. lia. }
  split; [|split].
  - unfold q, put_lp. eapply shape_blit_any; [done|rewrite ?len_to_le, ?Ea; lia..|apply to_le_bytes].
  - apply list_eq. intros k. pose proof (shape_length _ _ _ _ _ H) as HL.
    assert (Ht : length (take (Z.to_nat (off - 1)) L) = Z.to_nat (off - 1)) by (rewrite length_take; lia).
    destruct (decide (Z.of_nat k < n + 1)) as [Hk|Hk].
    + rewrite lookup_lines by done. destruct (decide (Z.of_nat k + 1 < off)); [|destruct (decide (Z.of_nat k + 1 = off)) as [Ek|]].
      * rewrite Hsame by lia. rewrite lookup_app_l, lookup_take_lt by lia. rewrite <- (shape_lookup _ _ _ _ _ _ H) by lia. f_equal. lia.
      * rewrite lookup_app_r by lia. rewrite Ht, Ek. replace (k - Z.to_nat (off - 1))%nat with 0%nat by lia. cbn. f_equal.
        apply get_lp_put; [apply H1|lia|rewrite Ea; lia|done].
      * rewrite Hmoved by lia. rewrite lookup_app_r by lia. rewrite Ht. replace (k - Z.to_nat (off - 1))%nat with (S (k - Z.to_nat off)) by lia.
        rewrite lookup_cons, lookup_drop. rewrite <- (shape_lookup _ _ _ _ _ _ H) by lia. f_equal. lia.
    + rewrite !lookup_ge_None_2; [done| |]; [rewrite length_app; simpl; rewrite length_take, length_drop; lia|].
      pose proof (length_lines (n + 1) q ltac:(lia)). lia.
  - intros o k Hoo Hk Hok. unfold q. rewrite slice_put_lp; [|apply H1|lia..]. unfold p1. rewrite slice_front; [done|done|rewrite ?Ea; lia..].
Qed.

(** ** The item *)

(** The page [q] has the line pointers, the last step puts the item in its place. *)
Lemma finish_add p n u s L q m L' item up :
  shape p n u s L -> lines_ok u s L -> u <= s -> s <= BLCKSZ -> s mod 8 = 0 ->
  shape q n u s (lines n q) -> lines m q = L' -> 0 <= m -> 24 + 4 * m <= up ->
  (exists L0, L0 ⊆+ L /\ L' ≡ₚ ItemIdSetNormal up (len item) :: L0) ->
  up mod 8 = 0 -> up + MAXALIGN (len item) <= u -> 0 < len item < 2 ^ 31 -> Forall is_byte item ->
  (forall o k, 24 + 4 * m <= o -> 0 <= k -> o + k <= BLCKSZ -> slice o k q = slice o k p) ->
  exists q', (do q1 <- memcpy up item q; Done (set_pd_upper up (set_pd_lower (24 + 4 * m) q1))) = Done q' /\
    page_ok q' /\ pd_special q' = s /\ view q' = map (entry_of q') L' /\
    entry_of q' (ItemIdSetNormal up (len item)) = normal_entry item /\
    forall o k, u <= o -> 0 <= k -> o + k <= BLCKSZ -> slice o k q' = slice o k p.
Proof.
  intros H Hl Hus Hs8 Hsm Hq Eq Hm Hup (L0 & HL0 & HP) Hum Hend Hpos Hb Hsl.
  pose proof (sh_sized _ _ _ _ _ Hq) as Hsq. pose proof (sz_len _ Hsq) as Elq.
  pose proof (MAXALIGN_bounds (len item) ltac:(lia)) as [HA _].
  rewrite memcpy_done by lia. cbn [obind]. eexists. split; [done|].
  set (q1 := blit up item q). set (q2 := set_pd_lower (24 + 4 * m) q1). set (q' := set_pd_upper up q2).
  assert (H1 : shape q1 n u s (lines n q1)) by (apply (shape_blit_any q _ _ _ (lines n q)); [done|lia..|done]).
  assert (H2 : shape q2 m u s (lines m q1)) by (eapply shape_set_lower; [done|lia..]).
  assert (H3 : shape q' m up s (lines m q1)) by (eapply shape_set_upper; [done|unfold BLCKSZ in *; lia]).
  assert (Em : lines m q1 = L') by (rewrite <- Eq; apply lines_blit; [done|lia..]). rewrite Em in H3.
  assert (Hslice : forall o k, 24 + 4 * m <= o -> 0 <= k -> o + k <= BLCKSZ -> slice o k q' = slice o k q1).
  { intros o k Ho Hk Hok. unfold q', q2, set_pd_upper, set_pd_lower, put. rewrite !slice_front; rewrite ?len_to_le; first [done|lia|apply H2|apply H1]. }
  split; [|split; [apply H3|split; [by eapply view_shape|split]]].
  - eapply shape_ok; [exact H3| |lia|done|done|done]. eapply lines_ok_perm; [by symmetry|]. apply (lines_ok_below u); [|done| |done|lia|lia|by intros [?|?]].
    + by apply (lines_ok_sublist _ _ L).
    + unfold lp_end. cbn. lia.
  - unfold entry_of, normal_entry, PageGetItem. cbn [ItemIdSetNormal lp_off lp_flags lp_len]. f_equal. rewrite Hslice by lia. unfold q1.
    apply slice_blit_same; lia.
  - intros o k Ho Hk Hok. rewrite Hslice by lia. unfold q1. rewrite slice_blit_out by lia. apply Hsl; lia.
Qed.

(** ** Choosing the line pointer *)

Definition free_lp (i : ItemIdData) : Prop := lp_flags i = LP_UNUSED /\ lp_len i = 0.

Lemma free_lp_test i : negb (ItemIdIsUsed i) && negb (ItemIdHasStorage i) = true <-> free_lp i.
Proof. unfold ItemIdIsUsed, ItemIdHasStorage, free_lp. by rewrite !negb_involutive, andb_true_iff, !Z.eqb_eq. Qed.

Lemma find_unused_spec fuel off limit p :
  off <= limit -> limit - off <= Z.of_nat fuel ->
  off <= find_unused fuel off limit p <= limit /\ (find_unused fuel off limit p < limit -> free_lp (PageGetItemId (find_unused fuel off limit p) p)) /\
  (forall j, off <= j < find_unused fuel off limit p -> ~ free_lp (PageGetItemId j p)).
Proof.
  revert off. induction fuel as [|fuel IH]; intros off Ho Hf; cbn [find_unused]; [repeat split; lia|].
  destruct (Z.ltb_spec off limit); [|repeat split; lia]. destruct (negb _ && _) eqn:E.
  - split; [lia|]. split; [by intros _; apply free_lp_test|lia].
  - destruct (IH (off + 1)) as (H1 & H2 & H3); [lia..|]. split; [lia|]. split; [done|]. intros j Hj.
    destruct (decide (j = off)) as [->|]; [|apply H3; lia]. by rewrite <- free_lp_test, E.
Qed.

Definition asked (offsetNumber : OffsetNumber) (flags : Z) : bool := OffsetNumberIsValid offsetNumber && negb (tst flags PAI_OVERWRITE).

Lemma select_spec p n off flags o sh p1 :
  0 <= n -> 0 <= off -> select_offset off (n + 1) flags p = Some (o, sh, p1) ->
  (p1 = p \/ exists v, p1 = set_pd_flags v p) /\ 1 <= o /\ (OffsetNumberIsValid off = true -> o = off) /\
  (o <= n + 1 -> if sh then asked off flags = true /\ o <= n else o = n + 1 \/ asked off flags = false /\ o <= n /\ free_lp (PageGetItemId o p)).
Proof.
  intros Hn Ho. unfold select_offset, asked. destruct (OffsetNumberIsValid off) eqn:Ev.
  - assert (1 <= off) as Hpos by (unfold OffsetNumberIsValid, InvalidOffsetNumber in Ev; b2p; lia).
    destruct (tst flags PAI_OVERWRITE); cbn [negb andb].
    + destruct (_ && _) eqn:E; [done|]. intros [= <- <- <-]. split; [by left|]. split; [done|]. split; [done|]. intros Hle.
      destruct (decide (off = n + 1)); [by left|right]. split; [done|]. split; [lia|]. rewrite (proj2 (Z.ltb_lt _ _)) in E by lia.
      apply free_lp_test. cbn [andb] in E. by rewrite <- negb_orb, E.
    + intros [= <- <- <-]. split; [by left|]. split; [done|]. split; [done|]. intros Hle. destruct (Z.ltb_spec off (n + 1)); [split; [done|lia]|left; lia].
  - cbn [andb]. destruct (PageHasFreeLinePointers p); [|intros [= <- <- <-]; split; [by left|]; split; [lia|]; split; [done|by left]].
    destruct (find_unused_spec (Z.to_nat (n + 1)) FirstOffsetNumber (n + 1) p) as (H1 & H2 & _); [unfold FirstOffsetNumber; lia..|].
    set (r := find_unused _ _ _ _) in *. intros [= <- <- <-]. unfold FirstOffsetNumber in *.
    split; [destruct (r >=? n + 1); [right; by eexists|by left]|]. split; [lia|]. split; [done|]. intros _.
    destruct (decide (r = n + 1)); [by left|right]. split; [done|]. split; [lia|apply H2; lia].
Qed.

(** ** The whole function *)

Definition add_entry (insert : bool) (k : nat) (e : entry) (v : list entry) : list entry :=
  take k v ++ e :: drop (if insert then k else S k) v.

Lemma limit_next p n u s L : shape p n u s L -> OffsetNumberNext (PageGetMaxOffsetNumber p) = n + 1.
Proof.
  intros H. rewrite (shape_max _ _ _ _ _ H). destruct (sh_lines _ _ _ _ _ H). unfold OffsetNumberNext, u16, wrap, BLCKSZ in *. rewrite Z.mod_small by lia. lia.
Qed.

(** A page with other flags has the same entries. *)
Lemma flags_same p v : page_ok p -> page_ok (set_pd_flags v p) /\ view (set_pd_flags v p) = view p /\ special_space (set_pd_flags v p) = special_space p.
Proof.
  intros Hp. destruct (page_shape p Hp) as (n & H & Hok & Hu & Hs & Hm & Hm'). pose proof (shape_set_flags _ _ _ _ _ H v) as H'.
  assert (Hsl : forall o k, pd_upper p <= o -> 0 <= k -> o + k <= BLCKSZ -> slice o k (set_pd_flags v p) = slice o k p).
  { intros o k Ho Hk Hok'. destruct (sh_lines _ _ _ _ _ H). apply slice_front; rewrite ?len_to_le; [apply H|lia..]. }
  split; [by eapply shape_ok|]. split.
  - rewrite (view_shape _ _ _ _ _ H'), (view_shape _ _ _ _ _ H). destruct (sh_lines _ _ _ _ _ H). eapply entries_same; [done| |lia|].
    + rewrite <- (sh_line _ _ _ _ _ H). apply lines_fits.
    + intros o k Ho Hk Hle. apply Hsl; lia.
  - unfold special_space. rewrite (sh_special _ _ _ _ _ H'). apply Hsl; lia.
Qed.

Lemma free_entry p i : free_lp i -> entry_of p i = unused_entry.
Proof. destruct i as [off flags len]. intros [E1 E2]. cbn in E1, E2. subst. done. Qed.

(** Where the new line pointer is and what the page looks like then. *)
Lemma place_lp p n u s L o (sh : bool) up item (ins : bool) :
  shape p n u s L -> 24 + 4 * (n + 1) <= BLCKSZ -> 1 <= o -> lp_fits (ItemIdSetNormal up (len item)) ->
  (if sh then ins = true /\ o <= n else o = n + 1 \/ ins = false /\ o <= n /\ free_lp (PageGetItemId o p)) ->
  let i := ItemIdSetNormal up (len item) in
  let m := if (o =? n + 1) || sh then n + 1 else n in
  exists p1, (if sh then memmove (lp_addr (o + 1)) (lp_addr o) ((n + 1 - o) * SizeOfItemIdData) p else Done p) = Done p1 /\
    let q := put_lp o i p1 in
    shape q n u s (lines n q) /\ lines m q = take (Z.to_nat (o - 1)) L ++ i :: drop (if ins then Z.to_nat (o - 1) else S (Z.to_nat (o - 1))) L /\
    (forall a k, 24 + 4 * m <= a -> 0 <= k -> a + k <= BLCKSZ -> slice a k q = slice a k p).
Proof.
  intros H Hb Ho Hi Hsh i m. pose proof (sh_sized _ _ _ _ _ H) as Hs. pose proof (sz_len _ Hs) as Hl. pose proof (shape_length _ _ _ _ _ H) as HL.
  assert (Ea : forall j, lp_addr j = 20 + 4 * j) by (intros j; unfold lp_addr, SizeOfPageHeaderData, SizeOfItemIdData; lia). subst m. destruct sh.
  - destruct Hsh as [-> Hle]. rewrite orb_true_r. unfold SizeOfItemIdData. rewrite memmove_done by (rewrite ?Ea; lia). eexists. split; [done|].
    by apply shuffle_lines.
  - rewrite orb_false_r. exists p. split; [done|]. cbv zeta. destruct Hsh as [->|(-> & Hle & Hf)].
    + rewrite Z.eqb_refl. destruct (shape_new_lp _ _ _ _ _ H i Hb Hi) as [H1 H2]. split; [by rewrite (sh_line _ _ _ _ _ H1)|]. split.
      * rewrite lines_snoc, (sh_line _ _ _ _ _ H1), H2 by (destruct (sh_lines _ _ _ _ _ H); lia).
        rewrite take_ge by lia. by rewrite drop_ge by (destruct ins; lia).
      * intros a k Ha Hk Hak. apply slice_put_lp; [done|lia..].
    + destruct (Z.eqb_spec o (n + 1)); [lia|]. pose proof (shape_put_lp _ _ _ _ _ H o i ltac:(lia) Hi) as H1.
      split; [by rewrite (sh_line _ _ _ _ _ H1)|]. split.
      * rewrite (sh_line _ _ _ _ _ H1). by rewrite insert_take_drop by lia.
      * intros a k Ha Hk Hak. apply slice_put_lp; [done|lia..].
Qed.

Lemma map_add {A} (f g : ItemIdData -> A) k j i L : map f L = map g L -> map f (take k L ++ i :: drop j L) = take k (map g L) ++ f i :: drop j (map g L).
Proof. intros E. rewrite map_app. cbn [map]. by rewrite <- E, firstn_map, skipn_map. Qed.

(** The item fits and goes to the line pointer [o]. *)
Lemma add_fits p n o (sh ins : bool) item :
  page_ok p -> shape p n (pd_upper p) (pd_special p) (line p) -> 0 < len item < 2 ^ 31 -> Forall is_byte item -> 1 <= o ->
  (if sh then ins = true /\ o <= n else o = n + 1 \/ ins = false /\ o <= n /\ free_lp (PageGetItemId o p)) ->
  let lower := if (o =? n + 1) || sh then pd_lower p + SizeOfItemIdData else pd_lower p in
  let upper := pd_upper p - MAXALIGN (len item) in
  lower <= upper ->
  exists p', (do p <- (if sh then memmove (lp_addr (o + 1)) (lp_addr o) ((n + 1 - o) * SizeOfItemIdData) p else Done p);
              let p := put_lp o (ItemIdSetNormal upper (len item)) p in
              do p <- memcpy upper item p; Done (set_pd_upper upper (set_pd_lower lower p))) = Done p' /\
    page_ok p' /\ special_space p' = special_space p /\
    view p' = add_entry ins (Z.to_nat (o - 1)) (normal_entry item) (view p).
Proof.
  intros Hp H Hi Hb Ho Hsh lower upper Hle. destruct (page_shape p Hp) as (n' & H' & Hok & Hu & Hs & Hm & Hm').
  assert (n' = n) as -> by (rewrite <- (shape_max _ _ _ _ _ H'), <- (shape_max _ _ _ _ _ H); done). clear H'.
  pose proof (MAXALIGN_bounds (len item) ltac:(lia)) as [HA HA8]. destruct (sh_lines _ _ _ _ _ H) as [Hn Hn']. pose proof (sh_lower _ _ _ _ _ H) as El.
  set (m := if (o =? n + 1) || sh then n + 1 else n).
  assert (Elow : lower = 24 + 4 * m) by (unfold lower, m, SizeOfItemIdData; rewrite El; destruct (_ || _); lia).
  assert (Hnm : n <= m) by (unfold m; destruct (_ || _); lia).
  destruct (place_lp p n _ _ _ o sh upper item ins H ltac:(unfold upper in *; unfold BLCKSZ in *; lia) Ho) as (p1 & E1 & Hq & Elines & Hsl).
  { split; [|split]; cbn [ItemIdSetNormal lp_off lp_flags lp_len]; unfold BLCKSZ, LP_NORMAL in *; unfold upper; lia. }
  { done. }
  rewrite E1. cbn [obind]. cbv zeta. set (q := put_lp o (ItemIdSetNormal upper (len item)) p1) in *. rewrite Elow.
  set (k := Z.to_nat (o - 1)) in *. set (j := if ins then k else S k) in *.
  fold m in Elines, Hsl. destruct (finish_add p n _ _ _ q m (lines m q) item upper H Hok) as (q' & E & Hq' & Es & Ev & Ei & Hsl'); [lia|lia|done|done|done|lia|lia| | |unfold upper; lia|done|done|exact Hsl|].
  - exists (take k (line p) ++ drop j (line p)). split; [|by rewrite Elines, <- Permutation_middle]. rewrite <- (take_drop k (line p)) at 3. apply submseteq_app; [done|].
    unfold j. destruct ins; [done|]. apply sublist_submseteq. replace (S k) with (k + 1)%nat by lia. rewrite <- drop_drop. apply sublist_drop.
  - unfold upper. rewrite Zminus_mod, HA8, Hm. done.
  - exists q'. split; [exact E|]. split; [done|]. split.
    + unfold special_space. rewrite Es. apply Hsl'; lia.
    + rewrite Ev, Elines. unfold view, add_entry. rewrite <- Ei. apply map_add. eapply entries_same; [exact Hok| |lia|].
      * rewrite <- (sh_line _ _ _ _ _ H). apply lines_fits.
      * intros a b Ha Hb' Hab. apply Hsl'; lia.
Qed.

Lemma hint_same p n p1 :
  page_ok p -> shape p n (pd_upper p) (pd_special p) (line p) -> p1 = p \/ (exists v, p1 = set_pd_flags v p) ->
  page_ok p1 /\ view p1 = view p /\ special_space p1 = special_space p /\ shape p1 n (pd_upper p1) (pd_special p1) (line p1) /\
  (forall o, 1 <= o <= n -> PageGetItemId o p1 = PageGetItemId o p) /\ pd_upper p1 = pd_upper p /\ pd_lower p1 = pd_lower p.
Proof.
  intros Hp H [->|[v ->]]; [done|]. destruct (flags_same p v Hp) as (H1 & H2 & H3). pose proof (shape_set_flags _ _ _ _ _ H v) as H4.
  split; [done|]. split; [done|]. split; [done|]. split.
  - rewrite (sh_upper _ _ _ _ _ H4), (sh_special _ _ _ _ _ H4), (shape_of_line _ _ _ _ _ H4). done.
  - split; [|split; [apply H4|rewrite (sh_lower _ _ _ _ _ H4); symmetry; apply H]]. intros o Ho. apply (shape_lp_at _ _ _ _ _ _ _ H4 Ho). by apply (shape_lookup _ _ _ _ _ _ H).
Qed.

(** The line pointer is chosen and there is room. *)
Lemma add_selected p n item off flags o sh p1 :
  page_ok p -> shape p n (pd_upper p) (pd_special p) (line p) -> 0 < len item < 2 ^ 31 - 8 -> Forall is_byte item -> 0 <= off ->
  select_offset off (n + 1) flags p = Some (o, sh, p1) -> o <= n + 1 -> tst flags PAI_IS_HEAP && (o >? MaxHeapTuplesPerPage) = false ->
  (if (o =? n + 1) || sh then pd_lower p + SizeOfItemIdData else pd_lower p) <= pd_upper p - MAXALIGN (len item) ->
  exists p', PageAddItemExtended item off flags p = Done (o, p') /\ page_ok p' /\ special_space p' = special_space p /\
    view p' = add_entry (asked off flags) (Z.to_nat (o - 1)) (normal_entry item) (view p).
Proof.
  intros Hp H Hi Hb Hoff Es Hon Hheap Hle. pose proof (MAXALIGN_bounds (len item) ltac:(lia)) as [HA _]. destruct (sh_lines _ _ _ _ _ H) as [Hn0 _].
  destruct (select_spec _ _ _ _ _ _ _ Hn0 Hoff Es) as (Hp1 & Ho & _ & Hsel). destruct (hint_same p n p1 Hp H Hp1) as (H1 & H2 & H3 & H4 & H5 & H6 & H7).
  unfold PageAddItemExtended. rewrite corrupted_page_false by (by apply page_not_corrupted). rewrite (limit_next _ _ _ _ _ H), Es.
  destruct (Z.gtb_spec o (n + 1)); [lia|]. rewrite Hheap, s32_small by lia. rewrite <- H6, <- H7 in Hle.
  set (low := if (o =? n + 1) || sh then pd_lower p1 + SizeOfItemIdData else pd_lower p1) in *.
  destruct (Z.gtb_spec low (pd_upper p1 - MAXALIGN (len item))); [lia|].
  destruct (add_fits p1 n o sh (asked off flags) item H1 H4 ltac:(lia) Hb Ho) as (p' & E & Hok & Hsp & Hv); [|exact Hle|].
  { specialize (Hsel Hon). destruct sh; [done|]. destruct Hsel as [?|(? & ? & ?)]; [by left|right]. rewrite H5 by lia. done. }
  cbv zeta in E. destruct (if sh then _ else Done p1) as [p2| | |] eqn:E2; cbn [obind] in E |- *; [|discriminate E..].
  destruct (memcpy _ _ _) as [p3| | |]; cbn [obind] in E |- *; [|discriminate E..]. injection E as <-. eexists. split; [done|]. split; [done|].
  split; [exact (eq_trans Hsp H3)|]. rewrite <- H2. exact Hv.
Qed.

(** C16 -- Adding an item to a page.  On a well-formed page [PageAddItemExtended] does not panic and copies inside the page.  It either refuses, and the
    entries stay, or puts one entry with the bytes of the item at the offset it returns: the one asked for; inserted before the entry
    there, or in place of an unused one, or behind the last.  The other entries keep their bytes, the special space is
    not touched and the page is well-formed again. *)
Theorem page_add_item (item : bytes) (offsetNumber : OffsetNumber) (flags : Z) (p : bytes) :
  page_ok p -> 0 < len item < 2 ^ 31 - 8 -> Forall is_byte item -> 0 <= offsetNumber ->
  exists o p', PageAddItemExtended item offsetNumber flags p = Done (o, p') /\ page_ok p' /\ special_space p' = special_space p /\
    (o = InvalidOffsetNumber /\ view p' = view p \/
     1 <= o <= Z.of_nat (length (view p)) + 1 /\ (OffsetNumberIsValid offsetNumber = true -> o = offsetNumber) /\
     (asked offsetNumber flags = false -> o <= Z.of_nat (length (view p)) -> view p !! Z.to_nat (o - 1) = Some unused_entry) /\
     view p' = add_entry (asked offsetNumber flags) (Z.to_nat (o - 1)) (normal_entry item) (view p)).
Proof.
  intros Hp Hi Hb Hoff. destruct (page_shape p Hp) as (n & H & _). pose proof (MAXALIGN_bounds (len item) ltac:(lia)) as [HA _].
  assert (Hn : Z.of_nat (length (view p)) = n) by (unfold view; rewrite length_map; by apply (shape_length _ _ _ _ _ H)). destruct (sh_lines _ _ _ _ _ H) as [Hn0 _].
  destruct (select_offset offsetNumber (n + 1) flags p) as [[[o sh] p1]|] eqn:Es.
  2:{ exists InvalidOffsetNumber, p. split; [|split; [done|split; [done|by left]]]. unfold PageAddItemExtended.
      rewrite corrupted_page_false by (by apply page_not_corrupted). by rewrite (limit_next _ _ _ _ _ H), Es. }
  destruct (select_spec _ _ _ _ _ _ _ Hn0 Hoff Es) as (Hp1 & Ho & Hval & Hsel). destruct (hint_same p n p1 Hp H Hp1) as (H1 & H2 & H3 & _ & _ & H6 & H7).
  destruct (decide (o <= n + 1 /\ tst flags PAI_IS_HEAP && (o >? MaxHeapTuplesPerPage) = false /\
    (if (o =? n + 1) || sh then pd_lower p + SizeOfItemIdData else pd_lower p) <= pd_upper p - MAXALIGN (len item))) as [(Hon & Hheap & Hle)|Hnot].
  - destruct (add_selected p n item offsetNumber flags o sh p1) as (p' & E & Hok & Hsp & Hv); try done.
    exists o, p'. split; [done|]. split; [done|]. split; [done|]. right. rewrite Hn. split; [lia|]. split; [done|]. split; [|done].
    intros Hask Hle'. specialize (Hsel Hon).
    assert (Hfree : free_lp (PageGetItemId o p)) by (destruct sh; [destruct Hsel; congruence|]; destruct Hsel as [?|(_ & _ & ?)]; [lia|done]).
    unfold view. rewrite list_lookup_fmap, (shape_lookup _ _ _ _ _ _ H) by lia. simpl. by rewrite free_entry.
  - exists InvalidOffsetNumber, p1. split; [|split; [done|split; [done|by left]]]. unfold PageAddItemExtended.
    rewrite corrupted_page_false by (by apply page_not_corrupted). rewrite (limit_next _ _ _ _ _ H), Es, s32_small, H6, H7 by lia.
    destruct (Z.gtb_spec o (n + 1)) as [|Hon]; [done|]. destruct (_ && _); [done|]. set (low := if (o =? n + 1) || sh then pd_lower p + SizeOfItemIdData else pd_lower p) in *.
    destruct (Z.gtb_spec low (pd_upper p - MAXALIGN (len item))) as [|Hle]; [done|]. exfalso. by apply Hnot.
Qed.

(** ** Room *)

Lemma any_unused_spec p n : PageGetMaxOffsetNumber p = n -> any_unused p = true <-> exists off, 1 <= off <= n /\ lp_flags (PageGetItemId off p) = LP_UNUSED.
Proof.
  intros En. unfold any_unused, ItemIdIsUsed. rewrite En, existsb_exists. split.
  - intros (off & Hin%list_elem_of_In%elem_of_seqZ & E). rewrite negb_involutive, Z.eqb_eq in E. exists off. split; [unfold FirstOffsetNumber in *; lia|done].
  - intros (off & Ho & E). exists off. rewrite negb_involutive, Z.eqb_eq. split; [|done]. apply list_elem_of_In, elem_of_seqZ. unfold FirstOffsetNumber. lia.
Qed.

Definition heap_page (p : bytes) : Prop := page_ok p /\ Z.of_nat (length (view p)) <= MaxHeapTuplesPerPage.

(** The offset a heap insertion is given is within bounds when the page has free space. *)
Lemma select_room p n :
  page_ok p -> shape p n (pd_upper p) (pd_special p) (line p) -> n <= MaxHeapTuplesPerPage -> 0 < PageGetHeapFreeSpace p ->
  exists o p1, select_offset InvalidOffsetNumber (n + 1) PAI_IS_HEAP p = Some (o, false, p1) /\ 1 <= o <= n + 1 /\ o <= MaxHeapTuplesPerPage /\
    PageGetHeapFreeSpace p = PageGetFreeSpace p.
Proof.
  intros Hp H Hn Hsp. destruct (sh_lines _ _ _ _ _ H) as [Hn0 _]. unfold select_offset, PageGetHeapFreeSpace in *. change (OffsetNumberIsValid InvalidOffsetNumber) with false. cbn iota.
  rewrite (shape_max _ _ _ _ _ H) in *. rewrite !Z.gtb_ltb, !Z.geb_leb in *.
  destruct (Z.leb_spec MaxHeapTuplesPerPage n) as [Hmax|Hmax].
  - destruct (Z.ltb_spec 0 (PageGetFreeSpace p)); cbn [andb] in *; [|lia]. destruct (PageHasFreeLinePointers p); [|lia]. destruct (any_unused p) eqn:Ea; [|lia].
    apply (any_unused_spec p n (shape_max _ _ _ _ _ H)) in Ea as (off & Ho & Ef).
    destruct (find_unused_spec (Z.to_nat (n + 1)) FirstOffsetNumber (n + 1) p) as (H1 & _ & H3); [unfold FirstOffsetNumber; lia..|]. unfold FirstOffsetNumber in *.
    set (r := find_unused _ _ _ _) in *. eexists r, _. split; [done|]. split; [lia|]. split; [|done]. destruct (decide (r <= off)); [lia|].
    exfalso. apply (H3 off); [lia|]. split; [done|]. destruct (page_shape p Hp) as (_ & _ & [Hpl _] & _). rewrite list.Forall_forall in Hpl.
    apply (Hpl (PageGetItemId off p)); [|by left]. eapply list_elem_of_lookup_2. by apply (shape_lookup _ _ _ _ _ _ H).
  - rewrite andb_false_r in *. destruct (PageHasFreeLinePointers p).
    + destruct (find_unused_spec (Z.to_nat (n + 1)) FirstOffsetNumber (n + 1) p) as (H1 & _ & _); [unfold FirstOffsetNumber; lia..|]. unfold FirstOffsetNumber in *.
      eexists _, _. split; [done|]. split; [lia|]. split; [lia|done].
    + eexists _, _. split; [done|]. split; [lia|]. split; [lia|done].
Qed.

(** C19 -- Promised room.  When [PageGetHeapFreeSpace] reports room for the aligned item on a heap page, [PageAddItemExtended] places it, at an
    unused line pointer or at a new one, and the page is again a heap page, with no more than [MaxHeapTuplesPerPage] line pointers. *)
Theorem page_room_promised (item p : bytes) :
  heap_page p -> 0 < len item < 2 ^ 31 - 8 -> Forall is_byte item -> MAXALIGN (len item) <= PageGetHeapFreeSpace p ->
  exists o p', PageAddItemExtended item InvalidOffsetNumber PAI_IS_HEAP p = Done (o, p') /\ OffsetNumberIsValid o = true /\ heap_page p' /\
    special_space p' = special_space p /\ view p' = add_entry false (Z.to_nat (o - 1)) (normal_entry item) (view p).
Proof.
  intros [Hp Hmax] Hi Hb Hroom. destruct (page_shape p Hp) as (n & H & _). pose proof (MAXALIGN_bounds (len item) ltac:(lia)) as [HA _].
  assert (Hn : Z.of_nat (length (view p)) = n) by (unfold view; rewrite length_map; by apply (shape_length _ _ _ _ _ H)). rewrite Hn in Hmax.
  destruct (select_room p n Hp H Hmax ltac:(lia)) as (o & p1 & Es & Ho & Hom & Ef). rewrite Ef in Hroom. unfold PageGetFreeSpace in Hroom.
  destruct (Z.ltb_spec (pd_upper p - pd_lower p) SizeOfItemIdData); [lia|].
  destruct (add_selected p n item InvalidOffsetNumber PAI_IS_HEAP o false p1) as (p' & E & Hok & Hs & Hv); try done; [lia| |destruct (_ || _); unfold SizeOfItemIdData in *; lia|].
  { apply andb_false_iff. right. rewrite Z.gtb_ltb. apply Z.ltb_ge. done. }
  exists o, p'. split; [done|]. split.
  { unfold OffsetNumberIsValid, InvalidOffsetNumber. destruct (Z.eqb_spec o 0); [lia|]. apply Z.leb_le. assert (MaxHeapTuplesPerPage <= MaxOffsetNumber) by done. lia. }
  split; [split; [done|]|done]. rewrite Hv. unfold add_entry. rewrite length_app. cbn [length]. rewrite length_take, length_drop.
  change (asked InvalidOffsetNumber PAI_IS_HEAP) with false. cbn iota. lia.
Qed.

(** ** A new page *)

Lemma blank_sized : sized (replicate (Z.to_nat BLCKSZ) 0).
Proof. split; [unfold len; by rewrite length_replicate|]. apply Forall_replicate. done. Qed.

Lemma page_init_ok specialSize :
  0 <= specialSize -> MAXALIGN specialSize + 24 <= BLCKSZ -> specialSize < 2 ^ 31 ->
  heap_page (PageInit specialSize) /\ view (PageInit specialSize) = [] /\ pd_special (PageInit specialSize) = BLCKSZ - MAXALIGN specialSize.
Proof.
  intros H0 Hs H31. pose proof (MAXALIGN_bounds specialSize ltac:(lia)) as [HA HA8]. set (u := BLCKSZ - MAXALIGN specialSize). unfold PageInit. fold u.
  assert (Hu : 24 <= u <= BLCKSZ) by (unfold u; lia). set (p0 := replicate (Z.to_nat BLCKSZ) 0). pose proof blank_sized as S0. fold p0 in S0.
  set (p1 := set_pd_flags 0 p0). set (p2 := set_pd_lower SizeOfPageHeaderData p1). set (p3 := set_pd_upper u p2). set (p4 := set_pd_special u p3).
  assert (S1 : sized p1) by (by apply sized_put). assert (S2 : sized p2) by (by apply sized_put). assert (S3 : sized p3) by (by apply sized_put).
  assert (S4 : sized p4) by (by apply sized_put).
  assert (H : shape (PageSetPageSizeAndVersion BLCKSZ PG_PAGE_LAYOUT_VERSION p4) 0 u u []).
  { split; [by apply sized_put|done| | | |done]; unfold PageSetPageSizeAndVersion, set_pd_pagesize_version, pd_lower, pd_upper, pd_special, put; rewrite sget_blit_out by (rewrite ?len_to_le; done || (right; done) || (left; done)).
    - unfold p4, p3, set_pd_special, set_pd_upper, put. rewrite !sget_blit_out by (rewrite ?len_to_le; done || (left; done)). by apply sget_put_same.
    - unfold p4, set_pd_special, put. rewrite sget_blit_out by (rewrite ?len_to_le; done || (left; done)). apply sget_put_same; [done..|unfold BLCKSZ in *; change (256 ^ Z.of_nat 2) with 65536; lia].
    - apply sget_put_same; [done..|unfold BLCKSZ in *; change (256 ^ Z.of_nat 2) with 65536; lia]. }
  assert (Hm : u mod 8 = 0) by (unfold u; rewrite Zminus_mod, HA8; done). assert (Ev : view (PageSetPageSizeAndVersion BLCKSZ PG_PAGE_LAYOUT_VERSION p4) = []) by (by rewrite (view_shape _ _ _ _ _ H)).
  split; [split; [|by rewrite Ev]|split; [done|apply H]]. eapply shape_ok; [exact H|split; constructor|lia|lia|done|done].
Qed.

(** ** Dropping unused line pointers *)

Definition unused_at (p : bytes) (off : OffsetNumber) : Prop := lp_flags (PageGetItemId off p) = LP_UNUSED.

Lemma used_test p off : ItemIdIsUsed (PageGetItemId off p) = false <-> unused_at p off.
Proof. unfold ItemIdIsUsed, unused_at. by rewrite negb_false_iff, Z.eqb_eq. Qed.

Lemma truncate_rest n c p : exists b, truncate_scan n true c p = (c, b) /\ (b = true <-> exists off, 1 <= off <= Z.of_nat n /\ unused_at p off).
Proof.
  induction n as [|n IH]; [exists false; split; [done|]; split; [done|intros (? & ? & _); lia]|]. cbn [truncate_scan negb andb].
  destruct (ItemIdIsUsed (PageGetItemId (Z.of_nat (S n)) p)) eqn:E; cbn [negb].
  - destruct IH as (b & -> & Hb). exists b. split; [done|]. rewrite Hb. split; intros (off & Ho & Hu); exists off; (split; [|done]); [lia|].
    destruct (decide (off = Z.of_nat (S n))) as [->|]; [|lia]. by rewrite <- used_test, E in Hu.
  - exists true. split; [done|]. split; [|done]. intros _. exists (Z.of_nat (S n)). split; [lia|]. by apply used_test.
Qed.

Lemma truncate_spec n c p :
  exists (k : nat) b, truncate_scan n false c p = (c + Z.of_nat k, b) /\ (k <= n)%nat /\ (0 < n -> k < n)%nat /\
    (forall off, Z.of_nat (n - k) < off <= Z.of_nat n -> unused_at p off) /\ (1 < n - k -> ~ unused_at p (Z.of_nat (n - k)))%nat /\
    (b = true <-> exists off, 1 <= off <= Z.of_nat (n - k) /\ unused_at p off).
Proof.
  revert c. induction n as [|n IH]; intros c.
  { exists 0%nat, false. rewrite Z.add_0_r. split; [done|]. split; [done|]. split; [lia|]. split; [lia|]. split; [lia|]. split; [done|intros (? & ? & _); lia]. }
  cbn [truncate_scan negb andb]. rewrite Z.gtb_ltb. destruct (Z.ltb_spec FirstOffsetNumber (Z.of_nat (S n))) as [Hlt|Hge]; unfold FirstOffsetNumber in *.
  - destruct (ItemIdIsUsed (PageGetItemId (Z.of_nat (S n)) p)) eqn:E; cbn [negb].
    + destruct (truncate_rest n c p) as (b & -> & Hb). exists 0%nat, b. rewrite Z.add_0_r, Nat.sub_0_r. split; [done|]. split; [lia|]. split; [lia|]. split; [lia|].
      assert (Hused : ~ unused_at p (Z.of_nat (S n))) by (rewrite <- used_test; congruence). split; [done|].
      rewrite Hb. split; intros (off & Ho & Hu); exists off; (split; [|done]); [lia|]. destruct (decide (off = Z.of_nat (S n))) as [->|]; [done|lia].
    + destruct (IH (c + 1)) as (k & b & -> & Hk & Hk' & Hun & Hlast & Hb). exists (S k), b. replace (S n - S k)%nat with (n - k)%nat by lia.
      split; [f_equal; lia|]. split; [lia|]. split; [lia|]. split; [|done]. intros off Ho. destruct (decide (off = Z.of_nat (S n))) as [->|]; [by apply used_test|apply Hun; lia].
  - assert (n = 0)%nat as -> by lia. destruct (ItemIdIsUsed _) eqn:E; cbn [negb truncate_scan].
    + exists 0%nat, false. rewrite Z.add_0_r. split; [done|]. split; [lia|]. split; [lia|]. split; [lia|]. split; [lia|]. split; [done|].
      intros (off & Ho & Hu). replace off with (Z.of_nat 1) in Hu by lia. by rewrite <- used_test, E in Hu.
    + exists 0%nat, true. rewrite Z.add_0_r. split; [done|]. split; [lia|]. split; [lia|]. split; [lia|]. split; [lia|]. split; [|done]. intros _.
      exists (Z.of_nat 1). split; [lia|]. by apply used_test.
Qed.

(** The first line pointers of a page are those of a page, too. *)
Lemma page_take p n m :
  page_ok p -> shape p n (pd_upper p) (pd_special p) (line p) -> 0 <= m <= n ->
  let q := set_pd_lower (24 + 4 * m) p in
  page_ok q /\ view q = take (Z.to_nat m) (view p) /\ special_space q = special_space p /\ shape q m (pd_upper q) (pd_special q) (line q).
Proof.
  intros Hp H Hm q. destruct (page_shape p Hp) as (n' & H' & Hok & Hu & Hs & Hmu & Hms). destruct (sh_lines _ _ _ _ _ H).
  assert (n' = n) as -> by (rewrite <- (shape_max _ _ _ _ _ H'), <- (shape_max _ _ _ _ _ H); done). clear H'.
  assert (Hq : shape q m (pd_upper p) (pd_special p) (take (Z.to_nat m) (line p))).
  { rewrite <- (shape_lines _ _ _ _ _ m H Hm). eapply shape_set_lower; [done|lia..]. }
  assert (Hsl : forall o k, pd_upper p <= o -> 0 <= k -> o + k <= BLCKSZ -> slice o k q = slice o k p).
  { intros o k Ho Hk Hok'. apply slice_front; rewrite ?len_to_le; [apply H|lia..]. }
  assert (Hok' : lines_ok (pd_upper p) (pd_special p) (take (Z.to_nat m) (line p))) by (eapply lines_ok_sublist; [apply sublist_submseteq, sublist_take|done]).
  split; [eapply shape_ok; [exact Hq|done|lia|done|done|done]|]. split; [|split].
  - rewrite (view_shape _ _ _ _ _ Hq). unfold view. rewrite firstn_map. eapply entries_same; [done| |lia|].
    + apply Forall_take. rewrite <- (sh_line _ _ _ _ _ H). apply lines_fits.
    + intros o k Ho Hk Hle. apply Hsl; lia.
  - unfold special_space. rewrite (sh_special _ _ _ _ _ Hq). apply Hsl; lia.
  - rewrite (sh_upper _ _ _ _ _ Hq), (sh_special _ _ _ _ _ Hq), (shape_of_line _ _ _ _ _ Hq). exact Hq.
Qed.

Lemma free_lines_hint b p : sized p -> PageHasFreeLinePointers (set_free_lines b p) = b.
Proof.
  intros Hs. unfold PageHasFreeLinePointers, set_free_lines, PageSetHasFreeLinePointers, PageClearHasFreeLinePointers, pd_flags, set_pd_flags, PD_HAS_FREE_LINES.
  pose proof (sget_range 2 10 p Hs ltac:(lia) ltac:(done)) as Hr. set (f := get 2 10 p) in *. change (256 ^ Z.of_nat 2) with (2 ^ 16) in Hr. change 1 with (2 ^ 0).
  destruct b; rewrite get_put_same by (rewrite ?(sz_len _ Hs); done); change (256 ^ Z.of_nat 2) with (2 ^ 16); rewrite tst_pow2, Z.mod_pow2_bits_low by lia.
  - by rewrite Z.lor_spec, orb_true_r.
  - by rewrite Z.land_spec, andb_false_r.
Qed.

Lemma free_lines_same b p : page_ok p -> page_ok (set_free_lines b p) /\ view (set_free_lines b p) = view p /\ special_space (set_free_lines b p) = special_space p.
Proof. intros Hp. unfold set_free_lines. destruct b; by apply flags_same. Qed.

Lemma view_unused p n u s L off : shape p n u s L -> 1 <= off <= n -> e_flags <$> view p !! Z.to_nat (off - 1) = Some (lp_flags (PageGetItemId off p)).
Proof.
  intros H Ho. unfold view. rewrite (shape_of_line _ _ _ _ _ H), list_lookup_fmap, (shape_lookup _ _ _ _ _ _ H Ho). done.
Qed.

(** [PageTruncateLinePointerArray] drops unused entries at the end, all but the first one of the page, and sets the hint right. *)
Lemma truncate_line_pointers p :
  page_ok p ->
  let q := PageTruncateLinePointerArray p in
  page_ok q /\ special_space q = special_space p /\
  (exists l, view p = view q ++ l /\ Forall (fun e => e_flags e = LP_UNUSED) l) /\
  (PageHasFreeLinePointers q = true <-> exists e, e ∈ view q /\ e_flags e = LP_UNUSED) /\
  (view p <> [] -> view q <> []) /\ (1 < length (view q) -> e_flags <$> last (view q) <> Some LP_UNUSED)%nat.
Proof.
  intros Hp. destruct (page_shape p Hp) as (n & H & _). destruct (sh_lines _ _ _ _ _ H) as [Hn Hn']. unfold PageTruncateLinePointerArray. rewrite (shape_max _ _ _ _ _ H).
  destruct (truncate_spec (Z.to_nat n) 0 p) as (k & b & -> & Hk & Hk' & Hun & Hlast & Hb). cbv zeta. rewrite Z.add_0_l.
  set (m := n - Z.of_nat k). set (p1 := if Z.of_nat k >? 0 then _ else p).
  assert (E1 : page_ok p1 /\ view p1 = take (Z.to_nat m) (view p) /\ special_space p1 = special_space p).
  { unfold p1. destruct (Z.gtb_spec (Z.of_nat k) 0).
    - rewrite (sh_lower _ _ _ _ _ H). unfold SizeOfItemIdData. replace (24 + 4 * n - 4 * Z.of_nat k) with (24 + 4 * m) by lia.
      destruct (page_take p n m Hp H ltac:(lia)) as (? & ? & ? & _). done.
    - split; [done|]. split; [|done]. rewrite take_ge; [done|]. unfold view. rewrite length_map. pose proof (shape_length _ _ _ _ _ H). lia. }
  destruct E1 as (Hp1 & Ev1 & Es1). destruct (free_lines_same b p1 Hp1) as (Hq & Ev & Es). rewrite Ev, Ev1, Es, Es1, (free_lines_hint b p1 (po_sized _ Hp1)).
  assert (Hlen : length (view p) = Z.to_nat n) by (unfold view; rewrite length_map; pose proof (shape_length _ _ _ _ _ H); lia).
  assert (Hflag : forall i, (i < Z.to_nat n)%nat -> e_flags <$> view p !! i = Some (lp_flags (PageGetItemId (Z.of_nat i + 1) p))).
  { intros i Hi. rewrite <- (view_unused _ _ _ _ _ _ H) by lia. do 2 f_equal. lia. }
  split; [done|]. split; [done|]. split; [|split; [|split]].
  - exists (drop (Z.to_nat m) (view p)). split; [by rewrite take_drop|]. apply Forall_lookup. intros i e. rewrite lookup_drop. intros He.
    assert (Z.to_nat m + i < Z.to_nat n)%nat as Hi by (rewrite <- Hlen; by eapply lookup_lt_Some). pose proof (Hflag _ Hi) as Ef. rewrite He in Ef. cbn in Ef. injection Ef as ->.
    apply Hun. lia.
  - rewrite Hb. split.
    + intros (off & Ho & Hu). pose proof (view_unused _ _ _ _ _ off H ltac:(lia)) as Ef. destruct (view p !! Z.to_nat (off - 1)) as [e|] eqn:Ee; [|done]. cbn in Ef. injection Ef as Ef.
      exists e. split; [|by rewrite Ef]. eapply (list_elem_of_lookup_2 _ (Z.to_nat (off - 1))). rewrite lookup_take_lt by lia. done.
    + intros (e & (i & Hi & Hlt)%elem_of_take & Ef). exists (Z.of_nat i + 1). split; [lia|]. pose proof (Hflag i ltac:(lia)) as E. rewrite Hi in E. apply (inj Some (e_flags e)) in E. unfold unused_at. by rewrite <- E.
  - intros Hne. destruct (view p) as [|e v]; [done|]. cbn [length] in Hlen. destruct (Z.to_nat m) eqn:E; [lia|done].
  - rewrite length_take. intros Hm. rewrite last_lookup, length_take. rewrite lookup_take_lt by lia. rewrite Hflag by lia. intros E%(inj Some). apply Hlast; [lia|]. unfold unused_at.
    rewrite <- E. do 2 f_equal. lia.
Qed.
