(* ===== verification/PageCompact.v ===== *)
(** * Compaction of a page

    [compactify_tuples] moves the items to the end of the page, inside the page when they are in order and through a
    copy of the page otherwise; runs of adjacent items are moved as one.  Either way every item arrives with its bytes, although the places
    of different items overlap before and after. *)
From S2P Require Import Prelude TransactionId ItemPtr Bytes Page PageInv PageAdd.
Local Open Scope Z_scope.

(** ** Where the items go *)

Definition total (items : list itemIdCompactData) : Z := foldr (fun i z => alignedlen i + z) 0 items.

(** The items with their places below [upper]. *)
Fixpoint places (upper : Z) (items : list itemIdCompactData) : list (itemIdCompactData * Z) :=
  match items with
  | [] => []
  | i :: rest => (i, upper - alignedlen i) :: places (upper - alignedlen i) rest
  end.

(** The line pointers follow. *)
Fixpoint relocate (upper : Z) (items : list itemIdCompactData) (L : list ItemIdData) : list ItemIdData :=
  match items with
  | [] => L
  | i :: rest => relocate (upper - alignedlen i) rest (alter (set_lp_off (upper - alignedlen i)) (Z.to_nat (offsetindex i)) L)
  end.

(** The item is on the page, one of [n]. *)
Definition in_page (n : Z) (i : itemIdCompactData) : Prop :=
  0 <= offsetindex i < n /\ 24 + 4 * n <= itemoff i /\ 0 <= alignedlen i /\ item_end i <= BLCKSZ.

Lemma total_nonneg n items : Forall (in_page n) items -> 0 <= total items.
Proof. induction 1 as [|i items (_ & _ & ? & _) _ IH]; simpl; lia. Qed.

Lemma alter_insert {A} (f : A -> A) (k : nat) x (l : list A) : l !! k = Some x -> alter f k l = <[k := f x]> l.
Proof. revert k. induction l as [|y l IH]; intros [|k]; [done..|by intros [= ->]|]. intros E. cbn. f_equal. by apply IH. Qed.

(** The place of one item is noted in its line pointer. *)
Lemma shape_set_off p n u s L idx up :
  shape p n u s L -> 0 <= idx < n -> 0 <= up < 2 ^ 15 ->
  shape (put_lp (idx + 1) (set_lp_off up (PageGetItemId (idx + 1) p)) p) n u s (alter (set_lp_off up) (Z.to_nat idx) L).
Proof.
  intros H Hi Hup. pose proof (shape_lookup _ _ _ _ _ (idx + 1) H ltac:(lia)) as E. replace (idx + 1 - 1) with idx in E by lia. rewrite (alter_insert _ _ _ _ E).
  pose proof (shape_put_lp _ _ _ _ _ H (idx + 1) (set_lp_off up (PageGetItemId (idx + 1) p)) ltac:(lia)) as H'.
  replace (idx + 1 - 1) with idx in H' by lia. apply H'. destruct (decode_fits (get 4 (lp_addr (idx + 1)) p)) as (_ & H1 & H2). done.
Qed.

(** ** Moving from a copy *)

(** The page with the pending bytes moved. *)
Definition moved (sc : bytes) (upper head tail : Z) (p : bytes) : bytes := blit upper (slice head (tail - head) sc) p.

Section copy.
Context (n special : Z) (sc : bytes) (Hsc : len sc = BLCKSZ) (Hscb : Forall is_byte sc).

Definition bounds (upper head tail : Z) : Prop := 0 <= head <= tail /\ tail <= BLCKSZ /\ 24 + 4 * n <= upper /\ upper + (tail - head) <= BLCKSZ.

Lemma move_pending_done upper head tail p :
  sized p -> 0 <= n -> bounds upper head tail -> move_pending (Some sc) upper head tail p = Done (moved sc upper head tail p).
Proof.
  intros [Hl _] Hn (H1 & H2 & H3 & H4). unfold move_pending. change (default p (Some sc)) with sc. rewrite memread_done by lia. cbn [obind]. apply memcpy_done; [lia|].
  rewrite len_slice by lia. lia.
Qed.

Lemma peek_moved upper head tail p k :
  sized p -> 0 <= n -> bounds upper head tail -> 0 <= k ->
  peek k (moved sc upper head tail p) = if decide (upper <= k < upper + (tail - head)) then peek (head + (k - upper)) sc else peek k p.
Proof.
  intros [Hl _] Hn (H1 & H2 & H3 & H4) Hk. unfold moved. assert (E : len (slice head (tail - head) sc) = tail - head) by (apply len_slice; lia).
  rewrite peek_blit by lia. rewrite E. case_decide; [|done]. rewrite peek_slice by lia. done.
Qed.

Lemma moved_sized upper head tail p : sized p -> 0 <= n -> bounds upper head tail -> sized (moved sc upper head tail p).
Proof.
  intros Hs Hn (H1 & H2 & H3 & H4). apply sized_blit; [done|lia| |by apply Forall_slice]. rewrite len_slice by lia. lia.
Qed.

Lemma shape_moved p u s L upper head tail : shape p n u s L -> bounds upper head tail -> shape (moved sc upper head tail p) n u s L.
Proof.
  intros H (H1 & H2 & H3 & H4). apply shape_blit; [done|done| |by apply Forall_slice]. rewrite len_slice by lia. lia.
Qed.

Lemma peek_put_lp off i p k : sized p -> 1 <= off <= n -> 24 + 4 * n <= k -> 24 + 4 * n <= BLCKSZ -> peek k (put_lp off i p) = peek k p.
Proof.
  intros [Hl _] Ho Hk Hn. unfold put_lp, put. rewrite peek_blit; rewrite ?len_to_le; unfold lp_addr, SizeOfPageHeaderData, SizeOfItemIdData in *; [|lia..].
  rewrite decide_False by lia. done.
Qed.

(** One round of the loop. *)
Lemma compact_round i upper head tail p u s L :
  shape p n u s L -> bounds upper head tail -> in_page n i -> 24 + 4 * n <= upper - alignedlen i ->
  exists tail' p1,
    (if negb (head =? item_end i) then do p <- move_pending (Some sc) upper head tail p; Done (item_end i, p) else Done (tail, p)) = Done (tail', p1) /\
    sized p1 /\
    let up := upper - alignedlen i in
    let p2 := put_lp (offsetindex i + 1) (set_lp_off up (PageGetItemId (offsetindex i + 1) p1)) p1 in
    shape p2 n u s (alter (set_lp_off up) (Z.to_nat (offsetindex i)) L) /\ bounds up (itemoff i) tail' /\
    (forall k, upper <= k -> peek k (moved sc up (itemoff i) tail' p2) = peek k (moved sc upper head tail p)) /\
    (forall k, 0 <= k < alignedlen i -> peek (up + k) (moved sc up (itemoff i) tail' p2) = peek (itemoff i + k) sc).
Proof.
  intros H Hb (Hi & Ho & Ha & He) Hup. destruct (sh_lines _ _ _ _ _ H) as [Hn Hn']. pose proof (sh_sized _ _ _ _ _ H) as Hs.
  unfold item_end in *. set (up := upper - alignedlen i). assert (Hup15 : 0 <= up < 2 ^ 15) by (unfold up; destruct Hb as (? & ? & ? & ?); unfold BLCKSZ in *; lia).
  destruct (Z.eqb_spec head (itemoff i + alignedlen i)) as [->|Hgap]; cbn [negb].
  - exists tail, p. split; [done|]. split; [done|]. cbv zeta. pose proof (shape_set_off _ _ _ _ _ (offsetindex i) up H Hi Hup15) as H2. set (p2 := put_lp _ _ _) in *.
    assert (Hb2 : bounds up (itemoff i) tail) by (destruct Hb as (? & ? & ? & ?); unfold bounds, up; lia). split; [done|]. split; [done|]. destruct Hb as (Hb1 & Hb3 & Hb4 & Hb5).
    assert (Hb : bounds upper (itemoff i + alignedlen i) tail) by done. split.
    + intros k Hk. rewrite (peek_moved up), (peek_moved upper) by (done || lia || apply H2). unfold p2. rewrite peek_put_lp by (done || lia). unfold up in *.
      case_decide as D1; case_decide as D2; [f_equal; lia|lia|lia|done].
    + intros k Hk. rewrite (peek_moved up) by (done || lia || apply H2). unfold up in *. rewrite decide_True by lia. f_equal. lia.
  - rewrite move_pending_done by done. cbn [obind]. eexists _, _. split; [done|]. split; [by apply moved_sized|]. cbv zeta. set (p1 := moved sc upper head tail p).
    assert (H1 : shape p1 n u s L) by (by apply shape_moved). pose proof (shape_set_off _ _ _ _ _ (offsetindex i) up H1 Hi Hup15) as H2. set (p2 := put_lp _ _ _) in *.
    assert (Hb2 : bounds up (itemoff i) (itemoff i + alignedlen i)) by (destruct Hb as (? & ? & ? & ?); unfold bounds, up; lia).
    split; [done|]. split; [done|]. split.
    + intros k Hk. rewrite (peek_moved up) by (done || lia || apply H2). rewrite decide_False by (unfold up; lia). unfold p2. by rewrite peek_put_lp by (apply H1 || lia).
    + intros k Hk. rewrite (peek_moved up) by (done || lia || apply H2). rewrite decide_True by lia. f_equal. lia.
Qed.

(** The whole loop. *)
Lemma compact_loop_spec items upper head tail p u s L :
  shape p n u s L -> bounds upper head tail -> Forall (in_page n) items -> 24 + 4 * n <= upper - total items ->
  exists head' tail' p',
    compact_loop (Some sc) items upper head tail p = Done (upper - total items, head', tail', p') /\
    shape p' n u s (relocate upper items L) /\ bounds (upper - total items) head' tail' /\
    let q := moved sc (upper - total items) head' tail' p' in
    (forall k, upper <= k -> peek k q = peek k (moved sc upper head tail p)) /\
    (forall i t, (i, t) ∈ places upper items -> forall k, 0 <= k < alignedlen i -> peek (t + k) q = peek (itemoff i + k) sc).
Proof.
  revert upper head tail p L. induction items as [|i items IH]; intros upper head tail p L H Hb Hi Ht; cbn [compact_loop relocate places total foldr] in *.
  { exists head, tail, p. rewrite Z.sub_0_r. split; [done|]. split; [done|]. split; [done|]. split; [done|]. by intros i t Hin%not_elem_of_nil. }
  apply Forall_cons in Hi as [Hi Hr]. pose proof (total_nonneg _ _ Hr) as Htot. fold (total items) in *.
  destruct (compact_round i upper head tail p u s L H Hb Hi ltac:(lia)) as (tail1 & p1 & E & _ & H2 & Hb2 & Hk1 & Hk2). rewrite E. cbn [obind].
  destruct (IH _ _ _ _ _ H2 Hb2 Hr ltac:(lia)) as (head' & tail' & p' & E' & H' & Hb' & Hk1' & Hk2').
  replace (upper - alignedlen i - total items) with (upper - (alignedlen i + total items)) in * by lia.
  exists head', tail', p'. split; [exact E'|]. split; [done|]. split; [done|]. destruct Hi as (_ & _ & Ha & _). split.
  - intros k Hk. rewrite Hk1' by lia. by apply Hk1.
  - intros j t [[= -> ->]|Hin]%elem_of_cons; [|by apply Hk2']. intros k Hk. rewrite Hk1' by lia. by apply Hk2.
Qed.
End copy.

Lemma peek_header off bs p k : sized p -> 0 <= off -> off + len bs <= 24 -> 24 <= k -> peek k (blit off bs p) = peek k p.
Proof. intros [Hl _] Ho Hb Hk. rewrite peek_blit by (unfold BLCKSZ in *; lia). by rewrite decide_False by lia. Qed.

Lemma compact_from_spec n sc items first upper p u s L :
  len sc = BLCKSZ -> Forall is_byte sc -> shape p n u s L -> 0 <= item_end first <= BLCKSZ -> upper <= BLCKSZ ->
  Forall (in_page n) items -> 24 + 4 * n <= upper - total items ->
  exists q, compact_from (Some sc) items first upper p = Done q /\ shape q n (upper - total items) s (relocate upper items L) /\
    (forall k, upper <= k -> peek k q = peek k p) /\
    (forall i t, (i, t) ∈ places upper items -> forall k, 0 <= k < alignedlen i -> peek (t + k) q = peek (itemoff i + k) sc).
Proof.
  intros Hsc Hscb H Hf Hu Hi Ht. destruct (sh_lines _ _ _ _ _ H) as [Hn Hn']. pose proof (total_nonneg _ _ Hi) as Htot.
  assert (Hb : bounds n upper (item_end first) (item_end first)) by (unfold bounds; lia).
  destruct (compact_loop_spec n sc Hsc Hscb items upper _ _ p u s L H Hb Hi Ht) as (head' & tail' & p' & E & H' & Hb' & Hk1 & Hk2).
  unfold compact_from. rewrite E. cbn [obind]. rewrite (move_pending_done n) by (done || apply H'). cbn [obind]. eexists. split; [done|].
  set (q := moved sc (upper - total items) head' tail' p') in *. assert (Hq : shape q n u s (relocate upper items L)) by (by apply shape_moved).
  assert (Hpk : forall k, 24 <= k -> peek k (set_pd_upper (upper - total items) q) = peek k q).
  { intros k Hk. apply peek_header; rewrite ?len_to_le; [apply Hq|done..]. }
  assert (Hlow : forall i t, (i, t) ∈ places upper items -> 24 <= t).
  { clear -Ht Hi Hn. revert upper Ht. induction Hi as [|i items (_ & _ & Ha & _) Hr IH]; intros upper Ht j t; [by intros ?%not_elem_of_nil|]. cbn [places total foldr] in *.
    fold (total items) in *. pose proof (total_nonneg _ _ Hr). intros [[= -> ->]|Hin]%elem_of_cons; [lia|]. eapply (IH (upper - alignedlen i)); [lia|done]. }
  split; [eapply shape_set_upper; [done|unfold BLCKSZ in *; lia]|]. split.
  - intros k Hk. rewrite Hpk, Hk1 by lia. rewrite (peek_moved n sc Hsc) by (done || lia || apply H). by rewrite decide_False by lia.
  - intros i t Hin k Hk. pose proof (Hlow i t Hin). rewrite Hpk by lia. by apply Hk2.
Qed.

(** ** Moving inside the page *)

(** The items lie below [head], each below the one before it. *)
Fixpoint descending (n head : Z) (items : list itemIdCompactData) : Prop :=
  match items with
  | [] => True
  | i :: rest => in_page n i /\ item_end i <= head /\ descending n (itemoff i) rest
  end.

Lemma descending_on_page n head items : descending n head items -> Forall (in_page n) items.
Proof. revert head. induction items as [|i items IH]; intros head; [done|]. intros (H1 & _ & H2). constructor; [done|]. by eapply IH. Qed.

(** The bytes below [tail] are still those of [p0]. *)
Definition untouched (n tail : Z) (p0 p : bytes) : Prop := forall k, 24 + 4 * n <= k < tail -> peek k p = peek k p0.

Lemma move_pending_same n p0 p upper head tail :
  sized p0 -> sized p -> 0 <= n -> untouched n tail p0 p -> 24 + 4 * n <= head -> head <= tail <= BLCKSZ ->
  move_pending None upper head tail p = move_pending (Some p0) upper head tail p.
Proof.
  intros H0 H Hn Hu Hh Ht. unfold move_pending. change (default p None) with p. change (default p (Some p0)) with p0.
  rewrite !memread_done by (rewrite ?(sz_len _ H0), ?(sz_len _ H); lia). cbn [obind]. f_equal.
  apply slice_ext; rewrite ?(sz_len _ H0), ?(sz_len _ H); try lia. intros k Hk. apply Hu. lia.
Qed.

(** Moving the pending bytes does not touch what is below them. *)
Lemma untouched_moved n p0 p upper head tail tail' :
  sized p0 -> sized p -> 0 <= n -> bounds n upper head tail -> untouched n tail p0 p -> tail' <= tail -> tail' <= upper ->
  untouched n tail' p0 (moved p0 upper head tail p).
Proof.
  intros H0 H Hn Hb Hu H1 H2 k Hk. rewrite (peek_moved n p0 (sz_len _ H0)) by (done || lia). rewrite decide_False by lia. apply Hu. lia.
Qed.

Lemma compact_loop_same n p0 items upper head tail p u s L :
  sized p0 -> shape p n u s L -> bounds n upper head tail -> 24 + 4 * n <= head <= upper -> untouched n tail p0 p -> descending n head items ->
  24 + 4 * n <= upper - total items ->
  (do (upper, head, tail, p) <- compact_loop None items upper head tail p; do p <- move_pending None upper head tail p; Done (set_pd_upper upper p)) =
  (do (upper, head, tail, p) <- compact_loop (Some p0) items upper head tail p; do p <- move_pending (Some p0) upper head tail p; Done (set_pd_upper upper p)).
Proof.
  intros H0. revert upper head tail p L. induction items as [|i items IH]; intros upper head tail p L H Hb Hh Hu Hd Ht; cbn [compact_loop total foldr] in *.
  { cbn [obind]. destruct (sh_lines _ _ _ _ _ H), Hb as (? & ? & _). f_equal. apply (move_pending_same n); [done|apply H|lia|done|lia|lia]. }
  fold (total items) in *. destruct Hd as (Hi & He & Hd). destruct (sh_lines _ _ _ _ _ H) as [Hn Hn']. pose proof (total_nonneg _ _ (descending_on_page _ _ _ Hd)).
  destruct (compact_round n p0 (sz_len _ H0) (sz_bytes _ H0) i upper head tail p u s L H Hb Hi ltac:(lia)) as (tail1 & p1 & E & Hs1 & H2 & Hb2 & _).
  assert (E' : (if negb (head =? item_end i) then do p <- move_pending None upper head tail p; Done (item_end i, p) else Done (tail, p)) = Done (tail1, p1)).
  { rewrite <- E. destruct Hb as (? & ? & _). rewrite (move_pending_same n p0) by (done || lia || apply H). done. }
  assert (Hu1 : untouched n tail1 p0 p1).
  { revert E. destruct (Z.eqb_spec head (item_end i)) as [|Hgap]; cbn [negb]; [by intros [= <- <-]|].
    rewrite (move_pending_done n p0 (sz_len _ H0)) by (done || apply H). cbn [obind]. intros [= <- <-]. apply untouched_moved; try done; [apply H|destruct Hb as (? & _); lia|lia]. }
  rewrite E, E'. cbn [obind]. eapply IH; [exact H2|done|destruct Hi as (? & ? & ? & ?); unfold item_end in *; lia| |done|lia].
  destruct Hi as (Hi & _). intros k Hk. rewrite (peek_put_lp n) by (done || lia). by apply Hu1.
Qed.

(** ** The whole compaction *)

Definition clear_of (i j : itemIdCompactData) : Prop := item_end i <= itemoff j \/ item_end j <= itemoff i.
Fixpoint all_clear (items : list itemIdCompactData) : Prop :=
  match items with [] => True | i :: rest => Forall (clear_of i) rest /\ all_clear rest end.

(** The item is where its line pointer says, between [upper] and [special]. *)
Definition item_at (upper special : Z) (L : list ItemIdData) (i : itemIdCompactData) : Prop :=
  (exists lp, L !! Z.to_nat (offsetindex i) = Some lp /\ lp_off lp = itemoff i) /\ upper <= itemoff i /\ item_end i <= special /\ 0 < alignedlen i.

Lemma total_app l k : total (l ++ k) = total l + total k.
Proof. induction l as [|i l IH]; simpl; [done|]. unfold total in *. simpl. lia. Qed.

Lemma skip_spec u L upper items last :
  u <= upper -> Forall (item_at u upper L) items -> all_clear items ->
  exists pre rest i, skip_placed upper items last = (upper - total pre, i, rest) /\ items = pre ++ rest /\ u <= upper - total pre /\
    relocate upper items L = relocate (upper - total pre) rest L /\ Forall (item_at u (upper - total pre) L) rest /\
    (forall j t, (j, t) ∈ places upper items -> (j, t) ∈ places (upper - total pre) rest \/ t = itemoff j /\ upper - total pre <= t) /\
    (rest = [] /\ i ∈ last :: items \/ exists r, rest = i :: r).
Proof.
  revert upper last. induction items as [|i items IH]; intros upper last Hu Hi Hc; cbn [skip_placed relocate places].
  { exists [], [], last. simpl. rewrite Z.sub_0_r. split; [done|]. split; [done|]. split; [done|]. split; [done|]. split; [done|]. split; [by left|].
    left. split; [done|]. by constructor. }
  destruct (Z.eqb_spec upper (item_end i)) as [E|E]; cbn [negb].
  2:{ exists [], (i :: items), i. simpl. rewrite Z.sub_0_r. split; [done|]. split; [done|]. split; [done|]. split; [done|]. split; [done|]. split; [by left|].
      right. by exists items. }
  apply Forall_cons in Hi as [((lp & El & Eo) & Hui & He & Ha) Hr]. destruct Hc as [Hc Hcr]. unfold item_end in E. assert (Et : upper - alignedlen i = itemoff i) by lia.
  assert (Hr' : Forall (item_at u (upper - alignedlen i) L) items).
  { rewrite list.Forall_forall in Hr, Hc |- *. intros j Hj. destruct (Hr j Hj) as (Hl & H1 & H2 & H3). destruct (Hc j Hj) as [Hd|Hd]; [unfold item_end in *; lia|].
    split; [done|]. split; [done|]. split; [lia|done]. }
  destruct (IH (upper - alignedlen i) i ltac:(lia) Hr' Hcr) as (pre & rest & i0 & H1 & H2 & H3 & H4 & H5 & H6 & H7).
  exists (i :: pre), rest, i0. assert (Etot : total (i :: pre) = alignedlen i + total pre) by done.
  replace (upper - total (i :: pre)) with (upper - alignedlen i - total pre) by lia.
  split; [done|]. split; [by rewrite H2|]. split; [lia|]. split; [|split; [done|split]].
  - rewrite (alter_insert _ _ _ _ El), Et. rewrite list_insert_id; [by rewrite <- Et|]. rewrite El. f_equal. destruct lp. cbn in *. by subst.
  - intros j t [[= -> ->]|Hin]%elem_of_cons; [|by apply H6]. right. split; [done|].
    assert (0 <= total pre); [|lia]. rewrite H2 in Hr'. apply Forall_app in Hr' as [Hp _]. clear -Hp. induction Hp as [|j l (_ & _ & _ & ?) _ IHp]; [done|]. unfold total in *. simpl. lia.
  - destruct H7 as [[-> Hin]|[r ->]]; [left|right; by exists r]. split; [done|]. by right.
Qed.

(** The copy agrees with the page where an item lies. *)
Lemma copy_items_spec n items p scratch :
  sized p -> 0 <= n -> len scratch = BLCKSZ -> Forall is_byte scratch -> Forall (in_page n) items ->
  exists sc, copy_items items p scratch = Done sc /\ len sc = BLCKSZ /\ Forall is_byte sc /\
    (forall k, 0 <= k -> peek k scratch = peek k p -> peek k sc = peek k p) /\
    (forall i, i ∈ items -> forall k, 0 <= k < alignedlen i -> peek (itemoff i + k) sc = peek (itemoff i + k) p).
Proof.
  intros Hp Hn. revert scratch. induction items as [|i items IH]; intros scratch Hl Hb Hi; cbn [copy_items].
  { exists scratch. split; [done|]. split; [done|]. split; [done|]. split; [done|]. by intros i ?%not_elem_of_nil. }
  apply Forall_cons in Hi as [(_ & H1 & H2 & H3) Hr]. unfold item_end in H3. pose proof (sz_len _ Hp) as Hlp.
  rewrite memread_done by lia. cbn [obind]. assert (Hls : len (slice (itemoff i) (alignedlen i) p) = alignedlen i) by (apply len_slice; lia).
  rewrite memcpy_done by lia. cbn [obind].
  assert (Hpk : forall k, 0 <= k -> peek k (blit (itemoff i) (slice (itemoff i) (alignedlen i) p) scratch) =
    if decide (itemoff i <= k < itemoff i + alignedlen i) then peek k p else peek k scratch).
  { intros k Hk. rewrite peek_blit by lia. rewrite Hls. case_decide; [|done]. rewrite peek_slice by lia. f_equal. lia. }
  destruct (IH (blit (itemoff i) (slice (itemoff i) (alignedlen i) p) scratch)) as (sc & E & Hsc & Hscb & Hk1 & Hk2);
    [rewrite len_blit; lia|apply Forall_blit; [done|apply Forall_slice, Hp]|done|].
  exists sc. split; [done|]. split; [done|]. split; [done|]. split.
  - intros k Hk E'. apply Hk1; [done|]. rewrite Hpk by done. by case_decide.
  - intros j [->|Hj]%elem_of_cons k Hk; [|by apply Hk2]. apply Hk1; [lia|]. rewrite Hpk by lia. by rewrite decide_True by lia.
Qed.

Section compactify.
Context (n u s : Z) (L : list ItemIdData) (p : bytes) (H : shape p n u s L) (Hu : 24 + 4 * n <= u <= s) (Hs : s <= BLCKSZ).
Context (items : list itemIdCompactData) (Hi : Forall (item_at u s L) items) (Hp : Forall (in_page n) items) (Hc : all_clear items).
Context (Ht : 24 + 4 * n <= s - total items).

(** Every item has arrived, the line pointers say where, and nothing behind the items has changed. *)
Definition compacted (q : bytes) : Prop :=
  shape q n (s - total items) s (relocate s items L) /\ (forall k, s <= k -> peek k q = peek k p) /\
  (forall i t, (i, t) ∈ places s items -> forall k, 0 <= k < alignedlen i -> peek (t + k) q = peek (itemoff i + k) p).

(** After skipping the items in place, the others are moved from a buffer that agrees with the page on them. *)
Lemma compact_rest sc pre rest i :
  len sc = BLCKSZ -> Forall is_byte sc -> items = pre ++ rest -> i ∈ items -> u <= s - total pre ->
  relocate s items L = relocate (s - total pre) rest L ->
  (forall j t, (j, t) ∈ places s items -> (j, t) ∈ places (s - total pre) rest \/ t = itemoff j /\ s - total pre <= t) ->
  (forall j, j ∈ rest -> forall k, 0 <= k < alignedlen j -> peek (itemoff j + k) sc = peek (itemoff j + k) p) ->
  exists q, compact_from (Some sc) rest i (s - total pre) p = Done q /\ compacted q.
Proof.
  intros Hsc Hscb E Hin Hle Er Hpl Hag. pose proof (f_equal total E) as Et. rewrite total_app in Et. destruct (sh_lines _ _ _ _ _ H).
  pose proof Hp as Hp'. rewrite E in Hp'. apply Forall_app in Hp' as [Hpp Hpr]. pose proof (total_nonneg _ _ Hpp).
  assert (Hend : 0 <= item_end i <= BLCKSZ) by (rewrite list.Forall_forall in Hp; destruct (Hp i Hin) as (? & ? & ? & ?); unfold item_end in *; lia).
  destruct (compact_from_spec n sc rest i (s - total pre) p u s L) as (q & Eq & Hq & Hk1 & Hk2); try done; [lia|lia|].
  exists q. split; [done|]. split; [rewrite Er; by replace (s - total items) with (s - total pre - total rest) by lia|]. split; [intros k Hk; apply Hk1; lia|].
  intros j t Hjt k Hk. destruct (Hpl j t Hjt) as [Hjt'|[-> Hge]]; [|apply Hk1; lia]. rewrite (Hk2 j t Hjt' k Hk). apply Hag; [|done].
  clear -Hjt'. revert Hjt'. generalize (s - total pre). induction rest as [|x rest IH]; intros z Hjt; [by apply not_elem_of_nil in Hjt|].
  apply elem_of_cons in Hjt as [[= -> _]|Hjt]; [by left|right]. by eapply IH.
Qed.

Lemma descending_suffix head pre rest : descending n head (pre ++ rest) -> exists head', descending n head' rest.
Proof. revert head. induction pre as [|i pre IH]; intros head; [by exists head|]. intros (_ & _ & Hd). by eapply IH. Qed.

Lemma compactify_presorted first rest garbage :
  items = first :: rest -> descending n s items -> exists q, compactify_tuples garbage items p true = Done q /\ compacted q.
Proof.
  intros E Hd.
  assert (compactify_tuples garbage items p true = let '(upper, i, rest) := skip_placed s items first in compact_from None rest i upper p) as ->.
  { rewrite E. unfold compactify_tuples. by rewrite (sh_special _ _ _ _ _ H). }
  pose proof (sh_sized _ _ _ _ _ H) as Hsz. destruct (sh_lines _ _ _ _ _ H).
  destruct (skip_spec u L s items first ltac:(lia) Hi Hc) as (pre & others & i & E1 & E2 & H3 & H4 & H5 & H6 & H7). rewrite E1.
  pose proof (f_equal total E2) as Et. rewrite total_app in Et.
  assert (Hin : i ∈ items) by (destruct H7 as [[_ Hin]|[r ->]]; [rewrite E in Hin |- *; set_solver|rewrite E2; set_solver]).
  destruct (compact_rest p pre others i) as (q & Eq & Hq); try done; [apply Hsz|apply Hsz|]. exists q. split; [|done]. rewrite <- Eq. unfold compact_from.
  destruct H7 as [[-> _]|[r Er]].
  - reflexivity.
  - rewrite E2 in Hd. apply descending_suffix in Hd as [head' Hd]. rewrite Er in Hd, H5. apply Forall_cons in H5 as [(_ & ? & ? & ?) _]. destruct Hd as (Ho & _ & Hd).
    rewrite Er. destruct Ho as (? & ? & ? & ?). eapply (compact_loop_same n p _ _ _ _ p u s L); try done; [|unfold item_end in *; lia|rewrite <- Er; lia].
    assert (0 <= total pre) by (rewrite E2 in Hp; apply Forall_app in Hp as [Hpp _]; by eapply total_nonneg). unfold bounds, item_end in *. lia.
Qed.

Lemma compactify_unsorted first rest garbage :
  items = first :: rest -> len garbage = BLCKSZ -> Forall is_byte garbage -> exists q, compactify_tuples garbage items p false = Done q /\ compacted q.
Proof.
  intros E Hg Hgb.
  assert (compactify_tuples garbage items p false =
    if Z.of_nat (length items) <? PageGetMaxOffsetNumber p / 4 then
      do scratch <- copy_items items p garbage; compact_from (Some scratch) items first s p
    else
      let '(upper, i, rest) := skip_placed s items first in
      do bs <- memread u (upper - u) p; do scratch <- memcpy u bs garbage; compact_from (Some scratch) rest i upper p) as ->.
  { rewrite E. unfold compactify_tuples. by rewrite (sh_special _ _ _ _ _ H), (sh_upper _ _ _ _ _ H). }
  pose proof (sh_sized _ _ _ _ _ H) as Hsz. destruct (sh_lines _ _ _ _ _ H).
  destruct (_ <? _).
  - destruct (copy_items_spec n items p garbage) as (sc & E1 & Hsc & Hscb & _ & Hk); try done. rewrite E1. cbn [obind].
    destruct (compact_rest sc [] items first) as (q & Eq & Hq); try done; [rewrite E; by left|simpl; lia|simpl; by rewrite Z.sub_0_r|simpl; rewrite Z.sub_0_r; by left|].
    exists q. split; [|done]. rewrite <- Eq. simpl. by rewrite Z.sub_0_r.
  - destruct (skip_spec u L s items first ltac:(lia) Hi Hc) as (pre & others & i & E1 & E2 & H3 & H4 & H5 & H6 & H7). rewrite E1.
    assert (Hin : i ∈ items) by (destruct H7 as [[_ Hin]|[r ->]]; [rewrite E in Hin |- *; set_solver|rewrite E2; set_solver]).
    assert (0 <= total pre) by (rewrite E2 in Hp; apply Forall_app in Hp as [Hpp _]; by eapply total_nonneg).
    set (up := s - total pre) in *. rewrite memread_done by (rewrite ?(sz_len _ Hsz); lia). cbn [obind].
    assert (Hls : len (slice u (up - u) p) = up - u) by (apply len_slice; rewrite ?(sz_len _ Hsz); lia). rewrite memcpy_done by lia. cbn [obind].
    apply (compact_rest (blit u (slice u (up - u) p) garbage) pre others i); try done; [rewrite len_blit; lia|apply Forall_blit; [done|apply Forall_slice, Hsz]|].
    intros j Hj k Hk. rewrite list.Forall_forall in H5. destruct (H5 j Hj) as (_ & ? & ? & _). unfold item_end in *. rewrite peek_blit by lia. rewrite Hls.
    rewrite decide_True by lia. rewrite peek_slice by lia. f_equal. lia.
Qed.
End compactify.
