(* ===== verification/PageRepair.v ===== *)
(** * Defragmentation

    [PageRepairFragmentation] keeps every entry of a heap page and its bytes, drops the unused line pointers at the end and joins
    all free space. *)
From stdpp Require Import sorting.
From S2P Require Import Prelude TransactionId ItemPtr Bytes Page PageInv PageAdd PageCompact.
Local Open Scope Z_scope.

(** ** The items of a page *)

Definition item_of (k : Z) (i : ItemIdData) : itemIdCompactData := {| offsetindex := k; itemoff := lp_off i; alignedlen := MAXALIGN (lp_len i) |}.

Fixpoint items_of (k : Z) (l : list ItemIdData) : list itemIdCompactData :=
  match l with
  | [] => []
  | i :: l => if lp_len i =? 0 then items_of (k + 1) l else item_of k i :: items_of (k + 1) l
  end.

(** The line pointers with their items packed below [upper]. *)
Fixpoint repack (upper : Z) (l : list ItemIdData) : list ItemIdData :=
  match l with
  | [] => []
  | i :: l => if lp_len i =? 0 then i :: repack upper l
              else set_lp_off (upper - MAXALIGN (lp_len i)) i :: repack (upper - MAXALIGN (lp_len i)) l
  end.

Lemma aligned_pos i : lp_fits i -> stored i -> 0 < MAXALIGN (lp_len i) < 2 ^ 15 + 8 /\ MAXALIGN (lp_len i) mod 8 = 0.
Proof. intros (_ & _ & H) Hs. unfold stored in Hs. pose proof (MAXALIGN_bounds (lp_len i) ltac:(lia)) as [? ?]. split; [lia|done]. Qed.

Lemma items_of_in k l j : j ∈ items_of k l -> exists (m : nat) i, l !! m = Some i /\ stored i /\ j = item_of (k + Z.of_nat m) i.
Proof.
  revert k. induction l as [|i l IH]; intros k Hj; cbn [items_of] in Hj; [by apply not_elem_of_nil in Hj|].
  assert (Hrest : j ∈ items_of (k + 1) l -> exists (m : nat) i0, (i :: l) !! m = Some i0 /\ stored i0 /\ j = item_of (k + Z.of_nat m) i0).
  { intros (m & i0 & Hm & Hs & ->)%IH. exists (S m), i0. split; [done|]. split; [done|]. f_equal. lia. }
  destruct (Z.eqb_spec (lp_len i) 0); [by apply Hrest|]. apply elem_of_cons in Hj as [->|Hj]; [|by apply Hrest]. exists 0%nat, i. split; [done|]. split; [done|]. f_equal. lia.
Qed.

Section items.
Context (u s : Z) (l : list ItemIdData) (Hok : lines_ok u s l) (Hf : Forall lp_fits l).

Lemma items_at : Forall (item_at u s l) (items_of 0 l).
Proof.
  apply list.Forall_forall. intros j (m & i & Hm & Hs & ->)%items_of_in. rewrite list.Forall_forall in Hf. pose proof (lo_placed _ _ _ Hok) as Hp. rewrite list.Forall_forall in Hp.
  assert (Hin : i ∈ l) by (by eapply list_elem_of_lookup_2). destruct (proj1 (Hp i Hin) Hs) as (H1 & H2 & _). destruct (aligned_pos i (Hf i Hin) Hs) as [? _].
  split; [exists i; split; [cbn; by rewrite Z.add_0_l, Nat2Z.id|done]|]. split; [done|]. split; [done|cbn; lia].
Qed.

Lemma items_on_page n : Z.of_nat (length l) = n -> 24 + 4 * n <= u -> s <= BLCKSZ -> Forall (in_page n) (items_of 0 l).
Proof.
  intros Hn Hu Hs. pose proof items_at as Ha. rewrite list.Forall_forall in Ha |- *. intros j Hj. destruct (Ha j Hj) as (_ & H1 & H2 & H3).
  destruct (items_of_in _ _ _ Hj) as (m & i & Hm & _ & ->). apply lookup_lt_Some in Hm. cbn [item_of offsetindex itemoff alignedlen] in *. unfold in_page. cbn. unfold item_end in *. cbn in *. lia.
Qed.

Lemma items_clear k : all_clear (items_of k l).
Proof.
  revert k. clear Hf. induction l as [|i l' IH]; intros k; cbn [items_of]; [done|]. apply lines_ok_cons in Hok as (_ & Ha & Hl).
  destruct (Z.eqb_spec (lp_len i) 0) as [|Hs]; [by apply IH|]. split; [|by apply IH]. apply list.Forall_forall. intros j (m & i' & Hm & Hs' & ->)%items_of_in.
  rewrite list.Forall_forall in Ha. exact (Ha i' (list_elem_of_lookup_2 _ _ _ Hm) Hs Hs').
Qed.
End items.

(** Items that are clear of each other need no more room than there is. *)
Lemma total_perm l k : l ≡ₚ k -> total l = total k.
Proof. unfold total. induction 1; simpl; lia. Qed.

Lemma all_clear_perm l k : l ≡ₚ k -> all_clear l -> all_clear k.
Proof.
  assert (Hsym : forall i j, clear_of i j -> clear_of j i) by (intros i j [?|?]; [by right|by left]).
  induction 1 as [|i l k HP IH|i j l|l1 l2 l3 _ IH1 _ IH2]; [done| | |by auto].
  - intros [Hi Hl]. split; [by rewrite <- HP|by apply IH].
  - intros [Hj [Hi Hl]]. apply Forall_cons in Hj as [Hij Hj]. split; [constructor; [by apply Hsym|done]|done].
Qed.

Definition off_le (i j : itemIdCompactData) : Prop := itemoff i <= itemoff j.
#[local] Instance off_le_dec i j : Decision (off_le i j).
Proof. unfold off_le. apply _. Defined.
#[local] Instance off_le_total : Total off_le.
Proof. intros i j. unfold off_le. lia. Qed.
#[local] Instance off_le_trans : Transitive off_le.
Proof. intros i j k. unfold off_le. lia. Qed.

Lemma total_sorted u s l :
  StronglySorted off_le l -> all_clear l -> Forall (fun i => u <= itemoff i /\ item_end i <= s /\ 0 < alignedlen i) l -> u <= s -> total l <= s - u.
Proof.
  intros Hs. revert u. induction Hs as [|i l Hs IH Hle]; intros u Hc Hb Hu; [simpl; lia|]. destruct Hc as [Hc Hcl]. apply Forall_cons in Hb as [(H1 & H2 & H3) Hb].
  assert (total l <= s - item_end i); [|unfold total, item_end in *; simpl; lia]. apply IH; [done| |done].
  rewrite list.Forall_forall in Hb, Hc, Hle |- *. intros j Hj. destruct (Hb j Hj) as (? & ? & ?). specialize (Hle j Hj). unfold off_le in Hle.
  split; [|done]. destruct (Hc j Hj); [done|]. unfold item_end in *. lia.
Qed.

Lemma total_fits u s L l : all_clear l -> Forall (item_at u s L) l -> u <= s -> total l <= s - u.
Proof.
  intros Hc Hi Hu. rewrite <- (total_perm _ _ (merge_sort_Permutation off_le l)). apply total_sorted; [apply StronglySorted_merge_sort; apply _| | |done].
  - eapply all_clear_perm; [symmetry; apply merge_sort_Permutation|done].
  - rewrite merge_sort_Permutation. eapply Forall_impl; [done|]. by intros i (_ & ?).
Qed.

(** ** Packing *)

Lemma relocate_repack upper pre l : relocate upper (items_of (Z.of_nat (length pre)) l) (pre ++ l) = pre ++ repack upper l.
Proof.
  revert upper pre. induction l as [|i l IH]; intros upper pre; [by cbn|]. cbn [items_of repack].
  assert (Hnext : forall j up, relocate up (items_of (Z.of_nat (length pre) + 1) l) (pre ++ j :: l) = pre ++ j :: repack up l).
  { intros j up. specialize (IH up (pre ++ [j])). rewrite length_app, Nat2Z.inj_add in IH. rewrite <- !app_assoc in IH. exact IH. }
  destruct (Z.eqb_spec (lp_len i) 0); [apply Hnext|]. cbn [relocate item_of offsetindex alignedlen]. rewrite Nat2Z.id.
  rewrite (alter_insert _ _ i) by (rewrite lookup_app_r, Nat.sub_diag by lia; done). rewrite insert_app_r_alt, Nat.sub_diag by lia. apply Hnext.
Qed.

Lemma repack_ok s upper l :
  lines_ok 0 s l -> Forall lp_fits l -> upper <= s -> upper mod 8 = 0 ->
  lines_ok (upper - total (items_of 0 l)) s (repack upper l) /\ Forall (fun i => stored i -> lp_end i <= upper) (repack upper l) /\ 0 <= total (items_of 0 l).
Proof.
  intros Hok Hf. revert upper.
  assert (Htot : forall k k', total (items_of k l) = total (items_of k' l)).
  { clear. induction l as [|i l IH]; intros k k'; [done|]. cbn [items_of]. destruct (_ =? _); [apply IH|]. unfold total in *. simpl. by rewrite (IH _ (k' + 1)). }
  clear Htot. assert (forall k upper, upper <= s -> upper mod 8 = 0 ->
    lines_ok (upper - total (items_of k l)) s (repack upper l) /\ Forall (fun i => stored i -> lp_end i <= upper) (repack upper l) /\ 0 <= total (items_of k l)); [|by eauto].
  induction Hf as [|i l Hi Hf IH]; intros k upper Hs Hm; cbn [items_of repack]; [split; [split; constructor|split; [constructor|done]]|].
  apply lines_ok_cons in Hok as ([_ Hun] & _ & Hl). destruct (Z.eqb_spec (lp_len i) 0) as [E|Hst].
  - destruct (IH Hl (k + 1) upper Hs Hm) as (H1 & H2 & H3). split; [by apply lines_ok_empty|]. split; [|done]. constructor; [by intros []|done].
  - destruct (aligned_pos i Hi Hst) as [[Ha _] Ha8]. set (up := upper - MAXALIGN (lp_len i)).
    destruct (IH Hl (k + 1) up ltac:(unfold up; lia)) as (H1 & H2 & H3); [unfold up; rewrite Zminus_mod, Ha8, Hm; done|].
    assert (Et : total (item_of k i :: items_of (k + 1) l) = MAXALIGN (lp_len i) + total (items_of (k + 1) l)) by done. rewrite Et.
    replace (upper - (MAXALIGN (lp_len i) + total (items_of (k + 1) l))) with (up - total (items_of (k + 1) l)) by (unfold up; lia).
    assert (Ee : lp_end (set_lp_off up i) = upper) by (unfold lp_end, up; cbn; lia). split; [|split; [|lia]].
    + apply lines_ok_cons. split; [|split; [|done]].
      * split; [|exact Hun]. intros _. cbn [set_lp_off lp_off]. rewrite Ee. split; [lia|]. split; [done|]. unfold up. rewrite Zminus_mod, Ha8, Hm. done.
      * eapply Forall_impl; [exact H2|]. intros j Hj _ Hsj. right. cbn. by apply Hj.
    + constructor; [by rewrite Ee|]. eapply Forall_impl; [exact H2|]. intros j Hj Hsj. specialize (Hj Hsj). unfold up in Hj. lia.
Qed.

(** With the bytes in their new places the entries are the same. *)
Lemma repack_entries p q k upper l :
  sized p -> sized q -> Forall lp_fits l -> lines_ok 0 BLCKSZ l -> 0 <= upper - total (items_of k l) -> upper <= BLCKSZ ->
  (forall i t, (i, t) ∈ places upper (items_of k l) -> forall j, 0 <= j < alignedlen i -> peek (t + j) q = peek (itemoff i + j) p) ->
  map (entry_of q) (repack upper l) = map (entry_of p) l.
Proof.
  intros Hp Hq Hf. revert k upper. induction Hf as [|i l Hi Hf IH]; intros k upper Hok Hlo Hhi Hpl; cbn [items_of repack map places] in *; [done|].
  apply lines_ok_cons in Hok as ([Hst' Hri] & _ & Hl). destruct (Z.eqb_spec (lp_len i) 0) as [E|Hst].
  - cbn [map]. f_equal; [by apply entry_empty|]. by apply (IH (k + 1)).
  - cbn [map places] in *. destruct (aligned_pos i Hi Hst) as [[Ha _] _]. destruct (Hst' Hst) as (H1 & H2 & _). destruct Hi as (Hi1 & _ & Hi3).
    pose proof (MAXALIGN_bounds (lp_len i) ltac:(lia)) as [HA _].
    assert (Et : total (item_of k i :: items_of (k + 1) l) = MAXALIGN (lp_len i) + total (items_of (k + 1) l)) by done. rewrite Et in Hlo.
    assert (Htot : 0 <= total (items_of (k + 1) l)).
    { clear -Hf. revert k. induction Hf as [|j l Hj _ IH]; intros k; [done|]. cbn [items_of]. destruct (Z.eqb_spec (lp_len j) 0) as [|Hs]; [apply IH|].
      destruct (aligned_pos j Hj Hs) as [? _]. specialize (IH (k + 1)). unfold total in *. simpl. lia. }
    f_equal.
    + unfold entry_of, PageGetItem. cbn [set_lp_off lp_off lp_flags lp_len]. f_equal.
      * destruct (Z.eqb_spec (lp_flags i) LP_REDIRECT) as [Er|]; [|done]. by rewrite Hri in Hst by (by right).
      * apply slice_ext; rewrite ?(sz_len _ Hp), ?(sz_len _ Hq); try lia; [unfold lp_end in H2; lia|]. intros j Hj. apply (Hpl (item_of k i)); [by left|cbn; lia].
    + apply (IH (k + 1)); [done|lia|lia|]. intros j t Hjt. apply Hpl. by right.
Qed.

Lemma total_aligned k l : Forall lp_fits l -> total (items_of k l) mod 8 = 0.
Proof.
  intros Hf. revert k. induction Hf as [|i l Hi Hf IH]; intros k; cbn [items_of]; [done|]. destruct (Z.eqb_spec (lp_len i) 0) as [|Hs]; [apply IH|].
  destruct (aligned_pos i Hi Hs) as [_ Ha]. unfold total in *. cbn [foldr item_of alignedlen]. by rewrite Zplus_mod, Ha, IH.
Qed.

(** A page after compaction. *)
Lemma compact_page garbage p n u s L presorted :
  shape p n u s L -> lines_ok u s L -> 24 + 4 * n <= u <= s -> s <= BLCKSZ -> s mod 8 = 0 -> len garbage = BLCKSZ -> Forall is_byte garbage ->
  items_of 0 L <> [] -> (presorted = true -> descending n s (items_of 0 L)) ->
  exists q, compactify_tuples garbage (items_of 0 L) p presorted = Done q /\ shape q n (s - total (items_of 0 L)) s (repack s L) /\ page_ok q /\
    view q = map (entry_of p) L /\ forall o k, s <= o -> 0 <= k -> o + k <= BLCKSZ -> slice o k q = slice o k p.
Proof.
  intros H Hok Hu Hs Hm Hg Hgb Hne Hd. pose proof (sh_sized _ _ _ _ _ H) as Hsz. destruct (sh_lines _ _ _ _ _ H) as [Hn Hn'].
  assert (Hf : Forall lp_fits L) by (rewrite <- (sh_line _ _ _ _ _ H); apply lines_fits). pose proof (items_at _ _ _ Hok Hf) as Hat. pose proof (items_clear _ _ _ Hok 0) as Hc.
  pose proof (items_on_page _ _ _ Hok Hf n (shape_length _ _ _ _ _ H) ltac:(lia) Hs) as Hon. pose proof (total_fits _ _ _ _ Hc Hat ltac:(lia)) as Ht.
  destruct (items_of 0 L) as [|first rest] eqn:E; [done|].
  assert (exists q, compactify_tuples garbage (first :: rest) p presorted = Done q /\ compacted n s L p (first :: rest) q) as (q & Eq & Hq & Hk1 & Hk2).
  { destruct presorted.
    - eapply (compactify_presorted n u s L p H); try done; [lia|by apply Hd].
    - eapply (compactify_unsorted n u s L p H); try done; lia. }
  exists q. split; [done|]. rewrite <- E in *. pose proof (relocate_repack s [] L) as Er. change (Z.of_nat (length [])) with 0 in Er. simpl in Er. rewrite Er in Hq.
  destruct (repack_ok s s L (lines_ok_mono u 0 s L ltac:(lia) Hok) Hf ltac:(lia) Hm) as (Hok' & _ & Htot).
  pose proof (total_aligned 0 L Hf) as Hta. split; [done|]. split; [|split].
  - eapply shape_ok; [exact Hq|exact Hok'|lia|done|by rewrite Zminus_mod, Hta, Hm|done].
  - rewrite (view_shape _ _ _ _ _ Hq). apply (repack_entries p q 0); [done|apply Hq|done| |lia|lia|done].
    apply (lines_ok_mono u); [lia|]. destruct Hok as [Hp Ha]. split; [|done]. eapply Forall_impl; [exact Hp|]. intros i [H1 H2]. split; [|done]. intros Hst. destruct (H1 Hst) as (? & ? & ?). repeat split; [done|lia|done].
  - intros o k Ho Hk Hle. apply slice_ext; rewrite ?(sz_len _ Hsz), ?(sz_len _ (sh_sized _ _ _ _ _ Hq)); try lia. intros j Hj. apply Hk1. lia.
Qed.

(** ** The scan *)

Definition clean (i : ItemIdData) : ItemIdData := if ItemIdIsUsed i then i else ItemIdSetUnused.

(** What the scan finds in a list of line pointers. *)
Fixpoint scan_of (off : OffsetNumber) (l : list ItemIdData) (st : scan) : scan :=
  match l with
  | [] => st
  | i :: l =>
      scan_of (off + 1) l
        (if ItemIdIsUsed i then used_upto off (if ItemIdHasStorage i then keep_item (off - 1) (lp_off i) (lp_len i) st else st) else one_unused st)
  end.

Lemma repair_scan_spec l pre n u s off st p :
  shape p n u s (pre ++ l) -> lines_ok u s l -> 0 <= u -> off = Z.of_nat (length pre) + 1 -> Z.of_nat (length (sc_items st) + length l) <= MaxHeapTuplesPerPage ->
  exists p', repair_scan (length l) off u s st p = Done (scan_of off l st, p') /\ shape p' n u s (pre ++ map clean l) /\
    forall o k, 24 + 4 * n <= o -> 0 <= k -> o + k <= BLCKSZ -> slice o k p' = slice o k p.
Proof.
  revert pre off st p. induction l as [|i l IH]; intros pre off st p H Hok Hu Hoff Hlen; cbn [length repair_scan scan_of map] in *; [by exists p|].
  pose proof (shape_length _ _ _ _ _ H) as HL. rewrite length_app in HL. cbn [length] in HL. destruct (sh_lines _ _ _ _ _ H) as [Hn Hn'].
  assert (Ei : PageGetItemId off p = i) by (apply (shape_lp_at p n u s (pre ++ i :: l) off i H); [lia|]; rewrite lookup_app_r by lia; by replace (Z.to_nat (off - 1) - length pre)%nat with 0%nat by lia).
  assert (Hfi : lp_fits i) by (rewrite <- Ei; apply decode_fits).
  apply lines_ok_cons in Hok as ([Hpl Hun] & _ & Hl). rewrite Ei. unfold clean at 1. destruct (ItemIdIsUsed i) eqn:Eu.
  - assert (Hnext : forall st', Z.of_nat (length (sc_items st') + length l) <= MaxHeapTuplesPerPage -> exists p', repair_scan (length l) (off + 1) u s st' p = Done (scan_of (off + 1) l st', p') /\
      shape p' n u s (pre ++ i :: map clean l) /\ forall o k, 24 + 4 * n <= o -> 0 <= k -> o + k <= BLCKSZ -> slice o k p' = slice o k p).
    { intros st' Hst'. destruct (IH (pre ++ [i]) (off + 1) st' p) as (p' & E & H' & Hsl); [by rewrite <- app_assoc|done|done|rewrite length_app; simpl; lia|done|].
      exists p'. rewrite <- app_assoc in H'. done. }
    destruct (ItemIdHasStorage i) eqn:Est; [|apply Hnext; cbn; lia]. unfold ItemIdHasStorage in Est. b2p. destruct (aligned_pos i Hfi Est) as [[Ha _] _]. destruct (Hpl Est) as (H1 & H2 & _). unfold lp_end in H2.
    destruct (Z.leb_spec MaxHeapTuplesPerPage (Z.of_nat (length (sc_items st)))); [lia|]. rewrite Z.geb_leb, (proj2 (Z.ltb_ge _ _)), (proj2 (Z.leb_gt _ _)) by lia. cbn [orb].
    apply Hnext. cbn [used_upto keep_item sc_items]. rewrite length_app. simpl. lia.
  - assert (H1 : shape (put_lp off ItemIdSetUnused p) n u s ((pre ++ [ItemIdSetUnused]) ++ l)).
    { pose proof (shape_put_lp _ _ _ _ _ H off ItemIdSetUnused ltac:(lia)) as H1. rewrite <- app_assoc. cbn [app].
      replace (Z.to_nat (off - 1)) with (length pre + 0)%nat in H1 by lia. rewrite insert_app_r in H1. apply H1. repeat split; done. }
    destruct (IH (pre ++ [ItemIdSetUnused]) (off + 1) (one_unused st) _ H1 Hl Hu) as (p' & E & H' & Hsl); [rewrite length_app; simpl; lia|cbn; lia|].
    exists p'. split; [exact E|]. rewrite <- app_assoc in H'. split; [exact H'|]. intros o k Ho Hk Hle. rewrite Hsl by done. apply slice_put_lp; [apply H|lia..].
Qed.

(** *** What it finds *)

Lemma unused_empty u s i : placed u s i -> ItemIdIsUsed i = false -> lp_len i = 0.
Proof. intros [_ H] E. apply H. left. unfold ItemIdIsUsed in E. by b2p. Qed.

Lemma scan_items u s off l st :
  Forall (placed u s) l ->
  sc_items (scan_of off l st) = sc_items st ++ items_of (off - 1) l /\ sc_totallen (scan_of off l st) = sc_totallen st + total (items_of (off - 1) l).
Proof.
  intros Hl. revert off st. induction Hl as [|i l Hi _ IH]; intros off st; cbn [scan_of items_of]; [rewrite app_nil_r; simpl; split; [done|lia]|].
  destruct (IH (off + 1) (if ItemIdIsUsed i then used_upto off (if ItemIdHasStorage i then keep_item (off - 1) (lp_off i) (lp_len i) st else st) else one_unused st)) as [-> ->].
  replace (off + 1 - 1) with (off - 1 + 1) by lia. pose proof (unused_empty u s i Hi) as Hun. unfold ItemIdHasStorage. destruct (ItemIdIsUsed i).
  - destruct (Z.eqb_spec (lp_len i) 0) as [E|E]; cbn [negb used_upto keep_item sc_items sc_totallen]; [done|]. rewrite <- app_assoc. split; [done|].
    unfold total. cbn [foldr item_of alignedlen]. lia.
  - rewrite (Hun eq_refl). done.
Qed.

Fixpoint falling (last : Z) (items : list itemIdCompactData) : Prop :=
  match items with [] => True | i :: rest => itemoff i < last /\ falling (itemoff i) rest end.

Lemma scan_presorted u s off l st :
  Forall (placed u s) l -> sc_presorted (scan_of off l st) = true -> sc_presorted st = true /\ falling (sc_last st) (items_of (off - 1) l).
Proof.
  intros Hl. revert off st. induction Hl as [|i l Hi _ IH]; intros off st; cbn [scan_of items_of falling]; [done|]. intros H. apply IH in H. clear IH.
  replace (off + 1 - 1) with (off - 1 + 1) in H by lia. pose proof (unused_empty u s i Hi) as Hun. unfold ItemIdHasStorage in H. destruct (ItemIdIsUsed i).
  - destruct (Z.eqb_spec (lp_len i) 0) as [E|E]; cbn [negb used_upto keep_item sc_presorted sc_last] in H; [done|]. rewrite Z.gtb_ltb in H.
    destruct (Z.ltb_spec (lp_off i) (sc_last st)); [|by destruct H]. destruct H as [? ?]. split; [done|]. split; [done|done].
  - rewrite (Hun eq_refl). exact H.
Qed.

Lemma falling_descending n last head items :
  falling last items -> all_clear items -> Forall (in_page n) items -> Forall (fun i => 0 < alignedlen i /\ item_end i <= head) items -> descending n head items.
Proof.
  revert last head. induction items as [|i items IH]; intros last head; [done|]. intros [_ Hf] [Hc Hcl] [Ho Hol]%Forall_cons [[Ha He] Hb]%Forall_cons.
  split; [done|]. split; [done|]. apply (IH (itemoff i)); [done|done|done|]. clear -Hf Hc Hb Ha. rewrite list.Forall_forall in Hb, Hc |- *. intros j Hj. destruct (Hb j Hj) as [Haj _].
  split; [done|]. destruct (Hc j Hj) as [Hcj|Hcj]; [|done]. exfalso.
  assert (Hlt : forall z its, falling z its -> j ∈ its -> itemoff j < z).
  { clear. intros z its. revert z. induction its as [|x its IH]; intros z; [by intros _ ?%not_elem_of_nil|]. intros [Hx Hf] [->|Hj]%elem_of_cons; [done|]. specialize (IH _ Hf Hj). lia. }
  specialize (Hlt _ _ Hf Hj). unfold item_end in Hcj. lia.
Qed.

Lemma scan_final off l st :
  (sc_finalused (scan_of off l st) = sc_finalused st /\ Forall (fun i => ItemIdIsUsed i = false) l) \/
  exists l1 i l2, l = l1 ++ i :: l2 /\ ItemIdIsUsed i = true /\ Forall (fun i => ItemIdIsUsed i = false) l2 /\ sc_finalused (scan_of off l st) = off + Z.of_nat (length l1).
Proof.
  revert off st. induction l as [|i l IH]; intros off st; cbn [scan_of]; [by left|].
  destruct (IH (off + 1) (if ItemIdIsUsed i then used_upto off (if ItemIdHasStorage i then keep_item (off - 1) (lp_off i) (lp_len i) st else st) else one_unused st)) as [[E Hl]|(l1 & j & l2 & -> & Hj & Hl2 & E)].
  - destruct (ItemIdIsUsed i) eqn:Eu; [|left; split; [by rewrite E|by constructor]]. right. exists [], i, l. rewrite E. split; [done|]. split; [done|]. split; [done|]. cbn. lia.
  - right. exists (i :: l1), j, l2. split; [done|]. split; [done|]. split; [done|]. rewrite E. cbn [length]. lia.
Qed.

Definition unused_count (l : list ItemIdData) : Z := Z.of_nat (length (filter (fun i => ItemIdIsUsed i = false) l)).

Lemma scan_unused off l st : sc_nunused (scan_of off l st) = sc_nunused st + unused_count l.
Proof.
  revert off st. induction l as [|i l IH]; intros off st; cbn [scan_of]; [unfold unused_count; simpl; lia|]. rewrite IH. unfold unused_count. rewrite filter_cons.
  destruct (ItemIdIsUsed i); case_decide; try done; [destruct (ItemIdHasStorage i); done|]. cbn [one_unused sc_nunused length]. lia.
Qed.

Lemma unused_count_app l k : unused_count (l ++ k) = unused_count l + unused_count k.
Proof. unfold unused_count. rewrite filter_app, length_app. lia. Qed.

Lemma unused_count_all l : Forall (fun i => ItemIdIsUsed i = false) l -> unused_count l = Z.of_nat (length l).
Proof. intros H. unfold unused_count. induction H as [|i l Hi _ IH]; [done|]. rewrite filter_cons, decide_True by done. cbn [length]. lia. Qed.

Lemma unused_count_pos l : unused_count l > 0 <-> exists i, i ∈ l /\ ItemIdIsUsed i = false.
Proof.
  unfold unused_count. split.
  - intros H. destruct (filter _ l) as [|i k] eqn:E; [simpl in H; lia|]. assert (Hi : i ∈ filter (fun i => ItemIdIsUsed i = false) l) by (rewrite E; by left).
    apply list_elem_of_filter in Hi as [Hu Hi]. by exists i.
  - intros (i & Hi & Hu). assert (Hf : i ∈ filter (fun i => ItemIdIsUsed i = false) l) by (by apply list_elem_of_filter). destruct (filter _ l); [by apply not_elem_of_nil in Hf|simpl; lia].
Qed.

Lemma clean_lines u s l : lines_ok u s l -> lines_ok u s (map clean l).
Proof.
  induction l as [|i l IH]; [done|]. intros (Hi & Ha & Hl)%lines_ok_cons. cbn [map]. pose proof (unused_empty _ _ _ Hi) as Hun. unfold clean at 1. destruct (ItemIdIsUsed i).
  - apply lines_ok_cons. split; [done|]. split; [|by apply IH]. clear -Ha. induction Ha as [|j l Hj _ IH]; constructor; [|done]. unfold clean. destruct (ItemIdIsUsed j); [done|]. by intros _ [].
  - apply lines_ok_empty; [done|by apply IH].
Qed.

Lemma clean_items u s k l : Forall (placed u s) l -> items_of k (map clean l) = items_of k l.
Proof.
  intros H. revert k. induction H as [|i l Hi _ IH]; intros k; [done|]. cbn [map items_of]. rewrite IH. pose proof (unused_empty _ _ _ Hi) as Hun. unfold clean.
  destruct (ItemIdIsUsed i); [done|]. by rewrite (Hun eq_refl).
Qed.

Lemma clean_entry p i : lp_len i = 0 \/ ItemIdIsUsed i = true -> entry_of p (clean i) = entry_of p i.
Proof.
  intros H. unfold clean. destruct (ItemIdIsUsed i) eqn:Eu; [done|]. destruct H as [H|]; [|done]. symmetry. apply free_entry. split; [|done]. unfold ItemIdIsUsed in Eu. by b2p.
Qed.

(** ** The whole function *)

(** The room that the items of a page need. *)
Definition needed (v : list entry) : Z := foldr (fun e z => MAXALIGN (len (e_data e)) + z) 0 v.

Lemma total_needed p u s k l : sized p -> lines_ok u s l -> Forall lp_fits l -> 0 <= u -> s <= BLCKSZ -> total (items_of k l) = needed (map (entry_of p) l).
Proof.
  intros Hp Hok Hf Hu Hs. revert k. induction Hf as [|i l Hi _ IH]; intros k; [done|]. cbn [items_of map needed foldr]. apply lines_ok_cons in Hok as ([Hpl _] & _ & Hl).
  fold (needed (map (entry_of p) l)). cbn [entry_of e_data]. unfold PageGetItem. destruct (Z.eqb_spec (lp_len i) 0) as [->|Hst]; [rewrite slice_0; by apply IH|].
  pose proof (lp_end_bounds i Hi). destruct (Hpl Hst) as (? & ? & _). destruct Hi as (? & _ & ?). rewrite len_slice by (rewrite ?(sz_len _ Hp); lia).
  change (total (item_of k i :: items_of (k + 1) l)) with (MAXALIGN (lp_len i) + total (items_of (k + 1) l)). by rewrite (IH Hl).
Qed.

(** After the scan: the items are packed, the line pointers are all there. *)
Lemma repair_compacts garbage p n u s L :
  shape p n u s L -> lines_ok u s L -> 24 + 4 * n <= u <= s -> s <= BLCKSZ -> s mod 8 = 0 -> len garbage = BLCKSZ -> Forall is_byte garbage ->
  let st := scan_of 1 L (start_scan s) in
  forall p1, shape p1 n u s (map clean L) -> (forall o k, 24 + 4 * n <= o -> 0 <= k -> o + k <= BLCKSZ -> slice o k p1 = slice o k p) ->
  exists q, (if Z.of_nat (length (sc_items st)) =? 0 then Done (set_pd_upper s p1)
             else if sc_totallen st >? s - (24 + 4 * n) then Error else compactify_tuples garbage (sc_items st) p1 (sc_presorted st)) = Done q /\
    page_ok q /\ shape q n (s - needed (map (entry_of p) L)) s (line q) /\ view q = map (entry_of p) L /\ forall o k, s <= o -> 0 <= k -> o + k <= BLCKSZ -> slice o k q = slice o k p.
Proof.
  intros H Hok Hu Hs Hm Hg Hgb st p1 H1 Hsl. assert (Hf : Forall lp_fits L) by (rewrite <- (sh_line _ _ _ _ _ H); apply lines_fits).
  destruct (scan_items u s 1 L (start_scan s) (lo_placed _ _ _ Hok)) as [Ei Et]. fold st in Ei, Et. change (1 - 1) with 0 in Ei, Et. cbn [start_scan sc_items sc_totallen app] in Ei, Et. rewrite Ei, Et.
  pose proof (clean_items _ _ 0 _ (lo_placed _ _ _ Hok)) as Eci. pose proof (clean_lines _ _ _ Hok) as Hok1.
  assert (Hf1 : Forall lp_fits (map clean L)) by (rewrite <- (sh_line _ _ _ _ _ H1); apply lines_fits).
  assert (Een : map (entry_of p1) (map clean L) = map (entry_of p) L).
  { transitivity (map (entry_of p) (map clean L)); [eapply entries_same; [exact Hok1|done|destruct (sh_lines _ _ _ _ _ H); lia|intros; apply Hsl; lia]|].
    rewrite map_map. apply map_ext_in. intros i Hi%list_elem_of_In. apply clean_entry. pose proof (lo_placed _ _ _ Hok) as Hp. rewrite list.Forall_forall in Hp.
    pose proof (unused_empty _ _ _ (Hp i Hi)). destruct (ItemIdIsUsed i); [by right|left; auto]. }
  pose proof (items_at _ _ _ Hok Hf) as Hat. pose proof (items_clear _ _ _ Hok 0) as Hc. pose proof (total_fits _ _ _ _ Hc Hat ltac:(lia)) as Ht.
  pose proof (items_on_page _ _ _ Hok Hf n (shape_length _ _ _ _ _ H) ltac:(lia) Hs) as Hon.
  destruct (sh_lines _ _ _ _ _ H) as [Hn Hn']. rewrite <- (total_needed p u s 0 L (sh_sized _ _ _ _ _ H) Hok Hf ltac:(lia) Hs).
  destruct (Z.eqb_spec (Z.of_nat (length (items_of 0 L))) 0) as [E0|E0].
  - destruct (items_of 0 L) eqn:E; [|simpl in E0; lia]. pose proof (shape_set_upper _ _ _ _ _ H1 s ltac:(unfold BLCKSZ in *; lia)) as H2. eexists. split; [done|].
    rewrite (shape_of_line _ _ _ _ _ H2). simpl. rewrite Z.sub_0_r.
    assert (Hnone : Forall (fun i => lp_len i = 0) (map clean L)).
    { apply list.Forall_forall. intros i (m & Hi)%list_elem_of_lookup. destruct (stored_dec i) as [Hst|]; [|done]. exfalso.
      assert (Hlen : forall k l, items_of k l = [] -> forall m j, l !! m = Some j -> lp_len j = 0).
      { clear. intros k l. revert k. induction l as [|x l IH]; intros k; [done|]. cbn [items_of]. destruct (Z.eqb_spec (lp_len x) 0) as [Ex|]; [|done]. intros El [|m] j; [by intros [= <-]|by apply (IH (k + 1))]. }
      apply Hst. by eapply (Hlen 0 (map clean L)). }
    assert (Hok2 : lines_ok s s (map clean L)).
    { clear -Hnone. induction Hnone; [split; constructor|by apply lines_ok_empty]. }
    assert (Hsl2 : forall o k, 24 + 4 * n <= o -> 0 <= k -> o + k <= BLCKSZ -> slice o k (set_pd_upper s p1) = slice o k p).
    { intros o k Ho Hk Hle. rewrite <- Hsl by done. apply slice_front; rewrite ?len_to_le; [apply H1|lia..]. }
    split; [eapply shape_ok; [exact H2|exact Hok2|lia|done|done|done]|]. split; [done|]. split; [|intros; apply Hsl2; lia]. rewrite (view_shape _ _ _ _ _ H2), <- Een.
    apply map_ext_in. intros i Hi%list_elem_of_In. rewrite list.Forall_forall in Hnone. by apply entry_empty, Hnone.
  - destruct (Z.gtb_spec (0 + total (items_of 0 L)) (s - (24 + 4 * n))); [lia|]. rewrite <- Eci in *.
    destruct (compact_page garbage p1 n u s (map clean L) (sc_presorted st)) as (q & Eq & H2 & Hq & Hv & Hk); try done; [by intros E; rewrite E in E0| |].
    { intros Hpre. destruct (scan_presorted u s 1 L (start_scan s) (lo_placed _ _ _ Hok) Hpre) as [_ Hfall]. change (1 - 1) with 0 in Hfall. rewrite <- Eci in Hfall.
      eapply falling_descending; [exact Hfall|done|done|]. eapply Forall_impl; [exact Hat|]. by intros i (_ & _ & ? & ?). }
    exists q. split; [done|]. split; [done|]. split; [by rewrite (shape_of_line _ _ _ _ _ H2)|]. split; [congruence|]. intros o k Ho Hk' Hle. rewrite Hk by done. apply Hsl; lia.
Qed.

(** How many line pointers stay, and whether an unused one is among them. *)
Lemma scan_keeps L s n :
  Z.of_nat (length L) = n ->
  let st := scan_of 1 L (start_scan s) in
  let m := sc_finalused st in
  0 <= m <= n /\ Forall (fun i => ItemIdIsUsed i = false) (drop (Z.to_nat m) L) /\ (forall i, last (take (Z.to_nat m) L) = Some i -> ItemIdIsUsed i = true) /\
  (sc_nunused st - (n - m) > 0 <-> exists i, i ∈ take (Z.to_nat m) L /\ ItemIdIsUsed i = false).
Proof.
  intros Hn st m. assert (Hall : 0 <= m <= n /\ Forall (fun i => ItemIdIsUsed i = false) (drop (Z.to_nat m) L) /\ (forall i, last (take (Z.to_nat m) L) = Some i -> ItemIdIsUsed i = true)).
  { destruct (scan_final 1 L (start_scan s)) as [[E Hl]|(l1 & i & l2 & -> & Hi & Hl2 & E)]; fold st in E; fold m in E; rewrite E.
    - change (sc_finalused (start_scan s)) with 0. change (Z.to_nat 0) with 0%nat. rewrite drop_0. split; [lia|]. done.
    - replace (Z.to_nat (1 + Z.of_nat (length l1))) with (length l1 + 1)%nat by lia. rewrite length_app in Hn. cbn [length] in Hn.
      rewrite drop_app_add, take_app_add. change (take 1 (i :: l2)) with [i]. split; [lia|]. split; [done|]. intros j. rewrite last_snoc. by intros [= <-]. }
  destruct Hall as (H1 & H2 & H3). split; [done|]. split; [done|]. split; [done|]. rewrite <- unused_count_pos. unfold st. rewrite scan_unused. cbn [start_scan sc_nunused].
  rewrite <- (take_drop (Z.to_nat m) L) at 1. rewrite unused_count_app, (unused_count_all _ H2), length_drop. lia.
Qed.

Lemma view_used p i : ItemIdIsUsed i = false <-> e_flags (entry_of p i) = LP_UNUSED.
Proof. unfold ItemIdIsUsed. cbn. by rewrite negb_false_iff, Z.eqb_eq. Qed.

Lemma needed_app v w : needed (v ++ w) = needed v + needed w.
Proof. unfold needed. rewrite foldr_app. induction v as [|e v IH]; simpl; [lia|]. rewrite IH. lia. Qed.

Lemma needed_empty v : Forall (fun e => e_data e = []) v -> needed v = 0.
Proof. unfold needed. induction 1 as [|e v He _ IH]; [done|]. cbn [foldr]. by rewrite He, IH. Qed.

(** The end of the function: the line pointers behind [m] go. *)
Lemma repair_truncates p p2 n u s L m nunused :
  page_ok p2 -> shape p2 n u s (line p2) -> view p2 = map (entry_of p) L -> Z.of_nat (length L) = n -> 0 <= m <= n ->
  exists q,
    (let '(nunused, p) := if negb (m =? n) then (nunused - (n - m), set_pd_lower (pd_lower p2 - SizeOfItemIdData * (n - m)) p2) else (nunused, p2) in
     Done (set_free_lines (nunused >? 0) p)) = Done q /\
    page_ok q /\ view q = map (entry_of p) (take (Z.to_nat m) L) /\ special_space q = special_space p2 /\ pd_upper q = u /\ pd_special q = s /\
    PageHasFreeLinePointers q = (nunused - (n - m) >? 0).
Proof.
  intros Hp2 H2 Hv HL Hm. set (p3 := if negb (m =? n) then set_pd_lower (pd_lower p2 - SizeOfItemIdData * (n - m)) p2 else p2).
  assert (H3 : exists L3, page_ok p3 /\ view p3 = take (Z.to_nat m) (view p2) /\ special_space p3 = special_space p2 /\ shape p3 m u s L3).
  { unfold p3. destruct (Z.eqb_spec m n) as [->|Hne]; cbn [negb].
    - exists (line p2). split; [done|]. split; [|done]. rewrite take_ge; [done|]. rewrite Hv, length_map. lia.
    - rewrite (sh_lower _ _ _ _ _ H2). unfold SizeOfItemIdData. replace (24 + 4 * n - 4 * (n - m)) with (24 + 4 * m) by lia. destruct (page_shape p2 Hp2) as (n2 & H2' & _).
      assert (n2 = n) as -> by (rewrite <- (shape_max _ _ _ _ _ H2), <- (shape_max _ _ _ _ _ H2'); done). destruct (page_take p2 n m Hp2 H2' Hm) as (? & ? & ? & _).
      destruct (sh_lines _ _ _ _ _ H2). eexists. split; [done|]. split; [done|]. split; [done|]. eapply shape_set_lower; [exact H2|lia|lia]. }
  destruct H3 as (L3 & Hp3 & Hv3 & Hs3 & H3). exists (set_free_lines (nunused - (n - m) >? 0) p3). split.
  { unfold p3. destruct (Z.eqb_spec m n) as [->|]; cbn [negb]; [|done]. by replace (nunused - (n - n)) with nunused by lia. }
  destruct (free_lines_same (nunused - (n - m) >? 0) p3 Hp3) as (Hq & Hvq & Hsq). rewrite Hvq, Hsq, Hs3, Hv3, Hv, firstn_map, (free_lines_hint _ _ (po_sized _ Hp3)).
  assert (H4 : shape (set_free_lines (nunused - (n - m) >? 0) p3) m u s L3) by (unfold set_free_lines; destruct (_ >? _); by apply shape_set_flags).
  rewrite (sh_upper _ _ _ _ _ H4), (sh_special _ _ _ _ _ H4). done.
Qed.

(** C15 -- Defragmentation.  On a well-formed heap page [PageRepairFragmentation] reports no corruption, copies inside the page, and keeps every entry with its bytes,
    whether it moves the items inside the page or through a buffer with unknown contents.  Only unused entries at the end go;
    afterwards all space that no item takes is free, and the hint says whether an unused line pointer is left. *)
Theorem page_repair (garbage p : bytes) :
  heap_page p -> len garbage = BLCKSZ -> Forall is_byte garbage ->
  exists q l, PageRepairFragmentation garbage p = Done q /\ heap_page q /\ special_space q = special_space p /\
    view p = view q ++ l /\ Forall (fun e => e_flags e = LP_UNUSED) l /\ (forall e, last (view q) = Some e -> e_flags e <> LP_UNUSED) /\
    (PageHasFreeLinePointers q = true <-> exists e, e ∈ view q /\ e_flags e = LP_UNUSED) /\
    pd_upper q = pd_special q - needed (view q).
Proof.
  intros [Hp Hmax] Hg Hgb. destruct (page_shape p Hp) as (n & H & Hok & Hu & Hs & Hm & Hm'). destruct (sh_lines _ _ _ _ _ H) as [Hn Hn'].
  pose proof (shape_length _ _ _ _ _ H) as HL. unfold view in Hmax. rewrite length_map in Hmax.
  unfold PageRepairFragmentation. rewrite (page_not_corrupted p Hp), (shape_max _ _ _ _ _ H), (sh_lower _ _ _ _ _ H).
  destruct (repair_scan_spec (line p) [] n (pd_upper p) (pd_special p) 1 (start_scan (pd_special p)) p H Hok ltac:(lia) eq_refl ltac:(simpl; lia)) as (p1 & E1 & H1 & Hsl1).
  replace (Z.to_nat n) with (length (line p)) by lia. unfold FirstOffsetNumber. rewrite E1. cbn [obind].
  destruct (repair_compacts garbage p n _ _ _ H Hok Hu Hs Hm' Hg Hgb p1 H1 Hsl1) as (p2 & -> & Hp2 & H2 & Hv2 & Hsl2). cbn [obind].
  destruct (scan_keeps (line p) (pd_special p) n HL) as (Hk & Hdrop & Hlast & Hcount). set (st := scan_of 1 (line p) (start_scan (pd_special p))) in *. set (m := sc_finalused st) in *.
  destruct (repair_truncates p p2 n _ _ (line p) m (sc_nunused st) Hp2 H2 Hv2 HL Hk) as (q & -> & Hq & Hvq & Hsq & Huq & Hpq & Hfree).
  exists q, (map (entry_of p) (drop (Z.to_nat m) (line p))). rewrite Hvq, Hsq, Huq, Hpq, Hfree. rewrite <- map_app, take_drop.
  assert (Hun : Forall (fun e => e_flags e = LP_UNUSED) (map (entry_of p) (drop (Z.to_nat m) (line p)))).
  { apply Forall_fmap. eapply Forall_impl; [exact Hdrop|]. intros i Hi. by apply view_used. }
  split; [done|]. split; [split; [done|rewrite Hvq, length_map, length_take; lia]|]. split; [unfold special_space; rewrite (sh_special _ _ _ _ _ H2); apply Hsl2; lia|].
  split; [done|]. split; [done|]. split; [|split].
  - intros e. rewrite <- firstn_map, firstn_map, fmap_last. destruct (last (take _ _)) as [i|] eqn:El; [|done]. intros [= <-] Eu. apply view_used in Eu. by rewrite (Hlast i eq_refl) in Eu.
  - rewrite Z.gtb_lt, <- Z.gt_lt_iff, Hcount. split.
    + intros (i & Hi & Hi'). exists (entry_of p i). split; [by apply list_elem_of_fmap_2|by apply view_used].
    + intros (e & (i & -> & Hi)%list_elem_of_fmap & He). exists i. split; [done|by eapply view_used].
  - f_equal. rewrite <- (take_drop (Z.to_nat m) (line p)) at 1. rewrite map_app, needed_app. assert (needed (map (entry_of p) (drop (Z.to_nat m) (line p))) = 0); [|lia].
    assert (Hz : Forall (fun e => e_data e = []) (map (entry_of p) (drop (Z.to_nat m) (line p)))).
    { apply Forall_fmap, list.Forall_forall. intros i Hi. rewrite list.Forall_forall in Hdrop. pose proof (lo_placed _ _ _ Hok) as Hpl. rewrite list.Forall_forall in Hpl.
      cbn. unfold PageGetItem. rewrite (unused_empty _ _ i (Hpl i (in_drop _ _ _ Hi)) (Hdrop i Hi)). done. }
    by apply needed_empty.
Qed.
