(* ===== verification/PageIndex.v ===== *)
(** * Index pages

    [PageIndexTupleDelete], [PageIndexTupleDeleteNoCompact], [PageIndexTupleOverwrite] and [PageIndexMultiDelete] on the entries of a
    page: one entry goes, becomes unused or gets other bytes, and the others keep theirs although the items before it slide. *)
From stdpp Require Import sorting.
From S2P Require Import Prelude TransactionId ItemPtr Bytes Page PageInv PageAdd PageCompact PageRepair.
Local Open Scope Z_scope.

(** ** Sliding items *)

Definition slides (offset : Z) (i : ItemIdData) : bool := ItemIdHasStorage i && (lp_off i <=? offset).
Definition slid (offset delta : Z) (i : ItemIdData) : ItemIdData := if slides offset i then set_lp_off (lp_off i + delta) i else i.

Lemma stored_test i : ItemIdHasStorage i = true <-> stored i.
Proof. unfold ItemIdHasStorage, stored. by rewrite negb_true_iff, Z.eqb_neq. Qed.

Lemma slid_len offset delta i : lp_len (slid offset delta i) = lp_len i.
Proof. unfold slid. by destruct (slides _ _). Qed.
Lemma slid_flags offset delta i : lp_flags (slid offset delta i) = lp_flags i.
Proof. unfold slid. by destruct (slides _ _). Qed.
Lemma slid_end offset delta i : lp_end (slid offset delta i) = lp_end i + (lp_off (slid offset delta i) - lp_off i).
Proof. unfold lp_end. rewrite slid_len. lia. Qed.

Section slide.
Context (u s : Z) (tup : ItemIdData) (l : list ItemIdData) (delta : Z).
Context (Htup : stored tup) (Hok : lines_ok u s (tup :: l)) (Hf : Forall lp_fits (tup :: l)) (Hd : delta mod 8 = 0) (Hle : delta <= MAXALIGN (lp_len tup)).
Context (Hu : 0 <= u) (Hu' : 0 <= u + delta) (Hs : s <= BLCKSZ).
Local Abbreviation offset := (lp_off tup).

(** An item is on one side of the place. *)
Lemma slide_side i : i ∈ l -> stored i ->
  u <= lp_off i /\ lp_end i <= s /\ lp_off i mod 8 = 0 /\
  ((lp_end i <= offset /\ lp_off (slid offset delta i) = lp_off i + delta) \/ (lp_end tup <= lp_off i /\ lp_off (slid offset delta i) = lp_off i)).
Proof.
  intros Hi Hst. apply lines_ok_cons in Hok as (_ & Ha & [Hp _]). rewrite list.Forall_forall in Ha, Hp. destruct (proj1 (Hp i Hi) Hst) as (H1 & H2 & H3).
  apply Forall_cons in Hf as [Hft Hfl]. rewrite list.Forall_forall in Hfl. pose proof (aligned_pos tup Hft Htup) as [? _]. pose proof (aligned_pos i (Hfl i Hi) Hst) as [? _].
  split; [done|]. split; [done|]. split; [done|]. unfold slid, slides. rewrite (proj2 (stored_test i) Hst). cbn [andb].
  destruct (Ha i Hi Htup Hst) as [Hc|Hc]; [right|left]; (split; [done|]).
  - destruct (Z.leb_spec (lp_off i) offset); [|done]. unfold lp_end in *. lia.
  - destruct (Z.leb_spec (lp_off i) offset); [done|]. unfold lp_end in *. lia.
Qed.

Lemma tup_placed : u <= offset /\ lp_end tup <= s /\ offset mod 8 = 0.
Proof. apply lines_ok_cons in Hok as ([Hp _] & _). by apply Hp. Qed.

Lemma slide_apart i j : i ∈ l -> j ∈ l -> apart i j -> apart (slid offset delta i) (slid offset delta j).
Proof.
  intros Hi Hj Ha Hsi Hsj. unfold stored in Hsi, Hsj. rewrite slid_len in Hsi, Hsj. rewrite !slid_end. specialize (Ha Hsi Hsj).
  destruct (slide_side i Hi Hsi) as (_ & _ & _ & [[? ->]|[? ->]]), (slide_side j Hj Hsj) as (_ & _ & _ & [[? ->]|[? ->]]); unfold lp_end in *; lia.
Qed.

Lemma slide_lines_ok : lines_ok (u + delta) s (map (slid offset delta) l).
Proof.
  destruct tup_placed as (Ht1 & Ht2 & _). split.
  - apply Forall_fmap, list.Forall_forall. intros i Hi. split.
    + intros Hst. unfold stored in Hst. cbn in Hst |- *. rewrite slid_len in Hst. destruct (slide_side i Hi Hst) as (? & ? & ? & [[? E]|[? E]]); rewrite slid_end, E;
        (split; [unfold lp_end in *; lia|]); (split; [unfold lp_end in *; lia|]); [by rewrite Zplus_mod, Hd, H1|done].
    + cbn. rewrite slid_flags, slid_len. apply lines_ok_cons in Hok as (_ & _ & [Hp _]). rewrite list.Forall_forall in Hp. by apply Hp.
  - pose proof slide_apart as Hsa. apply lines_ok_cons in Hok as (_ & _ & [_ Ha]). clear -Hsa Ha.
    assert (H : forall k, (forall x, x ∈ k -> x ∈ l) -> all_apart k -> all_apart (map (slid offset delta) k)).
    { induction k as [|i k IH]; intros Hk; [done|]. intros [H1 H2]. split; [|apply IH; [intros x Hx; apply Hk; by right|done]]. apply Forall_fmap, list.Forall_forall.
      intros j Hj. rewrite list.Forall_forall in H1. apply Hsa; [apply Hk; by left|apply Hk; by right|by apply H1]. }
    by apply H.
Qed.

(** The bytes have moved along. *)
Context (n : Z) (p q : bytes) (Hp : sized p) (Hq : sized q).
Context (Hlow : forall k, u + delta <= k < offset + delta -> peek k q = peek (k - delta) p).
Context (Hhigh : forall k, lp_end tup <= k < s -> peek k q = peek k p).

Lemma slide_entries : map (entry_of q) (map (slid offset delta) l) = map (entry_of p) l.
Proof.
  rewrite map_map. apply map_ext_in. intros i Hi%list_elem_of_In. destruct tup_placed as (Ht1 & Ht2 & _).
  destruct (stored_dec i) as [Hst|E].
  - assert (Hfi : lp_fits i) by (apply Forall_cons in Hf as [_ Hfl]; rewrite list.Forall_forall in Hfl; by apply Hfl). pose proof (lp_end_bounds i Hfi).
    destruct (slide_side i Hi Hst) as (H1 & H2 & _ & Hside). pose proof (sz_len _ Hp) as Elp. pose proof (sz_len _ Hq) as Elq. destruct Hfi as (Hf1 & Hf2 & Hf3).
    unfold entry_of. rewrite slid_flags. f_equal.
    + destruct (Z.eqb_spec (lp_flags i) LP_REDIRECT) as [Er|]; [|done]. apply lines_ok_cons in Hok as (_ & _ & [Hpl _]). rewrite list.Forall_forall in Hpl.
      exfalso. apply Hst, (Hpl i Hi). by right.
    + unfold PageGetItem. rewrite slid_len. assert (Ht3 : offset + MAXALIGN (lp_len tup) <= s) by exact Ht2. destruct Hside as [[Hc ->]|[Hc ->]]; apply slice_ext; try lia; intros k Hk.
      * rewrite Hlow by lia. f_equal. lia.
      * apply Hhigh. lia.
  - unfold slid, slides, ItemIdHasStorage. rewrite E. cbn [Z.eqb negb andb]. by apply entry_empty.
Qed.
End slide.

(** The loop that adjusts the line pointers. *)
Lemma shift_items_spec (l pre : list ItemIdData) n u s off (storage : bool) offset delta p :
  shape p n u s (pre ++ l) -> off = Z.of_nat (length pre) + 1 -> (storage = true \/ Forall stored l) ->
  Forall (fun i => slides offset i = true -> 0 <= lp_off i + delta < 2 ^ 15) l ->
  let q := shift_items (length l) off storage offset delta p in
  shape q n u s (pre ++ map (slid offset delta) l) /\ forall k, 24 + 4 * n <= k -> peek k q = peek k p.
Proof.
  revert pre off p. induction l as [|i l IH]; intros pre off p H Hoff Hst Hb; cbn [length shift_items map]; [done|]. apply Forall_cons in Hb as [Hbi Hb].
  pose proof (shape_length _ _ _ _ _ H) as HL. rewrite length_app in HL. cbn [length] in HL. destruct (sh_lines _ _ _ _ _ H) as [Hn Hn'].
  assert (Ei : PageGetItemId off p = i) by (apply (shape_lp_at p n u s (pre ++ i :: l) off i H); [lia|]; rewrite lookup_app_r by lia; by replace (Z.to_nat (off - 1) - length pre)%nat with 0%nat by lia).
  assert (Hcond : (negb storage || ItemIdHasStorage i) && (lp_off i <=? offset) = slides offset i).
  { unfold slides. destruct Hst as [->|Hst]; [done|]. apply Forall_cons in Hst as [Hi _]. rewrite (proj2 (stored_test i) Hi). by destruct storage. }
  assert (Hst' : storage = true \/ Forall stored l) by (destruct Hst as [?|[_ ?]%Forall_cons]; [by left|by right]). rewrite Ei, Hcond.
  set (p1 := if slides offset i then _ else p).
  assert (H1 : shape p1 n u s ((pre ++ [slid offset delta i]) ++ l) /\ forall k, 24 + 4 * n <= k -> peek k p1 = peek k p).
  { unfold p1, slid. rewrite <- app_assoc. cbn [app]. destruct (slides offset i); [|done]. split.
    - pose proof (shape_put_lp _ _ _ _ _ H off (set_lp_off (lp_off i + delta) i) ltac:(lia)) as H1. replace (Z.to_nat (off - 1)) with (length pre + 0)%nat in H1 by lia.
      rewrite insert_app_r in H1. apply H1. rewrite <- Ei. destruct (decode_fits (get 4 (lp_addr off) p)) as (_ & ? & ?). split; [rewrite Ei; by apply Hbi|done].
    - intros k Hk. apply (peek_put_lp n); [apply H|lia..]. }
  destruct H1 as [H1 Hk1]. destruct (IH (pre ++ [slid offset delta i]) (off + 1) p1 H1 ltac:(rewrite length_app; simpl; lia) Hst' Hb) as [H2 Hk2].
  rewrite <- app_assoc in H2. split; [exact H2|]. intros k Hk. rewrite Hk2 by done. by apply Hk1.
Qed.

(** ** Moving the data *)

Lemma slide_move p n u s L offset delta size :
  shape p n u s L -> 24 + 4 * n <= u + delta -> u <= offset -> offset + size <= s -> s <= BLCKSZ -> delta <= size -> 0 <= size -> 24 + 4 * n <= u ->
  exists q, memmove (u + delta) u (offset - u) p = Done q /\ shape q n u s L /\
    (forall k, u + delta <= k < offset + delta -> peek k q = peek (k - delta) p) /\ (forall k, offset + size <= k -> peek k q = peek k p).
Proof.
  intros H Hlo Ho Hs Hb Hd Hsz Hu. pose proof (sh_sized _ _ _ _ _ H) as [El Hby]. destruct (sh_lines _ _ _ _ _ H).
  assert (Hl : len (slice u (offset - u) p) = offset - u) by (apply len_slice; lia). rewrite memmove_done by lia. eexists. split; [done|].
  split; [apply shape_blit; [done|lia|lia|by apply Forall_slice]|]. split; intros k Hk; rewrite peek_blit by lia; rewrite Hl.
  - rewrite decide_True by lia. rewrite peek_slice by lia. f_equal. lia.
  - by rewrite decide_False by lia.
Qed.

(** The line pointers behind [off] move down. *)
Lemma remove_lp p n u s L off :
  shape p n u s L -> 1 <= off <= n ->
  exists q, (if pd_lower p - lp_addr (off + 1) >? 0 then memmove (lp_addr off) (lp_addr (off + 1)) (pd_lower p - lp_addr (off + 1)) p else Done p) = Done q /\
    shape q n u s (lines n q) /\ lines (n - 1) q = delete (Z.to_nat (off - 1)) L /\ forall k, 24 + 4 * n <= k -> peek k q = peek k p.
Proof.
  intros H Ho. pose proof (sh_sized _ _ _ _ _ H) as [El Hby]. destruct (sh_lines _ _ _ _ _ H). pose proof (shape_length _ _ _ _ _ H) as HL.
  assert (Ea : forall j, lp_addr j = 20 + 4 * j) by (intros j; unfold lp_addr, SizeOfPageHeaderData, SizeOfItemIdData; lia).
  rewrite (sh_lower _ _ _ _ _ H), !Ea. replace (24 + 4 * n - (20 + 4 * (off + 1))) with (4 * (n - off)) by lia.
  set (q := blit (20 + 4 * off) (slice (20 + 4 * (off + 1)) (4 * (n - off)) p) p). exists q.
  assert (Hl : len (slice (20 + 4 * (off + 1)) (4 * (n - off)) p) = 4 * (n - off)) by (apply len_slice; lia).
  assert (Hq : shape q n u s (lines n q)) by (eapply shape_blit_any; [done|lia|lia|by apply Forall_slice]).
  assert (Hsame : forall j, 1 <= j < off -> PageGetItemId j q = PageGetItemId j p) by (intros j Hj; apply get_lp_blit; [done|lia|rewrite ?Ea; lia..]).
  assert (Hmoved : forall j, off <= j < n -> PageGetItemId j q = PageGetItemId (j + 1) p).
  { intros j Hj. unfold PageGetItemId, get, q. f_equal. f_equal. change (Z.of_nat 4) with 4. rewrite !Ea. rewrite slice_blit_in by lia. rewrite slice_slice by lia. f_equal. lia. }
  split; [|split; [done|split]].
  - destruct (Z.gtb_spec (4 * (n - off)) 0); [by apply memmove_done; lia|]. unfold q. replace (4 * (n - off)) with 0 by lia. rewrite slice_0. unfold blit. cbn [app length].
    by rewrite Nat.add_0_r, take_drop.
  - apply list_eq. intros k. destruct (decide (Z.of_nat k < n - 1)).
    + rewrite lookup_lines by done. rewrite list_lookup_delete. case_decide as Hk.
      * rewrite Hsame by lia. rewrite <- (shape_lookup _ _ _ _ _ _ H) by lia. f_equal. lia.
      * rewrite Hmoved by lia. rewrite <- (shape_lookup _ _ _ _ _ _ H) by lia. f_equal. lia.
    + rewrite !lookup_ge_None_2; [done| |]; [rewrite length_delete by (apply lookup_lt_is_Some; lia); lia|]. pose proof (length_lines (n - 1) q ltac:(lia)). lia.
  - intros k Hk. unfold q. rewrite peek_blit by lia. by rewrite decide_False by lia.
Qed.

(** ** Deleting an entry *)

(** On an index page every line pointer has an item, longer than the header of an index tuple. *)
Definition index_page (p : bytes) : Prop := page_ok p /\ Forall (fun e => 8 < len (e_data e)) (view p).

Lemma index_stored p : index_page p -> Forall stored (line p).
Proof.
  intros [_ H]. rewrite list.Forall_forall in H. apply list.Forall_forall. intros i Hi E. specialize (H (entry_of p i) (list_elem_of_fmap_2 _ _ _ Hi)).
  cbn [entry_of e_data] in H. unfold PageGetItem in H. rewrite E, slice_0 in H. by vm_compute in H.
Qed.

Lemma map_delete {A B} (f : A -> B) k l : map f (delete k l) = delete k (map f l).
Proof. by rewrite !delete_take_drop, map_app, firstn_map, skipn_map. Qed.

Lemma delete_perm {A} (k : nat) (x : A) l : l !! k = Some x -> x :: delete k l ≡ₚ l.
Proof. intros E. rewrite delete_take_drop, Permutation_middle. by rewrite take_drop_middle. Qed.

Lemma item_not_corrupted p i : page_ok p -> lp_fits i -> placed (pd_upper p) (pd_special p) i -> stored i -> corrupted_item i p = false.
Proof.
  intros Hp Hf [Hpl _] Hst. destruct (Hpl Hst) as (H1 & H2 & H3). pose proof (lp_end_bounds i Hf). unfold corrupted_item.
  rewrite Z.gtb_ltb, !(proj2 (Z.ltb_ge _ _)) by lia. cbn [orb]. apply negb_false_iff, Z.eqb_eq, MAXALIGN_id; [destruct Hf as (? & _); lia|done].
Qed.

(** The item at [off] with what is known of it. *)
Lemma item_facts p n off :
  page_ok p -> shape p n (pd_upper p) (pd_special p) (line p) -> 1 <= off <= n -> stored (PageGetItemId off p) ->
  let tup := PageGetItemId off p in
  let l := delete (Z.to_nat (off - 1)) (line p) in
  corrupted_item tup p = false /\ lines_ok (pd_upper p) (pd_special p) (tup :: l) /\ Forall lp_fits (tup :: l) /\ 0 < MAXALIGN (lp_len tup) /\ MAXALIGN (lp_len tup) mod 8 = 0 /\
  pd_upper p <= lp_off tup /\ lp_off tup + MAXALIGN (lp_len tup) <= pd_special p.
Proof.
  intros Hp H Ho Hst tup l. pose proof (shape_lookup _ _ _ _ _ off H Ho) as El. pose proof (delete_perm _ _ _ El) as HP. fold tup l in HP.
  assert (Hf : Forall lp_fits (tup :: l)) by (rewrite HP, <- (sh_line _ _ _ _ _ H); apply lines_fits).
  assert (Hok : lines_ok (pd_upper p) (pd_special p) (tup :: l)) by (eapply lines_ok_perm; [symmetry; exact HP|apply Hp]).
  pose proof Hok as (Hpl & _)%lines_ok_cons. pose proof Hf as [Hft _]%Forall_cons. destruct (aligned_pos tup Hft Hst) as [[? _] ?].
  destruct (proj1 Hpl Hst) as (? & ? & _). split; [by apply item_not_corrupted|]. split; [done|]. split; [done|]. split; [done|]. split; [done|]. split; [done|]. done.
Qed.

Lemma slides_fit s off delta l : (forall i, i ∈ l -> lp_fits i) -> off + delta <= s -> s <= BLCKSZ -> (forall i, i ∈ l -> stored i -> 0 <= lp_off i + delta) ->
  Forall (fun i => slides off i = true -> 0 <= lp_off i + delta < 2 ^ 15) l.
Proof.
  intros Hf Hd Hs Hlo. apply list.Forall_forall. intros i Hi Hsl. unfold slides in Hsl. b2p. rewrite stored_test in *. specialize (Hlo i Hi ltac:(done)). unfold BLCKSZ in *. lia.
Qed.

(** The data of the items before the deleted one moves by its size. *)
Lemma slide_data p1 n u s L tup p :
  shape p1 n u s L -> 24 + 4 * n <= u -> s <= BLCKSZ -> u <= lp_off tup -> lp_end tup <= s -> 0 <= MAXALIGN (lp_len tup) ->
  (forall k, 24 + 4 * n <= k -> peek k p1 = peek k p) ->
  let size := MAXALIGN (lp_len tup) in
  exists p2, (if lp_off tup >? u then memmove (u + size) u (lp_off tup - u) p1 else Done p1) = Done p2 /\ shape p2 n u s L /\
    (forall k, u + size <= k < lp_off tup + size -> peek k p2 = peek (k - size) p) /\ (forall k, lp_end tup <= k -> peek k p2 = peek k p).
Proof.
  intros H1 Hu Hs Ht1 Ht2 Ha Hpk size. unfold lp_end in *. fold size in Ht2, Ha |- *. destruct (Z.gtb_spec (lp_off tup) u).
  - destruct (slide_move p1 n u s L (lp_off tup) size size H1) as (p2 & E & H2 & Hlo & Hhi); [lia..|]. exists p2. split; [done|]. split; [done|].
    split; intros k Hk; [rewrite Hlo by lia|rewrite Hhi by lia]; apply Hpk; lia.
  - exists p1. split; [done|]. split; [done|]. split; [lia|]. intros k Hk. apply Hpk. lia.
Qed.

(** The line pointers follow. *)
Lemma slide_finish p3 m u s l tup (storage : bool) p :
  let size := MAXALIGN (lp_len tup) in
  shape p3 m (u + size) s l -> 24 + 4 * m <= u -> u <= s -> s <= BLCKSZ -> u mod 8 = 0 -> s mod 8 = 0 ->
  stored tup -> lines_ok u s (tup :: l) -> Forall lp_fits (tup :: l) -> storage = true \/ Forall stored l -> sized p ->
  (forall k, u + size <= k < lp_off tup + size -> peek k p3 = peek (k - size) p) -> (forall k, lp_end tup <= k -> peek k p3 = peek k p) ->
  let q := shift_items (Z.to_nat m) 1 storage (lp_off tup) size p3 in
  page_ok q /\ pd_upper q = u + size /\ pd_lower q = 24 + 4 * m /\ view q = map (entry_of p) l /\ special_space q = slice s (BLCKSZ - s) p.
Proof.
  intros size H3 Hu Hus Hs Hu8 Hs8 Hst Hok Hf Hsto Hp Hlo Hhi q. pose proof Hok as ([Hpl _] & _)%lines_ok_cons. destruct (Hpl Hst) as (Ht1 & Ht2 & Ht3).
  pose proof Hf as [Hft Hfl]%Forall_cons. destruct (aligned_pos tup Hft Hst) as [[Ha _] Ha8]. fold size in Ha, Ha8. destruct (sh_lines _ _ _ _ _ H3) as [Hm Hm'].
  assert (Ee : lp_end tup = lp_off tup + size) by done. pose proof (shape_length _ _ _ _ _ H3) as Hlen.
  destruct (shift_items_spec l [] m (u + size) s 1 storage (lp_off tup) size p3 H3 eq_refl Hsto) as [H4 Hk4].
  { eapply (slides_fit s); [by apply list.Forall_forall|lia|done|]. intros i Hi _. rewrite list.Forall_forall in Hfl. destruct (Hfl i Hi) as (? & _). lia. }
  replace (length l) with (Z.to_nat m) in H4, Hk4 by lia. fold q in H4, Hk4. cbn [app] in H4.
  pose proof (slide_lines_ok u s tup l size Hst Hok Hf Ha8 ltac:(lia)) as Hok4.
  split; [eapply shape_ok; [exact H4|done|lia|done|by rewrite Zplus_mod, Hu8, Ha8|done]|]. split; [apply H4|]. split; [apply H4|]. split.
  - rewrite (view_shape _ _ _ _ _ H4). apply (slide_entries u s tup l size Hst Hok Hf); try done; try lia; [apply H4| |].
    + intros k Hk. rewrite Hk4 by lia. by apply Hlo.
    + intros k Hk. rewrite Hk4 by lia. apply Hhi. lia.
  - unfold special_space. rewrite (sh_special _ _ _ _ _ H4). apply slice_ext; rewrite ?(sz_len _ Hp), ?(sz_len _ (sh_sized _ _ _ _ _ H4)); try lia.
    intros k Hk. rewrite Hk4 by lia. apply Hhi. lia.
Qed.

Lemma index_sub p q l : Forall (fun e => 8 < len (e_data e)) (view p) -> view q = l -> (forall e, e ∈ l -> e ∈ view p) -> Forall (fun e => 8 < len (e_data e)) (view q).
Proof. intros H -> Hl. rewrite list.Forall_forall in H. apply list.Forall_forall. auto. Qed.

Lemma lookup_entry p n off : shape p n (pd_upper p) (pd_special p) (line p) -> 1 <= off <= n -> view p !! Z.to_nat (off - 1) = Some (entry_of p (PageGetItemId off p)).
Proof. intros H Ho. unfold view. by rewrite list_lookup_fmap, (shape_lookup _ _ _ _ _ _ H Ho). Qed.

Lemma entry_len p i u s : sized p -> lp_fits i -> placed u s i -> 0 <= u -> s <= BLCKSZ -> len (e_data (entry_of p i)) = lp_len i.
Proof.
  intros Hp Hf [Hpl _] Hu Hs. cbn. unfold PageGetItem. destruct (stored_dec i) as [Hst|E]; [|by rewrite E].
  destruct (Hpl Hst) as (? & ? & _). pose proof (lp_end_bounds i Hf). destruct Hf as (? & _ & ?). apply len_slice; rewrite ?(sz_len _ Hp); lia.
Qed.

(** Deleting one entry of an index page; its room and that of its line pointer are free afterwards. *)
Lemma index_delete p offnum e :
  index_page p -> 1 <= offnum -> view p !! Z.to_nat (offnum - 1) = Some e ->
  exists q, PageIndexTupleDelete offnum p = Done q /\ index_page q /\ view q = delete (Z.to_nat (offnum - 1)) (view p) /\ special_space q = special_space p /\
    pd_upper q - pd_lower q = pd_upper p - pd_lower p + MAXALIGN (len (e_data e)) + SizeOfItemIdData.
Proof.
  intros [Hp Hi] Ho He. destruct (page_shape p Hp) as (n & H & Hok & Hu & Hs & Hm & Hm'). pose proof (shape_length _ _ _ _ _ H) as HL.
  assert (Hon : offnum <= n) by (apply lookup_lt_Some in He; unfold view in He; rewrite length_map in He; lia).
  rewrite (lookup_entry p n offnum H ltac:(lia)) in He. injection He as <-. pose proof (index_stored p (conj Hp Hi)) as Hsto. set (tup := PageGetItemId offnum p) in *.
  assert (Htin : tup ∈ line p) by (eapply list_elem_of_lookup_2; apply (shape_lookup _ _ _ _ _ _ H); lia).
  assert (Hst : stored tup) by (rewrite list.Forall_forall in Hsto; by apply Hsto).
  destruct (item_facts p n offnum Hp H ltac:(lia) Hst) as (Hnc & Hokt & Hft & Ha & Ha8 & Ht1 & Ht2). fold tup in Hnc, Hokt, Hft, Ha, Ha8, Ht1, Ht2. set (l := delete (Z.to_nat (offnum - 1)) (line p)) in *.
  unfold PageIndexTupleDelete. cbv zeta. rewrite (page_not_corrupted p Hp), (shape_max _ _ _ _ _ H). fold tup. rewrite Hnc.
  destruct (Z.leb_spec offnum 0) as [|_]; [lia|]. destruct (Z.gtb_spec offnum n) as [|_]; [lia|]. cbn [orb].
  destruct (remove_lp p n _ _ _ offnum H ltac:(lia)) as (p1 & E1 & H1 & El1 & Hk1). rewrite E1. cbn [obind]. rewrite (sh_upper _ _ _ _ _ H1).
  destruct (slide_data p1 n _ _ _ tup p H1 ltac:(lia) Hs Ht1 Ht2 ltac:(lia) Hk1) as (p2 & E2 & H2 & Hlo & Hhi). rewrite E2. cbn [obind]. set (size := MAXALIGN (lp_len tup)) in *.
  destruct (sh_lines _ _ _ _ _ H) as [Hn Hn']. rewrite (sh_upper _ _ _ _ _ H2).
  pose proof (shape_set_upper _ _ _ _ _ H2 (pd_upper p + size) ltac:(unfold BLCKSZ in *; lia)) as Hsu. pose proof (shape_set_lower _ _ _ _ _ Hsu (n - 1) ltac:(lia) ltac:(lia)) as H3.
  rewrite (shape_lines _ _ _ _ _ (n - 1) Hsu ltac:(lia)), <- (shape_lines _ _ _ _ _ (n - 1) H1 ltac:(lia)), El1 in H3. fold l in H3.
  rewrite (sh_lower _ _ _ _ _ Hsu). replace (24 + 4 * n - SizeOfItemIdData) with (24 + 4 * (n - 1)) by (unfold SizeOfItemIdData; lia). set (p3 := set_pd_lower (24 + 4 * (n - 1)) _) in *.
  assert (Hpk3 : forall k, 24 <= k -> peek k p3 = peek k p2).
  { intros k Hk. unfold p3, set_pd_lower, set_pd_upper, put. rewrite !peek_header; rewrite ?len_to_le; try done; [apply H2|apply Hsu]. }
  destruct (slide_finish p3 (n - 1) (pd_upper p) (pd_special p) l tup false p H3) as (Hq & Huq & Hlq & Hvq & Hsq); try done; try lia.
  { right. unfold l. eapply Forall_delete. exact Hsto. }
  { apply Hp. }
  { intros k Hk. rewrite Hpk3 by lia. by apply Hlo. }
  { unfold lp_end. intros k Hk. rewrite Hpk3 by lia. by apply Hhi. }
  assert (Eq : (if negb (PageIsEmpty p3) then shift_items (Z.to_nat (n - 1)) 1 false (lp_off tup) size p3 else p3) = shift_items (Z.to_nat (n - 1)) 1 false (lp_off tup) size p3).
  { unfold PageIsEmpty, SizeOfPageHeaderData. rewrite (sh_lower _ _ _ _ _ H3). destruct (Z.leb_spec (24 + 4 * (n - 1)) 24); cbn [negb]; [|done]. by replace (n - 1) with 0 by lia. }
  rewrite Eq. eexists. split; [reflexivity|]. set (q := shift_items _ _ _ _ _ _) in *. assert (Evq : view q = delete (Z.to_nat (offnum - 1)) (view p)) by (rewrite Hvq; unfold l, view; apply map_delete).
  split; [split; [done|eapply index_sub; [exact Hi|exact Evq|]]|].
  { intros e0 He0. eapply elem_of_submseteq; [exact He0|apply delete_sub]. }
  split; [done|]. split; [done|]. rewrite Huq, Hlq, (sh_lower _ _ _ _ _ H). apply lines_ok_cons in Hokt as (Hpt & _). apply Forall_cons in Hft as [Hft _].
  rewrite (entry_len p tup _ _ (po_sized _ Hp) Hft Hpt) by lia. fold size. unfold SizeOfItemIdData. lia.
Qed.

(** ** Deleting several entries *)

Definition delete_entries {A} (itemnos : list OffsetNumber) (v : list A) : list A := foldr (fun off v => delete (Z.to_nat (off - 1)) v) v itemnos.

(** The offsets to delete: in order, and of entries there are. *)
Definition deletable (n : Z) (itemnos : list OffsetNumber) : Prop := StronglySorted Z.lt itemnos /\ Forall (fun off => 1 <= off <= n) itemnos.

Lemma delete_entries_lookup {A} a r (v : list A) : 1 <= a -> Forall (Z.lt a) r -> delete_entries r v !! Z.to_nat (a - 1) = v !! Z.to_nat (a - 1).
Proof.
  intros Ha. induction 1 as [|b r Hb _ IH]; [done|]. cbn [delete_entries foldr]. rewrite list_lookup_delete_lt by lia. exact IH.
Qed.

Lemma delete_backwards_spec itemnos p :
  index_page p -> deletable (Z.of_nat (length (view p))) itemnos ->
  exists q, delete_backwards itemnos p = Done q /\ index_page q /\ view q = delete_entries itemnos (view p) /\ special_space q = special_space p.
Proof.
  intros Hp [Hs Hr]. induction Hs as [|a r Hs IH Ha]; [by exists p|]. apply Forall_cons in Hr as [Har Hr]. destruct (IH Hr) as (q1 & E1 & Hq1 & Hv1 & Hs1).
  cbn [delete_backwards foldr] in *. fold (delete_backwards r p). rewrite E1. cbn [obind].
  destruct (view p !! Z.to_nat (a - 1)) as [e|] eqn:Ee; [|apply lookup_ge_None_1 in Ee; lia].
  destruct (index_delete q1 a e Hq1 ltac:(lia)) as (q & E & Hq & Hv & Hsq & _); [by rewrite Hv1, (delete_entries_lookup a r (view p)) by (done || lia)|].
  exists q. split; [done|]. split; [done|]. split; [by rewrite Hv, Hv1|congruence].
Qed.

(** What the scan keeps. *)
Fixpoint kept {A} (off : OffsetNumber) (itemnos : list OffsetNumber) (l : list A) : list A :=
  match l with
  | [] => []
  | i :: l =>
      match itemnos with
      | next :: itemnos' => if off =? next then kept (off + 1) itemnos' l else i :: kept (off + 1) itemnos l
      | [] => i :: kept (off + 1) itemnos l
      end
  end.

Lemma delete_entries_cons {A} off itemnos (x : A) l :
  Forall (Z.lt off) itemnos ->
  foldr (fun o v => delete (Z.to_nat (o - off)) v) (x :: l) itemnos = x :: foldr (fun o v => delete (Z.to_nat (o - (off + 1))) v) l itemnos.
Proof.
  induction 1 as [|o itemnos Ho _ IH]; [done|]. cbn [foldr]. rewrite IH. replace (Z.to_nat (o - off)) with (S (Z.to_nat (o - (off + 1)))) by lia. done.
Qed.

Lemma kept_delete {A} off itemnos (l : list A) :
  StronglySorted Z.lt itemnos -> Forall (fun o => off <= o) itemnos -> kept off itemnos l = foldr (fun o v => delete (Z.to_nat (o - off)) v) l itemnos.
Proof.
  revert off itemnos. induction l as [|x l IH]; intros off itemnos Hs Hr.
  { cbn. clear. induction itemnos as [|o r IH]; [done|]. cbn. by rewrite <- IH. }
  cbn [kept]. destruct itemnos as [|o r]; [by rewrite IH|]. apply StronglySorted_inv in Hs as [Hs Ho]. apply Forall_cons in Hr as [Hor _]. cbn [foldr].
  assert (Hr' : Forall (Z.lt off) r) by (eapply Forall_impl; [exact Ho|]; intros z; lia). destruct (Z.eqb_spec off o) as [<-|Hne].
  - rewrite delete_entries_cons by done. rewrite Z.sub_diag. cbn [Z.to_nat delete list_delete]. apply IH; [done|]. eapply Forall_impl; [exact Ho|]. intros z. lia.
  - rewrite IH; [|by constructor|constructor; [lia|eapply Forall_impl; [exact Ho|intros z; lia]]]. cbn [foldr]. rewrite delete_entries_cons by done.
    replace (Z.to_nat (o - off)) with (S (Z.to_nat (o - (off + 1)))) by lia. done.
Qed.

(** The offsets that the scan has not come to. *)
Lemma delete_scan_spec l n u s L off itemnos st lps p :
  shape p n u s L -> page_ok p -> u = pd_upper p -> s = pd_special p -> l = drop (Z.to_nat (off - 1)) L -> 1 <= off -> Forall stored l ->
  StronglySorted Z.lt itemnos -> Forall (fun o => off <= o <= n) itemnos -> Z.of_nat (length lps + length l) <= MaxIndexTuplesPerPage ->
  exists st', delete_scan (length l) off itemnos st lps p = Done (st', lps ++ kept off itemnos l, []) /\
    sc_items st' = sc_items st ++ items_of (Z.of_nat (length lps)) (kept off itemnos l) /\
    sc_totallen st' = sc_totallen st + total (items_of (Z.of_nat (length lps)) (kept off itemnos l)) /\
    (sc_presorted st' = true -> sc_presorted st = true /\ falling (sc_last st) (items_of (Z.of_nat (length lps)) (kept off itemnos l))).
Proof.
  intros H Hp Eu Es. revert off itemnos st lps. induction l as [|i l IH]; intros off itemnos st lps El Ho Hst Hs Hr Hmax; cbn [length delete_scan kept].
  { pose proof (shape_length _ _ _ _ _ H) as HL. assert (Hge : (length L <= Z.to_nat (off - 1))%nat) by (apply (f_equal length) in El; rewrite length_drop in El; cbn in El; lia).
    destruct itemnos as [|o r]; [|apply Forall_cons in Hr as [? _]; lia]. exists st. rewrite !app_nil_r. cbn. split; [done|]. split; [done|]. split; [lia|done]. }
  assert (Eli : L !! Z.to_nat (off - 1) = Some i) by (rewrite <- (Nat.add_0_r (Z.to_nat (off - 1))), <- lookup_drop, <- El; done).
  pose proof (lookup_lt_Some _ _ _ Eli) as Hlt. pose proof (shape_length _ _ _ _ _ H) as HL.
  assert (Ei : PageGetItemId off p = i) by (apply (shape_lp_at p n u s L off i H); [lia|exact Eli]).
  apply Forall_cons in Hst as [Hsti Hst]. assert (Hin : i ∈ line p) by (rewrite (shape_of_line _ _ _ _ _ H); by eapply list_elem_of_lookup_2).
  assert (Hfi : lp_fits i) by (rewrite <- Ei; apply decode_fits). pose proof (lo_placed _ _ _ (po_lines _ Hp)) as Hpl. rewrite list.Forall_forall in Hpl.
  rewrite Ei, (item_not_corrupted p i Hp Hfi (Hpl i Hin) Hsti). assert (El' : l = drop (Z.to_nat (off + 1 - 1)) L).
  { replace (Z.to_nat (off + 1 - 1)) with (Z.to_nat (off - 1) + 1)%nat by lia. rewrite <- drop_drop, <- El. done. }
  assert (Hkeep : Forall (fun o => off + 1 <= o <= n) itemnos -> exists st',
    (if MaxIndexTuplesPerPage <=? Z.of_nat (length lps) then Undefined
     else delete_scan (length l) (off + 1) itemnos (keep_item (Z.of_nat (length lps)) (lp_off i) (lp_len i) st) (lps ++ [i]) p) =
      Done (st', lps ++ i :: kept (off + 1) itemnos l, []) /\
    sc_items st' = sc_items st ++ items_of (Z.of_nat (length lps)) (i :: kept (off + 1) itemnos l) /\
    sc_totallen st' = sc_totallen st + total (items_of (Z.of_nat (length lps)) (i :: kept (off + 1) itemnos l)) /\
    (sc_presorted st' = true -> sc_presorted st = true /\ falling (sc_last st) (items_of (Z.of_nat (length lps)) (i :: kept (off + 1) itemnos l)))).
  { intros Hr'. destruct (Z.leb_spec MaxIndexTuplesPerPage (Z.of_nat (length lps))) as [|_]; [cbn [length] in Hmax; lia|].
    destruct (IH (off + 1) itemnos (keep_item (Z.of_nat (length lps)) (lp_off i) (lp_len i) st) (lps ++ [i]) El' ltac:(lia) Hst Hs Hr' ltac:(rewrite length_app; cbn [length] in *; lia)) as (st' & E & H1 & H2 & H3).
    exists st'. rewrite <- app_assoc in E. rewrite length_app, Nat2Z.inj_add in H1, H2, H3. change (Z.of_nat (length [i])) with 1 in *. cbn [items_of]. destruct (Z.eqb_spec (lp_len i) 0) as [E0|_]; [done|].
    split; [exact E|]. split; [rewrite H1; cbn [keep_item sc_items]; by rewrite <- app_assoc|]. split; [rewrite H2; unfold total; cbn [keep_item sc_totallen foldr item_of alignedlen]; lia|].
    intros Hpre. destruct (H3 Hpre) as [H4 H5]. cbn [keep_item sc_presorted sc_last] in H4, H5. rewrite Z.gtb_ltb in H4, H5. destruct (Z.ltb_spec (lp_off i) (sc_last st)); [|done].
    split; [done|]. split; [done|done]. }
  destruct itemnos as [|o r]; [by apply Hkeep|]. apply Forall_cons in Hr as [Hor Hr]. apply StronglySorted_inv in Hs as [Hs Hol]. destruct (Z.eqb_spec off o) as [<-|Hne].
  - apply IH; try done; [lia| |cbn [length] in *; lia]. rewrite list.Forall_forall in Hr, Hol |- *. intros z Hz. specialize (Hr z Hz). specialize (Hol z Hz). lia.
  - apply Hkeep. constructor; [lia|]. rewrite list.Forall_forall in Hr, Hol |- *. intros z Hz. specialize (Hr z Hz). specialize (Hol z Hz). lia.
Qed.

(** The new line pointer array. *)
Lemma slice_concat (lps : list ItemIdData) (k : nat) i :
  lps !! k = Some i -> slice (Z.of_nat (4 * k)) 4 (concat (map (fun i => to_le 4 (encode_lp i)) lps)) = to_le 4 (encode_lp i).
Proof.
  revert k. induction lps as [|j lps IH]; intros k; [done|]. cbn [map concat]. destruct k as [|k].
  - intros [= ->]. done.
  - intros E. rewrite <- (IH k E). unfold slice. replace (Z.to_nat (Z.of_nat (4 * S k))) with (length (to_le 4 (encode_lp j)) + Z.to_nat (Z.of_nat (4 * k)))%nat by (cbn [length to_le]; lia).
    by rewrite drop_app_add.
Qed.

Lemma len_concat (lps : list ItemIdData) : len (concat (map (fun i => to_le 4 (encode_lp i)) lps)) = 4 * Z.of_nat (length lps).
Proof. induction lps as [|j lps IH]; [done|]. cbn [map concat length]. rewrite len_app, IH, len_to_le. lia. Qed.

Lemma put_lps_spec lps p n u s L :
  shape p n u s L -> Forall lp_fits lps -> Z.of_nat (length lps) <= n ->
  exists q, put_lps lps p = Done q /\ shape q n u s (lines n q) /\ lines (Z.of_nat (length lps)) q = lps /\ forall k, 24 + 4 * n <= k -> peek k q = peek k p.
Proof.
  intros H Hf Hm. pose proof (sh_sized _ _ _ _ _ H) as [El _]. destruct (sh_lines _ _ _ _ _ H). unfold put_lps, SizeOfPageHeaderData. set (bs := concat _).
  assert (Hb : len bs = 4 * Z.of_nat (length lps)) by apply len_concat. assert (Hby : Forall is_byte bs).
  { unfold bs. apply Forall_concat, Forall_fmap, Forall_true. intros i. apply to_le_bytes. }
  rewrite memcpy_done by lia. eexists. split; [done|]. split; [eapply shape_blit_any; [done|lia|lia|done]|]. split.
  - apply list_eq. intros k. destruct (lps !! k) as [i|] eqn:Ek.
    + pose proof (lookup_lt_Some _ _ _ Ek). rewrite lookup_lines by lia. f_equal. unfold PageGetItemId, get, lp_addr, SizeOfPageHeaderData, SizeOfItemIdData. change (Z.of_nat 4) with 4.
      rewrite slice_blit_in by lia. replace (24 + 4 * (Z.of_nat k + 1 - 1) - 24) with (Z.of_nat (4 * k)) by lia. unfold bs. rewrite (slice_concat _ _ _ Ek), le_to_le.
      apply decode_encode. rewrite Forall_lookup in Hf. by eapply Hf.
    + apply lookup_ge_None_2. apply lookup_ge_None_1 in Ek. pose proof (length_lines (Z.of_nat (length lps)) (blit 24 bs p) ltac:(lia)). lia.
  - intros k Hk. rewrite peek_blit by lia. by rewrite decide_False by lia.
Qed.

Lemma index_lengths p : index_page p -> Forall (fun i => 8 < lp_len i) (line p).
Proof.
  intros [Hp Hi]. destruct (page_shape p Hp) as (n & H & Hok & Hu & Hs & _). destruct (sh_lines _ _ _ _ _ H). rewrite list.Forall_forall in Hi. apply list.Forall_forall. intros i Hin.
  specialize (Hi (entry_of p i) (list_elem_of_fmap_2 _ _ _ Hin)). rewrite (entry_len p i (pd_upper p) (pd_special p)) in Hi; [done|apply Hp| | |lia|done].
  - assert (Hf : Forall lp_fits (line p)) by (rewrite <- (sh_line _ _ _ _ _ H); apply lines_fits). rewrite list.Forall_forall in Hf. by apply Hf.
  - pose proof (lo_placed _ _ _ Hok) as Hpl. rewrite list.Forall_forall in Hpl. by apply Hpl.
Qed.

(** The arrays of [PageIndexMultiDelete] are large enough. *)
Lemma index_count p : index_page p -> Z.of_nat (length (line p)) <= MaxIndexTuplesPerPage.
Proof.
  intros Hip. pose proof Hip as [Hp _]. destruct (page_shape p Hp) as (n & H & Hok & Hu & Hs & _). pose proof (shape_length _ _ _ _ _ H) as HL. destruct (sh_lines _ _ _ _ _ H).
  assert (Hf : Forall lp_fits (line p)) by (rewrite <- (sh_line _ _ _ _ _ H); apply lines_fits).
  pose proof (total_fits _ _ _ _ (items_clear _ _ _ Hok 0) (items_at _ _ _ Hok Hf) ltac:(lia)) as Ht.
  assert (Hge : forall k, 16 * Z.of_nat (length (line p)) <= total (items_of k (line p))).
  { pose proof (index_lengths p Hip) as Hl. clear -Hl Hf. induction Hl as [|i l Hi _ IH]; intros k; [done|]. apply Forall_cons in Hf as [(_ & _ & Hfi) Hf]. cbn [items_of length].
    destruct (Z.eqb_spec (lp_len i) 0); [lia|]. specialize (IH Hf (k + 1)). unfold total in *. cbn [foldr item_of alignedlen]. assert (16 <= MAXALIGN (lp_len i)); [|lia].
    rewrite MAXALIGN_div by lia. Z.div_mod_to_equations. lia. }
  specialize (Hge 0). change MaxIndexTuplesPerPage with 408. unfold BLCKSZ in *. lia.
Qed.

Lemma Forall_sub {A} (P : A -> Prop) l k : k ⊆+ l -> Forall P l -> Forall P k.
Proof. intros Hk H. rewrite list.Forall_forall in H. apply list.Forall_forall. intros x Hx. apply H. by eapply elem_of_submseteq. Qed.

Lemma kept_sublist {A} off itemnos (l : list A) : kept off itemnos l `sublist_of` l.
Proof.
  revert off itemnos. induction l as [|y l IH]; intros off itemnos; [done|]. cbn [kept]. destruct itemnos as [|o r]; [|destruct (off =? o)].
  - by apply sublist_skip.
  - by apply sublist_cons.
  - by apply sublist_skip.
Qed.

Lemma map_kept {A B} (f : A -> B) off itemnos l : map f (kept off itemnos l) = kept off itemnos (map f l).
Proof.
  revert off itemnos. induction l as [|y l IH]; intros off itemnos; [done|]. cbn [kept map]. destruct itemnos as [|o r]; [|destruct (off =? o)]; cbn [map]; by rewrite IH.
Qed.

(** The scan on a whole page. *)
Lemma multi_scan p n itemnos :
  index_page p -> shape p n (pd_upper p) (pd_special p) (line p) -> deletable n itemnos ->
  let K := kept 1 itemnos (line p) in
  exists st, delete_scan (Z.to_nat n) 1 itemnos (start_scan (pd_special p)) [] p = Done (st, K, []) /\ sc_items st = items_of 0 K /\ sc_totallen st = total (items_of 0 K) /\
    (sc_presorted st = true -> falling (pd_special p) (items_of 0 K)).
Proof.
  intros Hip H [Hs Hr] K. pose proof Hip as [Hp _]. pose proof (shape_length _ _ _ _ _ H) as HL.
  destruct (delete_scan_spec (line p) n _ _ _ 1 itemnos (start_scan (pd_special p)) [] p H Hp eq_refl eq_refl) as (st & E & H1 & H2 & H3); try done.
  - by apply index_stored.
  - cbn [length]. pose proof (index_count p Hip). lia.
  - replace (Z.to_nat n) with (length (line p)) by lia. exists st. cbn [app] in E. split; [done|]. split; [done|]. split; [done|]. intros Hpre. by apply H3.
Qed.

(** C17 -- Deleting several index entries.  [PageIndexMultiDelete], given offsets in order, leaves the page with the entries that the deletions one by
    one leave: for few offsets it is these deletions, otherwise it collects the entries to keep in arrays that are large enough, rewrites the
    line pointers and compacts the items.  The entries that stay keep their bytes, the special space is not touched, and no corruption is reported. *)
Theorem page_multi_delete (garbage : bytes) (itemnos : list OffsetNumber) (p : bytes) :
  index_page p -> deletable (Z.of_nat (length (view p))) itemnos -> len garbage = BLCKSZ -> Forall is_byte garbage ->
  exists q q', PageIndexMultiDelete garbage itemnos p = Done q /\ delete_backwards itemnos p = Done q' /\ index_page q /\
    view q = view q' /\ view q = delete_entries itemnos (view p) /\ special_space q = special_space p.
Proof.
  intros Hip Hdel Hg Hgb. destruct (delete_backwards_spec itemnos p Hip Hdel) as (q' & Eq' & Hq' & Hv' & Hs'). unfold PageIndexMultiDelete.
  destruct (Z.leb_spec (Z.of_nat (length itemnos)) 2) as [|Hmany]; [by exists q', q'|]. pose proof Hip as [Hp Hi]. destruct (page_shape p Hp) as (n & H & Hok & Hu & Hs & Hm & Hm').
  destruct (sh_lines _ _ _ _ _ H) as [Hn Hn']. pose proof (shape_length _ _ _ _ _ H) as HL. assert (Hvl : Z.of_nat (length (view p)) = n) by (unfold view; rewrite length_map; lia). rewrite Hvl in Hdel.
  rewrite (page_not_corrupted p Hp), (shape_max _ _ _ _ _ H). unfold FirstOffsetNumber. destruct (multi_scan p n itemnos Hip H Hdel) as (st & -> & Ei & Et & Hpre). cbn [obind length negb Z.eqb Z.of_nat].
  set (K := kept 1 itemnos (line p)) in *. rewrite Ei, Et.
  assert (HK : K ⊆+ line p) by apply sublist_submseteq, kept_sublist. assert (HokK : lines_ok (pd_upper p) (pd_special p) K) by (by eapply lines_ok_sublist).
  assert (HfK : Forall lp_fits K) by (eapply Forall_sub; [exact HK|rewrite <- (sh_line _ _ _ _ _ H); apply lines_fits]).
  assert (HlK : Z.of_nat (length K) <= n) by (apply submseteq_length in HK; lia).
  pose proof (total_fits _ _ _ _ (items_clear _ _ _ HokK 0) (items_at _ _ _ HokK HfK) ltac:(lia)) as Htot.
  destruct (Z.gtb_spec (total (items_of 0 K)) (pd_special p - pd_lower p)) as [|_]; [rewrite (sh_lower _ _ _ _ _ H) in *; lia|].
  destruct (put_lps_spec K p n _ _ _ H HfK HlK) as (p1 & -> & H1 & El1 & Hk1). cbn [obind].
  pose proof (shape_set_lower _ _ _ _ _ H1 (Z.of_nat (length K)) ltac:(lia) ltac:(lia)) as H2. rewrite El1 in H2. unfold SizeOfPageHeaderData, SizeOfItemIdData. rewrite (Z.mul_comm _ 4).
  set (p2 := set_pd_lower (24 + 4 * Z.of_nat (length K)) p1) in *.
  assert (Hk2 : forall k, 24 + 4 * n <= k -> peek k p2 = peek k p).
  { intros k Hk. unfold p2, set_pd_lower, put. rewrite peek_header; rewrite ?len_to_le; try done; [by apply Hk1|apply H1|lia]. }
  assert (Hsl : forall o k, pd_upper p <= o -> 0 <= k -> o + k <= BLCKSZ -> slice o k p2 = slice o k p).
  { intros o k Ho Hk Hle. apply slice_ext; rewrite ?(sz_len _ (po_sized _ Hp)), ?(sz_len _ (sh_sized _ _ _ _ _ H2)); try lia. intros j Hj. apply Hk2. lia. }
  assert (Ev : map (entry_of p2) K = delete_entries itemnos (view p)).
  { transitivity (map (entry_of p) K); [eapply entries_same; [exact HokK|done|lia|intros; apply Hsl; lia]|]. unfold K, view. destruct Hdel as [Hsd Hrd].
    rewrite map_kept, kept_delete; [done|done|]. eapply Forall_impl; [exact Hrd|]. intros z [Hz _]. exact Hz. }
  assert (exists q, (if Z.of_nat (length K) >? 0 then compactify_tuples garbage (items_of 0 K) p2 (sc_presorted st) else Done (set_pd_upper (pd_special p) p2)) = Done q /\
    page_ok q /\ view q = map (entry_of p2) K /\ special_space q = special_space p) as (q & -> & Hq & Hvq & Hsq).
  { destruct (Z.gtb_spec (Z.of_nat (length K)) 0) as [Hpos|Hnone].
    - assert (HstK : Forall stored K) by (eapply Forall_sub; [exact HK|by apply index_stored]).
      destruct (compact_page garbage p2 (Z.of_nat (length K)) (pd_upper p) (pd_special p) K (sc_presorted st)) as (q & E & H3 & Hq & Hv & Hk); try done; [lia| | |].
      + destruct K as [|i K']; [done|]. apply Forall_cons in HstK as [Hsi _]. cbn [items_of]. destruct (Z.eqb_spec (lp_len i) 0); [done|]. done.
      + intros Hps. eapply falling_descending; [by apply Hpre|by eapply items_clear|eapply items_on_page; [exact HokK|done|done|lia|done]|].
        eapply Forall_impl; [exact (items_at _ _ _ HokK HfK)|]. by intros i (_ & _ & ? & ?).
      + exists q. split; [done|]. split; [done|]. split; [done|]. unfold special_space. rewrite (sh_special _ _ _ _ _ H3), Hk by lia. apply Hsl; lia.
    - assert (EK : K = []) by (destruct K; [done|simpl in Hnone; lia]). clearbody K. subst K. pose proof (shape_set_upper _ _ _ _ _ H2 (pd_special p) ltac:(unfold BLCKSZ in *; lia)) as H3.
      eexists. split; [done|]. split; [eapply shape_ok; [exact H3|split; constructor|cbn; lia|done|done|done]|]. split; [by rewrite (view_shape _ _ _ _ _ H3)|].
      unfold special_space. rewrite (sh_special _ _ _ _ _ H3). rewrite <- Hsl by lia. apply slice_front; rewrite ?len_to_le; [apply H2|lia..]. }
  rewrite Ev in Hvq. exists q, q'. split; [done|]. split; [done|]. split; [|split; [congruence|done]]. split; [done|]. rewrite Hvq, <- Hv'. apply Hq'.
Qed.

(** ** Deleting without compacting the line pointers *)

Lemma map_insert {A B} (f : A -> B) k x l : map f (<[k := x]> l) = <[k := f x]> (map f l).
Proof. apply list_fmap_insert. Qed.

(** The part after the line pointer is gone or unused: [l] are the line pointers that are left. *)
Lemma no_compact_rest p p1 m l tup :
  page_ok p -> shape p1 m (pd_upper p) (pd_special p) l -> 24 + 4 * m <= pd_upper p -> (forall k, 24 + 4 * m <= k -> peek k p1 = peek k p) ->
  stored tup -> lines_ok (pd_upper p) (pd_special p) (tup :: l) -> Forall lp_fits (tup :: l) ->
  let size := MAXALIGN (lp_len tup) in
  exists q, (do p <- (if lp_off tup >? pd_upper p1 then memmove (pd_upper p1 + size) (pd_upper p1) (lp_off tup - pd_upper p1) p1 else Done p1);
             Done (if negb (PageIsEmpty (set_pd_upper (pd_upper p + size) p)) then shift_items (Z.to_nat m) 1 true (lp_off tup) size (set_pd_upper (pd_upper p + size) p)
                   else set_pd_upper (pd_upper p + size) p)) = Done q /\
    page_ok q /\ view q = map (entry_of p) l /\ special_space q = special_space p /\ pd_upper q = pd_upper p + size.
Proof.
  intros Hp H1 Hm Hpk Hst Hok Hf size. destruct (page_shape p Hp) as (n & H & _ & Hu & Hs & Hm8 & Hm8'). destruct (sh_lines _ _ _ _ _ H1) as [Hm0 Hm1]. destruct (sh_lines _ _ _ _ _ H) as [Hn0 Hn1].
  pose proof Hok as ([Hpl _] & _)%lines_ok_cons. destruct (Hpl Hst) as (Ht1 & Ht2 & _). pose proof Hf as [Hft _]%Forall_cons. destruct (aligned_pos tup Hft Hst) as [[Ha _] _].
  destruct (slide_data p1 m _ _ _ tup p H1 Hm Hs Ht1 Ht2 ltac:(lia) Hpk) as (p2 & E2 & H2 & Hlo & Hhi). fold size in E2. rewrite (sh_upper _ _ _ _ _ H1), E2. cbn [obind]. rewrite (sh_upper _ _ _ _ _ H2).
  fold size in Hlo, Hhi. unfold lp_end in Ht2. fold size in Ht2, Ha. pose proof (shape_set_upper _ _ _ _ _ H2 (pd_upper p + size) ltac:(unfold BLCKSZ in *; lia)) as H3.
  set (p3 := set_pd_upper (pd_upper p + size) p2) in *.
  assert (Hpk3 : forall k, 24 <= k -> peek k p3 = peek k p2) by (intros k Hk; unfold p3, set_pd_upper, put; rewrite peek_header; rewrite ?len_to_le; try done; apply H2).
  destruct (slide_finish p3 m (pd_upper p) (pd_special p) l tup true p H3) as (Hq & Huq & _ & Hvq & Hsq); try done; try lia.
  { apply Hp. }
  { intros k Hk. rewrite Hpk3 by lia. by apply Hlo. }
  { unfold lp_end. intros k Hk. rewrite Hpk3 by lia. by apply Hhi. }
  eexists. split; [|by split; [exact Hq|]]. do 2 f_equal. unfold PageIsEmpty, SizeOfPageHeaderData. rewrite (sh_lower _ _ _ _ _ H3).
  destruct (Z.leb_spec (24 + 4 * m) 24); cbn [negb]; [|done]. by replace m with 0 by lia.
Qed.

(** The entry becomes unused, or goes when it is the last; no other entry changes its number. *)
Lemma index_delete_no_compact p offnum e :
  page_ok p -> 1 <= offnum -> view p !! Z.to_nat (offnum - 1) = Some e -> 0 < len (e_data e) ->
  exists q, PageIndexTupleDeleteNoCompact offnum p = Done q /\ page_ok q /\ special_space q = special_space p /\
    view q = if offnum <? Z.of_nat (length (view p)) then <[Z.to_nat (offnum - 1) := unused_entry]> (view p) else take (Z.to_nat (offnum - 1)) (view p).
Proof.
  intros Hp Ho He Hlen. destruct (page_shape p Hp) as (n & H & Hok & Hu & Hs & Hm & Hm'). pose proof (shape_length _ _ _ _ _ H) as HL.
  assert (Hvl : Z.of_nat (length (view p)) = n) by (unfold view; rewrite length_map; lia). assert (Hon : offnum <= n) by (apply lookup_lt_Some in He; lia).
  rewrite (lookup_entry p n offnum H ltac:(lia)) in He. injection He as <-. set (tup := PageGetItemId offnum p) in *.
  assert (Hst : stored tup) by (intros E; cbn [entry_of e_data] in Hlen; unfold PageGetItem in Hlen; rewrite E, slice_0 in Hlen; by vm_compute in Hlen).
  destruct (item_facts p n offnum Hp H ltac:(lia) Hst) as (Hnc & Hokt & Hft & Ha & Ha8 & Ht1 & Ht2). fold tup in Hnc, Hokt, Hft, Ha, Ha8, Ht1, Ht2.
  destruct (sh_lines _ _ _ _ _ H) as [Hn Hn']. pose proof (shape_lookup _ _ _ _ _ offnum H ltac:(lia)) as El. fold tup in El.
  unfold PageIndexTupleDeleteNoCompact. rewrite (page_not_corrupted p Hp), (shape_max _ _ _ _ _ H). fold tup. rewrite Hnc.
  destruct (Z.leb_spec offnum 0) as [|_]; [lia|]. destruct (Z.gtb_spec offnum n) as [|_]; [lia|]. cbn [orb]. rewrite Hvl. destruct (Z.ltb_spec offnum n).
  - pose proof (shape_put_lp _ _ _ _ _ H offnum ItemIdSetUnused ltac:(lia) ltac:(repeat split; done)) as H1. set (l := <[Z.to_nat (offnum - 1) := ItemIdSetUnused]> (line p)) in *.
    assert (HP : tup :: l ≡ₚ ItemIdSetUnused :: tup :: delete (Z.to_nat (offnum - 1)) (line p)) by (unfold l; rewrite (insert_perm _ _ _ _ El); apply Permutation_swap).
    destruct (no_compact_rest p _ n l tup Hp H1) as (q & E & Hq & Hv & Hsq & _); try done; [lia| | | |].
    + intros k Hk. apply (peek_put_lp n); [apply H|lia..].
    + eapply lines_ok_perm; [symmetry; exact HP|]. by apply lines_ok_empty.
    + rewrite HP. constructor; [repeat split; done|done].
    + exists q. rewrite (sh_upper _ _ _ _ _ H1) in *. split; [exact E|]. split; [done|]. split; [done|]. rewrite Hv. unfold l, view. rewrite map_insert. f_equal.
  - assert (offnum = n) as -> by lia. rewrite (sh_lower _ _ _ _ _ H). unfold SizeOfItemIdData. replace (24 + 4 * n - 4) with (24 + 4 * (n - 1)) by lia.
    pose proof (shape_set_lower _ _ _ _ _ H (n - 1) ltac:(lia) ltac:(lia)) as H1. rewrite (shape_lines _ _ _ _ _ (n - 1) H ltac:(lia)) in H1. set (l := take (Z.to_nat (n - 1)) (line p)) in *.
    assert (El' : delete (Z.to_nat (n - 1)) (line p) = l) by (rewrite delete_take_drop, drop_ge by lia; apply app_nil_r). rewrite El' in Hokt, Hft.
    destruct (no_compact_rest p _ (n - 1) l tup Hp H1) as (q & E & Hq & Hv & Hsq & _); try done; [lia| |].
    + intros k Hk. apply peek_header; rewrite ?len_to_le; [apply H|lia..].
    + exists q. rewrite (sh_upper _ _ _ _ _ H1) in *. split; [exact E|]. split; [done|]. split; [done|]. rewrite Hv. unfold l, view. by rewrite firstn_map.
Qed.

(** ** Overwriting an entry *)

Lemma slid_0 offset i : slid offset 0 i = i.
Proof. unfold slid. destruct (slides offset i); [|done]. destruct i. unfold set_lp_off. cbn. by rewrite Z.add_0_r. Qed.

Lemma map_slid_0 offset l : map (slid offset 0) l = l.
Proof. rewrite <- (map_id l) at 2. apply map_ext. intros i. apply slid_0. Qed.

(** The items before the entry have made room, or closed up. *)
Lemma overwrite_slide p n tup delta :
  page_ok p -> shape p n (pd_upper p) (pd_special p) (line p) -> stored tup -> tup ∈ line p ->
  delta <= MAXALIGN (lp_len tup) -> 24 + 4 * n <= pd_upper p + delta -> delta mod 8 = 0 ->
  exists p1, (if negb (delta =? 0) then
                do p <- memmove (pd_upper p + delta) (pd_upper p) (lp_off tup - pd_upper p) p;
                Done (shift_items (Z.to_nat n) FirstOffsetNumber true (lp_off tup) delta (set_pd_upper (pd_upper p + delta) p))
              else Done p) = Done p1 /\
    shape p1 n (pd_upper p + delta) (pd_special p) (map (slid (lp_off tup) delta) (line p)) /\
    (forall k, pd_upper p + delta <= k < lp_off tup + delta -> peek k p1 = peek (k - delta) p) /\ (forall k, lp_end tup <= k -> peek k p1 = peek k p).
Proof.
  intros Hp H Hst Hin Hd Hlo Hd8. destruct (Z.eqb_spec delta 0) as [->|Hne]; cbn [negb].
  { exists p. rewrite !Z.add_0_r, map_slid_0. split; [done|]. split; [done|]. split; [intros k _; by rewrite Z.sub_0_r|done]. }
  destruct (page_shape p Hp) as (n' & H' & Hok & Hu & Hs & Hm & Hm'). assert (n' = n) as -> by (rewrite <- (shape_max _ _ _ _ _ H'), <- (shape_max _ _ _ _ _ H); done). clear H'.
  assert (Hf : Forall lp_fits (line p)) by (rewrite <- (sh_line _ _ _ _ _ H); apply lines_fits). pose proof (lo_placed _ _ _ Hok) as Hpl. rewrite list.Forall_forall in Hpl, Hf.
  destruct (proj1 (Hpl tup Hin) Hst) as (Ht1 & Ht2 & _). destruct (aligned_pos tup (Hf tup Hin) Hst) as [[Ha _] _]. unfold lp_end in *. destruct (sh_lines _ _ _ _ _ H) as [Hn Hn'].
  destruct (slide_move p n _ _ _ (lp_off tup) delta (MAXALIGN (lp_len tup)) H Hlo Ht1 Ht2 Hs Hd ltac:(lia) ltac:(lia)) as (p2 & E2 & H2 & Hl2 & Hh2). rewrite E2. cbn [obind]. rewrite (sh_upper _ _ _ _ _ H2).
  pose proof (shape_set_upper _ _ _ _ _ H2 (pd_upper p + delta) ltac:(unfold BLCKSZ in *; lia)) as H3. set (p3 := set_pd_upper (pd_upper p + delta) p2) in *.
  assert (Hpk3 : forall k, 24 <= k -> peek k p3 = peek k p2) by (intros k Hk; unfold p3, set_pd_upper, put; rewrite peek_header; rewrite ?len_to_le; try done; apply H2).
  destruct (shift_items_spec (line p) [] n _ _ 1 true (lp_off tup) delta p3 H3 eq_refl (or_introl eq_refl)) as [H4 Hk4].
  { apply (slides_fit (pd_special p)); [done|lia|done|]. intros i Hi Hsi. destruct (proj1 (Hpl i Hi) Hsi) as (? & _). lia. }
  replace (length (line p)) with (Z.to_nat n) in H4, Hk4 by (pose proof (shape_length _ _ _ _ _ H); lia). eexists. split; [reflexivity|]. split; [exact H4|].
  split; intros k Hk; (rewrite Hk4, Hpk3 by lia); [by apply Hl2|by apply Hh2].
Qed.

Lemma insert_delete_eq {A} (k : nat) (x : A) a b : (k < length a)%nat -> length a = length b -> delete k a = delete k b -> <[k := x]> a = <[k := x]> b.
Proof.
  intros Hk Hl. rewrite !delete_take_drop, !insert_take_drop by lia. intros E. apply app_inj_1 in E as [-> ->]; [done|]. rewrite !length_take. lia.
Qed.

(** The new bytes are in the place that is free now. *)
Lemma overwrite_finish p q k n tup newtup delta :
  let lp := {| lp_off := lp_off tup + delta; lp_flags := lp_flags tup; lp_len := len newtup |} in
  page_ok p -> line p !! k = Some tup -> stored tup -> lines_ok (pd_upper p) (pd_special p) (tup :: delete k (line p)) -> Forall lp_fits (tup :: delete k (line p)) ->
  delta = MAXALIGN (lp_len tup) - MAXALIGN (len newtup) -> delta mod 8 = 0 -> 0 <= n -> 24 + 4 * n <= pd_upper p + delta -> 0 < len newtup < 2 ^ 31 ->
  shape q n (pd_upper p + delta) (pd_special p) (<[k := lp]> (map (slid (lp_off tup) delta) (line p))) ->
  (forall j, pd_upper p + delta <= j < lp_off tup + delta -> peek j q = peek (j - delta) p) -> (forall j, lp_end tup <= j -> peek j q = peek j p) ->
  slice (lp_off tup + delta) (len newtup) q = newtup ->
  page_ok q /\ special_space q = special_space p /\ view q = <[k := {| e_flags := lp_flags tup; e_link := 0; e_data := newtup |}]> (view p).
Proof.
  intros lp Hp El Hst Hok Hf Ed Hd8 Hn0 Hn Hlen Hq Hlo Hhi Hnew. destruct (page_shape p Hp) as (n' & H & _ & Hu & Hs & Hm & Hm'). destruct (sh_lines _ _ _ _ _ H) as [Hn1 _].
  pose proof (MAXALIGN_bounds (len newtup) ltac:(lia)) as [HN HN8]. destruct (tup_placed _ _ _ _ Hst Hok) as (Ht1 & Ht2 & Ht3).
  assert (Hlpe : lp_end lp = lp_end tup) by (unfold lp_end, lp; cbn [lp_off lp_len]; lia). assert (Hfl : lp_flags tup <> LP_UNUSED /\ lp_flags tup <> LP_REDIRECT).
  { apply lines_ok_cons in Hok as ([_ Hx] & _). split; intros E; apply Hst, Hx; [by left|by right]. }
  assert (HP : <[k := lp]> (map (slid (lp_off tup) delta) (line p)) ≡ₚ lp :: map (slid (lp_off tup) delta) (delete k (line p))).
  { rewrite map_delete. eapply insert_perm. rewrite list_lookup_fmap, El. done. }
  pose proof (slide_lines_ok _ _ tup _ delta Hst Hok Hf Hd8) as Hsl. pose proof (slide_side _ _ tup _ delta Hst Hok Hf) as Hside. unfold lp_end in Ht2, Hlpe.
  assert (Hok' : lines_ok (pd_upper p + delta) (pd_special p) (lp :: map (slid (lp_off tup) delta) (delete k (line p)))).
  { apply lines_ok_cons. split; [split; [|intros [?|?]; by destruct Hfl]|split].
    - intros _. unfold lp_end. cbn [lp lp_off] in *. rewrite Hlpe, Zplus_mod, Ht3, Hd8. split; [lia|done].
    - apply Forall_fmap, list.Forall_forall. intros i Hi _ Hsi. unfold stored in Hsi. cbn in Hsi. rewrite slid_len in Hsi. cbn. rewrite slid_end. unfold lp_end in *. rewrite Hlpe.
      destruct (Hside i Hi Hsi) as (_ & _ & _ & [[Hc ->]|[Hc ->]]); cbn [lp lp_off]; lia.
    - apply Hsl; lia. }
  apply (lines_ok_perm _ _ _ _ (symmetry HP)) in Hok'. pose proof (sh_sized _ _ _ _ _ Hq) as Hsq. pose proof (aligned_pos tup (proj1 (proj1 (Forall_cons _ _ _) Hf)) Hst) as [[Ha _] _].
  split; [eapply shape_ok; [exact Hq|exact Hok'|lia|done|by rewrite Zplus_mod, Hm, Hd8|done]|]. split.
  - unfold special_space. rewrite (sh_special _ _ _ _ _ Hq). apply slice_ext; rewrite ?(sz_len _ Hsq), ?(sz_len _ (po_sized _ Hp)); try lia. intros j Hj. apply Hhi. unfold lp_end. lia.
  - rewrite (view_shape _ _ _ _ _ Hq), map_insert. replace (entry_of q lp) with {| e_flags := lp_flags tup; e_link := 0; e_data := newtup |}.
    + unfold view. apply insert_delete_eq; rewrite ?length_map; [by eapply lookup_lt_Some|done|]. rewrite <- !map_delete.
      apply (slide_entries (pd_upper p) (pd_special p) tup); try done; try lia; [apply Hp|]. intros j Hj. apply Hhi. lia.
    + unfold entry_of, PageGetItem. cbn [lp lp_off lp_len lp_flags]. rewrite Hnew. destruct (Z.eqb_spec (lp_flags tup) LP_REDIRECT); [by destruct Hfl|done].
Qed.

(** C18 -- Overwriting an index entry.  [PageIndexTupleOverwrite] gives the entry the new bytes, whatever their length; its state, its number and every other entry stay,
    although their items may slide, and so does the special space.  It returns [false], and changes nothing, only when the aligned item does not fit into
    the room of the old one and the free space. *)
Theorem page_index_overwrite p offnum e newtup :
  page_ok p -> 1 <= offnum -> view p !! Z.to_nat (offnum - 1) = Some e -> 0 < len (e_data e) -> 0 < len newtup < 2 ^ 31 - 8 -> Forall is_byte newtup ->
  if MAXALIGN (len newtup) <=? MAXALIGN (len (e_data e)) + (pd_upper p - pd_lower p) then
    exists q, PageIndexTupleOverwrite offnum newtup p = Done (true, q) /\ page_ok q /\ special_space q = special_space p /\
      view q = <[Z.to_nat (offnum - 1) := {| e_flags := e_flags e; e_link := 0; e_data := newtup |}]> (view p)
  else PageIndexTupleOverwrite offnum newtup p = Done (false, p).
Proof.
  intros Hp Ho He Hlen Hnew Hnb. destruct (page_shape p Hp) as (n & H & Hok & Hu & Hs & Hm & Hm'). pose proof (shape_length _ _ _ _ _ H) as HL.
  assert (Hon : offnum <= n) by (apply lookup_lt_Some in He; unfold view in He; rewrite length_map in He; lia).
  rewrite (lookup_entry p n offnum H ltac:(lia)) in He. injection He as <-. set (tup := PageGetItemId offnum p) in *. set (k := Z.to_nat (offnum - 1)).
  assert (Hst : stored tup) by (intros E; cbn [entry_of e_data] in Hlen; unfold PageGetItem in Hlen; rewrite E, slice_0 in Hlen; by vm_compute in Hlen).
  destruct (item_facts p n offnum Hp H ltac:(lia) Hst) as (Hnc & Hokt & Hft & Ha & Ha8 & Ht1 & Ht2). fold tup k in Hnc, Hokt, Hft, Ha, Ha8, Ht1, Ht2. set (l := delete k (line p)) in *.
  pose proof Hokt as (Hpt & _)%lines_ok_cons. pose proof Hft as [Hfit Hfl]%Forall_cons. destruct (sh_lines _ _ _ _ _ H) as [Hn Hn']. pose proof (shape_lookup _ _ _ _ _ offnum H ltac:(lia)) as El. fold tup k in El.
  rewrite (entry_len p tup _ _ (po_sized _ Hp) Hfit Hpt ltac:(lia) Hs). pose proof (MAXALIGN_bounds (len newtup) ltac:(lia)) as [HN HN8]. set (size := MAXALIGN (lp_len tup)) in *. set (new := MAXALIGN (len newtup)) in *.
  assert (Eov : PageIndexTupleOverwrite offnum newtup p =
    if new >? size + (pd_upper p - pd_lower p) then Done (false, p)
    else do p1 <- (if negb (size - new =? 0) then do p <- memmove (pd_upper p + (size - new)) (pd_upper p) (lp_off tup - pd_upper p) p;
                     Done (shift_items (Z.to_nat n) FirstOffsetNumber true (lp_off tup) (size - new) (set_pd_upper (pd_upper p + (size - new)) p)) else Done p);
         let p1 := put_lp offnum {| lp_off := lp_off tup + (size - new); lp_flags := lp_flags (PageGetItemId offnum p1); lp_len := len newtup |} p1 in
         do p2 <- memcpy (lp_off (PageGetItemId offnum p1)) newtup p1; Done (true, p2)).
  { unfold PageIndexTupleOverwrite. rewrite (page_not_corrupted p Hp), (shape_max _ _ _ _ _ H). fold tup. rewrite Hnc.
    destruct (Z.leb_spec offnum 0) as [|_]; [lia|]. destruct (Z.gtb_spec offnum n) as [|_]; [lia|]. cbn [orb]. fold size new. by rewrite s32_small by lia. }
  rewrite Eov. clear Eov. rewrite (sh_lower _ _ _ _ _ H). destruct (Z.leb_spec new (size + (pd_upper p - (24 + 4 * n)))) as [Hfits|Hbig]; [|destruct (Z.gtb_spec new (size + (pd_upper p - (24 + 4 * n)))); [done|lia]].
  destruct (Z.gtb_spec new (size + (pd_upper p - (24 + 4 * n)))) as [|_]; [lia|]. set (delta := size - new) in *. assert (Hd8 : delta mod 8 = 0) by (unfold delta; rewrite Zminus_mod, Ha8, HN8; done).
  destruct (overwrite_slide p n tup delta Hp H Hst (list_elem_of_lookup_2 _ _ _ El) ltac:(unfold delta; lia) ltac:(unfold delta; lia) Hd8) as (p1 & -> & H1 & Hl1 & Hh1). cbn [obind].
  assert (Esl : PageGetItemId offnum p1 = slid (lp_off tup) delta tup).
  { apply (shape_lp_at _ _ _ _ _ _ _ H1); [lia|]. rewrite list_lookup_fmap. fold k. by rewrite El. }
  rewrite Esl, slid_flags. set (lp := {| lp_off := lp_off tup + delta; lp_flags := lp_flags tup; lp_len := len newtup |}).
  assert (Ed : delta = size - new) by done. clearbody delta. assert (Hlp : lp_fits lp) by (destruct Hfit as (_ & ? & _); unfold BLCKSZ in *; split; [cbn [lp lp_off]; lia|split; [done|cbn [lp lp_len]; lia]]).
  pose proof (shape_put_lp _ _ _ _ _ H1 offnum lp ltac:(lia) Hlp) as H2. fold k in H2. set (p2 := put_lp offnum lp p1) in *. cbv zeta.
  assert (Elp : PageGetItemId offnum p2 = lp) by (apply (shape_lp_at _ _ _ _ _ _ _ H2); [lia|]; fold k; apply list_lookup_insert_eq; rewrite length_map; lia).
  rewrite Elp. cbn [lp lp_off]. rewrite memcpy_done by (rewrite ?(sz_len _ (sh_sized _ _ _ _ _ H2)); lia). cbn [obind]. eexists. split; [done|]. set (q := blit (lp_off tup + delta) newtup p2).
  assert (Hpk : forall j, 24 + 4 * n <= j -> peek j p2 = peek j p1) by (intros j Hj; apply (peek_put_lp n); [apply H1|lia..]). pose proof (sz_len _ (sh_sized _ _ _ _ _ H2)) as El2.
  apply (overwrite_finish p q k n tup newtup delta); try done; try lia; unfold q.
  - apply shape_blit; [done|lia|lia|done].
  - intros j Hj. rewrite peek_blit by lia. rewrite decide_False by lia. rewrite Hpk by lia. by apply Hl1.
  - unfold lp_end. fold size. intros j Hj. rewrite peek_blit by lia. rewrite decide_False by lia. rewrite Hpk by lia. by apply Hh1.
  - apply slice_blit_same; lia.
Qed.
