(* ===== verification/PageChecksum.v ===== *)
(** * Page checksums

    What [PageSetChecksumInplace] writes is what [PageIsVerifiedExtended] expects, and a page that is read from the place of another block of
    its neighbourhood is refused. *)
From S2P Require Import Prelude TransactionId ItemPtr Bytes Page PageInv.
Local Open Scope Z_scope.

Lemma checksum_eq p blkno : pg_checksum_page p blkno = Z.lxor (pg_checksum_block (set_pd_checksum 0 p)) blkno mod 65535 + 1.
Proof.
  unfold pg_checksum_page. cbv zeta. set (x := Z.lxor _ _). pose proof (Z.mod_pos_bound x 65535 ltac:(lia)). unfold u16, wrap. apply Z.mod_small. lia.
Qed.

Lemma checksum_range p blkno : 1 <= pg_checksum_page p blkno <= 65535.
Proof. rewrite checksum_eq. pose proof (Z.mod_pos_bound (Z.lxor (pg_checksum_block (set_pd_checksum 0 p)) blkno) 65535 ltac:(lia)). lia. Qed.

Lemma put_put n off v w l : 0 <= off -> off + Z.of_nat n <= len l -> put n off v (put n off w l) = put n off v l.
Proof.
  intros Ho Hl. apply bytes_ext; rewrite !len_put; rewrite ?len_put; try lia. intros i Hi. unfold put. pose proof (len_to_le n v). pose proof (len_to_le n w).
  rewrite !peek_blit by (rewrite ?len_blit by lia; lia). case_decide; [done|]. by rewrite decide_False by lia.
Qed.

(** The checksum does not depend on the field it is stored in. *)
Lemma checksum_field c p blkno : sized p -> pg_checksum_page (set_pd_checksum c p) blkno = pg_checksum_page p blkno.
Proof. intros [Hl _]. rewrite !checksum_eq. unfold set_pd_checksum. by rewrite put_put by (rewrite ?Hl; done). Qed.

Lemma checksum_header c p :
  sized p -> 0 <= c < 2 ^ 16 ->
  let q := set_pd_checksum c p in
  sized q /\ pd_checksum q = c /\ pd_flags q = pd_flags p /\ pd_lower q = pd_lower p /\ pd_upper q = pd_upper p /\ pd_special q = pd_special p.
Proof.
  intros [Hl Hb] Hc q. assert (Hg : forall n o, 0 <= o -> o + Z.of_nat n <= 8 \/ 10 <= o -> o + Z.of_nat n <= 8192 -> get n o q = get n o p).
  { intros n o Ho Hd Hn. apply get_put_out; rewrite ?Hl; unfold BLCKSZ; lia. }
  split; [by apply sized_put|]. split; [unfold pd_checksum, q, set_pd_checksum; rewrite get_put_same by (rewrite ?Hl; done); by apply Z.mod_small|].
  unfold pd_flags, pd_lower, pd_upper, pd_special. rewrite !Hg; [done|lia..].
Qed.

Lemma not_zeroes p : sized p -> PageIsNew p = false -> forallb (Z.eqb 0) p = false.
Proof.
  intros [Hl Hb] Hn. destruct (forallb _ p) eqn:E; [|done]. rewrite forallb_forall in E. exfalso. unfold PageIsNew, pd_upper, get in Hn. apply Z.eqb_neq in Hn. apply Hn.
  assert (Hz : forall x, x ∈ slice 14 (Z.of_nat 2) p -> x = 0) by (intros x Hx; symmetry; apply Z.eqb_eq, E, list_elem_of_In; unfold slice in Hx; eapply elem_of_submseteq; [exact Hx|];
    etrans; [apply sublist_submseteq, sublist_take|apply sublist_submseteq, sublist_drop]).
  clear -Hz. induction (slice 14 (Z.of_nat 2) p) as [|x l IH]; [done|]. cbn [le]. rewrite IH; [|intros y Hy; apply Hz; by right]. by rewrite (Hz x) by (by left).
Qed.

(** Two numbers that agree in the bits above the lowest 16 and have the same residue are equal, or have all the lower bits different. *)
Lemma residue_low x y : 0 <= x -> 0 <= y -> Z.shiftr x 16 = Z.shiftr y 16 -> x mod 65535 = y mod 65535 -> x = y \/ Z.lxor x y = 65535.
Proof.
  intros Hx Hy Hs Hm. rewrite !Z.shiftr_div_pow2 in Hs by lia. change (2 ^ 16) with 65536 in Hs.
  pose proof (Z.div_mod x 65536 ltac:(lia)). pose proof (Z.div_mod y 65536 ltac:(lia)). pose proof (Z.mod_pos_bound x 65536 ltac:(lia)). pose proof (Z.mod_pos_bound y 65536 ltac:(lia)).
  assert (Hd : x = y \/ x = y + 65535 \/ y = x + 65535) by (Z.div_mod_to_equations; lia).
  destruct Hd as [?|Hd]; [by left|right]. set (h := x / 65536) in *.
  assert (Hc : (x = h * 2 ^ 16 + 65535 /\ y = h * 2 ^ 16) \/ (y = h * 2 ^ 16 + 65535 /\ x = h * 2 ^ 16)) by (change (2 ^ 16) with 65536; lia).
  assert (Hh : 0 <= h) by (apply Z.div_pos; lia).
  assert (Hl : Z.lxor (h * 2 ^ 16 + 65535) (h * 2 ^ 16) = 65535).
  { rewrite <- Z.shiftl_mul_pow2 by lia. rewrite Z.add_nocarry_lxor, (Z.lxor_comm (Z.shiftl h 16)), Z.lxor_assoc, Z.lxor_nilpotent; [apply Z.lxor_0_r|].
    apply Z.bits_inj'. intros k Hk. rewrite Z.land_spec, Z.bits_0, Z.shiftl_spec by lia. change 65535 with (Z.ones 16). destruct (Z.ltb_spec k 16); [by rewrite Z.testbit_neg_r by lia|].
    by rewrite Z.ones_spec_high, andb_false_r by lia. }
  clearbody h. clear -Hc Hl. destruct Hc as [[-> ->]|[-> ->]]; [done|]. by rewrite Z.lxor_comm.
Qed.

Lemma checksum_comp_nonneg s v : 0 <= s -> 0 <= v -> 0 <= CHECKSUM_COMP s v.
Proof.
  intros Hs Hv. assert (Ht : 0 <= Z.lxor s v) by (apply Z.lxor_nonneg; lia). unfold CHECKSUM_COMP. cbv zeta. apply Z.lxor_nonneg. split; intros _; [by apply Z.shiftr_nonneg|].
  apply u32_range.
Qed.

Lemma checksum_block_nonneg p : sized p -> 0 <= pg_checksum_block p.
Proof.
  intros [Hl Hb]. unfold pg_checksum_block. cbv zeta.
  assert (H1 : forall rows sums, Forall (fun i => (i < 64)%nat) rows -> Forall (Z.le 0) sums -> Forall (Z.le 0) (foldl (fun sums i => zip_with CHECKSUM_COMP sums (checksum_row p i)) sums rows)).
  { induction rows as [|i rows IH]; intros sums Hi Hs; [done|]. apply Forall_cons in Hi as [Hi1 Hi2]. cbn [foldl]. apply IH; [done|]. apply Forall_zip_with_fst with (P := fun x => 0 <= x); [done|].
    unfold checksum_row. apply Forall_fmap, list.Forall_forall. intros j [_ Hj]%elem_of_seq s Hs'. apply checksum_comp_nonneg; [done|]. apply get_range; rewrite ?Hl; unfold N_SUMS, BLCKSZ in *; try lia. done. }
  assert (H2 : forall rows sums, Forall (Z.le 0) sums -> Forall (Z.le 0) (foldl (fun sums (_ : nat) => map (fun s => CHECKSUM_COMP s 0) sums) sums rows)).
  { induction rows as [|i rows IH]; intros sums Hs; [done|]. cbn [foldl]. apply IH, Forall_fmap. eapply Forall_impl; [exact Hs|]. intros s Hs'. by apply checksum_comp_nonneg. }
  assert (H3 : forall sums x, 0 <= x -> Forall (Z.le 0) sums -> 0 <= foldl Z.lxor x sums).
  { induction sums as [|s sums IH]; intros x Hx Hs; [done|]. apply Forall_cons in Hs as [Hs1 Hs2]. cbn [foldl]. apply IH; [|done]. by apply Z.lxor_nonneg. }
  apply H3; [done|]. apply H2, H1; [apply list.Forall_forall; intros i [_ Hi]%elem_of_seq; exact Hi|]. repeat constructor; done.
Qed.

#[local] Opaque pg_checksum_page pg_checksum_block.

(** The block number is in the checksum. *)
Lemma checksum_blocks p a b :
  sized p -> 0 <= a -> 0 <= b -> a <> b -> Z.shiftr a 16 = Z.shiftr b 16 -> Z.lxor a b <> 65535 -> pg_checksum_page p a <> pg_checksum_page p b.
Proof.
  intros Hp Ha Hb Hne Hsh Hx. rewrite !checksum_eq. pose proof (checksum_block_nonneg _ (sized_put 2 8 0 _ Hp ltac:(done) ltac:(done))) as Hk. fold (set_pd_checksum 0 p) in Hk.
  generalize dependent (pg_checksum_block (set_pd_checksum 0 p)). intros k Hk E.
  destruct (residue_low (Z.lxor k a) (Z.lxor k b)) as [E1|E1]; [apply Z.lxor_nonneg; lia|apply Z.lxor_nonneg; lia|by rewrite !Z.shiftr_lxor, Hsh|lia| |].
  - apply Hne. rewrite <- (Z.lxor_0_l a), <- (Z.lxor_0_l b), <- (Z.lxor_nilpotent k), !Z.lxor_assoc. by rewrite E1.
  - apply Hx. rewrite <- E1. rewrite (Z.lxor_comm k a), Z.lxor_assoc, <- (Z.lxor_assoc k k), Z.lxor_nilpotent. by rewrite Z.lxor_0_l.
Qed.

(** C34 -- A page that [PageSetChecksumInplace] leaves differs in the checksum field only, and [PageIsVerifiedExtended] accepts it for its block;
    with another checksum in the field, or for a block whose number differs in some but not all of the lowest 16 bits, it rows refused. *)
Theorem page_checksum (blkno other : BlockNumber) (c : Z) (p : bytes) :
  sized p -> PageIsNew p = false -> header_sane p = true -> 0 <= blkno < 2 ^ 32 -> 0 <= other < 2 ^ 32 -> 0 <= c < 2 ^ 16 ->
  let q := PageSetChecksumInplace true blkno p in
  PageIsVerifiedExtended true false blkno q = true /\ (forall i, 0 <= i -> i <> 8 /\ i <> 9 -> peek i q = peek i p) /\
  PageIsVerifiedExtended true false blkno (set_pd_checksum c q) = (c =? pd_checksum q) /\
  (blkno <> other -> Z.shiftr blkno 16 = Z.shiftr other 16 -> Z.lxor blkno other <> 65535 -> PageIsVerifiedExtended true false other q = false).
Proof.
  intros Hp Hnew Hsane Hb Ho Hc q. pose proof (checksum_range p blkno) as Hr.
  assert (Eq : q = set_pd_checksum (pg_checksum_page p blkno) p) by (unfold q, PageSetChecksumInplace; by rewrite Hnew).
  assert (Hv : forall x blk, 0 <= x < 2 ^ 16 -> PageIsVerifiedExtended true false blk (set_pd_checksum x p) = (x =? pg_checksum_page p blk)).
  { intros x blk Hx. destruct (checksum_header x p Hp Hx) as (Hs & Ec & Ef & El & Eu & Es). set (r := set_pd_checksum x p) in *.
    assert (Hnr : PageIsNew r = false) by (unfold PageIsNew; by rewrite Eu). assert (Hsr : header_sane r = true) by (unfold header_sane; by rewrite Ef, El, Eu, Es).
    unfold PageIsVerifiedExtended. rewrite Hnr, Hsr, Ec, (not_zeroes r Hs Hnr). cbv zeta. replace (pg_checksum_page r blk) with (pg_checksum_page p blk) by (symmetry; by apply checksum_field). cbn [negb andb].
    rewrite (Z.eqb_sym _ x). by destruct (x =? pg_checksum_page p blk). }
  destruct (checksum_header (pg_checksum_page p blkno) p Hp ltac:(lia)) as (_ & Ec & _). rewrite <- Eq in Ec. split; [rewrite Eq, Hv by lia; apply Z.eqb_refl|]. split; [|split].
  - intros i Hi Hi'. rewrite Eq. unfold set_pd_checksum, put. destruct Hp as [Hl _]. rewrite peek_blit by (rewrite ?len_to_le, ?Hl; unfold BLCKSZ; lia). rewrite decide_False; [done|]. rewrite len_to_le. lia.
  - rewrite Ec, Eq. unfold set_pd_checksum at 1 2. rewrite put_put by (rewrite ?(sz_len _ Hp); done). by apply Hv.
  - intros Hne Hsh Hx. rewrite Eq, Hv by lia. apply Z.eqb_neq. apply checksum_blocks; [done|lia|lia|done..].
Qed.
