(* ===== verification/PageExample.v ===== *)
(** * Pages in the concrete

    A test that a page is well-formed, and pages built with [PageInit] and [PageAddItemExtended] on which the theorems on pages are used. *)
From S2P Require Import Prelude TransactionId ItemPtr Bytes Page PageInv PageAdd PageCompact PageRepair PageIndex PageChecksum.
Local Open Scope Z_scope.

Definition is_byteb (b : Z) : bool := (0 <=? b) && (b <? 256).

Definition placedb (u s : Z) (i : ItemIdData) : bool :=
  if lp_len i =? 0 then true
  else (u <=? lp_off i) && (lp_end i <=? s) && (lp_off i mod 8 =? 0) && negb (lp_flags i =? LP_UNUSED) && negb (lp_flags i =? LP_REDIRECT).

Definition apartb (i j : ItemIdData) : bool := (lp_len i =? 0) || (lp_len j =? 0) || (lp_end i <=? lp_off j) || (lp_end j <=? lp_off i).

Fixpoint all_apartb (l : list ItemIdData) : bool :=
  match l with [] => true | i :: l => forallb (apartb i) l && all_apartb l end.

Definition page_okb (p : bytes) : bool :=
  (len p =? BLCKSZ) && forallb is_byteb p && (24 <=? pd_lower p) && (pd_lower p <=? pd_upper p) && (pd_lower p mod 4 =? 0) &&
  (pd_upper p <=? pd_special p) && (pd_special p <=? BLCKSZ) && (pd_upper p mod 8 =? 0) && (pd_special p mod 8 =? 0) &&
  forallb (placedb (pd_upper p) (pd_special p)) (line p) && all_apartb (line p).

Lemma forallb_Forall {A} (f : A -> bool) (P : A -> Prop) l : (forall x, f x = true -> P x) -> forallb f l = true -> Forall P l.
Proof. intros H. rewrite forallb_forall. intros Hf. apply list.Forall_forall. intros x Hx. by apply H, Hf, list_elem_of_In. Qed.

Lemma bytes_okb l : forallb is_byteb l = true -> Forall is_byte l.
Proof. apply forallb_Forall. intros x Hx. unfold is_byteb in Hx. b2p. done. Qed.

Lemma placedb_ok u s i : placedb u s i = true -> placed u s i.
Proof.
  unfold placedb. destruct (Z.eqb_spec (lp_len i) 0) as [E|]; intros H; [by split|]. b2p. split; [done|]. intros [E|E]; rewrite E in *; done.
Qed.

Lemma apartb_ok i j : apartb i j = true -> apart i j.
Proof. unfold apartb, apart, stored. intros H Hi Hj. rewrite !orb_true_iff, !Z.eqb_eq, !Z.leb_le in H. lia. Qed.

Lemma page_okb_ok p : page_okb p = true -> page_ok p.
Proof.
  unfold page_okb. intros H. rewrite !andb_true_iff, !Z.eqb_eq, !Z.leb_le in H. destruct H as [[[[[[[[[[Hl Hb] H1] H2] H3] H4] H5] H6] H7] H8] H9].
  split; [split; [done|by apply bytes_okb]|done|done|]. split; [eapply forallb_Forall; [apply placedb_ok|done]|]. clear -H9. revert H9.
  induction (line p) as [|i l IH]; [done|]. cbn [all_apartb all_apart]. rewrite andb_true_iff. intros [Hi Hl]. split; [|by apply IH]. eapply forallb_Forall; [apply apartb_ok|done].
Qed.

Module PageExample.

Definition add (item : bytes) (p : bytes) : bytes :=
  match PageAddItemExtended item InvalidOffsetNumber PAI_IS_HEAP p with Done (_, q) => q | _ => p end.

(** Three items; the second is dead without storage and the first is a redirect to the third, so that there are two holes to close. *)
Definition three : bytes := add (replicate 37 3) (add (replicate 20 2) (add (replicate 9 1) (PageInit 16))).
Definition holes : bytes := put_lp 1 (ItemIdSetRedirect 3) (put_lp 2 ItemIdSetDead three).
Definition spare : bytes := put_lp 2 ItemIdSetUnused three.
Definition noise : bytes := replicate (Z.to_nat BLCKSZ) 165.
Definition five : bytes := add (replicate 9 5) (add (replicate 17 4) three).

Lemma noise_ok : len noise = BLCKSZ /\ Forall is_byte noise.
Proof. split; [by vm_compute|]. apply bytes_okb. vm_compute. reflexivity. Qed.

Lemma page_add_item_witness :
  page_ok spare /\ exists o q, PageAddItemExtended (replicate 8 7) InvalidOffsetNumber 0 spare = Done (o, q) /\ page_ok q /\ special_space q = special_space spare.
Proof.
  assert (H : page_ok spare) by (apply page_okb_ok; vm_compute; reflexivity). split; [exact H|].
  destruct (page_add_item (replicate 8 7) InvalidOffsetNumber 0 spare H) as (o & q & E & Hq & Hs & _); [vm_compute; split; reflexivity|apply bytes_okb; vm_compute; reflexivity|discriminate|].
  exists o, q. exact (conj E (conj Hq Hs)).
Defined.

Lemma page_room_promised_witness :
  heap_page spare /\ exists o q, PageAddItemExtended (replicate 8 7) InvalidOffsetNumber PAI_IS_HEAP spare = Done (o, q) /\ OffsetNumberIsValid o = true /\ heap_page q.
Proof.
  assert (H : heap_page spare) by (split; [apply page_okb_ok; vm_compute; reflexivity|vm_compute; discriminate]). split; [exact H|].
  destruct (page_room_promised (replicate 8 7) spare H) as (o & q & E & Ho & Hq & _);
    [vm_compute; split; reflexivity|apply bytes_okb; vm_compute; reflexivity|vm_compute; discriminate|].
  exists o, q. exact (conj E (conj Ho Hq)).
Defined.

Lemma page_repair_witness :
  heap_page holes /\ exists q l, PageRepairFragmentation noise holes = Done q /\ heap_page q /\ view holes = view q ++ l /\ pd_upper q = pd_special q - needed (view q).
Proof.
  assert (H : heap_page holes) by (split; [apply page_okb_ok; vm_compute; reflexivity|vm_compute; discriminate]). split; [exact H|].
  destruct (page_repair noise holes H (proj1 noise_ok) (proj2 noise_ok)) as (q & l & E & Hq & _ & Hv & _ & _ & _ & Hu).
  exists q, l. exact (conj E (conj Hq (conj Hv Hu))).
Defined.

Lemma five_index : index_page five.
Proof. split; [apply page_okb_ok; vm_compute; reflexivity|]. apply (forallb_Forall (fun e => 8 <? len (e_data e))); [intros e; apply Z.ltb_lt|vm_compute; reflexivity]. Qed.

Lemma page_multi_delete_witness :
  index_page five /\ exists q q', PageIndexMultiDelete noise [1; 3; 4] five = Done q /\ delete_backwards [1; 3; 4] five = Done q' /\ index_page q /\ view q = view q'.
Proof.
  split; [exact five_index|].
  destruct (page_multi_delete noise [1; 3; 4] five five_index) as (q & q' & E & E' & Hq & Hv & _); [|exact (proj1 noise_ok)|exact (proj2 noise_ok)|].
  - replace (Z.of_nat (length (view five))) with 5 by (vm_compute; reflexivity). split; [repeat constructor|repeat constructor; discriminate].
  - exists q, q'. exact (conj E (conj E' (conj Hq Hv))).
Defined.

Lemma page_index_overwrite_witness :
  page_ok five /\ exists q, PageIndexTupleOverwrite 2 (replicate 40 8) five = Done (true, q) /\ page_ok q /\ special_space q = special_space five /\
    view q = <[1%nat := normal_entry (replicate 40 8)]> (view five).
Proof.
  split; [exact (proj1 five_index)|].
  pose proof (page_index_overwrite five 2 (normal_entry (replicate 20 2)) (replicate 40 8) (proj1 five_index) ltac:(discriminate)) as H.
  replace (MAXALIGN (len (replicate 40 8)) <=? _) with true in H by (vm_compute; reflexivity).
  apply H; [vm_compute; reflexivity|reflexivity|vm_compute; split; reflexivity|apply bytes_okb; vm_compute; reflexivity].
Defined.

Lemma page_checksum_witness :
  header_sane three = true /\ PageIsVerifiedExtended true false 5 (PageSetChecksumInplace true 5 three) = true /\
  PageIsVerifiedExtended true false 6 (PageSetChecksumInplace true 5 three) = false.
Proof.
  assert (Hs : sized three) by (apply po_sized, page_okb_ok; vm_compute; reflexivity). assert (Hh : header_sane three = true) by (vm_compute; reflexivity). split; [exact Hh|].
  destruct (page_checksum 5 6 0 three Hs) as (H1 & _ & _ & H2); [vm_compute; reflexivity|exact Hh|split; [discriminate|reflexivity]..|].
  exact (conj H1 (H2 ltac:(discriminate) eq_refl ltac:(discriminate))).
Defined.

End PageExample.
