(* ===== verification/HeapTuple.v ===== *)
(** * Heap tuple headers

    The header of a heap tuple and the accessor macros of
    [src/postgresql/src/include/access/htup_details.h]: the transaction ids, the
    command id / [xvac] union, the item pointer of the newer version, and the
    two flag words whose bits say what is known about the inserting and the
    deleting transaction. *)
From S2P Require Import Prelude TransactionId ItemPtr.
Local Open Scope Z_scope.

Abbreviation CommandId := Z.
Abbreviation MultiXactId := Z.

Definition FirstCommandId : CommandId := 0.
Definition InvalidCommandId : CommandId := 0xFFFFFFFF.

(** [t_field3] is the union of [t_cid] and [t_xvac]. *)
Record HeapTupleHeaderData := {
  t_xmin : TransactionId;
  t_xmax : TransactionId;
  t_field3 : Z;
  t_ctid : ItemPointerData;
  t_infomask2 : Z;
  t_infomask : Z;
  t_hoff : Z;
  t_bits : list Z
}.

Record HeapTupleData := {
  t_len : Z;
  t_self : ItemPointerData;
  t_tableOid : Z;
  t_data : HeapTupleHeaderData
}.

Definition HEAP_HASNULL : Z := 0x0001.
Definition HEAP_HASVARWIDTH : Z := 0x0002.
Definition HEAP_HASEXTERNAL : Z := 0x0004.
Definition HEAP_HASOID_OLD : Z := 0x0008.
Definition HEAP_XMAX_KEYSHR_LOCK : Z := 0x0010.
Definition HEAP_COMBOCID : Z := 0x0020.
Definition HEAP_XMAX_EXCL_LOCK : Z := 0x0040.
Definition HEAP_XMAX_LOCK_ONLY : Z := 0x0080.
Definition HEAP_XMAX_SHR_LOCK : Z := Z.lor HEAP_XMAX_EXCL_LOCK HEAP_XMAX_KEYSHR_LOCK.
Definition HEAP_LOCK_MASK : Z :=
  Z.lor HEAP_XMAX_SHR_LOCK (Z.lor HEAP_XMAX_EXCL_LOCK HEAP_XMAX_KEYSHR_LOCK).
Definition HEAP_XMIN_COMMITTED : Z := 0x0100.
Definition HEAP_XMIN_INVALID : Z := 0x0200.
Definition HEAP_XMIN_FROZEN : Z := Z.lor HEAP_XMIN_COMMITTED HEAP_XMIN_INVALID.
Definition HEAP_XMAX_COMMITTED : Z := 0x0400.
Definition HEAP_XMAX_INVALID : Z := 0x0800.
Definition HEAP_XMAX_IS_MULTI : Z := 0x1000.
Definition HEAP_UPDATED : Z := 0x2000.
Definition HEAP_MOVED_OFF : Z := 0x4000.
Definition HEAP_MOVED_IN : Z := 0x8000.
Definition HEAP_MOVED : Z := Z.lor HEAP_MOVED_OFF HEAP_MOVED_IN.
Definition HEAP_XACT_MASK : Z := 0xFFF0.

Definition HEAP_XMAX_IS_LOCKED_ONLY (infomask : Z) : bool :=
  tst infomask HEAP_XMAX_LOCK_ONLY ||
  (Z.land infomask (Z.lor HEAP_XMAX_IS_MULTI HEAP_LOCK_MASK) =? HEAP_XMAX_EXCL_LOCK).

Definition HEAP_LOCKED_UPGRADED (infomask : Z) : bool :=
  tst infomask HEAP_XMAX_IS_MULTI && tst infomask HEAP_XMAX_LOCK_ONLY &&
  (Z.land infomask (Z.lor HEAP_XMAX_EXCL_LOCK HEAP_XMAX_KEYSHR_LOCK) =? 0).

Definition HEAP_XMAX_IS_SHR_LOCKED (infomask : Z) : bool :=
  Z.land infomask HEAP_LOCK_MASK =? HEAP_XMAX_SHR_LOCK.
Definition HEAP_XMAX_IS_EXCL_LOCKED (infomask : Z) : bool :=
  Z.land infomask HEAP_LOCK_MASK =? HEAP_XMAX_EXCL_LOCK.
Definition HEAP_XMAX_IS_KEYSHR_LOCKED (infomask : Z) : bool :=
  Z.land infomask HEAP_LOCK_MASK =? HEAP_XMAX_KEYSHR_LOCK.

Definition HEAP_XMAX_BITS : Z :=
  Z.lor HEAP_XMAX_COMMITTED (Z.lor HEAP_XMAX_INVALID
    (Z.lor HEAP_XMAX_IS_MULTI (Z.lor HEAP_LOCK_MASK HEAP_XMAX_LOCK_ONLY))).

Definition HEAP_NATTS_MASK : Z := 0x07FF.
Definition HEAP_KEYS_UPDATED : Z := 0x2000.
Definition HEAP_HOT_UPDATED : Z := 0x4000.
Definition HEAP_ONLY_TUPLE : Z := 0x8000.
Definition HEAP2_XACT_MASK : Z := 0xE000.

(** ** Field updates *)

Definition set_infomask (m : Z) (tup : HeapTupleHeaderData) : HeapTupleHeaderData :=
  {| t_xmin := t_xmin tup; t_xmax := t_xmax tup; t_field3 := t_field3 tup; t_ctid := t_ctid tup;
     t_infomask2 := t_infomask2 tup; t_infomask := m; t_hoff := t_hoff tup; t_bits := t_bits tup |}.
Definition set_infomask2 (m : Z) (tup : HeapTupleHeaderData) : HeapTupleHeaderData :=
  {| t_xmin := t_xmin tup; t_xmax := t_xmax tup; t_field3 := t_field3 tup; t_ctid := t_ctid tup;
     t_infomask2 := m; t_infomask := t_infomask tup; t_hoff := t_hoff tup; t_bits := t_bits tup |}.
Definition set_field3 (c : Z) (tup : HeapTupleHeaderData) : HeapTupleHeaderData :=
  {| t_xmin := t_xmin tup; t_xmax := t_xmax tup; t_field3 := c; t_ctid := t_ctid tup;
     t_infomask2 := t_infomask2 tup; t_infomask := t_infomask tup; t_hoff := t_hoff tup; t_bits := t_bits tup |}.
Definition set_ctid (p : ItemPointerData) (tup : HeapTupleHeaderData) : HeapTupleHeaderData :=
  {| t_xmin := t_xmin tup; t_xmax := t_xmax tup; t_field3 := t_field3 tup; t_ctid := p;
     t_infomask2 := t_infomask2 tup; t_infomask := t_infomask tup; t_hoff := t_hoff tup; t_bits := t_bits tup |}.
Definition HeapTupleHeaderSetXmin (xid : TransactionId) (tup : HeapTupleHeaderData) : HeapTupleHeaderData :=
  {| t_xmin := xid; t_xmax := t_xmax tup; t_field3 := t_field3 tup; t_ctid := t_ctid tup;
     t_infomask2 := t_infomask2 tup; t_infomask := t_infomask tup; t_hoff := t_hoff tup; t_bits := t_bits tup |}.
Definition HeapTupleHeaderSetXmax (xid : TransactionId) (tup : HeapTupleHeaderData) : HeapTupleHeaderData :=
  {| t_xmin := t_xmin tup; t_xmax := xid; t_field3 := t_field3 tup; t_ctid := t_ctid tup;
     t_infomask2 := t_infomask2 tup; t_infomask := t_infomask tup; t_hoff := t_hoff tup; t_bits := t_bits tup |}.

(** ** Accessors *)

Definition HeapTupleHeaderGetRawXmin (tup : HeapTupleHeaderData) : TransactionId := t_xmin tup.
Definition HeapTupleHeaderGetRawXmax (tup : HeapTupleHeaderData) : TransactionId := t_xmax tup.
Definition HeapTupleHeaderGetRawCommandId (tup : HeapTupleHeaderData) : CommandId := t_field3 tup.

Definition HeapTupleHeaderXminCommitted (tup : HeapTupleHeaderData) : bool :=
  negb (Z.land (t_infomask tup) HEAP_XMIN_COMMITTED =? 0).
Definition HeapTupleHeaderXminInvalid (tup : HeapTupleHeaderData) : bool :=
  Z.land (t_infomask tup) (Z.lor HEAP_XMIN_COMMITTED HEAP_XMIN_INVALID) =? HEAP_XMIN_INVALID.
Definition HeapTupleHeaderXminFrozen (tup : HeapTupleHeaderData) : bool :=
  Z.land (t_infomask tup) HEAP_XMIN_FROZEN =? HEAP_XMIN_FROZEN.

Definition HeapTupleHeaderGetXmin (tup : HeapTupleHeaderData) : TransactionId :=
  if HeapTupleHeaderXminFrozen tup then FrozenTransactionId else HeapTupleHeaderGetRawXmin tup.

Definition HeapTupleHeaderSetXminCommitted (tup : HeapTupleHeaderData) : HeapTupleHeaderData :=
  set_infomask (Z.lor (t_infomask tup) HEAP_XMIN_COMMITTED) tup.
Definition HeapTupleHeaderSetXminInvalid (tup : HeapTupleHeaderData) : HeapTupleHeaderData :=
  set_infomask (Z.lor (t_infomask tup) HEAP_XMIN_INVALID) tup.
Definition HeapTupleHeaderSetXminFrozen (tup : HeapTupleHeaderData) : HeapTupleHeaderData :=
  set_infomask (Z.lor (t_infomask tup) HEAP_XMIN_FROZEN) tup.

Definition HeapTupleHeaderSetCmin (cid : CommandId) (tup : HeapTupleHeaderData) : HeapTupleHeaderData :=
  set_infomask (Z.land (t_infomask tup) (Z.lnot HEAP_COMBOCID)) (set_field3 cid tup).
Definition HeapTupleHeaderSetCmax (cid : CommandId) (iscombo : bool) (tup : HeapTupleHeaderData) :
  HeapTupleHeaderData :=
  set_infomask (if iscombo then Z.lor (t_infomask tup) HEAP_COMBOCID
                else Z.land (t_infomask tup) (Z.lnot HEAP_COMBOCID)) (set_field3 cid tup).

Definition HeapTupleHeaderGetXvac (tup : HeapTupleHeaderData) : TransactionId :=
  if tst (t_infomask tup) HEAP_MOVED then t_field3 tup else InvalidTransactionId.
Definition HeapTupleHeaderSetXvac (xid : TransactionId) (tup : HeapTupleHeaderData) : HeapTupleHeaderData :=
  set_field3 xid tup.

Definition HeapTupleHeaderIsSpeculative (tup : HeapTupleHeaderData) : bool :=
  ItemPointerGetOffsetNumberNoCheck (t_ctid tup) =? SpecTokenOffsetNumber.
Definition HeapTupleHeaderGetSpeculativeToken (tup : HeapTupleHeaderData) : Z :=
  ItemPointerGetBlockNumber (t_ctid tup).
Definition HeapTupleHeaderSetSpeculativeToken (token : Z) (tup : HeapTupleHeaderData) : HeapTupleHeaderData :=
  set_ctid (ItemPointerSet token SpecTokenOffsetNumber) tup.
Definition HeapTupleHeaderIndicatesMovedPartitions (tup : HeapTupleHeaderData) : bool :=
  ItemPointerIndicatesMovedPartitions (t_ctid tup).
Definition HeapTupleHeaderSetMovedPartitions (tup : HeapTupleHeaderData) : HeapTupleHeaderData :=
  set_ctid ItemPointerSetMovedPartitions tup.

Definition HeapTupleHeaderIsHotUpdated (tup : HeapTupleHeaderData) : bool :=
  negb (Z.land (t_infomask2 tup) HEAP_HOT_UPDATED =? 0) &&
  (Z.land (t_infomask tup) HEAP_XMAX_INVALID =? 0) &&
  negb (HeapTupleHeaderXminInvalid tup).
Definition HeapTupleHeaderSetHotUpdated (tup : HeapTupleHeaderData) : HeapTupleHeaderData :=
  set_infomask2 (Z.lor (t_infomask2 tup) HEAP_HOT_UPDATED) tup.
Definition HeapTupleHeaderClearHotUpdated (tup : HeapTupleHeaderData) : HeapTupleHeaderData :=
  set_infomask2 (Z.land (t_infomask2 tup) (Z.lnot HEAP_HOT_UPDATED)) tup.
Definition HeapTupleHeaderIsHeapOnly (tup : HeapTupleHeaderData) : bool :=
  negb (Z.land (t_infomask2 tup) HEAP_ONLY_TUPLE =? 0).
Definition HeapTupleHeaderSetHeapOnly (tup : HeapTupleHeaderData) : HeapTupleHeaderData :=
  set_infomask2 (Z.lor (t_infomask2 tup) HEAP_ONLY_TUPLE) tup.
Definition HeapTupleHeaderClearHeapOnly (tup : HeapTupleHeaderData) : HeapTupleHeaderData :=
  set_infomask2 (Z.land (t_infomask2 tup) (Z.lnot HEAP_ONLY_TUPLE)) tup.
Definition HeapTupleHeaderGetNatts (tup : HeapTupleHeaderData) : Z :=
  Z.land (t_infomask2 tup) HEAP_NATTS_MASK.
Definition HeapTupleHeaderSetNatts (natts : Z) (tup : HeapTupleHeaderData) : HeapTupleHeaderData :=
  set_infomask2 (Z.lor (Z.land (t_infomask2 tup) (Z.lnot HEAP_NATTS_MASK)) natts) tup.
Definition HeapTupleHeaderHasExternal (tup : HeapTupleHeaderData) : bool :=
  negb (Z.land (t_infomask tup) HEAP_HASEXTERNAL =? 0).
Definition BITMAPLEN (natts : Z) : Z := (natts + 7) / 8.

(** ** MultiXact members *)

Inductive MultiXactStatus :=
| MultiXactStatusForKeyShare
| MultiXactStatusForShare
| MultiXactStatusForNoKeyUpdate
| MultiXactStatusForUpdate
| MultiXactStatusNoKeyUpdate
| MultiXactStatusUpdate.

Definition mxstatus_val (s : MultiXactStatus) : Z :=
  match s with
  | MultiXactStatusForKeyShare => 0
  | MultiXactStatusForShare => 1
  | MultiXactStatusForNoKeyUpdate => 2
  | MultiXactStatusForUpdate => 3
  | MultiXactStatusNoKeyUpdate => 4
  | MultiXactStatusUpdate => 5
  end.

Definition ISUPDATE_from_mxstatus (s : MultiXactStatus) : bool :=
  mxstatus_val s >? mxstatus_val MultiXactStatusForUpdate.

Record MultiXactMember := { mx_xid : TransactionId; mx_status : MultiXactStatus }.

(** ** The flag tests, bit by bit *)

Ltac split_bits k1 k2 :=
  rewrite ?Z.land_lor_distr_r, (land_bit _ k1), (land_bit _ k2) by lia.

Lemma xmin_committed_bit tup : HeapTupleHeaderXminCommitted tup = tst (t_infomask tup) HEAP_XMIN_COMMITTED.
Proof. reflexivity. Qed.

Lemma xmin_invalid_bits tup :
  HeapTupleHeaderXminInvalid tup =
  negb (tst (t_infomask tup) HEAP_XMIN_COMMITTED) && tst (t_infomask tup) HEAP_XMIN_INVALID.
Proof.
  unfold HeapTupleHeaderXminInvalid. change HEAP_XMIN_COMMITTED with (2 ^ 8). change HEAP_XMIN_INVALID with (2 ^ 9).
  split_bits 8 9. by destruct (tst _ (2 ^ 8)), (tst _ (2 ^ 9)).
Qed.

Lemma xmin_frozen_bits tup :
  HeapTupleHeaderXminFrozen tup =
  tst (t_infomask tup) HEAP_XMIN_COMMITTED && tst (t_infomask tup) HEAP_XMIN_INVALID.
Proof.
  unfold HeapTupleHeaderXminFrozen, HEAP_XMIN_FROZEN.
  change HEAP_XMIN_COMMITTED with (2 ^ 8). change HEAP_XMIN_INVALID with (2 ^ 9).
  split_bits 8 9. by destruct (tst _ (2 ^ 8)), (tst _ (2 ^ 9)).
Qed.

Lemma locked_only_bits m :
  HEAP_XMAX_IS_LOCKED_ONLY m =
  tst m HEAP_XMAX_LOCK_ONLY ||
  (negb (tst m HEAP_XMAX_IS_MULTI) && tst m HEAP_XMAX_EXCL_LOCK && negb (tst m HEAP_XMAX_KEYSHR_LOCK)).
Proof.
  unfold HEAP_XMAX_IS_LOCKED_ONLY. f_equal.
  change (Z.lor HEAP_XMAX_IS_MULTI HEAP_LOCK_MASK) with (Z.lor (2 ^ 12) (Z.lor (2 ^ 6) (2 ^ 4))).
  change HEAP_XMAX_IS_MULTI with (2 ^ 12). change HEAP_XMAX_EXCL_LOCK with (2 ^ 6).
  change HEAP_XMAX_KEYSHR_LOCK with (2 ^ 4).
  split_bits 12 6. rewrite (land_bit _ 4) by lia.
  by destruct (tst _ (2 ^ 12)), (tst _ (2 ^ 6)), (tst _ (2 ^ 4)).
Qed.

Lemma locked_upgraded_bits m :
  HEAP_LOCKED_UPGRADED m =
  tst m HEAP_XMAX_IS_MULTI && tst m HEAP_XMAX_LOCK_ONLY &&
  (negb (tst m HEAP_XMAX_EXCL_LOCK) && negb (tst m HEAP_XMAX_KEYSHR_LOCK)).
Proof.
  unfold HEAP_LOCKED_UPGRADED. f_equal.
  change HEAP_XMAX_EXCL_LOCK with (2 ^ 6). change HEAP_XMAX_KEYSHR_LOCK with (2 ^ 4).
  split_bits 6 4. by destruct (tst _ (2 ^ 6)), (tst _ (2 ^ 4)).
Qed.

Lemma moved_bits m : tst m HEAP_MOVED = tst m HEAP_MOVED_OFF || tst m HEAP_MOVED_IN.
Proof.
  unfold tst at 1, HEAP_MOVED. change HEAP_MOVED_OFF with (2 ^ 14). change HEAP_MOVED_IN with (2 ^ 15).
  split_bits 14 15. by destruct (tst _ (2 ^ 14)), (tst _ (2 ^ 15)).
Qed.

Create Rewrite HintDb flags.
#[export] Hint Rewrite xmin_committed_bit xmin_invalid_bits xmin_frozen_bits locked_only_bits
  locked_upgraded_bits moved_bits tst_lor : flags.

(** Reduce every test of one flag constant against another to a boolean. *)
Ltac flag_consts :=
  repeat match goal with
  | |- context [tst ?a ?b] =>
      is_const a; is_const b; let v := eval vm_compute in (tst a b) in change (tst a b) with v
  | H : context [tst ?a ?b] |- _ =>
      is_const a; is_const b; let v := eval vm_compute in (tst a b) in change (tst a b) with v in H
  end.
