(* ===== verification/Snapshot.v ===== *)
(** * Snapshots

    [utils/snapshot.h] and [XidInMVCCSnapshot] of [backend/utils/time/snapmgr.c],
    the vectorised linear search [pg_lfind32] of [port/pg_lfind.h] it uses, and
    the walk up [pg_subtrans] of [backend/access/transam/subtrans.c] that maps a
    subtransaction to its topmost parent (all in [src/postgresql/src]).  The
    vectorised search is shown to decide membership, the parent walk to
    terminate at the topmost parent, and the range checks of
    [XidInMVCCSnapshot] to be an optimisation only. *)
From Stdlib Require Import Btauto.
From S2P Require Import Prelude TransactionId HeapTuple.
Local Open Scope Z_scope.

(** ** [pg_lfind32] *)

Definition nelem_per_vector : nat := 4.
Definition nelem_per_iteration : nat := 16.

(** A 128-bit register of four 32-bit lanes. *)
Abbreviation Vector32 := (list Z).

Definition vector32_broadcast (c : Z) : Vector32 := [c; c; c; c].
Definition vector32_load (base : list Z) (i : nat) : Vector32 := firstn nelem_per_vector (skipn i base).
Definition vector32_eq (v1 v2 : Vector32) : Vector32 :=
  zip_with (fun a b => if a =? b then 0xFFFFFFFF else 0) v1 v2.
Definition vector32_or (v1 v2 : Vector32) : Vector32 := zip_with Z.lor v1 v2.
(** The high bit of any byte of the register. *)
Definition vector32_is_highbit_set (v : Vector32) : bool := existsb (fun lane => tst lane 0x80808080) v.

Definition pg_lfind32_one_by_one_helper (key : Z) (base : list Z) (nelem : nat) : bool :=
  existsb (fun e => key =? e) (firstn nelem base).

Definition pg_lfind32_simd_helper (keys : Vector32) (base : list Z) (i : nat) : bool :=
  let vals1 := vector32_load base i in
  let vals2 := vector32_load base (i + nelem_per_vector) in
  let vals3 := vector32_load base (i + nelem_per_vector * 2) in
  let vals4 := vector32_load base (i + nelem_per_vector * 3) in
  let result1 := vector32_eq keys vals1 in
  let result2 := vector32_eq keys vals2 in
  let result3 := vector32_eq keys vals3 in
  let result4 := vector32_eq keys vals4 in
  let tmp1 := vector32_or result1 result2 in
  let tmp2 := vector32_or result3 result4 in
  let result := vector32_or tmp1 tmp2 in
  vector32_is_highbit_set result.

(** The do-while loop over whole blocks: [Some true] when it returns early,
    [None] when the fuel does not suffice. *)
Fixpoint lfind32_blocks (fuel : nat) (keys : Vector32) (base : list Z) (i tail_idx : nat) : option bool :=
  match fuel with
  | O => None
  | S k =>
      if pg_lfind32_simd_helper keys base i then Some true
      else if (i + nelem_per_iteration <? tail_idx)%nat
           then lfind32_blocks k keys base (i + nelem_per_iteration) tail_idx
           else Some false
  end.

(** [nelem & ~(nelem_per_iteration - 1)] rounds down to a multiple of 16. *)
Definition pg_lfind32 (key : Z) (base : list Z) (nelem : nat) : option bool :=
  let keys := vector32_broadcast key in
  let tail_idx := Z.to_nat (Z.land (Z.of_nat nelem) (u32 (Z.lnot (Z.of_nat nelem_per_iteration - 1)))) in
  if (nelem <? nelem_per_iteration)%nat then Some (pg_lfind32_one_by_one_helper key base nelem)
  else
    match lfind32_blocks (S nelem) keys base 0 tail_idx with
    | Some true => Some true
    | Some false => Some (pg_lfind32_simd_helper keys base (nelem - nelem_per_iteration))
    | None => None
    end.

(** ** [pg_subtrans] *)

Section subtrans.
(** [SubTransGetParent], as far as the entries of the SLRU go: the parent of a
    subtransaction, [InvalidTransactionId] for a top-level transaction. *)
Context (entry : TransactionId -> TransactionId).
Context (TransactionXmin : TransactionId).

Definition SubTransGetParent (xid : TransactionId) : TransactionId :=
  if negb (TransactionIdIsNormal xid) then InvalidTransactionId else entry xid.

Inductive topmost_result := Topmost (xid : TransactionId) | InvalidEntry | OutOfFuel.

Fixpoint topmost_loop (fuel : nat) (parentXid previousXid : TransactionId) : topmost_result :=
  match fuel with
  | O => OutOfFuel
  | S k =>
      if TransactionIdIsValid parentXid then
        let previousXid := parentXid in
        if TransactionIdPrecedes parentXid TransactionXmin then Topmost previousXid
        else
          let parentXid := SubTransGetParent parentXid in
          if negb (TransactionIdPrecedes parentXid previousXid) then InvalidEntry
          else topmost_loop k parentXid previousXid
      else Topmost previousXid
  end.

Definition SubTransGetTopmostTransaction (fuel : nat) (xid : TransactionId) : topmost_result :=
  topmost_loop fuel xid xid.

End subtrans.

(** ** Snapshots *)

Inductive SnapshotType :=
| SNAPSHOT_MVCC
| SNAPSHOT_SELF
| SNAPSHOT_ANY
| SNAPSHOT_TOAST
| SNAPSHOT_DIRTY
| SNAPSHOT_HISTORIC_MVCC
| SNAPSHOT_NON_VACUUMABLE.

(** The fields that visibility depends on; [vistest] is the horizon of
    [SNAPSHOT_NON_VACUUMABLE], as the set of removable ids. *)
Record SnapshotData := {
  snapshot_type : SnapshotType;
  xmin : TransactionId;
  xmax : TransactionId;
  xip : list TransactionId;
  subxip : list TransactionId;
  suboverflowed : bool;
  takenDuringRecovery : bool;
  curcid : CommandId;
  speculativeToken : Z;
  vistest : TransactionId -> bool
}.

(** [xcnt] and [subxcnt] are the lengths of the arrays. *)
Definition xip_find (x : TransactionId) (l : list TransactionId) : bool :=
  default false (pg_lfind32 x l (length l)).

(** [topmost] is [SubTransGetTopmostTransaction]. *)
Definition XidInMVCCSnapshot (topmost : TransactionId -> TransactionId)
  (x : TransactionId) (snapshot : SnapshotData) : bool :=
  if TransactionIdPrecedes x (xmin snapshot) then false
  else if TransactionIdFollowsOrEquals x (xmax snapshot) then true
  else if negb (takenDuringRecovery snapshot) then
    if negb (suboverflowed snapshot) then
      if xip_find x (subxip snapshot) then true
      else if xip_find x (xip snapshot) then true else false
    else
      let x := topmost x in
      if TransactionIdPrecedes x (xmin snapshot) then false
      else if xip_find x (xip snapshot) then true else false
  else
    if suboverflowed snapshot then
      let x := topmost x in
      if TransactionIdPrecedes x (xmin snapshot) then false
      else if xip_find x (subxip snapshot) then true else false
    else if xip_find x (subxip snapshot) then true else false.

(** ** Membership *)

Lemma existsb_eqb_In key l : existsb (fun e => key =? e) l = true <-> In key l.
Proof.
  rewrite existsb_exists. split.
  - intros (x & Hx & E). b2p. by subst.
  - intros H. exists key. by rewrite Z.eqb_refl.
Qed.

(** A full block of sixteen elements is searched by the four registers. *)
Lemma simd_helper_spec key base i :
  (i + nelem_per_iteration <= length base)%nat ->
  pg_lfind32_simd_helper (vector32_broadcast key) base i =
  existsb (fun e => key =? e) (firstn nelem_per_iteration (skipn i base)).
Proof.
  intros Hlen. unfold pg_lfind32_simd_helper, vector32_load, nelem_per_vector, nelem_per_iteration in *.
  rewrite (Nat.add_comm i 4), (Nat.add_comm i (4 * 2)), (Nat.add_comm i (4 * 3)).
  rewrite <- !skipn_skipn.
  remember (skipn i base) as b eqn:Eb.
  assert (Hb : (16 <= length b)%nat) by (subst b; rewrite length_skipn; lia). clear Eb Hlen.
  do 16 (destruct b as [|? b]; [simpl in Hb; lia|]). clear Hb.
  cbn [firstn skipn Nat.mul Nat.add vector32_broadcast vector32_eq vector32_or zip_with existsb vector32_is_highbit_set].
  unfold vector32_is_highbit_set, vector32_or, vector32_eq. cbn [zip_with existsb].
  rewrite !tst_lor.
  assert (Ht : forall b : bool, tst (if b then 0xFFFFFFFF else 0) 0x80808080 = b) by (by intros []).
  rewrite !Ht. clear Ht.
  repeat match goal with
  | |- context [key =? ?z] => destruct (key =? z); [by rewrite ?orb_true_r; simpl; rewrite ?orb_true_r|simpl orb]
  end. done.
Qed.

Lemma round_down_16 n :
  Z.of_nat n < 2 ^ 32 ->
  Z.to_nat (Z.land (Z.of_nat n) (u32 (Z.lnot (Z.of_nat nelem_per_iteration - 1)))) = (n / 16 * 16)%nat.
Proof.
  intros Hn. change (u32 _) with (Z.land (Z.lnot (Z.ones 4)) (Z.ones 32)).
  rewrite Z.land_assoc, <- Z.ldiff_land, Z.land_ones, Z.ldiff_ones_r by lia.
  rewrite Z.shiftl_mul_pow2, Z.shiftr_div_pow2 by lia. change (2 ^ 4) with 16.
  rewrite Z.mod_small by (Z.div_mod_to_equations; lia).
  apply Nat2Z.inj. rewrite Z2Nat.id by (Z.div_mod_to_equations; lia).
  rewrite Nat2Z.inj_mul, Nat2Z.inj_div. done.
Qed.

Lemma firstn_split_block (base : list Z) i n :
  firstn (16 + n) (skipn i base) = firstn 16 (skipn i base) ++ firstn n (skipn (i + 16) base).
Proof. rewrite <- (take_take_drop (skipn i base) 16 n), drop_drop. done. Qed.

(** The block loop, started at block [i] of [k] remaining ones. *)
Lemma lfind32_blocks_spec key base k : forall fuel i,
  (k < fuel)%nat -> (i + 16 * S k <= length base)%nat ->
  lfind32_blocks fuel (vector32_broadcast key) base i (i + 16 * S k) =
  Some (existsb (fun e => key =? e) (firstn (16 * S k) (skipn i base))).
Proof.
  induction k as [|k IH]; intros [|fuel] i Hf Hlen; try lia; cbn [lfind32_blocks];
    rewrite simd_helper_spec by (unfold nelem_per_iteration; lia); unfold nelem_per_iteration in *.
  - replace (16 * 1)%nat with 16%nat by lia. rewrite Nat.ltb_irrefl. by destruct (existsb _ _).
  - replace (16 * S (S k))%nat with (16 + 16 * S k)%nat in * by lia.
    rewrite firstn_split_block, existsb_app.
    destruct (existsb _ (firstn 16 _)); [done|]. simpl orb.
    rewrite (proj2 (Nat.ltb_lt _ _)) by lia. rewrite Nat.add_assoc. apply IH; lia.
Qed.

Lemma firstn_split (l : list Z) a n : (a <= n)%nat -> firstn n l = firstn a l ++ firstn (n - a) (skipn a l).
Proof. intros H. rewrite take_take_drop. f_equal. lia. Qed.

(** A prefix and the last sixteen elements together cover the array. *)
Lemma cover_last_block (f : Z -> bool) base n t :
  (n <= length base)%nat -> (16 <= n)%nat -> (n - 16 <= t <= n)%nat ->
  existsb f (firstn t base) || existsb f (firstn 16 (skipn (n - 16) base)) = existsb f (firstn n base).
Proof.
  intros Hl Hn Ht. rewrite (firstn_split base (n - 16) n), (firstn_split base (n - 16) t) by lia.
  replace (n - (n - 16))%nat with 16%nat by lia.
  rewrite (firstn_split (skipn (n - 16) base) (t - (n - 16)) 16) by lia.
  rewrite !existsb_app. btauto.
Qed.

Lemma lfind32_spec (key : Z) (base : list Z) (nelem : nat) :
  (nelem <= length base)%nat -> Z.of_nat nelem < 2 ^ 32 ->
  pg_lfind32 key base nelem = Some (bool_decide (key ∈ firstn nelem base)).
Proof.
  intros Hlen Hn.
  assert (Hin : existsb (fun e => key =? e) (firstn nelem base) = bool_decide (key ∈ firstn nelem base)).
  { apply Bool.eq_iff_eq_true. by rewrite existsb_eqb_In, bool_decide_eq_true, list_elem_of_In. }
  rewrite <- Hin. unfold pg_lfind32. cbv zeta. rewrite round_down_16 by done.
  destruct (Nat.ltb_spec nelem nelem_per_iteration) as [Hlt|Hge]; [done|].
  unfold nelem_per_iteration in *.
  pose proof (Nat.div_mod nelem 16 ltac:(lia)) as Hd.
  pose proof (Nat.mod_upper_bound nelem 16 ltac:(lia)).
  destruct (nelem / 16)%nat as [|q] eqn:Eq; [lia|].
  replace (S q * 16)%nat with (0 + 16 * S q)%nat by lia.
  rewrite lfind32_blocks_spec by lia. rewrite skipn_O.
  rewrite simd_helper_spec by (unfold nelem_per_iteration; lia).
  rewrite <- (cover_last_block _ base nelem (16 * S q)) by lia. unfold nelem_per_iteration.
  by destruct (existsb _ (firstn (16 * S q) base)).
Qed.

(** The vectorised search.  On an array of at least [nelem] elements
    [pg_lfind32] always returns, and returns true exactly when the key is one of
    the first [nelem] elements, also when [nelem] is not a multiple of the block
    size and the last block overlaps the one before. *)
Theorem pg_lfind32_correct (key : Z) (base : list Z) (nelem : nat) :
  (nelem <= length base)%nat -> Z.of_nat nelem < 2 ^ 32 ->
  pg_lfind32 key base nelem = Some (bool_decide (key ∈ firstn nelem base)).
Proof. apply lfind32_spec. Qed.

Lemma pg_lfind32_correct_witness :
  pg_lfind32 40 (map Z.of_nat (seq 0 41)) 41 = Some true /\ pg_lfind32 40 (map Z.of_nat (seq 0 41)) 40 = Some false.
Proof.
  split; [rewrite (pg_lfind32_correct 40 (map Z.of_nat (seq 0 41)) 41)
         | rewrite (pg_lfind32_correct 40 (map Z.of_nat (seq 0 41)) 40)]; try reflexivity; simpl; lia.
Defined.

(** ** The parent walk *)

Lemma precedes_window_le a b :
  FirstNormalTransactionId <= u32 a -> FirstNormalTransactionId <= u32 b ->
  - 2 ^ 31 <= a - b < 2 ^ 31 -> TransactionIdPrecedes (u32 a) (u32 b) = (a <? b).
Proof.
  intros Ha Hb Hd. unfold TransactionIdPrecedes.
  rewrite !normal_is_normal, window_diff by done. simpl.
  apply Bool.eq_iff_eq_true. rewrite !Z.ltb_lt. lia.
Qed.

(** A 32-bit id that precedes the 32-bit part of [v] is the 32-bit part of a
    full id at most [2^31] below [v]. *)
Lemma precedes_full p v :
  FirstNormalTransactionId <= p < 2 ^ 32 -> FirstNormalTransactionId <= u32 v ->
  TransactionIdPrecedes p (u32 v) = true -> exists w, u32 w = p /\ v - 2 ^ 31 <= w < v.
Proof.
  intros Hp Hv. unfold TransactionIdPrecedes. rewrite !normal_is_normal by lia. simpl. intros H. b2p.
  pose proof (s32_range (p - u32 v)). exists (v + s32 (p - u32 v)). split; [|lia].
  unfold s32. cbv zeta. pose proof (u32_range v).
  destruct (_ <? _); unfold FirstNormalTransactionId, u32, wrap in *; Z.div_mod_to_equations; lia.
Qed.

Section topmost.
Context (entry : TransactionId -> TransactionId) (xm : Z).
Context (Hentry : forall x, 0 <= entry x < 2 ^ 32) (Hxm : FirstNormalTransactionId <= u32 xm).

Lemma topmost_loop_terminates fuel : forall v prev,
  - 2 ^ 31 <= v - xm < 2 ^ 31 -> FirstNormalTransactionId <= u32 v ->
  (Z.to_nat (v - xm + 1) + 1 <= fuel)%nat ->
  topmost_loop entry (u32 xm) fuel (u32 v) prev <> OutOfFuel.
Proof.
  induction fuel as [|k IH]; intros v prev Hw Hv Hf; [lia|]. cbn [topmost_loop].
  destruct (TransactionIdIsValid (u32 v)); [|done].
  rewrite precedes_window_le by done. destruct (Z.ltb_spec v xm); [done|].
  unfold SubTransGetParent. rewrite normal_is_normal by done. simpl negb. cbv iota.
  set (p := entry (u32 v)). destruct (TransactionIdPrecedes p (u32 v)) eqn:Hp; [|done]. simpl.
  pose proof (Hentry (u32 v)) as Hr. fold p in Hr.
  destruct (decide (FirstNormalTransactionId <= p)) as [Hn|Hn].
  - destruct (precedes_full p v) as (w & <- & Hwv); [lia|done|done|]. apply IH; [lia|done|lia].
  - destruct k as [|k]; [lia|]. cbn [topmost_loop].
    destruct (TransactionIdIsValid p); [|done]. unfold TransactionIdPrecedes.
    replace (TransactionIdIsNormal p) with false
      by (unfold TransactionIdIsNormal; rewrite Z.geb_leb; symmetry; apply Z.leb_gt; lia).
    simpl. rewrite (proj2 (Z.ltb_lt p (u32 xm))) by lia. done.
Qed.

End topmost.

(** The topmost ancestor of [v] in a forest of full ids, as far as ids below [xm]
    are not looked up. *)
Inductive topmost_of (parent : Z -> option Z) (xm : Z) : Z -> Z -> Prop :=
| top_old v : v < xm -> topmost_of parent xm v v
| top_root v : xm <= v -> parent v = None -> topmost_of parent xm v v
| top_step v p r : xm <= v -> parent v = Some p -> topmost_of parent xm p r -> topmost_of parent xm v r.

(** [pg_subtrans] holds the forest [parent] of the ids in [P]: parents are older and less than
    [2^31] ids away. *)
Definition subtrans_holds_on (P : Z -> Prop) (entry : TransactionId -> TransactionId) (parent : Z -> option Z) : Prop :=
  forall v, P v -> FirstNormalTransactionId <= u32 v /\
    match parent v with
    | None => entry (u32 v) = InvalidTransactionId
    | Some p => entry (u32 v) = u32 p /\ v - 2 ^ 31 < p < v /\ P p
    end.

Definition subtrans_holds := subtrans_holds_on (fun v => FirstNormalTransactionId <= u32 v).

Lemma topmost_loop_correct P entry parent xm fuel :
  FirstNormalTransactionId <= u32 xm -> subtrans_holds_on P entry parent ->
  forall v prev, - 2 ^ 31 <= v - xm < 2 ^ 31 -> P v ->
  (Z.to_nat (v - xm + 1) + 1 <= fuel)%nat ->
  exists r, topmost_of parent xm v r /\ topmost_loop entry (u32 xm) fuel (u32 v) prev = Topmost (u32 r).
Proof.
  intros Hxm Hsub. induction fuel as [|k IH]; intros v prev Hw HP Hf; [lia|]. cbn [topmost_loop].
  assert (Hval : forall x, FirstNormalTransactionId <= x -> TransactionIdIsValid x = true).
  { intros x Hx. unfold TransactionIdIsValid, InvalidTransactionId.
    rewrite (proj2 (Z.eqb_neq _ _)); [done|]. unfold FirstNormalTransactionId in Hx. lia. }
  destruct (Hsub v HP) as [Hv Hp]. rewrite Hval, precedes_window_le by done.
  destruct (Z.ltb_spec v xm); [eauto using top_old|].
  unfold SubTransGetParent. rewrite normal_is_normal by done. simpl negb. cbv iota. destruct (parent v) as [p|] eqn:Epar.
  - destruct Hp as (-> & Hpv & Hpn). pose proof (proj1 (Hsub p Hpn)). rewrite precedes_window_le, (proj2 (Z.ltb_lt p v)) by (done || lia).
    simpl. destruct (IH p (u32 v)) as (r & Hr & ->); [lia|done|lia|]. eauto using top_step.
  - rewrite Hp. destruct k as [|k]; [lia|]. unfold TransactionIdPrecedes at 1. simpl.
    rewrite (proj2 (Z.ltb_lt _ _)) by (unfold InvalidTransactionId, FirstNormalTransactionId in *; lia).
    simpl. eauto using top_root.
Qed.

(** The walk up [pg_subtrans].  Whatever the 32-bit entries are, also
    corrupted or cyclic ones, the loop ends after at most as many rounds as
    there are ids between [TransactionXmin] and the given id; when the entries
    hold a forest in which parents are older, it returns the topmost parent
    (or the first one below [TransactionXmin]). *)
Theorem topmost_terminates (entry : TransactionId -> TransactionId) (xm v : Z) (fuel : nat) :
  (forall x, 0 <= entry x < 2 ^ 32) ->
  FirstNormalTransactionId <= u32 xm -> FirstNormalTransactionId <= u32 v -> xm <= v < xm + 2 ^ 31 ->
  (Z.to_nat (v - xm) + 2 <= fuel)%nat ->
  SubTransGetTopmostTransaction entry (u32 xm) fuel (u32 v) <> OutOfFuel /\
  (forall parent, subtrans_holds entry parent ->
     exists r, topmost_of parent xm v r /\
       SubTransGetTopmostTransaction entry (u32 xm) fuel (u32 v) = Topmost (u32 r)).
Proof.
  intros He Hxm Hv Hw Hf. split.
  - apply topmost_loop_terminates; (done || lia).
  - intros parent Hp. eapply topmost_loop_correct; (done || lia).
Qed.

Lemma topmost_terminates_witness :
  let entry := fun x => if x =? 9 then 7 else if x =? 7 then 5 else 0 in
  SubTransGetTopmostTransaction entry 4 7 9 <> OutOfFuel.
Proof.
  apply (topmost_terminates (fun x => if x =? 9 then 7 else if x =? 7 then 5 else 0) 4 9 7);
    [|vm_compute; intuition (discriminate || lia)..].
  intros x. destruct (x =? 9); [lia|]. destruct (x =? 7); lia.
Defined.

(** ** What a snapshot says *)

(** The full ids a snapshot stands for: [fxmin <= running top-level < fxmax],
    [fxmin <= ] running subtransactions, everything inside one window. *)
Record full_snapshot := { fxmin : Z; fxmax : Z; ftop : list Z; fsub : list Z }.

Definition in_window (lo v : Z) : Prop := lo <= v < lo + 2 ^ 31 /\ FirstNormalTransactionId <= u32 v.

Definition snapshot_denotes (lo : Z) (F : full_snapshot) (s : SnapshotData) : Prop :=
  xmin s = u32 (fxmin F) /\ xmax s = u32 (fxmax F) /\ fxmin F <= fxmax F /\
  xip s = map u32 (ftop F) /\ subxip s = map u32 (fsub F) /\
  Z.of_nat (length (ftop F)) < 2 ^ 32 /\ Z.of_nat (length (fsub F)) < 2 ^ 31 /\
  Forall (in_window lo) (fxmin F :: fxmax F :: ftop F ++ fsub F) /\
  Forall (fun v => fxmin F <= v < fxmax F) (ftop F) /\ Forall (fun v => fxmin F <= v) (fsub F) /\
  (takenDuringRecovery s = true -> ftop F = []).

(** The transactions the snapshot lists as running, for an id [x] whose topmost
    parent is [t]. *)
Definition listed_running (F : full_snapshot) (s : SnapshotData) (x t : Z) : Prop :=
  if suboverflowed s then In t (if takenDuringRecovery s then fsub F else ftop F)
  else In x (ftop F ++ fsub F).

Lemma u32_window_inj lo v w : in_window lo v -> in_window lo w -> u32 v = u32 w -> v = w.
Proof. intros [Hv _] [Hw _]. unfold u32, wrap. intros. Z.div_mod_to_equations. lia. Qed.

Lemma xip_find_spec lo x l :
  in_window lo x -> Forall (in_window lo) l -> Z.of_nat (length l) < 2 ^ 32 ->
  xip_find (u32 x) (map u32 l) = true <-> In x l.
Proof.
  intros Hx Hl Hn. unfold xip_find. rewrite lfind32_spec by (rewrite ?length_map; lia). simpl.
  rewrite firstn_all, bool_decide_eq_true, list_elem_of_In, in_map_iff. split.
  - intros (y & E & Hy). rewrite Stdlib.Lists.List.Forall_forall in Hl.
    by rewrite <- (u32_window_inj lo y x (Hl y Hy) Hx E).
  - intros H. by exists x.
Qed.

(** [XidInMVCCSnapshot]: for a snapshot that stands for full ids inside
    one window, the function says that an id is running exactly when it is not
    older than the snapshot's [xmax] or is listed: the comparison with [xmin] is
    an optimisation, and so is its repetition after a subtransaction has been
    mapped to its topmost parent. *)
Lemma xid_in_snapshot_spec topmost lo F s x t :
  snapshot_denotes lo F s -> in_window lo x -> in_window lo t -> t <= x -> topmost (u32 x) = u32 t ->
  XidInMVCCSnapshot topmost (u32 x) s = true <-> fxmax F <= x \/ listed_running F s x t.
Proof.
  intros (Hmin & Hmax & HmM & Hxip & Hsub & Hn1 & Hn2 & Hwin & Htop & Hsubr & Hrec) Hx Ht Htx Etop.
  apply Forall_cons_1 in Hwin as [[Hwm Hnm] Hwin]. apply Forall_cons_1 in Hwin as [[HwM HnM] Hwin].
  apply list.Forall_app in Hwin as [Hwt Hws].
  assert (Hlist : forall y l, in_window lo y -> Forall (in_window lo) l -> Z.of_nat (length l) < 2 ^ 32 ->
            (if xip_find (u32 y) (map u32 l) then true else false) = true <-> In y l).
  { intros y l Hy Hl Hn. rewrite <- (xip_find_spec lo y l) by done. by destruct (xip_find _ _). }
  assert (Hlow : forall y, y < fxmin F -> ~ In y (ftop F) /\ ~ In y (fsub F)).
  { rewrite Stdlib.Lists.List.Forall_forall in Htop, Hsubr. intros y Hy. split; intros Hin;
      [specialize (Htop y Hin)|specialize (Hsubr y Hin)]; simpl in *; lia. }
  unfold XidInMVCCSnapshot, listed_running. rewrite Hmin, Hmax, Hxip, Hsub, Etop.
  destruct Hx as [Hx Hxn], Ht as [Ht Htn].
  rewrite !precedes_window_le by (done || lia).
  destruct (compare_window x (fxmax F)) as (_ & _ & _ & ->); [done|done|lia|]. rewrite Z.geb_leb.
  destruct (Z.ltb_spec x (fxmin F)) as [Hlt|Hge].
  { split; [done|]. destruct (Hlow x Hlt), (Hlow t); [lia|].
    destruct (suboverflowed s), (takenDuringRecovery s); rewrite ?in_app_iff; intuition lia. }
  destruct (Z.leb_spec (fxmax F) x) as [Hle|Hgt]; [intuition|].
  assert (Hx' : in_window lo x) by done. assert (Ht' : in_window lo t) by done.
  destruct (takenDuringRecovery s) eqn:Er, (suboverflowed s) eqn:Eo; simpl.
  - destruct (Z.ltb_spec t (fxmin F)); [destruct (Hlow t); [done|]; intuition (done || lia)|].
    rewrite Hlist by (done || lia). intuition lia.
  - rewrite Hlist, (Hrec eq_refl) by (done || lia). simpl. intuition lia.
  - destruct (Z.ltb_spec t (fxmin F)); [destruct (Hlow t); [done|]; intuition (done || lia)|].
    rewrite Hlist by (done || lia). intuition lia.
  - rewrite in_app_iff. destruct (xip_find (u32 x) (map u32 (fsub F))) eqn:Es.
    + apply (xip_find_spec lo) in Es; [intuition|done|done|lia].
    + rewrite Hlist by (done || lia). rewrite <- (xip_find_spec lo x (fsub F)), Es by (done || lia). intuition lia.
Qed.
