(* ===== verification/Clog.v ===== *)
(** * The commit log

    [src/postgresql/src/backend/access/transam/clog.c], two bits of status for each
    transaction, four transactions to a byte, and on top of it the part of
    [transam.c] that reads it: a fetch with a one-entry cache, and the functions
    that decide whether a transaction, or the tree a subtransaction belongs
    to, has committed or aborted.

    Pages come from the SLRU buffer manager ([slru.c]), which is taken as
    memory: a page is present with its contents or the access fails.  A
    process holds the page's lock during one call of
    [TransactionIdSetPageStatusInternal]; between two calls other
    processes see the log. *)
From S2P Require Import Prelude TransactionId ItemPtr HeapTuple Snapshot.
Local Open Scope Z_scope.

Definition XidStatus : Type := Z.
Definition TRANSACTION_STATUS_IN_PROGRESS : XidStatus := 0.
Definition TRANSACTION_STATUS_COMMITTED : XidStatus := 1.
Definition TRANSACTION_STATUS_ABORTED : XidStatus := 2.
Definition TRANSACTION_STATUS_SUB_COMMITTED : XidStatus := 3.

Definition CLOG_BITS_PER_XACT : Z := 2.
Definition CLOG_XACTS_PER_BYTE : Z := 4.
Definition CLOG_XACTS_PER_PAGE : Z := BLCKSZ * CLOG_XACTS_PER_BYTE.
Definition CLOG_XACT_BITMASK : Z := Z.shiftl 1 CLOG_BITS_PER_XACT - 1.
Definition CLOG_XACTS_PER_LSN_GROUP : Z := 32.
Definition CLOG_LSNS_PER_PAGE : Z := CLOG_XACTS_PER_PAGE / CLOG_XACTS_PER_LSN_GROUP.
Definition InvalidXLogRecPtr : Z := 0.

Definition TransactionIdToPage (xid : TransactionId) : Z := xid / CLOG_XACTS_PER_PAGE.
Definition TransactionIdToPgIndex (xid : TransactionId) : Z := xid mod CLOG_XACTS_PER_PAGE.
Definition TransactionIdToByte (xid : TransactionId) : Z := TransactionIdToPgIndex xid / CLOG_XACTS_PER_BYTE.
Definition TransactionIdToBIndex (xid : TransactionId) : Z := xid mod CLOG_XACTS_PER_BYTE.

(** The index of an id's LSN group inside its page. *)
Definition GetLSNIndex (xid : TransactionId) : Z := xid mod CLOG_XACTS_PER_PAGE / CLOG_XACTS_PER_LSN_GROUP.

(** ** Pages *)

(** The buffer of a page and its LSN groups. *)
Record clog_page := { page_buffer : list Z; page_lsn : list Z }.

Definition bshift (xid : TransactionId) : Z := TransactionIdToBIndex xid * CLOG_BITS_PER_XACT.

Definition page_byte (xid : TransactionId) (p : clog_page) : Z :=
  default 0 (page_buffer p !! Z.to_nat (TransactionIdToByte xid)).

Definition page_status (xid : TransactionId) (p : clog_page) : XidStatus :=
  Z.land (Z.shiftr (page_byte xid p) (bshift xid)) CLOG_XACT_BITMASK.

Definition set_group_lsn (xid : TransactionId) (lsn : Z) (lsns : list Z) : list Z :=
  let i := Z.to_nat (GetLSNIndex xid) in
  if negb (lsn =? InvalidXLogRecPtr) then
    if default 0 (lsns !! i) <? lsn then <[i := lsn]> lsns else lsns
  else lsns.

Definition TransactionIdSetStatusBit (InRecovery : bool) (xid : TransactionId) (status : XidStatus) (lsn : Z)
  (p : clog_page) : clog_page :=
  let curval := page_status xid p in
  if InRecovery && (status =? TRANSACTION_STATUS_SUB_COMMITTED) && (curval =? TRANSACTION_STATUS_COMMITTED) then p
  else
    let byteval := page_byte xid p in
    let byteval := u8 (Z.land byteval (Z.lnot (Z.shiftl CLOG_XACT_BITMASK (bshift xid)))) in
    let byteval := u8 (Z.lor byteval (Z.shiftl status (bshift xid))) in
    {| page_buffer := <[Z.to_nat (TransactionIdToByte xid) := byteval]> (page_buffer p);
       page_lsn := set_group_lsn xid lsn (page_lsn p) |}.

Definition set_bits (InRecovery : bool) (xids : list TransactionId) (status : XidStatus) (lsn : Z) (p : clog_page) :
  clog_page :=
  fold_left (fun p x => TransactionIdSetStatusBit InRecovery x status lsn p) xids p.

(** ** Updates, one page at a time *)

(** The log: the pages by number. *)
Abbreviation clog := (gmap Z clog_page).

Record page_update := {
  pu_xid : TransactionId;
  pu_subxids : list TransactionId;
  pu_status : XidStatus;
  pu_pageno : Z
}.

(** The work on the page once it is in a buffer. *)
Definition update_page (InRecovery : bool) (lsn : Z) (u : page_update) (p : clog_page) : clog_page :=
  let p :=
    if TransactionIdIsValid (pu_xid u) then
      let p := if pu_status u =? TRANSACTION_STATUS_COMMITTED
               then set_bits InRecovery (pu_subxids u) TRANSACTION_STATUS_SUB_COMMITTED lsn p else p in
      TransactionIdSetStatusBit InRecovery (pu_xid u) (pu_status u) lsn p
    else p in
  set_bits InRecovery (pu_subxids u) (pu_status u) lsn p.

(** [None] when the page cannot be read. *)
Definition TransactionIdSetPageStatusInternal (InRecovery : bool) (lsn : Z) (u : page_update) (c : clog) : option clog :=
  p ← c !! pu_pageno u; Some (<[pu_pageno u := update_page InRecovery lsn u p]> c).

(** The longest prefix of ids on the page. *)
Fixpoint on_page (pageno : Z) (xids : list TransactionId) : list TransactionId * list TransactionId :=
  match xids with
  | [] => ([], [])
  | x :: rest =>
      if TransactionIdToPage x =? pageno then let (on, off) := on_page pageno rest in (x :: on, off)
      else ([], xids)
  end.

(** The calls that [set_status_by_pages] makes; every round takes at least one id. *)
Fixpoint set_status_by_pages (fuel : nat) (subxids : list TransactionId) (status : XidStatus) : list page_update :=
  match fuel, subxids with
  | S k, x :: _ =>
      let pageno := TransactionIdToPage x in
      let (on, off) := on_page pageno subxids in
      {| pu_xid := InvalidTransactionId; pu_subxids := on; pu_status := status; pu_pageno := pageno |} ::
      set_status_by_pages k off status
  | _, _ => []
  end.

(** The calls that [TransactionIdSetTreeStatus] makes, in order. *)
Definition tree_updates (xid : TransactionId) (subxids : list TransactionId) (status : XidStatus) : list page_update :=
  let pageno := TransactionIdToPage xid in
  let (first, rest) := on_page pageno subxids in
  match rest with
  | [] => [{| pu_xid := xid; pu_subxids := subxids; pu_status := status; pu_pageno := pageno |}]
  | _ =>
      (if status =? TRANSACTION_STATUS_COMMITTED
       then set_status_by_pages (length rest) rest TRANSACTION_STATUS_SUB_COMMITTED else []) ++
      [{| pu_xid := xid; pu_subxids := first; pu_status := status; pu_pageno := pageno |}] ++
      set_status_by_pages (length rest) rest status
  end.

Fixpoint run_updates (InRecovery : bool) (lsn : Z) (us : list page_update) (c : clog) : option clog :=
  match us with
  | [] => Some c
  | u :: us => c ← TransactionIdSetPageStatusInternal InRecovery lsn u c; run_updates InRecovery lsn us c
  end.

Definition TransactionIdSetTreeStatus (InRecovery : bool) (xid : TransactionId) (subxids : list TransactionId)
  (status : XidStatus) (lsn : Z) (c : clog) : option clog :=
  run_updates InRecovery lsn (tree_updates xid subxids status) c.

Definition TransactionIdGetStatus (xid : TransactionId) (c : clog) : option (XidStatus * Z) :=
  p ← c !! TransactionIdToPage xid;
  Some (page_status xid p, default 0 (page_lsn p !! Z.to_nat (GetLSNIndex xid))).

(** ** [transam.c] *)

Definition TransactionIdCommitTree (InRecovery : bool) (xid : TransactionId) (xids : list TransactionId) (c : clog) :
  option clog :=
  TransactionIdSetTreeStatus InRecovery xid xids TRANSACTION_STATUS_COMMITTED InvalidXLogRecPtr c.
Definition TransactionIdAsyncCommitTree (InRecovery : bool) (xid : TransactionId) (xids : list TransactionId) (lsn : Z)
  (c : clog) : option clog :=
  TransactionIdSetTreeStatus InRecovery xid xids TRANSACTION_STATUS_COMMITTED lsn c.
Definition TransactionIdAbortTree (InRecovery : bool) (xid : TransactionId) (xids : list TransactionId) (c : clog) :
  option clog :=
  TransactionIdSetTreeStatus InRecovery xid xids TRANSACTION_STATUS_ABORTED InvalidXLogRecPtr c.

Record fetch_cache := { cachedFetchXid : TransactionId; cachedFetchXidStatus : XidStatus; cachedCommitLSN : Z }.
Definition no_cache : fetch_cache := {| cachedFetchXid := InvalidTransactionId; cachedFetchXidStatus := 0; cachedCommitLSN := 0 |}.

(** The status and the new cache; [None] when the page cannot be read. *)
Definition TransactionLogFetch (c : clog) (transactionId : TransactionId) (k : fetch_cache) :
  option (XidStatus * fetch_cache) :=
  if TransactionIdEquals transactionId (cachedFetchXid k) then Some (cachedFetchXidStatus k, k)
  else if negb (TransactionIdIsNormal transactionId) then
    if TransactionIdEquals transactionId BootstrapTransactionId then Some (TRANSACTION_STATUS_COMMITTED, k)
    else if TransactionIdEquals transactionId FrozenTransactionId then Some (TRANSACTION_STATUS_COMMITTED, k)
    else Some (TRANSACTION_STATUS_ABORTED, k)
  else
    '(xidstatus, xidlsn) ← TransactionIdGetStatus transactionId c;
    Some (xidstatus,
      if negb (xidstatus =? TRANSACTION_STATUS_IN_PROGRESS) && negb (xidstatus =? TRANSACTION_STATUS_SUB_COMMITTED)
      then {| cachedFetchXid := transactionId; cachedFetchXidStatus := xidstatus; cachedCommitLSN := xidlsn |}
      else k).

Section did.
(** [entry] is what [pg_subtrans] holds for each id. *)
Context (entry : TransactionId -> TransactionId) (TransactionXmin : TransactionId).

(** Both recurse from a subtransaction to its parent; [None] when fuel runs out
    or a page cannot be read. *)
Fixpoint TransactionIdDidCommit (fuel : nat) (c : clog) (transactionId : TransactionId) (k : fetch_cache) :
  option (bool * fetch_cache) :=
  match fuel with
  | O => None
  | S fuel =>
      '(xidstatus, k) ← TransactionLogFetch c transactionId k;
      if xidstatus =? TRANSACTION_STATUS_COMMITTED then Some (true, k)
      else if xidstatus =? TRANSACTION_STATUS_SUB_COMMITTED then
        if TransactionIdPrecedes transactionId TransactionXmin then Some (false, k)
        else
          let parentXid := SubTransGetParent entry transactionId in
          if negb (TransactionIdIsValid parentXid) then Some (false, k)
          else TransactionIdDidCommit fuel c parentXid k
      else Some (false, k)
  end.

Fixpoint TransactionIdDidAbort (fuel : nat) (c : clog) (transactionId : TransactionId) (k : fetch_cache) :
  option (bool * fetch_cache) :=
  match fuel with
  | O => None
  | S fuel =>
      '(xidstatus, k) ← TransactionLogFetch c transactionId k;
      if xidstatus =? TRANSACTION_STATUS_ABORTED then Some (true, k)
      else if xidstatus =? TRANSACTION_STATUS_SUB_COMMITTED then
        if TransactionIdPrecedes transactionId TransactionXmin then Some (true, k)
        else
          let parentXid := SubTransGetParent entry transactionId in
          if negb (TransactionIdIsValid parentXid) then Some (true, k)
          else TransactionIdDidAbort fuel c parentXid k
      else Some (false, k)
  end.
End did.

Definition TransactionIdGetCommitLSN (c : clog) (xid : TransactionId) (k : fetch_cache) : option Z :=
  if TransactionIdEquals xid (cachedFetchXid k) then Some (cachedCommitLSN k)
  else if negb (TransactionIdIsNormal xid) then Some InvalidXLogRecPtr
  else snd <$> TransactionIdGetStatus xid c.

(** ** Bit fields *)

Lemma testbit_u8 x j : 0 <= j -> Z.testbit (u8 x) j = (j <? 8) && Z.testbit x j.
Proof.
  intros Hj. unfold u8, wrap. destruct (Z.ltb_spec j 8).
  - by rewrite Z.mod_pow2_bits_low.
  - by rewrite Z.mod_pow2_bits_high by lia.
Qed.

Lemma testbit_mask i : 0 <= i -> Z.testbit CLOG_XACT_BITMASK i = (i <? 2).
Proof.
  intros Hi. change CLOG_XACT_BITMASK with (Z.ones 2). rewrite Z.testbit_ones by lia.
  by rewrite (proj2 (Z.leb_le 0 i)) by done.
Qed.

Lemma testbit_field x s i : 0 <= i -> 0 <= s ->
  Z.testbit (Z.land (Z.shiftr x s) CLOG_XACT_BITMASK) i = (i <? 2) && Z.testbit x (i + s).
Proof. intros Hi Hs. rewrite Z.land_spec, Z.shiftr_spec, testbit_mask by done. apply andb_comm. Qed.

(** The byte with the two bits at [s] replaced. *)
Definition put_field (v s st : Z) : Z :=
  u8 (Z.lor (u8 (Z.land v (Z.lnot (Z.shiftl CLOG_XACT_BITMASK s)))) (Z.shiftl st s)).

Lemma testbit_put v s st j : 0 <= j < 8 -> 0 <= s ->
  Z.testbit (put_field v s st) j =
  (Z.testbit v j && negb ((s <=? j) && (j - s <? 2))) || (s <=? j) && Z.testbit st (j - s).
Proof.
  intros Hj Hs. unfold put_field. rewrite testbit_u8, Z.lor_spec, testbit_u8, Z.land_spec, Z.lnot_spec by lia.
  rewrite (proj2 (Z.ltb_lt j 8)) by lia. simpl. rewrite !Z.shiftl_spec by lia.
  destruct (Z.leb_spec s j) as [Hle|Hgt]; simpl.
  - by rewrite testbit_mask by lia.
  - by rewrite !(Z.testbit_neg_r _ (j - s)) by lia.
Qed.

(** An index of a two-bit field in a byte. *)
Definition slot (s : Z) : Prop := exists b, 0 <= b < 4 /\ s = b * 2.

Lemma field_put_same v s st : slot s -> 0 <= st < 4 -> Z.land (Z.shiftr (put_field v s st) s) CLOG_XACT_BITMASK = st.
Proof.
  intros (b & Hb & ->) Hst. apply Z.bits_inj'. intros i Hi. rewrite testbit_field by lia.
  destruct (Z.ltb_spec i 2) as [Hi2|Hi2]; simpl.
  - rewrite testbit_put by lia. rewrite (proj2 (Z.leb_le (b * 2) (i + b * 2))) by lia.
    replace (i + b * 2 - b * 2) with i by lia. rewrite (proj2 (Z.ltb_lt i 2)) by done. simpl.
    by rewrite andb_false_r.
  - symmetry. rewrite <- (Z.mod_small st (2 ^ 2)) by lia. by rewrite Z.mod_pow2_bits_high by lia.
Qed.

Lemma field_put_other v s s' st : slot s -> slot s' -> s <> s' -> 0 <= st < 4 ->
  Z.land (Z.shiftr (put_field v s st) s') CLOG_XACT_BITMASK = Z.land (Z.shiftr v s') CLOG_XACT_BITMASK.
Proof.
  intros (b & Hb & ->) (b' & Hb' & ->) Hne Hst. apply Z.bits_inj'. intros i Hi. rewrite !testbit_field by lia.
  destruct (Z.ltb_spec i 2) as [Hi2|Hi2]; simpl; [|done]. rewrite testbit_put by lia.
  destruct (Z.leb_spec (b * 2) (i + b' * 2)) as [Hle|Hgt]; simpl; [|by rewrite andb_true_r, orb_false_r].
  rewrite (proj2 (Z.ltb_ge (i + b' * 2 - b * 2) 2)) by lia. simpl. rewrite andb_true_r.
  rewrite <- (Z.mod_small st (2 ^ 2)) by lia. rewrite Z.mod_pow2_bits_high by lia. apply orb_false_r.
Qed.

Lemma bshift_slot xid : slot (bshift xid).
Proof. exists (TransactionIdToBIndex xid). split; [apply Z.mod_pos_bound; done|done]. Qed.

(** ** Pages *)

Definition page_ok (p : clog_page) : Prop :=
  Z.of_nat (length (page_buffer p)) = BLCKSZ /\ Z.of_nat (length (page_lsn p)) = CLOG_LSNS_PER_PAGE.

Lemma byte_in_page xid : 0 <= TransactionIdToByte xid < BLCKSZ.
Proof.
  unfold TransactionIdToByte, TransactionIdToPgIndex.
  pose proof (Z.mod_pos_bound xid CLOG_XACTS_PER_PAGE ltac:(done)) as H.
  unfold CLOG_XACTS_PER_PAGE, BLCKSZ, CLOG_XACTS_PER_BYTE in *.
  split; [apply Z.div_pos; lia|apply Z.div_lt_upper_bound; lia].
Qed.

Lemma group_in_page xid : 0 <= GetLSNIndex xid < CLOG_LSNS_PER_PAGE.
Proof.
  unfold GetLSNIndex. pose proof (Z.mod_pos_bound xid CLOG_XACTS_PER_PAGE ltac:(done)) as H.
  unfold CLOG_LSNS_PER_PAGE, CLOG_XACTS_PER_PAGE, BLCKSZ, CLOG_XACTS_PER_BYTE, CLOG_XACTS_PER_LSN_GROUP in *.
  change (8192 * 4 / 32) with 1024. split; [apply Z.div_pos; lia|apply Z.div_lt_upper_bound; lia].
Qed.

(** Two ids of a page share neither byte nor field. *)
Lemma same_place x y :
  TransactionIdToPage x = TransactionIdToPage y -> TransactionIdToByte x = TransactionIdToByte y ->
  bshift x = bshift y -> x = y.
Proof.
  unfold TransactionIdToPage, TransactionIdToByte, bshift, TransactionIdToBIndex, TransactionIdToPgIndex,
    CLOG_XACTS_PER_PAGE, BLCKSZ, CLOG_XACTS_PER_BYTE, CLOG_BITS_PER_XACT.
  intros. Z.div_mod_to_equations. lia.
Qed.

Lemma set_bit_ok r x st lsn p : page_ok p -> page_ok (TransactionIdSetStatusBit r x st lsn p).
Proof.
  intros [H1 H2]. unfold TransactionIdSetStatusBit. destruct (r && _ && _); [done|]. split; simpl.
  - by rewrite length_insert.
  - unfold set_group_lsn. destruct (negb _); [|done]. destruct (_ <? lsn); [|done]. by rewrite length_insert.
Qed.

(** What a skipped or a performed update leaves behind. *)
Definition new_status (r : bool) (st cur : XidStatus) : XidStatus :=
  if r && (st =? TRANSACTION_STATUS_SUB_COMMITTED) && (cur =? TRANSACTION_STATUS_COMMITTED) then cur else st.

Lemma set_bit_status r x y st lsn p :
  page_ok p -> 0 <= st < 4 -> TransactionIdToPage x = TransactionIdToPage y ->
  page_status y (TransactionIdSetStatusBit r x st lsn p) =
  if decide (y = x) then new_status r st (page_status x p) else page_status y p.
Proof.
  intros [Hp _] Hst Hpage. unfold TransactionIdSetStatusBit, new_status.
  destruct (r && _ && _); [by destruct (decide (y = x)) as [->|]|].
  change (u8 (Z.lor (u8 _) _)) with (put_field (page_byte x p) (bshift x) st).
  assert (Hin : (Z.to_nat (TransactionIdToByte x) < length (page_buffer p))%nat) by (pose proof (byte_in_page x); lia).
  unfold page_status at 1, page_byte at 1. simpl.
  destruct (decide (TransactionIdToByte y = TransactionIdToByte x)) as [Hb|Hb].
  - rewrite Hb, list_lookup_insert_eq by done. simpl. destruct (decide (y = x)) as [->|Hne].
    + apply field_put_same; [apply bshift_slot|done].
    + rewrite field_put_other; [by unfold page_status, page_byte; rewrite Hb|apply bshift_slot..| |done].
      intros E. by apply Hne, same_place.
  - rewrite list_lookup_insert_ne by (pose proof (byte_in_page x); pose proof (byte_in_page y); lia).
    by destruct (decide (y = x)) as [->|].
Qed.

Lemma new_status_idem r st cur : new_status r st (new_status r st cur) = new_status r st cur.
Proof. unfold new_status. destruct (r && (st =? _) && (cur =? _)) eqn:E; [by rewrite E|]. by destruct_ifs. Qed.

Lemma new_status_final r st cur : st <> TRANSACTION_STATUS_SUB_COMMITTED -> new_status r st cur = st.
Proof. intros H. unfold new_status. apply Z.eqb_neq in H. rewrite H. by destruct r. Qed.

Lemma set_bits_ok r xs st lsn p : page_ok p -> page_ok (set_bits r xs st lsn p).
Proof. revert p. induction xs as [|x xs IH]; intros p H; [done|]. apply IH, set_bit_ok, H. Qed.

Lemma set_bits_status r xs y st lsn p :
  page_ok p -> 0 <= st < 4 -> (forall x, x ∈ xs -> TransactionIdToPage x = TransactionIdToPage y) ->
  page_status y (set_bits r xs st lsn p) =
  if decide (y ∈ xs) then new_status r st (page_status y p) else page_status y p.
Proof.
  intros Hp Hst. revert p Hp. induction xs as [|x xs IH]; intros p Hp Hpage.
  - by rewrite decide_False by apply not_elem_of_nil.
  - change (set_bits r (x :: xs) st lsn p) with (set_bits r xs st lsn (TransactionIdSetStatusBit r x st lsn p)).
    rewrite IH by first [by apply set_bit_ok | intros z Hz; apply Hpage; by right].
    rewrite set_bit_status by first [done | apply Hpage; by left].
    destruct (decide (y = x)) as [->|Hne].
    + rewrite (decide_True (P := x ∈ x :: xs)) by (by left). destruct (decide _); [apply new_status_idem|done].
    + by rewrite (decide_ext (y ∈ x :: xs) (y ∈ xs)) by (rewrite elem_of_cons; tauto).
Qed.

(** The ids an update writes; its status is one the code uses. *)
Definition members (u : page_update) : list TransactionId :=
  (if TransactionIdIsValid (pu_xid u) then [pu_xid u] else []) ++ pu_subxids u.

Definition update_ok (u : page_update) : Prop :=
  0 <= pu_status u < 4 /\
  (pu_status u = TRANSACTION_STATUS_SUB_COMMITTED -> pu_xid u = InvalidTransactionId) /\
  forall x, x ∈ members u -> TransactionIdToPage x = pu_pageno u.

Lemma update_page_ok r lsn u p : page_ok p -> page_ok (update_page r lsn u p).
Proof.
  intros H. unfold update_page. apply set_bits_ok. destruct (TransactionIdIsValid _); [|done].
  apply set_bit_ok. destruct (_ =? _); [by apply set_bits_ok|done].
Qed.

Lemma update_page_status r lsn u p y :
  update_ok u -> page_ok p -> TransactionIdToPage y = pu_pageno u ->
  page_status y (update_page r lsn u p) =
  if decide (y ∈ members u) then new_status r (pu_status u) (page_status y p) else page_status y p.
Proof.
  intros (Hst & Hsub & Hpage) Hp Hy. unfold members in *. unfold update_page.
  assert (Hs : forall x, x ∈ pu_subxids u -> TransactionIdToPage x = TransactionIdToPage y).
  { intros x Hx. rewrite Hy. apply Hpage, elem_of_app. by right. }
  destruct (TransactionIdIsValid (pu_xid u)) eqn:Ev; [|by apply set_bits_status].
  assert (Hx : TransactionIdToPage (pu_xid u) = TransactionIdToPage y).
  { rewrite Hy. apply Hpage. by left. }
  assert (Hns : pu_status u <> TRANSACTION_STATUS_SUB_COMMITTED).
  { intros E. apply Hsub in E. by rewrite E in Ev. }
  set (p1 := if pu_status u =? TRANSACTION_STATUS_COMMITTED
             then set_bits r (pu_subxids u) TRANSACTION_STATUS_SUB_COMMITTED lsn p else p).
  assert (Hp1 : page_ok p1) by (unfold p1; destruct (_ =? _); [by apply set_bits_ok|done]).
  rewrite set_bits_status, set_bit_status by first [done | by apply set_bit_ok]. rewrite !new_status_final by done.
  unfold p1. destruct (decide (y ∈ pu_subxids u)) as [Hin|Hout].
  - by rewrite decide_True by (apply elem_of_app; by right).
  - destruct (decide (y = pu_xid u)) as [->|Hne]; [by rewrite decide_True by (apply elem_of_app; left; left)|].
    rewrite decide_False by (rewrite elem_of_app, list_elem_of_singleton; tauto).
    destruct (_ =? _); [|done]. rewrite set_bits_status by done. by rewrite decide_False.
Qed.

(** ** The log *)

Definition clog_ok (c : clog) : Prop := map_Forall (fun _ => page_ok) c.
Definition status_of (c : clog) (y : TransactionId) : option XidStatus :=
  page_status y <$> c !! TransactionIdToPage y.

Lemma page_step r lsn u c :
  clog_ok c -> update_ok u -> is_Some (c !! pu_pageno u) ->
  exists c', TransactionIdSetPageStatusInternal r lsn u c = Some c' /\ clog_ok c' /\ dom c' = dom c /\
    forall y, status_of c' y = if decide (y ∈ members u) then new_status r (pu_status u) <$> status_of c y
                               else status_of c y.
Proof.
  intros Hc Hu [p Hp]. unfold TransactionIdSetPageStatusInternal. rewrite Hp. simpl. eexists. split; [done|].
  assert (page_ok p) by (by eapply Hc). split; [|split].
  - apply map_Forall_insert_2; [by apply update_page_ok|done].
  - by apply dom_insert_lookup_L.
  - intros y. unfold status_of. destruct (decide (TransactionIdToPage y = pu_pageno u)) as [E|E].
    + rewrite E, lookup_insert_eq, Hp. simpl. rewrite update_page_status by done. by destruct (decide _).
    + rewrite lookup_insert_ne by done. rewrite decide_False; [done|]. intros Hin. apply E, Hu, Hin.
Qed.

(** A list of updates, each on a page that exists. *)
Definition updates_ok (c : clog) (us : list page_update) : Prop :=
  forall u, u ∈ us -> update_ok u /\ is_Some (c !! pu_pageno u).

(** The status after a list of updates. *)
Definition status_after (r : bool) (us : list page_update) (y : TransactionId) (st : XidStatus) : XidStatus :=
  fold_left (fun st u => if decide (y ∈ members u) then new_status r (pu_status u) st else st) us st.

Lemma run_updates_spec r lsn us c :
  clog_ok c -> updates_ok c us ->
  exists c', run_updates r lsn us c = Some c' /\ clog_ok c' /\ dom c' = dom c /\
    forall y, status_of c' y = status_after r us y <$> status_of c y.
Proof.
  revert c. induction us as [|u us IH]; intros c Hc Hus; simpl.
  - exists c. split; [done|]. split; [done|]. split; [done|]. intros y. by destruct (status_of c y).
  - destruct (Hus u) as [Hu Hp]; [by left|]. destruct (page_step r lsn u c Hc Hu Hp) as (c1 & -> & Hc1 & Hd1 & Hs1).
    simpl. destruct (IH c1) as (c2 & -> & Hc2 & Hd2 & Hs2); [done| |].
    { intros v Hv. destruct (Hus v) as [? Hv2]; [by right|]. split; [done|].
      apply elem_of_dom. rewrite Hd1. by apply elem_of_dom. }
    exists c2. split; [done|]. split; [done|]. split; [congruence|]. intros y. rewrite Hs2, Hs1.
    destruct (status_of c y); simpl; by destruct (decide _).
Qed.

(** ** The shape of a tree update *)

Lemma on_page_spec n l on off :
  on_page n l = (on, off) ->
  l = on ++ off /\ (forall x, x ∈ on -> TransactionIdToPage x = n) /\
  (forall x rest, l = x :: rest -> TransactionIdToPage x = n -> on <> []).
Proof.
  revert on off. induction l as [|x l IH]; intros on off; simpl.
  - intros [= <- <-]. split; [done|]. split; [|done]. intros x Hx. by apply elem_of_nil in Hx.
  - destruct (Z.eqb_spec (TransactionIdToPage x) n) as [E|E].
    + destruct (on_page n l) as [a b]. intros [= <- <-]. destruct (IH a b eq_refl) as (-> & Ha & _).
      split; [done|]. split; [|done]. intros y [->|Hy]%elem_of_cons; [done|by apply Ha].
    + intros [= <- <-]. split; [done|]. split; [intros y Hy; by apply elem_of_nil in Hy|].
      by intros y rest [= <- _].
Qed.

Lemma members_sub on st n :
  members {| pu_xid := InvalidTransactionId; pu_subxids := on; pu_status := st; pu_pageno := n |} = on.
Proof. done. Qed.

Lemma by_pages_spec fuel l st :
  0 <= st < 4 -> (length l <= fuel)%nat ->
  (forall u, u ∈ set_status_by_pages fuel l st ->
     update_ok u /\ pu_status u = st /\ exists x, x ∈ l /\ pu_pageno u = TransactionIdToPage x) /\
  (forall y, y ∈ l <-> exists u, u ∈ set_status_by_pages fuel l st /\ y ∈ members u).
Proof.
  intros Hst. revert l. induction fuel as [|k IH]; intros [|x l] Hlen; simpl in Hlen; try lia.
  1, 2: split; [intros u Hu; by apply elem_of_nil in Hu|];
        intros y; split; [intros Hy; by apply elem_of_nil in Hy|intros (u & Hu & _); by apply elem_of_nil in Hu].
  cbn [set_status_by_pages]. destruct (on_page (TransactionIdToPage x) (x :: l)) as [on off] eqn:E.
  apply on_page_spec in E as (El & Hon & Hne). specialize (Hne x l eq_refl eq_refl).
  assert (Hlen2 : (length off <= k)%nat).
  { apply (f_equal length) in El. rewrite length_app in El. destruct on; [done|]. simpl in *. lia. }
  destruct (IH off Hlen2) as [IH1 IH2]. split.
  - intros u [->|Hu]%elem_of_cons.
    + split; [|split; [done|exists x; split; [by left|done]]]. split; [done|]. split; [done|].
      intros y Hy. rewrite members_sub in Hy. by apply Hon.
    + destruct (IH1 u Hu) as (? & ? & z & Hz & ?). split; [done|]. split; [done|]. exists z. split; [|done].
      rewrite El. apply elem_of_app. by right.
  - intros y. rewrite El, elem_of_app, IH2. split.
    + intros [Hy|(u & Hu & Hy)]; [|exists u; split; [by right|done]].
      eexists. split; [by left|]. by rewrite members_sub.
    + intros (u & [->|Hu]%elem_of_cons & Hy); [left; by rewrite members_sub in Hy|right; by exists u].
Qed.

(** The three parts of a commit: the subtransactions on other pages are marked
    sub-committed, then the page of the parent is committed, then the others. *)
Definition tree_split (xid : TransactionId) (subs : list TransactionId) (st : XidStatus)
  (pre : list page_update) (u : page_update) (post : list page_update) : Prop :=
  tree_updates xid subs st = pre ++ u :: post /\
  pu_xid u = xid /\ pu_status u = st /\
  exists first rest, subs = first ++ rest /\ pu_subxids u = first /\
    (forall v, v ∈ pre -> update_ok v /\ pu_status v = TRANSACTION_STATUS_SUB_COMMITTED) /\
    (forall v, v ∈ post -> update_ok v /\ pu_status v = st) /\ update_ok u /\
    (forall v, v ∈ pre ++ u :: post -> exists x, x ∈ xid :: subs /\ pu_pageno v = TransactionIdToPage x) /\
    (forall y, y ∈ rest <-> exists v, v ∈ post /\ y ∈ members v) /\
    (st = TRANSACTION_STATUS_COMMITTED -> forall y, y ∈ rest <-> exists v, v ∈ pre /\ y ∈ members v) /\
    (st <> TRANSACTION_STATUS_COMMITTED -> pre = []).

Lemma tree_updates_split xid subs st :
  0 <= st < 4 -> st <> TRANSACTION_STATUS_SUB_COMMITTED -> exists pre u post, tree_split xid subs st pre u post.
Proof.
  intros Hst Hns. unfold tree_split, tree_updates.
  destruct (on_page (TransactionIdToPage xid) subs) as [first rest] eqn:E. apply on_page_spec in E as (-> & Hon & _).
  set (u := {| pu_xid := xid; pu_subxids := first; pu_status := st; pu_pageno := TransactionIdToPage xid |}).
  assert (Hu : update_ok u).
  { split; [done|]. split; [done|]. intros x. unfold members. simpl. rewrite elem_of_app. intros [Hx|Hx]; [|by apply Hon].
    destruct (TransactionIdIsValid xid); [by apply list_elem_of_singleton in Hx as ->|by apply elem_of_nil in Hx]. }
  destruct rest as [|x rest].
  - exists [], u, []. rewrite app_nil_r. split; [done|]. split; [done|]. split; [done|]. exists first, [].
    rewrite app_nil_r. do 2 (split; [done|]).
    split; [intros v Hv; by apply elem_of_nil in Hv|]. split; [intros v Hv; by apply elem_of_nil in Hv|].
    split; [done|]. split.
    { intros v Hv. apply list_elem_of_singleton in Hv as ->. exists xid. split; [by left|done]. }
    split; [|split; [|done]]; [|intros _]; intros y;
      (split; [intros Hy; by apply elem_of_nil in Hy|intros (v & Hv & _); by apply elem_of_nil in Hv]).
  - set (l := x :: rest) in *.
    destruct (by_pages_spec (length l) l TRANSACTION_STATUS_SUB_COMMITTED) as [P1 P2]; [done..|].
    destruct (by_pages_spec (length l) l st) as [Q1 Q2]; [done..|].
    set (pre := if st =? TRANSACTION_STATUS_COMMITTED
                then set_status_by_pages (length l) l TRANSACTION_STATUS_SUB_COMMITTED else []).
    assert (Hpre : forall v, v ∈ pre -> v ∈ set_status_by_pages (length l) l TRANSACTION_STATUS_SUB_COMMITTED).
    { unfold pre. destruct (_ =? _); [done|]. intros v Hv. by apply elem_of_nil in Hv. }
    exists pre, u, (set_status_by_pages (length l) l st). split; [done|]. do 2 (split; [done|]). exists first, l.
    do 2 (split; [done|]). split; [intros v Hv; destruct (P1 v (Hpre v Hv)) as (? & ? & _); done|].
    split; [intros v Hv; destruct (Q1 v Hv) as (? & ? & _); done|]. split; [done|].
    assert (Hl : forall z, z ∈ l -> z ∈ xid :: first ++ l) by (intros z Hz; right; apply elem_of_app; by right).
    split; [|split; [done|]].
    { intros v [Hv|[->|Hv]%elem_of_cons]%elem_of_app.
      - destruct (P1 v (Hpre v Hv)) as (_ & _ & z & Hz & ?). eauto.
      - exists xid. split; [by left|done].
      - destruct (Q1 v Hv) as (_ & _ & z & Hz & ?). eauto. }
    unfold pre. split; [intros ->; done|]. intros Hne. by rewrite (proj2 (Z.eqb_neq st _) Hne).
Qed.

(** ** Status along a run of updates *)

Lemma status_after_app r us vs y st : status_after r (us ++ vs) y st = status_after r vs y (status_after r us y st).
Proof. apply fold_left_app. Qed.

Lemma status_after_one r u y st :
  status_after r [u] y st = if decide (y ∈ members u) then new_status r (pu_status u) st else st.
Proof. done. Qed.

Lemma status_after_uniform r us y s st :
  (forall u, u ∈ us -> pu_status u = s) ->
  (status_after r us y st = st \/ status_after r us y st = new_status r s st) /\
  ((exists u, u ∈ us /\ y ∈ members u) -> status_after r us y st = new_status r s st) /\
  ((forall u, u ∈ us -> y ∉ members u) -> status_after r us y st = st).
Proof.
  revert st. induction us as [|u us IH]; intros st Hs; cbn [status_after fold_left].
  - split; [by left|]. split; [intros (u & Hu & _); by apply elem_of_nil in Hu|done].
  - assert (Hs' : forall v, v ∈ us -> pu_status v = s) by (intros v Hv; apply Hs; by right).
    destruct (decide (y ∈ members u)) as [Hin|Hout].
    + rewrite (Hs u) by (by left). destruct (IH (new_status r s st) Hs') as ([E|E] & E1 & E2);
        rewrite ?new_status_idem in E; (split; [by right|]); (split; [done|]);
        (intros Hno; exfalso; by apply (Hno u); [left|]).
    + destruct (IH st Hs') as (E0 & E1 & E2). split; [done|]. split.
      * intros (v & [->|Hv]%elem_of_cons & Hy); [done|]. apply E1. by exists v.
      * intros Hno. apply E2. intros v Hv. apply Hno. by right.
Qed.

Lemma page_status_range y p : 0 <= page_status y p < 4.
Proof.
  unfold page_status. change CLOG_XACT_BITMASK with (Z.ones 2). rewrite Z.land_ones by done.
  apply Z.mod_pos_bound. done.
Qed.

Lemma status_range c y st : status_of c y = Some st -> 0 <= st < 4.
Proof. unfold status_of. intros (p & _ & ->)%fmap_Some. apply page_status_range. Qed.

(** ** Reading the log *)

Definition final (st : XidStatus) : Prop := st = TRANSACTION_STATUS_COMMITTED \/ st = TRANSACTION_STATUS_ABORTED.

(** The cached status is the one in the log, and final. *)
Definition cache_ok (k : fetch_cache) (c : clog) : Prop :=
  cachedFetchXid k = InvalidTransactionId \/
  (FirstNormalTransactionId <= cachedFetchXid k /\ final (cachedFetchXidStatus k) /\
   status_of c (cachedFetchXid k) = Some (cachedFetchXidStatus k)).

Lemma fetch_spec c x k st :
  cache_ok k c -> FirstNormalTransactionId <= x -> status_of c x = Some st ->
  exists k', TransactionLogFetch c x k = Some (st, k') /\ cache_ok k' c.
Proof.
  intros Hk Hx Hst. unfold TransactionLogFetch, TransactionIdEquals. rewrite normal_is_normal by done.
  destruct (Z.eqb_spec x (cachedFetchXid k)) as [->|Hne].
  - destruct Hk as [E|(Hn & Hf & Hs)]; [by rewrite E in Hx|]. exists k. split; [congruence|].
    right. done.
  - cbn [negb]. cbv iota. unfold TransactionIdGetStatus. pose proof (status_range _ _ _ Hst) as Hr. unfold status_of in Hst.
    destruct (c !! TransactionIdToPage x) as [p|] eqn:Ep; [|done]. simpl in Hst. injection Hst as <-. simpl.
    eexists. split; [done|]. destruct (negb _ && negb _) eqn:Ef; [|done]. b2p. right. simpl. split; [done|].
    split; [unfold final, TRANSACTION_STATUS_COMMITTED, TRANSACTION_STATUS_ABORTED, TRANSACTION_STATUS_IN_PROGRESS,
      TRANSACTION_STATUS_SUB_COMMITTED in *; lia|]. unfold status_of. by rewrite Ep.
Qed.

(** The tree of a transaction: the parents recorded in [pg_subtrans] lead from every
    subtransaction to [xid], and none is too old to be looked up. *)
Record xact_tree (entry : TransactionId -> TransactionId) (xmin xid : TransactionId) (subs : list TransactionId)
  (depth : TransactionId -> nat) : Prop := {
  tree_normal : forall y, y ∈ xid :: subs -> FirstNormalTransactionId <= y;
  tree_recent : forall y, y ∈ subs -> TransactionIdPrecedes y xmin = false;
  tree_parent : forall y, y ∈ subs ->
    entry y ∈ xid :: subs /\ (depth (entry y) < depth y)%nat
}.

Lemma valid_of_normal x : FirstNormalTransactionId <= x -> TransactionIdIsValid x = true.
Proof.
  unfold TransactionIdIsValid, FirstNormalTransactionId, InvalidTransactionId. intros H.
  apply negb_true_iff, Z.eqb_neq. lia.
Qed.

(** The answer for a whole tree follows from that for [xid]: when every
    subtransaction is unfinished or sub-committed, or has the final status itself. *)
Lemma did_commit_tree entry xmin xid subs depth c (b : bool) :
  xact_tree entry xmin xid subs depth ->
  status_of c xid = Some (if b then TRANSACTION_STATUS_COMMITTED else TRANSACTION_STATUS_IN_PROGRESS) ->
  (forall y, y ∈ subs -> status_of c y = Some TRANSACTION_STATUS_SUB_COMMITTED \/
     status_of c y = Some (if b then TRANSACTION_STATUS_COMMITTED else TRANSACTION_STATUS_IN_PROGRESS)) ->
  forall fuel y k, y ∈ xid :: subs -> cache_ok k c -> (depth y < fuel)%nat ->
  exists k', TransactionIdDidCommit entry xmin fuel c y k = Some (b, k') /\ cache_ok k' c.
Proof.
  intros Ht Hx Hs. induction fuel as [|fuel IH]; intros y k Hy Hk Hd; [lia|]. cbn [TransactionIdDidCommit].
  pose proof (tree_normal _ _ _ _ _ Ht y Hy) as Hn.
  assert (Hcase : (y ∈ subs /\ status_of c y = Some TRANSACTION_STATUS_SUB_COMMITTED) \/
    status_of c y = Some (if b then TRANSACTION_STATUS_COMMITTED else TRANSACTION_STATUS_IN_PROGRESS)).
  { apply elem_of_cons in Hy as [->|Hy]; [by right|]. destruct (Hs y Hy); [by left|by right]. }
  destruct Hcase as [[Hsub Hst]|Hst]; destruct (fetch_spec c y k _ Hk Hn Hst) as (k1 & -> & Hk1); cbn [mbind option_bind].
  - change (_ =? TRANSACTION_STATUS_COMMITTED) with false. cbv iota. rewrite Z.eqb_refl.
    rewrite (tree_recent _ _ _ _ _ Ht y Hsub). unfold SubTransGetParent. rewrite normal_is_normal by done. cbn [negb]. cbv iota.
    destruct (tree_parent _ _ _ _ _ Ht y Hsub) as [Hp Hpd].
    rewrite valid_of_normal by (by eapply tree_normal). cbn [negb]. cbv iota. apply IH; [done|done|lia].
  - exists k1. split; [|done]. by destruct b.
Qed.

Section commit.
Context (r : bool) (xid : TransactionId) (subs : list TransactionId).
Context (pre post : list page_update) (u : page_update).
Context (Hsplit : tree_split xid subs TRANSACTION_STATUS_COMMITTED pre u post).
Context (Hnodup : NoDup (xid :: subs)) (Hnormal : FirstNormalTransactionId <= xid).

Definition unfinished (st : XidStatus) : Prop :=
  st = TRANSACTION_STATUS_IN_PROGRESS \/ st = TRANSACTION_STATUS_SUB_COMMITTED.

Lemma sub_of_unfinished st : unfinished st -> new_status r TRANSACTION_STATUS_SUB_COMMITTED st = TRANSACTION_STATUS_SUB_COMMITTED.
Proof. intros [->| ->]; by destruct r. Qed.

(** Before the page of [xid] is written nobody is committed. *)
Lemma status_before n y st :
  y ∈ xid :: subs -> unfinished st ->
  unfinished (status_after r (take n pre) y st) /\ status_after r (take n pre) xid st = st.
Proof.
  destruct Hsplit as (_ & _ & _ & first & rest & Es & _ & Hpre & _ & _ & _ & _ & Hrest & _). intros Hy Hst.
  assert (Hu : forall v, v ∈ take n pre -> pu_status v = TRANSACTION_STATUS_SUB_COMMITTED).
  { intros v Hv. apply Hpre. by eapply in_take. }
  destruct (status_after_uniform r (take n pre) y _ st Hu) as ([->| ->] & _ & _);
    destruct (status_after_uniform r (take n pre) xid _ st Hu) as (_ & _ & Hx);
    (split; [try done; rewrite sub_of_unfinished by done; by right|]); apply Hx; intros v Hv Hin.
  all: apply NoDup_cons_1_1 in Hnodup as Hno; apply Hno; rewrite Es; apply elem_of_app; right;
    apply Hrest; [done|]; exists v; split; [by eapply in_take|done].
Qed.

(** Once it is written, [xid] is committed and the others are or point to their parents. *)
Lemma status_once n y st :
  y ∈ xid :: subs -> unfinished st ->
  (y = xid -> status_after r (pre ++ u :: take n post) y st = TRANSACTION_STATUS_COMMITTED) /\
  (status_after r (pre ++ u :: take n post) y st = TRANSACTION_STATUS_COMMITTED \/
   status_after r (pre ++ u :: take n post) y st = TRANSACTION_STATUS_SUB_COMMITTED).
Proof.
  destruct Hsplit as (_ & Ex & Est & first & rest & Es & Efirst & Hpre & Hpost & Hu & _ & Hrestpost & Hrest & _).
  intros Hy Hst. apply NoDup_cons_1_1 in Hnodup as Hxno. apply NoDup_cons_1_2 in Hnodup as Hnd.
  rewrite Es in Hnd. apply list.NoDup_app in Hnd as (_ & Hdisj & _).
  assert (Hmem : forall z, z ∈ members u <-> z = xid \/ z ∈ first).
  { intros z. unfold members. rewrite Ex, valid_of_normal, elem_of_app, Efirst, list_elem_of_singleton by done. done. }
  rewrite status_after_app. change (u :: take n post) with ([u] ++ take n post). rewrite status_after_app.
  assert (Hpostu : forall v, v ∈ take n post -> pu_status v = TRANSACTION_STATUS_COMMITTED).
  { intros v Hv. apply Hpost. by eapply in_take. }
  destruct (decide (y = xid \/ y ∈ first)) as [Hin|Hout].
  - rewrite status_after_one, decide_True by (by apply Hmem). rewrite Est.
    rewrite new_status_final by done.
    destruct (status_after_uniform r (take n post) y _ TRANSACTION_STATUS_COMMITTED Hpostu) as ([E|E] & _).
    + rewrite E. auto.
    + rewrite E, new_status_final by done. auto.
  - assert (Hr : y ∈ rest).
    { apply elem_of_cons in Hy as [->|Hy]; [tauto|]. rewrite Es in Hy. apply elem_of_app in Hy as [Hy|Hy]; tauto. }
    split; [intros ->; tauto|]. rewrite status_after_one, decide_False by (rewrite Hmem; tauto).
    destruct (status_after_uniform r pre y TRANSACTION_STATUS_SUB_COMMITTED st) as (_ & Epre & _);
      [intros v Hv; by apply Hpre|]. rewrite Epre by (apply Hrest; done).
    rewrite sub_of_unfinished by done.
    destruct (status_after_uniform r (take n post) y _ TRANSACTION_STATUS_SUB_COMMITTED Hpostu) as ([E|E] & _);
      rewrite E; [by right|]. by rewrite new_status_final; [left|].
Qed.

End commit.

Lemma prefix_cases {A} n (pre : list A) u post :
  (n <= length pre)%nat /\ take n (pre ++ u :: post) = take n pre \/
  (length pre < n)%nat /\ take n (pre ++ u :: post) = pre ++ u :: take (n - length pre - 1) post.
Proof.
  destruct (decide (n <= length pre)%nat) as [H|H].
  - left. split; [done|]. by rewrite take_app_le.
  - right. split; [lia|]. rewrite take_app_ge by lia. f_equal. by destruct (n - length pre)%nat eqn:E; [lia|]; simpl; rewrite Nat.sub_0_r.
Qed.

(** C21 -- Committing a transaction tree is atomic for those who read the log: the pages
    are updated one after the other, but there is one update before which
    [TransactionIdDidCommit] denies the commit of every member of the tree and after
    which it affirms it for every member, whichever pages they are on; no page is
    missing and the recursion through [pg_subtrans] ends. *)
Theorem commit_tree_atomic r lsn entry xmin xid subs depth c :
  clog_ok c -> xact_tree entry xmin xid subs depth -> NoDup (xid :: subs) ->
  (forall y, y ∈ xid :: subs -> is_Some (c !! TransactionIdToPage y)) ->
  status_of c xid = Some TRANSACTION_STATUS_IN_PROGRESS ->
  (forall y, y ∈ subs -> exists st, status_of c y = Some st /\ unfinished st) ->
  exists j, (1 <= j <= length (tree_updates xid subs TRANSACTION_STATUS_COMMITTED))%nat /\
  forall n, exists c',
    run_updates r lsn (take n (tree_updates xid subs TRANSACTION_STATUS_COMMITTED)) c = Some c' /\
    forall y k fuel, y ∈ xid :: subs -> cache_ok k c' -> (depth y < fuel)%nat ->
    exists k', TransactionIdDidCommit entry xmin fuel c' y k = Some ((j <=? n)%nat, k').
Proof.
  intros Hc Ht Hnd Hpages Hx Hs.
  destruct (tree_updates_split xid subs TRANSACTION_STATUS_COMMITTED) as (pre & u & post & Hsplit); [done..|].
  pose proof Hsplit as (Eus & _ & _ & first & rest & _ & _ & Hpre & Hpost & Hu & Hpg & _).
  assert (Hxn : FirstNormalTransactionId <= xid) by (eapply (tree_normal _ _ _ _ _ Ht); by left).
  exists (S (length pre)). rewrite Eus. split; [rewrite length_app; simpl; lia|]. intros n.
  destruct (run_updates_spec r lsn (take n (pre ++ u :: post)) c) as (c' & Erun & Hc' & _ & Hst'); [done| |].
  { intros v Hv%in_take. destruct (Hpg v Hv) as (z & Hz & ->). split; [|by apply Hpages].
    apply elem_of_app in Hv as [Hv|[->|Hv]%elem_of_cons]; [by apply Hpre|done|by apply Hpost]. }
  exists c'. split; [done|]. intros y k fuel Hy Hk Hd.
  destruct (prefix_cases n pre u post) as [[Hn E]|[Hn E]]; rewrite E in Hst'.
  - destruct (did_commit_tree entry xmin xid subs depth c' false Ht) with (fuel := fuel) (y := y) (k := k)
      as (k' & Ek & _); [| |done..|exists k'; rewrite Ek; by rewrite (proj2 (Nat.leb_gt _ _)) by lia].
    + rewrite Hst', Hx. simpl. f_equal. by eapply status_before; [|done..|left|left].
    + intros z Hz. destruct (Hs z Hz) as (st & Est & Hun). rewrite Hst', Est. simpl.
      destruct (status_before r xid subs pre post u Hsplit Hnd n z st) as [[->| ->] _]; [by right|done|by right|by left].
  - destruct (did_commit_tree entry xmin xid subs depth c' true Ht) with (fuel := fuel) (y := y) (k := k)
      as (k' & Ek & _); [| |done..|exists k'; rewrite Ek; by rewrite (proj2 (Nat.leb_le _ _)) by lia].
    + rewrite Hst', Hx. simpl. f_equal. by eapply status_once; [|done..|left|left|].
    + intros z Hz. destruct (Hs z Hz) as (st & Est & Hun). rewrite Hst', Est. simpl.
      destruct (status_once r xid subs pre post u Hsplit Hnd Hxn (n - length pre - 1) z st) as [_ [->| ->]];
        [by right|done|by right|by left].
Qed.

(** ** The cache stays right *)

(** Updates that leave finished transactions as they are, as the assertion of
    [TransactionIdSetStatusBit] demands. *)
Definition respects_final (r : bool) (c : clog) (us : list page_update) : Prop :=
  forall y st u, status_of c y = Some st -> final st -> u ∈ us -> y ∈ members u -> new_status r (pu_status u) st = st.

Lemma respected_status r c us y st :
  respects_final r c us -> status_of c y = Some st -> final st -> status_after r us y st = st.
Proof.
  intros Hr Hst Hf. assert (Hus : forall u, u ∈ us -> y ∈ members u -> new_status r (pu_status u) st = st) by eauto.
  clear Hr. induction us as [|u us IH]; [done|]. change (u :: us) with ([u] ++ us).
  rewrite status_after_app, status_after_one. destruct (decide (y ∈ members u)); [rewrite Hus by (done || by left)|];
    apply IH; intros v Hv; apply Hus; by right.
Qed.

(** The one-entry cache of [TransactionLogFetch] never gives a stale answer: whatever
    updates other processes have made since the entry was stored, as long as finished
    transactions keep their status, the cached fetch agrees with the log, and the cache
    it leaves is again right. *)
Theorem fetch_cache_coherent r lsn us c k x :
  clog_ok c -> updates_ok c us -> respects_final r c us -> cache_ok k c ->
  FirstNormalTransactionId <= x -> is_Some (c !! TransactionIdToPage x) ->
  exists c' st k', run_updates r lsn us c = Some c' /\ fst <$> TransactionIdGetStatus x c' = Some st /\
    TransactionLogFetch c' x k = Some (st, k') /\ cache_ok k' c'.
Proof.
  intros Hc Hus Hr Hk Hx Hp. destruct (run_updates_spec r lsn us c Hc Hus) as (c' & Erun & Hc' & Hd & Hst).
  assert (Hk' : cache_ok k c').
  { destruct Hk as [|(Hn & Hf & Hs)]; [by left|right]. split; [done|]. split; [done|].
    rewrite Hst, Hs. simpl. f_equal. by eapply respected_status. }
  assert (is_Some (c' !! TransactionIdToPage x)) as [p Hp'].
  { apply elem_of_dom. rewrite Hd. by apply elem_of_dom. }
  destruct (fetch_spec c' x k (page_status x p)) as (k' & E & Hk''); [done|done|unfold status_of; by rewrite Hp'|].
  exists c', (page_status x p), k'. split; [done|]. split; [|done]. unfold TransactionIdGetStatus. by rewrite Hp'.
Qed.

(** No transaction is reported both committed and aborted: on the same log and
    with the same cache, [TransactionIdDidCommit] and [TransactionIdDidAbort] never
    both answer true. *)
Theorem commit_abort_exclusive entry xmin fuel c x k k1 k2 a b :
  TransactionIdDidCommit entry xmin fuel c x k = Some (a, k1) ->
  TransactionIdDidAbort entry xmin fuel c x k = Some (b, k2) -> a && b = false.
Proof.
  revert x k. induction fuel as [|fuel IH]; intros x k; [done|]. cbn [TransactionIdDidCommit TransactionIdDidAbort].
  destruct (TransactionLogFetch c x k) as [[st k0]|]; [|done]. cbn [mbind option_bind].
  destruct (Z.eqb_spec st TRANSACTION_STATUS_COMMITTED) as [->|_].
  { intros [= <- _]. change (_ =? TRANSACTION_STATUS_ABORTED) with false.
    change (_ =? TRANSACTION_STATUS_SUB_COMMITTED) with false. by intros [= <- _]. }
  destruct (Z.eqb_spec st TRANSACTION_STATUS_ABORTED) as [->|_].
  { change (_ =? TRANSACTION_STATUS_SUB_COMMITTED) with false. by intros [= <- _]. }
  destruct (st =? TRANSACTION_STATUS_SUB_COMMITTED); [|by intros [= <- _]].
  destruct (TransactionIdPrecedes x xmin); [by intros [= <- _]|].
  destruct (negb _); [by intros [= <- _]|]. apply IH.
Qed.

(** ** Asynchronous commits *)

Definition lsn_of (x : TransactionId) (p : clog_page) : Z := default 0 (page_lsn p !! Z.to_nat (GetLSNIndex x)).

Lemma set_group_lsn_spec x y lsn l :
  Z.of_nat (length l) = CLOG_LSNS_PER_PAGE ->
  default 0 (l !! Z.to_nat (GetLSNIndex y)) <= default 0 (set_group_lsn x lsn l !! Z.to_nat (GetLSNIndex y)) /\
  (0 < lsn -> lsn <= default 0 (set_group_lsn x lsn l !! Z.to_nat (GetLSNIndex x))).
Proof.
  intros Hl. unfold set_group_lsn. pose proof (group_in_page x). pose proof (group_in_page y).
  destruct (Z.eqb_spec lsn InvalidXLogRecPtr) as [->|Hne]; simpl; [split; [lia|done]|].
  destruct (Z.ltb_spec (default 0 (l !! Z.to_nat (GetLSNIndex x))) lsn); [|split; lia]. split.
  - destruct (decide (GetLSNIndex x = GetLSNIndex y)) as [Hd|Hd].
    + rewrite <- Hd, list_lookup_insert_eq by lia. simpl. lia.
    + rewrite list_lookup_insert_ne by lia. lia.
  - rewrite list_lookup_insert_eq by lia. simpl. lia.
Qed.

Lemma set_bit_lsn x y st lsn p :
  page_ok p -> lsn_of y p <= lsn_of y (TransactionIdSetStatusBit false x st lsn p) /\
  (0 < lsn -> lsn <= lsn_of x (TransactionIdSetStatusBit false x st lsn p)).
Proof. intros [_ H]. by apply set_group_lsn_spec. Qed.

Lemma set_bits_lsn xs y st lsn p :
  page_ok p -> lsn_of y p <= lsn_of y (set_bits false xs st lsn p) /\
  (0 < lsn -> y ∈ xs -> lsn <= lsn_of y (set_bits false xs st lsn p)).
Proof.
  revert p. induction xs as [|x xs IH]; intros p Hp.
  - split; [done|]. intros _ Hy. by apply elem_of_nil in Hy.
  - change (set_bits false (x :: xs) st lsn p) with (set_bits false xs st lsn (TransactionIdSetStatusBit false x st lsn p)).
    destruct (set_bit_lsn x y st lsn p Hp) as [H1 _]. destruct (IH _ (set_bit_ok false x st lsn p Hp)) as [H3 H4].
    split; [lia|]. intros Hl [->|Hy]%elem_of_cons; [|by apply H4].
    destruct (set_bit_lsn x x st lsn p Hp) as [_ H2]. specialize (H2 Hl). lia.
Qed.

Lemma update_page_lsn lsn u p y :
  page_ok p -> lsn_of y p <= lsn_of y (update_page false lsn u p) /\
  (0 < lsn -> y ∈ members u -> lsn <= lsn_of y (update_page false lsn u p)).
Proof.
  intros Hp. unfold update_page, members. destruct (TransactionIdIsValid (pu_xid u)); [|by apply set_bits_lsn].
  set (p1 := if _ =? _ then _ else _).
  assert (Hp1 : page_ok p1 /\ lsn_of y p <= lsn_of y p1).
  { unfold p1. destruct (_ =? _); [|done]. split; [by apply set_bits_ok|by apply set_bits_lsn]. }
  destruct Hp1 as [Hp1 H1]. destruct (set_bit_lsn (pu_xid u) y (pu_status u) lsn p1 Hp1) as [H2 _].
  destruct (set_bit_lsn (pu_xid u) (pu_xid u) (pu_status u) lsn p1 Hp1) as [_ H2'].
  destruct (set_bits_lsn (pu_subxids u) y (pu_status u) lsn (TransactionIdSetStatusBit false (pu_xid u) (pu_status u) lsn p1))
    as [H3 H4]; [by apply set_bit_ok|]. split; [lia|]. intros Hl [->%list_elem_of_singleton|Hy]%elem_of_app; [|by apply H4].
  specialize (H2' Hl). lia.
Qed.

Definition log_lsn (c : clog) (y : TransactionId) : option Z := lsn_of y <$> c !! TransactionIdToPage y.

Lemma run_updates_lsn lsn us c c' y l :
  clog_ok c -> updates_ok c us -> run_updates false lsn us c = Some c' -> log_lsn c y = Some l ->
  exists l', log_lsn c' y = Some l' /\ l <= l' /\ (0 < lsn -> (exists u, u ∈ us /\ y ∈ members u) -> lsn <= l').
Proof.
  revert c l. induction us as [|u us IH]; intros c l Hc Hus Hrun Hl; simpl in Hrun.
  - injection Hrun as <-. exists l. split; [done|]. split; [done|]. intros _ (u & Hu & _). by apply elem_of_nil in Hu.
  - destruct (Hus u) as [Hu Hp]; [by left|]. destruct (page_step false lsn u c Hc Hu Hp) as (c1 & E1 & Hc1 & Hd1 & _).
    rewrite E1 in Hrun. simpl in Hrun. unfold TransactionIdSetPageStatusInternal in E1. destruct Hp as [p Hp].
    rewrite Hp in E1. simpl in E1. injection E1 as <-.
    assert (exists l1, log_lsn (<[pu_pageno u := update_page false lsn u p]> c) y = Some l1 /\ l <= l1 /\
              (0 < lsn -> y ∈ members u -> lsn <= l1)) as (l1 & Hl1 & Hle & Hm).
    { unfold log_lsn in *. destruct (decide (TransactionIdToPage y = pu_pageno u)) as [E|E].
      - rewrite E, Hp in Hl. injection Hl as <-. rewrite E, lookup_insert_eq. eexists. split; [done|].
        apply update_page_lsn. by eapply Hc.
      - rewrite lookup_insert_ne by done. exists l. split; [done|]. split; [done|]. intros _ Hy. by apply Hu in Hy. }
    destruct (IH _ l1 Hc1) as (l2 & Hl2 & Hle2 & Hm2); [|done..|].
    { intros v Hv. destruct (Hus v) as [? Hv2]; [by right|]. split; [done|].
      apply elem_of_dom. rewrite Hd1. by apply elem_of_dom. }
    exists l2. split; [done|]. split; [lia|]. intros Hpos (v & [->|Hv]%elem_of_cons & Hy); [specialize (Hm Hpos Hy); lia|].
    apply Hm2; [done|]. by exists v.
Qed.

(** Every update of a tree is on a page of one of its members, and every member is written. *)
Lemma tree_updates_ok c xid subs st :
  0 <= st < 4 -> st <> TRANSACTION_STATUS_SUB_COMMITTED ->
  (forall y, y ∈ xid :: subs -> is_Some (c !! TransactionIdToPage y)) ->
  updates_ok c (tree_updates xid subs st).
Proof.
  intros Hst Hns Hpages. destruct (tree_updates_split xid subs st Hst Hns) as (pre & u & post & Hsplit).
  destruct Hsplit as (-> & _ & _ & first & rest & _ & _ & Hpre & Hpost & Hu & Hpg & _).
  intros v Hv. destruct (Hpg v Hv) as (z & Hz & ->). split; [|by apply Hpages].
  apply elem_of_app in Hv as [Hv|[->|Hv]%elem_of_cons]; [by apply Hpre|done|by apply Hpost].
Qed.

Lemma tree_updates_cover xid subs st y :
  0 <= st < 4 -> st <> TRANSACTION_STATUS_SUB_COMMITTED -> FirstNormalTransactionId <= xid -> y ∈ xid :: subs ->
  exists u, u ∈ tree_updates xid subs st /\ y ∈ members u.
Proof.
  intros Hst Hns Hn Hy. destruct (tree_updates_split xid subs st Hst Hns) as (pre & u & post & Hsplit).
  destruct Hsplit as (-> & Ex & _ & first & rest & -> & Ef & _ & _ & _ & _ & Hrest & _).
  assert (Hm : y = xid \/ y ∈ first -> exists v, v ∈ pre ++ u :: post /\ y ∈ members v).
  { intros H. exists u. split; [apply elem_of_app; right; by left|]. unfold members.
    rewrite Ex, valid_of_normal, elem_of_app, Ef, list_elem_of_singleton by done. done. }
  apply elem_of_cons in Hy as [->|[Hy|Hy]%elem_of_app]; [auto..|]. apply Hrest in Hy as (v & Hv & Hy).
  exists v. split; [apply elem_of_app; right; by right|done].
Qed.

(** Every member of the tree ends with the status. *)
Lemma tree_final r xid subs st y s0 :
  0 <= st < 4 -> st <> TRANSACTION_STATUS_SUB_COMMITTED -> FirstNormalTransactionId <= xid -> y ∈ xid :: subs ->
  status_after r (tree_updates xid subs st) y s0 = st.
Proof.
  intros Hst Hns Hn Hy. destruct (tree_updates_split xid subs st Hst Hns) as (pre & u & post & Hsplit).
  destruct Hsplit as (-> & Ex & Est & first & rest & -> & Ef & _ & Hpost & _ & _ & Hrest & _).
  rewrite status_after_app. change (u :: post) with ([u] ++ post). rewrite status_after_app, status_after_one, Est.
  assert (Hu : forall v, v ∈ post -> pu_status v = st) by (intros v Hv; by apply Hpost).
  destruct (decide (y ∈ rest)) as [Hr|Hr].
  - destruct (status_after_uniform r post y st
      (if decide (y ∈ members u) then new_status r st (status_after r pre y s0) else status_after r pre y s0) Hu) as (_ & -> & _);
      [by apply new_status_final|by apply Hrest].
  - rewrite decide_True.
    + rewrite new_status_final by done. destruct (status_after_uniform r post y st st Hu) as ([->| ->] & _); [done|].
      by apply new_status_final.
    + unfold members. rewrite Ex, valid_of_normal, elem_of_app, Ef, list_elem_of_singleton by done.
      apply elem_of_cons in Hy as [->|[Hy|Hy]%elem_of_app]; [by left|by right|done].
Qed.

Lemma get_status_split c y st l :
  TransactionIdGetStatus y c = Some (st, l) <-> status_of c y = Some st /\ log_lsn c y = Some l.
Proof.
  unfold TransactionIdGetStatus, status_of, log_lsn. destruct (c !! TransactionIdToPage y) as [p|]; simpl; [|by split; [|intros []]].
  split; [by intros [= <- <-]|by intros [[= <-] [= <-]]].
Qed.

(** The log keeps hint bits from reaching the disk too early: after an asynchronous
    commit at [lsn] the LSN that [TransactionIdGetStatus] reports for any member of the
    tree is at least [lsn], so that flushing up to it makes the commit durable; it
    never goes back for any transaction, and every member is committed. *)
Theorem async_commit_lsn lsn xid subs c :
  clog_ok c -> 0 < lsn -> FirstNormalTransactionId <= xid ->
  (forall y, y ∈ xid :: subs -> is_Some (c !! TransactionIdToPage y)) ->
  exists c', TransactionIdAsyncCommitTree false xid subs lsn c = Some c' /\
    (forall y, y ∈ xid :: subs -> exists l, TransactionIdGetStatus y c' = Some (TRANSACTION_STATUS_COMMITTED, l) /\ lsn <= l) /\
    (forall y st l, TransactionIdGetStatus y c = Some (st, l) ->
       exists st' l', TransactionIdGetStatus y c' = Some (st', l') /\ l <= l').
Proof.
  intros Hc Hpos Hn Hpages. unfold TransactionIdAsyncCommitTree, TransactionIdSetTreeStatus.
  pose proof (tree_updates_ok c xid subs TRANSACTION_STATUS_COMMITTED ltac:(done) ltac:(done) Hpages) as Hus.
  destruct (run_updates_spec false lsn _ c Hc Hus) as (c' & Erun & Hc' & _ & Hst). exists c'. split; [done|].
  assert (Hpg : forall y, y ∈ xid :: subs -> exists st l, status_of c y = Some st /\ log_lsn c y = Some l).
  { intros y Hy. destruct (Hpages y Hy) as [p Hp]. unfold status_of, log_lsn. rewrite Hp. simpl. eauto. }
  split.
  - intros y Hy. destruct (Hpg y Hy) as (st & l & Est & El).
    destruct (run_updates_lsn lsn _ c c' y l Hc Hus Erun El) as (l' & El' & _ & Hle). exists l'.
    split; [|by apply Hle, tree_updates_cover]. apply get_status_split. split; [|done].
    rewrite Hst, Est. simpl. f_equal. by apply tree_final.
  - intros y st l [Est El]%get_status_split.
    destruct (run_updates_lsn lsn _ c c' y l Hc Hus Erun El) as (l' & El' & Hle & _).
    eexists _, l'. split; [|done]. apply get_status_split. split; [|done]. by rewrite Hst, Est.
Qed.

Lemma tree_updates_members xid subs st y u :
  0 <= st < 4 -> st <> TRANSACTION_STATUS_SUB_COMMITTED -> u ∈ tree_updates xid subs st -> y ∈ members u -> y ∈ xid :: subs.
Proof.
  intros Hst Hns. destruct (tree_updates_split xid subs st Hst Hns) as (pre & v & post & Hsplit).
  destruct Hsplit as (-> & Ex & _ & first & rest & -> & Ef & _ & _ & _ & _ & Hpost & Hpre & Hnil).
  assert (Hr : y ∈ rest -> y ∈ xid :: first ++ rest) by (intros H; right; apply elem_of_app; by right).
  intros [Hu|[->|Hu]%elem_of_cons]%elem_of_app Hy; [| |apply Hr, Hpost; by exists u].
  - destruct (decide (st = TRANSACTION_STATUS_COMMITTED)) as [E|E]; [apply Hr, (Hpre E); by exists u|].
    rewrite (Hnil E) in Hu. by apply elem_of_nil in Hu.
  - unfold members in Hy. rewrite Ex, Ef in Hy. apply elem_of_app in Hy as [Hy|Hy].
    + destruct (TransactionIdIsValid xid); [|by apply elem_of_nil in Hy]. apply list_elem_of_singleton in Hy as ->. by left.
    + right. apply elem_of_app. by left.
Qed.

Lemma status_untouched r us y st : (forall u, u ∈ us -> y ∉ members u) -> status_after r us y st = st.
Proof.
  intros H. induction us as [|u us IH]; [done|]. change (u :: us) with ([u] ++ us).
  rewrite status_after_app, status_after_one, decide_False by (apply H; by left). apply IH. intros v Hv. apply H. by right.
Qed.

(** C32 -- [TransactionIdSetTreeStatus] writes exactly the tree: with every page present it
    succeeds, afterwards [TransactionIdGetStatus] gives the new status for the
    transaction and its subtransactions and the old one for all others, among
    them the neighbours in the same byte. *)
Theorem set_tree_status_exact r xid subs st lsn c :
  clog_ok c -> st = TRANSACTION_STATUS_COMMITTED \/ st = TRANSACTION_STATUS_ABORTED ->
  FirstNormalTransactionId <= xid ->
  (forall y, y ∈ xid :: subs -> is_Some (c !! TransactionIdToPage y)) ->
  exists c', TransactionIdSetTreeStatus r xid subs st lsn c = Some c' /\
    forall y, fst <$> TransactionIdGetStatus y c' =
      if decide (y ∈ xid :: subs) then Some st else fst <$> TransactionIdGetStatus y c.
Proof.
  intros Hc Hst Hn Hpages.
  assert (0 <= st < 4 /\ st <> TRANSACTION_STATUS_SUB_COMMITTED) as [Hr Hns] by (by destruct Hst as [->| ->]).
  pose proof (tree_updates_ok c xid subs st Hr Hns Hpages) as Hus. unfold TransactionIdSetTreeStatus.
  destruct (run_updates_spec r lsn _ c Hc Hus) as (c' & Erun & Hc' & _ & Hs). exists c'. split; [done|]. intros y.
  assert (Hget : forall d, fst <$> TransactionIdGetStatus y d = status_of d y).
  { intros d. unfold TransactionIdGetStatus, status_of. by destruct (d !! TransactionIdToPage y). }
  rewrite !Hget, Hs. destruct (decide (y ∈ xid :: subs)) as [Hy|Hy].
  - destruct (Hpages y Hy) as [p Hp]. unfold status_of. rewrite Hp. simpl. f_equal. by apply tree_final.
  - destruct (status_of c y); [simpl; f_equal|done]. apply status_untouched. intros u Hu Hin.
    by eapply Hy, tree_updates_members.
Qed.

(** ** Example: a tree over two pages

    32765 with the children 32766 (same page) and 32768, whose child is 32769 (both on
    the next page). *)
Module ClogExample.

Definition blank_page : clog_page := {| page_buffer := replicate (Z.to_nat BLCKSZ) 0; page_lsn := replicate (Z.to_nat CLOG_LSNS_PER_PAGE) 0 |}.
Definition log : clog := {[0 := blank_page; 1 := blank_page]}.
Definition top : TransactionId := 32765.
Definition children : list TransactionId := [32766; 32768; 32769].
Definition parent (x : TransactionId) : TransactionId :=
  if x =? 32766 then 32765 else if x =? 32768 then 32765 else if x =? 32769 then 32768 else 0.
Definition level (x : TransactionId) : nat := if x =? 32765 then 0 else if x =? 32769 then 2 else 1.

Lemma log_ok : clog_ok log.
Proof.
  assert (page_ok blank_page) by (by split; cbn [page_buffer page_lsn blank_page]; rewrite length_replicate, Z2Nat.id).
  apply map_Forall_insert_2; [done|]. apply map_Forall_singleton. done.
Qed.

Lemma members_cases (P : TransactionId -> Prop) :
  P 32765 -> P 32766 -> P 32768 -> P 32769 -> forall y, y ∈ top :: children -> P y.
Proof. intros H1 H2 H3 H4 y [->|[->|[->|[->|H]%elem_of_cons]%elem_of_cons]%elem_of_cons]%elem_of_cons; try done. by apply elem_of_nil in H. Qed.

Lemma tree_ok : xact_tree parent 3 top children level.
Proof.
  split.
  - apply members_cases; vm_compute; congruence.
  - intros y Hy. revert y Hy. intros y [->|[->|[->|H]%elem_of_cons]%elem_of_cons]%elem_of_cons; [reflexivity..|].
    by apply elem_of_nil in H.
  - intros y [->|[->|[->|H]%elem_of_cons]%elem_of_cons]%elem_of_cons; [..|by apply elem_of_nil in H];
      (split; [apply list_elem_of_In; vm_compute; tauto|vm_compute; lia]).
Qed.

Lemma pages_there y : y ∈ top :: children -> is_Some (log !! TransactionIdToPage y).
Proof. revert y. apply members_cases; by eexists. Qed.

Lemma commit_tree_atomic_witness :
  exists j, (1 <= j <= 3)%nat /\
  forall n, exists c', run_updates false 0 (take n (tree_updates top children TRANSACTION_STATUS_COMMITTED)) log = Some c' /\
    forall y k fuel, y ∈ top :: children -> cache_ok k c' -> (level y < fuel)%nat ->
    exists k', TransactionIdDidCommit parent 3 fuel c' y k = Some ((j <=? n)%nat, k').
Proof.
  apply (commit_tree_atomic false 0 parent 3 top children level log);
    [apply log_ok|apply tree_ok|apply (bool_decide_unpack (NoDup (top :: children))); reflexivity|apply pages_there|reflexivity|].
  intros y Hy. exists TRANSACTION_STATUS_IN_PROGRESS. split; [|by left]. revert y Hy.
  intros y [->|[->|[->|H]%elem_of_cons]%elem_of_cons]%elem_of_cons; [reflexivity..|by apply elem_of_nil in H].
Defined.

Lemma fetch_cache_coherent_witness :
  exists c' st k', run_updates false 0 (tree_updates top children TRANSACTION_STATUS_ABORTED) log = Some c' /\
    fst <$> TransactionIdGetStatus 32768 c' = Some st /\
    TransactionLogFetch c' 32768 no_cache = Some (st, k') /\ cache_ok k' c'.
Proof.
  apply (fetch_cache_coherent false 0 (tree_updates top children TRANSACTION_STATUS_ABORTED) log no_cache 32768);
    [apply log_ok|apply tree_updates_ok; [done|done|apply pages_there]| |by left|by vm_compute|by eexists].
  intros y st u Hs Hf Hu Hy. apply (tree_updates_members top children TRANSACTION_STATUS_ABORTED) in Hy; [|done..]. revert y Hy Hs.
  apply (members_cases (fun y => status_of log y = Some st -> new_status false (pu_status u) st = st));
    intros Hs; vm_compute in Hs; injection Hs as <-; destruct Hf; discriminate.
Defined.


Lemma async_commit_lsn_witness :
  exists c', TransactionIdAsyncCommitTree false top children 77 log = Some c' /\
    (forall y, y ∈ top :: children ->
       exists l, TransactionIdGetStatus y c' = Some (TRANSACTION_STATUS_COMMITTED, l) /\ 77 <= l) /\
    (forall y st l, TransactionIdGetStatus y log = Some (st, l) ->
       exists st' l', TransactionIdGetStatus y c' = Some (st', l') /\ l <= l').
Proof. apply (async_commit_lsn 77 top children log); [apply log_ok|lia|by vm_compute|apply pages_there]. Defined.

Lemma set_tree_status_exact_witness :
  exists c', TransactionIdSetTreeStatus false top children TRANSACTION_STATUS_ABORTED 0 log = Some c' /\
    forall y, fst <$> TransactionIdGetStatus y c' =
      if decide (y ∈ top :: children) then Some TRANSACTION_STATUS_ABORTED else fst <$> TransactionIdGetStatus y log.
Proof.
  apply (set_tree_status_exact false top children TRANSACTION_STATUS_ABORTED 0 log);
    [apply log_ok|by right|by vm_compute|apply pages_there].
Defined.

End ClogExample.
