(* ===== verification/Subtrans.v ===== *)
(** * New pages of the transaction logs, and the pages of [pg_subtrans]

    [src/postgresql/src/backend/access/transam/subtrans.c] keeps the parent of every
    subtransaction, one 32-bit entry for each id.  Like [clog.c] it extends its log by a zeroed
    page when the first id of the page is assigned; between 2^32 - 1 and the first normal id
    the numbering of the pages starts again.  Here are the two extensions and the entries, with
    what they do to the ids of one window: no id in use loses its state. *)
From S2P Require Import Prelude TransactionId ItemPtr HeapTuple Snapshot Clog.
Local Open Scope Z_scope.

(** ** [pg_subtrans] *)

Module SubTrans.

Definition SUBTRANS_XACTS_PER_PAGE : Z := BLCKSZ / 4.
Definition TransactionIdToPage (xid : TransactionId) : Z := xid / SUBTRANS_XACTS_PER_PAGE.
Definition TransactionIdToEntry (xid : TransactionId) : Z := xid mod SUBTRANS_XACTS_PER_PAGE.

(** The pages by number, each an array of parents. *)
Abbreviation subtrans := (gmap Z (list TransactionId)).

Definition zero_page : list TransactionId := replicate (Z.to_nat SUBTRANS_XACTS_PER_PAGE) InvalidTransactionId.

(** [None] when the page cannot be read. *)
Definition SubTransSetParent (xid parent : TransactionId) (s : subtrans) : option subtrans :=
  p ← s !! TransactionIdToPage xid;
  let i := Z.to_nat (TransactionIdToEntry xid) in
  Some (if negb (default InvalidTransactionId (p !! i) =? parent) then <[TransactionIdToPage xid := <[i := parent]> p]> s else s).

(** What [SubTransGetParent] reads; a page that cannot be read holds nothing. *)
Definition entry (s : subtrans) (xid : TransactionId) : TransactionId :=
  default InvalidTransactionId (s !! TransactionIdToPage xid ≫= (fun p => p !! Z.to_nat (TransactionIdToEntry xid))).

Definition ExtendSUBTRANS (newestXact : TransactionId) (s : subtrans) : subtrans :=
  if negb (TransactionIdToEntry newestXact =? 0) && negb (TransactionIdEquals newestXact FirstNormalTransactionId) then s
  else <[TransactionIdToPage newestXact := zero_page]> s.
End SubTrans.

(** ** The commit log *)

Definition zero_clog_page : clog_page :=
  {| page_buffer := replicate (Z.to_nat BLCKSZ) 0; page_lsn := replicate (Z.to_nat CLOG_LSNS_PER_PAGE) InvalidXLogRecPtr |}.

Definition ZeroCLOGPage (pageno : Z) (c : clog) : clog := <[pageno := zero_clog_page]> c.

Definition ExtendCLOG (newestXact : TransactionId) (c : clog) : clog :=
  if negb (TransactionIdToPgIndex newestXact =? 0) && negb (TransactionIdEquals newestXact FirstNormalTransactionId) then c
  else ZeroCLOGPage (TransactionIdToPage newestXact) c.

(** ** Pages of ids *)

(** With [n] ids to a page, [x] is the first id that is assigned on its page. *)
Definition first_on_page (n x : Z) : Prop := x mod n = 0 \/ x = FirstNormalTransactionId.

(** The id [x] is one of those before [v]; [v] is the first on its page; so they are on different pages. *)
Lemma first_on_page_fresh n lo x v :
  FirstNormalTransactionId < n -> n <= 2 ^ 31 -> in_window lo x -> in_window lo v -> x < v ->
  first_on_page n (u32 v) -> u32 x / n <> u32 v / n.
Proof.
  intros H3 Hn [Hx Hxn] [Hv Hvn] Hlt Hf E. unfold first_on_page, FirstNormalTransactionId in *.
  assert (Hge : u32 v <= u32 x).
  { destruct Hf as [Hf|Hf]; [|lia]. pose proof (Z.div_mod (u32 v) n ltac:(lia)). pose proof (Z.div_mod (u32 x) n ltac:(lia)).
    pose proof (Z.mod_pos_bound (u32 x) n ltac:(lia)). rewrite E in *. lia. }
  assert (Hle : u32 x - u32 v < n).
  { pose proof (Z.div_mod (u32 v) n ltac:(lia)). pose proof (Z.div_mod (u32 x) n ltac:(lia)).
    pose proof (Z.mod_pos_bound (u32 x) n ltac:(lia)). pose proof (Z.mod_pos_bound (u32 v) n ltac:(lia)). rewrite E in *. lia. }
  unfold u32, wrap in *. Z.div_mod_to_equations. lia.
Qed.

Section extension.
(** A log with [n] ids to a page, what it holds for an id, and its extension by pages full of [z]. *)
Context {L A : Type} (n : Z) (look : L -> TransactionId -> option A) (z : A) (extend : TransactionId -> L -> L).
Context (Hn : FirstNormalTransactionId < n <= 2 ^ 31) (lo : Z).
Context (Hsame : forall v l, ~ first_on_page n v -> extend v l = l).
Context (Hzero : forall v l x, first_on_page n v ->
  look (extend v l) x = if decide (x / n = v / n) then Some z else look l x).

(** From the id [v] on, the page of [v] is in the log and clean, unless [v] starts the page. *)
Definition clean_from (v : Z) (l : L) : Prop :=
  ~ first_on_page n (u32 v) -> forall x, in_window lo x -> v <= x -> u32 x / n = u32 v / n -> look l (u32 x) = Some z.

Lemma first_on_page_dec x : first_on_page n x \/ ~ first_on_page n x.
Proof. unfold first_on_page, FirstNormalTransactionId. lia. Qed.

(** Extending the log for the next id leaves the ids before it alone. *)
Lemma extend_keeps v x l : in_window lo x -> in_window lo v -> x < v -> look (extend (u32 v) l) (u32 x) = look l (u32 x).
Proof.
  intros Hx Hv Hlt. destruct (first_on_page_dec (u32 v)) as [Hf|Hf]; [|by rewrite Hsame].
  rewrite Hzero by done. rewrite decide_False; [done|]. eapply (first_on_page_fresh n lo); (done || apply Hn).
Qed.

Lemma extend_new v x l :
  clean_from v l -> in_window lo x -> v <= x -> u32 x / n = u32 v / n -> look (extend (u32 v) l) (u32 x) = Some z.
Proof.
  intros Hc Hx Hle Hp. destruct (first_on_page_dec (u32 v)) as [Hf|Hf]; [|rewrite Hsame by done; by apply Hc].
  by rewrite Hzero, decide_True by done.
Qed.

Lemma extend_clean v w l :
  clean_from v l -> v < w -> u32 w = u32 v + 1 \/ u32 w = FirstNormalTransactionId -> clean_from w (extend (u32 v) l).
Proof.
  intros Hc Hlt Hw Hf x Hx Hle Hp. apply extend_new; [done|done|lia|]. rewrite Hp.
  unfold first_on_page in Hf. destruct Hw as [Hw|Hw]; [|tauto]. rewrite Hw in *. clear Hp Hx Hle Hc Hlt.
  pose proof (Z.div_mod (u32 v) n ltac:(unfold FirstNormalTransactionId in *; lia)).
  pose proof (Z.div_mod (u32 v + 1) n ltac:(unfold FirstNormalTransactionId in *; lia)).
  pose proof (Z.mod_pos_bound (u32 v) n ltac:(unfold FirstNormalTransactionId in *; lia)).
  pose proof (Z.mod_pos_bound (u32 v + 1) n ltac:(unfold FirstNormalTransactionId in *; lia)). nia.
Qed.
End extension.

(** ** The two logs *)

Lemma zero_page_status x : page_status x zero_clog_page = TRANSACTION_STATUS_IN_PROGRESS.
Proof.
  unfold page_status, page_byte, zero_clog_page. cbn [page_buffer].
  destruct (replicate (Z.to_nat BLCKSZ) 0 !! Z.to_nat (TransactionIdToByte x)) as [b|] eqn:E; simpl.
  - apply lookup_replicate in E as [-> _]. by rewrite Z.shiftr_0_l.
  - by rewrite Z.shiftr_0_l.
Qed.

Lemma zero_page_ok : page_ok zero_clog_page.
Proof. split; cbn [zero_clog_page page_buffer page_lsn]; by rewrite length_replicate. Qed.

Lemma extend_clog_ok v c : clog_ok c -> clog_ok (ExtendCLOG v c).
Proof.
  intros Hc. unfold ExtendCLOG, ZeroCLOGPage. destruct (_ && _); [done|].
  apply map_Forall_insert_2; [apply zero_page_ok|done].
Qed.

Lemma first_on_page_test n (v : Z) :
  (negb (v mod n =? 0) && negb (TransactionIdEquals v FirstNormalTransactionId) = true <-> ~ first_on_page n v).
Proof.
  unfold first_on_page, TransactionIdEquals. rewrite andb_true_iff, !negb_true_iff, !Z.eqb_neq. tauto.
Qed.

Lemma extend_clog_same v c : ~ first_on_page CLOG_XACTS_PER_PAGE v -> ExtendCLOG v c = c.
Proof. intros H. unfold ExtendCLOG, TransactionIdToPgIndex. by rewrite (proj2 (first_on_page_test _ v) H). Qed.

Lemma extend_clog_zero v c x :
  first_on_page CLOG_XACTS_PER_PAGE v ->
  status_of (ExtendCLOG v c) x =
  if decide (x / CLOG_XACTS_PER_PAGE = v / CLOG_XACTS_PER_PAGE) then Some TRANSACTION_STATUS_IN_PROGRESS else status_of c x.
Proof.
  intros Hf. unfold ExtendCLOG, TransactionIdToPgIndex. destruct (negb _ && negb _) eqn:E; [by apply first_on_page_test in E|].
  unfold ZeroCLOGPage, status_of, TransactionIdToPage. destruct (decide _) as [->|Hne].
  - rewrite lookup_insert_eq. simpl. by rewrite zero_page_status.
  - by rewrite lookup_insert_ne.
Qed.

Module SubTransPages.
Import SubTrans.

(** The entry of an id, when its page is there. *)
Definition look (s : subtrans) (x : TransactionId) : option TransactionId :=
  s !! TransactionIdToPage x ≫= (fun p => p !! Z.to_nat (TransactionIdToEntry x)).

Definition pages_ok (s : subtrans) : Prop := map_Forall (fun _ p => Z.of_nat (length p) = SUBTRANS_XACTS_PER_PAGE) s.

Lemma entry_in_page x : 0 <= TransactionIdToEntry x < SUBTRANS_XACTS_PER_PAGE.
Proof. apply Z.mod_pos_bound. done. Qed.

Lemma extend_same v s : ~ first_on_page SUBTRANS_XACTS_PER_PAGE v -> ExtendSUBTRANS v s = s.
Proof. intros H. unfold ExtendSUBTRANS, TransactionIdToEntry. by rewrite (proj2 (first_on_page_test _ v) H). Qed.

Lemma extend_zero v s x :
  first_on_page SUBTRANS_XACTS_PER_PAGE v ->
  look (ExtendSUBTRANS v s) x =
  if decide (x / SUBTRANS_XACTS_PER_PAGE = v / SUBTRANS_XACTS_PER_PAGE) then Some InvalidTransactionId else look s x.
Proof.
  intros Hf. unfold ExtendSUBTRANS, TransactionIdToEntry. destruct (negb _ && negb _) eqn:E; [by apply first_on_page_test in E|].
  unfold look, TransactionIdToPage. destruct (decide _) as [->|Hne]; [|by rewrite lookup_insert_ne].
  rewrite lookup_insert_eq. simpl. apply lookup_replicate. split; [done|]. pose proof (entry_in_page x). lia.
Qed.

Lemma extend_pages_ok v s : pages_ok s -> pages_ok (ExtendSUBTRANS v s).
Proof.
  intros Hs. unfold ExtendSUBTRANS. destruct (_ && _); [done|]. apply map_Forall_insert_2; [|done].
  unfold zero_page. by rewrite length_replicate.
Qed.

(** Recording a parent changes one entry. *)
Lemma set_parent_spec x p s y :
  pages_ok s -> look s x = Some y ->
  exists s', SubTransSetParent x p s = Some s' /\ pages_ok s' /\
    forall w, look s' w = if decide (w = x) then Some p else look s w.
Proof.
  intros Hok Hx. unfold look in Hx. unfold SubTransSetParent.
  destruct (s !! TransactionIdToPage x) as [pg|] eqn:Ep; [|done]. simpl in *. rewrite Hx. simpl.
  pose proof (lookup_lt_Some _ _ _ Hx) as Hlt. eexists. split; [done|].
  destruct (Z.eqb_spec y p) as [->|Hne]; simpl; (split; [|intros w]).
  - done.
  - destruct (decide (w = x)) as [->|]; [|done]. unfold look. by rewrite Ep.
  - apply map_Forall_insert_2; [rewrite length_insert; by eapply Hok|done].
  - unfold look. destruct (decide (TransactionIdToPage w = TransactionIdToPage x)) as [E|E].
    + rewrite E, lookup_insert_eq, Ep. simpl. destruct (decide (w = x)) as [->|Hwx]; [by rewrite list_lookup_insert_eq|].
      rewrite list_lookup_insert_ne; [done|]. intros Ei. apply Hwx.
      pose proof (entry_in_page x). pose proof (entry_in_page w). unfold TransactionIdToPage, TransactionIdToEntry in *.
      assert (x mod SUBTRANS_XACTS_PER_PAGE = w mod SUBTRANS_XACTS_PER_PAGE) by lia.
      rewrite (Z.div_mod x SUBTRANS_XACTS_PER_PAGE), (Z.div_mod w SUBTRANS_XACTS_PER_PAGE) by done. congruence.
    + rewrite lookup_insert_ne by done. destruct (decide (w = x)) as [->|]; [done|done].
Qed.
End SubTransPages.
