(* ===== verification/ProcArray.v ===== *)
(** * The process array

    [src/postgresql/src/backend/storage/ipc/procarray.c]: the array of running
    backends.  The fields every snapshot needs are mirrored in dense arrays that
    are indexed by a process's offset [pgxactoff]; adding and removing a process
    moves the entries behind it.  [GetSnapshotData] collects the running
    transactions from the dense arrays, [TransactionIdIsInProgress] searches
    them, and the end of a transaction clears its entry.

    Every definition here is the work done under [ProcArrayLock] (and
    [XidGenLock] where the code takes it), so one definition is one atomic step. *)
From S2P Require Import Prelude TransactionId ItemPtr HeapTuple Snapshot Varsup.
Local Open Scope Z_scope.

Definition PROC_IN_VACUUM : Z := 0x02.
Definition PROC_IN_SAFE_IC : Z := 0x04.
Definition PROC_VACUUM_FOR_WRAPAROUND : Z := 0x08.
Definition PROC_IN_LOGICAL_DECODING : Z := 0x10.
Definition PROC_VACUUM_STATE_MASK : Z := Z.lor (Z.lor PROC_IN_VACUUM PROC_IN_SAFE_IC) PROC_VACUUM_FOR_WRAPAROUND.

(** ** State *)

(** The fields of a [PGPROC] that the array code uses. *)
Record Proc := {
  p_pid : Z;
  p_xid : TransactionId;
  p_xmin : TransactionId;
  p_lxid : Z;
  p_subxids : list TransactionId;
  p_subxidStatus : XidCacheStatus;
  p_statusFlags : Z;
  p_delayChkptFlags : Z;
  p_recoveryConflictPending : bool;
  p_pgxactoff : nat
}.

(** [ProcArrayStruct] and the arrays of [ProcGlobal]; the lists have the [numProcs] valid entries. *)
Record ProcArrayStruct := {
  pgprocnos : list nat;
  pa_xids : list TransactionId;
  pa_subxidStates : list XidCacheStatus;
  pa_statusFlags : list Z;
  allProcs : list Proc;
  maxProcs : nat;
  pa_vars : TransamVariablesData
}.

Definition numProcs (a : ProcArrayStruct) : nat := length (pgprocnos a).
Definition no_subxids : XidCacheStatus := {| count := 0; overflowed := false |}.

Definition set_pgxactoff (i : nat) (p : Proc) : Proc :=
  {| p_pid := p_pid p; p_xid := p_xid p; p_xmin := p_xmin p; p_lxid := p_lxid p; p_subxids := p_subxids p;
     p_subxidStatus := p_subxidStatus p; p_statusFlags := p_statusFlags p; p_delayChkptFlags := p_delayChkptFlags p;
     p_recoveryConflictPending := p_recoveryConflictPending p; p_pgxactoff := i |}.

(** The dense arrays with the list operation [f] applied to each of them. *)
Definition map_arrays (f : forall A, list A -> list A) (a : ProcArrayStruct) : ProcArrayStruct :=
  {| pgprocnos := f nat (pgprocnos a); pa_xids := f Z (pa_xids a);
     pa_subxidStates := f XidCacheStatus (pa_subxidStates a); pa_statusFlags := f Z (pa_statusFlags a);
     allProcs := allProcs a; maxProcs := maxProcs a; pa_vars := pa_vars a |}.

Definition set_procs (ps : list Proc) (a : ProcArrayStruct) : ProcArrayStruct :=
  {| pgprocnos := pgprocnos a; pa_xids := pa_xids a; pa_subxidStates := pa_subxidStates a;
     pa_statusFlags := pa_statusFlags a; allProcs := ps; maxProcs := maxProcs a; pa_vars := pa_vars a |}.

Definition set_vars (v : TransamVariablesData) (a : ProcArrayStruct) : ProcArrayStruct :=
  {| pgprocnos := pgprocnos a; pa_xids := pa_xids a; pa_subxidStates := pa_subxidStates a;
     pa_statusFlags := pa_statusFlags a; allProcs := allProcs a; maxProcs := maxProcs a; pa_vars := v |}.

(** ** Adding and removing processes *)

(** The position of the first process with a larger number. *)
Fixpoint find_position (pgprocno : nat) (l : list nat) : nat :=
  match l with
  | [] => 0
  | this_procno :: rest => if (pgprocno <? this_procno)%nat then 0 else S (find_position pgprocno rest)
  end.

(** Set the offsets of the processes of [l], which start at position [i]. *)
Fixpoint adjust_pgxactoff (i : nat) (l : list nat) (ps : list Proc) : list Proc :=
  match l with
  | [] => ps
  | n :: rest => adjust_pgxactoff (S i) rest (alter (set_pgxactoff i) n ps)
  end.

Definition insert_at (i : nat) {A} (x : A) (l : list A) : list A := take i l ++ x :: drop i l.
Definition delete_at (i : nat) (A : Type) (l : list A) : list A := take i l ++ drop (S i) l.

(** [None] for the FATAL error when there is no room. *)
Definition ProcArrayAdd (pgprocno : nat) (a : ProcArrayStruct) : option ProcArrayStruct :=
  proc ← allProcs a !! pgprocno;
  if (maxProcs a <=? numProcs a)%nat then None
  else
    let index := find_position pgprocno (pgprocnos a) in
    let procnos := insert_at index pgprocno (pgprocnos a) in
    Some {| pgprocnos := procnos;
            pa_xids := insert_at index (p_xid proc) (pa_xids a);
            pa_subxidStates := insert_at index (p_subxidStatus proc) (pa_subxidStates a);
            pa_statusFlags := insert_at index (p_statusFlags proc) (pa_statusFlags a);
            allProcs := adjust_pgxactoff (S index) (drop (S index) procnos)
                          (alter (set_pgxactoff index) pgprocno (allProcs a));
            maxProcs := maxProcs a; pa_vars := pa_vars a |}.

Definition FullXidRelativeTo (rel : FullTransactionId) (xid : TransactionId) : FullTransactionId :=
  FullXid (u64 (value rel + s32 (xid - XidFromFullTransactionId rel))).

Definition MaintainLatestCompletedXid (latestXid : TransactionId) (v : TransamVariablesData) : TransamVariablesData :=
  let cur_latest := latestCompletedXid v in
  if TransactionIdPrecedes (XidFromFullTransactionId cur_latest) latestXid then
    {| nextOid := nextOid v; oidCount := oidCount v; nextXid := nextXid v; oldestXid := oldestXid v;
       xidVacLimit := xidVacLimit v; xidWarnLimit := xidWarnLimit v; xidStopLimit := xidStopLimit v;
       xidWrapLimit := xidWrapLimit v; oldestXidDB := oldestXidDB v; oldestCommitTsXid := oldestCommitTsXid v;
       newestCommitTsXid := newestCommitTsXid v; latestCompletedXid := FullXidRelativeTo cur_latest latestXid;
       xactCompletionCount := xactCompletionCount v; oldestClogXid := oldestClogXid v |}
  else v.

(** [TransamVariables->xactCompletionCount++] *)
Definition count_completion (v : TransamVariablesData) : TransamVariablesData :=
  {| nextOid := nextOid v; oidCount := oidCount v; nextXid := nextXid v; oldestXid := oldestXid v;
     xidVacLimit := xidVacLimit v; xidWarnLimit := xidWarnLimit v; xidStopLimit := xidStopLimit v;
     xidWrapLimit := xidWrapLimit v; oldestXidDB := oldestXidDB v; oldestCommitTsXid := oldestCommitTsXid v;
     newestCommitTsXid := newestCommitTsXid v; latestCompletedXid := latestCompletedXid v;
     xactCompletionCount := u64 (xactCompletionCount v + 1); oldestClogXid := oldestClogXid v |}.

(** [latestXid] is valid for a prepared transaction; the PGPROC itself is left alone. *)
Definition ProcArrayRemove (pgprocno : nat) (latestXid : TransactionId) (a : ProcArrayStruct) : option ProcArrayStruct :=
  proc ← allProcs a !! pgprocno;
  let myoff := p_pgxactoff proc in
  let a := if TransactionIdIsValid latestXid
           then set_vars (count_completion (MaintainLatestCompletedXid latestXid (pa_vars a))) a else a in
  let a := map_arrays (delete_at myoff) a in
  Some (set_procs (adjust_pgxactoff myoff (drop myoff (pgprocnos a)) (allProcs a)) a).

(** ** The end of a transaction *)

Definition has_subxids (st : XidCacheStatus) : bool := (0 <? count st)%nat || overflowed st.
Definition vacuum_flags (flags : Z) : bool := tst flags PROC_VACUUM_STATE_MASK.
Definition clear_vacuum_flags (flags : Z) : Z :=
  if vacuum_flags flags then Z.land flags (Z.lnot PROC_VACUUM_STATE_MASK) else flags.

Definition clear_proc (delayChkptFlags flags : Z) (p : Proc) : Proc :=
  {| p_pid := p_pid p; p_xid := InvalidTransactionId; p_xmin := InvalidTransactionId; p_lxid := 0;
     p_subxids := p_subxids p;
     p_subxidStatus := if has_subxids (p_subxidStatus p) then no_subxids else p_subxidStatus p;
     p_statusFlags := flags; p_delayChkptFlags := delayChkptFlags; p_recoveryConflictPending := false;
     p_pgxactoff := p_pgxactoff p |}.

(** The shared fields are written only where they change. *)
Definition ProcArrayEndTransactionInternal (pgprocno : nat) (latestXid : TransactionId) (a : ProcArrayStruct) :
  option ProcArrayStruct :=
  proc ← allProcs a !! pgprocno;
  let pgxactoff := p_pgxactoff proc in
  let flags := clear_vacuum_flags (p_statusFlags proc) in
  Some {| pgprocnos := pgprocnos a;
          pa_xids := <[pgxactoff := InvalidTransactionId]> (pa_xids a);
          pa_subxidStates := if has_subxids (p_subxidStatus proc) then <[pgxactoff := no_subxids]> (pa_subxidStates a)
                             else pa_subxidStates a;
          pa_statusFlags := if vacuum_flags (p_statusFlags proc) then <[pgxactoff := flags]> (pa_statusFlags a)
                            else pa_statusFlags a;
          allProcs := <[pgprocno := clear_proc 0 flags proc]> (allProcs a);
          maxProcs := maxProcs a;
          pa_vars := count_completion (MaintainLatestCompletedXid latestXid (pa_vars a)) |}.

(** What the leader of a group does for the members of its list. *)
Fixpoint ProcArrayGroupClearXid (group : list (nat * TransactionId)) (a : ProcArrayStruct) : option ProcArrayStruct :=
  match group with
  | [] => Some a
  | (pgprocno, latestXid) :: rest =>
      a ← ProcArrayEndTransactionInternal pgprocno latestXid a; ProcArrayGroupClearXid rest a
  end.

(** A transaction without id changes nothing others see, except the vacuum flags. *)
Definition ProcArrayEndTransaction (pgprocno : nat) (latestXid : TransactionId) (a : ProcArrayStruct) :
  option ProcArrayStruct :=
  if TransactionIdIsValid latestXid then ProcArrayEndTransactionInternal pgprocno latestXid a
  else
    proc ← allProcs a !! pgprocno;
    let flags := clear_vacuum_flags (p_statusFlags proc) in
    Some {| pgprocnos := pgprocnos a; pa_xids := pa_xids a; pa_subxidStates := pa_subxidStates a;
            pa_statusFlags := if vacuum_flags (p_statusFlags proc) then <[p_pgxactoff proc := flags]> (pa_statusFlags a)
                              else pa_statusFlags a;
            allProcs := <[pgprocno :=
              {| p_pid := p_pid proc; p_xid := p_xid proc; p_xmin := InvalidTransactionId; p_lxid := 0;
                 p_subxids := p_subxids proc; p_subxidStatus := p_subxidStatus proc; p_statusFlags := flags;
                 p_delayChkptFlags := 0; p_recoveryConflictPending := false; p_pgxactoff := p_pgxactoff proc |}]>
              (allProcs a);
            maxProcs := maxProcs a; pa_vars := pa_vars a |}.

(** After a PREPARE; the transaction lives on under another PGPROC. *)
Definition ProcArrayClearTransaction (pgprocno : nat) (a : ProcArrayStruct) : option ProcArrayStruct :=
  proc ← allProcs a !! pgprocno;
  let pgxactoff := p_pgxactoff proc in
  Some {| pgprocnos := pgprocnos a;
          pa_xids := <[pgxactoff := InvalidTransactionId]> (pa_xids a);
          pa_subxidStates := if has_subxids (p_subxidStatus proc) then <[pgxactoff := no_subxids]> (pa_subxidStates a)
                             else pa_subxidStates a;
          pa_statusFlags := pa_statusFlags a;
          allProcs := <[pgprocno := clear_proc (p_delayChkptFlags proc) (p_statusFlags proc) proc]> (allProcs a);
          maxProcs := maxProcs a; pa_vars := count_completion (pa_vars a) |}.

(** ** Subtransactions *)

(** What [GetNewTransactionId] sees of a process. *)
Definition pgproc_view (a : ProcArrayStruct) (p : Proc) : PGPROC :=
  {| proc_xid := p_xid p; proc_subxids := p_subxids p; subxidStatus := p_subxidStatus p;
     global_xid := default InvalidTransactionId (pa_xids a !! p_pgxactoff p);
     global_subxidState := default no_subxids (pa_subxidStates a !! p_pgxactoff p) |}.

(** [GetNewTransactionId] publishing the new id, by [publish_xid] of [varsup.c]. *)
Definition publish (isSubXact : bool) (xid : TransactionId) (pgprocno : nat) (a : ProcArrayStruct) :
  option ProcArrayStruct :=
  p ← allProcs a !! pgprocno;
  let v := publish_xid isSubXact xid (pgproc_view a p) in
  Some {| pgprocnos := pgprocnos a;
          pa_xids := <[p_pgxactoff p := global_xid v]> (pa_xids a);
          pa_subxidStates := <[p_pgxactoff p := global_subxidState v]> (pa_subxidStates a);
          pa_statusFlags := pa_statusFlags a;
          allProcs := <[pgprocno :=
            {| p_pid := p_pid p; p_xid := proc_xid v; p_xmin := p_xmin p; p_lxid := p_lxid p;
               p_subxids := proc_subxids v; p_subxidStatus := subxidStatus v; p_statusFlags := p_statusFlags p;
               p_delayChkptFlags := p_delayChkptFlags p; p_recoveryConflictPending := p_recoveryConflictPending p;
               p_pgxactoff := p_pgxactoff p |}]> (allProcs a);
          maxProcs := maxProcs a; pa_vars := pa_vars a |}.

(** The last index below [n] at which [x] is stored. *)
Fixpoint rfind (x : TransactionId) (l : list TransactionId) (n : nat) : option nat :=
  match n with
  | O => None
  | S j => if bool_decide (l !! j = Some x) then Some j else rfind x l j
  end.

(** Remove one id from the first [n] entries by moving the last one into its place;
    the list, the new count, and whether it was found. *)
Definition remove_subxid (x : TransactionId) (l : list TransactionId) (n : nat) : list TransactionId * nat * bool :=
  match rfind x l n with
  | Some j => (<[j := default InvalidTransactionId (l !! (n - 1)%nat)]> l, (n - 1)%nat, true)
  | None => (l, n, false)
  end.

Fixpoint remove_subxids (xs : list TransactionId) (l : list TransactionId) (n : nat) : list TransactionId * nat :=
  match xs with
  | [] => (l, n)
  | x :: rest => let '(l, n, _) := remove_subxid x l n in remove_subxids rest l n
  end.

(** The array [xids] is scanned from its end, then [xid]; a missing id is a warning only. *)
Definition XidCacheRemoveRunningXids (pgprocno : nat) (xid : TransactionId) (xids : list TransactionId)
  (latestXid : TransactionId) (a : ProcArrayStruct) : option ProcArrayStruct :=
  p ← allProcs a !! pgprocno;
  st ← pa_subxidStates a !! p_pgxactoff p;
  let n := count (p_subxidStatus p) in
  let '(l, n') := remove_subxids (rev xids ++ [xid]) (p_subxids p) n in
  let removed := (n - n')%nat in
  Some {| pgprocnos := pgprocnos a; pa_xids := pa_xids a;
          pa_subxidStates := <[p_pgxactoff p := {| count := (count st - removed)%nat; overflowed := overflowed st |}]>
                               (pa_subxidStates a);
          pa_statusFlags := pa_statusFlags a;
          allProcs := <[pgprocno :=
            {| p_pid := p_pid p; p_xid := p_xid p; p_xmin := p_xmin p; p_lxid := p_lxid p; p_subxids := l;
               p_subxidStatus := {| count := n'; overflowed := overflowed (p_subxidStatus p) |};
               p_statusFlags := p_statusFlags p; p_delayChkptFlags := p_delayChkptFlags p;
               p_recoveryConflictPending := p_recoveryConflictPending p; p_pgxactoff := p_pgxactoff p |}]> (allProcs a);
          maxProcs := maxProcs a;
          pa_vars := count_completion (MaintainLatestCompletedXid latestXid (pa_vars a)) |}.

(** ** Taking a snapshot *)

(** What the loop of [GetSnapshotData] accumulates. *)
Record scan := { sc_xmin : TransactionId; sc_xip : list TransactionId; sc_subxip : list TransactionId;
                 sc_suboverflowed : bool }.

(** One round, at offset [pgxactoff]. *)
Definition snapshot_round (a : ProcArrayStruct) (mypgxactoff : nat) (xmax : TransactionId) (pgxactoff : nat) (s : scan) :
  scan :=
  let xid := default InvalidTransactionId (pa_xids a !! pgxactoff) in
  if xid =? InvalidTransactionId then s
  else if (pgxactoff =? mypgxactoff)%nat then s
  else if negb (NormalTransactionIdPrecedes xid xmax) then s
  else if tst (default 0 (pa_statusFlags a !! pgxactoff)) (Z.lor PROC_IN_LOGICAL_DECODING PROC_IN_VACUUM) then s
  else
    let st := default no_subxids (pa_subxidStates a !! pgxactoff) in
    let subs := match pgprocnos a !! pgxactoff ≫= fun n => allProcs a !! n with
                | Some p => take (count st) (p_subxids p)
                | None => []
                end in
    {| sc_xmin := if NormalTransactionIdPrecedes xid (sc_xmin s) then xid else sc_xmin s;
       sc_xip := sc_xip s ++ [xid];
       sc_subxip := if sc_suboverflowed s then sc_subxip s
                    else if overflowed st then sc_subxip s else sc_subxip s ++ subs;
       sc_suboverflowed := sc_suboverflowed s || overflowed st |}.

Definition snapshot_loop (a : ProcArrayStruct) (mypgxactoff : nat) (xmax : TransactionId) (s : scan) : scan :=
  fold_left (fun s i => snapshot_round a mypgxactoff xmax i s) (seq 0 (numProcs a)) s.

(** A snapshot with the completion count it was taken at. *)
Record taken_snapshot := { snap : SnapshotData; snapXactCompletionCount : Z }.

(** The result with the backend's new [RecentXmin]; outside recovery. *)
Definition build_snapshot (my : Proc) (cid : CommandId) (a : ProcArrayStruct) (old : SnapshotData) : taken_snapshot :=
  let latest_completed := latestCompletedXid (pa_vars a) in
  let mypgxactoff := p_pgxactoff my in
  let myxid := default InvalidTransactionId (pa_xids a !! mypgxactoff) in
  let xmax := TransactionIdAdvance (XidFromFullTransactionId latest_completed) in
  let xmin := if TransactionIdIsNormal myxid && NormalTransactionIdPrecedes myxid xmax then myxid else xmax in
  let s := snapshot_loop a mypgxactoff xmax {| sc_xmin := xmin; sc_xip := []; sc_subxip := []; sc_suboverflowed := false |} in
  {| snap := {| snapshot_type := snapshot_type old; xmin := sc_xmin s; xmax := xmax; xip := sc_xip s;
                subxip := sc_subxip s; suboverflowed := sc_suboverflowed s; takenDuringRecovery := false;
                curcid := cid; speculativeToken := speculativeToken old; vistest := vistest old |};
     snapXactCompletionCount := xactCompletionCount (pa_vars a) |}.

Definition set_curcid (cid : CommandId) (s : SnapshotData) : SnapshotData :=
  {| snapshot_type := snapshot_type s; xmin := xmin s; xmax := xmax s; xip := xip s; subxip := subxip s;
     suboverflowed := suboverflowed s; takenDuringRecovery := takenDuringRecovery s; curcid := cid;
     speculativeToken := speculativeToken s; vistest := vistest s |}.

(** [None] when the old contents cannot be used again. *)
Definition GetSnapshotDataReuse (cid : CommandId) (a : ProcArrayStruct) (old : taken_snapshot) : option taken_snapshot :=
  if snapXactCompletionCount old =? 0 then None
  else if negb (xactCompletionCount (pa_vars a) =? snapXactCompletionCount old) then None
  else Some {| snap := set_curcid cid (snap old); snapXactCompletionCount := snapXactCompletionCount old |}.

(** The snapshot, and the array with [MyProc->xmin] advertised. *)
Definition GetSnapshotData (pgprocno : nat) (cid : CommandId) (a : ProcArrayStruct) (old : taken_snapshot) :
  option (taken_snapshot * ProcArrayStruct) :=
  my ← allProcs a !! pgprocno;
  let s := match GetSnapshotDataReuse cid a old with
           | Some s => s
           | None => build_snapshot my cid a (snap old)
           end in
  Some (s, if negb (TransactionIdIsValid (p_xmin my)) then
             set_procs (<[pgprocno :=
               {| p_pid := p_pid my; p_xid := p_xid my; p_xmin := xmin (snap s); p_lxid := p_lxid my;
                  p_subxids := p_subxids my; p_subxidStatus := p_subxidStatus my; p_statusFlags := p_statusFlags my;
                  p_delayChkptFlags := p_delayChkptFlags my;
                  p_recoveryConflictPending := p_recoveryConflictPending my; p_pgxactoff := p_pgxactoff my |}]>
               (allProcs a)) a
           else a).

(** ** Searching for one transaction *)

(** The loop of [TransactionIdIsInProgress] over the offsets [l]: [None] when the id
    is found, otherwise the transactions with subtransactions that are not cached. *)
Fixpoint progress_loop (a : ProcArrayStruct) (mypgxactoff : nat) (xid : TransactionId) (l : list nat)
  (xids : list TransactionId) : option (list TransactionId) :=
  match l with
  | [] => Some xids
  | pgxactoff :: rest =>
      let pxid := default InvalidTransactionId (pa_xids a !! pgxactoff) in
      if (pgxactoff =? mypgxactoff)%nat then progress_loop a mypgxactoff xid rest xids
      else if negb (TransactionIdIsValid pxid) then progress_loop a mypgxactoff xid rest xids
      else if pxid =? xid then None
      else if TransactionIdPrecedes xid pxid then progress_loop a mypgxactoff xid rest xids
      else
        let st := default no_subxids (pa_subxidStates a !! pgxactoff) in
        let subs := match pgprocnos a !! pgxactoff ≫= fun n => allProcs a !! n with
                    | Some p => take (count st) (p_subxids p)
                    | None => []
                    end in
        if existsb (Z.eqb xid) (rev subs) then None
        else progress_loop a mypgxactoff xid rest (if overflowed st then xids ++ [pxid] else xids)
  end.

(** What a backend knows without shared memory, and the two logs it may have to ask. *)
Record progress_env := {
  RecentXmin : TransactionId;
  cachedXidIsNotInProgress : TransactionId;
  IsCurrentTransactionId : TransactionId -> bool;
  DidAbort : TransactionId -> bool;
  GetTopmostTransaction : TransactionId -> TransactionId
}.

(** The answer and the new [cachedXidIsNotInProgress]; outside recovery. *)
Definition TransactionIdIsInProgress (o : progress_env) (my : Proc) (a : ProcArrayStruct) (xid : TransactionId) :
  bool * TransactionId :=
  let cache := cachedXidIsNotInProgress o in
  if TransactionIdPrecedes xid (RecentXmin o) then (false, cache)
  else if cache =? xid then (false, cache)
  else if IsCurrentTransactionId o xid then (true, cache)
  else if TransactionIdPrecedes (XidFromFullTransactionId (latestCompletedXid (pa_vars a))) xid then (true, cache)
  else
    match progress_loop a (p_pgxactoff my) xid (seq 0 (numProcs a)) [] with
    | None => (true, cache)
    | Some [] => (false, xid)
    | Some xids =>
        if DidAbort o xid then (false, xid)
        else
          let topxid := GetTopmostTransaction o xid in
          if negb (topxid =? xid) && xip_find topxid xids then (true, cache)
          else (false, xid)
    end.

(** A process without pid holds a prepared transaction. *)
Definition TransactionIdIsActive (RecentXmin : TransactionId) (a : ProcArrayStruct) (xid : TransactionId) : bool :=
  if TransactionIdPrecedes xid RecentXmin then false
  else
    existsb (fun i =>
      let pxid := default InvalidTransactionId (pa_xids a !! i) in
      match pgprocnos a !! i ≫= fun n => allProcs a !! n with
      | Some proc => TransactionIdIsValid pxid && negb (p_pid proc =? 0) && (pxid =? xid)
      | None => false
      end) (seq 0 (numProcs a)).

(** ** The mirror invariant *)

Definition sorted_nos (l : list nat) : Prop :=
  forall i j x y, (i < j)%nat -> l !! i = Some x -> l !! j = Some y -> (x < y)%nat.

(** The entry at offset [i] is the PGPROC [n]. *)
Definition mirrors (a : ProcArrayStruct) (i n : nat) : Prop :=
  exists p, allProcs a !! n = Some p /\ p_pgxactoff p = i /\ pa_xids a !! i = Some (p_xid p) /\
    pa_subxidStates a !! i = Some (p_subxidStatus p) /\ pa_statusFlags a !! i = Some (p_statusFlags p).

Record pa_ok (a : ProcArrayStruct) : Prop := {
  ok_xids : length (pa_xids a) = numProcs a;
  ok_subs : length (pa_subxidStates a) = numProcs a;
  ok_flags : length (pa_statusFlags a) = numProcs a;
  ok_sorted : sorted_nos (pgprocnos a);
  ok_room : (numProcs a <= maxProcs a)%nat;
  ok_mirror : forall i n, pgprocnos a !! i = Some n -> mirrors a i n
}.

(** *** In-place updates *)

Lemma sorted_inj l i j n : sorted_nos l -> l !! i = Some n -> l !! j = Some n -> i = j.
Proof.
  intros H Hi Hj. destruct (Nat.lt_trichotomy i j) as [Hlt|[|Hlt]]; [|done|].
  - specialize (H i j n n Hlt Hi Hj). lia.
  - specialize (H j i n n Hlt Hj Hi). lia.
Qed.

(** Writing a process and its entries together keeps the mirror. *)
Lemma store_ok a n i p v :
  pa_ok a -> pgprocnos a !! i = Some n -> p_pgxactoff p = i ->
  pa_ok {| pgprocnos := pgprocnos a; pa_xids := <[i := p_xid p]> (pa_xids a);
           pa_subxidStates := <[i := p_subxidStatus p]> (pa_subxidStates a);
           pa_statusFlags := <[i := p_statusFlags p]> (pa_statusFlags a);
           allProcs := <[n := p]> (allProcs a); maxProcs := maxProcs a; pa_vars := v |}.
Proof.
  intros [H1 H2 H3 Hs Hr Hm] Hi Hp. destruct (Hm i n Hi) as (q & Hq & _).
  apply lookup_lt_Some in Hi as Hlt. apply lookup_lt_Some in Hq as Hlq. unfold numProcs in *.
  split; simpl; unfold numProcs; simpl; try rewrite length_insert; try done.
  intros j m Hj. destruct (decide (j = i)) as [->|Hne].
  - rewrite Hi in Hj. injection Hj as <-. exists p. unfold mirrors; simpl.
    rewrite !list_lookup_insert_eq by lia. done.
  - destruct (Hm j m Hj) as (q' & Hq' & E). exists q'. simpl.
    assert (m <> n) by (intros ->; apply Hne; by eapply sorted_inj).
    by rewrite !list_lookup_insert_ne by done.
Qed.

(** A conditional store is a store when nothing changes otherwise. *)
Lemma insert_if {A} (b : bool) (l : list A) i x y :
  l !! i = Some y -> (b = false -> x = y) -> (if b then <[i := x]> l else l) = <[i := x]> l.
Proof. intros Hi Hb. destruct b; [done|]. rewrite Hb by done. symmetry. by apply list_insert_id. Qed.

Lemma clear_flags_id f : vacuum_flags f = false -> clear_vacuum_flags f = f.
Proof. unfold clear_vacuum_flags. by intros ->. Qed.

Lemma end_internal_ok a n i latest a' :
  pa_ok a -> pgprocnos a !! i = Some n -> ProcArrayEndTransactionInternal n latest a = Some a' -> pa_ok a'.
Proof.
  intros Hok Hi. destruct (ok_mirror _ Hok i n Hi) as (p & Hp & Eoff & Hx & Hs & Hf).
  unfold ProcArrayEndTransactionInternal. rewrite Hp. simpl. intros [= <-]. rewrite Eoff.
  rewrite (insert_if (vacuum_flags (p_statusFlags p)) _ _ _ _ Hf) by apply clear_flags_id.
  pose proof (store_ok a n i (clear_proc 0 (clear_vacuum_flags (p_statusFlags p)) p)
    (count_completion (MaintainLatestCompletedXid latest (pa_vars a))) Hok Hi Eoff) as H. simpl in H.
  destruct (has_subxids (p_subxidStatus p)) eqn:E; [done|]. rewrite (list_insert_id (pa_subxidStates a)) in H by done. done.
Qed.

Lemma clear_ok a n i a' :
  pa_ok a -> pgprocnos a !! i = Some n -> ProcArrayClearTransaction n a = Some a' -> pa_ok a'.
Proof.
  intros Hok Hi. destruct (ok_mirror _ Hok i n Hi) as (p & Hp & Eoff & Hx & Hs & Hf).
  unfold ProcArrayClearTransaction. rewrite Hp. simpl. intros [= <-]. rewrite Eoff.
  pose proof (store_ok a n i (clear_proc (p_delayChkptFlags p) (p_statusFlags p) p)
    (count_completion (pa_vars a)) Hok Hi Eoff) as H. simpl in H. rewrite (list_insert_id (pa_statusFlags a)) in H by done.
  destruct (has_subxids (p_subxidStatus p)) eqn:E; [done|]. rewrite (list_insert_id (pa_subxidStates a)) in H by done. done.
Qed.

Lemma end_transaction_ok a n i latest a' :
  pa_ok a -> pgprocnos a !! i = Some n -> ProcArrayEndTransaction n latest a = Some a' -> pa_ok a'.
Proof.
  intros Hok Hi. unfold ProcArrayEndTransaction. destruct (TransactionIdIsValid latest); [by eapply end_internal_ok|].
  destruct (ok_mirror _ Hok i n Hi) as (p & Hp & Eoff & Hx & Hs & Hf). rewrite Hp. simpl. intros [= <-]. rewrite Eoff.
  rewrite (insert_if (vacuum_flags (p_statusFlags p)) _ _ _ _ Hf) by apply clear_flags_id.
  match goal with |- pa_ok {| allProcs := <[n := ?q]> _ |} =>
    pose proof (store_ok a n i q (pa_vars a) Hok Hi eq_refl) as H end.
  simpl in H. by rewrite (list_insert_id (pa_xids a)), (list_insert_id (pa_subxidStates a)) in H by done.
Qed.

Lemma publish_ok a n i sub x a' :
  pa_ok a -> pgprocnos a !! i = Some n -> publish sub x n a = Some a' -> pa_ok a'.
Proof.
  intros Hok Hi. destruct (ok_mirror _ Hok i n Hi) as (p & Hp & Eoff & Hx & Hs & Hf).
  unfold publish. rewrite Hp. simpl. intros [= <-].
  match goal with |- pa_ok {| allProcs := <[n := ?q]> _ |} =>
    pose proof (store_ok a n i q (pa_vars a) Hok Hi Eoff) as H end.
  simpl in H. rewrite (list_insert_id (pa_statusFlags a)) in H by done.
  rewrite Eoff. unfold publish_xid, pgproc_view in *. rewrite Eoff, Hx, Hs in *. simpl in *.
  destruct (negb sub); [done|]. by destruct (_ <? _)%nat.
Qed.

Lemma remove_subxids_le xs l n : (snd (remove_subxids xs l n) <= n)%nat.
Proof.
  revert l n. induction xs as [|x xs IH]; intros l n; [done|]. cbn [remove_subxids]. unfold remove_subxid.
  destruct (rfind x l n) as [j|]; [|apply IH].
  match goal with |- (snd (remove_subxids xs ?l' ?n') <= _)%nat => pose proof (IH l' n') end. lia.
Qed.

Lemma cache_remove_ok a n i x xs latest a' :
  pa_ok a -> pgprocnos a !! i = Some n -> XidCacheRemoveRunningXids n x xs latest a = Some a' -> pa_ok a'.
Proof.
  intros Hok Hi. destruct (ok_mirror _ Hok i n Hi) as (p & Hp & Eoff & Hx & Hs & Hf).
  unfold XidCacheRemoveRunningXids. rewrite Hp. simpl. rewrite Eoff, Hs. simpl.
  pose proof (remove_subxids_le (rev xs ++ [x]) (p_subxids p) (count (p_subxidStatus p))) as Hle.
  destruct (remove_subxids _ _ _) as [l n'] eqn:E. simpl in Hle. intros [= <-].
  match goal with |- pa_ok {| allProcs := <[n := ?q]> _; pa_vars := ?v |} =>
    pose proof (store_ok a n i q v Hok Hi eq_refl) as H end.
  simpl in H. rewrite (list_insert_id (pa_statusFlags a)), (list_insert_id (pa_xids a)) in H by done.
  by replace (count (p_subxidStatus p) - (count (p_subxidStatus p) - n'))%nat with n' by lia.
Qed.

(** *** Adding and removing *)

Lemma lookup_insert_at {A} i (x : A) l j :
  (i <= length l)%nat ->
  insert_at i x l !! j = if (j <? i)%nat then l !! j else if (j =? i)%nat then Some x else l !! (j - 1)%nat.
Proof.
  intros Hi. unfold insert_at. assert (length (take i l) = i) as Hlen by (rewrite length_take; lia).
  destruct (Nat.ltb_spec j i); [rewrite lookup_app_l by lia; by rewrite lookup_take_lt|].
  rewrite lookup_app_r by lia. rewrite Hlen. destruct (Nat.eqb_spec j i) as [->|]; [by rewrite Nat.sub_diag|].
  destruct (j - i)%nat as [|k] eqn:E; [lia|]. simpl. rewrite lookup_drop. f_equal. lia.
Qed.

Lemma length_insert_at {A} i (x : A) l : length (insert_at i x l) = S (length l).
Proof. unfold insert_at. rewrite length_app. simpl. rewrite length_take, length_drop. lia. Qed.

Lemma lookup_delete_at {A} i (l : list A) j :
  (i < length l)%nat -> delete_at i A l !! j = if (j <? i)%nat then l !! j else l !! S j.
Proof.
  intros Hi. unfold delete_at. assert (length (take i l) = i) as Hlen by (rewrite length_take; lia).
  destruct (Nat.ltb_spec j i); [rewrite lookup_app_l by lia; by rewrite lookup_take_lt|].
  rewrite lookup_app_r, Hlen, lookup_drop by lia. f_equal. lia.
Qed.

Lemma length_delete_at {A} i (l : list A) : (i < length l)%nat -> length (delete_at i A l) = (length l - 1)%nat.
Proof. intros Hi. unfold delete_at. rewrite length_app, length_take, length_drop. lia. Qed.

Lemma adjust_lookup i l ps n :
  NoDup l ->
  adjust_pgxactoff i l ps !! n =
  match list_find (eq n) l with
  | Some (k, _) => set_pgxactoff (i + k) <$> ps !! n
  | None => ps !! n
  end.
Proof.
  revert i ps. induction l as [|m l IH]; intros i ps Hnd; [done|]. apply NoDup_cons in Hnd as [Hm Hnd].
  cbn [adjust_pgxactoff list_find]. rewrite IH by done. destruct (decide (n = m)) as [->|Hne].
  - rewrite (proj2 (list_find_None (eq m) l)).
    + rewrite list_lookup_alter_eq, Nat.add_0_r. done.
    + apply list.Forall_forall. intros y Hy <-. done.
  - rewrite list_lookup_alter_ne by done. destruct (list_find (eq n) l) as [[k y]|]; simpl; [|done].
    by rewrite Nat.add_succ_r.
Qed.

Lemma sorted_nodup l : sorted_nos l -> NoDup l.
Proof. intros H. apply NoDup_alt. intros i j n Hi Hj. by eapply sorted_inj. Qed.

Lemma find_index l k (n : nat) : NoDup l -> l !! k = Some n -> list_find (eq n) l = Some (k, n).
Proof.
  intros Hnd Hk. apply list_find_Some. split; [done|]. split; [done|]. intros j y Hj Hlt <-.
  pose proof (NoDup_lookup l j k n Hnd Hj Hk). lia.
Qed.

Lemma find_absent l (n : nat) : n ∉ l -> list_find (eq n) l = None.
Proof. intros H. apply list_find_None, list.Forall_forall. intros y Hy <-. done. Qed.

(** Every process below the position found is smaller, every one from it on larger. *)
Lemma find_position_spec n l :
  sorted_nos l -> n ∉ l ->
  (find_position n l <= length l)%nat /\
  forall j m, l !! j = Some m -> if (j <? find_position n l)%nat then (m < n)%nat else (n < m)%nat.
Proof.
  induction l as [|m l IH]; intros Hs Hn; [done|]. cbn [find_position].
  destruct (Nat.ltb_spec n m) as [Hlt|Hge].
  - split; [simpl; lia|]. intros [|j] m' Hj; simpl in Hj; [by injection Hj as <-|].
    pose proof (Hs 0%nat (S j) m m' ltac:(lia) eq_refl Hj). simpl. lia.
  - destruct IH as [IH1 IH2].
    { intros i j x y Hij Hi Hj. exact (Hs (S i) (S j) x y ltac:(lia) Hi Hj). }
    { intros H. apply Hn. by right. }
    split; [simpl; lia|]. intros [|j] m' Hj; simpl in Hj.
    + injection Hj as <-. simpl. assert (n <> m) by (intros ->; apply Hn; by left). lia.
    + specialize (IH2 j m' Hj). destruct (Nat.ltb_spec j (find_position n l));
        destruct (Nat.ltb_spec (S j) (S (find_position n l))); (done || lia).
Qed.

Lemma insert_sorted n l :
  sorted_nos l -> n ∉ l -> sorted_nos (insert_at (find_position n l) n l).
Proof.
  intros Hs Hn. destruct (find_position_spec n l Hs Hn) as [Hle Hpos].
  intros i j x y Hij. rewrite !lookup_insert_at by done.
  destruct (Nat.ltb_spec i (find_position n l)), (Nat.ltb_spec j (find_position n l));
    destruct (Nat.eqb_spec i (find_position n l)), (Nat.eqb_spec j (find_position n l)); try lia; intros Hx Hy.
  - exact (Hs i j x y Hij Hx Hy).
  - injection Hy as <-. specialize (Hpos i x Hx). by rewrite (proj2 (Nat.ltb_lt _ _)) in Hpos.
  - eapply (Hs i (j - 1)%nat); [lia|done..].
  - injection Hx as <-. specialize (Hpos _ y Hy). by rewrite (proj2 (Nat.ltb_ge _ _)) in Hpos by lia.
  - eapply (Hs (i - 1)%nat (j - 1)%nat); [lia|done..].
Qed.

Lemma not_in_tail (l : list nat) i j n : NoDup l -> l !! i = Some n -> (i < j)%nat -> n ∉ drop j l.
Proof.
  intros Hnd Hi Hij [k Hk]%list_elem_of_lookup. rewrite lookup_drop in Hk.
  pose proof (NoDup_lookup l i (j + k) n Hnd Hi Hk). lia.
Qed.

Lemma add_ok a n a' :
  pa_ok a -> n ∉ pgprocnos a -> ProcArrayAdd n a = Some a' -> pa_ok a'.
Proof.
  intros [H1 H2 H3 Hs Hr Hm] Hn. unfold ProcArrayAdd. destruct (allProcs a !! n) as [proc|] eqn:Hp; [|done]. simpl.
  destruct (Nat.leb_spec (maxProcs a) (numProcs a)) as [|Hroom]; [done|].
  pose proof (insert_sorted n _ Hs Hn) as Hs'. destruct (find_position_spec n _ Hs Hn) as [Hle _].
  set (idx := find_position n (pgprocnos a)) in *. set (l' := insert_at idx n (pgprocnos a)) in *.
  intros [= <-]. pose proof (sorted_nodup _ Hs') as Hnd. unfold numProcs in *.
  split; simpl; unfold numProcs; simpl; unfold l'; rewrite ?length_insert_at; try congruence; try done; try lia.
  fold l'. intros j m Hj. unfold mirrors; simpl.
  rewrite adjust_lookup by (eapply sublist_NoDup; [done|apply sublist_drop]).
  rewrite !lookup_insert_at by lia.
  pose proof Hj as Hj'. unfold l' in Hj'. rewrite lookup_insert_at in Hj' by done.
  destruct (Nat.ltb_spec j idx) as [Hlt|Hge]; [|destruct (Nat.eqb_spec j idx) as [->|Hne]].
  - rewrite find_absent by (eapply not_in_tail; [done..|lia]).
    rewrite list_lookup_alter_ne by (intros ->; by apply list_elem_of_lookup_2 in Hj'). by apply Hm.
  - injection Hj' as <-. rewrite find_absent by (eapply not_in_tail; [done..|lia]).
    rewrite list_lookup_alter_eq, Hp. simpl. by exists (set_pgxactoff idx proc).
  - rewrite (find_index _ (j - S idx) m); [| |rewrite lookup_drop; by replace (S idx + (j - S idx))%nat with j by lia].
    2: eapply sublist_NoDup; [done|apply sublist_drop].
    rewrite list_lookup_alter_ne by (intros ->; by apply list_elem_of_lookup_2 in Hj').
    destruct (Hm _ _ Hj') as (p & Hpm & Hoff & E). rewrite Hpm. simpl.
    replace (S (idx + (j - S idx)))%nat with j by lia. by exists (set_pgxactoff j p).
Qed.

Lemma remove_ok a n i latest a' :
  pa_ok a -> pgprocnos a !! i = Some n -> ProcArrayRemove n latest a = Some a' -> pa_ok a' /\ n ∉ pgprocnos a'.
Proof.
  intros [H1 H2 H3 Hs Hr Hm] Hi. destruct (Hm i n Hi) as (p & Hp & Eoff & _). unfold ProcArrayRemove. rewrite Hp. simpl.
  rewrite Eoff. set (v := if TransactionIdIsValid latest then _ else _). intros [= <-].
  assert (Ev : pgprocnos v = pgprocnos a /\ pa_xids v = pa_xids a /\ pa_subxidStates v = pa_subxidStates a /\
    pa_statusFlags v = pa_statusFlags a /\ allProcs v = allProcs a /\ maxProcs v = maxProcs a)
    by (unfold v; by destruct (TransactionIdIsValid latest)).
  destruct Ev as (E1 & E2 & E3 & E4 & E5 & E6). clearbody v. unfold map_arrays, set_procs. simpl.
  rewrite E1, E2, E3, E4, E5, E6. apply lookup_lt_Some in Hi as Hlt. unfold numProcs in *.
  set (l' := delete_at i nat (pgprocnos a)) in *.
  assert (Hl' : forall j, l' !! j = pgprocnos a !! (if (j <? i)%nat then j else S j)).
  { intros j. unfold l'. rewrite lookup_delete_at by done. by destruct (j <? i)%nat. }
  assert (Hs' : sorted_nos l').
  { intros j k x y Hjk. rewrite !Hl'. intros Hx Hy. eapply (Hs _ _ _ _ _ Hx Hy).
    Unshelve. destruct (Nat.ltb_spec j i), (Nat.ltb_spec k i); lia. }
  pose proof (sorted_nodup _ Hs') as Hnd. split.
  - split; simpl; unfold numProcs; simpl; unfold l'; rewrite ?length_delete_at by lia; try lia; try done.
    fold l'. intros j m Hj. unfold mirrors; simpl.
    rewrite adjust_lookup by (eapply sublist_NoDup; [done|apply sublist_drop]).
    rewrite !lookup_delete_at by lia. pose proof Hj as Hj'. rewrite Hl' in Hj'.
    destruct (Nat.ltb_spec j i) as [Hji|Hji].
    + rewrite find_absent by (by eapply not_in_tail). by apply Hm.
    + rewrite (find_index _ (j - i) m); [| |rewrite lookup_drop; by replace (i + (j - i))%nat with j by lia].
      2: eapply sublist_NoDup; [done|apply sublist_drop].
      destruct (Hm _ _ Hj') as (q & Hq & Hoff & E). rewrite Hq. simpl.
      replace (i + (j - i))%nat with j by lia. by exists (set_pgxactoff j q).
  - intros [j Hj]%list_elem_of_lookup. rewrite Hl' in Hj. pose proof (sorted_inj _ _ _ _ Hs Hi Hj).
    destruct (Nat.ltb_spec j i); lia.
Qed.

(** ** The array over time *)

(** What backends do to the array.  A process is in the array while it calls the others. *)
Inductive pa_step (a : ProcArrayStruct) : ProcArrayStruct -> Prop :=
| step_add n a' : n ∉ pgprocnos a -> ProcArrayAdd n a = Some a' -> pa_step a a'
| step_remove n latest a' : n ∈ pgprocnos a -> ProcArrayRemove n latest a = Some a' -> pa_step a a'
| step_publish n sub x a' : n ∈ pgprocnos a -> publish sub x n a = Some a' -> pa_step a a'
| step_end n latest a' : n ∈ pgprocnos a -> ProcArrayEndTransaction n latest a = Some a' -> pa_step a a'
| step_prepare n a' : n ∈ pgprocnos a -> ProcArrayClearTransaction n a = Some a' -> pa_step a a'
| step_abort_sub n x xs latest a' :
    n ∈ pgprocnos a -> XidCacheRemoveRunningXids n x xs latest a = Some a' -> pa_step a a'
| step_snapshot n cid old s a' :
    n ∈ pgprocnos a -> GetSnapshotData n cid a old = Some (s, a') -> pa_step a a'.

Lemma snapshot_keeps_ok a n i cid old s a' :
  pa_ok a -> pgprocnos a !! i = Some n -> GetSnapshotData n cid a old = Some (s, a') -> pa_ok a'.
Proof.
  intros Hok Hi. destruct (ok_mirror _ Hok i n Hi) as (p & Hp & Eoff & Hx & Hs & Hf).
  unfold GetSnapshotData. rewrite Hp. cbn [mbind option_bind]. intros [= _ <-].
  destruct (negb _); [|done]. unfold set_procs.
  match goal with |- pa_ok {| allProcs := <[n := ?q]> _ |} =>
    pose proof (store_ok a n i q (pa_vars a) Hok Hi Eoff) as H end.
  simpl in H. by rewrite (list_insert_id (pa_xids a)), (list_insert_id (pa_subxidStates a)),
    (list_insert_id (pa_statusFlags a)) in H by done.
Qed.

Lemma pa_step_ok a a' : pa_ok a -> pa_step a a' -> pa_ok a'.
Proof.
  intros Hok Hs. destruct Hs as [n a' Hn E|n latest a' Hn E|n sub x a' Hn E|n latest a' Hn E|n a' Hn E|n x xs latest a' Hn E|n cid old s a' Hn E];
    [by eapply add_ok|..]; apply list_elem_of_lookup in Hn as [i Hi].
  - by eapply remove_ok.
  - by eapply publish_ok.
  - by eapply end_transaction_ok.
  - by eapply clear_ok.
  - by eapply cache_remove_ok.
  - by eapply snapshot_keeps_ok.
Qed.

Definition empty_array (procs : list Proc) (max : nat) (v : TransamVariablesData) : ProcArrayStruct :=
  {| pgprocnos := []; pa_xids := []; pa_subxidStates := []; pa_statusFlags := []; allProcs := procs;
     maxProcs := max; pa_vars := v |}.

Lemma empty_array_ok procs max v : pa_ok (empty_array procs max v).
Proof. split; simpl; try done; unfold numProcs; simpl; lia. Qed.

Lemma pa_step_max a a' : pa_step a a' -> maxProcs a' = maxProcs a.
Proof.
  intros Hs. destruct Hs as [n a' _ E|n latest a' _ E|n sub x a' _ E|n latest a' _ E|n a' _ E|n x xs latest a' _ E|n cid old s a' _ E];
    revert E.
  - unfold ProcArrayAdd. destruct (allProcs a !! n); simpl; [|done]. destruct (_ <=? _)%nat; [done|]. by intros [= <-].
  - unfold ProcArrayRemove. destruct (allProcs a !! n); simpl; [|done]. intros [= <-]. simpl.
    by destruct (TransactionIdIsValid latest).
  - unfold publish. destruct (allProcs a !! n); simpl; [|done]. by intros [= <-].
  - unfold ProcArrayEndTransaction, ProcArrayEndTransactionInternal.
    destruct (TransactionIdIsValid latest), (allProcs a !! n); simpl; try done; by intros [= <-].
  - unfold ProcArrayClearTransaction. destruct (allProcs a !! n); simpl; [|done]. by intros [= <-].
  - unfold XidCacheRemoveRunningXids. destruct (allProcs a !! n) as [p|]; simpl; [|done].
    destruct (pa_subxidStates a !! p_pgxactoff p); simpl; [|done]. destruct (remove_subxids _ _ _). by intros [= <-].
  - unfold GetSnapshotData. destruct (allProcs a !! n); cbn [mbind option_bind]; [|done]. intros [= _ <-]. by destruct (negb _).
Qed.

(** C22 -- The dense arrays mirror the processes: however processes enter and leave the
    array, take ids, end transactions, abort subtransactions and take snapshots,
    the array stays sorted by process number without duplicates, every
    [pgxactoff] is the offset of its process, and the entries of the dense arrays at
    that offset are the process's own fields. *)
Theorem procarray_mirror procs max v a :
  rtc pa_step (empty_array procs max v) a ->
  sorted_nos (pgprocnos a) /\ (numProcs a <= max)%nat /\
  length (pa_xids a) = numProcs a /\ length (pa_subxidStates a) = numProcs a /\ length (pa_statusFlags a) = numProcs a /\
  forall i n, pgprocnos a !! i = Some n -> mirrors a i n.
Proof.
  intros Hr. assert (pa_ok a /\ maxProcs a = max) as [[H1 H2 H3 Hs Hroom Hm] <-]; [|done].
  revert a Hr. apply rtc_ind_r; [split; [apply empty_array_ok|done]|]. intros a a' _ Hstep [Hok Hmax].
  split; [by eapply pa_step_ok|]. rewrite <- Hmax. by eapply pa_step_max.
Qed.

(** Three backends enter the array in the order 2, 0, 1; the one numbered 1 takes the id
    100 and the subtransaction id 101. *)
Module ArrayExample.
Definition idle : Proc :=
  {| p_pid := 7; p_xid := InvalidTransactionId; p_xmin := InvalidTransactionId; p_lxid := 0; p_subxids := replicate 64 0;
     p_subxidStatus := no_subxids; p_statusFlags := 0; p_delayChkptFlags := 0; p_recoveryConflictPending := false;
     p_pgxactoff := 0 |}.
Definition start : ProcArrayStruct :=
  empty_array [idle; idle; idle] 10 (MaintainLatestCompletedXid 105 (set_nextXid (FullXid 107) VarsupShmemInit)).
Definition joined : option ProcArrayStruct := a ← ProcArrayAdd 2 start; a ← ProcArrayAdd 0 a; ProcArrayAdd 1 a.
Definition busy : ProcArrayStruct :=
  Eval vm_compute in default start (a ← joined; a ← publish false 100 1 a; publish true 101 1 a).

Lemma busy_reachable : rtc pa_step start busy.
Proof.
  eapply rtc_l. { eapply (step_add _ 2); [by apply (bool_decide_unpack _)|vm_compute; reflexivity]. }
  eapply rtc_l. { eapply (step_add _ 0); [by apply (bool_decide_unpack _)|vm_compute; reflexivity]. }
  eapply rtc_l. { eapply (step_add _ 1); [by apply (bool_decide_unpack _)|vm_compute; reflexivity]. }
  eapply rtc_l. { eapply (step_publish _ 1 false 100); [by apply (bool_decide_unpack _)|vm_compute; reflexivity]. }
  eapply rtc_l. { eapply (step_publish _ 1 true 101); [by apply (bool_decide_unpack _)|vm_compute; reflexivity]. }
  exact (eq_ind _ (fun a => rtc pa_step busy a) (rtc_refl _ busy) _ eq_refl).
Qed.

Lemma procarray_mirror_witness :
  sorted_nos (pgprocnos busy) /\ pgprocnos busy = [0; 1; 2]%nat /\ mirrors busy 1 1.
Proof.
  destruct (procarray_mirror [idle; idle; idle] 10 _ busy busy_reachable) as (Hs & _ & _ & _ & _ & Hm).
  split; [exact Hs|]. split; [reflexivity|]. apply Hm. reflexivity.
Defined.
End ArrayExample.
