(* ===== verification/ProcArraySpec.v ===== *)
(** * What a snapshot contains

    [GetSnapshotData] works on 32-bit ids; here the ids in the process array stand
    for full ids inside one window of [2^31], and the snapshot is shown to
    list exactly the transactions that run in other processes, so that
    [XidInMVCCSnapshot] answers by the state of the array at the moment the
    snapshot was taken.  A snapshot whose contents are used again, because the
    completion count has not changed, is the one that would be built anew. *)
From S2P Require Import Prelude TransactionId ItemPtr HeapTuple Snapshot Varsup ProcArray.
Local Open Scope Z_scope.

(** ** Full ids *)

(** What the entry of a process stands for: its transaction and the
    subtransactions in its cache. *)
Record fentry := { f_top : option Z; f_subs : list Z }.

Definition xid_of (top : option Z) : TransactionId := match top with Some v => u32 v | None => InvalidTransactionId end.

(** The subtransactions in the cache of the process at offset [i]. *)
Definition cached (a : ProcArrayStruct) (i : nat) : list TransactionId :=
  match pgprocnos a !! i ≫= fun n => allProcs a !! n with
  | Some p => take (count (default no_subxids (pa_subxidStates a !! i))) (p_subxids p)
  | None => []
  end.

Record denotes (lo : Z) (a : ProcArrayStruct) (fs : list fentry) : Prop := {
  den_len : length fs = numProcs a;
  den_xids : length (pa_xids a) = numProcs a;
  den_top : forall i e, fs !! i = Some e -> pa_xids a !! i = Some (xid_of (f_top e));
  den_subs : forall i e, fs !! i = Some e -> cached a i = map u32 (f_subs e);
  den_few : forall i e, fs !! i = Some e -> (length (f_subs e) <= PGPROC_MAX_CACHED_SUBXIDS)%nat;
  den_window : forall i e v, fs !! i = Some e -> f_top e = Some v -> in_window lo v;
  den_sub_window : forall i e x, fs !! i = Some e -> x ∈ f_subs e -> in_window lo x;
  den_sub_later : forall i e v x, fs !! i = Some e -> f_top e = Some v -> x ∈ f_subs e -> v < x
}.

Definition skipped (a : ProcArrayStruct) (i : nat) : bool :=
  tst (default 0 (pa_statusFlags a !! i)) (Z.lor PROC_IN_LOGICAL_DECODING PROC_IN_VACUUM).
Definition suboverflow (a : ProcArrayStruct) (i : nat) : bool :=
  overflowed (default no_subxids (pa_subxidStates a !! i)).

Lemma normal_precedes_window lo v w :
  in_window lo v -> in_window lo w -> NormalTransactionIdPrecedes (u32 v) (u32 w) = (v <? w).
Proof.
  intros [Hv _] [Hw _]. unfold NormalTransactionIdPrecedes. rewrite window_diff by lia.
  apply Bool.eq_iff_eq_true. rewrite !Z.ltb_lt. lia.
Qed.

(** ** The loop on full ids *)

Record fscan := { g_min : Z; g_top : list Z; g_sub : list Z; g_over : bool }.

Section scan.
Context (lo : Z) (a : ProcArrayStruct) (fs : list fentry) (me : nat) (X : Z).
Context (Hden : denotes lo a fs) (HX : in_window lo X).

(** The process at offset [i] with transaction [v] is one the snapshot has to list. *)
Definition counted (i : nat) (e : fentry) (v : Z) : Prop :=
  fs !! i = Some e /\ f_top e = Some v /\ i <> me /\ v < X /\ skipped a i = false.

Definition full_round (i : nat) (g : fscan) : fscan :=
  match fs !! i with
  | Some {| f_top := Some v; f_subs := subs |} =>
      if (i =? me)%nat then g else if negb (v <? X) then g else if skipped a i then g
      else {| g_min := Z.min v (g_min g); g_top := g_top g ++ [v];
              g_sub := if g_over g then g_sub g else if suboverflow a i then g_sub g else g_sub g ++ subs;
              g_over := g_over g || suboverflow a i |}
  | _ => g
  end.

Definition scan_rel (s : scan) (g : fscan) : Prop :=
  sc_xmin s = u32 (g_min g) /\ sc_xip s = map u32 (g_top g) /\ sc_subxip s = map u32 (g_sub g) /\
  sc_suboverflowed s = g_over g /\ in_window lo (g_min g).

Lemma round_refines i s g :
  (i < numProcs a)%nat -> scan_rel s g -> scan_rel (snapshot_round a me (u32 X) i s) (full_round i g).
Proof.
  intros Hi Hrel. pose proof Hrel as (E1 & E2 & E3 & E4 & Hw). unfold snapshot_round, full_round.
  destruct (lookup_lt_is_Some_2 fs i) as [e He]; [rewrite (den_len _ _ _ Hden); done|].
  rewrite He, (den_top _ _ _ Hden i e He). simpl. pose proof (den_subs _ _ _ Hden i e He) as Hsubs.
  pose proof (den_window _ _ _ Hden i e) as Hwin. destruct e as [[v|] subs]; simpl in *.
  2: exact Hrel.
  specialize (Hwin v He eq_refl).
  assert (u32 v <> InvalidTransactionId) as ->%Z.eqb_neq.
  { destruct Hwin as [_ Hn]. unfold FirstNormalTransactionId, InvalidTransactionId in *. lia. }
  destruct (i =? me)%nat; [done|]. rewrite (normal_precedes_window lo) by done.
  destruct (Z.ltb_spec v X); simpl; [|done]. unfold skipped. destruct (tst _ _); [done|].
  fold (cached a i). rewrite Hsubs. unfold scan_rel; simpl. rewrite E1, (normal_precedes_window lo) by done.
  split; [destruct (Z.ltb_spec v (g_min g)); f_equal; lia|]. split; [by rewrite E2, map_app|].
  split; [|split; [by rewrite E4|]].
  - rewrite E3, E4. unfold suboverflow. destruct (g_over g); [done|]. destruct (overflowed _); [done|by rewrite map_app].
  - destruct (Z.min_spec v (g_min g)) as [[_ ->]|[_ ->]]; done.
Qed.

Definition full_loop (n : nat) (g : fscan) : fscan := fold_left (fun g i => full_round i g) (seq 0 n) g.

Lemma full_loop_S n g : full_loop (S n) g = full_round n (full_loop n g).
Proof. unfold full_loop. by rewrite seq_S, fold_left_app. Qed.

Lemma loop_refines s g : scan_rel s g -> scan_rel (snapshot_loop a me (u32 X) s) (full_loop (numProcs a) g).
Proof.
  intros H. unfold snapshot_loop, full_loop.
  assert (Hseq : forall i, i ∈ seq 0 (numProcs a) -> (i < numProcs a)%nat) by (intros i Hi; apply elem_of_seq in Hi; lia).
  revert s g H Hseq. generalize (seq 0 (numProcs a)). intros l. induction l as [|i l IH]; intros s g H Hseq; [done|].
  simpl. apply IH; [|intros j Hj; apply Hseq; by right]. apply round_refines; [apply Hseq; by left|done].
Qed.

(** What the loop has collected after [n] rounds, from the start value [m]. *)
Record collected (m : Z) (n : nat) (g : fscan) : Prop := {
  col_min : g_min g <= m /\ in_window lo (g_min g);
  col_top : forall x, x ∈ g_top g <-> exists i e v, (i < n)%nat /\ counted i e v /\ x = v;
  col_low : forall v, v ∈ g_top g ++ g_sub g -> g_min g <= v /\ in_window lo v;
  col_over : g_over g = true <-> exists i e v, (i < n)%nat /\ counted i e v /\ suboverflow a i = true;
  col_sub : g_over g = false -> forall x, x ∈ g_sub g <-> exists i e v, (i < n)%nat /\ counted i e v /\ x ∈ f_subs e;
  col_floor : forall B, B <= m -> (forall i e v, (i < n)%nat -> counted i e v -> B <= v) -> B <= g_min g;
  col_count : (length (g_top g) <= n)%nat /\ (length (g_sub g) <= n * PGPROC_MAX_CACHED_SUBXIDS)%nat
}.

Definition fstart (m : Z) : fscan := {| g_min := m; g_top := []; g_sub := []; g_over := false |}.

(** One more offset either adds its process or adds nothing. *)
Lemma round_cases i g :
  (exists e v, counted i e v /\
     full_round i g = {| g_min := Z.min v (g_min g); g_top := g_top g ++ [v];
                         g_sub := if g_over g then g_sub g else if suboverflow a i then g_sub g else g_sub g ++ f_subs e;
                         g_over := g_over g || suboverflow a i |}) \/
  ((forall e v, ~ counted i e v) /\ full_round i g = g).
Proof.
  unfold full_round, counted. destruct (fs !! i) as [[[v|] subs]|] eqn:E.
  2, 3: by right; split; [intros e w (H & H' & _); simplify_eq|].
  destruct (Nat.eqb_spec i me); [right; split; [intros ? ? (_ & _ & ? & _); done|done]|].
  destruct (Z.ltb_spec v X); simpl; [|right; split; [intros ? ? (? & ? & _ & ? & _); simplify_eq/=; lia|done]].
  destruct (skipped a i); [right; split; [intros ? ? (_ & _ & _ & _ & ?); done|done]|].
  left. by exists {| f_top := Some v; f_subs := subs |}, v.
Qed.

Lemma counted_inj i e v e' v' : counted i e v -> counted i e' v' -> e' = e /\ v' = v.
Proof. intros (? & ? & _) (? & ? & _). by simplify_eq. Qed.

(** Quantifying over the offsets below [S n], when offset [n] is counted or is not. *)
Lemma below_S_counted n e v (P : nat -> fentry -> Z -> Prop) :
  counted n e v ->
  (exists i e' v', (i < S n)%nat /\ counted i e' v' /\ P i e' v') <->
  (exists i e' v', (i < n)%nat /\ counted i e' v' /\ P i e' v') \/ P n e v.
Proof.
  intros Hc. split.
  - intros (i & e' & v' & Hi & Hc' & HP). destruct (decide (i = n)) as [->|]; [|left; exists i, e', v'; split; [lia|done]].
    destruct (counted_inj _ _ _ _ _ Hc Hc') as [-> ->]. by right.
  - intros [(i & e' & v' & Hi & Hc' & HP)|HP]; [exists i, e', v'; split; [lia|done]|exists n, e, v; split; [lia|done]].
Qed.

Lemma below_S_skipped n (P : nat -> fentry -> Z -> Prop) :
  (forall e v, ~ counted n e v) ->
  (exists i e' v', (i < S n)%nat /\ counted i e' v' /\ P i e' v') <->
  (exists i e' v', (i < n)%nat /\ counted i e' v' /\ P i e' v').
Proof.
  intros Hc. split; intros (i & e' & v' & Hi & Hc' & HP); exists i, e', v'; (split; [|done]); [|lia].
  destruct (decide (i = n)) as [->|]; [by destruct (Hc e' v')|lia].
Qed.

Lemma collect_skip m n g : (forall e v, ~ counted n e v) -> collected m n g -> collected m (S n) g.
Proof.
  intros Hc [H1 H2 H3 H4 H5 H7 H6]. split; [done| |done| | | |split; lia].
  - intros x. rewrite H2. by rewrite below_S_skipped.
  - rewrite H4. by rewrite below_S_skipped.
  - intros Ho x. rewrite (H5 Ho x). by rewrite below_S_skipped.
  - intros B Hm HB. apply H7; [done|]. intros i e v Hi. apply HB. lia.
Qed.

Lemma collect_add m n g e v :
  counted n e v -> collected m n g ->
  collected m (S n)
    {| g_min := Z.min v (g_min g); g_top := g_top g ++ [v];
       g_sub := if g_over g then g_sub g else if suboverflow a n then g_sub g else g_sub g ++ f_subs e;
       g_over := g_over g || suboverflow a n |}.
Proof.
  intros Hc [[H1 H1'] H2 H3 H4 H5 H8 [H6 H7]]. pose proof Hc as (He & Hv & _).
  pose proof (den_window _ _ _ Hden n e v He Hv) as Hw.
  assert (Hsub : forall x, x ∈ f_subs e -> v < x /\ in_window lo x).
  { intros x Hx. split; [by eapply (den_sub_later _ _ _ Hden)|by eapply (den_sub_window _ _ _ Hden)]. }
  assert (Hlen := den_few _ _ _ Hden n e He).
  split; simpl.
  - split; [lia|]. destruct (Z.min_spec v (g_min g)) as [[_ ->]|[_ ->]]; done.
  - intros x. by rewrite elem_of_app, list_elem_of_singleton, H2, (below_S_counted _ _ _ _ Hc).
  - assert (Hold : forall x, x ∈ g_top g ++ g_sub g -> Z.min v (g_min g) <= x /\ in_window lo x).
    { intros x Hx. destruct (H3 x Hx). split; [lia|done]. }
    setoid_rewrite elem_of_app in Hold. intros x. rewrite !elem_of_app, list_elem_of_singleton.
    intros [[Hx| ->]|Hx]; [by eauto|split; [lia|done]|].
    destruct (g_over g), (suboverflow a n); try by eauto. apply elem_of_app in Hx as [Hx|Hx]; [by eauto|].
    destruct (Hsub x Hx). split; [lia|done].
  - by rewrite orb_true_iff, H4, (below_S_counted _ _ _ _ Hc).
  - intros [Ho Ho']%orb_false_iff x. rewrite Ho, Ho'.
    by rewrite elem_of_app, (H5 Ho x), (below_S_counted _ _ _ _ Hc).
  - intros B Hm HB. pose proof (HB n e v ltac:(lia) Hc). assert (B <= g_min g); [|lia].
    apply H8; [done|]. intros i e' v' Hi. apply HB. lia.
  - rewrite length_app. unfold PGPROC_MAX_CACHED_SUBXIDS in *. simpl length. split; [lia|].
    destruct (g_over g), (suboverflow a n); rewrite ?length_app; lia.
Qed.

Lemma loop_collects m n : in_window lo m -> (n <= numProcs a)%nat -> collected m n (full_loop n (fstart m)).
Proof.
  intros Hm. induction n as [|n IH]; intros Hn.
  - assert (Hno : forall P : nat -> fentry -> Z -> Prop, ~ exists i e v, (i < 0)%nat /\ counted i e v /\ P i e v)
      by (intros P (i & e & v & Hi & _); lia).
    assert (Hnil : forall x : Z, x ∈ [] -> False) by (intros x H; by apply elem_of_nil in H).
    split; simpl; [done| |by intros v []%Hnil| | |done|lia].
    + intros x. split; [by intros []%Hnil|by intros []%(Hno (fun _ _ v => x = v))].
    + split; [done|by intros []%(Hno (fun i _ _ => suboverflow a i = true))].
    + intros _ x. split; [by intros []%Hnil|by intros []%(Hno (fun _ e _ => x ∈ f_subs e))].
  - rewrite full_loop_S. destruct (round_cases n (full_loop n (fstart m))) as [(e & v & Hc & ->)|[Hc ->]].
    + apply collect_add; [done|apply IH; lia].
    + apply collect_skip; [done|apply IH; lia].
Qed.
End scan.

Section contents.
Context (lo : Z) (a : ProcArrayStruct) (fs : list fentry) (my : Proc) (cid : CommandId) (old : SnapshotData).
Context (Hden : denotes lo a fs).
Abbreviation latest := (latestCompletedXid (pa_vars a)).
Abbreviation X := (value (FullTransactionIdAdvance latest)).
Context (Hlatest : normal_full latest) (Hroom : value latest + 4 < 2 ^ 64) (HX : in_window lo X).
Context (Hprocs : Z.of_nat (numProcs a) <= 2 ^ 18).

(** Where [xmin] starts: at the backend's own transaction or at [xmax]. *)
Definition own_start : Z :=
  match fs !! p_pgxactoff my with
  | Some {| f_top := Some v |} => if v <? X then v else X
  | _ => X
  end.

Lemma own_start_spec :
  in_window lo own_start /\ own_start <= X /\
  let myxid := default InvalidTransactionId (pa_xids a !! p_pgxactoff my) in
  (if TransactionIdIsNormal myxid && NormalTransactionIdPrecedes myxid (u32 X) then myxid else u32 X) = u32 own_start.
Proof.
  unfold own_start. destruct (fs !! p_pgxactoff my) as [[[v|] subs]|] eqn:E; cbv zeta.
  - rewrite (den_top _ _ _ Hden _ _ E). pose proof (den_window _ _ _ Hden _ _ v E eq_refl) as Hw. simpl.
    rewrite (normal_precedes_window lo) by done.
    assert (TransactionIdIsNormal (u32 v) = true) as -> by (apply Z.geb_le; apply Hw).
    destruct (Z.ltb_spec v X); simpl; (split; [done|]); (split; [lia|done]).
  - rewrite (den_top _ _ _ Hden _ _ E). simpl. split; [done|]. by split.
  - apply lookup_ge_None_1 in E. rewrite lookup_ge_None_2 by (rewrite (den_xids _ _ _ Hden), <- (den_len _ _ _ Hden); done).
    by split.
Qed.

Abbreviation running := (counted a fs (p_pgxactoff my) X).
Abbreviation taken := (snap (build_snapshot my cid a old)).

(** The snapshot stands for what the loop on full ids collects. *)
Lemma taken_denotes :
  exists g, collected lo a fs (p_pgxactoff my) X own_start (numProcs a) g /\
    suboverflowed taken = g_over g /\
    snapshot_denotes lo {| fxmin := g_min g; fxmax := X; ftop := g_top g; fsub := g_sub g |} taken.
Proof.
  destruct own_start_spec as (Hw & Hle & Est). cbv zeta in Est.
  pose proof (loop_collects lo a fs (p_pgxactoff my) X Hden own_start (numProcs a) Hw ltac:(done)) as Hcol.
  pose proof (loop_refines lo a fs (p_pgxactoff my) X Hden HX
    {| sc_xmin := u32 own_start; sc_xip := []; sc_subxip := []; sc_suboverflowed := false |} (fstart own_start)) as Href.
  destruct Href as (E1 & E2 & E3 & E4 & _); [exact (conj eq_refl (conj eq_refl (conj eq_refl (conj eq_refl Hw))))|].
  exists (full_loop a fs (p_pgxactoff my) X (numProcs a) (fstart own_start)). split; [done|].
  assert (Emax : TransactionIdAdvance (XidFromFullTransactionId latest) = u32 X)
    by (rewrite <- full_advance_xid by done; done).
  unfold build_snapshot. rewrite Emax, Est. cbn [snap suboverflowed]. split; [done|].
  set (g := full_loop _ _ _ _ _ _) in *. clearbody g. destruct Hcol as [[Hm Hmw] Htop Hlow _ _ _ [Hn1 Hn2]].
  unfold snapshot_denotes. cbn [xmin xmax xip subxip fxmin fxmax ftop fsub takenDuringRecovery].
  split; [done|]. split; [done|]. split; [lia|]. split; [done|]. split; [done|].
  unfold PGPROC_MAX_CACHED_SUBXIDS in Hn2. split; [lia|]. split; [lia|].
  split; [|split; [|split; [|done]]].
  - constructor; [done|]. constructor; [done|]. apply list.Forall_forall. intros v Hv. by apply Hlow.
  - apply list.Forall_forall. intros v Hv. split; [apply Hlow; apply elem_of_app; by left|].
    apply Htop in Hv as (i & e & w & _ & Hc & ->). apply Hc.
  - apply list.Forall_forall. intros v Hv. apply Hlow. apply elem_of_app. by right.
Qed.

Lemma counted_below i e v : running i e v -> (i < numProcs a)%nat.
Proof. intros (H & _). rewrite <- (den_len _ _ _ Hden). by eapply lookup_lt_Some. Qed.

Lemma below_all (P : nat -> fentry -> Z -> Prop) :
  (exists i e v, (i < numProcs a)%nat /\ running i e v /\ P i e v) <-> (exists i e v, running i e v /\ P i e v).
Proof.
  split; intros (i & e & v & H); exists i, e, v; [tauto|]. split; [by eapply counted_below, H|done].
Qed.

Lemma taken_overflow : suboverflowed taken = true <-> exists i e v, running i e v /\ suboverflow a i = true.
Proof. destruct taken_denotes as (g & Hcol & -> & _). by rewrite (col_over _ _ _ _ _ _ _ _ Hcol), below_all. Qed.

Lemma taken_lists topmost x t :
  in_window lo x -> in_window lo t -> t <= x -> topmost (u32 x) = u32 t ->
  XidInMVCCSnapshot topmost (u32 x) taken = true <->
  X <= x \/ exists i e v, running i e v /\ if suboverflowed taken then t = v else x = v \/ x ∈ f_subs e.
Proof.
  intros Hx Ht Htx Etop. destruct taken_denotes as (g & Hcol & Eo & Hd).
  rewrite (xid_in_snapshot_spec topmost lo _ _ x t Hd) by done. unfold listed_running. cbn [fxmax ftop fsub].
  change (takenDuringRecovery taken) with false. rewrite Eo. apply or_iff_compat_l. destruct (g_over g) eqn:Eg.
  - rewrite <- list_elem_of_In, (col_top _ _ _ _ _ _ _ _ Hcol). by rewrite below_all.
  - rewrite <- list_elem_of_In, elem_of_app, (col_top _ _ _ _ _ _ _ _ Hcol), (col_sub _ _ _ _ _ _ _ _ Hcol Eg).
    rewrite !below_all. split; [intros [H|H]; destruct H as (i & e & v & Hr & H)|intros (i & e & v & Hr & [H|H])].
    + exists i, e, v. by split; [|left].
    + exists i, e, v. by split; [|right].
    + left. by exists i, e, v.
    + right. by exists i, e, v.
Qed.

Lemma taken_xmin : exists M, xmin taken = u32 M /\ in_window lo M /\ M <= X /\
  (forall i e v, running i e v -> M <= v) /\
  (forall e v, fs !! p_pgxactoff my = Some e -> f_top e = Some v -> M <= v).
Proof.
  destruct taken_denotes as (g & Hcol & _ & Hd). exists (g_min g). destruct Hd as (E & _ & Hle & _).
  split; [done|]. split; [apply (col_min _ _ _ _ _ _ _ _ Hcol)|]. split; [done|]. split.
  - intros i e v Hr. apply (col_low _ _ _ _ _ _ _ _ Hcol), elem_of_app. left.
    apply (col_top _ _ _ _ _ _ _ _ Hcol). exists i, e, v. split; [by eapply counted_below|done].
  - intros e v He Hv. destruct (col_min _ _ _ _ _ _ _ _ Hcol) as [Hm _]. unfold own_start in Hm.
    rewrite He in Hm. destruct e as [[w|] subs]; simplify_eq/=. destruct (Z.ltb_spec v X); lia.
Qed.
End contents.

(** C20 -- What a snapshot answers.  Let the array stand for full ids in one window, and let
    [xmax] be the id after the last one completed.  For a snapshot that
    [GetSnapshotData] builds, [XidInMVCCSnapshot] says of an id with topmost
    parent [t] that it is still running exactly when it is not older than [xmax]
    or a process other than the backend itself runs it: as its transaction or as one of
    its cached subtransactions, or, once some process has more subtransactions than
    its cache holds, as the transaction of the topmost parent.  Processes that do
    lazy vacuum or logical decoding are left out.  The snapshot's [xmin] is not
    newer than any of these transactions nor than the backend's own. *)
Theorem snapshot_lists_running topmost lo a fs my cid old x t :
  let latest := latestCompletedXid (pa_vars a) in
  let X := value (FullTransactionIdAdvance latest) in
  let running := counted a fs (p_pgxactoff my) X in
  let s := snap (build_snapshot my cid a old) in
  denotes lo a fs -> normal_full latest -> value latest + 4 < 2 ^ 64 -> in_window lo X ->
  Z.of_nat (numProcs a) <= 2 ^ 18 ->
  in_window lo x -> in_window lo t -> t <= x -> topmost (u32 x) = u32 t ->
  (XidInMVCCSnapshot topmost (u32 x) s = true <->
   X <= x \/ exists i e v, running i e v /\ if suboverflowed s then t = v else x = v \/ x ∈ f_subs e) /\
  (suboverflowed s = true <-> exists i e v, running i e v /\ suboverflow a i = true) /\
  (exists M, xmin s = u32 M /\ M <= X /\ (forall i e v, running i e v -> M <= v) /\
     forall e v, fs !! p_pgxactoff my = Some e -> f_top e = Some v -> M <= v).
Proof.
  cbv zeta. intros Hden Hl Hr HX Hp Hx Ht Htx Etop. split; [|split].
  - by apply (taken_lists lo).
  - by apply (taken_overflow lo).
  - destruct (taken_xmin lo a fs my cid old Hden Hl Hr HX Hp) as (M & H1 & _ & H3). by exists M.
Qed.

(** ** Searching for one transaction *)

Section progress.
Context (lo : Z) (a : ProcArrayStruct) (fs : list fentry) (me : nat) (x : Z).
Context (Hden : denotes lo a fs) (Hx : in_window lo x).

(** The process at offset [i] shows that [x] runs. *)
Definition shows (i : nat) : Prop :=
  exists e v, i <> me /\ fs !! i = Some e /\ f_top e = Some v /\ (x = v \/ x ∈ f_subs e).

(** The process at offset [i] runs [v] and may run [x] as an uncached subtransaction of [v]. *)
Definition uncached (i : nat) (v : Z) : Prop :=
  exists e, i <> me /\ fs !! i = Some e /\ f_top e = Some v /\ v <= x /\ suboverflow a i = true.

Lemma shown_cached e :
  (forall y, y ∈ f_subs e -> in_window lo y) ->
  existsb (Z.eqb (u32 x)) (rev (map u32 (f_subs e))) = true <-> x ∈ f_subs e.
Proof.
  intros Hw. rewrite existsb_exists. split.
  - intros (y & Hy & E%Z.eqb_eq). apply in_rev, in_map_iff in Hy as (w & <- & Hw'). apply list_elem_of_In in Hw'.
    by rewrite (u32_window_inj lo x w Hx (Hw w Hw') E).
  - intros H. exists (u32 x). split; [|apply Z.eqb_refl]. apply in_rev. rewrite rev_involutive.
    by apply in_map, list_elem_of_In.
Qed.

(** What the loop reports on the offsets [l], having collected [vs] before. *)
Definition reports (l : list nat) (vs : list Z) (r : option (list TransactionId)) : Prop :=
  match r with
  | None => exists i, i ∈ l /\ shows i
  | Some xids => (forall i, i ∈ l -> ~ shows i) /\
      exists ws, xids = map u32 ws /\ forall v, v ∈ ws <-> v ∈ vs \/ exists i, i ∈ l /\ uncached i v
  end.

(** An offset that does not show [x] leaves the rest of the loop to decide. *)
Lemma reports_skip i l vs us r :
  (~ shows i) -> (forall v, v ∈ us <-> v ∈ vs \/ uncached i v) -> reports l us r -> reports (i :: l) vs r.
Proof.
  intros Hno Hus H. destruct r as [xids|]; cbn [reports] in *.
  - destruct H as [H1 (ws & -> & Hws)]. split; [intros j [->|Hj]%elem_of_cons; [done|by apply H1]|].
    exists ws. split; [done|]. intros v. rewrite Hws, Hus. setoid_rewrite elem_of_cons. split.
    + intros [[?|?]|(j & ? & ?)]; eauto.
    + intros [?|(j & [->|?] & ?)]; eauto.
  - destruct H as (j & Hj & Hs). exists j. split; [by right|done].
Qed.

Lemma progress_loop_reports l vs :
  (forall i, i ∈ l -> (i < numProcs a)%nat) -> reports l vs (progress_loop a me (u32 x) l (map u32 vs)).
Proof.
  revert vs. induction l as [|i l IH]; intros vs Hl; cbn [progress_loop].
  { split; [intros i H; by apply elem_of_nil in H|]. exists vs. split; [done|]. intros v. split; [by left|].
    intros [H|(i & H & _)]; [done|by apply elem_of_nil in H]. }
  assert (Hi : (i < numProcs a)%nat) by (apply Hl; by left).
  assert (Hl' : forall j, j ∈ l -> (j < numProcs a)%nat) by (intros j Hj; apply Hl; by right).
  destruct (lookup_lt_is_Some_2 fs i) as [e He]; [by rewrite (den_len _ _ _ Hden)|].
  rewrite (den_top _ _ _ Hden i e He). change (default InvalidTransactionId (Some ?y)) with y.
  cbv zeta. change (match pgprocnos a !! i ≫= _ with Some _ => _ | None => _ end) with (cached a i). rewrite (den_subs _ _ _ Hden i e He). fold (suboverflow a i).
  assert (Hsame : (forall v, ~ uncached i v) -> forall v, v ∈ vs <-> v ∈ vs \/ uncached i v) by (intros Hu v; split; [by left|by intros [|[]%Hu]]).
  destruct (Nat.eqb_spec i me) as [Hme|Hme].
  { eapply reports_skip; [|apply Hsame|by apply IH]; [intros (? & ? & ? & _); done|intros v (? & ? & _); done]. }
  destruct (f_top e) as [v|] eqn:Ev; cbn [xid_of].
  2: { change (negb (TransactionIdIsValid InvalidTransactionId)) with true. cbv iota.
       eapply reports_skip; [|apply Hsame|by apply IH]; [intros (? & ? & _ & ? & ? & _)|intros w (? & _ & ? & ? & _)]; congruence. }
  pose proof (den_window _ _ _ Hden i e v He Ev) as Hv.
  assert (TransactionIdIsValid (u32 v) = true) as ->.
  { destruct Hv as [_ Hv]. unfold TransactionIdIsValid, InvalidTransactionId, FirstNormalTransactionId in *.
    destruct (Z.eqb_spec (u32 v) 0); [lia|done]. }
  cbn [negb]. destruct (Z.eqb_spec (u32 v) (u32 x)) as [E|E].
  { apply (u32_window_inj lo) in E; [|done..]. subst v. exists i. split; [by left|]. exists e, x. auto. }
  assert (Hvx : v <> x) by congruence.
  rewrite precedes_window_le by (apply Hx || apply Hv || (destruct Hx, Hv; lia)).
  destruct (Z.ltb_spec x v) as [Hlt|Hge].
  { eapply reports_skip; [|apply Hsame|by apply IH].
    - intros (e' & w & _ & ? & ? & [->|Hin]); simplify_eq.
      pose proof (den_sub_later _ _ _ Hden _ _ _ _ He Ev Hin). lia.
    - intros w (e' & _ & ? & ? & ? & _). simplify_eq. lia. }
  destruct (existsb _ _) eqn:Ec.
  { apply shown_cached in Ec; [|intros y Hy; by eapply (den_sub_window _ _ _ Hden)].
    exists i. split; [by left|]. exists e, v. auto. }
  eapply (reports_skip i l vs (if suboverflow a i then vs ++ [v] else vs)).
  - intros (e' & w & _ & ? & ? & [->|Hin]); simplify_eq.
    apply (proj2 (shown_cached _ (fun y Hy => den_sub_window _ _ _ Hden _ _ y He Hy))) in Hin. congruence.
  - intros w. unfold uncached. destruct (suboverflow a i); [|split; [by left|intros [?|(? & _ & _ & _ & _ & ?)]; done]].
    rewrite elem_of_app, list_elem_of_singleton. apply or_iff_compat_l. split.
    + intros ->. by exists e.
    + intros (e' & _ & ? & ? & _). by simplify_eq.
  - destruct (suboverflow a i); [change [u32 v] with (map u32 [v]); rewrite <- map_app|]; by apply IH.
Qed.

Lemma progress_loop_length l xids r :
  progress_loop a me (u32 x) l xids = Some r -> (length r <= length xids + length l)%nat.
Proof.
  revert xids. induction l as [|i l IH]; intros xids; cbn [progress_loop]; [intros [= ->]; simpl; lia|]. cbv zeta.
  assert (IH' : forall ys, (length ys <= S (length xids))%nat -> progress_loop a me (u32 x) l ys = Some r ->
    (length r <= length xids + length (i :: l))%nat) by (intros ys Hy H; apply IH in H; simpl; lia).
  repeat case_match; try done; apply IH'; try lia; rewrite length_app; simpl; lia.
Qed.

Lemma progress_search :
  Z.of_nat (numProcs a) < 2 ^ 32 ->
  match progress_loop a me (u32 x) (seq 0 (numProcs a)) [] with
  | None => exists i, shows i
  | Some xids => (forall i, ~ shows i) /\
      forall t, in_window lo t -> xip_find (u32 t) xids = true <-> exists i, uncached i t
  end.
Proof.
  intros Hn. pose proof (progress_loop_length (seq 0 (numProcs a)) []) as Hlen. rewrite length_seq in Hlen.
  assert (Hseq : forall i e, fs !! i = Some e -> i ∈ seq 0 (numProcs a)).
  { intros i e He. apply elem_of_seq. apply lookup_lt_Some in He. rewrite (den_len _ _ _ Hden) in He. lia. }
  pose proof (progress_loop_reports (seq 0 (numProcs a)) []) as Hrep. change (map u32 []) with (@nil Z) in Hrep.
  destruct (progress_loop _ _ _ _ _) as [xids|].
  2: { destruct Hrep as (i & _ & Hi); [intros i Hi; apply elem_of_seq in Hi; lia|by exists i]. }
  specialize (Hlen xids eq_refl).
  destruct Hrep as [Hno (ws & -> & Hws)]; [intros i Hi; apply elem_of_seq in Hi; lia|]. rewrite length_map in Hlen. simpl in Hlen.
  split; [intros i Hi; eapply Hno, Hi; destruct Hi as (e & v & _ & He & _); by eapply Hseq|].
  intros t Ht. rewrite (xip_find_spec lo); [|done| |lia].
  - rewrite <- list_elem_of_In, Hws. split.
    + intros [H|(i & _ & H)]; [by apply elem_of_nil in H|by exists i].
    + intros (i & H). right. exists i. split; [|done]. destruct H as (e & _ & He & _). by eapply Hseq.
  - apply list.Forall_forall. intros v [H|(i & _ & e & _ & He & Hv & _)]%Hws; [by apply elem_of_nil in H|].
    by eapply (den_window _ _ _ Hden).
Qed.
End progress.

(** The answer in terms of what the processes show. *)
Lemma in_progress_spec o lo a fs my R x t :
  let latest := latestCompletedXid (pa_vars a) in
  let me := p_pgxactoff my in
  let running y := IsCurrentTransactionId o (u32 y) = true \/ value latest < y \/
    (exists i, shows fs me y i) \/
    (exists i, uncached a fs me y i t /\ y <> t /\ DidAbort o (u32 y) = false) in
  denotes lo a fs -> Z.of_nat (numProcs a) < 2 ^ 32 ->
  in_window lo (value latest) -> in_window lo R -> in_window lo x -> in_window lo t -> t <= x ->
  RecentXmin o = u32 R -> GetTopmostTransaction o (u32 x) = u32 t ->
  (x < R -> ~ running x) -> (cachedXidIsNotInProgress o = u32 x -> ~ running x) ->
  let '(answer, cache) := TransactionIdIsInProgress o my a (u32 x) in
  (answer = true <-> running x) /\ (cache = cachedXidIsNotInProgress o \/ (cache = u32 x /\ ~ running x)).
Proof.
  intros latest me running Hden Hn Hlw HR Hx Ht Htx ER Etop Hold Hcache.
  assert (Hyes : running x -> (true = true <-> running x) /\
    (cachedXidIsNotInProgress o = cachedXidIsNotInProgress o \/
     (cachedXidIsNotInProgress o = u32 x /\ ~ running x))) by (intros; split; [done|by left]).
  assert (Hno : forall c, (c = cachedXidIsNotInProgress o \/ c = u32 x) -> ~ running x ->
    (false = true <-> running x) /\ (c = cachedXidIsNotInProgress o \/ (c = u32 x /\ ~ running x)))
    by (intros c [|] ?; split; [done|by left|done|by right]).
  unfold TransactionIdIsInProgress. rewrite ER, Etop.
  destruct HR as [HR HRn], Hx as [Hx Hxn], Hlw as [Hlw Hln].
  rewrite precedes_window_le by (done || lia). destruct (Z.ltb_spec x R) as [Hlt|_]; [apply Hno; auto|].
  destruct (Z.eqb_spec (cachedXidIsNotInProgress o) (u32 x)) as [Ec|_]; [apply Hno; auto|].
  destruct (IsCurrentTransactionId o (u32 x)) eqn:Ecur; [apply Hyes; by left|].
  change (XidFromFullTransactionId (latestCompletedXid (pa_vars a))) with (u32 (value latest)).
  rewrite precedes_window_le by (done || lia). destruct (Z.ltb_spec (value latest) x) as [Hlt|Hge]; [apply Hyes; by right; left|].
  fold me. assert (Hx' : in_window lo x) by done.
  pose proof (progress_search lo a fs me x Hden Hx' Hn) as Hs.
  destruct (progress_loop _ _ _ _ _) as [xids|]; [|apply Hyes; by right; right; left].
  destruct Hs as [Hns Hun]. specialize (Hun t Ht).
  assert (Hneed : (~ exists i, uncached a fs me x i t /\ x <> t /\ DidAbort o (u32 x) = false) -> ~ running x).
  { intros Hu [?|[?|[[i Hi]|?]]]; [congruence|lia|by eapply Hns|done]. }
  destruct xids as [|y xids].
  { apply Hno; [by right|]. apply Hneed. intros (i & Hi & _). discriminate (proj2 Hun ltac:(by exists i)). }
  destruct (DidAbort o (u32 x)) eqn:Ea.
  { apply Hno; [by right|]. apply Hneed. by intros (i & _ & _ & ?). }
  destruct (Z.eqb_spec (u32 t) (u32 x)) as [Et|Et]; cbn [negb andb].
  { apply Hno; [by right|]. apply Hneed. intros (i & _ & Hne & _). apply Hne. symmetry. by apply (u32_window_inj lo). }
  destruct (xip_find (u32 t) (y :: xids)) eqn:Ef.
  - apply Hyes. right; right; right. destruct (proj1 Hun eq_refl) as [i Hi]. exists i. split; [done|]. split; [congruence|done].
  - apply Hno; [by right|]. apply Hneed. intros (i & Hi & _). discriminate (proj2 Hun ltac:(by exists i)).
Qed.

(** C23 -- [TransactionIdIsInProgress] is exact.  Let the array stand for full ids in one
    window, [RecentXmin] be no newer than any id of the array or of the backend
    itself, and the cached answer be right.  The function says that [x] is in progress
    exactly when [x] belongs to the backend, or is newer than the last
    completed id, or another process shows it as its transaction or as a cached
    subtransaction, or its topmost parent is the transaction of another process
    whose cache overflowed and [x] has not aborted; and the answer it caches
    is right. *)
Theorem in_progress_exact o lo a fs my R x t :
  let latest := latestCompletedXid (pa_vars a) in
  let me := p_pgxactoff my in
  let running y := IsCurrentTransactionId o (u32 y) = true \/ value latest < y \/
    (exists i, shows fs me y i) \/
    (exists i, uncached a fs me y i t /\ y <> t /\ DidAbort o (u32 y) = false) in
  denotes lo a fs -> Z.of_nat (numProcs a) < 2 ^ 32 ->
  in_window lo (value latest) -> in_window lo R -> in_window lo x -> in_window lo t -> t <= x ->
  RecentXmin o = u32 R -> GetTopmostTransaction o (u32 x) = u32 t ->
  (x < R -> ~ running x) -> (cachedXidIsNotInProgress o = u32 x -> ~ running x) ->
  let '(answer, cache) := TransactionIdIsInProgress o my a (u32 x) in
  (answer = true <-> running x) /\ (cache = cachedXidIsNotInProgress o \/ (cache = u32 x /\ ~ running x)).
Proof. intros latest me running. apply in_progress_spec. Qed.

(** The three backends of [ArrayExample], seen by the first one. *)
Module ArraySpecExample.
Import ArrayExample.

Definition entries : list fentry :=
  [ {| f_top := None; f_subs := [] |}; {| f_top := Some 100; f_subs := [101] |}; {| f_top := None; f_subs := [] |} ].

Lemma small_window v : 3 <= v < 2 ^ 31 -> in_window 0 v.
Proof. intros H. split; [lia|]. unfold FirstNormalTransactionId. rewrite u32_small by lia. lia. Qed.

Lemma entries_denote : denotes 0 busy entries.
Proof.
  assert (Hcase : forall i e, entries !! i = Some e ->
    (f_subs e = [] /\ f_top e = None /\ (i = 0 \/ i = 2)%nat) \/ (f_subs e = [101] /\ f_top e = Some 100 /\ i = 1%nat)).
  { intros [|[|[|i]]] e He; try discriminate He; injection He as <-; auto. }
  assert (Hsub : forall i e x, entries !! i = Some e -> x ∈ f_subs e -> x = 101 /\ f_top e = Some 100).
  { intros i e x [(-> & _)|(-> & -> & _)]%Hcase; [by intros ?%elem_of_nil|by intros ->%list_elem_of_singleton]. }
  split; try reflexivity.
  - by intros i e [(_ & -> & [-> | ->])|(_ & -> & ->)]%Hcase.
  - by intros i e [(-> & _ & [-> | ->])|(-> & _ & ->)]%Hcase.
  - intros i e [(-> & _)|(-> & _)]%Hcase; unfold PGPROC_MAX_CACHED_SUBXIDS; simpl; lia.
  - intros i e v [(_ & -> & _)|(_ & -> & _)]%Hcase; [done|]. intros [= <-]. apply small_window. lia.
  - intros i e x He [-> _]%(Hsub i e x He). apply small_window. lia.
  - intros i e v x He Hv [-> Ht]%(Hsub i e x He). rewrite Hv in Ht. injection Ht as ->. lia.
Qed.

Definition first_proc : Proc := default idle (allProcs busy !! 0%nat).
Definition old_snapshot : SnapshotData :=
  {| snapshot_type := SNAPSHOT_MVCC; xmin := 0; xmax := 0; xip := []; subxip := []; suboverflowed := false;
     takenDuringRecovery := false; curcid := 0; speculativeToken := 0; vistest _ := false |}.

(** The subtransaction 101 runs for the new snapshot. *)
Lemma snapshot_lists_running_witness :
  XidInMVCCSnapshot (fun _ => 100) 101 (snap (build_snapshot first_proc 0 busy old_snapshot)) = true.
Proof.
  apply (snapshot_lists_running (fun _ => 100) 0 busy entries first_proc 0 old_snapshot 101 100);
    [exact entries_denote|split; vm_compute; intuition discriminate|reflexivity|apply small_window; vm_compute; split; done
    |vm_compute; discriminate|apply small_window; lia|apply small_window; lia|lia|reflexivity|].
  right. exists 1%nat, {| f_top := Some 100; f_subs := [101] |}, 100.
  split; [|right; by left]. by repeat split.
Defined.

Definition first_env : progress_env :=
  {| RecentXmin := 100; cachedXidIsNotInProgress := InvalidTransactionId; IsCurrentTransactionId _ := false;
     DidAbort _ := false; GetTopmostTransaction _ := 100 |}.

(** And so it does for [TransactionIdIsInProgress]. *)
Lemma in_progress_exact_witness : fst (TransactionIdIsInProgress first_env first_proc busy 101) = true.
Proof.
  pose proof (in_progress_exact first_env 0 busy entries first_proc 100 101 100 entries_denote) as H.
  cbv zeta in H. destruct (TransactionIdIsInProgress _ _ _ _) as [answer cache] eqn:E in H.
  change (TransactionIdIsInProgress first_env first_proc busy 101) with
    (TransactionIdIsInProgress first_env first_proc busy (u32 101)). rewrite E.
  apply H; [vm_compute; done|apply small_window; vm_compute; split; done|apply small_window; lia..|lia|reflexivity|reflexivity|lia|discriminate|].
  right; right; left. exists 1%nat, {| f_top := Some 100; f_subs := [101] |}, 100.
  split; [done|]. split; [reflexivity|]. split; [reflexivity|]. right; by left.
Defined.
End ArraySpecExample.
