(* ===== verification/Server.v ===== *)
(** * Backends at work

    The commit log, [pg_subtrans], the counters and the process array together, and the order in which
    backends change them: an id is published in the process array when it is assigned and its parent is recorded
    afterwards ([AssignTransactionId] of [xact.c]); the end of a transaction is written to the commit log page by page and only
    then taken out of the process array ([CommitTransaction], [AbortTransaction], [RecordTransactionAbort]).
    A step of a backend is what it does under one lock; the steps of different backends
    interleave in any order.

    Transactions are named by full ids here; the shared structures hold the 32-bit ids. *)
From S2P Require Import Prelude TransactionId ItemPtr HeapTuple Snapshot Varsup Clog Subtrans ProcArray ProcArraySpec.
Import SubTrans.
Local Open Scope Z_scope.

(** ** State *)

(** What a backend is in the middle of: nothing, between assigning the id [v] and recording its
    parent [p], or writing the pages [us] that are left of the commit or abort of its transaction
    or of the abort of the subtransaction [v] with its committed children [cs]. *)
Inductive work :=
| Working
| Recording (v p : Z)
| Finishing (st : XidStatus) (us : list page_update)
| Undoing (v : Z) (cs : list Z) (us : list page_update).

(** The ids on a backend's transaction stack: the top-level transaction and the subtransactions
    that have not aborted; [RecentXmin] and [TransactionXmin] once it has taken a snapshot; the static [CurrentSnapshotData]. *)
Record backend := {
  b_top : option Z;
  b_subs : list Z;
  b_work : work;
  b_xmins : option (TransactionId * TransactionId);
  b_snapshot : taken_snapshot
}.

Record server := {
  sv_array : ProcArrayStruct;
  sv_log : clog;
  sv_subtrans : subtrans;
  sv_backends : gmap nat backend
}.

Definition no_snapshot : taken_snapshot :=
  {| snap := {| snapshot_type := SNAPSHOT_MVCC; xmin := InvalidTransactionId; xmax := InvalidTransactionId; xip := [];
                subxip := []; suboverflowed := false; takenDuringRecovery := false; curcid := 0; speculativeToken := 0;
                vistest := fun _ => false |};
     snapXactCompletionCount := 0 |}.

Definition new_backend : backend :=
  {| b_top := None; b_subs := []; b_work := Working; b_xmins := None; b_snapshot := no_snapshot |}.

Definition set_ids (top : option Z) (subs : list Z) (w : work) (b : backend) : backend :=
  {| b_top := top; b_subs := subs; b_work := w; b_xmins := b_xmins b; b_snapshot := b_snapshot b |}.
Definition set_work (w : work) (b : backend) : backend := set_ids (b_top b) (b_subs b) w b.

Definition vars (s : server) : TransamVariablesData := pa_vars (sv_array s).
Definition next_id (s : server) : Z := value (nextXid (vars s)).
Definition latest_id (s : server) : Z := value (latestCompletedXid (vars s)).
Definition completions (s : server) : Z := xactCompletionCount (vars s).

Definition set_backend (n : nat) (b : backend) (s : server) : server :=
  {| sv_array := sv_array s; sv_log := sv_log s; sv_subtrans := sv_subtrans s; sv_backends := <[n := b]> (sv_backends s) |}.
Definition set_array (a : ProcArrayStruct) (s : server) : server :=
  {| sv_array := a; sv_log := sv_log s; sv_subtrans := sv_subtrans s; sv_backends := sv_backends s |}.
Definition set_log (c : clog) (s : server) : server :=
  {| sv_array := sv_array s; sv_log := c; sv_subtrans := sv_subtrans s; sv_backends := sv_backends s |}.
Definition set_subtrans (t : subtrans) (s : server) : server :=
  {| sv_array := sv_array s; sv_log := sv_log s; sv_subtrans := t; sv_backends := sv_backends s |}.

Definition option_ids (o : option Z) : list Z := match o with Some v => [v] | None => [] end.

(** An id that is assigned but not yet linked to its parent. *)
Definition pending (b : backend) : list Z := match b_work b with Recording v _ => [v] | _ => [] end.
Definition sub_ids (b : backend) : list Z := b_subs b ++ pending b.
Definition ids (b : backend) : list Z := option_ids (b_top b) ++ sub_ids b.

(** ** Operations *)

(** The work of [GetNewTransactionId] under [XidGenLock]: both logs get room for the id, the counter moves,
    the id is published in the process array. *)
Definition assign_id (isSubXact : bool) (n : nat) (s : server) : option server :=
  let xid := XidFromFullTransactionId (nextXid (vars s)) in
  a ← publish isSubXact xid n (set_vars (set_nextXid (FullTransactionIdAdvance (nextXid (vars s))) (vars s)) (sv_array s));
  Some {| sv_array := a; sv_log := ExtendCLOG xid (sv_log s); sv_subtrans := ExtendSUBTRANS xid (sv_subtrans s);
          sv_backends := sv_backends s |}.

(** The latest id of a transaction and the children it has. *)
Definition latest_of (v : Z) (cs : list Z) : TransactionId := TransactionIdLatest (u32 v) (length cs) (map u32 cs).

(** Idle in the array: what [InitProcess] leaves. *)
Definition idle_proc (p : Proc) : Prop :=
  p_xid p = InvalidTransactionId /\ p_subxidStatus p = no_subxids /\
  length (p_subxids p) = PGPROC_MAX_CACHED_SUBXIDS /\
  tst (p_statusFlags p) (Z.lor PROC_IN_LOGICAL_DECODING PROC_IN_VACUUM) = false.

(** The backend after [GetSnapshotData]: [RecentXmin] is the new [xmin], and so is [TransactionXmin] unless the
    process [p] advertised one already. *)
Definition with_snapshot (p : Proc) (r : taken_snapshot) (b : backend) : backend :=
  {| b_top := b_top b; b_subs := b_subs b; b_work := b_work b;
     b_xmins := Some (xmin (snap r),
       match b_xmins b with
       | Some (_, x) => if TransactionIdIsValid (p_xmin p) then x else xmin (snap r)
       | None => xmin (snap r)
       end);
     b_snapshot := r |}.

(** The parents recorded for the subtransactions in [l] are not in [l']. *)
Definition no_parent_in (s : server) (l l' : list Z) : Prop :=
  forall w p, w ∈ l -> p ∈ l' -> entry (sv_subtrans s) (u32 w) <> u32 p.

Section steps.
(** Ids stay within one window of [2^31], from [lo] on. *)
Context (lo : Z).

(** One step of the backend [n]. *)
Inductive server_step (n : nat) (s : server) : server -> Prop :=
| step_connect p a :
    sv_backends s !! n = None -> allProcs (sv_array s) !! n = Some p -> idle_proc p ->
    ProcArrayAdd n (sv_array s) = Some a ->
    server_step n s (set_backend n new_backend (set_array a s))
| step_disconnect b a :
    sv_backends s !! n = Some b -> b_top b = None ->
    ProcArrayRemove n InvalidTransactionId (sv_array s) = Some a ->
    server_step n s {| sv_array := a; sv_log := sv_log s; sv_subtrans := sv_subtrans s;
                       sv_backends := delete n (sv_backends s) |}
| step_top b s' :
    sv_backends s !! n = Some b -> b_top b = None ->
    in_window lo (value (FullTransactionIdAdvance (nextXid (vars s)))) -> next_id s + 8 < 2 ^ 64 ->
    assign_id false n s = Some s' ->
    server_step n s (set_backend n (set_ids (Some (next_id s)) [] Working b) s')
| step_sub b p s' :
    sv_backends s !! n = Some b -> b_work b = Working -> p ∈ option_ids (b_top b) ++ b_subs b ->
    in_window lo (value (FullTransactionIdAdvance (nextXid (vars s)))) -> next_id s + 8 < 2 ^ 64 ->
    assign_id true n s = Some s' ->
    server_step n s (set_backend n (set_work (Recording (next_id s) p) b) s')
| step_parent b v p t :
    sv_backends s !! n = Some b -> b_work b = Recording v p ->
    SubTransSetParent (u32 v) (u32 p) (sv_subtrans s) = Some t ->
    server_step n s (set_backend n (set_ids (b_top b) (b_subs b ++ [v]) Working b) (set_subtrans t s))
| step_finish b v st :
    sv_backends s !! n = Some b -> b_work b = Working -> b_top b = Some v ->
    st = TRANSACTION_STATUS_COMMITTED \/ st = TRANSACTION_STATUS_ABORTED ->
    server_step n s (set_backend n (set_work (Finishing st (tree_updates (u32 v) (map u32 (b_subs b)) st)) b) s)
| step_undo b v cs :
    sv_backends s !! n = Some b -> b_work b = Working -> NoDup (v :: cs) -> (forall w, w ∈ v :: cs -> w ∈ b_subs b) ->
    no_parent_in s (filter (fun w => w ∉ v :: cs) (b_subs b)) (v :: cs) ->
    server_step n s
      (set_backend n (set_work (Undoing v cs (tree_updates (u32 v) (map u32 cs) TRANSACTION_STATUS_ABORTED)) b) s)
| step_write b st u us lsn c :
    sv_backends s !! n = Some b -> b_work b = Finishing st (u :: us) ->
    TransactionIdSetPageStatusInternal false lsn u (sv_log s) = Some c ->
    server_step n s (set_backend n (set_work (Finishing st us) b) (set_log c s))
| step_write_undo b v cs u us lsn c :
    sv_backends s !! n = Some b -> b_work b = Undoing v cs (u :: us) ->
    TransactionIdSetPageStatusInternal false lsn u (sv_log s) = Some c ->
    server_step n s (set_backend n (set_work (Undoing v cs us) b) (set_log c s))
| step_end b v st a :
    sv_backends s !! n = Some b -> b_work b = Finishing st [] -> b_top b = Some v ->
    completions s + 1 < 2 ^ 64 ->
    ProcArrayEndTransaction n (latest_of v (b_subs b)) (sv_array s) = Some a ->
    server_step n s (set_backend n (set_ids None [] Working b) (set_array a s))
| step_undone b v cs a :
    sv_backends s !! n = Some b -> b_work b = Undoing v cs [] ->
    completions s + 1 < 2 ^ 64 ->
    XidCacheRemoveRunningXids n (u32 v) (map u32 cs) (latest_of v cs) (sv_array s) = Some a ->
    server_step n s (set_backend n (set_ids (b_top b) (filter (fun w => w ∉ v :: cs) (b_subs b)) Working b) (set_array a s))
| step_end_readonly b a :
    sv_backends s !! n = Some b -> b_top b = None ->
    ProcArrayEndTransaction n InvalidTransactionId (sv_array s) = Some a ->
    server_step n s (set_array a s)
| step_snapshot_of b p cid r a :
    sv_backends s !! n = Some b -> b_work b = Working -> allProcs (sv_array s) !! n = Some p ->
    GetSnapshotData n cid (sv_array s) (b_snapshot b) = Some (r, a) ->
    server_step n s (set_backend n (with_snapshot p r b) (set_array a s)).
End steps.

(** The backend [n] takes a snapshot for its command [cid]. *)
Definition takes_snapshot (n : nat) (cid : CommandId) (s s' : server) : Prop :=
  exists b p r a, sv_backends s !! n = Some b /\ b_work b = Working /\ allProcs (sv_array s) !! n = Some p /\
    GetSnapshotData n cid (sv_array s) (b_snapshot b) = Some (r, a) /\
    s' = set_backend n (with_snapshot p r b) (set_array a s).
