(* ===== verification/ServerInv.v ===== *)
(** * The invariant of the server

    Every id that was assigned is on the stack of exactly one backend or has ended.  The entries of the process
    array show the ids on the stacks; the commit log says nothing final about them before the backend writes
    it, and the final status of those that have ended; [pg_subtrans] leads from every live
    subtransaction to its top-level transaction; the snapshots that may be used again are exact. *)
From S2P Require Import Prelude TransactionId ItemPtr HeapTuple Snapshot Varsup Clog Subtrans ProcArray ProcArraySpec Server.
Import SubTrans.
Local Open Scope Z_scope.

Section inv.
(** The window, and the first id that was assigned since the server started. *)
Context (lo N0 : Z).

Definition assigned (s : server) (v : Z) : Prop := in_window lo v /\ N0 <= v < next_id s.

(** The backend [n] runs the top-level transaction [t]; it runs the subtransaction [v]. *)
Definition runs_top (s : server) (n : nat) (t : Z) : Prop := exists b, sv_backends s !! n = Some b /\ b_top b = Some t.
Definition runs_sub (s : server) (n : nat) (v : Z) : Prop := exists b, sv_backends s !! n = Some b /\ v ∈ sub_ids b.
Definition live (s : server) (v : Z) : Prop := exists n, runs_top s n v \/ runs_sub s n v.
Definition ended (s : server) (v : Z) : Prop := assigned s v /\ ~ live s v.

Definition status (s : server) (v : Z) : option XidStatus := status_of (sv_log s) (u32 v).
Definition parent (s : server) (v : Z) : option TransactionId := SubTransPages.look (sv_subtrans s) (u32 v).

(** The tree a backend is writing to the log, and what is left to write. *)
Definition tree (b : backend) : option (Z * list Z * XidStatus * list page_update) :=
  match b_work b, b_top b with
  | Finishing st us, Some v => Some (v, b_subs b, st, us)
  | Undoing v cs us, _ => Some (v, cs, TRANSACTION_STATUS_ABORTED, us)
  | _, _ => None
  end.

(** The log of the ids of a backend: in progress, except for the pages that are written. *)
Definition log_shows (s : server) (b : backend) : Prop :=
  match tree b with
  | None => forall v, v ∈ ids b -> status s v = Some TRANSACTION_STATUS_IN_PROGRESS
  | Some (x, xs, st, us) =>
      (st = TRANSACTION_STATUS_COMMITTED \/ st = TRANSACTION_STATUS_ABORTED) /\
      exists done, tree_updates (u32 x) (map u32 xs) st = done ++ us /\
      (forall w, w ∈ x :: xs ->
         status s w = Some (status_after false done (u32 w) TRANSACTION_STATUS_IN_PROGRESS)) /\
      (forall w, w ∈ ids b -> w ∉ x :: xs -> status s w = Some TRANSACTION_STATUS_IN_PROGRESS)
  end.

Record backend_ok (s : server) (b : backend) : Prop := {
  bo_idle : b_top b = None -> b_subs b = [] /\ b_work b = Working;
  bo_assigned : forall v, v ∈ ids b -> assigned s v;
  bo_nodup : NoDup (ids b);
  bo_after : forall t v, b_top b = Some t -> v ∈ sub_ids b -> t < v;
  bo_parent : forall v, v ∈ b_subs b ->
    exists p, parent s v = Some (u32 p) /\ p ∈ option_ids (b_top b) ++ b_subs b /\ p < v;
  bo_root : forall v, v ∈ option_ids (b_top b) ++ pending b -> parent s v = Some InvalidTransactionId;
  bo_pending : forall v p, b_work b = Recording v p -> p ∈ option_ids (b_top b) ++ b_subs b /\ p < v;
  bo_undo : forall v cs us, b_work b = Undoing v cs us ->
    NoDup (v :: cs) /\ (forall w, w ∈ v :: cs -> w ∈ b_subs b) /\
    forall w p, w ∈ b_subs b -> w ∉ v :: cs -> p ∈ v :: cs -> parent s w <> Some (u32 p);
  bo_log : log_shows s b
}.

(** What the process array shows of a backend. *)
Record proc_shows (b : backend) (p : Proc) : Prop := {
  ps_top : p_xid p = xid_of (b_top b);
  ps_flags : tst (p_statusFlags p) (Z.lor PROC_IN_LOGICAL_DECODING PROC_IN_VACUUM) = false;
  ps_room : length (p_subxids p) = PGPROC_MAX_CACHED_SUBXIDS;
  ps_count : (count (p_subxidStatus p) <= PGPROC_MAX_CACHED_SUBXIDS)%nat;
  ps_cache : exists cs, take (count (p_subxidStatus p)) (p_subxids p) = map u32 cs /\ NoDup cs /\
    (forall v, v ∈ cs -> v ∈ sub_ids b) /\
    (overflowed (p_subxidStatus p) = false -> forall v, v ∈ sub_ids b -> v ∈ cs)
}.

Record ended_ok (s : server) (v : Z) : Prop := {
  eo_status : status s v = Some TRANSACTION_STATUS_COMMITTED \/ status s v = Some TRANSACTION_STATUS_ABORTED;
  eo_latest : v <= latest_id s;
  eo_parent : parent s v = Some InvalidTransactionId \/ exists p, parent s v = Some (u32 p) /\ assigned s p /\ p < v;
  eo_committed : status s v = Some TRANSACTION_STATUS_COMMITTED ->
    forall p, assigned s p -> parent s v = Some (u32 p) -> ended s p /\ status s p = Some TRANSACTION_STATUS_COMMITTED
}.

(** A snapshot of the backend [n], with the full ids [F], that lists what the other backends run. *)
Record snap_exact (s : server) (n : nat) (r : SnapshotData) (F : full_snapshot) : Prop := {
  sx_denotes : snapshot_denotes lo F r;
  sx_primary : takenDuringRecovery r = false;
  sx_max : fxmax F <= next_id s;
  sx_min : N0 <= fxmin F /\ forall v, live s v -> fxmin F <= v;
  sx_ended : forall v, ended s v -> v < fxmax F;
  sx_tops : forall t, t ∈ ftop F <-> t < fxmax F /\ exists m, m <> n /\ runs_top s m t;
  sx_subs : suboverflowed r = false -> forall v, v ∈ fsub F -> exists m, m <> n /\ runs_sub s m v;
  sx_cover : suboverflowed r = false -> forall m v, m <> n -> runs_sub s m v -> v < fxmax F -> v ∈ fsub F
}.

(** An [xmin] that is no newer than any live id. *)
Definition xmin_ok (s : server) (x : TransactionId) : Prop :=
  exists X, x = u32 X /\ in_window lo X /\ N0 <= X <= next_id s /\ forall v, live s v -> X <= v.

Abbreviation log_clean := (clean_from CLOG_XACTS_PER_PAGE status_of TRANSACTION_STATUS_IN_PROGRESS lo).
Abbreviation subtrans_clean := (clean_from SUBTRANS_XACTS_PER_PAGE SubTransPages.look InvalidTransactionId lo).

Record server_ok (s : server) : Prop := {
  so_array : pa_ok (sv_array s) /\ Z.of_nat (maxProcs (sv_array s)) <= 2 ^ 18;
  so_next : in_window lo (next_id s) /\ N0 <= next_id s /\ lo <= N0 /\ 0 <= N0 /\ next_id s + 4 < 2 ^ 64;
  so_latest : in_window lo (latest_id s) /\ latest_id s < next_id s /\ 0 <= latest_id s /\
    N0 <= value (FullTransactionIdAdvance (latestCompletedXid (vars s)));
  so_count : 0 < completions s < 2 ^ 64;
  so_dom : forall n, n ∈ pgprocnos (sv_array s) <-> is_Some (sv_backends s !! n);
  so_procs : forall n b, sv_backends s !! n = Some b -> exists p, allProcs (sv_array s) !! n = Some p /\ proc_shows b p;
  so_backends : forall n b, sv_backends s !! n = Some b -> backend_ok s b;
  so_disjoint : forall n m b b' v, sv_backends s !! n = Some b -> sv_backends s !! m = Some b' ->
    v ∈ ids b -> v ∈ ids b' -> n = m;
  so_logs : clog_ok (sv_log s) /\ SubTransPages.pages_ok (sv_subtrans s);
  so_clean : log_clean (next_id s) (sv_log s) /\ subtrans_clean (next_id s) (sv_subtrans s);
  so_ended : forall v, ended s v -> ended_ok s v;
  so_xmins : forall n b r x, sv_backends s !! n = Some b -> b_xmins b = Some (r, x) -> xmin_ok s r /\ xmin_ok s x;
  so_snapshots : forall n b, sv_backends s !! n = Some b ->
    snapXactCompletionCount (b_snapshot b) <= completions s /\
    (snapXactCompletionCount (b_snapshot b) = completions s -> exists F, snap_exact s n (snap (b_snapshot b)) F)
}.

(** ** What steps leave alone *)

Lemma live_ids s v : live s v <-> exists n b, sv_backends s !! n = Some b /\ v ∈ ids b.
Proof.
  unfold live, runs_top, runs_sub, ids. split.
  - intros (n & [(b & Hb & Ht)|(b & Hb & Hv)]); exists n, b; (split; [done|]); rewrite elem_of_app; [left|by right].
    rewrite Ht. by left.
  - intros (n & b & Hb & [Hv|Hv]%elem_of_app); exists n; [left|right; by exists b]. exists b. split; [done|].
    destruct (b_top b); [by apply list_elem_of_singleton in Hv as ->|by apply elem_of_nil in Hv].
Qed.

(** Nothing ends, and new ids are live. *)
Record grows (s s' : server) : Prop := {
  gr_next : next_id s <= next_id s';
  gr_top : forall m t, runs_top s m t -> runs_top s' m t;
  gr_sub : forall m v, runs_sub s m v -> runs_sub s' m v;
  gr_top_old : forall m t, runs_top s' m t -> runs_top s m t \/ next_id s <= t;
  gr_sub_old : forall m v, runs_sub s' m v -> runs_sub s m v \/ next_id s <= v;
  gr_new : forall v, in_window lo v -> next_id s <= v < next_id s' -> live s' v
}.

Lemma grows_live s s' v : grows s s' -> live s v -> live s' v.
Proof. intros H (n & [Hv|Hv]); exists n; [left; by eapply gr_top|right; by eapply gr_sub]. Qed.

Lemma grows_live_old s s' v : grows s s' -> live s' v -> live s v \/ next_id s <= v.
Proof.
  intros H (n & [Hv|Hv]); [apply (gr_top_old _ _ H) in Hv as [Hv|Hv]|apply (gr_sub_old _ _ H) in Hv as [Hv|Hv]];
    [left; exists n; by left|by right|left; exists n; by right|by right].
Qed.

Lemma grows_ended s s' v : grows s s' -> ended s' v <-> ended s v.
Proof.
  intros H. split; intros [[Hw Hr] Hl].
  - assert (v < next_id s) by (destruct (decide (v < next_id s)); [done|]; exfalso; apply Hl, (gr_new _ _ H); [done|lia]).
    split; [split; [done|lia]|]. intros Hv. by eapply Hl, grows_live.
  - pose proof (gr_next _ _ H). split; [split; [done|lia]|]. intros [Hv|Hv]%(grows_live_old _ _ _ H); [done|lia].
Qed.

Lemma grows_xmin s s' x : grows s s' -> xmin_ok s x -> xmin_ok s' x.
Proof.
  intros H (X & -> & Hw & Hr & Hl). pose proof (gr_next _ _ H). exists X. split; [done|]. split; [done|]. split; [lia|].
  intros v [Hv|Hv]%(grows_live_old _ _ _ H); [by apply Hl|lia].
Qed.

Lemma grows_exact s s' n r F : grows s s' -> snap_exact s n r F -> snap_exact s' n r F.
Proof.
  intros H [X1 X2 X3 [X4 X4'] X5 X6 X7 X8]. pose proof (gr_next _ _ H). split; [done|done|lia| | | | |].
  - split; [done|]. intros v [Hv|Hv]%(grows_live_old _ _ _ H); [by apply X4'|].
    destruct X1 as (_ & _ & Hle & _). lia.
  - intros v Hv. by apply X5, (grows_ended s s' v H).
  - intros t. rewrite X6. split; intros (Ht & m & Hm & Hr); (split; [done|]); exists m; (split; [done|]).
    + by eapply gr_top.
    + apply (gr_top_old _ _ H) in Hr as [Hr|Hr]; [done|lia].
  - intros Ho v (m & Hm & Hr)%(X7 Ho). exists m. split; [done|]. by eapply gr_sub.
  - intros Ho m v Hm Hr Hv. apply (gr_sub_old _ _ H) in Hr as [Hr|Hr]; [by eapply X8|lia].
Qed.

(** Fewer ids run. *)
Lemma shrinks_xmin s s' x :
  next_id s' = next_id s -> (forall v, live s' v -> live s v) -> xmin_ok s x -> xmin_ok s' x.
Proof.
  intros Hn Hl (X & -> & Hw & Hr & Hx). exists X. rewrite Hn. split; [done|]. split; [done|]. split; [done|]. auto.
Qed.

(** The ids of a tree that is being written are ids of the backend. *)
Lemma tree_ids s b x xs st us : backend_ok s b -> tree b = Some (x, xs, st, us) -> forall w, w ∈ x :: xs -> w ∈ ids b.
Proof.
  intros Hb. unfold tree, ids, sub_ids. destruct (b_work b) as [| |st' us'|v cs us'] eqn:Ew; [done|done| |].
  - destruct (b_top b); [|done]. intros [= -> <- -> ->] w [->|Hw]%elem_of_cons; [by left|]. right. apply elem_of_app. by left.
  - intros [= -> -> <- ->] w Hw. apply elem_of_app. right. apply elem_of_app. left.
    by eapply (proj1 (proj2 (bo_undo _ _ Hb _ _ _ Ew))).
Qed.

Lemma backend_frame s s' b :
  backend_ok s b -> next_id s <= next_id s' ->
  (forall v, v ∈ ids b -> status s' v = status s v /\ parent s' v = parent s v) -> backend_ok s' b.
Proof.
  intros Hb Hn Hsame. pose proof (tree_ids s b) as Htree. pose proof Hb as [B1 B2 B3 B4 B5 B6 B7 B8 B9].
  assert (Hsub : forall v, v ∈ b_subs b -> v ∈ ids b) by (intros v Hv; unfold ids, sub_ids; rewrite !elem_of_app; auto).
  split; [done| |done|done| | |done| |].
  - intros v [Hw Hr]%B2. split; [done|lia].
  - intros v Hv. rewrite (proj2 (Hsame v (Hsub v Hv))). auto.
  - intros v Hv. destruct (Hsame v) as [_ ->]; [|auto]. unfold ids, sub_ids. rewrite !elem_of_app in *. tauto.
  - intros v cs us Ew. destruct (B8 v cs us Ew) as (H1 & H2 & H3). split; [done|]. split; [done|].
    intros w p Hw. rewrite (proj2 (Hsame w (Hsub w Hw))). auto.
  - unfold log_shows in *. destruct (tree b) as [[[[x xs] st] us]|] eqn:Et.
    + destruct B9 as (Hst & done' & E & H1 & H2). split; [done|]. exists done'. split; [done|]. split.
      * intros w Hw. destruct (Hsame w) as [-> _]; [by eapply Htree|by apply H1].
      * intros w Hw Hw'. rewrite (proj1 (Hsame w Hw)). by apply H2.
    + intros v Hv. rewrite (proj1 (Hsame v Hv)). by apply B9.
Qed.

Lemma ended_frame s s' v :
  ended_ok s v -> ended s v -> next_id s <= next_id s' -> latest_id s <= latest_id s' ->
  (forall w, ended s w -> ended s' w) ->
  (forall w, ended s w -> status s' w = status s w /\ parent s' w = parent s w) ->
  (forall p, parent s v = Some (u32 p) -> assigned s' p -> assigned s p) ->
  ended_ok s' v.
Proof.
  intros [E1 E2 E3 E4] Hv Hn Hl He Hsame Hp. destruct (Hsame v Hv) as [Es Ep]. split; rewrite ?Es, ?Ep; [done|lia| |].
  - destruct E3 as [E3|(p & E3 & [Hw Hr] & Hlt)]; [by left|right]. exists p. split; [done|]. split; [split; [done|lia]|done].
  - intros Hc p Ha Epar. destruct (E4 Hc p (Hp p Epar Ha) Epar) as [Hep Hcp]. split; [by apply He|].
    by rewrite (proj1 (Hsame p Hep)).
Qed.
End inv.
