(* ===== verification/ServerArray.v ===== *)
(** * What the steps of a backend do to the process array

    The operations of [procarray.c] seen from the invariant: which process they change, and that it shows
    the ids of its backend afterwards. *)
From S2P Require Import Prelude TransactionId ItemPtr HeapTuple Snapshot Varsup Clog Subtrans ProcArray ProcArraySpec Server ServerInv.
Local Open Scope Z_scope.

(** ** Entering and leaving *)

(** Only the offsets of processes change. *)
Definition moved (a a' : ProcArrayStruct) : Prop :=
  pa_vars a' = pa_vars a /\ maxProcs a' = maxProcs a /\
  forall m p, allProcs a !! m = Some p -> exists i, allProcs a' !! m = Some (set_pgxactoff i p).

Lemma set_off_same p : set_pgxactoff (p_pgxactoff p) p = p.
Proof. by destruct p. Qed.

Lemma alter_off (ps : list Proc) n i m p :
  ps !! m = Some p -> exists j, alter (set_pgxactoff i) n ps !! m = Some (set_pgxactoff j p).
Proof.
  intros Hp. destruct (decide (m = n)) as [->|Hne].
  - exists i. by rewrite list_lookup_alter_eq, Hp.
  - exists (p_pgxactoff p). by rewrite list_lookup_alter_ne, set_off_same by done.
Qed.

Lemma adjust_off l i ps m p :
  ps !! m = Some p -> exists j, adjust_pgxactoff i l ps !! m = Some (set_pgxactoff j p).
Proof.
  revert i ps p. induction l as [|n l IH]; intros i ps p Hp; cbn [adjust_pgxactoff].
  - exists (p_pgxactoff p). by rewrite set_off_same.
  - destruct (alter_off ps n i m p Hp) as (j & Hj). destruct (IH (S i) _ _ Hj) as (k & Hk). by exists k.
Qed.

Lemma elem_of_insert_at i n (l : list nat) m : m ∈ insert_at i n l <-> m = n \/ m ∈ l.
Proof.
  unfold insert_at. rewrite elem_of_app, elem_of_cons. rewrite <- (take_drop i l) at 3. rewrite elem_of_app. tauto.
Qed.

Lemma add_effect n a a' :
  ProcArrayAdd n a = Some a' -> moved a a' /\ forall m, m ∈ pgprocnos a' <-> m = n \/ m ∈ pgprocnos a.
Proof.
  unfold ProcArrayAdd. destruct (allProcs a !! n) as [p|] eqn:Hp; [|done]. cbn [mbind option_bind].
  destruct (_ <=? _)%nat; [done|]. intros [= <-]. cbn [pgprocnos]. split; [|intros m; apply elem_of_insert_at].
  split; [done|]. split; [done|]. intros m q Hq. cbn [allProcs].
  destruct (alter_off _ n (find_position n (pgprocnos a)) m q Hq) as (j & Hj). apply (adjust_off _ _ _ _ _ Hj).
Qed.

Lemma remove_effect n a a' :
  pa_ok a -> n ∈ pgprocnos a -> ProcArrayRemove n InvalidTransactionId a = Some a' ->
  moved a a' /\ forall m, m ∈ pgprocnos a' <-> m <> n /\ m ∈ pgprocnos a.
Proof.
  intros Hok [i Hi]%list_elem_of_lookup. destruct (ok_mirror _ Hok i n Hi) as (p & Hp & Eoff & _).
  unfold ProcArrayRemove. rewrite Hp. cbn [mbind option_bind]. rewrite Eoff.
  change (TransactionIdIsValid InvalidTransactionId) with false. cbv iota. intros [= <-].
  split; [split; [done|]; split; [done|]; intros m q Hq; apply adjust_off, Hq|].
  intros m. cbn [pgprocnos set_procs map_arrays]. unfold delete_at. pose proof (sorted_nodup _ (ok_sorted _ Hok)) as Hnd.
  rewrite <- (take_drop_middle _ _ _ Hi) in Hnd. rewrite <- (take_drop_middle _ _ _ Hi) at 3.
  apply list.NoDup_app in Hnd as (_ & H1 & [H2 _]%NoDup_cons).
  rewrite !elem_of_app, elem_of_cons. split.
  - intros [Hm|Hm]; (split; [intros ->|tauto]); [|done]. apply (H1 n Hm). by left.
  - tauto.
Qed.

Lemma moved_shows b a a' n p :
  moved a a' -> allProcs a !! n = Some p -> proc_shows b p -> exists p', allProcs a' !! n = Some p' /\ proc_shows b p'.
Proof.
  intros (_ & _ & Hm) Hp [P1 P2 P3 P4 P5]. destruct (Hm n p Hp) as (i & Hi). exists (set_pgxactoff i p).
  split; [done|]. by split.
Qed.

(** ** In place *)

(** Only the process [n] changes, to [p]. *)
Definition stored (n : nat) (p : Proc) (a a' : ProcArrayStruct) : Prop :=
  pgprocnos a' = pgprocnos a /\ maxProcs a' = maxProcs a /\ allProcs a' = <[n := p]> (allProcs a).

Lemma shows_same b b' p : proc_shows b p -> b_top b' = b_top b -> sub_ids b' = sub_ids b -> proc_shows b' p.
Proof. intros [P1 P2 P3 P4 P5] Ht Hs. split; [by rewrite Ht|done..|by rewrite Hs]. Qed.

(** A cache of no subtransactions. *)
Lemma shows_none b p : proc_shows b p -> sub_ids b = [] -> count (p_subxidStatus p) = 0%nat.
Proof.
  intros [P1 P2 P3 P4 (cs & E & _ & H & _)] Hs. rewrite Hs in H.
  destruct cs as [|c cs]; [|exfalso; eapply not_elem_of_nil, (H c); by left].
  apply (f_equal length) in E. rewrite length_take in E. simpl in E. unfold PGPROC_MAX_CACHED_SUBXIDS in *. lia.
Qed.

Lemma publish_top n v a a' b p :
  allProcs a !! n = Some p -> proc_shows b p -> sub_ids b = [] -> publish false (u32 v) n a = Some a' ->
  pa_vars a' = pa_vars a /\
  exists p', stored n p' a a' /\ proc_shows (set_ids (Some v) [] Working b) p'.
Proof.
  intros Hp Hb Hs. pose proof (shows_none b p Hb Hs) as H0. unfold publish. rewrite Hp. cbn [mbind option_bind].
  unfold publish_xid. cbn [negb]. intros [= <-]. split; [done|]. eexists. split; [done|].
  destruct Hb as [P1 P2 P3 P4 _]. split; cbn; [done..|]. rewrite H0. exists []. split; [done|]. split; [constructor|].
  split; [by intros v' ?%elem_of_nil|]. by intros _ v' ?%elem_of_nil.
Qed.

Lemma publish_sub n v q a a' b p :
  allProcs a !! n = Some p -> proc_shows b p -> b_work b = Working -> v ∉ ids b -> publish true (u32 v) n a = Some a' ->
  pa_vars a' = pa_vars a /\
  exists p', stored n p' a a' /\ proc_shows (set_work (Recording v q) b) p'.
Proof.
  intros Hp Hb Hw Hv. unfold publish. rewrite Hp. cbn [mbind option_bind]. destruct Hb as [P1 P2 P3 P4 (cs & E & Hnd & H1 & H2)].
  unfold publish_xid, pgproc_view. cbn [negb proc_xid proc_subxids subxidStatus global_xid global_subxidState].
  assert (Hsub : forall w, w ∈ sub_ids (set_work (Recording v q) b) <-> w ∈ sub_ids b \/ w = v).
  { intros w. unfold sub_ids, pending. cbn. rewrite Hw, app_nil_r, elem_of_app, list_elem_of_singleton. done. }
  assert (Hcs : v ∉ cs) by (intros Hin; apply Hv; unfold ids; apply elem_of_app; right; by apply H1).
  destruct (Nat.ltb_spec (count (p_subxidStatus p)) PGPROC_MAX_CACHED_SUBXIDS) as [Hlt|Hge];
    intros [= <-]; (split; [done|]); (eexists; split; [done|]); split; cbn; try done.
  - by rewrite length_insert.
  - exists (cs ++ [v]). split; [|split; [|split]].
    + rewrite (take_S_r _ _ (u32 v)) by (apply list_lookup_insert_eq; lia).
      rewrite take_insert_ge, E, map_app by lia. done.
    + apply list.NoDup_app. split; [done|]. split; [|apply NoDup_singleton]. by intros w Hw' ->%list_elem_of_singleton.
    + intros w [Hw'|Hw']%elem_of_app; apply Hsub; [left; by apply H1|right; by apply list_elem_of_singleton].
    + intros Ho w [Hw'| ->]%Hsub; apply elem_of_app; [left; by apply H2|right; by left].
  - exists cs. split; [done|]. split; [done|]. split; [|done]. intros w Hw'. apply Hsub. left. by apply H1.
Qed.

(** ** The end of a transaction *)

Lemma flags_cleared f k : tst f k = false -> tst (clear_vacuum_flags f) k = false.
Proof.
  unfold clear_vacuum_flags, tst. destruct (vacuum_flags f); [|done]. rewrite !negb_false_iff, !Z.eqb_eq. intros H.
  by rewrite <- Z.land_assoc, (Z.land_comm (Z.lnot _)), Z.land_assoc, H, Z.land_0_l.
Qed.

Lemma end_effect n x a a' b p :
  allProcs a !! n = Some p -> proc_shows b p -> TransactionIdIsValid x = true -> ProcArrayEndTransaction n x a = Some a' ->
  pa_vars a' = count_completion (MaintainLatestCompletedXid x (pa_vars a)) /\
  exists p', stored n p' a a' /\ proc_shows (set_ids None [] Working b) p'.
Proof.
  intros Hp Hb Hx. unfold ProcArrayEndTransaction, ProcArrayEndTransactionInternal. rewrite Hx, Hp. cbn [mbind option_bind].
  intros [= <-]. split; [done|]. eexists. split; [done|]. destruct Hb as [P1 P2 P3 P4 _].
  assert (H0 : count (if has_subxids (p_subxidStatus p) then no_subxids else p_subxidStatus p) = 0%nat).
  { unfold has_subxids. destruct (Nat.ltb_spec 0 (count (p_subxidStatus p))); [done|].
    destruct (overflowed (p_subxidStatus p)); [done|]. simpl. lia. }
  split; cbn; [done|by apply flags_cleared|done|rewrite H0; lia|]. rewrite H0. exists []. split; [done|]. split; [constructor|].
  split; [by intros v' ?%elem_of_nil|]. by intros _ v' ?%elem_of_nil.
Qed.

Lemma end_readonly_effect n a a' b p :
  allProcs a !! n = Some p -> proc_shows b p -> ProcArrayEndTransaction n InvalidTransactionId a = Some a' ->
  pa_vars a' = pa_vars a /\ exists p', stored n p' a a' /\ proc_shows b p'.
Proof.
  intros Hp [P1 P2 P3 P4 P5]. unfold ProcArrayEndTransaction.
  change (TransactionIdIsValid InvalidTransactionId) with false. cbv iota. rewrite Hp. cbn [mbind option_bind].
  intros [= <-]. split; [done|]. eexists. split; [done|]. split; cbn; [done|by apply flags_cleared|done..].
Qed.

(** The counters after a completion: the latest completed id is the maximum. *)
Lemma maintain_latest lo m v :
  in_window lo (value (latestCompletedXid v)) -> in_window lo m -> 0 <= m < 2 ^ 64 ->
  nextXid (count_completion (MaintainLatestCompletedXid (u32 m) v)) = nextXid v /\
  latestCompletedXid (count_completion (MaintainLatestCompletedXid (u32 m) v)) =
    (if value (latestCompletedXid v) <? m then FullXid m else latestCompletedXid v) /\
  xactCompletionCount (count_completion (MaintainLatestCompletedXid (u32 m) v)) = u64 (xactCompletionCount v + 1).
Proof.
  intros [HL HLn] [Hm Hmn] Hr. unfold MaintainLatestCompletedXid. cbv zeta.
  change (XidFromFullTransactionId (latestCompletedXid v)) with (u32 (value (latestCompletedXid v))).
  rewrite precedes_window_le by (done || lia). destruct (value (latestCompletedXid v) <? m) eqn:E; [|done].
  split; [done|]. split; [|done]. cbn [latestCompletedXid count_completion]. unfold FullXidRelativeTo. f_equal.
  change (XidFromFullTransactionId (latestCompletedXid v)) with (u32 (value (latestCompletedXid v))).
  rewrite window_diff, u64_small by lia. lia.
Qed.

(** ** The end of a subtransaction *)

Lemma rfind_spec x l n :
  (n <= length l)%nat ->
  match rfind x l n with
  | Some j => (j < n)%nat /\ l !! j = Some x
  | None => x ∉ take n l
  end.
Proof.
  induction n as [|n IH]; intros Hn; cbn [rfind]; [apply not_elem_of_nil|].
  case_bool_decide as E; [split; [lia|done]|]. specialize (IH ltac:(lia)). destruct (rfind x l n) as [j|]; [split; [lia|apply IH]|].
  destruct (lookup_lt_is_Some_2 l n ltac:(lia)) as [y Hy]. rewrite (take_S_r _ _ _ Hy), elem_of_app, list_elem_of_singleton.
  intros [H|H]; [done|congruence].
Qed.

(** Removing an id from the first [n] entries removes it and nothing else. *)
Lemma remove_one x l n l' n' f :
  (n <= length l)%nat -> NoDup (take n l) -> remove_subxid x l n = (l', n', f) ->
  length l' = length l /\ (n' <= n)%nat /\ NoDup (take n' l') /\ forall y, y ∈ take n' l' <-> y ∈ take n l /\ y <> x.
Proof.
  intros Hn Hnd. unfold remove_subxid. pose proof (rfind_spec x l n Hn) as Hf. destruct (rfind x l n) as [j|].
  2: { intros [= <- <- _]. split; [done|]. split; [done|]. split; [done|]. intros y. split; [|tauto]. intros Hy. split; [done|]. by intros ->. }
  destruct Hf as [Hj Hx]. intros [= <- <- _]. destruct n as [|n]; [lia|]. replace (S n - 1)%nat with n by lia.
  destruct (lookup_lt_is_Some_2 l n ltac:(lia)) as [z Hz]. rewrite Hz. cbn [default].
  rewrite length_insert. split; [done|]. split; [lia|]. rewrite (take_S_r _ _ _ Hz) in Hnd |- *.
  apply list.NoDup_app in Hnd as (Hnd & Hdis & _). assert (Hzn : z ∉ take n l) by (intros H; apply (Hdis z H); by left).
  destruct (decide (j = n)) as [->|Hne].
  - rewrite take_insert_ge by lia. split; [done|]. replace x with z by congruence. intros y. rewrite elem_of_app, list_elem_of_singleton.
    split; [|tauto]. intros Hy. split; [by left|]. by intros ->.
  - rewrite take_insert_lt by lia. assert (Hxj : take n l !! j = Some x) by (by rewrite lookup_take_lt by lia).
    assert (Hperm : x :: <[j := z]> (take n l) ≡ₚ z :: take n l).
    { rewrite <- (take_drop_middle (take n l) j x Hxj) at 2. rewrite insert_take_drop by (apply lookup_lt_Some in Hxj; done).
      rewrite <- !Permutation_middle. apply Permutation_swap. }
    assert (Hall : NoDup (x :: <[j := z]> (take n l))) by (rewrite Hperm; by constructor).
    apply NoDup_cons in Hall as [Hxn Hall]. split; [done|]. intros y.
    assert (Hy : y ∈ x :: <[j := z]> (take n l) <-> y ∈ z :: take n l) by (by rewrite Hperm).
    rewrite !elem_of_cons in Hy. rewrite elem_of_app, list_elem_of_singleton.
    destruct (decide (y = x)) as [->|]; tauto.
Qed.

Lemma remove_all xs l n :
  (n <= length l)%nat -> NoDup (take n l) ->
  let '(l', n') := remove_subxids xs l n in
  length l' = length l /\ (n' <= n)%nat /\ NoDup (take n' l') /\ forall y, y ∈ take n' l' <-> y ∈ take n l /\ y ∉ xs.
Proof.
  revert l n. induction xs as [|x xs IH]; intros l n Hn Hnd; cbn [remove_subxids].
  - split; [done|]. split; [done|]. split; [done|]. intros y. split; [|tauto]. intros Hy. split; [done|apply not_elem_of_nil].
  - destruct (remove_subxid x l n) as [[l1 n1] f] eqn:E. destruct (remove_one _ _ _ _ _ _ Hn Hnd E) as (H1 & H2 & H3 & H4).
    specialize (IH l1 n1 ltac:(lia) H3). destruct (remove_subxids xs l1 n1) as [l2 n2]. destruct IH as (I1 & I2 & I3 & I4).
    split; [congruence|]. split; [lia|]. split; [done|]. intros y. rewrite I4, H4, not_elem_of_cons. tauto.
Qed.

(** The full id in the window that a 32-bit id stands for. *)
Definition full (lo : Z) (x : TransactionId) : Z := lo + u32 (x - lo).

Lemma full_u32 lo v : in_window lo v -> full lo (u32 v) = v.
Proof. intros [Hv _]. unfold full. rewrite u32_sub_l, u32_small by lia. lia. Qed.

Lemma map_full lo l vs : (forall v, v ∈ vs -> in_window lo v) -> (forall x, x ∈ l -> x ∈ map u32 vs) ->
  map u32 (map (full lo) l) = l /\ forall v, v ∈ map (full lo) l <-> v ∈ vs /\ u32 v ∈ l.
Proof.
  intros Hw Hl. assert (Hx : forall x, x ∈ l -> exists v, v ∈ vs /\ x = u32 v).
  { intros x Hx. apply Hl, list_elem_of_fmap in Hx as (v & -> & Hv). by exists v. }
  split.
  - rewrite map_map. rewrite <- (map_id l) at 2. apply map_ext_in. intros x Hin%list_elem_of_In.
    destruct (Hx x Hin) as (v & Hv & ->). by rewrite full_u32 by (by apply Hw).
  - intros v. split.
    + intros (x & -> & Hin)%list_elem_of_fmap. destruct (Hx x Hin) as (w & Hw' & ->). rewrite full_u32 by (by apply Hw). done.
    + intros [Hv Hin]. apply list_elem_of_fmap. exists (u32 v). split; [|done]. by rewrite full_u32 by (by apply Hw).
Qed.

Lemma nodup_full lo l vs :
  (forall v, v ∈ vs -> in_window lo v) -> (forall x, x ∈ l -> x ∈ map u32 vs) -> NoDup l -> NoDup (map (full lo) l).
Proof.
  intros Hw Hl Hnd. apply (NoDup_fmap_1 u32). change (u32 <$> map (full lo) l) with (map u32 (map (full lo) l)).
  by rewrite (proj1 (map_full lo l vs Hw Hl)).
Qed.

Lemma nodup_u32 lo vs : (forall v, v ∈ vs -> in_window lo v) -> NoDup vs -> NoDup (map u32 vs).
Proof.
  intros Hw. induction vs as [|v vs IH]; [constructor|]. intros [Hv Hnd]%NoDup_cons. cbn. constructor.
  - intros (w & E & Hin)%list_elem_of_fmap. apply (u32_window_inj lo) in E; [by subst w|apply Hw; by left|apply Hw; by right].
  - apply IH; [|done]. intros w Hin. apply Hw. by right.
Qed.

Lemma elem_u32 lo v vs : in_window lo v -> (forall w, w ∈ vs -> in_window lo w) -> u32 v ∈ map u32 vs <-> v ∈ vs.
Proof.
  intros Hv Hw. split.
  - intros (w & E & Hin)%list_elem_of_fmap. apply (u32_window_inj lo) in E; [by subst w|done|by apply Hw].
  - intros Hin. apply list_elem_of_fmap. by exists v.
Qed.

Lemma undone_effect lo n v cs us x a a' b p :
  allProcs a !! n = Some p -> proc_shows b p -> b_work b = Undoing v cs us ->
  (forall w, w ∈ sub_ids b -> in_window lo w) -> (forall w, w ∈ v :: cs -> w ∈ b_subs b) ->
  XidCacheRemoveRunningXids n (u32 v) (map u32 cs) x a = Some a' ->
  pa_vars a' = count_completion (MaintainLatestCompletedXid x (pa_vars a)) /\
  exists p', stored n p' a a' /\ proc_shows (set_ids (b_top b) (filter (fun w => w ∉ v :: cs) (b_subs b)) Working b) p'.
Proof.
  intros Hp [P1 P2 P3 P4 (ds & E & Hnd & H1 & H2)] Hw Hwin Hin. unfold XidCacheRemoveRunningXids. rewrite Hp. cbn [mbind option_bind].
  destruct (pa_subxidStates a !! p_pgxactoff p) as [st|]; [|done]. cbn [mbind option_bind].
  assert (Hsub : sub_ids b = b_subs b) by (unfold sub_ids, pending; by rewrite Hw, app_nil_r).
  assert (Hds : forall w, w ∈ ds -> in_window lo w) by (intros w Hw'; by apply Hwin, H1).
  assert (Hvs : forall w, w ∈ v :: cs -> in_window lo w) by (intros w Hw'; apply Hwin; rewrite Hsub; by apply Hin).
  assert (Hrm : forall w, in_window lo w -> u32 w ∈ rev (map u32 cs) ++ [u32 v] <-> w ∈ v :: cs).
  { intros w Hw'. rewrite elem_of_app, list_elem_of_In, <- in_rev, <- list_elem_of_In, list_elem_of_singleton, elem_of_cons.
    rewrite (elem_u32 lo w cs) by (done || (intros z Hz; apply Hvs; by right)).
    split; [intros [H|H]; [by right|left; apply (u32_window_inj lo); [done|apply Hvs; by left|done]]|].
    intros [->|H]; [by right|by left]. }
  pose proof (remove_all (rev (map u32 cs) ++ [u32 v]) (p_subxids p) (count (p_subxidStatus p)) ltac:(lia)) as Hr.
  rewrite E in Hr. specialize (Hr (nodup_u32 lo ds Hds Hnd)).
  destruct (remove_subxids _ _ _) as [l n']. destruct Hr as (R1 & R2 & R3 & R4). intros [= <-]. split; [done|]. eexists. split; [done|].
  assert (Hl : forall x, x ∈ take n' l -> x ∈ map u32 ds) by (intros y Hy; by apply R4).
  destruct (map_full lo _ ds Hds Hl) as [M1 M2].
  assert (Hsub' : forall w, w ∈ sub_ids (set_ids (b_top b) (filter (fun w => w ∉ v :: cs) (b_subs b)) Working b) <->
    w ∈ sub_ids b /\ w ∉ v :: cs).
  { intros w. rewrite Hsub. unfold sub_ids, pending. cbn [set_ids b_subs b_work]. rewrite app_nil_r, list_elem_of_filter. tauto. }
  assert (Hkeep : forall w, w ∈ ds -> w ∈ map (full lo) (take n' l) <-> w ∉ v :: cs).
  { intros w Hw'. rewrite M2, R4, Hrm by (by apply Hds). rewrite (elem_u32 lo w ds) by auto. tauto. }
  split; cbn [p_xid p_statusFlags p_subxids p_subxidStatus count overflowed b_top set_ids]; [done|done|congruence|lia|].
  exists (map (full lo) (take n' l)). split; [done|]. split; [by apply (nodup_full lo _ ds)|]. split.
  - intros w Hw'. pose proof (proj1 (proj1 (M2 w) Hw')) as Hd. apply Hsub'. split; [by apply H1|]. by apply Hkeep.
  - intros Ho w [Hw1 Hw2]%Hsub'. apply Hkeep; [by apply H2|done].
Qed.
