(* ===== verification/ServerSnapshot.v ===== *)
(** * Snapshots of the server

    The process array stands for the ids on the stacks of the backends, so that a snapshot lists exactly
    what the other backends run; a snapshot whose contents are used again because no transaction has completed since is
    as exact as a new one. *)
From S2P Require Import Prelude TransactionId ItemPtr HeapTuple Snapshot Varsup Clog Subtrans ProcArray ProcArraySpec.
From S2P Require Import Server ServerInv ServerArray.
Local Open Scope Z_scope.

Section snapshots.
Context (lo N0 : Z).

(** ** The array as full ids *)

Definition shown (s : server) (n : nat) : fentry :=
  match sv_backends s !! n, allProcs (sv_array s) !! n with
  | Some b, Some p =>
      {| f_top := b_top b; f_subs := map (full lo) (take (count (p_subxidStatus p)) (p_subxids p)) |}
  | _, _ => {| f_top := None; f_subs := [] |}
  end.
Definition entries (s : server) : list fentry := map (shown s) (pgprocnos (sv_array s)).

(** What is known of the process at an offset. *)
Record offset (s : server) (i n : nat) (b : backend) (p : Proc) (cs : list Z) : Prop := {
  of_at : pgprocnos (sv_array s) !! i = Some n;
  of_backend : sv_backends s !! n = Some b;
  of_proc : allProcs (sv_array s) !! n = Some p;
  of_off : p_pgxactoff p = i;
  of_shows : proc_shows b p;
  of_xid : pa_xids (sv_array s) !! i = Some (p_xid p);
  of_states : pa_subxidStates (sv_array s) !! i = Some (p_subxidStatus p);
  of_flags : pa_statusFlags (sv_array s) !! i = Some (p_statusFlags p);
  of_cache : take (count (p_subxidStatus p)) (p_subxids p) = map u32 cs;
  of_subs : f_subs (shown s n) = cs;
  of_top : f_top (shown s n) = b_top b;
  of_sub : forall v, v ∈ cs -> v ∈ sub_ids b;
  of_all : suboverflow (sv_array s) i = false -> forall v, v ∈ sub_ids b -> v ∈ cs
}.

Lemma sub_window s n b v : server_ok lo N0 s -> sv_backends s !! n = Some b -> v ∈ ids b -> in_window lo v.
Proof. intros Hs Hb Hv. by apply (bo_assigned _ _ _ _ (so_backends _ _ _ Hs n b Hb) v Hv). Qed.

Lemma sub_in_ids b v : v ∈ sub_ids b -> v ∈ ids b.
Proof. intros H. apply elem_of_app. by right. Qed.

Lemma offset_of s i n : server_ok lo N0 s -> pgprocnos (sv_array s) !! i = Some n -> exists b p cs, offset s i n b p cs.
Proof.
  intros Hs Hi. destruct (proj1 (so_dom _ _ _ Hs n)) as [b Hb]; [by eapply list_elem_of_lookup_2|].
  destruct (so_procs _ _ _ Hs n b Hb) as (p & Hp & Hsh). pose proof (ps_cache _ _ Hsh) as (cs & Ec & _ & H1 & H2).
  destruct (ok_mirror _ (proj1 (so_array _ _ _ Hs)) i n Hi) as (q & Hq & Eoff & Ex & Es & Ef). rewrite Hp in Hq. injection Hq as <-.
  assert (Hwin : forall v, v ∈ cs -> in_window lo v) by (intros v Hv; by eapply sub_window; [..|apply sub_in_ids, H1]).
  assert (Hfull : map (full lo) (map u32 cs) = cs).
  { rewrite map_map. rewrite <- (map_id cs) at 2. apply map_ext_in. intros v Hv%list_elem_of_In. apply full_u32. auto. }
  exists b, p, cs. split; try done; unfold shown; rewrite ?Hb, ?Hp; cbn [f_subs f_top]; [by rewrite Ec|done|].
  unfold suboverflow. rewrite Es. exact H2.
Qed.

Lemma entry_lookup s i e :
  entries s !! i = Some e -> exists n, pgprocnos (sv_array s) !! i = Some n /\ e = shown s n.
Proof. unfold entries. intros (n & -> & Hn)%list_lookup_fmap_Some. by exists n. Qed.

Lemma server_denotes s : server_ok lo N0 s -> denotes lo (sv_array s) (entries s).
Proof.
  intros Hs. assert (Hof : forall i e, entries s !! i = Some e -> exists n b p cs, offset s i n b p cs /\ e = shown s n).
  { intros i e (n & Hn & ->)%entry_lookup. destruct (offset_of s i n Hs Hn) as (b & p & cs & H). by exists n, b, p, cs. }
  split.
  - unfold entries. by rewrite length_map.
  - apply (ok_xids _ (proj1 (so_array _ _ _ Hs))).
  - intros i e (n & b & p & cs & [] & ->)%Hof. rewrite of_xid0, of_top0. by rewrite (ps_top _ _ of_shows0).
  - intros i e (n & b & p & cs & [] & ->)%Hof. unfold cached. rewrite of_at0. cbn [mbind option_bind].
    rewrite of_proc0, of_states0. change (default no_subxids (Some ?x)) with x. by rewrite of_cache0, of_subs0.
  - intros i e (n & b & p & cs & [] & ->)%Hof. rewrite of_subs0. apply (f_equal length) in of_cache0.
    rewrite length_take, length_map in of_cache0. pose proof (ps_count _ _ of_shows0). lia.
  - intros i e v (n & b & p & cs & [] & ->)%Hof. rewrite of_top0. intros Ht. eapply sub_window; [done..|].
    unfold ids. rewrite Ht. by left.
  - intros i e x (n & b & p & cs & [] & ->)%Hof. rewrite of_subs0. intros Hx. eapply sub_window; [done..|].
    by apply sub_in_ids, of_sub0.
  - intros i e v x (n & b & p & cs & [] & ->)%Hof. rewrite of_subs0, of_top0. intros Ht Hx.
    eapply (bo_after _ _ _ _ (so_backends _ _ _ Hs n b of_backend0)); [done|by apply of_sub0].
Qed.

Lemma entry_at s i n : pgprocnos (sv_array s) !! i = Some n -> entries s !! i = Some (shown s n).
Proof. intros H. change (entries s) with (shown s <$> pgprocnos (sv_array s)). by rewrite list_lookup_fmap, H. Qed.

(** The offset of a backend. *)
Lemma backend_offset s n b :
  server_ok lo N0 s -> sv_backends s !! n = Some b -> exists i p cs, offset s i n b p cs.
Proof.
  intros Hs Hb. assert (Hin : n ∈ pgprocnos (sv_array s)) by (apply (so_dom _ _ _ Hs); by exists b).
  apply list_elem_of_lookup in Hin as [i Hi].
  destruct (offset_of s i n Hs Hi) as (b' & p & cs & H). pose proof (of_backend _ _ _ _ _ _ H) as E.
  rewrite Hb in E. injection E as <-. by exists i, p, cs.
Qed.

Lemma none_skipped s i n b p cs : offset s i n b p cs -> skipped (sv_array s) i = false.
Proof. intros []. unfold skipped. rewrite of_flags0. apply (ps_flags _ _ of_shows0). Qed.

(** ** A new snapshot *)

Lemma advance_latest s :
  server_ok lo N0 s ->
  let X := value (FullTransactionIdAdvance (latestCompletedXid (vars s))) in
  normal_full (latestCompletedXid (vars s)) /\ latest_id s + 4 < 2 ^ 64 /\ in_window lo X /\ latest_id s < X <= next_id s.
Proof.
  intros Hs X. destruct (so_next _ _ _ Hs) as ([Hn1 Hn2] & _ & _ & _ & Hn5). destruct (so_latest _ _ _ Hs) as ([Hl1 Hl2] & Hlt & Hl0 & _).
  assert (Hnorm : normal_full (latestCompletedXid (vars s))) by (split; [unfold latest_id in *; lia|done]).
  assert (Hroom : latest_id s + 4 < 2 ^ 64) by lia.
  assert (EX : X = latest_id s + step_of (u32 (latest_id s))) by (unfold X; by rewrite full_advance_value).
  assert (HX : latest_id s < X <= next_id s).
  { rewrite EX. unfold step_of. destruct (Z.eqb_spec (u32 (latest_id s)) MaxTransactionId) as [E|E]; [|lia].
    unfold MaxTransactionId, FirstNormalTransactionId, u32, wrap in *. Z.div_mod_to_equations. lia. }
  split; [done|]. split; [done|]. split; [|done]. split; [lia|]. apply (full_advance_normal _ Hnorm Hroom).
Qed.

(** A backend other than [n] is at another offset. *)
Lemma offset_inj s i j n m b b' p p' cs cs' :
  server_ok lo N0 s -> offset s i n b p cs -> offset s j m b' p' cs' -> i = j <-> n = m.
Proof.
  intros Hs [] []. split; [intros <-; congruence|intros <-]. congruence.
Qed.

Section build.
Context (s : server) (n : nat) (b : backend) (i : nat) (my : Proc) (cs : list Z) (cid : CommandId) (old : SnapshotData).
Context (Hs : server_ok lo N0 s) (Hof : offset s i n b my cs).
Abbreviation X := (value (FullTransactionIdAdvance (latestCompletedXid (vars s)))).

Lemma counted_runs j e v :
  counted (sv_array s) (entries s) i X j e v -> exists m b' p cs', offset s j m b' p cs' /\ e = shown s m /\ b_top b' = Some v /\ m <> n /\ v < X.
Proof.
  intros (He & Hv & Hne & Hlt & _). apply entry_lookup in He as (m & Hm & ->).
  destruct (offset_of s j m Hs Hm) as (b' & p & cs' & Ho). exists m, b', p, cs'. split; [done|]. split; [done|].
  rewrite (of_top _ _ _ _ _ _ Ho) in Hv. split; [done|]. split; [|done]. intros ->. apply Hne. by eapply offset_inj.
Qed.

Lemma runs_counted m v :
  m <> n -> runs_top s m v -> v < X -> exists j b' p cs', offset s j m b' p cs' /\ counted (sv_array s) (entries s) i X j (shown s m) v.
Proof.
  intros Hne (b' & Hb' & Hv) Hlt. destruct (backend_offset s m b' Hs Hb') as (j & p & cs' & Ho). exists j, b', p, cs'.
  split; [done|]. split; [by apply entry_at, (of_at _ _ _ _ _ _ Ho)|]. split; [by rewrite (of_top _ _ _ _ _ _ Ho)|].
  split; [|split; [done|by eapply none_skipped]]. intros ->. apply Hne. symmetry. by eapply (offset_inj s i i).
Qed.

Lemma top_of_sub m v : runs_sub s m v -> exists t, runs_top s m t /\ t < v.
Proof.
  intros (b' & Hb' & Hv). pose proof (so_backends _ _ _ Hs m b' Hb') as Hok.
  destruct (b_top b') as [t|] eqn:Et.
  - exists t. split; [by exists b'|]. by eapply (bo_after _ _ _ _ Hok).
  - exfalso. destruct (bo_idle _ _ _ _ Hok Et) as [E1 E2]. unfold sub_ids, pending in Hv. rewrite E1, E2 in Hv. by apply elem_of_nil in Hv.
Qed.

(** Where the snapshot's [xmin] starts. *)
Lemma own_start_bounds : N0 <= own_start (sv_array s) (entries s) my <= X /\
  forall t, b_top b = Some t -> own_start (sv_array s) (entries s) my <= t.
Proof.
  unfold own_start. rewrite (of_off _ _ _ _ _ _ Hof), (entry_at s i n (of_at _ _ _ _ _ _ Hof)).
  pose proof (of_top _ _ _ _ _ _ Hof) as Et. destruct (shown s n) as [top subs]. cbn [f_top] in Et. subst top.
  destruct (so_latest _ _ _ Hs) as (_ & _ & _ & HN). change (pa_vars (sv_array s)) with (vars s) in *.
  destruct (b_top b) as [t|] eqn:Eb; [|split; [lia|done]].
  assert (Ht : N0 <= t).
  { apply (bo_assigned _ _ _ _ (so_backends _ _ _ Hs n b (of_backend _ _ _ _ _ _ Hof)) t). unfold ids. rewrite Eb. by left. }
  destruct (Z.ltb_spec t X); (split; [lia|]); intros ? [= <-]; lia.
Qed.

Lemma build_exact : exists F, snap_exact lo N0 s n (snap (build_snapshot my cid (sv_array s) old)) F.
Proof.
  destruct (advance_latest s Hs) as (Hnorm & Hroom & HX & HXr). cbv zeta in HX, HXr.
  assert (Hprocs : Z.of_nat (numProcs (sv_array s)) <= 2 ^ 18).
  { destruct (so_array _ _ _ Hs) as [Ha Hm]. pose proof (ok_room _ Ha). lia. }
  pose proof (server_denotes s Hs) as Hden.
  destruct (taken_denotes lo (sv_array s) (entries s) my cid old Hden Hnorm Hroom HX Hprocs) as (g & Hcol & Eo & Hd).
  rewrite (of_off _ _ _ _ _ _ Hof) in Hcol. change (pa_vars (sv_array s)) with (vars s) in *.
  destruct (col_min _ _ _ _ _ _ _ _ Hcol) as [Hmin _]. destruct own_start_bounds as [Hst Hown].
  assert (Hbelow : forall j e v, counted (sv_array s) (entries s) i X j e v -> (j < numProcs (sv_array s))%nat).
  { intros j e v Hc. exact (counted_below lo (sv_array s) (entries s) my Hden j e v ltac:(by rewrite (of_off _ _ _ _ _ _ Hof))). }
  assert (Htop : forall m t, runs_top s m t -> g_min g <= t).
  { intros m t Hr. destruct (decide (m = n)) as [->|Hne].
    - destruct Hr as (b' & Hb' & Ht). rewrite (of_backend _ _ _ _ _ _ Hof) in Hb'. injection Hb' as <-. specialize (Hown t Ht). lia.
    - destruct (decide (t < X)) as [Hlt|]; [|lia]. destruct (runs_counted m t Hne Hr Hlt) as (j & b' & p & cs' & _ & Hc).
      apply (col_low _ _ _ _ _ _ _ _ Hcol), elem_of_app. left. apply (col_top _ _ _ _ _ _ _ _ Hcol). eauto 8. }
  eexists. split; [exact Hd|done|exact (proj2 HXr)| | | | |]; cbn [fxmax fxmin ftop fsub].
  - split.
    + apply (col_floor _ _ _ _ _ _ _ _ Hcol); [lia|]. intros j e v _ Hc.
      destruct (counted_runs j e v Hc) as (m & b' & p & cs' & Ho & _ & Ht & _).
      apply (bo_assigned _ _ _ _ (so_backends _ _ _ Hs m b' (of_backend _ _ _ _ _ _ Ho)) v). unfold ids. rewrite Ht. by left.
    + intros v (m & [Hr|Hr]); [by eapply Htop|]. destruct (top_of_sub m v Hr) as (t & Ht & Hlt). specialize (Htop m t Ht). lia.
  - intros v Hv. pose proof (eo_latest _ _ _ _ (so_ended _ _ _ Hs v Hv)). lia.
  - intros t. rewrite (col_top _ _ _ _ _ _ _ _ Hcol). split.
    + intros (j & e & v & _ & Hc & ->). destruct (counted_runs j e v Hc) as (m & b' & p & cs' & Ho & _ & Ht & Hne & Hlt).
      split; [done|]. exists m. split; [done|]. exists b'. split; [by apply (of_backend _ _ _ _ _ _ Ho)|done].
    + intros (Hlt & m & Hne & Hr). destruct (runs_counted m t Hne Hr Hlt) as (j & b' & p & cs' & _ & Hc). eauto 8.
  - rewrite Eo. intros Hover v Hv. apply (col_sub _ _ _ _ _ _ _ _ Hcol Hover) in Hv as (j & e & w & _ & Hc & Hv).
    destruct (counted_runs j e w Hc) as (m & b' & p & cs' & Ho & -> & _ & Hne & _). exists m. split; [done|]. exists b'.
    split; [by apply (of_backend _ _ _ _ _ _ Ho)|]. apply (of_sub _ _ _ _ _ _ Ho). by rewrite <- (of_subs _ _ _ _ _ _ Ho).
  - rewrite Eo. intros Hover m v Hne Hr Hlt. destruct (top_of_sub m v Hr) as (t & Ht & Htv).
    destruct (runs_counted m t Hne Ht ltac:(lia)) as (j & b' & p & cs' & Ho & Hc).
    apply (col_sub _ _ _ _ _ _ _ _ Hcol Hover). exists j, (shown s m), t. split; [by eapply Hbelow|]. split; [done|].
    rewrite (of_subs _ _ _ _ _ _ Ho). destruct Hr as (b2 & Hb2 & Hv). rewrite (of_backend _ _ _ _ _ _ Ho) in Hb2. injection Hb2 as <-.
    apply (of_all _ _ _ _ _ _ Ho); [|done]. apply not_true_is_false. intros Hov.
    rewrite (proj2 (col_over _ _ _ _ _ _ _ _ Hcol)) in Hover; [done|]. exists j, (shown s m), t. split; [by eapply Hbelow|done].
Qed.
End build.

(** ** Taking a snapshot *)

Lemma exact_curcid s n cid r F : snap_exact lo N0 s n r F -> snap_exact lo N0 s n (set_curcid cid r) F.
Proof. by intros [X1 X2 X3 X4 X5 X6 X7 X8]. Qed.

Lemma exact_xmin s n r F : snap_exact lo N0 s n r F -> xmin_ok lo N0 s (xmin r).
Proof.
  intros [X1 _ X3 [X4 X4'] _ _ _ _]. destruct X1 as (E & _ & Hle & _ & _ & _ & _ & Hw & _). exists (fxmin F).
  apply Forall_cons_1 in Hw as [Hw _]. split; [done|]. split; [done|]. split; [lia|done].
Qed.

(** Every snapshot that [GetSnapshotData] returns is exact, whether it is built or used again. *)
Lemma get_snapshot_exact s n b cid r a' :
  server_ok lo N0 s -> sv_backends s !! n = Some b -> GetSnapshotData n cid (sv_array s) (b_snapshot b) = Some (r, a') ->
  (exists F, snap_exact lo N0 s n (snap r) F) /\ snapXactCompletionCount r = completions s.
Proof.
  intros Hs Hb. destruct (backend_offset s n b Hs Hb) as (i & p & cs & Ho). unfold GetSnapshotData.
  rewrite (of_proc _ _ _ _ _ _ Ho). cbn [mbind option_bind]. unfold GetSnapshotDataReuse.
  change (xactCompletionCount (pa_vars (sv_array s))) with (completions s). intros [= <- _].
  destruct (Z.eqb_spec (snapXactCompletionCount (b_snapshot b)) 0) as [_|_];
    [|destruct (Z.eqb_spec (completions s) (snapXactCompletionCount (b_snapshot b))) as [E|E]]; cbn [negb].
  1, 3: split; [by eapply build_exact|done].
  cbn [snap snapXactCompletionCount]. split; [|done].
  destruct (so_snapshots _ _ _ Hs n b Hb) as [_ HF]. destruct (HF (eq_sym E)) as [F HF']. exists F. by apply exact_curcid.
Qed.

Lemma get_snapshot_effect n b cid a old r a' p :
  allProcs a !! n = Some p -> proc_shows b p -> GetSnapshotData n cid a old = Some (r, a') ->
  pa_vars a' = pa_vars a /\ exists p', stored n p' a a' /\ proc_shows b p'.
Proof.
  intros Hp Hb. unfold GetSnapshotData. rewrite Hp. cbn [mbind option_bind]. set (r0 := match GetSnapshotDataReuse _ _ _ with Some _ => _ | None => _ end).
  clearbody r0. intros [= _ <-]. destruct (negb _).
  - split; [done|]. eexists. split; [split; [done|]; split; done|]. destruct Hb as [P1 P2 P3 P4 P5]. by split.
  - split; [done|]. exists p. split; [split; [done|]; split; [done|]; by rewrite list_insert_id|done].
Qed.
End snapshots.
