(* ===== verification/ServerSteps.v ===== *)
(** * The steps of the server keep the invariant *)
From S2P Require Import Prelude TransactionId ItemPtr HeapTuple Snapshot Varsup Clog Subtrans ProcArray ProcArraySpec.
From S2P Require Import Server ServerInv ServerArray ServerSnapshot.
Import SubTrans.
Local Open Scope Z_scope.

Section steps.
Context (lo N0 : Z).
Abbreviation ok := (server_ok lo N0).
Abbreviation log_clean := (clean_from CLOG_XACTS_PER_PAGE status_of TRANSACTION_STATUS_IN_PROGRESS lo).
Abbreviation subtrans_clean := (clean_from SUBTRANS_XACTS_PER_PAGE SubTransPages.look InvalidTransactionId lo).

(** ** Steps of one backend *)

Lemma runs_top_put s s' n b' m t :
  sv_backends s' = <[n := b']> (sv_backends s) ->
  runs_top s' m t <-> (m = n /\ b_top b' = Some t) \/ (m <> n /\ runs_top s m t).
Proof.
  intros E. unfold runs_top. rewrite E. destruct (decide (m = n)) as [->|Hne].
  - rewrite lookup_insert_eq. split; [intros (b & [= <-] & Ht); by left|]. intros [[_ Ht]|[? _]]; [by exists b'|done].
  - rewrite lookup_insert_ne by done. split; [intros H; by right|]. by intros [[? _]|[_ H]].
Qed.

Lemma runs_sub_put s s' n b' m v :
  sv_backends s' = <[n := b']> (sv_backends s) ->
  runs_sub s' m v <-> (m = n /\ v ∈ sub_ids b') \/ (m <> n /\ runs_sub s m v).
Proof.
  intros E. unfold runs_sub. rewrite E. destruct (decide (m = n)) as [->|Hne].
  - rewrite lookup_insert_eq. split; [intros (b & [= <-] & Ht); by left|]. intros [[_ Ht]|[? _]]; [by exists b'|done].
  - rewrite lookup_insert_ne by done. split; [intros H; by right|]. by intros [[? _]|[_ H]].
Qed.

Lemma elem_of_ids b v : v ∈ ids b <-> b_top b = Some v \/ v ∈ sub_ids b.
Proof.
  unfold ids. rewrite elem_of_app. apply or_iff_compat_r. destruct (b_top b) as [t|]; cbn [option_ids].
  - rewrite list_elem_of_singleton. split; congruence.
  - split; [by intros ?%elem_of_nil|done].
Qed.

(** The ids a backend keeps and the ids it gets. *)
Record keeps (s s' : server) (b b' : backend) : Prop := {
  kp_next : next_id s <= next_id s';
  kp_top : forall t, b_top b = Some t -> b_top b' = Some t;
  kp_sub : forall v, v ∈ sub_ids b -> v ∈ sub_ids b';
  kp_top_old : forall t, b_top b' = Some t -> b_top b = Some t \/ next_id s <= t;
  kp_sub_old : forall v, v ∈ sub_ids b' -> v ∈ sub_ids b \/ next_id s <= v;
  kp_new : forall v, in_window lo v -> next_id s <= v < next_id s' -> v ∈ ids b'
}.

Lemma put_grows s s' n b b' :
  sv_backends s !! n = Some b -> sv_backends s' = <[n := b']> (sv_backends s) -> keeps s s' b b' -> grows lo s s'.
Proof.
  intros Hb E [K1 K2 K3 K4 K5 K6]. split; [done|..].
  - intros m t (b1 & Hb1 & Ht). apply (runs_top_put s s' n b' m t E). destruct (decide (m = n)) as [->|Hne]; [left|right; split; [done|by exists b1]].
    rewrite Hb in Hb1. injection Hb1 as <-. auto.
  - intros m v (b1 & Hb1 & Hv). apply (runs_sub_put s s' n b' m v E). destruct (decide (m = n)) as [->|Hne]; [left|right; split; [done|by exists b1]].
    rewrite Hb in Hb1. injection Hb1 as <-. auto.
  - intros m t [[-> Ht]|[_ H]]%(runs_top_put s s' n b' m t E); [|by left]. destruct (K4 t Ht); [left; by exists b|by right].
  - intros m v [[-> Hv]|[_ H]]%(runs_sub_put s s' n b' m v E); [|by left]. destruct (K5 v Hv); [left; by exists b|by right].
  - intros v Hw Hr. apply live_ids. exists n, b'. rewrite E, lookup_insert_eq. auto.
Qed.

(** What a backend may remember about snapshots. *)
Definition remembers (s : server) (n : nat) (b : backend) : Prop :=
  (forall r x, b_xmins b = Some (r, x) -> xmin_ok lo N0 s r /\ xmin_ok lo N0 s x) /\
  snapXactCompletionCount (b_snapshot b) <= completions s /\
  (snapXactCompletionCount (b_snapshot b) = completions s -> exists F, snap_exact lo N0 s n (snap (b_snapshot b)) F).

Lemma ok_remembers s n b : ok s -> sv_backends s !! n = Some b -> remembers s n b.
Proof.
  intros Hs Hb. split; [intros r x; by apply (so_xmins _ _ _ Hs n b)|]. by apply (so_snapshots _ _ _ Hs n b).
Qed.

(** The logs agree on the ids that are not the backend's. *)
Definition spares (s s' : server) (l : list Z) : Prop :=
  forall v, assigned lo N0 s v -> v ∉ l -> status s' v = status s v /\ parent s' v = parent s v.

Definition logs_ok (s : server) : Prop :=
  clog_ok (sv_log s) /\ SubTransPages.pages_ok (sv_subtrans s) /\
  log_clean (next_id s) (sv_log s) /\ subtrans_clean (next_id s) (sv_subtrans s).

Lemma ok_logs s : ok s -> logs_ok s.
Proof. intros Hs. destruct (so_logs _ _ _ Hs), (so_clean _ _ _ Hs). done. Qed.

Lemma ended_not_mine s n b v : sv_backends s !! n = Some b -> ended lo N0 s v -> v ∉ ids b.
Proof. intros Hb [_ Hl] Hv. apply Hl, live_ids. by exists n, b. Qed.

Lemma parent_assigned s v p s' :
  ok s -> ended lo N0 s v -> parent s v = Some (u32 p) -> assigned lo N0 s' p -> assigned lo N0 s p.
Proof.
  intros Hs Hv Hp [Hw Hr]. destruct (eo_parent _ _ _ _ (so_ended _ _ _ Hs v Hv)) as [E|(q & E & Hq & _)].
  - rewrite E in Hp. injection Hp as Hp. destruct Hw as [_ Hn]. unfold InvalidTransactionId, FirstNormalTransactionId in *. lia.
  - rewrite E in Hp. injection Hp as Hp. destruct Hq as [Hqw Hqr]. apply (u32_window_inj lo) in Hp; [|done..]. by subst q.
Qed.

(** A step of a backend that ends nothing. *)
Lemma put_ok s s' n b b' p' :
  ok s -> sv_backends s !! n = Some b -> sv_backends s' = <[n := b']> (sv_backends s) -> keeps s s' b b' ->
  stored n p' (sv_array s) (sv_array s') -> proc_shows b' p' -> pa_ok (sv_array s') ->
  latestCompletedXid (vars s') = latestCompletedXid (vars s) -> completions s' = completions s ->
  in_window lo (next_id s') -> next_id s' + 4 < 2 ^ 64 ->
  backend_ok lo N0 s' b' -> spares s s' (ids b) -> logs_ok s' -> remembers s n b' -> ok s'.
Proof.
  intros Hs Hb Eb Hk (A1 & A2 & A3) Hp' Hpa EL EC Hn1 Hn2 Hb' Hsp (L1 & L2 & L3 & L4) Hrem.
  pose proof (put_grows s s' n b b' Hb Eb Hk) as Hg. pose proof (gr_next _ _ _ Hg) as Hmono.
  destruct (so_array _ _ _ Hs) as [Ha Hmax]. destruct (so_next _ _ _ Hs) as (_ & S2 & S3 & S4 & _).
  destruct (so_latest _ _ _ Hs) as (T1 & T2 & T3 & T4). destruct (so_procs _ _ _ Hs n b Hb) as (p0 & Hp0 & _).
  assert (Hother : forall m b1, m <> n -> sv_backends s' !! m = Some b1 -> sv_backends s !! m = Some b1).
  { intros m b1 Hne. by rewrite Eb, lookup_insert_ne. }
  assert (Hself : forall b1, sv_backends s' !! n = Some b1 -> b1 = b') by (intros b1; rewrite Eb, lookup_insert_eq; congruence).
  assert (Hsame : forall v, ended lo N0 s v -> status s' v = status s v /\ parent s' v = parent s v).
  { intros v Hv. apply Hsp; [apply Hv|]. by eapply ended_not_mine. }
  split.
  - split; [done|]. by rewrite A2.
  - split; [done|]. lia.
  - unfold latest_id in *. rewrite EL. split; [done|]. split; [lia|]. done.
  - rewrite EC. apply (so_count _ _ _ Hs).
  - intros m. rewrite A1, (so_dom _ _ _ Hs), Eb. destruct (decide (m = n)) as [->|Hne]; [|by rewrite lookup_insert_ne].
    rewrite lookup_insert_eq. split; intros _; eauto.
  - intros m b1 Hb1. destruct (decide (m = n)) as [->|Hne].
    + apply Hself in Hb1 as ->. exists p'. split; [|done]. rewrite A3. apply list_lookup_insert_eq. by eapply lookup_lt_Some.
    + destruct (so_procs _ _ _ Hs m b1 (Hother m b1 Hne Hb1)) as (p & Hp & Hsh). exists p. split; [|done].
      by rewrite A3, list_lookup_insert_ne.
  - intros m b1 Hb1. destruct (decide (m = n)) as [->|Hne]; [by apply Hself in Hb1 as ->|].
    specialize (Hother m b1 Hne Hb1). apply (backend_frame lo N0 s); [by eapply so_backends|done|].
    intros v Hv. apply Hsp; [by eapply (bo_assigned _ _ _ _ (so_backends _ _ _ Hs m b1 Hother))|].
    intros Hv'. apply Hne. by eapply (so_disjoint _ _ _ Hs).
  - assert (Hmine : forall m b1 v, m <> n -> sv_backends s' !! m = Some b1 -> v ∈ ids b1 -> v ∈ ids b' -> False).
    { intros m b1 v Hne Hb1 Hv Hv'. specialize (Hother m b1 Hne Hb1).
      pose proof (proj2 (bo_assigned _ _ _ _ (so_backends _ _ _ Hs m b1 Hother) v Hv)) as Hr.
      assert (v ∈ ids b); [|apply Hne; by eapply (so_disjoint _ _ _ Hs)]. apply elem_of_ids. apply elem_of_ids in Hv' as [Hv'|Hv'].
      - destruct (kp_top_old _ _ _ _ Hk v Hv'); [by left|lia].
      - destruct (kp_sub_old _ _ _ _ Hk v Hv'); [by right|lia]. }
    intros m1 m2 b1 b2 v H1 H2 Hv1 Hv2. destruct (decide (m1 = n)) as [->|N1], (decide (m2 = n)) as [->|N2]; [done| | |].
    + apply Hself in H1 as ->. exfalso. by eapply (Hmine m2 b2).
    + apply Hself in H2 as ->. exfalso. by eapply (Hmine m1 b1).
    + by eapply (so_disjoint _ _ _ Hs); eauto.
  - done.
  - done.
  - intros v Hv. apply (grows_ended lo N0 s s' v Hg) in Hv.
    apply (ended_frame lo N0 s); [by apply (so_ended _ _ _ Hs)|done|done|unfold latest_id; rewrite EL; lia| |done|].
    + intros w Hw. by apply (grows_ended lo N0 s s' w Hg).
    + intros p Hp Hpa'. by eapply parent_assigned.
  - intros m b1 r x Hb1 Hx. destruct (decide (m = n)) as [->|Hne].
    + apply Hself in Hb1 as ->. destruct (proj1 Hrem r x Hx). split; by eapply grows_xmin.
    + destruct (so_xmins _ _ _ Hs m b1 r x (Hother m b1 Hne Hb1) Hx). split; by eapply grows_xmin.
  - intros m b1 Hb1. rewrite EC. destruct (decide (m = n)) as [->|Hne].
    + apply Hself in Hb1 as ->. destruct Hrem as (_ & R2 & R3). split; [done|]. intros E. destruct (R3 E) as [F HF].
      exists F. by eapply grows_exact.
    + destruct (so_snapshots _ _ _ Hs m b1 (Hother m b1 Hne Hb1)) as [R2 R3]. split; [done|]. intros E. destruct (R3 E) as [F HF].
      exists F. by eapply grows_exact.
Qed.

(** ** Steps that leave the ids alone *)

Lemma stored_same s n b :
  ok s -> sv_backends s !! n = Some b -> exists p, stored n p (sv_array s) (sv_array s) /\ proc_shows b p /\ allProcs (sv_array s) !! n = Some p.
Proof.
  intros Hs Hb. destruct (so_procs _ _ _ Hs n b Hb) as (p & Hp & Hsh). exists p. split; [|done].
  split; [done|]. split; [done|]. by rewrite list_insert_id.
Qed.

(** The backend keeps its ids and no id is assigned. *)
Lemma same_ids_keeps s s' b b' :
  next_id s' = next_id s -> b_top b' = b_top b -> (forall v, v ∈ sub_ids b' <-> v ∈ sub_ids b) -> keeps s s' b b'.
Proof.
  intros En Et Es. split; [lia|by rewrite Et|intros v; by rewrite Es|rewrite Et; by left|intros v; rewrite Es; by left|].
  intros v _ ?. lia.
Qed.

Lemma backend_same s b b' :
  b_top b' = b_top b -> b_subs b' = b_subs b -> b_work b' = b_work b -> backend_ok lo N0 s b -> backend_ok lo N0 s b'.
Proof. destruct b, b'. cbn. intros -> -> -> [B1 B2 B3 B4 B5 B6 B7 B8 B9]. by split. Qed.

Lemma spares_same s s' l : sv_log s' = sv_log s -> sv_subtrans s' = sv_subtrans s -> spares s s' l.
Proof. intros El Es v _ _. unfold status, parent. by rewrite El, Es. Qed.

Lemma logs_same s s' :
  sv_log s' = sv_log s -> sv_subtrans s' = sv_subtrans s -> next_id s' = next_id s -> ok s -> logs_ok s'.
Proof. intros El Es En Hs. unfold logs_ok. rewrite El, Es, En. by apply ok_logs. Qed.

Lemma next_ok s : ok s -> in_window lo (next_id s) /\ next_id s + 4 < 2 ^ 64.
Proof. intros Hs. destruct (so_next _ _ _ Hs) as (? & _ & _ & _ & ?). done. Qed.

(** The backend remembers a new snapshot; nothing else happens but in its own process. *)
Lemma quiet_ok s n b b' a p' :
  ok s -> sv_backends s !! n = Some b ->
  b_top b' = b_top b -> b_subs b' = b_subs b -> b_work b' = b_work b -> remembers s n b' ->
  pa_vars a = vars s -> stored n p' (sv_array s) a -> proc_shows b p' -> pa_ok a ->
  ok (set_backend n b' (set_array a s)).
Proof.
  intros Hs Hb Et Es Ew Hrem Ev Hst Hsh Hpa. set (s' := set_backend n b' (set_array a s)).
  assert (Esub : sub_ids b' = sub_ids b) by (unfold sub_ids, pending; by rewrite Es, Ew).
  assert (En : next_id s' = next_id s) by (unfold next_id; by rewrite <- Ev). destruct (next_ok s Hs).
  eapply (put_ok s s' n b b'); try done; rewrite ?En; try done.
  - apply same_ids_keeps; [done|done|]. by rewrite Esub.
  - by eapply shows_same.
  - change (vars s') with (pa_vars a). by rewrite Ev.
  - unfold completions. change (vars s') with (pa_vars a). by rewrite Ev.
  - apply (backend_same _ b); [done..|]. apply (backend_frame lo N0 s); [by eapply so_backends|lia|done].
  - by apply (logs_same s).
Qed.

Lemma snapshot_ok_step s n b p cid r a :
  ok s -> sv_backends s !! n = Some b -> allProcs (sv_array s) !! n = Some p ->
  GetSnapshotData n cid (sv_array s) (b_snapshot b) = Some (r, a) ->
  ok (set_backend n (with_snapshot p r b) (set_array a s)).
Proof.
  intros Hs Hb Hp E. destruct (get_snapshot_exact lo N0 s n b cid r a Hs Hb E) as [[F HF] Ec].
  destruct (so_procs _ _ _ Hs n b Hb) as (q & Hq & Hsh). destruct (get_snapshot_effect n b cid _ _ r a q Hq Hsh E) as (Ev & p' & Hst & Hsh').
  assert (Hn : n ∈ pgprocnos (sv_array s)) by (apply (so_dom _ _ _ Hs); by exists b). apply list_elem_of_lookup in Hn as [i Hi].
  eapply (quiet_ok s n b); try done; [|by eapply snapshot_keeps_ok, E; [apply (so_array _ _ _ Hs)|]].
  pose proof (exact_xmin _ _ _ _ _ _ HF) as Hx. split; [|cbn [with_snapshot b_snapshot]; split; [lia|by exists F]].
  cbn [with_snapshot b_xmins]. intros r0 x0 [= <- <-]. split; [done|]. destruct (b_xmins b) as [[r1 x1]|] eqn:Ex; [|done].
  destruct (TransactionIdIsValid _); [|done]. by eapply (so_xmins _ _ _ Hs n b).
Qed.

Lemma readonly_ok_step s n b a :
  ok s -> sv_backends s !! n = Some b -> ProcArrayEndTransaction n InvalidTransactionId (sv_array s) = Some a -> ok (set_array a s).
Proof.
  intros Hs Hb E. destruct (so_procs _ _ _ Hs n b Hb) as (q & Hq & Hsh).
  destruct (end_readonly_effect n _ a b q Hq Hsh E) as (Ev & p' & Hst & Hsh').
  assert (Hn : n ∈ pgprocnos (sv_array s)) by (apply (so_dom _ _ _ Hs); by exists b). apply list_elem_of_lookup in Hn as [i Hi].
  assert (Es : set_array a s = set_backend n b (set_array a s)) by (unfold set_backend, set_array; cbn; by rewrite insert_id).
  rewrite Es. eapply (quiet_ok s n b); try done; [by apply ok_remembers|].
  by eapply end_transaction_ok, E; [apply (so_array _ _ _ Hs)|].
Qed.

(** ** Writing the log *)

(** The statuses of the log are those of [s] except for the ids of [l]. *)
Definition writes_only (s : server) (l : list Z) (c : clog) : Prop :=
  clog_ok c /\ forall v, in_window lo v -> v ∉ l -> status_of c (u32 v) = status s v.

Lemma sub_ids_plain b : pending b = [] -> sub_ids b = b_subs b.
Proof. unfold sub_ids. intros ->. apply app_nil_r. Qed.

Lemma set_work_ok s s' b w :
  backend_ok lo N0 s b -> pending b = [] -> b_top b <> None -> (forall v p, w <> Recording v p) ->
  next_id s' = next_id s -> sv_subtrans s' = sv_subtrans s ->
  (forall v cs us, w = Undoing v cs us -> NoDup (v :: cs) /\ (forall x, x ∈ v :: cs -> x ∈ b_subs b) /\
     forall x p, x ∈ b_subs b -> x ∉ v :: cs -> p ∈ v :: cs -> parent s x <> Some (u32 p)) ->
  log_shows s' (set_work w b) -> backend_ok lo N0 s' (set_work w b).
Proof.
  intros [B1 B2 B3 B4 B5 B6 B7 B8 B9] Hpe Htop Hw En Es Hundo Hlog.
  assert (Hpe' : pending (set_work w b) = []) by (unfold pending, set_work; cbn; destruct w; try done; by destruct (Hw v p)).
  assert (Esub : sub_ids (set_work w b) = sub_ids b) by (rewrite !sub_ids_plain by done; done).
  assert (Eids : ids (set_work w b) = ids b) by (unfold ids; by rewrite Esub).
  assert (Epar : forall v, parent s' v = parent s v) by (intros v; unfold parent; by rewrite Es).
  split; rewrite ?Eids, ?Esub, ?Hpe'; cbn [set_work set_ids b_top b_subs b_work]; try done.
  - intros v Hv. unfold assigned. rewrite En. by apply B2.
  - intros v Hv. rewrite Epar. by apply B5.
  - intros v Hv. rewrite Epar. apply B6. rewrite Hpe. done.
  - intros v p E. by destruct (Hw v p).
  - intros v cs us E. destruct (Hundo v cs us E) as (H1 & H2 & H3). split; [done|]. split; [done|]. intros x p. rewrite Epar. apply H3.
Qed.

(** A step that changes what the backend is about, and the log of its own ids. *)
Lemma work_ok s n b w c :
  ok s -> sv_backends s !! n = Some b -> pending b = [] -> (forall v p, w <> Recording v p) ->
  let s' := set_backend n (set_work w b) (set_log c s) in
  backend_ok lo N0 s' (set_work w b) -> writes_only s (ids b) c -> ok s'.
Proof.
  intros Hs Hb Hpe Hw s' Hb' [Hc Hwr]. destruct (next_ok s Hs). destruct (stored_same s n b Hs Hb) as (p & Hst & Hsh & _).
  assert (Hpe' : pending (set_work w b) = []) by (unfold pending, set_work; cbn; destruct w; try done; by destruct (Hw v p0)).
  assert (Esub : sub_ids (set_work w b) = sub_ids b) by (rewrite !sub_ids_plain by done; done).
  destruct (ok_logs s Hs) as (L1 & L2 & L3 & L4).
  apply (put_ok s s' n b (set_work w b) p); try done.
  - apply same_ids_keeps; [done|done|]. by rewrite Esub.
  - by apply (shows_same b).
  - apply (so_array _ _ _ Hs).
  - intros v [Hv _] Hn. split; [|done]. unfold status at 1. cbn [sv_log s' set_backend set_log]. by apply Hwr.
  - split; [done|]. split; [done|]. split; [|done]. intros Hf x Hx Hle Hpg. cbn [sv_log s' set_backend set_log]. rewrite Hwr; [by apply L3|done|].
    intros Hin. pose proof (proj2 (bo_assigned _ _ _ _ (so_backends _ _ _ Hs n b Hb) x Hin)). change (next_id s') with (next_id s) in Hle. lia.
  - exact (ok_remembers s n b Hs Hb).
Qed.

Lemma set_log_same s : set_log (sv_log s) s = s.
Proof. by destruct s. Qed.

Lemma writes_nothing s l : ok s -> writes_only s l (sv_log s).
Proof. intros Hs. split; [apply (so_logs _ _ _ Hs)|done]. Qed.

Lemma log_working s b : backend_ok lo N0 s b -> b_work b = Working -> forall v, v ∈ ids b -> status s v = Some TRANSACTION_STATUS_IN_PROGRESS.
Proof. intros Hb Hw. pose proof (bo_log _ _ _ _ Hb) as H. unfold log_shows, tree in H. by rewrite Hw in H. Qed.

Lemma pending_working b : b_work b = Working -> pending b = [].
Proof. unfold pending. by intros ->. Qed.

Lemma finish_ok_step s n b v st :
  ok s -> sv_backends s !! n = Some b -> b_work b = Working -> b_top b = Some v ->
  st = TRANSACTION_STATUS_COMMITTED \/ st = TRANSACTION_STATUS_ABORTED ->
  ok (set_backend n (set_work (Finishing st (tree_updates (u32 v) (map u32 (b_subs b)) st)) b) s).
Proof.
  intros Hs Hb Hw Ht Hst. rewrite <- (set_log_same s) at 1. pose proof (so_backends _ _ _ Hs n b Hb) as Hok.
  apply work_ok; [done|done|by apply pending_working|done| |by apply writes_nothing].
  apply (set_work_ok s); [done|by apply pending_working|congruence|done|done|done|done|].
  unfold log_shows, tree. cbn [set_work set_ids b_work b_top]. rewrite Ht. split; [done|]. exists []. split; [done|].
  assert (Hz := log_working s b Hok Hw). split.
  - intros w Hw'. apply Hz, elem_of_ids. rewrite sub_ids_plain by (by apply pending_working).
    apply elem_of_cons in Hw' as [->|Hw']; [by left|by right].
  - intros w Hw' Hn. exfalso. apply Hn. apply elem_of_ids in Hw' as [E|Hw'].
    + cbn in E. rewrite Ht in E. injection E as <-. by left.
    + right. unfold sub_ids, pending in Hw'. cbn in Hw'. by rewrite app_nil_r in Hw'.
Qed.

Lemma undo_ok_step s n b v cs :
  ok s -> sv_backends s !! n = Some b -> b_work b = Working -> NoDup (v :: cs) -> (forall w, w ∈ v :: cs -> w ∈ b_subs b) ->
  no_parent_in s (filter (fun w => w ∉ v :: cs) (b_subs b)) (v :: cs) ->
  ok (set_backend n (set_work (Undoing v cs (tree_updates (u32 v) (map u32 cs) TRANSACTION_STATUS_ABORTED)) b) s).
Proof.
  intros Hs Hb Hw Hnd Hin Hno. rewrite <- (set_log_same s) at 1. pose proof (so_backends _ _ _ Hs n b Hb) as Hok.
  apply work_ok; [done|done|by apply pending_working|done| |by apply writes_nothing].
  assert (Htop : b_top b <> None).
  { intros E. destruct (bo_idle _ _ _ _ Hok E) as [Es _]. eapply not_elem_of_nil. rewrite <- Es. apply Hin. by left. }
  apply (set_work_ok s); [done|by apply pending_working|done|done|done|done| |].
  - intros v' cs' us' [= <- <- _]. split; [done|]. split; [done|]. intros x p Hx Hx' Hp E. apply (Hno x p); [|done|].
    + by apply list_elem_of_filter.
    + unfold entry. unfold parent, SubTransPages.look in E. by rewrite E.
  - unfold log_shows, tree. cbn [set_work set_ids b_work b_top]. split; [by right|]. exists []. split; [done|].
    assert (Hz := log_working s b Hok Hw). split.
    + intros w Hw'. apply Hz, elem_of_ids. right. rewrite sub_ids_plain by (by apply pending_working). by apply Hin.
    + intros w Hw' Hn. apply Hz. apply elem_of_ids in Hw' as [E|Hw']; apply elem_of_ids; [by left|right].
      unfold sub_ids, pending in Hw'. cbn in Hw'. rewrite app_nil_r in Hw'. by rewrite sub_ids_plain by (by apply pending_working).
Qed.

Lemma tree_update_ok xid subs st u :
  0 <= st < 4 -> st <> TRANSACTION_STATUS_SUB_COMMITTED -> u ∈ tree_updates xid subs st -> update_ok u.
Proof.
  intros Hst Hns. destruct (tree_updates_split xid subs st Hst Hns) as (pre & v & post & Hsplit).
  destruct Hsplit as (-> & _ & _ & first & rest & _ & _ & Hpre & Hpost & Hv & _).
  intros [Hu|[->|Hu]%elem_of_cons]%elem_of_app; [by apply Hpre|done|by apply Hpost].
Qed.

(** A page of the tree is written. *)
Lemma write_page s n b b' x xs st u us lsn c :
  ok s -> sv_backends s !! n = Some b -> tree b = Some (x, xs, st, u :: us) -> tree b' = Some (x, xs, st, us) -> ids b' = ids b ->
  TransactionIdSetPageStatusInternal false lsn u (sv_log s) = Some c ->
  writes_only s (ids b) c /\ forall s', sv_log s' = c -> log_shows s' b'.
Proof.
  intros Hs Hb Et Et' Eids Eu. pose proof (so_backends _ _ _ Hs n b Hb) as Hok.
  pose proof (bo_log _ _ _ _ Hok) as Hlog. unfold log_shows in Hlog. rewrite Et in Hlog. destruct Hlog as (Hst & done' & E & H1 & H2).
  assert (Hst' : 0 <= st < 4 /\ st <> TRANSACTION_STATUS_SUB_COMMITTED) by (destruct Hst as [-> | ->]; done). destruct Hst' as [Hr Hns].
  assert (Hin : u ∈ tree_updates (u32 x) (map u32 xs) st) by (rewrite E; apply elem_of_app; right; by left).
  assert (Hpage : is_Some (sv_log s !! pu_pageno u)).
  { unfold TransactionIdSetPageStatusInternal in Eu. destruct (sv_log s !! pu_pageno u); [by eexists|done]. }
  destruct (page_step false lsn u (sv_log s) (proj1 (so_logs _ _ _ Hs)) (tree_update_ok _ _ _ _ Hr Hns Hin) Hpage)
    as (c' & Eu' & Hc & _ & Hstat). rewrite Eu in Eu'. injection Eu' as <-.
  pose proof (tree_ids lo N0 s b x xs st _ Hok Et) as Hids.
  assert (Hwin : forall w, w ∈ ids b -> in_window lo w) by (intros w Hw; by apply (bo_assigned _ _ _ _ Hok w Hw)).
  assert (Hmem : forall w, in_window lo w -> u32 w ∈ members u -> w ∈ x :: xs).
  { intros w Hw Hm. apply (tree_updates_members _ _ _ _ _ Hr Hns Hin) in Hm. change (u32 x :: map u32 xs) with (map u32 (x :: xs)) in Hm.
    assert (Hxs : forall z, z ∈ x :: xs -> in_window lo z) by (intros z Hz; by apply Hwin, Hids).
    by apply (elem_u32 lo w (x :: xs) Hw Hxs) in Hm. }
  split.
  - split; [done|]. intros v Hv Hn. rewrite Hstat, decide_False; [done|]. intros Hm. by apply Hn, Hids, Hmem.
  - intros s' Es'. unfold log_shows. rewrite Et'. split; [done|]. exists (done' ++ [u]). rewrite <- app_assoc. split; [done|]. split.
    + intros w Hw. unfold status. rewrite Es', Hstat. fold (status s w). rewrite (H1 w Hw), status_after_app, status_after_one.
      by destruct (decide (u32 w ∈ members u)).
    + intros w Hw Hn. unfold status. rewrite Es', Hstat, decide_False; [apply H2; [by rewrite <- Eids|done]|].
      intros Hm. apply Hn, Hmem; [|done]. apply Hwin. by rewrite <- Eids.
Qed.

Lemma write_ok_step s n b st u us lsn c :
  ok s -> sv_backends s !! n = Some b -> b_work b = Finishing st (u :: us) ->
  TransactionIdSetPageStatusInternal false lsn u (sv_log s) = Some c ->
  ok (set_backend n (set_work (Finishing st us) b) (set_log c s)).
Proof.
  intros Hs Hb Hw E. pose proof (so_backends _ _ _ Hs n b Hb) as Hok.
  assert (Hpe : pending b = []) by (unfold pending; by rewrite Hw).
  destruct (b_top b) as [v|] eqn:Ht; [|by destruct (bo_idle _ _ _ _ Hok Ht) as [_ Hw']; rewrite Hw in Hw'].
  assert (Eids : ids (set_work (Finishing st us) b) = ids b) by (unfold ids; rewrite !sub_ids_plain by done; done).
  destruct (write_page s n b (set_work (Finishing st us) b) v (b_subs b) st u us lsn c) as [H1 H2]; [done|done| | |done|done|].
  1: unfold tree; by rewrite Hw, Ht. 1: unfold tree; cbn; by rewrite Ht.
  apply work_ok; [done..| |done]. apply (set_work_ok s); [done|done|congruence|done|done|done|done|by apply H2].
Qed.

Lemma write_undo_ok_step s n b v cs u us lsn c :
  ok s -> sv_backends s !! n = Some b -> b_work b = Undoing v cs (u :: us) ->
  TransactionIdSetPageStatusInternal false lsn u (sv_log s) = Some c ->
  ok (set_backend n (set_work (Undoing v cs us) b) (set_log c s)).
Proof.
  intros Hs Hb Hw E. pose proof (so_backends _ _ _ Hs n b Hb) as Hok.
  assert (Hpe : pending b = []) by (unfold pending; by rewrite Hw).
  assert (Ht : b_top b <> None) by (intros Ht; destruct (bo_idle _ _ _ _ Hok Ht) as [_ Hw']; by rewrite Hw in Hw').
  assert (Eids : ids (set_work (Undoing v cs us) b) = ids b) by (unfold ids; rewrite !sub_ids_plain by done; done).
  destruct (write_page s n b (set_work (Undoing v cs us) b) v cs TRANSACTION_STATUS_ABORTED u us lsn c) as [H1 H2]; [done|done| |done|done|done|].
  1: unfold tree; by rewrite Hw.
  apply work_ok; [done..| |done]. apply (set_work_ok s); [done|done|done|done|done|done| |by apply H2].
  intros v' cs' us' [= <- <- <-]. by apply (bo_undo _ _ _ _ Hok v cs (u :: us)).
Qed.

(** ** Assigning an id *)

Lemma vars_pa_ok a v : pa_ok a -> pa_ok (set_vars v a).
Proof. intros [H1 H2 H3 H4 H5 H6]. by split. Qed.

(** The id after the next one. *)
Lemma next_step s :
  ok s -> let N := next_id s in let N' := value (FullTransactionIdAdvance (nextXid (vars s))) in
  N < N' /\ (u32 N' = u32 N + 1 \/ u32 N' = FirstNormalTransactionId) /\
  forall v, FirstNormalTransactionId <= u32 v -> N <= v < N' -> v = N.
Proof.
  intros Hs N N'. destruct (so_next _ _ _ Hs) as ([Hn1 Hn2] & Hn3 & _ & Hn4 & Hn5).
  assert (E : N' = N + step_of (u32 N)) by (unfold N'; rewrite full_advance_value; [done|split; [unfold next_id in *; lia|done]|done]).
  fold N in Hn1, Hn2, Hn3, Hn5. rewrite E. unfold step_of. clearbody N N'. unfold MaxTransactionId, FirstNormalTransactionId, u32, wrap in *.
  destruct (Z.eqb_spec (N mod 2 ^ 32) 4294967295) as [EM|EM].
  - split; [lia|]. split; [right; Z.div_mod_to_equations; lia|]. intros v Hv Hr. Z.div_mod_to_equations. lia.
  - split; [lia|]. split; [left; Z.div_mod_to_equations; lia|]. intros v Hv Hr. lia.
Qed.

Lemma pages_size : FirstNormalTransactionId < CLOG_XACTS_PER_PAGE <= 2 ^ 31 /\ FirstNormalTransactionId < SUBTRANS_XACTS_PER_PAGE <= 2 ^ 31.
Proof. done. Qed.

(** Making room for the next id keeps what the logs hold, and the id starts in progress and without parent. *)
Lemma extend_logs s :
  ok s ->
  let x := u32 (next_id s) in let c := ExtendCLOG x (sv_log s) in let t := ExtendSUBTRANS x (sv_subtrans s) in
  let N' := value (FullTransactionIdAdvance (nextXid (vars s))) in
  (clog_ok c /\ SubTransPages.pages_ok t /\ log_clean N' c /\ subtrans_clean N' t) /\
  (forall v, in_window lo v -> v < next_id s -> status_of c (u32 v) = status s v /\ SubTransPages.look t (u32 v) = parent s v) /\
  status_of c x = Some TRANSACTION_STATUS_IN_PROGRESS /\ SubTransPages.look t x = Some InvalidTransactionId.
Proof.
  intros Hs x c t N'. destruct (ok_logs s Hs) as (L1 & L2 & L3 & L4). destruct (next_step s Hs) as (Hlt & Hstep & _).
  destruct pages_size as [P1 P2]. destruct (next_ok s Hs) as [Hw _]. split; [|split; [|split]].
  - split; [by apply extend_clog_ok|]. split; [by apply SubTransPages.extend_pages_ok|]. split.
    + eapply extend_clean; [done|exact extend_clog_same|exact extend_clog_zero|done|done|done].
    + eapply extend_clean; [done|exact SubTransPages.extend_same|exact SubTransPages.extend_zero|done|done|done].
  - intros v Hv Hr. split.
    + eapply extend_keeps; [exact P1|exact extend_clog_same|exact extend_clog_zero|exact Hv|exact Hw|lia].
    + eapply extend_keeps; [exact P2|exact SubTransPages.extend_same|exact SubTransPages.extend_zero|exact Hv|exact Hw|lia].
  - eapply extend_new; [exact extend_clog_same|exact extend_clog_zero|exact L3|exact Hw|lia|done].
  - eapply extend_new; [exact SubTransPages.extend_same|exact SubTransPages.extend_zero|exact L4|exact Hw|lia|done].
Qed.

(** What holds after [assign_id], for the backend's new state [b']. *)
Lemma assign_ok s n b b' sub s1 p' :
  ok s -> sv_backends s !! n = Some b ->
  in_window lo (value (FullTransactionIdAdvance (nextXid (vars s)))) -> next_id s + 8 < 2 ^ 64 ->
  assign_id sub n s = Some s1 -> stored n p' (sv_array s) (sv_array s1) -> proc_shows b' p' ->
  pa_vars (sv_array s1) = set_nextXid (FullTransactionIdAdvance (nextXid (vars s))) (vars s) ->
  (forall t, b_top b = Some t -> b_top b' = Some t) -> (forall v, v ∈ sub_ids b -> v ∈ sub_ids b') ->
  (forall v, v ∈ ids b' <-> v ∈ ids b \/ v = next_id s) -> (forall t, b_top b' = Some t -> b_top b = Some t \/ t = next_id s) ->
  (forall v, v ∈ sub_ids b' -> v ∈ sub_ids b \/ v = next_id s) ->
  b_xmins b' = b_xmins b -> b_snapshot b' = b_snapshot b ->
  backend_ok lo N0 (set_backend n b' s1) b' -> ok (set_backend n b' s1).
Proof.
  intros Hs Hb Hwin Hroom E Hst Hsh Ev K1 K2 K3 K4 K5 Ex Esn Hb'. destruct (extend_logs s Hs) as (X1 & X2 & _).
  destruct (next_step s Hs) as (Hlt & _ & Honly). unfold assign_id in E.
  destruct (publish sub _ n _) as [a|] eqn:Ep; [|done]. cbn [mbind option_bind] in E. injection E as <-. cbn [sv_array] in *.
  set (s' := set_backend n b' _) in *.
  assert (En : next_id s' = value (FullTransactionIdAdvance (nextXid (vars s)))) by (unfold next_id, vars; cbn [s' set_backend sv_array]; by rewrite Ev).
  assert (Hn : n ∈ pgprocnos (sv_array s)) by (apply (so_dom _ _ _ Hs); by exists b). apply list_elem_of_lookup in Hn as [i Hi].
  apply (put_ok s s' n b b' p'); try done; rewrite ?En.
  - split; rewrite ?En; [lia|done|done| | |].
    + intros t Ht. destruct (K4 t Ht) as [?| ->]; [by left|right; lia].
    + intros v Hv. destruct (K5 v Hv) as [?| ->]; [by left|right; lia].
    + intros v [_ Hv] Hr. apply K3. right. by apply Honly.
  - eapply publish_ok; [| |exact Ep]; [apply vars_pa_ok, (so_array _ _ _ Hs)|exact Hi].
  - unfold vars. cbn [s' set_backend sv_array]. by rewrite Ev.
  - unfold completions, vars. cbn [s' set_backend sv_array]. by rewrite Ev.
  - done.
  - destruct (next_step s Hs) as (_ & _ & _). assert (step_of (u32 (next_id s)) <= 4) by (unfold step_of; by destruct (_ =? _)).
    destruct (so_next _ _ _ Hs) as ([Hn1 Hn2] & Hn3 & _ & Hn4 & Hn5).
    rewrite full_advance_value by (done || (split; [unfold next_id in *; lia|done])). cbn [value]. unfold next_id in *. lia.
  - intros v [Hv Hr] _. apply X2; [done|lia].
  - unfold logs_ok. rewrite En. exact X1.
  - unfold remembers. rewrite Ex, Esn. by apply ok_remembers.
Qed.

Lemma top_ok_step s n b s1 :
  ok s -> sv_backends s !! n = Some b -> b_top b = None ->
  in_window lo (value (FullTransactionIdAdvance (nextXid (vars s)))) -> next_id s + 8 < 2 ^ 64 ->
  assign_id false n s = Some s1 -> ok (set_backend n (set_ids (Some (next_id s)) [] Working b) s1).
Proof.
  intros Hs Hb Ht Hwin Hroom E. pose proof (so_backends _ _ _ Hs n b Hb) as Hok. destruct (bo_idle _ _ _ _ Hok Ht) as [Esubs Ework].
  assert (Esub : sub_ids b = []) by (unfold sub_ids, pending; by rewrite Esubs, Ework).
  destruct (so_procs _ _ _ Hs n b Hb) as (p & Hp & Hsh). pose proof E as E0. unfold assign_id in E0.
  destruct (publish false _ n _) as [a|] eqn:Ep; [|done]. cbn [mbind option_bind] in E0.
  edestruct (publish_top n (next_id s)) as (Ev & p' & Hst & Hsh'); [|exact Hsh|exact Esub|exact Ep|]; [exact Hp|].
  injection E0 as <-.
  destruct (extend_logs s Hs) as (_ & _ & X3 & X4). destruct (next_step s Hs) as (Hlt & _ & _). destruct (so_next _ _ _ Hs) as (Hw & HN & _).
  set (b' := set_ids (Some (next_id s)) [] Working b) in *.
  assert (Hids : forall v, v ∈ ids b' <-> v = next_id s) by (intros v; apply list_elem_of_singleton).
  eapply (assign_ok s n b b' false); try done.
  - intros t. by rewrite Ht.
  - intros v. by rewrite Esub.
  - intros v. rewrite Hids, elem_of_ids, Ht, Esub. split; [by right|]. intros [[?|?%elem_of_nil]|?]; done.
  - intros t [= <-]. by right.
  - by intros v ?%elem_of_nil.
  - split; cbn; try done.
    + intros v ->%Hids. split; [done|]. unfold next_id at 3, vars. cbn [set_backend sv_array]. rewrite Ev. cbn. lia.
    + apply NoDup_singleton.
    + by intros t v _ ?%elem_of_nil.
    + by intros v ?%elem_of_nil.
    + intros v ->%list_elem_of_singleton. exact X4.
    + unfold log_shows, tree. cbn. intros v ->%list_elem_of_singleton. exact X3.
Qed.

Lemma own_ids b p : p ∈ option_ids (b_top b) ++ b_subs b -> p ∈ ids b.
Proof. unfold ids, sub_ids. rewrite !elem_of_app. tauto. Qed.

Lemma sub_ok_step s n b q s1 :
  ok s -> sv_backends s !! n = Some b -> b_work b = Working -> q ∈ option_ids (b_top b) ++ b_subs b ->
  in_window lo (value (FullTransactionIdAdvance (nextXid (vars s)))) -> next_id s + 8 < 2 ^ 64 ->
  assign_id true n s = Some s1 -> ok (set_backend n (set_work (Recording (next_id s) q) b) s1).
Proof.
  intros Hs Hb Hw Hq Hwin Hroom E. pose proof (so_backends _ _ _ Hs n b Hb) as Hok.
  assert (Hfresh : next_id s ∉ ids b) by (intros [_ Hr]%(bo_assigned _ _ _ _ Hok); lia).
  destruct (so_procs _ _ _ Hs n b Hb) as (p & Hp & Hsh). pose proof E as E0. unfold assign_id in E0.
  destruct (publish true _ n _) as [a|] eqn:Ep; [|done]. cbn [mbind option_bind] in E0.
  edestruct (publish_sub n (next_id s) q) as (Ev & p' & Hst & Hsh'); [|exact Hsh|exact Hw|exact Hfresh|exact Ep|]; [exact Hp|].
  injection E0 as <-. destruct (extend_logs s Hs) as (_ & X2 & X3 & X4). destruct (next_step s Hs) as (Hlt & _ & _).
  destruct (so_next _ _ _ Hs) as (Hwn & HN & _). set (b' := set_work (Recording (next_id s) q) b) in *.
  assert (Hsub : forall v, v ∈ sub_ids b' <-> v ∈ sub_ids b \/ v = next_id s).
  { intros v. unfold sub_ids, pending. cbn [b' set_work set_ids b_work b_subs]. by rewrite Hw, app_nil_r, elem_of_app, list_elem_of_singleton. }
  assert (Hids : forall v, v ∈ ids b' <-> v ∈ ids b \/ v = next_id s).
  { intros v. rewrite !elem_of_ids, Hsub. change (b_top b') with (b_top b). tauto. }
  assert (Hpe : pending b' = [next_id s]) by done.
  eapply (assign_ok s n b b' true); try done.
  - intros v Hv. apply Hsub. by left.
  - intros t Ht. by left.
  - intros v Hv. by apply Hsub.
  - set (s' := set_backend n b' _).
    assert (Hold : forall v, v ∈ ids b -> status s' v = status s v /\ parent s' v = parent s v).
    { intros v [Hv Hr]%(bo_assigned _ _ _ _ Hok). apply X2; [done|lia]. }
    assert (En : next_id s' = value (FullTransactionIdAdvance (nextXid (vars s)))) by (unfold next_id, vars; cbn [s' set_backend sv_array]; by rewrite Ev).
    pose proof (backend_frame lo N0 s s' b Hok ltac:(lia) Hold) as [B1 B2 B3 B4 B5 B6 B7 B8 B9].
    split; rewrite ?Hpe; change (b_top b') with (b_top b); change (b_subs b') with (b_subs b).
    + intros Ht. destruct (B1 Ht) as [Esubs _]. rewrite Ht, Esubs in Hq. by apply elem_of_nil in Hq.
    + intros v [Hv| ->]%Hids; [by apply B2|]. split; [done|]. lia.
    + unfold ids, sub_ids. rewrite Hpe. change (b_top b') with (b_top b). change (b_subs b') with (b_subs b).
      unfold ids, sub_ids in B3, Hfresh. rewrite (pending_working b Hw), app_nil_r in B3, Hfresh. rewrite app_assoc.
      apply list.NoDup_app. split; [done|]. split; [|apply NoDup_singleton]. by intros v Hv ->%list_elem_of_singleton.
    + intros t v Ht [Hv| ->]%Hsub; [by apply B4|]. eapply (bo_assigned _ _ _ _ Hok), elem_of_ids. by left.
    + done.
    + intros v [Hv|Hv]%elem_of_app; [apply B6, elem_of_app; by left|]. apply list_elem_of_singleton in Hv as ->. exact X4.
    + intros v p0 [= <- <-]. split; [done|]. by apply (bo_assigned _ _ _ _ Hok), own_ids.
    + done.
    + unfold log_shows, tree. cbn [b' set_work set_ids b_work b_top]. intros v [Hv| ->]%Hids; [|exact X3].
      rewrite (proj1 (Hold v Hv)). by eapply log_working.
Qed.

Lemma parent_ok_step s n b v q t :
  ok s -> sv_backends s !! n = Some b -> b_work b = Recording v q ->
  SubTransSetParent (u32 v) (u32 q) (sv_subtrans s) = Some t ->
  ok (set_backend n (set_ids (b_top b) (b_subs b ++ [v]) Working b) (set_subtrans t s)).
Proof.
  intros Hs Hb Hw E. pose proof (so_backends _ _ _ Hs n b Hb) as Hok. destruct (ok_logs s Hs) as (L1 & L2 & L3 & L4).
  assert (Hpe : pending b = [v]) by (unfold pending; by rewrite Hw).
  assert (Hvb : v ∈ ids b) by (apply elem_of_ids; right; unfold sub_ids; rewrite Hpe; apply elem_of_app; right; by left).
  pose proof (bo_root _ _ _ _ Hok v ltac:(rewrite Hpe; apply elem_of_app; right; by left)) as Hroot.
  destruct (SubTransPages.set_parent_spec (u32 v) (u32 q) _ _ L2 Hroot) as (t' & E' & Hpg & Hlook). rewrite E in E'. injection E' as <-.
  set (b' := set_ids (b_top b) (b_subs b ++ [v]) Working b). set (s' := set_backend n b' (set_subtrans t s)).
  assert (Esub : sub_ids b' = sub_ids b) by (unfold sub_ids; rewrite Hpe; apply app_nil_r).
  assert (Eids : ids b' = ids b) by (unfold ids; by rewrite Esub).
  assert (Hother : forall w, in_window lo w -> w <> v -> parent s' w = parent s w).
  { intros w Hww Hne. unfold parent. cbn [s' set_backend set_subtrans sv_subtrans]. rewrite Hlook, decide_False; [done|].
    intros Hu. apply Hne. by apply (u32_window_inj lo); [|apply (bo_assigned _ _ _ _ Hok)|]. }
  assert (Hmine : parent s' v = Some (u32 q)) by (unfold parent; cbn [s' set_backend set_subtrans sv_subtrans]; by rewrite Hlook, decide_True).
  destruct (next_ok s Hs). destruct (stored_same s n b Hs Hb) as (p & Hst & Hsh & _). destruct (bo_pending _ _ _ _ Hok v q Hw) as [Hq Hqv].
  apply (put_ok s s' n b b' p); try done.
  - apply same_ids_keeps; [done|done|]. by rewrite Esub.
  - by apply (shows_same b).
  - apply (so_array _ _ _ Hs).
  - pose proof Hok as [B1 B2 B3 B4 B5 B6 B7 B8 B9]. assert (Hnd := B3). unfold ids, sub_ids in Hnd. rewrite Hpe, app_assoc in Hnd.
    apply list.NoDup_app in Hnd as (_ & Hnd & _).
    assert (Hne : forall w, w ∈ option_ids (b_top b) ++ b_subs b -> w <> v) by (intros w Hw' ->; apply (Hnd v Hw'); by left).
    split; rewrite ?Eids, ?Esub; change (b_top b') with (b_top b); change (b_subs b') with (b_subs b ++ [v]); try done.
    + intros Ht. destruct (B1 Ht) as [_ Hw']. congruence.
    + intros w [Hw'|Hw']%elem_of_app.
      * destruct (B5 w Hw') as (p0 & Hp0 & Hin & Hlt). exists p0. rewrite Hother; [|apply (bo_assigned _ _ _ _ Hok), own_ids, elem_of_app; by right|apply Hne, elem_of_app; by right].
        split; [done|]. split; [|done]. rewrite app_assoc. apply elem_of_app. by left.
      * apply list_elem_of_singleton in Hw' as ->. exists q. split; [done|]. split; [|done]. rewrite app_assoc. apply elem_of_app. by left.
    + intros w Hw'. change (pending b') with (@nil Z) in Hw'. rewrite app_nil_r in Hw'.
      assert (Hin : w ∈ option_ids (b_top b) ++ b_subs b) by (apply elem_of_app; by left).
      rewrite Hother; [|by apply (bo_assigned _ _ _ _ Hok), own_ids|by apply Hne]. apply B6, elem_of_app. by left.
    + unfold log_shows, tree. cbn [b' set_ids b_work]. unfold log_shows, tree in B9. rewrite Hw in B9. change (forall w, w ∈ ids b' -> status s w = Some TRANSACTION_STATUS_IN_PROGRESS).
      by rewrite Eids.
  - intros w [Hww _] Hn. split; [done|]. apply Hother; [done|]. by intros ->.
  - split; [done|]. split; [done|]. split; [done|]. intros Hf x Hx Hle Hp. change (parent s' x = Some InvalidTransactionId).
    change (next_id s') with (next_id s) in Hle. rewrite Hother; [by apply L4|done|]. intros ->.
    pose proof (proj2 (bo_assigned _ _ _ _ Hok v Hvb)). lia.
  - exact (ok_remembers s n b Hs Hb).
Qed.

(** ** Ends *)

(** A step that takes the ids [gone] off the stack of a backend. *)
Lemma drop_ok s s' n b b' p' (gone : list Z) :
  ok s -> sv_backends s !! n = Some b -> sv_backends s' = <[n := b']> (sv_backends s) ->
  stored n p' (sv_array s) (sv_array s') -> proc_shows b' p' -> pa_ok (sv_array s') ->
  next_id s' = next_id s -> sv_log s' = sv_log s -> sv_subtrans s' = sv_subtrans s ->
  in_window lo (latest_id s') -> latest_id s <= latest_id s' < next_id s ->
  N0 <= value (FullTransactionIdAdvance (latestCompletedXid (vars s'))) ->
  completions s' = completions s + 1 -> completions s + 1 < 2 ^ 64 ->
  (forall v, v ∈ ids b <-> v ∈ ids b' \/ v ∈ gone) ->
  backend_ok lo N0 s' b' -> (forall v, v ∈ gone -> ~ live s' v -> ended_ok lo N0 s' v) ->
  b_xmins b' = b_xmins b -> b_snapshot b' = b_snapshot b -> ok s'.
Proof.
  intros Hs Hb Eb (A1 & A2 & A3) Hp' Hpa En El Es Hl1 Hl2 Hl3 EC HC Hids Hb' Hgone Ex Esn.
  destruct (so_array _ _ _ Hs) as [Ha Hmax]. destruct (so_next _ _ _ Hs) as (S1 & S2 & S3 & S4 & S5).
  destruct (so_latest _ _ _ Hs) as (_ & _ & T3 & _). destruct (so_procs _ _ _ Hs n b Hb) as (p0 & Hp0 & _).
  assert (Hother : forall m b1, m <> n -> sv_backends s' !! m = Some b1 -> sv_backends s !! m = Some b1).
  { intros m b1 Hne. by rewrite Eb, lookup_insert_ne. }
  assert (Hself : forall b1, sv_backends s' !! n = Some b1 -> b1 = b') by (intros b1; rewrite Eb, lookup_insert_eq; congruence).
  assert (Hfrom : forall m b1 v, sv_backends s' !! m = Some b1 -> v ∈ ids b1 -> exists b2, sv_backends s !! m = Some b2 /\ v ∈ ids b2).
  { intros m b1 v Hb1 Hv. destruct (decide (m = n)) as [->|Hne]; [|eauto].
    apply Hself in Hb1 as ->. exists b. split; [done|]. apply Hids. by left. }
  assert (Hlive : forall v, live s' v -> live s v).
  { intros v (m & b1 & Hb1 & Hv)%live_ids. destruct (Hfrom m b1 v Hb1 Hv) as (b2 & Hb2 & Hv2). apply live_ids. by exists m, b2. }
  assert (Hstat : forall v, status s' v = status s v /\ parent s' v = parent s v) by (intros v; unfold status, parent; by rewrite El, Es).
  assert (Hended : forall v, ended lo N0 s v -> ended lo N0 s' v).
  { intros v [[Hw Hr] Hn]. split; [split; [done|by rewrite En]|auto]. }
  assert (Hasg : forall v, assigned lo N0 s' v <-> assigned lo N0 s v) by (intros v; unfold assigned; by rewrite En).
  split.
  - split; [done|]. by rewrite A2.
  - by rewrite En.
  - rewrite En. split; [done|]. split; [lia|]. split; [lia|done].
  - rewrite EC. pose proof (so_count _ _ _ Hs). lia.
  - intros m. rewrite A1, (so_dom _ _ _ Hs), Eb. destruct (decide (m = n)) as [->|Hne]; [|by rewrite lookup_insert_ne].
    rewrite lookup_insert_eq. split; intros _; eauto.
  - intros m b1 Hb1. destruct (decide (m = n)) as [->|Hne].
    + apply Hself in Hb1 as ->. exists p'. split; [|done]. rewrite A3. apply list_lookup_insert_eq. by eapply lookup_lt_Some.
    + destruct (so_procs _ _ _ Hs m b1 (Hother m b1 Hne Hb1)) as (p & Hp & Hsh). exists p. split; [|done].
      by rewrite A3, list_lookup_insert_ne.
  - intros m b1 Hb1. destruct (decide (m = n)) as [->|Hne]; [by apply Hself in Hb1 as ->|].
    apply (backend_frame lo N0 s); [by eapply so_backends, Hother|lia|done].
  - intros m1 m2 b1 b2 v H1 H2 Hv1 Hv2. destruct (Hfrom m1 b1 v H1 Hv1) as (c1 & Hc1 & Hw1). destruct (Hfrom m2 b2 v H2 Hv2) as (c2 & Hc2 & Hw2).
    by eapply (so_disjoint _ _ _ Hs).
  - rewrite El, Es. apply (so_logs _ _ _ Hs).
  - rewrite El, Es, En. apply (so_clean _ _ _ Hs).
  - intros v Hv. pose proof Hv as [Hva Hvl]. destruct (decide (v ∈ gone)) as [Hg|Hg]; [by apply Hgone|].
    assert (Hv0 : ended lo N0 s v).
    { split; [by apply Hasg|]. intros (m & b1 & Hb1 & Hvb)%live_ids. apply Hvl, live_ids. destruct (decide (m = n)) as [->|Hne].
      - rewrite Hb in Hb1. injection Hb1 as <-. apply Hids in Hvb as [Hvb|?]; [|done]. exists n, b'. by rewrite Eb, lookup_insert_eq.
      - exists m, b1. by rewrite Eb, lookup_insert_ne. }
    apply (ended_frame lo N0 s); [by apply (so_ended _ _ _ Hs)|done|lia|lia|done|auto|]. intros p _. by apply Hasg.
  - intros m b1 r x Hb1 Hx. destruct (decide (m = n)) as [->|Hne].
    + apply Hself in Hb1 as ->. rewrite Ex in Hx. destruct (so_xmins _ _ _ Hs n b r x Hb Hx). split; by eapply shrinks_xmin.
    + destruct (so_xmins _ _ _ Hs m b1 r x (Hother m b1 Hne Hb1) Hx). split; by eapply shrinks_xmin.
  - intros m b1 Hb1. rewrite EC. assert (Hc : snapXactCompletionCount (b_snapshot b1) <= completions s); [|split; lia].
    destruct (decide (m = n)) as [->|Hne]; [|by apply (so_snapshots _ _ _ Hs m b1 (Hother m b1 Hne Hb1))].
    apply Hself in Hb1 as ->. rewrite Esn. by apply (so_snapshots _ _ _ Hs n b Hb).
Qed.

(** The counters when the transaction [v] with its children [cs] completes. *)
Record completed (s : server) (a : ProcArrayStruct) (v : Z) (cs : list Z) : Prop := {
  co_valid : TransactionIdIsValid (latest_of v cs) = true;
  co_next : nextXid (pa_vars a) = nextXid (vars s);
  co_window : in_window lo (value (latestCompletedXid (pa_vars a)));
  co_latest : latest_id s <= value (latestCompletedXid (pa_vars a)) < next_id s;
  co_first : N0 <= value (FullTransactionIdAdvance (latestCompletedXid (pa_vars a)));
  co_count : xactCompletionCount (pa_vars a) = completions s + 1;
  co_all : forall w, w ∈ v :: cs -> w <= value (latestCompletedXid (pa_vars a))
}.

Lemma complete_vars s a v cs :
  ok s -> (forall w, w ∈ v :: cs -> assigned lo N0 s w) -> completions s + 1 < 2 ^ 64 ->
  pa_vars a = count_completion (MaintainLatestCompletedXid (latest_of v cs) (vars s)) -> completed s a v cs.
Proof.
  intros Hs Ha Hc Ev. destruct (so_next _ _ _ Hs) as (S1 & S2 & S3 & S4 & S5). destruct (so_latest _ _ _ Hs) as (T1 & T2 & T3 & T4).
  assert (Hm : exists m, latest_of v cs = u32 m /\ m ∈ v :: cs /\ forall w, w ∈ v :: cs -> w <= m).
  { destruct (latest_is_max lo v cs (length cs)) as (m & E & Hm & Hmax); [done| |].
    - apply list.Forall_forall. intros w Hw%Ha. destruct Hw as [[? ?] _]. done.
    - rewrite firstn_all in Hm, Hmax. exists m. split; [done|]. split; [by apply list_elem_of_In|]. intros w Hw. by apply Hmax, list_elem_of_In. }
  destruct Hm as (m & Em & Hin & Hmax). destruct (Ha m Hin) as [Hw Hr].
  destruct (maintain_latest lo m (vars s) T1 Hw ltac:(lia)) as (E1 & E2 & E3).
  assert (Hadv : m < value (FullTransactionIdAdvance (FullXid m))).
  { rewrite full_advance_value; [|split; [cbn; lia|apply Hw]|cbn; lia]. cbn. unfold step_of. destruct (_ =? _); lia. }
  pose proof (so_count _ _ _ Hs). assert (Hval : TransactionIdIsValid (u32 m) = true) by (by apply valid_of_normal, Hw).
  rewrite Em in Ev. split; rewrite ?Ev, ?Em, ?E1, ?E2, ?E3; unfold latest_id in *; try done.
  1-3, 5: destruct (Z.ltb_spec (value (latestCompletedXid (vars s))) m); cbv iota; change (value (FullXid m)) with m; try done; try lia.
  - intros w Hw'. specialize (Hmax w Hw'). lia.
  - by rewrite u64_small by (unfold completions in *; lia).
Qed.

(** Once every page is written, the tree has its final status. *)
Lemma written_status s b x xs st :
  backend_ok lo N0 s b -> tree b = Some (x, xs, st, []) ->
  (st = TRANSACTION_STATUS_COMMITTED \/ st = TRANSACTION_STATUS_ABORTED) /\ forall w, w ∈ x :: xs -> status s w = Some st.
Proof.
  intros Hb Et. pose proof (bo_log _ _ _ _ Hb) as Hlog. unfold log_shows in Hlog. rewrite Et in Hlog.
  destruct Hlog as (Hst & done' & E & H1 & _). rewrite app_nil_r in E. subst done'. split; [done|]. intros w Hw. rewrite (H1 w Hw). f_equal.
  assert (Hst' : 0 <= st < 4 /\ st <> TRANSACTION_STATUS_SUB_COMMITTED) by (destruct Hst as [-> | ->]; done). destruct Hst' as [Hr Hns].
  apply tree_final; [done|done| |].
  - apply (bo_assigned _ _ _ _ Hb x). eapply tree_ids; [done..|]. by left.
  - change (u32 x :: map u32 xs) with (map u32 (x :: xs)). apply list_elem_of_fmap. by exists w.
Qed.

Lemma parent_known s b w :
  backend_ok lo N0 s b -> w ∈ option_ids (b_top b) ++ b_subs b ->
  parent s w = Some InvalidTransactionId \/ exists p, parent s w = Some (u32 p) /\ p ∈ option_ids (b_top b) ++ b_subs b /\ p < w.
Proof.
  intros Hb [Hw|Hw]%elem_of_app; [left; apply (bo_root _ _ _ _ Hb), elem_of_app; by left|right; by apply (bo_parent _ _ _ _ Hb)].
Qed.

Lemma idle_backend_ok s b : b_top b = None -> b_subs b = [] -> b_work b = Working -> backend_ok lo N0 s b.
Proof.
  destruct b as [top subs w xs sn]. cbn. intros -> -> ->. split; cbn; try done; try (by intros w ?%elem_of_nil). constructor.
Qed.

(** The array after the end of a transaction. *)
Lemma end_array s n b v st us a :
  ok s -> sv_backends s !! n = Some b -> b_work b = Finishing st us -> b_top b = Some v -> completions s + 1 < 2 ^ 64 ->
  ProcArrayEndTransaction n (latest_of v (b_subs b)) (sv_array s) = Some a ->
  (forall w, w ∈ ids b <-> w ∈ v :: b_subs b) /\ completed s a v (b_subs b) /\ pa_ok a /\
  exists p', stored n p' (sv_array s) a /\ proc_shows (set_ids None [] Working b) p'.
Proof.
  intros Hs Hb Hw Ht Hc E. pose proof (so_backends _ _ _ Hs n b Hb) as Hok.
  assert (Hids : forall w, w ∈ ids b <-> w ∈ v :: b_subs b).
  { intros w. rewrite elem_of_ids, sub_ids_plain, Ht, elem_of_cons by (unfold pending; by rewrite Hw).
    split; intros [?|?]; [left; congruence|by right|left; congruence|by right]. }
  assert (Hasg : forall w, w ∈ v :: b_subs b -> assigned lo N0 s w) by (intros w Hw'; by apply (bo_assigned _ _ _ _ Hok), Hids).
  destruct (so_procs _ _ _ Hs n b Hb) as (q & Hq & Hsh).
  assert (Hval : TransactionIdIsValid (latest_of v (b_subs b)) = true).
  { by eapply co_valid, (complete_vars s (set_vars (count_completion (MaintainLatestCompletedXid (latest_of v (b_subs b)) (vars s))) (sv_array s))). }
  destruct (end_effect n _ _ a b q Hq Hsh Hval E) as (Ev & Hp').
  assert (Hn : n ∈ pgprocnos (sv_array s)) by (apply (so_dom _ _ _ Hs); by exists b). apply list_elem_of_lookup in Hn as [i Hi].
  split; [done|]. split; [by apply complete_vars|]. split; [|done]. by eapply end_transaction_ok, E; [apply (so_array _ _ _ Hs)|].
Qed.

(** The ids of a tree that has ended. *)
Lemma tree_ended s s' n b b' v cs st :
  ok s -> sv_backends s !! n = Some b -> sv_backends s' = <[n := b']> (sv_backends s) -> next_id s' = next_id s ->
  sv_log s' = sv_log s -> sv_subtrans s' = sv_subtrans s -> tree b = Some (v, cs, st, []) -> ids b' = [] ->
  (forall w, w ∈ ids b <-> w ∈ v :: cs) -> option_ids (b_top b) ++ b_subs b = v :: cs -> (forall w, w ∈ v :: cs -> w <= latest_id s') ->
  forall w, w ∈ v :: cs -> ended_ok lo N0 s' w.
Proof.
  intros Hs Hb Eb En El Es Et Hidle Hids Eown Hlat w Hw. pose proof (so_backends _ _ _ Hs n b Hb) as Hok.
  destruct (written_status s b v cs st Hok Et) as [Hst Hstat].
  assert (Hsame : forall x, status s' x = status s x /\ parent s' x = parent s x) by (intros x; unfold status, parent; by rewrite El, Es).
  assert (Hasg : forall x, x ∈ v :: cs -> assigned lo N0 s x) by (intros x Hx; by apply (bo_assigned _ _ _ _ Hok), Hids).
  assert (Hdead : forall x, x ∈ v :: cs -> ended lo N0 s' x).
  { intros x Hx. destruct (Hasg x Hx) as [Hxw Hxr]. split; [split; [done|by rewrite En]|].
    intros (m & b1 & Hb1 & Hv1)%live_ids. rewrite Eb in Hb1. destruct (decide (m = n)) as [->|Hne].
    - rewrite lookup_insert_eq in Hb1. injection Hb1 as <-. rewrite Hidle in Hv1. by apply elem_of_nil in Hv1.
    - rewrite lookup_insert_ne in Hb1 by done. apply Hne. eapply (so_disjoint _ _ _ Hs m n b1 b x); try done. by apply Hids. }
  destruct (Hsame w) as [Esw Epw]. split; rewrite ?Esw, ?Epw, ?(Hstat w Hw).
  - destruct Hst as [-> | ->]; [by left|by right].
  - by apply Hlat.
  - destruct (parent_known s b w Hok) as [Hp|(p0 & Hp & Hin & Hlt)]; [by rewrite Eown|by left|right].
    exists p0. split; [done|]. split; [|done]. apply Hdead. by rewrite <- Eown.
  - intros [= ->] p0 [Hp0 _] Hpar. destruct (parent_known s b w Hok) as [Hp|(p1 & Hp & Hin & Hlt)]; [by rewrite Eown| |];
      rewrite Hp in Hpar; injection Hpar as Hpar.
    + destruct Hp0 as [_ Hp0]. unfold InvalidTransactionId, FirstNormalTransactionId in *. lia.
    + rewrite Eown in Hin. apply (u32_window_inj lo) in Hpar; [|by apply Hasg|done]. subst p1.
      split; [by apply Hdead|]. rewrite (proj1 (Hsame p0)). by apply Hstat.
Qed.

Lemma end_ok_step s n b v st a :
  ok s -> sv_backends s !! n = Some b -> b_work b = Finishing st [] -> b_top b = Some v -> completions s + 1 < 2 ^ 64 ->
  ProcArrayEndTransaction n (latest_of v (b_subs b)) (sv_array s) = Some a ->
  ok (set_backend n (set_ids None [] Working b) (set_array a s)).
Proof.
  intros Hs Hb Hw Ht Hc E. destruct (end_array s n b v st [] a Hs Hb Hw Ht Hc E) as (Hids & [V0 V1 V2 V3 V4 V5 V6] & Hpa & p' & Hst & Hsh').
  set (b' := set_ids None [] Working b). set (s' := set_backend n b' (set_array a s)).
  assert (En : next_id s' = next_id s) by exact (f_equal value V1).
  apply (drop_ok s s' n b b' p' (v :: b_subs b)); try done.
  - intros w. rewrite Hids. split; [by right|]. by intros [?%elem_of_nil|?].
  - by apply idle_backend_ok.
  - intros w Hw' _. eapply (tree_ended s s' n b b' v (b_subs b) st); try done; [unfold tree; by rewrite Hw, Ht|by rewrite Ht].
Qed.

(** The array after the end of a subtransaction. *)
Lemma undone_array s n b v cs us a :
  ok s -> sv_backends s !! n = Some b -> b_work b = Undoing v cs us -> completions s + 1 < 2 ^ 64 ->
  XidCacheRemoveRunningXids n (u32 v) (map u32 cs) (latest_of v cs) (sv_array s) = Some a ->
  let b' := set_ids (b_top b) (filter (fun w => w ∉ v :: cs) (b_subs b)) Working b in
  (forall w, w ∈ ids b <-> w ∈ ids b' \/ w ∈ v :: cs) /\ (forall w, w ∈ ids b' -> w ∉ v :: cs) /\
  completed s a v cs /\ pa_ok a /\ exists p', stored n p' (sv_array s) a /\ proc_shows b' p'.
Proof.
  intros Hs Hb Hw Hc E b'. pose proof (so_backends _ _ _ Hs n b Hb) as Hok. destruct (bo_undo _ _ _ _ Hok v cs us Hw) as (Hnd & Hin & Hpar).
  assert (Hpe : pending b = []) by (unfold pending; by rewrite Hw).
  assert (Hrest : forall w, w ∈ b_subs b' <-> w ∈ b_subs b /\ w ∉ v :: cs) by (intros w; cbn; rewrite list_elem_of_filter; tauto).
  assert (Hsub : forall w, w ∈ v :: cs -> w ∈ ids b) by (intros w Hw'; apply elem_of_ids; right; rewrite sub_ids_plain by done; by apply Hin).
  assert (Hasg : forall w, w ∈ ids b -> assigned lo N0 s w) by apply (bo_assigned _ _ _ _ Hok).
  destruct (so_procs _ _ _ Hs n b Hb) as (q & Hq & Hsh).
  destruct (undone_effect lo n v cs us _ _ a b q Hq Hsh Hw ltac:(intros w Hw'; apply Hasg, elem_of_ids; by right) Hin E) as (Ev & Hp').
  assert (Hn : n ∈ pgprocnos (sv_array s)) by (apply (so_dom _ _ _ Hs); by exists b). apply list_elem_of_lookup in Hn as [i Hi].
  split; [|split; [|split; [apply complete_vars; auto|split; [|done]]]].
  - intros w. rewrite !elem_of_ids, !sub_ids_plain by done. change (b_top b') with (b_top b). rewrite Hrest.
    destruct (decide (w ∈ v :: cs)) as [Hd|Hd]; [|tauto]. split; [by right|]. intros _. right. by apply Hin.
  - intros w [Ht|Hw']%elem_of_ids.
    + intros Hd%Hin. pose proof (bo_after _ _ _ _ Hok w w Ht ltac:(rewrite sub_ids_plain; done)). lia.
    + rewrite sub_ids_plain in Hw' by done. apply (proj1 (Hrest w) Hw').
  - by eapply cache_remove_ok, E; [apply (so_array _ _ _ Hs)|].
Qed.

Lemma undone_ok_step s n b v cs a :
  ok s -> sv_backends s !! n = Some b -> b_work b = Undoing v cs [] -> completions s + 1 < 2 ^ 64 ->
  XidCacheRemoveRunningXids n (u32 v) (map u32 cs) (latest_of v cs) (sv_array s) = Some a ->
  ok (set_backend n (set_ids (b_top b) (filter (fun w => w ∉ v :: cs) (b_subs b)) Working b) (set_array a s)).
Proof.
  intros Hs Hb Hw Hc E. pose proof (so_backends _ _ _ Hs n b Hb) as Hok. destruct (bo_undo _ _ _ _ Hok v cs [] Hw) as (Hnd & Hin & Hpar).
  destruct (undone_array s n b v cs [] a Hs Hb Hw Hc E) as (Hids & Hdis & [V0 V1 V2 V3 V4 V5 V6] & Hpa & p' & Hst & Hsh').
  assert (Hpe : pending b = []) by (unfold pending; by rewrite Hw).
  set (rest := filter (fun w => w ∉ v :: cs) (b_subs b)) in *. set (b' := set_ids (b_top b) rest Working b) in *.
  assert (Hrest : forall w, w ∈ rest <-> w ∈ b_subs b /\ w ∉ v :: cs) by (intros w; unfold rest; rewrite list_elem_of_filter; tauto).
  assert (Hasg : forall w, w ∈ ids b -> assigned lo N0 s w) by apply (bo_assigned _ _ _ _ Hok).
  set (s' := set_backend n b' (set_array a s)).
  assert (En : next_id s' = next_id s) by exact (f_equal value V1).
  assert (Et : tree b = Some (v, cs, TRANSACTION_STATUS_ABORTED, [])) by (unfold tree; by rewrite Hw).
  apply (drop_ok s s' n b b' p' (v :: cs)); try done.
  - pose proof Hok as [B1 B2 B3 B4 B5 B6 B7 B8 B9]. pose proof (bo_log _ _ _ _ Hok) as Hlog. unfold log_shows in Hlog. rewrite Et in Hlog.
    destruct Hlog as (_ & done' & _ & _ & Hlog).
    split; change (b_top b') with (b_top b); change (b_subs b') with rest; change (pending b') with (@nil Z);
      change (b_work b') with Working; try done.
    + intros Ht. destruct (B1 Ht) as [_ Hw']. congruence.
    + intros w Hw'. destruct (Hasg w ltac:(apply Hids; by left)) as [Hww Hwr]. split; [done|by rewrite En].
    + unfold ids, sub_ids in *. rewrite Hpe, app_nil_r in B3. change (pending b') with (@nil Z). rewrite app_nil_r.
      change (b_top b') with (b_top b). change (b_subs b') with rest. apply list.NoDup_app in B3 as (D1 & D2 & D3).
      apply list.NoDup_app. split; [done|]. split; [|by apply NoDup_filter]. intros w Hw' [Hr _]%Hrest. by apply (D2 w).
    + intros t w Ht Hw'. rewrite sub_ids_plain in Hw' by done. apply Hrest in Hw' as [Hw' _]. apply B4; [done|]. by rewrite sub_ids_plain.
    + intros w [Hw' Hd]%Hrest. change (parent s' w) with (parent s w). destruct (B5 w Hw') as (p0 & Hp0 & Hin0 & Hlt). exists p0.
      split; [done|]. split; [|done]. apply elem_of_app in Hin0 as [Hin0|Hin0]; apply elem_of_app; [by left|right]. apply Hrest. split; [done|].
      intros Hd0. by apply (Hpar w p0 Hw' Hd Hd0).
    + intros w Hw'. change (parent s' w) with (parent s w). apply B6. rewrite app_nil_r in Hw'. apply elem_of_app. by left.
    + unfold log_shows, tree. change (b_work b') with Working. change (b_top b') with (b_top b). intros w Hw'.
      change (status s w = Some TRANSACTION_STATUS_IN_PROGRESS). apply Hlog; [apply Hids; by left|by apply Hdis].
  - intros w Hw' Hl. destruct (written_status s b v cs _ Hok Et) as [_ Hstat]. split.
    + right. by apply Hstat.
    + by apply V6.
    + change (parent s' w) with (parent s w). destruct (bo_parent _ _ _ _ Hok w (Hin w Hw')) as (p0 & Hp & Hin0 & Hlt). right. exists p0.
      split; [done|]. split; [|done]. destruct (Hasg p0 (own_ids b p0 Hin0)) as [Hww Hwr]. split; [done|by rewrite En].
    + change (status s' w) with (status s w). by rewrite (Hstat w Hw').
Qed.

(** ** Steps that connect and disconnect *)

Lemma idle_shows p : idle_proc p -> proc_shows new_backend p.
Proof.
  intros (H1 & H2 & H3 & H4). split; rewrite ?H2; [done..|cbn; lia|]. exists []. split; [done|]. split; [constructor|].
  split; [by intros v ?%elem_of_nil|]. by intros _ v ?%elem_of_nil.
Qed.

(** The backends that come have no ids yet, the backends that go have none left. *)
Record changes (s s' : server) : Prop := {
  ch_log : sv_log s' = sv_log s;
  ch_subtrans : sv_subtrans s' = sv_subtrans s;
  ch_come : forall n b, sv_backends s' !! n = Some b -> sv_backends s !! n = Some b \/
    (b = new_backend /\ exists p, allProcs (sv_array s) !! n = Some p /\ idle_proc p);
  ch_go : forall n b, sv_backends s !! n = Some b -> sv_backends s' !! n = Some b \/ (b_top b = None /\ b_subs b = [] /\ b_work b = Working)
}.

Lemma changes_ids s s' n b v : changes s s' -> sv_backends s' !! n = Some b -> v ∈ ids b -> sv_backends s !! n = Some b.
Proof. intros Hc Hb Hv. destruct (ch_come _ _ Hc n b Hb) as [?|[-> _]]; [done|by apply elem_of_nil in Hv]. Qed.

Lemma changes_grows s s' : changes s s' -> next_id s' = next_id s -> grows lo s s'.
Proof.
  intros Hc En. split; [by rewrite En|..].
  - intros m t (b & Hb & Ht). destruct (ch_go _ _ Hc m b Hb) as [Hb'|[E _]]; [by exists b|congruence].
  - intros m v (b & Hb & Hv). destruct (ch_go _ _ Hc m b Hb) as [Hb'|(_ & E1 & E2)]; [by exists b|].
    unfold sub_ids, pending in Hv. rewrite E1, E2 in Hv. by apply elem_of_nil in Hv.
  - intros m t (b & Hb & Ht). left. exists b. split; [|done]. eapply (changes_ids s s' m b t Hc Hb), elem_of_ids. by left.
  - intros m v (b & Hb & Hv). left. exists b. split; [|done]. eapply (changes_ids s s' m b v Hc Hb), elem_of_ids. by right.
  - intros v _ Hr. lia.
Qed.

Lemma moved_ok s s' :
  ok s -> moved (sv_array s) (sv_array s') -> pa_ok (sv_array s') ->
  (forall n, n ∈ pgprocnos (sv_array s') <-> is_Some (sv_backends s' !! n)) -> changes s s' -> ok s'.
Proof.
  intros Hs Hm Hpa Hdom Hc. destruct (so_array _ _ _ Hs) as [Ha Hmax]. pose proof Hm as (Ev & Emax & _).
  assert (En : next_id s' = next_id s) by (unfold next_id, vars; by rewrite Ev).
  assert (El : latest_id s' = latest_id s) by (unfold latest_id, vars; by rewrite Ev).
  assert (EC : completions s' = completions s) by (unfold completions, vars; by rewrite Ev).
  pose proof (changes_grows s s' Hc En) as Hg. pose proof Hc as [C1 C2 C3 C4].
  assert (Hsame : forall v, status s' v = status s v /\ parent s' v = parent s v) by (intros v; unfold status, parent; by rewrite C1, C2).
  split; rewrite ?En, ?El, ?EC, ?C1, ?C2.
  - split; [done|]. by rewrite Emax.
  - apply (so_next _ _ _ Hs).
  - unfold vars. rewrite Ev. apply (so_latest _ _ _ Hs).
  - apply (so_count _ _ _ Hs).
  - done.
  - intros n b [Hb|[-> (p & Hp & Hi)]]%C3.
    + destruct (so_procs _ _ _ Hs n b Hb) as (p & Hp & Hsh). by eapply moved_shows.
    + by eapply moved_shows, idle_shows.
  - intros n b [Hb|[-> _]]%C3; [|by apply idle_backend_ok].
    apply (backend_frame lo N0 s); [by eapply so_backends|lia|done].
  - intros n m b b' v Hb Hb' Hv Hv'. eapply (so_disjoint _ _ _ Hs n m b b' v); try done; by eapply changes_ids.
  - apply (so_logs _ _ _ Hs).
  - apply (so_clean _ _ _ Hs).
  - intros v Hv%(grows_ended _ _ s s' v Hg). apply (ended_frame lo N0 s); [by apply (so_ended _ _ _ Hs)|done|lia|lia| |done|].
    + intros w Hw. by apply (grows_ended _ _ s s' w Hg).
    + intros p _ [Hw Hr]. split; [done|lia].
  - intros n b r x [Hb|[-> _]]%C3 Hx; [|done]. destruct (so_xmins _ _ _ Hs n b r x Hb Hx). split; by eapply grows_xmin.
  - intros n b [Hb|[-> _]]%C3.
    + destruct (so_snapshots _ _ _ Hs n b Hb) as [H1 H2]. split; [done|]. intros [F HF]%H2. exists F. by eapply grows_exact.
    + pose proof (so_count _ _ _ Hs). cbn. split; lia.
Qed.

Lemma connect_changes s n p a :
  sv_backends s !! n = None -> allProcs (sv_array s) !! n = Some p -> idle_proc p ->
  changes s (set_backend n new_backend (set_array a s)).
Proof.
  intros Hn Hp Hi. split; [done|done| |]; cbn.
  - intros m b. destruct (decide (m = n)) as [->|Hne]; [|rewrite lookup_insert_ne by done; by left].
    rewrite lookup_insert_eq. intros [= <-]. right. split; [done|]. by exists p.
  - intros m b Hb. left. rewrite lookup_insert_ne; [done|congruence].
Qed.

Lemma disconnect_changes s n b a :
  ok s -> sv_backends s !! n = Some b -> b_top b = None ->
  changes s {| sv_array := a; sv_log := sv_log s; sv_subtrans := sv_subtrans s; sv_backends := delete n (sv_backends s) |}.
Proof.
  intros Hs Hb Ht. split; [done|done| |]; cbn.
  - intros m b'. destruct (decide (m = n)) as [->|Hne]; [by rewrite lookup_delete_eq|rewrite lookup_delete_ne by done; by left].
  - intros m b' Hb'. destruct (decide (m = n)) as [->|Hne]; [right|left; by rewrite lookup_delete_ne].
    rewrite Hb in Hb'. injection Hb' as <-. split; [done|]. by eapply bo_idle; [eapply so_backends|].
Qed.

Lemma connect_ok_step s n p a :
  ok s -> sv_backends s !! n = None -> allProcs (sv_array s) !! n = Some p -> idle_proc p ->
  ProcArrayAdd n (sv_array s) = Some a -> ok (set_backend n new_backend (set_array a s)).
Proof.
  intros Hs Hn Hp Hi E. destruct (add_effect n _ a E) as [Hm Hdom].
  assert (Hnot : n ∉ pgprocnos (sv_array s)) by (intros [b Hb]%(so_dom _ _ _ Hs); congruence).
  apply (moved_ok s); [done|done|by eapply add_ok, E; [apply (so_array _ _ _ Hs)|]| |by eapply connect_changes]; cbn.
  intros m. rewrite Hdom, (so_dom _ _ _ Hs). destruct (decide (m = n)) as [->|Hne].
  - rewrite lookup_insert_eq. split; [by eexists|by left].
  - rewrite lookup_insert_ne by done. split; [by intros [?|?]|by right].
Qed.

Lemma disconnect_ok_step s n b a :
  ok s -> sv_backends s !! n = Some b -> b_top b = None -> ProcArrayRemove n InvalidTransactionId (sv_array s) = Some a ->
  ok {| sv_array := a; sv_log := sv_log s; sv_subtrans := sv_subtrans s; sv_backends := delete n (sv_backends s) |}.
Proof.
  intros Hs Hb Ht E. destruct (so_array _ _ _ Hs) as [Ha _].
  assert (Hn : n ∈ pgprocnos (sv_array s)) by (apply (so_dom _ _ _ Hs); by exists b).
  destruct (remove_effect n _ a Ha Hn E) as [Hm Hdom]. apply list_elem_of_lookup in Hn as [i Hi].
  apply (moved_ok s); [done|done|by eapply remove_ok, E| |by eapply disconnect_changes]; cbn.
  intros m. rewrite Hdom, (so_dom _ _ _ Hs). destruct (decide (m = n)) as [->|Hne].
  - rewrite lookup_delete_eq. split; [tauto|by intros [? ?]].
  - rewrite lookup_delete_ne by done. tauto.
Qed.

(** Every step keeps the invariant. *)
Lemma server_step_ok s n s' : ok s -> server_step lo n s s' -> ok s'.
Proof.
  intros Hs [].
  - by eapply connect_ok_step.
  - by eapply disconnect_ok_step.
  - by eapply top_ok_step.
  - by eapply sub_ok_step.
  - by eapply parent_ok_step.
  - by eapply finish_ok_step.
  - by eapply undo_ok_step.
  - by eapply write_ok_step.
  - by eapply write_undo_ok_step.
  - by eapply end_ok_step.
  - by eapply undone_ok_step.
  - by eapply readonly_ok_step.
  - by eapply snapshot_ok_step.
Qed.
End steps.
