(* ===== verification/ServerHistory.v ===== *)
(** * What one backend may rely on while others work

    The effect of a step on the ids of the other backends: a transaction that has ended keeps its place in the
    commit log, an aborted subtransaction stays aborted, a recorded parent stays, and an id that is not in the
    cache of a process does not come back into it.  A backend that takes no step itself
    may therefore read the process array first and the logs later. *)
From S2P Require Import Prelude TransactionId ItemPtr HeapTuple Snapshot Varsup Clog Subtrans ProcArray ProcArraySpec.
From S2P Require Import Server ServerInv ServerArray ServerSnapshot ServerSteps.
Import SubTrans.
Local Open Scope Z_scope.

(** ** The caches of the array *)

Definition cached_ids (p : Proc) : list TransactionId := take (count (p_subxidStatus p)) (p_subxids p).

(** The caches lose ids and get [new] ones only. *)
Definition caches (new : TransactionId -> Prop) (a a' : ProcArrayStruct) : Prop :=
  forall m q q', allProcs a !! m = Some q -> allProcs a' !! m = Some q' ->
  forall x, x ∈ cached_ids q' -> x ∈ cached_ids q \/ new x.

Definition nothing (x : TransactionId) : Prop := False.

Lemma caches_insert new n q' a a' :
  allProcs a' = <[n := q']> (allProcs a) ->
  (forall q, allProcs a !! n = Some q -> forall x, x ∈ cached_ids q' -> x ∈ cached_ids q \/ new x) -> caches new a a'.
Proof.
  intros E H m q q1 Hq Hq1 x Hx. rewrite E in Hq1. destruct (decide (m = n)) as [->|Hne].
  - rewrite list_lookup_insert_eq in Hq1 by (by eapply lookup_lt_Some). injection Hq1 as <-. by eapply H.
  - rewrite list_lookup_insert_ne in Hq1 by done. left. congruence.
Qed.

Lemma caches_same a : caches nothing a a.
Proof. intros m q q' H1 H2 x Hx. left. congruence. Qed.

Lemma moved_caches a a' : moved a a' -> caches nothing a a'.
Proof.
  intros (_ & _ & H) m q q' Hq Hq' x Hx. left. destruct (H m q Hq) as (i & Hi). rewrite Hi in Hq'. by injection Hq' as <-.
Qed.

Lemma publish_caches sub x n v a a' :
  publish sub x n (set_vars v a) = Some a' -> (forall p, allProcs a !! n = Some p -> (count (p_subxidStatus p) <= length (p_subxids p))%nat) ->
  caches (eq x) a a'.
Proof.
  unfold publish. cbn [set_vars allProcs]. destruct (allProcs a !! n) as [p|] eqn:Hp; [|done]. cbn [mbind option_bind].
  intros [= <-] Hlen. eapply caches_insert; [done|]. intros q. rewrite Hp. intros [= <-] y. specialize (Hlen p eq_refl).
  unfold publish_xid, pgproc_view, cached_ids. cbn [p_subxidStatus p_subxids]. destruct sub; cbn [negb]; [|by left].
  cbn [proc_subxids subxidStatus]. destruct (Nat.ltb_spec (count (p_subxidStatus p)) PGPROC_MAX_CACHED_SUBXIDS); [|by left].
  cbn [count proc_subxids subxidStatus]. destruct (decide (count (p_subxidStatus p) < length (p_subxids p))%nat) as [Hlt|Hge].
  - rewrite (take_S_r _ _ x) by (by apply list_lookup_insert_eq). rewrite take_insert_ge by lia.
    intros [Hy|Hy]%elem_of_app; [by left|right]. by apply list_elem_of_singleton in Hy.
  - rewrite list_insert_ge by lia. rewrite !take_ge by lia. by left.
Qed.

Lemma end_caches n x a a' : ProcArrayEndTransaction n x a = Some a' -> caches nothing a a'.
Proof.
  unfold ProcArrayEndTransaction, ProcArrayEndTransactionInternal. destruct (allProcs a !! n) as [p|] eqn:Hp; [|by destruct (TransactionIdIsValid x)].
  cbn [mbind option_bind]. destruct (TransactionIdIsValid x); intros [= <-]; (eapply caches_insert; [done|]); intros q; rewrite Hp; intros [= <-] y; [|by left].
  unfold cached_ids. cbn. destruct (has_subxids _); [by intros ?%elem_of_nil|by left].
Qed.

Lemma snapshot_caches n cid a old r a' : GetSnapshotData n cid a old = Some (r, a') -> caches nothing a a'.
Proof.
  unfold GetSnapshotData. destruct (allProcs a !! n) as [p|] eqn:Hp; [|done]. cbn [mbind option_bind].
  set (r0 := match GetSnapshotDataReuse _ _ _ with Some _ => _ | None => _ end). clearbody r0. intros [= _ <-].
  destruct (negb _); [|apply caches_same]. eapply caches_insert; [done|]. intros q. rewrite Hp. intros [= <-] y. by left.
Qed.

Lemma removed_caches n x xs latest a a' :
  (forall p, allProcs a !! n = Some p -> (count (p_subxidStatus p) <= length (p_subxids p))%nat /\ NoDup (cached_ids p)) ->
  XidCacheRemoveRunningXids n x xs latest a = Some a' -> caches nothing a a'.
Proof.
  intros Hok. unfold XidCacheRemoveRunningXids. destruct (allProcs a !! n) as [p|] eqn:Hp; [|done]. cbn [mbind option_bind].
  destruct (pa_subxidStates a !! p_pgxactoff p) as [st|]; [|done]. cbn [mbind option_bind]. destruct (Hok p eq_refl) as [Hlen Hnd].
  pose proof (remove_all (rev xs ++ [x]) (p_subxids p) (count (p_subxidStatus p)) Hlen Hnd) as Hr.
  destruct (remove_subxids _ _ _) as [l n']. destruct Hr as (_ & _ & _ & Hr). intros [= <-].
  eapply caches_insert; [done|]. intros q. rewrite Hp. intros [= <-] y. unfold cached_ids. cbn. rewrite Hr. intros [Hy _]. by left.
Qed.

(** ** The log of a tree that is being written *)

Lemma after_avoids r us y st s0 :
  (forall u, u ∈ us -> y ∈ members u -> pu_status u <> st) -> s0 <> st -> status_after r us y s0 <> st.
Proof.
  revert s0. induction us as [|u us IH]; intros s0 Hus Hs; [done|]. change (u :: us) with ([u] ++ us). rewrite status_after_app, status_after_one.
  apply IH; [intros v Hv; apply Hus; by right|]. destruct (decide _); [|done]. unfold new_status. destruct (_ && _); [done|]. apply Hus; [by left|done].
Qed.

Lemma tree_statuses x xs st :
  (st = TRANSACTION_STATUS_COMMITTED -> forall u, u ∈ tree_updates x xs st -> pu_status u <> TRANSACTION_STATUS_ABORTED) /\
  (st = TRANSACTION_STATUS_ABORTED -> forall u, u ∈ tree_updates x xs st -> pu_status u = TRANSACTION_STATUS_ABORTED).
Proof.
  split; intros -> u; edestruct (tree_updates_split x xs) as (pre & v & post & Hsplit);
    [| |destruct Hsplit as (-> & _ & Ev & first & rest & _ & _ & Hpre & Hpost & _ & _ & _ & _ & Hno)|
     | |destruct Hsplit as (-> & _ & Ev & first & rest & _ & _ & Hpre & Hpost & _ & _ & _ & _ & Hno)]; try done.
  - intros [Hu|[->|Hu]%elem_of_cons]%elem_of_app; [rewrite (proj2 (Hpre u Hu))|rewrite Ev|rewrite (proj2 (Hpost u Hu))]; done.
  - rewrite (Hno ltac:(done)). intros [->|Hu]%elem_of_cons; [done|]. by apply Hpost.
Qed.

(** The top-level transaction of a tree that commits is not marked sub-committed. *)
Lemma after_top x xs done' us :
  tree_updates x xs TRANSACTION_STATUS_COMMITTED = done' ++ us -> x ∉ xs ->
  status_after false done' x TRANSACTION_STATUS_IN_PROGRESS <> TRANSACTION_STATUS_SUB_COMMITTED.
Proof.
  intros E Hx. destruct (tree_updates_split x xs TRANSACTION_STATUS_COMMITTED) as (pre & v & post & Hsplit); [done..|].
  destruct Hsplit as (E' & _ & Ev & first & rest & -> & _ & _ & Hpost & _ & _ & _ & Hrest & _). apply after_avoids; [|done].
  intros u Hu Hm. assert (Hin : u ∈ pre ++ v :: post) by (rewrite <- E', E; apply elem_of_app; by left).
  apply elem_of_app in Hin as [Hin|[->|Hin]%elem_of_cons]; [|by rewrite Ev|by rewrite (proj2 (Hpost u Hin))].
  exfalso. apply Hx, elem_of_app. right. apply (Hrest eq_refl). by exists u.
Qed.

(** An aborted id of the tree stays aborted when the next page is written. *)
Lemma after_aborted x xs st done' u us y :
  st = TRANSACTION_STATUS_COMMITTED \/ st = TRANSACTION_STATUS_ABORTED -> tree_updates x xs st = done' ++ u :: us ->
  status_after false done' y TRANSACTION_STATUS_IN_PROGRESS = TRANSACTION_STATUS_ABORTED ->
  status_after false (done' ++ [u]) y TRANSACTION_STATUS_IN_PROGRESS = TRANSACTION_STATUS_ABORTED.
Proof.
  intros Hst E Ha. destruct (tree_statuses x xs st) as [HC HA]. rewrite E in HC, HA. destruct Hst as [->| ->].
  - exfalso. apply (after_avoids false done' y TRANSACTION_STATUS_ABORTED TRANSACTION_STATUS_IN_PROGRESS); [|done|exact Ha].
    intros v Hv _. apply HC; [done|]. apply elem_of_app. by left.
  - rewrite status_after_app, Ha, status_after_one. destruct (decide _); [|done]. unfold new_status. cbn [andb].
    apply HA; [done|]. apply elem_of_app. right. by left.
Qed.

Section effects.
Context (lo N0 : Z).
Abbreviation ok := (server_ok lo N0).

(** ** One step *)

(** Some process has the subtransaction in its cache. *)
Definition cached (s : server) (v : Z) : Prop :=
  exists m p, is_Some (sv_backends s !! m) /\ allProcs (sv_array s) !! m = Some p /\ u32 v ∈ cached_ids p.

(** What a step of the backend [n] leaves to the others. *)
Record step_effect (n : nat) (s s' : server) : Prop := {
  se_next : next_id s <= next_id s';
  se_latest : latest_id s <= latest_id s';
  se_others : forall m, m <> n -> sv_backends s' !! m = sv_backends s !! m;
  se_ids : forall b' v, sv_backends s' !! n = Some b' -> v ∈ ids b' -> next_id s <= v \/
    exists b, sv_backends s !! n = Some b /\ v ∈ ids b /\ (v ∈ pending b' -> v ∈ pending b);
  se_foreign : forall v, in_window lo v -> v < next_id s -> (forall b, sv_backends s !! n = Some b -> v ∉ ids b) ->
    status s' v = status s v /\ parent s' v = parent s v;
  se_own : forall b v, sv_backends s !! n = Some b -> v ∈ ids b ->
    (status s v = Some TRANSACTION_STATUS_ABORTED -> status s' v = Some TRANSACTION_STATUS_ABORTED) /\
    (v ∉ pending b -> parent s' v = parent s v);
  se_cached : forall v, in_window lo v -> N0 <= v < next_id s -> cached s' v -> cached s v;
  se_pending : forall b v, sv_backends s !! n = Some b -> v ∈ pending b ->
    exists b', sv_backends s' !! n = Some b' /\ b_top b' = b_top b /\ v ∈ sub_ids b'
}.

Lemma backend_proc s n b : ok s -> sv_backends s !! n = Some b ->
  forall p, allProcs (sv_array s) !! n = Some p -> (count (p_subxidStatus p) <= length (p_subxids p))%nat /\ NoDup (cached_ids p).
Proof.
  intros Hs Hb p Hp. destruct (so_procs _ _ _ Hs n b Hb) as (q & Hq & [P1 P2 P3 P4 (cs & E & Hnd & H1 & _)]).
  rewrite Hp in Hq. injection Hq as <-. split; [lia|]. unfold cached_ids. rewrite E. apply (nodup_u32 lo); [|done].
  intros v Hv. eapply sub_window; [done..|]. by apply sub_in_ids, H1.
Qed.

(** The caches of the backends that were there before. *)
Lemma cached_before s s' new v :
  ok s -> (forall m, is_Some (sv_backends s' !! m) -> is_Some (sv_backends s !! m)) -> caches new (sv_array s) (sv_array s') ->
  ~ new (u32 v) -> cached s' v -> cached s v.
Proof.
  intros Hs Hdom Hc Hn (m & p' & Hm & Hp' & Hv). destruct (Hdom m Hm) as [b Hb].
  destruct (so_procs _ _ _ Hs m b Hb) as (p & Hp & _). exists m, p. split; [by eexists|]. split; [done|].
  by destruct (Hc m p p' Hp Hp' _ Hv).
Qed.

(** A step that changes the state of a connected backend and no log. *)
Lemma quiet_effect s s' n b b' :
  ok s -> sv_backends s !! n = Some b -> sv_backends s' = <[n := b']> (sv_backends s) ->
  sv_log s' = sv_log s -> sv_subtrans s' = sv_subtrans s -> next_id s' = next_id s -> latest_id s <= latest_id s' ->
  caches nothing (sv_array s) (sv_array s') ->
  (forall v, v ∈ ids b' -> v ∈ ids b /\ (v ∈ pending b' -> v ∈ pending b)) ->
  (forall v, v ∈ pending b -> b_top b' = b_top b /\ v ∈ sub_ids b') -> step_effect n s s'.
Proof.
  intros Hs Hb Eb El Es En Hl Hc Hids Hpe.
  assert (Hsame : forall v, status s' v = status s v /\ parent s' v = parent s v) by (intros v; unfold status, parent; by rewrite El, Es).
  split; [lia|done| | | | | |].
  - intros m Hne. by rewrite Eb, lookup_insert_ne.
  - intros b1 v. rewrite Eb, lookup_insert_eq. intros [= <-] Hv. right. exists b. split; [done|]. by apply Hids.
  - intros v _ _ _. apply Hsame.
  - intros b1 v _ _. destruct (Hsame v) as [-> ->]. done.
  - intros v _ _. eapply cached_before; [done| |done|by intros []].
    intros m. rewrite Eb. destruct (decide (m = n)) as [->|Hne]; [by rewrite Hb|by rewrite lookup_insert_ne].
  - intros b1 v Hb1 Hv. rewrite Hb in Hb1. injection Hb1 as <-. exists b'. rewrite Eb, lookup_insert_eq. split; [done|]. by apply Hpe.
Qed.

Lemma assign_effect s n b b' sub s1 :
  ok s -> sv_backends s !! n = Some b -> assign_id sub n s = Some s1 -> pending b = [] ->
  (forall v, v ∈ ids b' -> v = next_id s \/ (v ∈ ids b /\ v ∉ pending b')) -> step_effect n s (set_backend n b' s1).
Proof.
  intros Hs Hb E Hpe Hids. destruct (extend_logs lo N0 s Hs) as (_ & X2 & _). destruct (next_step lo N0 s Hs) as (Hlt & _).
  unfold assign_id in E. destruct (publish sub _ n _) as [a|] eqn:Ep; [|done]. cbn [mbind option_bind] in E. injection E as <-.
  assert (Ev : pa_vars a = set_nextXid (FullTransactionIdAdvance (nextXid (vars s))) (vars s)).
  { unfold publish in Ep. destruct (allProcs _ !! n); [|done]. cbn [mbind option_bind] in Ep. injection Ep as Ep. by rewrite <- Ep. }
  set (s' := set_backend n b' _) in *.
  assert (En : next_id s' = value (FullTransactionIdAdvance (nextXid (vars s)))) by (unfold next_id, vars; cbn [s' set_backend sv_array]; by rewrite Ev).
  split.
  - lia.
  - unfold latest_id, vars. cbn [s' set_backend sv_array]. by rewrite Ev.
  - intros m Hne. cbn [s' set_backend sv_backends]. by rewrite lookup_insert_ne.
  - intros b1 v. cbn [s' set_backend sv_backends]. rewrite lookup_insert_eq. intros [= <-] [->|[Hv Hn]]%Hids; [by left|right].
    exists b. done.
  - intros v Hw Hr _. by apply X2.
  - intros b1 v Hb1 Hv. destruct (bo_assigned _ _ _ _ (so_backends _ _ _ Hs n b1 Hb1) v Hv) as [Hw Hr].
    destruct (X2 v Hw ltac:(lia)) as [E1 E2]. split; [|done]. intros Hst. unfold status in *. by rewrite <- Hst.
  - intros v Hw Hr. apply (cached_before s s' (eq (u32 (next_id s))) v Hs).
    + intros m. cbn [s' set_backend sv_backends]. destruct (decide (m = n)) as [->|Hne]; [by rewrite Hb|by rewrite lookup_insert_ne].
    + eapply publish_caches; [exact Ep|]. intros p Hp. by apply (backend_proc s n b Hs Hb).
    + intros Eu. apply (u32_window_inj lo) in Eu; [lia|apply (so_next _ _ _ Hs)|done].
  - intros b1 v Hb1. rewrite Hb in Hb1. injection Hb1 as <-. rewrite Hpe. by intros ?%elem_of_nil.
Qed.

Lemma parent_effect s n b v q t :
  ok s -> sv_backends s !! n = Some b -> b_work b = Recording v q ->
  SubTransSetParent (u32 v) (u32 q) (sv_subtrans s) = Some t ->
  step_effect n s (set_backend n (set_ids (b_top b) (b_subs b ++ [v]) Working b) (set_subtrans t s)).
Proof.
  intros Hs Hb Hw E. pose proof (so_backends _ _ _ Hs n b Hb) as Hok. destruct (ok_logs lo N0 s Hs) as (_ & L2 & _).
  assert (Hpe : pending b = [v]) by (unfold pending; by rewrite Hw).
  assert (Hvb : v ∈ ids b) by (apply elem_of_ids; right; unfold sub_ids; rewrite Hpe; apply elem_of_app; right; by left).
  pose proof (bo_root _ _ _ _ Hok v ltac:(rewrite Hpe; apply elem_of_app; right; by left)) as Hroot.
  destruct (SubTransPages.set_parent_spec (u32 v) (u32 q) _ _ L2 Hroot) as (t' & E' & _ & Hlook). rewrite E in E'. injection E' as <-.
  set (b' := set_ids (b_top b) (b_subs b ++ [v]) Working b). set (s' := set_backend n b' (set_subtrans t s)).
  assert (Esub : sub_ids b' = sub_ids b) by (unfold sub_ids; rewrite Hpe; apply app_nil_r).
  assert (Hother : forall w, in_window lo w -> w <> v -> parent s' w = parent s w).
  { intros w Hww Hne. unfold parent. cbn [s' set_backend set_subtrans sv_subtrans]. rewrite Hlook, decide_False; [done|].
    intros Hu. apply Hne. by apply (u32_window_inj lo); [|apply (bo_assigned _ _ _ _ Hok)|]. }
  split; try done.
  - intros m Hne. cbn [s' set_backend sv_backends]. by rewrite lookup_insert_ne.
  - intros b1 w. cbn [s' set_backend sv_backends]. rewrite lookup_insert_eq. intros [= <-] Hw'. right. exists b. split; [done|].
    split; [|by intros ?%elem_of_nil]. apply elem_of_ids in Hw'. rewrite Esub in Hw'. by apply elem_of_ids.
  - intros w Hww _ Hno. split; [done|]. apply Hother; [done|]. intros ->. by apply (Hno b).
  - intros b1 w Hb1 Hw'. rewrite Hb in Hb1. injection Hb1 as <-. split; [done|]. rewrite Hpe. intros Hne.
    apply Hother; [by apply (bo_assigned _ _ _ _ Hok)|]. intros ->. apply Hne. by left.
  - intros w _ _. eapply cached_before; [done| |apply caches_same|by intros []].
    intros m. cbn [s' set_backend set_subtrans sv_backends]. destruct (decide (m = n)) as [->|Hne]; [by rewrite Hb|by rewrite lookup_insert_ne].
  - intros b1 w Hb1 Hw'. rewrite Hb in Hb1. injection Hb1 as <-. exists b'. cbn [s' set_backend sv_backends]. rewrite lookup_insert_eq.
    split; [done|]. split; [done|]. rewrite Esub. unfold sub_ids. apply elem_of_app. by right.
Qed.

Lemma write_effect s n b w x xs st u us lsn c :
  ok s -> sv_backends s !! n = Some b -> tree b = Some (x, xs, st, u :: us) -> tree (set_work w b) = Some (x, xs, st, us) ->
  pending b = [] -> pending (set_work w b) = [] -> TransactionIdSetPageStatusInternal false lsn u (sv_log s) = Some c ->
  step_effect n s (set_backend n (set_work w b) (set_log c s)).
Proof.
  intros Hs Hb Et Et' Hpe Hpe' E. pose proof (so_backends _ _ _ Hs n b Hb) as Hok. set (b' := set_work w b) in *.
  assert (Eids : ids b' = ids b) by (unfold ids; by rewrite !sub_ids_plain).
  destruct (write_page lo N0 s n b b' x xs st u us lsn c Hs Hb Et Et' Eids E) as [[_ Hw] _].
  set (s' := set_backend n b' (set_log c s)). split; try done.
  - intros m Hne. cbn [s' set_backend sv_backends]. by rewrite lookup_insert_ne.
  - intros b1 v. cbn [s' set_backend sv_backends]. rewrite lookup_insert_eq. intros [= <-]. rewrite Eids, Hpe'. intros Hv. right. exists b.
    split; [done|]. split; [done|]. by intros ?%elem_of_nil.
  - intros v Hv _ Hno. split; [|done]. apply Hw; [done|]. by apply Hno.
  - intros b1 v Hb1 Hv. rewrite Hb in Hb1. injection Hb1 as <-. split; [|done]. intros Ha.
    pose proof (bo_log _ _ _ _ Hok) as Hlog. unfold log_shows in Hlog. rewrite Et in Hlog. destruct Hlog as (Hst & done' & Eu & H1 & H2).
    destruct (decide (v ∈ x :: xs)) as [Hin|Hin]; [|by rewrite (H2 v Hv Hin) in Ha].
    assert (Hlog' : log_shows s' b') by (by eapply (write_page lo N0 s n b b')).
    unfold log_shows in Hlog'. rewrite Et' in Hlog'. destruct Hlog' as (_ & done2 & Eu2 & H3 & _). rewrite (H3 v Hin). f_equal.
    assert (done2 = done' ++ [u]) as ->.
    { rewrite Eu in Eu2. change (u :: us) with ([u] ++ us) in Eu2. rewrite app_assoc in Eu2. by apply app_inj_2 in Eu2 as [-> _]. }
    apply (after_aborted (u32 x) (map u32 xs) st done' u us); [done|done|]. rewrite (H1 v Hin) in Ha. by injection Ha.
  - intros v _ _. eapply cached_before; [done| |apply caches_same|by intros []].
    intros m. cbn [s' set_backend set_log sv_backends]. destruct (decide (m = n)) as [->|Hne]; [by rewrite Hb|by rewrite lookup_insert_ne].
  - intros b1 v Hb1. rewrite Hb in Hb1. injection Hb1 as <-. rewrite Hpe. by intros ?%elem_of_nil.
Qed.

Lemma changes_effect s s' n :
  ok s -> moved (sv_array s) (sv_array s') -> changes s s' -> (forall m, m <> n -> sv_backends s' !! m = sv_backends s !! m) ->
  step_effect n s s'.
Proof.
  intros Hs Hm Hc Hother. pose proof Hm as (Ev & _ & Hp). destruct Hc as [C1 C2 C3 C4].
  assert (Hsame : forall v, status s' v = status s v /\ parent s' v = parent s v) by (intros v; unfold status, parent; by rewrite C1, C2).
  split; [unfold next_id, vars; by rewrite Ev|unfold latest_id, vars; by rewrite Ev|done| | | | |].
  - intros b' v [Hb|[-> _]]%C3 Hv; [|by apply elem_of_nil in Hv]. right. by exists b'.
  - intros v _ _ _. apply Hsame.
  - intros b v _ _. destruct (Hsame v) as [-> ->]. done.
  - intros v _ _ (m & p' & [b Hb] & Hp' & Hv). destruct (C3 m b Hb) as [Hb0|[-> (p & Hp0 & Hi)]].
    + destruct (so_procs _ _ _ Hs m b Hb0) as (p & Hp0 & _). exists m, p. split; [by eexists|]. split; [done|].
      by destruct (moved_caches _ _ Hm m p p' Hp0 Hp' _ Hv).
    + exfalso. destruct (moved_caches _ _ Hm m p p' Hp0 Hp' _ Hv) as [Hv'|[]]. unfold cached_ids in Hv'.
      destruct Hi as (_ & E & _). rewrite E in Hv'. by apply elem_of_nil in Hv'.
  - intros b v Hb Hv. destruct (C4 n b Hb) as [Hb'|(_ & _ & Ew)].
    + exists b. split; [done|]. split; [done|]. apply elem_of_app. by right.
    + unfold pending in Hv. rewrite Ew in Hv. by apply elem_of_nil in Hv.
Qed.

Lemma server_step_effect s n s' : ok s -> server_step lo n s s' -> step_effect n s s'.
Proof.
  intros Hs [p a Hn Hp Hi E|b a Hb Ht E|b s1 Hb Ht Hw Hr E|b q s1 Hb Hw Hq Hwin Hr E|b v q t Hb Hw E|b v st Hb Hw Ht Hst
    |b v cs Hb Hw Hnd Hin Hno|b st u us lsn c Hb Hw E|b v cs u us lsn c Hb Hw E|b v st a Hb Hw Ht Hc E|b v cs a Hb Hw Hc E|b a Hb Ht E
    |b p cid r a Hb Hw Hp E].
  - apply changes_effect; [done|by apply (add_effect n)|by eapply connect_changes|]. intros m Hne. cbn. by rewrite lookup_insert_ne.
  - apply changes_effect; [done| |by eapply disconnect_changes|intros m Hne; cbn; by rewrite lookup_delete_ne].
    apply (remove_effect n); [apply (so_array _ _ _ Hs)|apply (so_dom _ _ _ Hs); by exists b|done].
  - destruct (bo_idle _ _ _ _ (so_backends _ _ _ Hs n b Hb) Ht) as [Es Ew].
    eapply assign_effect; [done|done|done|by apply pending_working|]. intros v Hv. left. by apply list_elem_of_singleton in Hv.
  - eapply assign_effect; [done|done|done|by apply pending_working|]. intros v Hv. destruct (decide (v = next_id s)) as [->|Hne]; [by left|right].
    unfold ids, sub_ids in *. rewrite (pending_working b Hw), app_nil_r. unfold pending in *. cbn in *.
    rewrite !elem_of_app, list_elem_of_singleton in *. tauto.
  - by eapply parent_effect.
  - eapply (quiet_effect s _ n b); try done; [apply caches_same| |]; intros w; rewrite ?(pending_working b Hw); [|by intros ?%elem_of_nil].
    intros Hv. split; [|by intros ?%elem_of_nil]. unfold ids in *. by rewrite !sub_ids_plain in * by (done || by apply pending_working).
  - eapply (quiet_effect s _ n b); try done; [apply caches_same| |]; intros w; rewrite ?(pending_working b Hw); [|by intros ?%elem_of_nil].
    intros Hv. split; [|by intros ?%elem_of_nil]. unfold ids in *. by rewrite !sub_ids_plain in * by (done || by apply pending_working).
  - destruct (b_top b) as [v|] eqn:Ht; [|by destruct (bo_idle _ _ _ _ (so_backends _ _ _ Hs n b Hb) Ht) as [_ Hw']; rewrite Hw in Hw'].
    eapply (write_effect s n b _ v (b_subs b) st u us); try done; unfold tree, pending; cbn; by rewrite ?Hw, ?Ht.
  - eapply (write_effect s n b _ v cs TRANSACTION_STATUS_ABORTED u us); try done; unfold tree, pending; cbn; by rewrite ?Hw.
  - destruct (end_array lo N0 s n b v st [] a Hs Hb Hw Ht Hc E) as (_ & Hco & _).
    eapply (quiet_effect s _ n b); try done; [exact (f_equal value (co_next _ _ _ _ _ _ Hco))|apply (co_latest _ _ _ _ _ _ Hco)|by eapply end_caches| |].
    + by intros w ?%elem_of_nil.
    + unfold pending. rewrite Hw. by intros w ?%elem_of_nil.
  - destruct (undone_array lo N0 s n b v cs [] a Hs Hb Hw Hc E) as (Hids & _ & Hco & _).
    eapply (quiet_effect s _ n b); try done; [exact (f_equal value (co_next _ _ _ _ _ _ Hco))|apply (co_latest _ _ _ _ _ _ Hco)| | |].
    + eapply removed_caches, E. by apply (backend_proc s n b).
    + intros w Hw'. split; [apply Hids; by left|by intros ?%elem_of_nil].
    + unfold pending. rewrite Hw. by intros w ?%elem_of_nil.
  - destruct (so_procs _ _ _ Hs n b Hb) as (q & Hq & Hsh). destruct (end_readonly_effect n _ a b q Hq Hsh E) as (Ev & _).
    eapply (quiet_effect s _ n b b); try done; [cbn; by rewrite insert_id|unfold next_id, vars; cbn; by rewrite Ev|
      unfold latest_id, vars; cbn; by rewrite Ev|by eapply end_caches|]. intros w Hw'. split; [done|]. apply elem_of_app. by right.
  - destruct (so_procs _ _ _ Hs n b Hb) as (q & Hq & Hsh). destruct (get_snapshot_effect n b cid _ _ r a q Hq Hsh E) as (Ev & _).
    eapply (quiet_effect s _ n b); try done; [unfold next_id, vars; cbn; by rewrite Ev|
      unfold latest_id, vars; cbn; by rewrite Ev|by eapply snapshot_caches|]. intros w Hw'. split; [done|]. apply elem_of_app. by right.
Qed.

(** ** Parents *)

(** The id is assigned and its parent, if it has one, is in [pg_subtrans]. *)
Definition recorded (s : server) (v : Z) : Prop :=
  assigned lo N0 s v /\ forall m b, sv_backends s !! m = Some b -> v ∉ pending b.

(** The parents lead from [v] to the top-level transaction [r]. *)
Inductive chain (s : server) : Z -> Z -> Prop :=
| chain_top r : recorded s r -> parent s r = Some InvalidTransactionId -> chain s r r
| chain_step v p r : recorded s v -> parent s v = Some (u32 p) -> p < v -> chain s p r -> chain s v r.

(** [v] is a subtransaction of the top-level transaction [t]; its parent may still have to be recorded. *)
Definition joined (s : server) (v t : Z) : Prop :=
  chain s v t \/ exists m b, sv_backends s !! m = Some b /\ b_top b = Some t /\ v ∈ sub_ids b.

Lemma own_recorded s n b v :
  ok s -> sv_backends s !! n = Some b -> v ∈ option_ids (b_top b) ++ b_subs b -> recorded s v.
Proof.
  intros Hs Hb Hv. pose proof (so_backends _ _ _ Hs n b Hb) as Hok. split; [by apply (bo_assigned _ _ _ _ Hok), own_ids|].
  intros m b' Hb' Hp. assert (m = n) as ->.
  { eapply (so_disjoint _ _ _ Hs m n b' b v Hb' Hb); [|by apply own_ids]. unfold ids, sub_ids. rewrite !elem_of_app. auto. }
  rewrite Hb in Hb'. injection Hb' as <-. pose proof (bo_nodup _ _ _ _ Hok) as Hnd. unfold ids, sub_ids in Hnd. rewrite app_assoc in Hnd.
  apply list.NoDup_app in Hnd as (_ & Hnd & _). by apply (Hnd v).
Qed.

Lemma ended_recorded s v : ended lo N0 s v -> recorded s v.
Proof.
  intros [Ha Hl]. split; [done|]. intros m b Hb Hp. apply Hl, live_ids. exists m, b. split; [done|].
  unfold ids, sub_ids. rewrite !elem_of_app. auto.
Qed.

Lemma live_chain s n b t v :
  ok s -> sv_backends s !! n = Some b -> b_top b = Some t -> v ∈ b_subs b -> chain s v t.
Proof.
  intros Hs Hb Ht. pose proof (so_backends _ _ _ Hs n b Hb) as Hok. remember (Z.to_nat (v - N0)) as k eqn:Ek.
  revert v Ek. induction k as [k IH] using lt_wf_ind. intros v -> Hv.
  assert (Hrec : forall w, w ∈ option_ids (b_top b) ++ b_subs b -> recorded s w) by (intros w; by eapply own_recorded).
  destruct (bo_parent _ _ _ _ Hok v Hv) as (p & Hp & Hin & Hlt). apply (chain_step s v p); [apply Hrec, elem_of_app; by right|done|done|].
  destruct (proj1 (Hrec p Hin)) as [_ Hr]. pose proof Hin as Hin'. apply elem_of_app in Hin as [Hin|Hin].
  - rewrite Ht in Hin. apply list_elem_of_singleton in Hin as ->. apply chain_top; [by apply Hrec|].
    apply (bo_root _ _ _ _ Hok), elem_of_app. left. rewrite Ht. by left.
  - apply (IH (Z.to_nat (p - N0))); [lia|done|done].
Qed.

Lemma chain_recorded s v r : chain s v r -> recorded s v /\ recorded s r /\ r <= v.
Proof. induction 1 as [r Hr E|v p r Hv E Hlt _ (_ & IH2 & IH3)]; [done|]. split; [done|]. split; [done|]. lia. Qed.

Lemma chain_keeps s s' v r :
  (forall w, recorded s w -> recorded s' w /\ parent s' w = parent s w) -> chain s v r -> chain s' v r.
Proof.
  intros Hrec. induction 1 as [r Hr E|v p r Hv E Hlt _ IH].
  - destruct (Hrec r Hr) as [? Ep]. apply chain_top; [done|congruence].
  - destruct (Hrec v Hv) as [? Ep]. by apply (chain_step s' v p); [|congruence|..].
Qed.

(** ** Many steps of others *)

Section others.
Context (me : nat).

(** The backends other than [me] take some steps. *)
Definition others : server -> server -> Prop := rtc (fun s s' => exists n, n <> me /\ server_step lo n s s').

Record later (s s' : server) : Prop := {
  la_next : next_id s <= next_id s';
  la_latest : latest_id s <= latest_id s';
  la_me : sv_backends s' !! me = sv_backends s !! me;
  la_ended : forall v, ended lo N0 s v -> ended lo N0 s' v;
  la_old : forall v, in_window lo v -> v < N0 -> status s' v = status s v;
  la_status : forall v, ended lo N0 s v -> status s' v = status s v;
  la_aborted : forall v, assigned lo N0 s v -> status s v = Some TRANSACTION_STATUS_ABORTED -> status s' v = Some TRANSACTION_STATUS_ABORTED;
  la_recorded : forall v, recorded s v -> recorded s' v /\ parent s' v = parent s v;
  la_cached : forall v, assigned lo N0 s v -> cached s' v -> cached s v;
  la_joined : forall v t, joined s v t -> joined s' v t
}.

Lemma later_refl s : later s s.
Proof. by split. Qed.

Lemma later_assigned s s' v : later s s' -> assigned lo N0 s v -> assigned lo N0 s' v.
Proof. intros H [Hw Hr]. pose proof (la_next _ _ H). split; [done|]. lia. Qed.

Lemma live_dec s v : live s v \/ ~ live s v.
Proof.
  destruct (decide (map_Forall (fun _ b => v ∉ ids b) (sv_backends s))) as [H|H].
  - right. intros (n & b & Hb & Hv)%live_ids. by eapply H.
  - left. apply map_not_Forall in H as (n & b & Hb & Hv); [|apply _]. apply live_ids. exists n, b. split; [done|].
    by destruct (decide (v ∈ ids b)).
Qed.

Lemma later_trans s1 s2 s3 : later s1 s2 -> later s2 s3 -> later s1 s3.
Proof.
  intros H12 H23. pose proof H12 as [A1 A2 A3 A4 A0 A5 A6 A7 A8 A9]. pose proof H23 as [B1 B2 B3 B4 B0 B5 B6 B7 B8 B9].
  split; [lia|lia|congruence|auto| | | | | |auto].
  - intros v Hw Hr. rewrite B0 by done. auto.
  - intros v Hv. rewrite B5 by auto. auto.
  - intros v Ha Hs. apply B6; [by eapply later_assigned|auto].
  - intros v Hv. destruct (A7 v Hv) as [Hv2 E2]. destruct (B7 v Hv2) as [Hv3 E3]. split; [done|congruence].
  - intros v Ha Hc. apply A8; [done|]. apply B8; [by eapply later_assigned|done].
Qed.

Lemma not_foreign s n v :
  (exists b, sv_backends s !! n = Some b /\ v ∈ ids b) \/ (forall b, sv_backends s !! n = Some b -> v ∉ ids b).
Proof.
  destruct (sv_backends s !! n) as [b|]; [|by right]. destruct (decide (v ∈ ids b)); [left; by exists b|right]. by intros b' [= <-].
Qed.

Lemma step_later s s' n : ok s -> ok s' -> n <> me -> step_effect n s s' -> later s s'.
Proof.
  intros Hs Hs' Hne [E1 E2 E3 E4 E5 E6 E7 E8]. assert (Hass : forall v, assigned lo N0 s v -> assigned lo N0 s' v) by (intros v [? ?]; split; [done|lia]).
  assert (Hnl : forall v, ~ live s v -> forall b, sv_backends s !! n = Some b -> v ∉ ids b) by (intros v Hl b Hb Hv; apply Hl, live_ids; by exists n, b).
  assert (Hrec : forall v, recorded s v -> recorded s' v /\ parent s' v = parent s v).
  { intros v [Ha Hp]. split; [split; [auto|]|].
    - intros m b' Hb' Hv. destruct (decide (m = n)) as [->|Hmn]; [|rewrite E3 in Hb' by done; by eapply Hp].
      destruct (E4 b' v Hb') as [Hle|(b & Hb & _ & Hpe)]; [unfold ids, sub_ids; rewrite !elem_of_app; auto|destruct Ha; lia|].
      by eapply (Hp n b Hb), Hpe.
    - destruct (not_foreign s n v) as [(b & Hb & Hv)|Hno]; [by eapply (E6 b v Hb Hv), Hp|]. destruct Ha. apply E5; [done|lia|done]. }
  split; [done|done|by apply E3| | | | |done| |].
  - intros v [Ha Hl]. split; [auto|]. intros (m & b' & Hb' & Hv)%live_ids. destruct (decide (m = n)) as [->|Hmn].
    + destruct (E4 b' v Hb' Hv) as [Hle|(b & Hb & Hv' & _)]; [destruct Ha; lia|by eapply Hnl].
    + rewrite E3 in Hb' by done. apply Hl, live_ids. by exists m, b'.
  - intros v Hw Hr. destruct (so_next _ _ _ Hs) as (_ & HN & _). apply E5; [done|lia|]. intros b Hb Hv.
    destruct (bo_assigned _ _ _ _ (so_backends _ _ _ Hs n b Hb) v Hv). lia.
  - intros v [[Hw Hr] Hl]. apply E5; [done|lia|by apply Hnl].
  - intros v [Hw Hr] Hst. destruct (not_foreign s n v) as [(b & Hb & Hv)|Hno]; [by apply (E6 b v Hb Hv)|].
    destruct (E5 v Hw ltac:(lia) Hno) as [-> _]. done.
  - intros v [Hw Hr]. by apply E7.
  - intros v t [Hc|(m & b & Hb & Ht & Hv)].
    + left. by eapply chain_keeps.
    + destruct (decide (m = n)) as [->|Hmn]; [|right; exists m, b; by rewrite E3].
      apply elem_of_app in Hv as [Hv|Hv].
      * left. by eapply chain_keeps, live_chain.
      * destruct (E8 b v Hb Hv) as (b' & Hb' & Et & Hv'). right. exists n, b'. rewrite Et. done.
Qed.

Lemma others_later s s' : ok s -> others s s' -> ok s' /\ later s s'.
Proof.
  intros Hs H. induction H as [s|s s1 s2 (n & Hne & Hstep) _ IH]; [split; [done|apply later_refl]|].
  assert (Hs1 : ok s1) by (by eapply server_step_ok). destruct (IH Hs1) as [Hs2 Hl]. split; [done|].
  eapply later_trans; [|done]. eapply step_later; [done|done|done|]. by apply server_step_effect.
Qed.
End others.
End effects.
