(* ===== verification/ServerReads.v ===== *)
(** * What a backend reads

    The walk up [pg_subtrans], the commit log and [TransactionIdIsInProgress] on a state of the server.  The process
    array is read at one instant and the logs at a later one, as the code does it after it has released [ProcArrayLock]:
    the answer that an id is not in progress is right all the same, and stays right. *)
From S2P Require Import Prelude TransactionId ItemPtr HeapTuple Snapshot Varsup Clog Subtrans ProcArray ProcArraySpec.
From S2P Require Import Server ServerInv ServerArray ServerSnapshot ServerSteps ServerHistory.
Import SubTrans.
Local Open Scope Z_scope.

Section reads.
Context (lo N0 : Z).
Abbreviation ok := (server_ok lo N0).

(** As many rounds as ids were assigned since the server started are enough for every walk. *)
Definition walk_fuel (s : server) : nat := (Z.to_nat (next_id s - N0) + 3)%nat.

(** [SubTransGetTopmostTransaction] of the id [x]. *)
Definition topmost_in (s : server) (TransactionXmin x : TransactionId) : TransactionId :=
  match SubTransGetTopmostTransaction (entry (sv_subtrans s)) TransactionXmin (walk_fuel s) x with
  | Topmost r => r
  | _ => InvalidTransactionId
  end.

Definition did_commit_in (s : server) (TransactionXmin : TransactionId) (k : fetch_cache) (x : TransactionId) : bool :=
  match TransactionIdDidCommit (entry (sv_subtrans s)) TransactionXmin (walk_fuel s) (sv_log s) x k with
  | Some (r, _) => r
  | None => false
  end.

Definition did_abort_in (s : server) (TransactionXmin : TransactionId) (k : fetch_cache) (x : TransactionId) : bool :=
  match TransactionIdDidAbort (entry (sv_subtrans s)) TransactionXmin (walk_fuel s) (sv_log s) x k with
  | Some (r, _) => r
  | None => false
  end.

(** The current transaction of the backend and its subtransactions. *)
Definition is_current (b : backend) (x : TransactionId) : bool := existsb (fun v => u32 v =? x) (ids b).

(** [TransactionIdIsInProgress] of the backend [me]: the array of [s], the logs of [s']. *)
Definition progress_of (b : backend) (RecentXmin TransactionXmin cache : TransactionId) (k : fetch_cache) (s' : server) : progress_env :=
  {| RecentXmin := RecentXmin; cachedXidIsNotInProgress := cache; IsCurrentTransactionId := is_current b;
     DidAbort := did_abort_in s' TransactionXmin k; GetTopmostTransaction := topmost_in s' TransactionXmin |}.

Definition in_progress_in (me : nat) (o : progress_env) (s : server) (x : TransactionId) : bool :=
  match allProcs (sv_array s) !! me with
  | Some my => fst (TransactionIdIsInProgress o my (sv_array s) x)
  | None => false
  end.

(** ** The walk *)

Lemma parent_cases s v :
  ok s -> assigned lo N0 s v ->
  parent s v = Some InvalidTransactionId \/ exists p, parent s v = Some (u32 p) /\ assigned lo N0 s p /\ p < v.
Proof.
  intros Hs Hv. destruct (live_dec s v) as [(n & b & Hb & Hin)%live_ids|Hl].
  - pose proof (so_backends _ _ _ Hs n b Hb) as Hok. unfold ids, sub_ids in Hin. rewrite !elem_of_app in Hin.
    destruct Hin as [Hin|[Hin|Hin]]; [left; apply (bo_root _ _ _ _ Hok), elem_of_app; by left| |left; apply (bo_root _ _ _ _ Hok), elem_of_app; by right].
    right. destruct (bo_parent _ _ _ _ Hok v Hin) as (p & Hp & Hpin & Hlt). exists p. split; [done|]. split; [|done].
    by apply (bo_assigned _ _ _ _ Hok), own_ids.
  - apply (eo_parent _ _ _ _ (so_ended _ _ _ Hs v (conj Hv Hl))).
Qed.

(** The parent as a full id. *)
Definition parent_id (s : server) (v : Z) : option Z :=
  match parent s v with
  | Some x => if x =? InvalidTransactionId then None else Some (full lo x)
  | None => None
  end.

Lemma parent_id_some s v p : assigned lo N0 s p -> parent s v = Some (u32 p) -> parent_id s v = Some p.
Proof.
  intros [Hw _] E. unfold parent_id. rewrite E, full_u32 by done. destruct (Z.eqb_spec (u32 p) InvalidTransactionId) as [E0|]; [|done].
  destruct Hw as [_ Hn]. unfold InvalidTransactionId, FirstNormalTransactionId in *. lia.
Qed.

Lemma entry_parent s v x : parent s v = Some x -> entry (sv_subtrans s) (u32 v) = x.
Proof. unfold parent, SubTransPages.look, entry. by intros ->. Qed.

Lemma parents_hold s : ok s -> subtrans_holds_on (assigned lo N0 s) (entry (sv_subtrans s)) (parent_id s).
Proof.
  intros Hs v Hv. split; [apply Hv|]. destruct (parent_cases s v Hs Hv) as [E|(p & E & Hp & Hlt)].
  - unfold parent_id. rewrite E. cbn. by apply entry_parent.
  - rewrite (parent_id_some s v p Hp E). split; [by apply entry_parent|]. destruct Hv as [[Hv _] _]. pose proof Hp as [[Hpw _] _].
    split; [lia|done].
Qed.

Lemma topmost_below s X v r : ok s -> topmost_of (parent_id s) X v r -> assigned lo N0 s v -> r <= v /\ assigned lo N0 s r.
Proof.
  intros Hs H. induction H as [v Hlt|v Hle E|v p r Hle E _ IH]; [done|done|]. intros Hv.
  destruct (parents_hold s Hs v Hv) as [_ Hp]. rewrite E in Hp. destruct Hp as (_ & Hlt & Hp). destruct (IH Hp). split; [lia|done].
Qed.

Lemma walk_topmost s X v :
  ok s -> in_window lo X -> N0 <= X -> assigned lo N0 s v ->
  exists r, topmost_in s (u32 X) (u32 v) = u32 r /\ topmost_of (parent_id s) X v r /\ r <= v /\ assigned lo N0 s r.
Proof.
  intros Hs [HX HXn] HN Hv. pose proof Hv as [[Hw Hn] Hr].
  destruct (topmost_loop_correct (assigned lo N0 s) (entry (sv_subtrans s)) (parent_id s) X (walk_fuel s) HXn (parents_hold s Hs) v (u32 v))
    as (r & Hr' & E); [lia|done|unfold walk_fuel; lia|].
  exists r. split; [unfold topmost_in, SubTransGetTopmostTransaction; by rewrite E|]. split; [done|]. by eapply topmost_below.
Qed.

(** The walk ends at the top-level transaction when that is not too old. *)
Lemma chain_topmost s X v t r :
  ok s -> chain lo N0 s v t -> X <= t -> topmost_of (parent_id s) X v r -> r = t.
Proof.
  intros Hs Hc HX. induction Hc as [t Hr E|v p t Hv E Hlt Hc IH].
  - inversion 1 as [v Hl|v Hl En|v p r' Hl En Hp]; subst; [done|done|]. unfold parent_id in En. by rewrite E in En.
  - destruct (chain_recorded _ _ _ _ _ Hc) as (Hp & _ & Hle). pose proof (parent_id_some s v p (proj1 Hp) E) as Ep.
    inversion 1 as [v' Hl|v' Hl En|v' p' r' Hl En Hp']; subst; [lia|congruence|]. rewrite Ep in En. injection En as <-. by apply IH.
Qed.

(** ** The commit log *)

Section log.
Context (s : server) (X : Z) (k : fetch_cache).
Context (Hs : ok s) (HX : in_window lo X) (Hk : cache_ok k (sv_log s)).

Lemma fuel_positive : exists f, walk_fuel s = S f.
Proof. exists (Z.to_nat (next_id s - N0) + 2)%nat. unfold walk_fuel. lia. Qed.

(** A final status answers both questions. *)
Lemma read_final v st :
  in_window lo v -> status s v = Some st -> final st ->
  did_commit_in s (u32 X) k (u32 v) = (st =? TRANSACTION_STATUS_COMMITTED) /\
  did_abort_in s (u32 X) k (u32 v) = (st =? TRANSACTION_STATUS_ABORTED).
Proof.
  intros [_ Hn] E Hf. destruct fuel_positive as [f Ef]. unfold did_commit_in, did_abort_in. rewrite Ef. cbn [TransactionIdDidCommit TransactionIdDidAbort].
  destruct (fetch_spec (sv_log s) (u32 v) k st Hk Hn E) as (k' & -> & _). cbn [mbind option_bind]. by destruct Hf as [-> | ->].
Qed.

(** The log of an id older than [TransactionXmin]. *)
Lemma read_old v st :
  in_window lo v -> v < X -> status s v = Some st -> did_commit_in s (u32 X) k (u32 v) = (st =? TRANSACTION_STATUS_COMMITTED).
Proof.
  intros [Hv Hn] Hlt E. destruct fuel_positive as [f Ef]. unfold did_commit_in. rewrite Ef. cbn [TransactionIdDidCommit].
  destruct (fetch_spec (sv_log s) (u32 v) k st Hk Hn E) as (k' & -> & _). cbn [mbind option_bind].
  destruct (st =? TRANSACTION_STATUS_COMMITTED); [done|]. destruct (st =? TRANSACTION_STATUS_SUB_COMMITTED); [|done].
  destruct HX as [HXw HXn]. rewrite precedes_window_le by (done || lia). by rewrite (proj2 (Z.ltb_lt v X) Hlt).
Qed.

(** The ids of bootstrapping and of frozen tuples are committed. *)
Lemma read_special x : x = BootstrapTransactionId \/ x = FrozenTransactionId -> did_commit_in s (u32 X) k x = true.
Proof.
  intros Hx. destruct fuel_positive as [f Ef]. unfold did_commit_in. rewrite Ef. cbn [TransactionIdDidCommit]. unfold TransactionLogFetch, TransactionIdEquals.
  assert (x <> cachedFetchXid k).
  { unfold BootstrapTransactionId, FrozenTransactionId in *. destruct Hk as [->|(Hn & _)]; unfold InvalidTransactionId, FirstNormalTransactionId in *; lia. }
  rewrite (proj2 (Z.eqb_neq _ _)) by done. by destruct Hx as [-> | ->].
Qed.
End log.

(** *** Aborts *)

Section aborts.
Context (s : server) (X : Z) (Hs : ok s) (HX : in_window lo X).

(** The status of an id of a backend. *)
Lemma live_status n b v :
  sv_backends s !! n = Some b -> v ∈ ids b ->
  (status s v = Some TRANSACTION_STATUS_IN_PROGRESS \/ status s v = Some TRANSACTION_STATUS_COMMITTED \/ status s v = Some TRANSACTION_STATUS_ABORTED) \/
  (status s v = Some TRANSACTION_STATUS_SUB_COMMITTED /\ v ∈ b_subs b /\ forall w, w ∈ option_ids (b_top b) ++ b_subs b -> status s w <> Some TRANSACTION_STATUS_ABORTED).
Proof.
  intros Hb Hv. pose proof (so_backends _ _ _ Hs n b Hb) as Hok. pose proof (bo_log _ _ _ _ Hok) as Hlog. unfold log_shows in Hlog.
  destruct (tree b) as [[[[x xs] st] us]|] eqn:Et; [|left; left; by apply Hlog].
  destruct Hlog as (Hst & done' & E & H1 & H2). destruct (decide (v ∈ x :: xs)) as [Hin|Hin]; [|left; left; by apply H2].
  destruct (tree_statuses (u32 x) (map u32 xs) st) as [HC HA]. rewrite E in HC, HA.
  assert (Hd : forall u, u ∈ done' -> u ∈ done' ++ us) by (intros u Hu; apply elem_of_app; by left).
  rewrite (H1 v Hin). set (sv := status_after false done' (u32 v) TRANSACTION_STATUS_IN_PROGRESS).
  assert (Hr : 0 <= sv < 4) by (eapply (status_range (sv_log s) (u32 v)); exact (H1 v Hin)).
  destruct (decide (sv = TRANSACTION_STATUS_SUB_COMMITTED)) as [Esub|Hne].
  2: { left. unfold TRANSACTION_STATUS_SUB_COMMITTED, TRANSACTION_STATUS_IN_PROGRESS, TRANSACTION_STATUS_COMMITTED, TRANSACTION_STATUS_ABORTED in *.
       assert (sv = 0 \/ sv = 1 \/ sv = 2) as [->|[->| ->]] by lia; auto. }
  right. destruct Hst as [->| ->].
  2: { exfalso. eapply (after_avoids false done' (u32 v) TRANSACTION_STATUS_SUB_COMMITTED TRANSACTION_STATUS_IN_PROGRESS); [|done|exact Esub].
       intros u Hu _. by rewrite (HA eq_refl u (Hd u Hu)). }
  assert (Hown : b_top b = Some x /\ xs = b_subs b).
  { unfold tree in Et. destruct (b_work b) as [| |st' us'|v' cs' us']; [done|done| |].
    - destruct (b_top b); [|done]. injection Et as -> -> _ _. done.
    - by injection Et. }
  destruct Hown as [Ht ->]. split; [by rewrite Esub|]. split.
  - apply elem_of_cons in Hin as [->|Hin]; [|done]. exfalso. apply (after_top (u32 x) (map u32 (b_subs b)) done' us E); [|exact Esub].
    intros (w & Ew & Hw)%list_elem_of_fmap. apply (u32_window_inj lo) in Ew;
      [|by apply (bo_assigned _ _ _ _ Hok x Hv)|apply (bo_assigned _ _ _ _ Hok w), own_ids, elem_of_app; by right].
    subst w. pose proof (bo_after _ _ _ _ Hok x x Ht ltac:(apply elem_of_app; by left)). lia.
  - rewrite Ht. intros w Hw. rewrite (H1 w Hw). intros [= Ea].
    eapply (after_avoids false done' (u32 w) TRANSACTION_STATUS_ABORTED TRANSACTION_STATUS_IN_PROGRESS); [|done|exact Ea]. intros u Hu _. by apply (HC eq_refl u), Hd.
Qed.

(** A tree with a sub-committed member is not seen as aborted. *)
Lemma no_abort n b fuel :
  sv_backends s !! n = Some b -> (forall w, live s w -> X <= w) ->
  (forall w, w ∈ option_ids (b_top b) ++ b_subs b -> status s w <> Some TRANSACTION_STATUS_ABORTED) ->
  forall v k k', v ∈ option_ids (b_top b) ++ b_subs b -> cache_ok k (sv_log s) ->
  TransactionIdDidAbort (entry (sv_subtrans s)) (u32 X) fuel (sv_log s) (u32 v) k <> Some (true, k').
Proof.
  intros Hb Hlive Hno. pose proof (so_backends _ _ _ Hs n b Hb) as Hok. induction fuel as [|fuel IH]; [done|].
  intros v k k' Hv Hk. cbn [TransactionIdDidAbort]. assert (Hvi : v ∈ ids b) by (by apply own_ids).
  destruct (bo_assigned _ _ _ _ Hok v Hvi) as [[Hvw Hvn] _].
  destruct (live_status n b v Hb Hvi) as [[E|[E|E]]|(E & Hsub & _)]; [| |by apply Hno in E|].
  1-2: destruct (fetch_spec (sv_log s) (u32 v) k _ Hk Hvn E) as (k1 & -> & _); done.
  destruct (fetch_spec (sv_log s) (u32 v) k _ Hk Hvn E) as (k1 & -> & Hk1). cbn [mbind option_bind].
  change (_ =? TRANSACTION_STATUS_ABORTED) with false. rewrite Z.eqb_refl. cbv iota. destruct HX as [HXw HXn].
  assert (HXv : X <= v) by (apply Hlive, live_ids; by exists n, b).
  rewrite precedes_window_le, (proj2 (Z.ltb_ge v X) HXv) by (done || lia).
  destruct (bo_parent _ _ _ _ Hok v Hsub) as (p & Hp & Hin & _). unfold SubTransGetParent. rewrite normal_is_normal by done. cbn [negb].
  rewrite (entry_parent s v _ Hp), valid_of_normal by (by apply (bo_assigned _ _ _ _ Hok), own_ids). cbn [negb]. by apply IH.
Qed.

(** [TransactionIdDidAbort] tells the status of an id that is recorded. *)
Lemma read_abort k v :
  recorded lo N0 s v -> (forall w, live s w -> X <= w) -> cache_ok k (sv_log s) ->
  did_abort_in s (u32 X) k (u32 v) = true <-> status s v = Some TRANSACTION_STATUS_ABORTED.
Proof.
  intros [Ha Hrec] Hlive Hk. split; [|intros E; apply (read_final s X k Hk v _ (proj1 Ha) E); by right].
  destruct (live_dec s v) as [(n & b & Hb & Hv)%live_ids|Hl].
  - assert (Hv' : v ∈ option_ids (b_top b) ++ b_subs b).
    { specialize (Hrec n b Hb). unfold ids, sub_ids in Hv. rewrite !elem_of_app in *. tauto. }
    destruct (live_status n b v Hb Hv) as [[E|[E|E]]|(E & _ & Hno)]; [| |done|].
    + unfold did_abort_in. destruct (fuel_positive s) as [f ->]. cbn [TransactionIdDidAbort].
      by destruct (fetch_spec (sv_log s) (u32 v) k _ Hk (proj2 (proj1 Ha)) E) as (k1 & -> & _).
    + rewrite (proj2 (read_final s X k Hk v _ (proj1 Ha) E ltac:(by left))). done.
    + unfold did_abort_in. destruct (TransactionIdDidAbort _ _ _ _ _ _) as [[[|] k1]|] eqn:Ed; [|done|done].
      exfalso. by eapply (no_abort n b).
  - pose proof (eo_status _ _ _ _ (so_ended _ _ _ Hs v (conj Ha Hl))) as [E|E]; [|done].
    rewrite (proj2 (read_final s X k Hk v _ (proj1 Ha) E ltac:(by left))). done.
Qed.
End aborts.

(** ** The process array *)

Section progress.
Context (me : nat) (s s1 : server) (b : backend) (R X : Z).
Context (Hs : ok s) (Hs1 : ok s1) (Hl : later lo N0 me s s1).
Context (Hb : sv_backends s !! me = Some b) (HR : in_window lo R) (HX : in_window lo X /\ N0 <= X).
Context (HRl : forall v, live s v -> R <= v) (HXl : forall v, live s v \/ live s1 v -> X <= v).

(** Not in progress for [TransactionIdIsInProgress]: the transaction has ended, or it is the aborted
    subtransaction of a transaction with more subtransactions than its process can cache. *)
Definition gone (v : Z) : Prop :=
  ended lo N0 s v \/
  ((exists m b', m <> me /\ sv_backends s !! m = Some b' /\ v ∈ b_subs b') /\ ~ cached s v /\
   status s1 v = Some TRANSACTION_STATUS_ABORTED /\ v <= latest_id s).

Definition cache_right (c : TransactionId) : Prop :=
  c = InvalidTransactionId \/ exists w, c = u32 w /\ recorded lo N0 s w /\ gone w.

Lemma current_spec v : in_window lo v -> is_current b (u32 v) = true <-> v ∈ ids b.
Proof.
  intros Hv. unfold is_current. rewrite existsb_exists. split.
  - intros (w & Hw%list_elem_of_In & E). b2p. apply (u32_window_inj lo) in E; [by subst w| |done].
    exact (sub_window lo N0 s me b w Hs Hb Hw).
  - intros Hin. exists v. split; [by apply list_elem_of_In|]. apply Z.eqb_refl.
Qed.

(** A committed transaction that has ended is not the subtransaction of one that runs. *)
Lemma committed_topmost v r :
  ended lo N0 s v -> status s v = Some TRANSACTION_STATUS_COMMITTED -> topmost_of (parent_id s1) X v r -> live s r -> v = r.
Proof.
  intros Hv Hc Ht. induction Ht as [v Hlt|v Hle E|v p r Hle E Ht IH]; intros Hr; [done|done|]. exfalso.
  destruct (la_recorded _ _ _ _ _ Hl v (ended_recorded _ _ _ _ Hv)) as [_ Ep].
  destruct (parent_cases s v Hs (proj1 Hv)) as [E0|(q & Eq & Hq & Hlt)].
  { unfold parent_id in E. rewrite Ep, E0 in E. done. }
  destruct (eo_committed _ _ _ _ (so_ended _ _ _ Hs v Hv) Hc q Hq Eq) as [Hqe Hqc].
  assert (p = q) as ->.
  { rewrite (parent_id_some s1 v q) in E; [by injection E|by eapply later_assigned|by rewrite Ep]. }
  rewrite (IH Hqe Hqc Hr) in Hqe. by apply Hqe.
Qed.

Section one.
Context (v : Z) (Hv : recorded lo N0 s v) (c : TransactionId) (Hc : cache_right c) (k : fetch_cache) (Hk : cache_ok k (sv_log s1)).
Context (i : nat) (my : Proc) (cs : list Z) (Hof : offset lo s i me b my cs).
Context (r : Z) (Htop : topmost_of (parent_id s1) X v r).
Abbreviation o := (progress_of b (u32 R) (u32 X) c k s1).

Definition runs_for_me : Prop :=
  is_current b (u32 v) = true \/ latest_id s < v \/ (exists j, shows (entries lo s) i v j) \/
  (exists j, uncached (sv_array s) (entries lo s) i v j r /\ v <> r /\ DidAbort o (u32 v) = false).

Lemma abort_read : did_abort_in s1 (u32 X) k (u32 v) = true <-> status s1 v = Some TRANSACTION_STATUS_ABORTED.
Proof.
  apply read_abort; [done|apply HX|by apply (la_recorded _ _ _ _ _ Hl)| |done]. intros w Hw. apply HXl. by right.
Qed.

Lemma cached_elem j m b' p cs' w : in_window lo w -> offset lo s j m b' p cs' -> u32 w ∈ cached_ids p -> w ∈ cs'.
Proof.
  intros Hw Ho. unfold cached_ids. rewrite (of_cache _ _ _ _ _ _ _ Ho). intros (x & E & Hx)%list_elem_of_fmap.
  apply (u32_window_inj lo) in E; [by subst x|done|].
  eapply (sub_window lo N0 s m b'); [done|apply (of_backend _ _ _ _ _ _ _ Ho)|]. by apply sub_in_ids, (of_sub _ _ _ _ _ _ _ Ho).
Qed.

(** The entry at another offset is that of another backend. *)
Lemma other_entry j e t :
  j <> i -> entries lo s !! j = Some e -> f_top e = Some t ->
  exists m b' p cs', m <> me /\ offset lo s j m b' p cs' /\ b_top b' = Some t /\ f_subs e = cs'.
Proof.
  intros Hne (m & Hm & ->)%entry_lookup Ht. destruct (offset_of lo N0 s j m Hs Hm) as (b' & p & cs' & Ho). exists m, b', p, cs'.
  split; [intros ->; apply Hne; exact (proj2 (offset_inj lo N0 s j i me me b' b p my cs' cs Hs Ho Hof) eq_refl)|]. split; [done|]. rewrite <- (of_top _ _ _ _ _ _ _ Ho). split; [done|]. apply (of_subs _ _ _ _ _ _ _ Ho).
Qed.

Lemma runs_not_gone : runs_for_me -> ~ gone v.
Proof.
  intros Hrun [He|((m & b' & Hm & Hb' & Hv') & Hnc & Ha & Hlat)].
  - pose proof He as [Hass Hnl]. destruct Hrun as [Hcur|[Hlt|[(j & e & t & Hne & He' & Ht & Hv')|(j & (e & Hne & He' & Ht & Hle & _) & Hvr & Hd)]]].
    + apply Hnl, live_ids. exists me, b. split; [done|]. by apply current_spec; [apply Hass|].
    + pose proof (eo_latest _ _ _ _ (so_ended _ _ _ Hs v He)). lia.
    + destruct (other_entry j e t Hne He' Ht) as (m & b' & p & cs' & Hm & Ho & Et & Ecs). apply Hnl, live_ids. exists m, b'.
      split; [apply (of_backend _ _ _ _ _ _ _ Ho)|]. apply elem_of_ids. destruct Hv' as [->|Hv']; [by left|right].
      apply (of_sub _ _ _ _ _ _ _ Ho). by rewrite <- Ecs.
    + destruct (other_entry j e r Hne He' Ht) as (m & b' & p & cs' & Hm & Ho & Et & Ecs).
      destruct (eo_status _ _ _ _ (so_ended _ _ _ Hs v He)) as [Est|Est].
      * apply Hvr. eapply committed_topmost; [done|done|done|]. apply live_ids. exists m, b'. split; [apply (of_backend _ _ _ _ _ _ _ Ho)|].
        apply elem_of_ids. by left.
      * cbn [progress_of DidAbort] in Hd. rewrite (proj2 abort_read) in Hd; [done|]. by apply (la_aborted _ _ _ _ _ Hl).
  - assert (Hvi : v ∈ ids b') by (apply own_ids, elem_of_app; by right).
    destruct Hrun as [Hcur|[Hlt|[(j & e & t & Hne & He' & Ht & Hv2)|(j & _ & _ & Hd)]]].
    + apply Hm. eapply (so_disjoint _ _ _ Hs m me b' b v); try done. by apply current_spec; [apply Hv|].
    + lia.
    + destruct (other_entry j e t Hne He' Ht) as (m2 & b2 & p & cs' & Hm2 & Ho & Et & Ecs). pose proof (of_backend _ _ _ _ _ _ _ Ho) as Hb2.
      destruct Hv2 as [->|Hv2].
      * assert (m2 = m) as -> by (eapply (so_disjoint _ _ _ Hs m2 m b2 b' t); try done; apply elem_of_ids; by left).
        rewrite Hb' in Hb2. injection Hb2 as <-.
        pose proof (bo_after _ _ _ _ (so_backends _ _ _ Hs m b' Hb') t t Et ltac:(apply elem_of_app; by left)). lia.
      * apply Hnc. exists m2, p. split; [by eexists|]. split; [apply (of_proc _ _ _ _ _ _ _ Ho)|]. unfold cached_ids.
        rewrite (of_cache _ _ _ _ _ _ _ Ho). apply list_elem_of_fmap. exists v. by rewrite <- Ecs.
    + cbn [progress_of DidAbort] in Hd. by rewrite (proj2 abort_read) in Hd.
Qed.

Lemma not_runs_gone : ~ runs_for_me -> gone v.
Proof.
  intros Hno. destruct (live_dec s v) as [(m & b' & Hb' & Hin)%live_ids|Hnl]; [right|left; by split; [apply Hv|]].
  assert (Hne : m <> me).
  { intros ->. rewrite Hb in Hb'. injection Hb' as <-. apply Hno. left. by apply current_spec; [apply Hv|]. }
  destruct (backend_offset lo N0 s m b' Hs Hb') as (j & p & cs' & Ho).
  assert (Hj : j <> i) by (intros ->; apply Hne; exact (proj1 (offset_inj lo N0 s i i m me b' b p my cs' cs Hs Ho Hof) eq_refl)).
  pose proof (entry_at lo s j m (of_at _ _ _ _ _ _ _ Ho)) as He.
  assert (Hnt : b_top b' <> Some v).
  { intros Et. apply Hno. right; right; left. exists j, (shown lo s m), v. split; [done|]. split; [done|]. rewrite (of_top _ _ _ _ _ _ _ Ho).
    split; [done|by left]. }
  assert (Hsub : v ∈ b_subs b').
  { apply elem_of_ids in Hin as [?|Hin]; [done|]. apply elem_of_app in Hin as [?|Hin]; [done|]. by destruct (proj2 Hv m b' Hb'). }
  destruct (top_of_sub lo N0 s Hs m v) as (t & (b2 & Hb2 & Ht) & Htv); [exists b'; split; [done|]; apply elem_of_app; by left|].
  rewrite Hb' in Hb2. injection Hb2 as <-.
  assert (Hshown : v ∉ cs').
  { intros Hc'. apply Hno. right; right; left. exists j, (shown lo s m), t. split; [done|]. split; [done|].
    rewrite (of_top _ _ _ _ _ _ _ Ho), (of_subs _ _ _ _ _ _ _ Ho). split; [done|by right]. }
  split; [by exists m, b'|]. split; [|split].
  - intros (m2 & p2 & [b2 Hb2] & Hp2 & Hv2). destruct (backend_offset lo N0 s m2 b2 Hs Hb2) as (j2 & p3 & cs2 & Ho2).
    rewrite (of_proc _ _ _ _ _ _ _ Ho2) in Hp2. injection Hp2 as <-. pose proof (cached_elem j2 m2 b2 p3 cs2 v (proj1 (proj1 Hv)) Ho2 Hv2) as Hc2.
    assert (m2 = m) as -> by (eapply (so_disjoint _ _ _ Hs m2 m b2 b' v); try done; by apply sub_in_ids, (of_sub _ _ _ _ _ _ _ Ho2)).
    apply Hshown. rewrite <- (of_subs _ _ _ _ _ _ _ Ho). by rewrite (of_subs _ _ _ _ _ _ _ Ho2).
  - apply abort_read. apply not_false_iff_true. intros Hd. apply Hno. right; right; right. exists j.
    assert (r = t) as ->.
    { eapply (chain_topmost s1 X v t r Hs1); [|apply HXl; left; exists m; left; by exists b'|done].
      eapply chain_keeps; [apply (la_recorded _ _ _ _ _ Hl)|by eapply live_chain]. }
    split; [|split; [lia|done]]. exists (shown lo s m). split; [done|]. split; [done|]. rewrite (of_top _ _ _ _ _ _ _ Ho). split; [done|]. split; [lia|].
    apply not_false_iff_true. intros Hov. apply Hshown, (of_all _ _ _ _ _ _ _ Ho Hov). apply elem_of_app. by left.
  - destruct (decide (v <= latest_id s)) as [|Hgt]; [done|]. exfalso. apply Hno. right; left. lia.
Qed.
End one.

(** [TransactionIdIsInProgress] denies exactly the transactions that are gone, and caches only such. *)
Lemma progress_spec v c k :
  recorded lo N0 s v -> cache_right c -> cache_ok k (sv_log s1) ->
  exists my, allProcs (sv_array s) !! me = Some my /\
  let '(answer, c') := TransactionIdIsInProgress (progress_of b (u32 R) (u32 X) c k s1) my (sv_array s) (u32 v) in
  (answer = false <-> gone v) /\ cache_right c'.
Proof.
  intros Hv Hc Hk. destruct (backend_offset lo N0 s me b Hs Hb) as (i & my & cs & Hof). exists my. split; [apply (of_proc _ _ _ _ _ _ _ Hof)|].
  assert (Hv1 : assigned lo N0 s1 v) by (eapply later_assigned; [done|apply Hv]).
  destruct (walk_topmost s1 X v Hs1 (proj1 HX) (proj2 HX) Hv1) as (r & Er & Htop & Hrv & Hr).
  assert (Hprocs : Z.of_nat (numProcs (sv_array s)) < 2 ^ 32).
  { destruct (so_array _ _ _ Hs) as [Ha Hm]. pose proof (ok_room _ Ha). lia. }
  assert (Hng : runs_for_me v c k i r -> ~ gone v) by (by apply (runs_not_gone v Hv c k Hk i my cs Hof r Htop)).
  assert (Hgn : ~ runs_for_me v c k i r -> gone v) by (by apply (not_runs_gone v Hv c k Hk i my cs Hof r Htop)).
  pose proof (in_progress_spec (progress_of b (u32 R) (u32 X) c k s1) lo (sv_array s) (entries lo s) my R v r) as Hspec. cbv zeta in Hspec.
  rewrite (of_off _ _ _ _ _ _ _ Hof) in Hspec. change (value (latestCompletedXid (pa_vars (sv_array s)))) with (latest_id s) in Hspec.
  fold (runs_for_me v c k i r) in Hspec.
  destruct (TransactionIdIsInProgress _ _ _ _) as [answer c']. destruct Hspec as [Ha Hc'].
  - by apply (server_denotes lo N0).
  - done.
  - apply (so_latest _ _ _ Hs).
  - done.
  - apply Hv.
  - apply Hr.
  - done.
  - done.
  - exact Er.
  - intros Hlt Hrun. apply (Hng Hrun). left. split; [apply Hv|]. intros Hlive. pose proof (HRl v Hlive). lia.
  - cbn [progress_of cachedXidIsNotInProgress]. intros Ec Hrun. apply (Hng Hrun). destruct Hc as [Ec'|(w & Ew & Hw & Hgw)].
    + exfalso. destruct (proj1 (proj1 Hv)) as [_ Hn]. rewrite <- Ec, Ec' in Hn. done.
    + rewrite Ew in Ec. apply (u32_window_inj lo) in Ec; [by subst w|apply Hw|apply Hv].
  - split; [|].
    + split; [intros ->; apply Hgn; by intros ?%Ha|]. intros Hg. apply not_true_iff_false. intros Hrun%Ha. by apply (Hng Hrun).
    + destruct Hc' as [->|[-> Hnr]]; [done|]. right. exists v. split; [done|]. split; [done|]. by apply Hgn.
Qed.
End progress.

(** What is gone stays gone. *)
Lemma gone_later me b s s1 s' s1' v :
  ok s -> ok s' -> sv_backends s !! me = Some b -> later lo N0 me s s' -> later lo N0 me s1 s1' -> later lo N0 me s s1 ->
  recorded lo N0 s v -> gone me s s1 v -> gone me s' s1' v.
Proof.
  intros Hs Hs' Hb Hl Hl1 Hl0 Hv [He|((m & b' & Hm & Hb' & Hv') & Hnc & Ha & Hlat)]; [left; by eapply la_ended|].
  pose proof (la_recorded _ _ _ _ _ Hl v Hv) as [[Hass Hrec] Hpar].
  destruct (live_dec s' v) as [(n & c & Hc & Hin)%live_ids|Hnl]; [right|left; done].
  destruct (bo_parent _ _ _ _ (so_backends _ _ _ Hs m b' Hb') v Hv') as (p & Hp & Hpin & _).
  assert (Hnp : u32 p <> InvalidTransactionId).
  { pose proof (proj1 (bo_assigned _ _ _ _ (so_backends _ _ _ Hs m b' Hb') p (own_ids b' p Hpin))) as [_ Hn].
    unfold InvalidTransactionId, FirstNormalTransactionId in *. lia. }
  split; [|split; [|split]].
  - exists n, c. split; [|split; [done|]].
    + intros ->. rewrite (la_me _ _ _ _ _ Hl), Hb in Hc. injection Hc as <-. apply Hm.
      eapply (so_disjoint _ _ _ Hs m me b' b v); try done. apply own_ids, elem_of_app. by right.
    + unfold ids, sub_ids in Hin. rewrite !elem_of_app in Hin. destruct Hin as [Hin|[Hin|Hin]]; [|done|by destruct (Hrec n c Hc)].
      pose proof (bo_root _ _ _ _ (so_backends _ _ _ Hs' n c Hc) v ltac:(apply elem_of_app; by left)) as Hr. rewrite Hpar, Hp in Hr. by injection Hr.
  - intros Hc'. by apply Hnc, (la_cached _ _ _ _ _ Hl); [apply Hv|].
  - apply (la_aborted _ _ _ _ _ Hl1); [|done]. eapply later_assigned; [done|apply Hv].
  - pose proof (la_latest _ _ _ _ _ Hl). lia.
Qed.
End reads.
