(* ===== verification/Startup.v ===== *)
(** * The server comes up

    The part of [StartupXLOG] that leaves the transaction state in order, with [TrimCLOG] of [clog.c],
    [StartupSUBTRANS] of [subtrans.c] and [CreateSharedProcArray] of [procarray.c]: whatever a crash has left in the logs for ids that
    were never used, the server starts in a state that satisfies its invariant. *)
From S2P Require Import Prelude TransactionId ItemPtr HeapTuple Snapshot Varsup Clog Subtrans ProcArray ProcArraySpec.
From S2P Require Import Server ServerInv.
Import SubTrans.
Local Open Scope Z_scope.

(** ** The commit log *)

(** The bits from the id [xid] on are cleared. *)
Definition trim_page (xid : TransactionId) (p : clog_page) : clog_page :=
  let byteno := Z.to_nat (TransactionIdToByte xid) in
  {| page_buffer := take byteno (page_buffer p) ++
       [Z.land (page_byte xid p) (Z.shiftl 1 (bshift xid) - 1)] ++
       replicate (Z.to_nat BLCKSZ - byteno - 1) 0;
     page_lsn := page_lsn p |}.

(** [None] when the page cannot be read. *)
Definition TrimCLOG (nextXid : FullTransactionId) (c : clog) : option clog :=
  let xid := XidFromFullTransactionId nextXid in
  let pageno := Clog.TransactionIdToPage xid in
  if negb (TransactionIdToPgIndex xid =? 0) then p ← c !! pageno; Some (<[pageno := trim_page xid p]> c)
  else Some c.

(** ** [pg_subtrans] *)

(** The loop over the pages, which starts again after the last one. *)
Fixpoint zero_pages (fuel : nat) (startPage endPage : Z) (s : subtrans) : option subtrans :=
  match fuel with
  | O => None
  | S fuel =>
      let s := <[startPage := zero_page]> s in
      if startPage =? endPage then Some s
      else
        let startPage := startPage + 1 in
        zero_pages fuel (if TransactionIdToPage MaxTransactionId <? startPage then 0 else startPage) endPage s
  end.

Definition StartupSUBTRANS (oldestActiveXID : TransactionId) (nextXid : FullTransactionId) (s : subtrans) : option subtrans :=
  let startPage := TransactionIdToPage oldestActiveXID in
  let endPage := TransactionIdToPage (XidFromFullTransactionId nextXid) in
  zero_pages (S (Z.to_nat ((endPage - startPage) mod (TransactionIdToPage MaxTransactionId + 1)))) startPage endPage s.

(** ** The shared state *)

(** No process is in the array yet; the counter of completions starts at 1. *)
Definition CreateSharedProcArray (procs : list Proc) (max : nat) (v : TransamVariablesData) : ProcArrayStruct :=
  empty_array procs max
       {| nextOid := nextOid v; oidCount := oidCount v; nextXid := nextXid v; oldestXid := oldestXid v;
          xidVacLimit := xidVacLimit v; xidWarnLimit := xidWarnLimit v; xidStopLimit := xidStopLimit v;
          xidWrapLimit := xidWrapLimit v; oldestXidDB := oldestXidDB v; oldestCommitTsXid := oldestCommitTsXid v;
          newestCommitTsXid := newestCommitTsXid v; latestCompletedXid := latestCompletedXid v;
          xactCompletionCount := 1; oldestClogXid := oldestClogXid v |}.

(** The end of recovery: nothing after the next id has completed. *)
Definition set_latest (v : TransamVariablesData) : TransamVariablesData :=
  {| nextOid := nextOid v; oidCount := oidCount v; nextXid := nextXid v; oldestXid := oldestXid v;
     xidVacLimit := xidVacLimit v; xidWarnLimit := xidWarnLimit v; xidStopLimit := xidStopLimit v;
     xidWrapLimit := xidWrapLimit v; oldestXidDB := oldestXidDB v; oldestCommitTsXid := oldestCommitTsXid v;
     newestCommitTsXid := newestCommitTsXid v; latestCompletedXid := FullTransactionIdRetreat (nextXid v);
     xactCompletionCount := xactCompletionCount v; oldestClogXid := oldestClogXid v |}.

Definition StartupXLOG (oldestActiveXID : TransactionId) (a : ProcArrayStruct) (c : clog) (t : subtrans) : option server :=
  let a := set_vars (set_latest (pa_vars a)) a in
  t ← StartupSUBTRANS oldestActiveXID (nextXid (pa_vars a)) t;
  c ← TrimCLOG (nextXid (pa_vars a)) c;
  Some {| sv_array := a; sv_log := c; sv_subtrans := t; sv_backends := ∅ |}.

(** ** Trimming *)

Lemma trim_ok xid p : page_ok p -> page_ok (trim_page xid p).
Proof.
  intros [H1 H2]. split; [|done]. cbn [trim_page page_buffer]. pose proof (byte_in_page xid) as Hb.
  rewrite !length_app, length_take, length_replicate. simpl. unfold BLCKSZ in *. lia.
Qed.

Lemma trim_byte xid x p :
  page_ok p -> TransactionIdToByte xid <= TransactionIdToByte x ->
  page_byte x (trim_page xid p) =
  if decide (TransactionIdToByte x = TransactionIdToByte xid) then Z.land (page_byte xid p) (Z.shiftl 1 (bshift xid) - 1) else 0.
Proof.
  intros [H1 _] Hle. pose proof (byte_in_page xid) as Hb. pose proof (byte_in_page x) as Hbx. unfold page_byte at 1. cbn [trim_page page_buffer].
  assert (Hlen : length (take (Z.to_nat (TransactionIdToByte xid)) (page_buffer p)) = Z.to_nat (TransactionIdToByte xid)).
  { rewrite length_take. lia. }
  rewrite lookup_app_r by lia. rewrite Hlen. destruct (decide _) as [->|Hne].
  - by rewrite Nat.sub_diag.
  - rewrite lookup_app_r by (simpl; lia). simpl. rewrite lookup_replicate_2; [done|]. unfold BLCKSZ in *. lia.
Qed.

Lemma bindex_range x : 0 <= TransactionIdToBIndex x < 4.
Proof. apply Z.mod_pos_bound. done. Qed.

(** The statuses from the id on are cleared. *)
Lemma trim_status xid x p :
  page_ok p -> TransactionIdToPgIndex xid <= TransactionIdToPgIndex x -> 
  page_status x (trim_page xid p) = TRANSACTION_STATUS_IN_PROGRESS.
Proof.
  intros Hp Hle. unfold page_status. rewrite trim_byte; [|done|by apply Z.div_le_mono].
  destruct (decide _) as [E|E]; [|by rewrite Z.shiftr_0_l].
  assert (Hb : TransactionIdToBIndex xid <= TransactionIdToBIndex x).
  { unfold TransactionIdToBIndex, TransactionIdToByte, TransactionIdToPgIndex, CLOG_XACTS_PER_PAGE, CLOG_XACTS_PER_BYTE, BLCKSZ in *.
    Z.div_mod_to_equations. lia. }
  pose proof (bindex_range xid). unfold bshift, CLOG_BITS_PER_XACT. rewrite Z.shiftl_1_l, Z.sub_1_r, <- Z.ones_equiv.
  rewrite Z.land_ones, Z.shiftr_div_pow2, Z.div_small; [done| |lia|lia].
  pose proof (Z.mod_pos_bound (page_byte xid p) (2 ^ (TransactionIdToBIndex xid * 2)) ltac:(lia)).
  assert (2 ^ (TransactionIdToBIndex xid * 2) <= 2 ^ (TransactionIdToBIndex x * 2)) by (apply Z.pow_le_mono_r; lia). lia.
Qed.

(** The statuses before the id stay. *)
Lemma trim_keeps xid x p :
  page_ok p -> TransactionIdToPgIndex x < TransactionIdToPgIndex xid -> page_status x (trim_page xid p) = page_status x p.
Proof.
  intros Hp Hlt. assert (Hle : TransactionIdToByte x <= TransactionIdToByte xid) by (apply Z.div_le_mono; [done|lia]).
  pose proof (byte_in_page xid) as Hb. pose proof (byte_in_page x) as Hbx. unfold page_status.
  destruct (decide (TransactionIdToByte x = TransactionIdToByte xid)) as [E|E].
  - rewrite trim_byte, decide_True by (done || lia). unfold page_byte. rewrite E.
    assert (Hbi : TransactionIdToBIndex x < TransactionIdToBIndex xid).
    { unfold TransactionIdToBIndex, TransactionIdToByte, TransactionIdToPgIndex, CLOG_XACTS_PER_PAGE, CLOG_XACTS_PER_BYTE, BLCKSZ in *.
      Z.div_mod_to_equations. lia. }
    pose proof (bindex_range x). unfold bshift, CLOG_BITS_PER_XACT, CLOG_XACT_BITMASK. rewrite Z.shiftl_1_l, Z.sub_1_r, <- Z.ones_equiv.
    change (Z.shiftl 1 CLOG_BITS_PER_XACT - 1) with (Z.ones 2). apply Z.bits_inj'. intros i Hi.
    rewrite !Z.land_spec, !Z.shiftr_spec, Z.land_spec by lia. destruct (decide (i < 2)) as [Hi2|Hi2].
    + rewrite (Z.ones_spec_low _ (i + _)) by lia. by rewrite andb_true_r.
    + rewrite (Z.ones_spec_high 2 i) by lia. by rewrite !andb_false_r.
  - unfold page_byte at 1. cbn [trim_page page_buffer]. destruct Hp as [H1 _].
    rewrite lookup_app_l by (rewrite length_take; lia). rewrite lookup_take_lt by lia. done.
Qed.

(** Ids of one window on one page are in order. *)
Lemma same_page_order n lo v x :
  0 < n <= 2 ^ 31 -> in_window lo v -> in_window lo x -> v <= x -> u32 x / n = u32 v / n -> u32 v mod n <= u32 x mod n.
Proof.
  intros Hn [Hv _] [Hx _] Hle E. pose proof (Z.div_mod (u32 v) n ltac:(lia)). pose proof (Z.div_mod (u32 x) n ltac:(lia)). rewrite E in *.
  pose proof (Z.mod_pos_bound (u32 v) n ltac:(lia)). pose proof (Z.mod_pos_bound (u32 x) n ltac:(lia)).
  assert (u32 v <= u32 x); [|lia]. assert (Hd : u32 v - u32 x < n) by lia. clear -Hle Hv Hx Hd Hn. unfold u32, wrap in *. Z.div_mod_to_equations. lia.
Qed.

Section trim.
Context (lo : Z) (nextXid : FullTransactionId) (c c' : clog).
Context (Hc : clog_ok c) (Hw : in_window lo (value nextXid)) (E : TrimCLOG nextXid c = Some c').

Lemma trim_clog_ok : clog_ok c'.
Proof.
  revert E. unfold TrimCLOG. destruct (negb _); [|by intros [= <-]]. destruct (c !! _) as [p|] eqn:Ep; [|done]. cbn [mbind option_bind].
  intros [= <-]. apply map_Forall_insert_2; [|done]. apply trim_ok. by eapply Hc.
Qed.

Lemma trim_clean : clean_from CLOG_XACTS_PER_PAGE status_of TRANSACTION_STATUS_IN_PROGRESS lo (value nextXid) c'.
Proof.
  intros Hf x Hx Hle Hp. revert E. unfold TrimCLOG. change (XidFromFullTransactionId nextXid) with (u32 (value nextXid)).
  destruct (Z.eqb_spec (TransactionIdToPgIndex (u32 (value nextXid))) 0) as [E0|_]; [exfalso; apply Hf; by left|]. cbn [negb].
  destruct (c !! _) as [p|] eqn:Ep; [|done]. cbn [mbind option_bind]. intros [= <-]. unfold status_of, Clog.TransactionIdToPage in *. rewrite Hp.
  rewrite lookup_insert_eq. cbn. f_equal. apply trim_status; [by eapply Hc|]. by eapply (same_page_order CLOG_XACTS_PER_PAGE lo).
Qed.

(** The ids that were assigned keep their status. *)
Lemma trim_old x : in_window lo x -> x < value nextXid -> status_of c' (u32 x) = status_of c (u32 x).
Proof.
  intros Hx Hlt. revert E. unfold TrimCLOG. change (XidFromFullTransactionId nextXid) with (u32 (value nextXid)).
  destruct (Z.eqb_spec (TransactionIdToPgIndex (u32 (value nextXid))) 0) as [E0|Hne]; cbn [negb]; [by intros [= <-]|].
  destruct (c !! _) as [p|] eqn:Ep; [|done]. cbn [mbind option_bind]. intros [= <-]. unfold status_of, Clog.TransactionIdToPage in *.
  destruct (decide (u32 x / CLOG_XACTS_PER_PAGE = u32 (value nextXid) / CLOG_XACTS_PER_PAGE)) as [Hp|Hp].
  - rewrite Hp, lookup_insert_eq, Ep. cbn. f_equal. apply trim_keeps; [by eapply Hc|].
    pose proof (same_page_order CLOG_XACTS_PER_PAGE lo x (value nextXid) ltac:(done) Hx Hw ltac:(lia) (eq_sym Hp)) as Hle.
    unfold TransactionIdToPgIndex. destruct (decide (u32 x mod CLOG_XACTS_PER_PAGE = u32 (value nextXid) mod CLOG_XACTS_PER_PAGE)) as [Em|]; [|lia].
    exfalso. assert (u32 x = u32 (value nextXid)) as Eu by (rewrite (Z.div_mod (u32 x) CLOG_XACTS_PER_PAGE), Hp, Em, <- Z.div_mod by done; done).
    apply (u32_window_inj lo) in Eu; [lia|done|done].
  - by rewrite lookup_insert_ne.
Qed.
End trim.

(** ** Zeroing *)

Lemma zero_pages_spec fuel start stop s :
  let P := TransactionIdToPage MaxTransactionId + 1 in
  SubTransPages.pages_ok s -> 0 <= start < P -> 0 <= stop < P -> (stop - start) mod P < Z.of_nat fuel ->
  exists s', zero_pages fuel start stop s = Some s' /\ SubTransPages.pages_ok s' /\ s' !! stop = Some zero_page.
Proof.
  intros P. revert start s. induction fuel as [|fuel IH]; intros start s Hs H1 H2 Hf; [pose proof (Z.mod_pos_bound (stop - start) P ltac:(done)); lia|].
  cbn [zero_pages]. assert (Hs' : SubTransPages.pages_ok (<[start := zero_page]> s)).
  { apply map_Forall_insert_2; [|done]. unfold zero_page. by rewrite length_replicate. }
  destruct (Z.eqb_spec start stop) as [->|Hne]; [eexists; split; [done|]; split; [done|]; apply lookup_insert_eq|].
  apply IH; [done| |done|]; change (TransactionIdToPage MaxTransactionId <? start + 1) with (P - 1 <? start + 1).
  - destruct (Z.ltb_spec (P - 1) (start + 1)); lia.
  - destruct (Z.ltb_spec (P - 1) (start + 1)).
    + replace start with (P - 1) in Hf by lia. rewrite Z.sub_0_r, Z.mod_small by lia.
      replace (stop - (P - 1)) with (stop + 1 + (- 1) * P) in Hf by lia. rewrite Z.mod_add in Hf by done.
      destruct (decide (stop + 1 = P)); [|rewrite Z.mod_small in Hf by lia; lia]. exfalso. lia.
    + assert (P = 2097152) by done. clearbody P. Z.div_mod_to_equations. lia.
Qed.

Lemma page_of_range x : 0 <= x < 2 ^ 32 -> 0 <= TransactionIdToPage x < TransactionIdToPage MaxTransactionId + 1.
Proof.
  intros Hx. unfold TransactionIdToPage. assert (x <= MaxTransactionId) by (unfold MaxTransactionId; lia). split; [by apply Z.div_pos; [lia|]|].
  apply Z.lt_succ_r, Z.div_le_mono; [done|lia].
Qed.

Lemma startup_subtrans oldest next s :
  SubTransPages.pages_ok s -> 0 <= oldest < 2 ^ 32 ->
  exists s', StartupSUBTRANS oldest next s = Some s' /\ SubTransPages.pages_ok s' /\
    forall lo, clean_from SUBTRANS_XACTS_PER_PAGE SubTransPages.look InvalidTransactionId lo (value next) s'.
Proof.
  intros Hs Ho. pose proof (u32_range (value next)) as Hn.
  destruct (zero_pages_spec (S (Z.to_nat ((TransactionIdToPage (u32 (value next)) - TransactionIdToPage oldest) mod (TransactionIdToPage MaxTransactionId + 1))))
    (TransactionIdToPage oldest) (TransactionIdToPage (u32 (value next))) s Hs) as (s' & Es & Hok & Hz);
    [by apply page_of_range|by apply page_of_range| |].
  - pose proof (Z.mod_pos_bound (TransactionIdToPage (u32 (value next)) - TransactionIdToPage oldest) (TransactionIdToPage MaxTransactionId + 1) ltac:(done)). lia.
  - exists s'. split; [exact Es|]. split; [done|]. intros lo _ x _ _ Hp. unfold SubTransPages.look, TransactionIdToPage in *. rewrite Hp, Hz. cbn.
    unfold zero_page. rewrite lookup_replicate_2; [done|]. pose proof (SubTransPages.entry_in_page (u32 x)). lia.
Qed.

(** ** The first state *)

(** What the control file and the logs must give: the next id follows a normal id of the window, and the pages have their size. *)
Record can_start (lo : Z) (oldestActiveXID : TransactionId) (v : TransamVariablesData) (max : nat) (c : clog) (t : subtrans) : Prop := {
  cs_next : exists x, nextXid v = FullTransactionIdAdvance x /\ value x < value (nextXid v) /\ normal_full x /\ in_window lo (value x);
  cs_window : in_window lo (value (nextXid v)) /\ 0 <= value (nextXid v) /\ value (nextXid v) + 8 < 2 ^ 64;
  cs_procs : Z.of_nat max <= 2 ^ 18;
  cs_log : clog_ok c;
  cs_page : TransactionIdToPgIndex (u32 (value (nextXid v))) <> 0 -> is_Some (c !! Clog.TransactionIdToPage (u32 (value (nextXid v))));
  cs_subtrans : SubTransPages.pages_ok t;
  cs_oldest : 0 <= oldestActiveXID < 2 ^ 32
}.

Lemma trim_some next c :
  (TransactionIdToPgIndex (u32 (value next)) <> 0 -> is_Some (c !! Clog.TransactionIdToPage (u32 (value next)))) -> is_Some (TrimCLOG next c).
Proof.
  intros H. unfold TrimCLOG. change (XidFromFullTransactionId next) with (u32 (value next)).
  destruct (Z.eqb_spec (TransactionIdToPgIndex (u32 (value next))) 0) as [E|E]; [by eexists|]. destruct (H E) as [p Hp]. rewrite Hp. by eexists.
Qed.

Lemma no_ids s v : sv_backends s = ∅ -> ~ live s v.
Proof. intros E (n & b & Hb & _)%live_ids. rewrite E in Hb. by apply lookup_empty_Some in Hb. Qed.

Lemma startup_ok lo oldest v procs max c t :
  can_start lo oldest v max c t ->
  exists s, StartupXLOG oldest (CreateSharedProcArray procs max v) c t = Some s /\ server_ok lo (value (nextXid v)) s /\
    sv_backends s = ∅ /\ allProcs (sv_array s) = procs /\ next_id s = value (nextXid v) /\
    forall x, in_window lo x -> x < value (nextXid v) -> status s x = status_of c (u32 x).
Proof.
  intros [(x & Ex & Hlt & Hx & Hxw) (Hw & H0 & Hroom) Hmax Hc Hp Ht Ho]. set (N0 := value (nextXid v)) in *.
  destruct (startup_subtrans oldest (nextXid v) t Ht Ho) as (t' & Et & Htok & Htclean). destruct (trim_some (nextXid v) c Hp) as [c' Ec].
  assert (Hxr : value x + 4 < 2 ^ 64) by lia.
  pose proof (full_advance_value x Hx Hxr) as Ea. pose proof (full_advance_normal x Hx Hxr) as Hn. rewrite <- Ex in Hn.
  assert (Eret : FullTransactionIdRetreat (nextXid v) = x) by (apply full_retreat_value; [done|done|by rewrite Ex, Ea]).
  eexists. split; [unfold StartupXLOG; cbn [CreateSharedProcArray empty_array pa_vars set_latest set_vars nextXid]; rewrite Et; cbn [mbind option_bind]; rewrite Ec; done|].
  set (s := {| sv_array := _; sv_log := c'; sv_subtrans := t'; sv_backends := ∅ |}).
  assert (Hnone : forall n b, sv_backends s !! n = Some b -> False) by (intros n b; cbn [s sv_backends]; by rewrite lookup_empty).
  assert (Hlat : latest_id s = value x) by exact (f_equal value Eret).
  split; [|split; [done|split; [done|split; [done|intros y Hy Hyl; by eapply (trim_old lo (nextXid v) c c')]]]].
  split.
  - split; [|done]. split; try done. cbn. lia.
  - change (next_id s) with N0. destruct Hw. split; [done|]. lia.
  - change (next_id s) with N0. rewrite Hlat. destruct Hx as [Hxr' _]. split; [done|]. split; [done|]. split; [lia|].
    unfold vars. cbn. rewrite Eret, <- Ex. done.
  - done.
  - intros n. split; [by intros ?%elem_of_nil|]. intros [b Hb]. by apply Hnone in Hb.
  - intros n b Hb. by apply Hnone in Hb.
  - intros n b Hb. by apply Hnone in Hb.
  - intros n m b b' w Hb. by apply Hnone in Hb.
  - split; [|done]. by eapply trim_clog_ok.
  - split; [|by apply Htclean]. by eapply trim_clean.
  - intros w [[_ Hr] _]. change (next_id s) with N0 in Hr. lia.
  - intros n b r y Hb. by apply Hnone in Hb.
  - intros n b Hb. by apply Hnone in Hb.
Qed.
