(* ===== verification/ServerRun.v ===== *)
(** * Runs of the server

    Steps as a function of the state, so that runs can be computed; a backend that runs a transaction gets to
    its end by its own steps, wherever it is interrupted. *)
From S2P Require Import Prelude TransactionId ItemPtr HeapTuple Snapshot Varsup Clog Subtrans ProcArray ProcArraySpec.
From S2P Require Import Server ServerInv ServerArray ServerSnapshot ServerSteps ServerHistory Startup.
Import SubTrans.
Local Open Scope Z_scope.

(** ** Executing steps *)

Inductive action :=
| Connect
| Disconnect
| AssignTop
| AssignSub (p : Z)
| RecordParent
| Finish (st : XidStatus)
| Undo (v : Z) (cs : list Z)
| WritePage
| End
| EndReadOnly
| TakeSnapshot (cid : CommandId).

Section exec.
Context (lo : Z).

Definition window_b (v : Z) : bool := (lo <=? v) && (v <? lo + 2 ^ 31) && (FirstNormalTransactionId <=? u32 v).

Definition idle_b (p : Proc) : bool :=
  (p_xid p =? InvalidTransactionId) && (count (p_subxidStatus p) =? 0)%nat && negb (overflowed (p_subxidStatus p)) &&
  (length (p_subxids p) =? PGPROC_MAX_CACHED_SUBXIDS)%nat &&
  negb (tst (p_statusFlags p) (Z.lor PROC_IN_LOGICAL_DECODING PROC_IN_VACUUM)).

(** There is room for another id. *)
Definition room_b (s : server) : bool :=
  window_b (value (FullTransactionIdAdvance (nextXid (vars s)))) && (next_id s + 8 <? 2 ^ 64).

Definition no_parent_b (s : server) (l l' : list Z) : bool :=
  forallb (fun w => forallb (fun p => negb (entry (sv_subtrans s) (u32 w) =? u32 p)) l') l.

Definition exec (n : nat) (act : action) (s : server) : option server :=
  match act, sv_backends s !! n with
  | Connect, None =>
      p ← allProcs (sv_array s) !! n;
      if idle_b p then a ← ProcArrayAdd n (sv_array s); Some (set_backend n new_backend (set_array a s)) else None
  | Connect, Some _ | _, None => None
  | Disconnect, Some b =>
      match b_top b with
      | None =>
          a ← ProcArrayRemove n InvalidTransactionId (sv_array s);
          Some {| sv_array := a; sv_log := sv_log s; sv_subtrans := sv_subtrans s; sv_backends := delete n (sv_backends s) |}
      | Some _ => None
      end
  | AssignTop, Some b =>
      match b_top b with
      | None => if room_b s then s' ← assign_id false n s; Some (set_backend n (set_ids (Some (next_id s)) [] Working b) s') else None
      | Some _ => None
      end
  | AssignSub p, Some b =>
      match b_work b with
      | Working =>
          if bool_decide (p ∈ option_ids (b_top b) ++ b_subs b) && room_b s
          then s' ← assign_id true n s; Some (set_backend n (set_work (Recording (next_id s) p) b) s')
          else None
      | _ => None
      end
  | RecordParent, Some b =>
      match b_work b with
      | Recording v p =>
          t ← SubTransSetParent (u32 v) (u32 p) (sv_subtrans s);
          Some (set_backend n (set_ids (b_top b) (b_subs b ++ [v]) Working b) (set_subtrans t s))
      | _ => None
      end
  | Finish st, Some b =>
      match b_work b, b_top b with
      | Working, Some v =>
          if (st =? TRANSACTION_STATUS_COMMITTED) || (st =? TRANSACTION_STATUS_ABORTED)
          then Some (set_backend n (set_work (Finishing st (tree_updates (u32 v) (map u32 (b_subs b)) st)) b) s)
          else None
      | _, _ => None
      end
  | Undo v cs, Some b =>
      match b_work b with
      | Working =>
          if bool_decide (NoDup (v :: cs)) && bool_decide (Forall (fun w => w ∈ b_subs b) (v :: cs)) &&
             no_parent_b s (filter (fun w => w ∉ v :: cs) (b_subs b)) (v :: cs)
          then Some (set_backend n (set_work (Undoing v cs (tree_updates (u32 v) (map u32 cs) TRANSACTION_STATUS_ABORTED)) b) s)
          else None
      | _ => None
      end
  | WritePage, Some b =>
      match b_work b with
      | Finishing st (u :: us) =>
          c ← TransactionIdSetPageStatusInternal false InvalidXLogRecPtr u (sv_log s);
          Some (set_backend n (set_work (Finishing st us) b) (set_log c s))
      | Undoing v cs (u :: us) =>
          c ← TransactionIdSetPageStatusInternal false InvalidXLogRecPtr u (sv_log s);
          Some (set_backend n (set_work (Undoing v cs us) b) (set_log c s))
      | _ => None
      end
  | End, Some b =>
      if completions s + 1 <? 2 ^ 64 then
        match b_work b, b_top b with
        | Finishing st [], Some v =>
            a ← ProcArrayEndTransaction n (latest_of v (b_subs b)) (sv_array s);
            Some (set_backend n (set_ids None [] Working b) (set_array a s))
        | Undoing v cs [], _ =>
            a ← XidCacheRemoveRunningXids n (u32 v) (map u32 cs) (latest_of v cs) (sv_array s);
            Some (set_backend n (set_ids (b_top b) (filter (fun w => w ∉ v :: cs) (b_subs b)) Working b) (set_array a s))
        | _, _ => None
        end
      else None
  | EndReadOnly, Some b =>
      match b_top b with
      | None => a ← ProcArrayEndTransaction n InvalidTransactionId (sv_array s); Some (set_array a s)
      | Some _ => None
      end
  | TakeSnapshot cid, Some b =>
      match b_work b with
      | Working =>
          p ← allProcs (sv_array s) !! n;
          '(r, a) ← GetSnapshotData n cid (sv_array s) (b_snapshot b);
          Some (set_backend n (with_snapshot p r b) (set_array a s))
      | _ => None
      end
  end.

Fixpoint run (l : list (nat * action)) (s : server) : option server :=
  match l with
  | [] => Some s
  | (n, act) :: l => s ← exec n act s; run l s
  end.

Lemma window_b_spec v : window_b v = true -> in_window lo v.
Proof. unfold window_b. intros H. b2p. split; lia. Qed.

Lemma idle_b_spec p : idle_b p = true -> idle_proc p.
Proof.
  unfold idle_b. rewrite !andb_true_iff, !negb_true_iff, !Z.eqb_eq, !Nat.eqb_eq. intros [[[[H1 H2] H3] H4] H5]. split; [done|].
  split; [|done]. destruct (p_subxidStatus p) as [k o]. cbn in *. by subst.
Qed.

Lemma room_b_spec s : room_b s = true -> in_window lo (value (FullTransactionIdAdvance (nextXid (vars s)))) /\ next_id s + 8 < 2 ^ 64.
Proof. unfold room_b. intros H. b2p. split; [by apply window_b_spec|lia]. Qed.

Lemma no_parent_b_spec s l l' : no_parent_b s l l' = true -> no_parent_in s l l'.
Proof.
  unfold no_parent_b. rewrite forallb_forall. intros H w p Hw%list_elem_of_In Hp%list_elem_of_In E. specialize (H w Hw).
  rewrite forallb_forall in H. specialize (H p Hp). b2p. done.
Qed.

(** Executed steps are steps. *)
Lemma exec_step n act s s' : exec n act s = Some s' -> server_step lo n s s'.
Proof.
  unfold exec. destruct (sv_backends s !! n) as [b|] eqn:Hb.
  2: { destruct act; try done. destruct (allProcs (sv_array s) !! n) as [p|] eqn:Hp; [|done]. cbn [mbind option_bind].
       destruct (idle_b p) eqn:Ei; [|done]. destruct (ProcArrayAdd n (sv_array s)) as [a|] eqn:Ea; [|done]. intros [= <-].
       apply idle_b_spec in Ei. by eapply step_connect. }
  destruct act as [| | |p| |st|v cs| | | |cid]; [done|..].
  - destruct (b_top b) eqn:Et; [done|]. destruct (ProcArrayRemove _ _ _) as [a|] eqn:Ea; [|done]. intros [= <-]. by eapply step_disconnect.
  - destruct (b_top b) eqn:Et; [done|]. destruct (room_b s) eqn:Er; [|done]. apply room_b_spec in Er as [R1 R2].
    destruct (assign_id _ _ _) as [s1|] eqn:Ea; [|done]. intros [= <-]. by eapply step_top.
  - destruct (b_work b) eqn:Ew; try done. destruct (bool_decide _ && room_b s) eqn:Er; [|done]. apply andb_true_iff in Er as [Hp [R1 R2]%room_b_spec].
    apply bool_decide_eq_true in Hp. destruct (assign_id _ _ _) as [s1|] eqn:Ea; [|done]. intros [= <-]. by eapply step_sub.
  - destruct (b_work b) eqn:Ew; try done. destruct (SubTransSetParent _ _ _) as [t|] eqn:Ea; [|done]. intros [= <-]. by eapply step_parent.
  - destruct (b_work b) eqn:Ew; try done. destruct (b_top b) as [v|] eqn:Et; [|done]. destruct (_ || _) eqn:Es; [|done]. intros [= <-].
    eapply step_finish; [done|done|done|]. apply orb_true_iff in Es as [Es|Es]; b2p; [by left|by right].
  - destruct (b_work b) eqn:Ew; try done. destruct (_ && _ && _) eqn:Es; [|done]. intros [= <-].
    apply andb_true_iff in Es as [[H1 H2]%andb_true_iff H3]. apply bool_decide_eq_true in H1, H2. rewrite list.Forall_forall in H2.
    apply no_parent_b_spec in H3. by eapply step_undo.
  - destruct (b_work b) as [| |st [|u us]|v cs [|u us]] eqn:Ew; try done; (destruct (TransactionIdSetPageStatusInternal _ _ _ _) as [c|] eqn:Ec; [|done]);
      intros [= <-]; [by eapply step_write|by eapply step_write_undo].
  - destruct (Z.ltb_spec (completions s + 1) (2 ^ 64)); [|done]. destruct (b_work b) as [| |st [|u us]|v cs [|u us]] eqn:Ew; try done.
    + destruct (b_top b) as [v|] eqn:Et; [|done]. destruct (ProcArrayEndTransaction _ _ _) as [a|] eqn:Ea; [|done]. intros [= <-]. by eapply step_end.
    + destruct (XidCacheRemoveRunningXids _ _ _ _ _) as [a|] eqn:Ea; [|by destruct (b_top b)]. destruct (b_top b) eqn:Et; intros [= <-]; rewrite <- Et; by eapply step_undone.
  - destruct (b_top b) eqn:Et; [done|]. destruct (ProcArrayEndTransaction _ _ _) as [a|] eqn:Ea; [|done]. intros [= <-]. by eapply step_end_readonly.
  - destruct (b_work b) eqn:Ew; try done. destruct (allProcs (sv_array s) !! n) as [p|] eqn:Hp; [|done]. cbn [mbind option_bind].
    destruct (GetSnapshotData _ _ _ _) as [[r a]|] eqn:Eg; [|done]. intros [= <-]. by eapply step_snapshot_of.
Qed.

Lemma exec_takes n cid s s' : exec n (TakeSnapshot cid) s = Some s' -> takes_snapshot n cid s s'.
Proof.
  unfold exec. destruct (sv_backends s !! n) as [b|] eqn:Hb; [|done]. destruct (b_work b) eqn:Ew; try done.
  destruct (allProcs (sv_array s) !! n) as [p|] eqn:Hp; [|done]. cbn [mbind option_bind].
  destruct (GetSnapshotData _ _ _ _) as [[r a]|] eqn:Eg; [|done]. intros [= <-]. by exists b, p, r, a.
Qed.

(** The states that steps lead to. *)
Definition reachable : server -> server -> Prop := rtc (fun s s' => exists n, server_step lo n s s').

Lemma run_reachable l s s' : run l s = Some s' -> reachable s s'.
Proof.
  revert s. induction l as [|[n act] l IH]; intros s; cbn [run]; [intros [= ->]; constructor|].
  destruct (exec n act s) as [s1|] eqn:E; [|done]. intros Hr. eapply rtc_l; [exists n; by eapply exec_step|by apply IH].
Qed.

Lemma reachable_ok N0 s s' : server_ok lo N0 s -> reachable s s' -> server_ok lo N0 s'.
Proof. intros Hs H. induction H as [|s s1 s2 (n & Hn) _ IH]; [done|]. apply IH. by eapply server_step_ok. Qed.
End exec.

(** ** Getting to the end *)

Section completion.
Context (lo N0 : Z) (n : nat).
Abbreviation ok := (server_ok lo N0).
Abbreviation steps := (rtc (server_step lo n)).

(** The page that comes next can be written. *)
Lemma next_page s b x xs st u us :
  ok s -> sv_backends s !! n = Some b -> tree b = Some (x, xs, st, u :: us) ->
  is_Some (TransactionIdSetPageStatusInternal false InvalidXLogRecPtr u (sv_log s)).
Proof.
  intros Hs Hb Et. pose proof (so_backends _ _ _ Hs n b Hb) as Hok. pose proof (bo_log _ _ _ _ Hok) as Hlog. unfold log_shows in Hlog.
  rewrite Et in Hlog. destruct Hlog as (Hst & done' & E & H1 & _).
  assert (Hst' : 0 <= st < 4 /\ st <> TRANSACTION_STATUS_SUB_COMMITTED) by (destruct Hst as [-> | ->]; done). destruct Hst' as [Hr Hns].
  destruct (tree_updates_split (u32 x) (map u32 xs) st Hr Hns) as (pre & v & post & Hsplit).
  destruct Hsplit as (E' & _ & _ & first & rest & _ & _ & _ & _ & _ & Hpage & _).
  destruct (Hpage u) as (y & Hy & Ey); [rewrite <- E', E; apply elem_of_app; right; by left|].
  change (u32 x :: map u32 xs) with (map u32 (x :: xs)) in Hy. apply list_elem_of_fmap in Hy as (w & -> & Hw).
  specialize (H1 w Hw). unfold status, status_of in H1. unfold TransactionIdSetPageStatusInternal. rewrite Ey.
  destruct (sv_log s !! _); [by eexists|done].
Qed.

Lemma writes_finish s b v st us :
  ok s -> sv_backends s !! n = Some b -> b_work b = Finishing st us -> b_top b = Some v ->
  exists s', steps s s' /\ ok s' /\ completions s' = completions s /\ sv_backends s' !! n = Some (set_work (Finishing st []) b).
Proof.
  revert s b. induction us as [|u us IH]; intros s b Hs Hb Hw Ht.
  - exists s. split; [constructor|]. split; [done|]. split; [done|]. rewrite Hb. f_equal. destruct b. cbn in *. by subst.
  - assert (Et : tree b = Some (v, b_subs b, st, u :: us)) by (unfold tree; by rewrite Hw, Ht).
    destruct (next_page s b _ _ _ _ _ Hs Hb Et) as [c Ec]. pose proof (step_write lo n s b st u us _ c Hb Hw Ec) as Hstep.
    destruct (IH _ (set_work (Finishing st us) b) (server_step_ok lo N0 _ _ _ Hs Hstep)) as (s' & H1 & H2 & H3 & H4);
      [cbn; by rewrite lookup_insert_eq|done|done|]. exists s'. split; [by eapply rtc_l|]. done.
Qed.

Lemma end_some s b : ok s -> sv_backends s !! n = Some b -> forall x, is_Some (ProcArrayEndTransaction n x (sv_array s)).
Proof.
  intros Hs Hb x. destruct (so_procs _ _ _ Hs n b Hb) as (p & Hp & _). unfold ProcArrayEndTransaction, ProcArrayEndTransactionInternal.
  rewrite Hp. cbn. destruct (TransactionIdIsValid x); by eexists.
Qed.

Lemma writes_undo s b v cs us :
  ok s -> sv_backends s !! n = Some b -> b_work b = Undoing v cs us ->
  exists s', steps s s' /\ ok s' /\ completions s' = completions s /\ sv_backends s' !! n = Some (set_work (Undoing v cs []) b).
Proof.
  revert s b. induction us as [|u us IH]; intros s b Hs Hb Hw.
  - exists s. split; [constructor|]. split; [done|]. split; [done|]. rewrite Hb. f_equal. destruct b. cbn in *. by subst.
  - assert (Et : tree b = Some (v, cs, TRANSACTION_STATUS_ABORTED, u :: us)) by (unfold tree; by rewrite Hw).
    destruct (next_page s b _ _ _ _ _ Hs Hb Et) as [c Ec]. pose proof (step_write_undo lo n s b v cs u us _ c Hb Hw Ec) as Hstep.
    destruct (IH _ (set_work (Undoing v cs us) b) (server_step_ok lo N0 _ _ _ Hs Hstep)) as (s' & H1 & H2 & H3 & H4);
      [cbn; by rewrite lookup_insert_eq|done|]. exists s'. split; [by eapply rtc_l|]. done.
Qed.

(** The entry of a process and its PGPROC show no transaction and no subtransactions. *)
Definition cleared (a : ProcArrayStruct) : Prop :=
  exists i p, pgprocnos a !! i = Some n /\ allProcs a !! n = Some p /\ p_pgxactoff p = i /\
    p_xid p = InvalidTransactionId /\ p_subxidStatus p = no_subxids /\
    pa_xids a !! i = Some InvalidTransactionId /\ pa_subxidStates a !! i = Some no_subxids.

Lemma end_clears x a a' : TransactionIdIsValid x = true -> ProcArrayEndTransaction n x a = Some a' ->
  exists p, allProcs a' !! n = Some p /\ p_xid p = InvalidTransactionId /\ p_subxidStatus p = no_subxids.
Proof.
  intros Hx. unfold ProcArrayEndTransaction, ProcArrayEndTransactionInternal. rewrite Hx.
  destruct (allProcs a !! n) as [p|] eqn:Hp; [|done]. intros [= <-]. cbn [allProcs]. pose proof (lookup_lt_Some _ _ _ Hp).
  eexists. rewrite list_lookup_insert_eq by done. split; [done|]. split; [done|]. cbn. unfold has_subxids.
  destruct (p_subxidStatus p) as [[|k] []]; done.
Qed.

Lemma mirror_cleared s b p :
  ok s -> sv_backends s !! n = Some b -> allProcs (sv_array s) !! n = Some p ->
  p_xid p = InvalidTransactionId -> p_subxidStatus p = no_subxids -> cleared (sv_array s).
Proof.
  intros Hs Hb Hp H1 H2. destruct (list_elem_of_lookup_1 _ _ (proj2 (so_dom _ _ _ Hs n) (ex_intro _ b Hb))) as [i Hi].
  destruct (ok_mirror _ (proj1 (so_array _ _ _ Hs)) i n Hi) as (q & Hq & H3 & H4 & H5 & _). rewrite Hp in Hq. injection Hq as <-.
  exists i, p. rewrite H1 in H4. rewrite H2 in H5. done.
Qed.

(** An id that has ended is neither in the array nor in a cache. *)
Lemma ended_not_shown s w : ok s -> ended lo N0 s w -> u32 w ∉ pa_xids (sv_array s) /\ ~ cached s w.
Proof.
  intros Hs [[Hww Hwr] Hl]. assert (Hwin : forall m b x, sv_backends s !! m = Some b -> x ∈ ids b -> u32 x = u32 w -> False).
  { intros m b x Hb Hx E. apply Hl, live_ids. exists m, b. split; [done|].
    replace w with x; [done|]. apply (u32_window_inj lo); [by apply (bo_assigned _ _ _ _ (so_backends _ _ _ Hs m b Hb))|done|done]. }
  split.
  - intros [i Hi]%list_elem_of_lookup_1. destruct (so_array _ _ _ Hs) as [Hpa _].
    destruct (lookup_lt_is_Some_2 (pgprocnos (sv_array s)) i) as [m Hm].
    { apply lookup_lt_Some in Hi. rewrite (ok_xids _ Hpa) in Hi. done. }
    destruct (ok_mirror _ Hpa i m Hm) as (p & Hp & _ & Hx & _). destruct (proj1 (so_dom _ _ _ Hs m)) as [b Hb]; [by eapply list_elem_of_lookup_2|].
    destruct (so_procs _ _ _ Hs m b Hb) as (q & Hq & Hsh). rewrite Hp in Hq. injection Hq as <-. rewrite (ps_top _ _ Hsh), Hi in Hx.
    injection Hx as Hx. destruct (b_top b) as [t|] eqn:Et.
    + apply (Hwin m b t Hb); [|done]. apply elem_of_ids. by left.
    + cbn in Hx. destruct Hww as [_ Hn]. rewrite Hx in Hn. done.
  - intros (m & p & [b Hb] & Hp & Hc). destruct (so_procs _ _ _ Hs m b Hb) as (q & Hq & [_ _ _ _ (cs & E & _ & Hcs & _)]).
    rewrite Hp in Hq. injection Hq as <-. unfold cached_ids in Hc. rewrite E in Hc. apply list_elem_of_fmap in Hc as (x & Ex & Hx).
    apply (Hwin m b x Hb); [|done]. apply elem_of_ids. right. by apply Hcs.
Qed.

(** What has ended stays as it is. *)
Lemma steps_ended s s' w : ok s -> steps s s' -> ended lo N0 s w -> ended lo N0 s' w /\ status s' w = status s w.
Proof.
  intros Hs H. induction H as [|s s1 s2 H1 _ IH]; [done|]. intros [[Hww Hwr] Hl]. pose proof (server_step_effect lo N0 s n s1 Hs H1) as He.
  assert (Hno : forall b, sv_backends s !! n = Some b -> w ∉ ids b) by (intros b Hb Hin; apply Hl, live_ids; by exists n, b).
  destruct (se_foreign _ _ _ _ _ He w Hww ltac:(lia) Hno) as [Est _]. pose proof (se_next _ _ _ _ _ He).
  rewrite <- Est. apply IH; [by eapply server_step_ok|]. split; [split; [done|lia]|].
  intros (m & b & Hb & Hin)%live_ids. destruct (decide (m = n)) as [->|Hne].
  - destruct (se_ids _ _ _ _ _ He b w Hb Hin) as [|(b0 & Hb0 & Hin0 & _)]; [lia|]. by apply (Hno b0).
  - rewrite (se_others _ _ _ _ _ He m Hne) in Hb. apply Hl, live_ids. by exists m, b.
Qed.

(** The state in which the transaction of the backend [b] is over. *)
Definition over (s s' : server) (b : backend) (out : Z -> XidStatus) : Prop :=
  steps s s' /\ ok s' /\ sv_backends s' !! n = Some (set_ids None [] Working b) /\ cleared (sv_array s') /\
  forall w, w ∈ ids b -> ended lo N0 s' w /\ status s' w = Some (out w).

Lemma finishing_over s b v st us :
  ok s -> sv_backends s !! n = Some b -> b_work b = Finishing st us -> b_top b = Some v -> completions s + 1 < 2 ^ 64 ->
  exists s', over s s' b (fun _ => st).
Proof.
  intros Hs Hb Hw Ht Hc. destruct (writes_finish s b v st us Hs Hb Hw Ht) as (s2 & H12 & Hs2 & Ec & Hb2).
  set (b2 := set_work (Finishing st []) b) in *. destruct (end_some s2 b2 Hs2 Hb2 (latest_of v (b_subs b2))) as [a Ea].
  assert (Hc2 : completions s2 + 1 < 2 ^ 64) by (rewrite Ec; exact Hc).
  pose proof (step_end lo n s2 b2 v st a Hb2 eq_refl Ht Hc2 Ea) as Hstep3. set (s3 := set_backend n _ _) in Hstep3.
  pose proof (server_step_ok lo N0 _ _ _ Hs2 Hstep3) as Hs3. pose proof (so_backends _ _ _ Hs2 n b2 Hb2) as Hok2.
  destruct (end_array lo N0 s2 n b2 v st [] a Hs2 Hb2 eq_refl Ht Hc2 Ea) as (Hids & Hco & _).
  assert (Hb3 : sv_backends s3 !! n = Some (set_ids None [] Working b)) by (cbn; by rewrite lookup_insert_eq).
  exists s3. split; [etrans; [done|]; by apply rtc_once|]. split; [done|]. split; [done|]. split.
  { destruct (end_clears _ _ _ (co_valid _ _ _ _ _ _ Hco) Ea) as (p & Hp & H1 & H2). by apply (mirror_cleared s3 _ p Hs3 Hb3). }
  assert (Eids : ids b2 = ids b) by (unfold ids, sub_ids, pending; cbn; by rewrite Hw).
  intros w Hin. rewrite <- Eids in Hin. assert (Et : tree b2 = Some (v, b_subs b2, st, [])) by (unfold tree; cbn; by rewrite Ht).
  split; [|apply (written_status lo N0 s2 b2 v (b_subs b2) st Hok2 Et); by apply Hids].
  assert (En : next_id s3 = next_id s2) by exact (f_equal value (co_next _ _ _ _ _ _ Hco)). split.
  - destruct (bo_assigned _ _ _ _ Hok2 w Hin) as [Hww Hwr]. split; [done|]. by rewrite En.
  - intros (m & b' & Hb' & Hv')%live_ids. destruct (decide (m = n)) as [->|Hne].
    + rewrite Hb3 in Hb'. injection Hb' as <-. by apply elem_of_nil in Hv'.
    + cbn [s3 set_backend sv_backends] in Hb'. rewrite lookup_insert_ne in Hb' by done. apply Hne. by eapply (so_disjoint _ _ _ Hs2 m n b' b2 w).
Qed.

Lemma working_over s b v st :
  ok s -> sv_backends s !! n = Some b -> b_work b = Working -> b_top b = Some v -> completions s + 1 < 2 ^ 64 -> final st ->
  exists s', over s s' b (fun _ => st).
Proof.
  intros Hs Hb Hw Ht Hc Hst. pose proof (step_finish lo n s b v st Hb Hw Ht Hst) as Hstep1.
  set (b1 := set_work _ b) in Hstep1. set (s1 := set_backend n b1 s) in *. pose proof (server_step_ok lo N0 _ _ _ Hs Hstep1) as Hs1.
  destruct (finishing_over s1 b1 v st _ Hs1 ltac:(cbn; by rewrite lookup_insert_eq) eq_refl Ht Hc) as (s' & H1 & H2 & H3 & H4 & H5).
  exists s'. split; [by eapply rtc_l|]. do 3 (split; [done|]). intros w Hin. apply H5.
  unfold ids, sub_ids in *. by rewrite (pending_working b Hw) in Hin.
Qed.

Lemma recording_over s b v st x q :
  ok s -> sv_backends s !! n = Some b -> b_work b = Recording x q -> b_top b = Some v -> completions s + 1 < 2 ^ 64 -> final st ->
  exists s', over s s' b (fun _ => st).
Proof.
  intros Hs Hb Hw Ht Hc Hst. pose proof (so_backends _ _ _ Hs n b Hb) as Hok. assert (Hpe : pending b = [x]) by (unfold pending; by rewrite Hw).
  pose proof (bo_root _ _ _ _ Hok x ltac:(rewrite Hpe; apply elem_of_app; right; by left)) as Hroot.
  destruct (SubTransPages.set_parent_spec (u32 x) (u32 q) _ _ (proj2 (so_logs _ _ _ Hs)) Hroot) as (t & E & _).
  pose proof (step_parent lo n s b x q t Hb Hw E) as Hstep1. set (b1 := set_ids _ _ Working b) in Hstep1. set (s1 := set_backend n b1 _) in *.
  destruct (working_over s1 b1 v st (server_step_ok lo N0 _ _ _ Hs Hstep1) ltac:(cbn; by rewrite lookup_insert_eq) eq_refl Ht Hc Hst)
    as (s' & H1 & H2 & H3 & H4 & H5).
  exists s'. split; [by eapply rtc_l|]. do 3 (split; [done|]). intros w Hin. apply H5.
  unfold ids, sub_ids in *. rewrite Hpe in Hin. by rewrite app_nil_r.
Qed.

Lemma remove_some s b x xs latest :
  ok s -> sv_backends s !! n = Some b -> is_Some (XidCacheRemoveRunningXids n x xs latest (sv_array s)).
Proof.
  intros Hs Hb. destruct (list_elem_of_lookup_1 _ _ (proj2 (so_dom _ _ _ Hs n) (ex_intro _ b Hb))) as [i Hi].
  destruct (ok_mirror _ (proj1 (so_array _ _ _ Hs)) i n Hi) as (p & Hp & Eo & _ & H5 & _). unfold XidCacheRemoveRunningXids.
  rewrite Hp. cbn [mbind option_bind]. rewrite Eo, H5. cbn [mbind option_bind]. destruct (remove_subxids _ _ _). by eexists.
Qed.

Lemma undoing_over s b v st x cs us :
  ok s -> sv_backends s !! n = Some b -> b_work b = Undoing x cs us -> b_top b = Some v -> completions s + 2 < 2 ^ 64 -> final st ->
  exists s', over s s' b (fun w => if bool_decide (w ∈ x :: cs) then TRANSACTION_STATUS_ABORTED else st).
Proof.
  intros Hs Hb Hw Ht Hc Hst. destruct (writes_undo s b x cs us Hs Hb Hw) as (s2 & H12 & Hs2 & Ec & Hb2).
  set (b2 := set_work (Undoing x cs []) b) in *. destruct (remove_some s2 b2 (u32 x) (map u32 cs) (latest_of x cs) Hs2 Hb2) as [a Ea].
  assert (Hc2 : completions s2 + 1 < 2 ^ 64) by (rewrite Ec; lia).
  pose proof (step_undone lo n s2 b2 x cs a Hb2 eq_refl Hc2 Ea) as Hstep3. set (b3 := set_ids _ _ Working b2) in Hstep3.
  set (s3 := set_backend n b3 _) in Hstep3. pose proof (server_step_ok lo N0 _ _ _ Hs2 Hstep3) as Hs3.
  pose proof (so_backends _ _ _ Hs2 n b2 Hb2) as Hok2.
  destruct (undone_array lo N0 s2 n b2 x cs [] a Hs2 Hb2 eq_refl Hc2 Ea) as (Hids & Hdis & Hco & _).
  assert (Hb3 : sv_backends s3 !! n = Some b3) by (cbn; by rewrite lookup_insert_eq).
  assert (Hc3 : completions s3 + 1 < 2 ^ 64) by (change (completions s3) with (xactCompletionCount (pa_vars a)); rewrite (co_count _ _ _ _ _ _ Hco), Ec; lia).
  destruct (working_over s3 b3 v st Hs3 Hb3 eq_refl Ht Hc3 Hst) as (s' & H1 & H2 & H3 & H4 & H5).
  exists s'. split; [etrans; [done|]; by eapply rtc_l|]. do 3 (split; [done|]).
  assert (Eids : ids b2 = ids b) by (unfold ids, sub_ids, pending; cbn; by rewrite Hw).
  intros w Hin. rewrite <- Eids in Hin. case_bool_decide as Hx.
  - assert (Et : tree b2 = Some (x, cs, TRANSACTION_STATUS_ABORTED, [])) by done.
    rewrite <- (proj2 (written_status lo N0 s2 b2 x cs _ Hok2 Et) w Hx). apply (steps_ended s3 s' w Hs3 H1).
    assert (En : next_id s3 = next_id s2) by exact (f_equal value (co_next _ _ _ _ _ _ Hco)).
    destruct (bo_assigned _ _ _ _ Hok2 w Hin) as [Hww Hwr]. split; [split; [done|by rewrite En]|].
    intros (m & b' & Hb' & Hv')%live_ids. destruct (decide (m = n)) as [->|Hne].
    + rewrite Hb3 in Hb'. injection Hb' as <-. by apply (Hdis w).
    + cbn [s3 set_backend sv_backends] in Hb'. rewrite lookup_insert_ne in Hb' by done. apply Hne. by eapply (so_disjoint _ _ _ Hs2 m n b' b2 w).
  - apply H5. apply Hids in Hin as [Hin|Hin]; done.
Qed.

(** The status that an id gets when [st] is asked for: a commit or abort that is being written goes on, and so does the abort of a
    subtransaction. *)
Definition outcome (b : backend) (st : XidStatus) (w : Z) : XidStatus :=
  match b_work b with
  | Finishing st' _ => st'
  | Undoing v cs _ => if bool_decide (w ∈ v :: cs) then TRANSACTION_STATUS_ABORTED else st
  | _ => st
  end.

Lemma any_over s b v st :
  ok s -> sv_backends s !! n = Some b -> b_top b = Some v -> completions s + 2 < 2 ^ 64 -> final st ->
  exists s', over s s' b (outcome b st).
Proof.
  intros Hs Hb Ht Hc Hst. unfold outcome. destruct (b_work b) as [|x q|st' us|x cs us] eqn:Hw.
  - apply (working_over s b v st); try done. lia.
  - apply (recording_over s b v st x q); try done. lia.
  - apply (finishing_over s b v st' us); try done. lia.
  - by apply (undoing_over s b v st x cs us).
Qed.
End completion.

(** ** What holds of every run *)

(** C4 -- The server starts in order and stays in order.  After any crash the startup code, given a commit log that has the page of the
    next id, succeeds, keeps the status of every id that was assigned, and leaves a state that satisfies the
    invariant; and every state that the steps of any backends in any order lead to satisfies it: each id is run by one backend
    or has ended with a final status, the process array shows what runs, the commit log and [pg_subtrans]
    agree with the stacks of the backends, and the snapshots that may be used again are exact. *)
Theorem server_invariant lo oldest v procs max c t :
  can_start lo oldest v max c t ->
  exists s0, StartupXLOG oldest (CreateSharedProcArray procs max v) c t = Some s0 /\
    (forall x, in_window lo x -> x < value (nextXid v) -> status s0 x = status_of c (u32 x)) /\
    forall s, reachable lo s0 s -> server_ok lo (value (nextXid v)) s.
Proof.
  intros Hc. destruct (startup_ok lo oldest v procs max c t Hc) as (s0 & E & Hok & _ & _ & _ & Hold). exists s0.
  split; [done|]. split; [done|]. intros s. by apply reachable_ok.
Qed.

(** C14 -- No transaction hangs.  In every state that the server can be in, a backend that runs a transaction gets to its end by its own steps alone,
    whatever the others are doing and wherever it is interrupted: with nothing begun, between the assignment of a subtransaction's id and the recording of its parent, while it
    writes the pages of a commit or abort, or of the abort of a subtransaction (the counter of completions must have room for two more below [2^64]).
    Then its entry in the process array and its PGPROC are cleared, no entry and no cache of the array holds one of its ids, and all its ids have ended with their status
    in the commit log: aborted in the subtransaction that was being aborted, the status that was being written if there was one, and otherwise the
    status that is asked for. *)
Theorem transaction_completes lo N0 n s b v st :
  server_ok lo N0 s -> sv_backends s !! n = Some b -> b_top b = Some v -> completions s + 2 < 2 ^ 64 -> final st ->
  exists s', rtc (server_step lo n) s s' /\ sv_backends s' !! n = Some (set_ids None [] Working b) /\ cleared n (sv_array s') /\
    forall w, w ∈ ids b ->
      ended lo N0 s' w /\ u32 w ∉ pa_xids (sv_array s') /\ ~ cached s' w /\ status s' w = Some (outcome b st w).
Proof.
  intros Hs Hb Ht Hc Hst. destruct (any_over lo N0 n s b v st Hs Hb Ht Hc Hst) as (s' & H1 & H2 & H3 & H4 & H5).
  exists s'. do 3 (split; [done|]). intros w Hw. destruct (H5 w Hw) as [He E]. destruct (ended_not_shown lo N0 s' w H2 He). done.
Qed.

(** ** An example *)

(** Three processes; the next id is 700, and 600 committed before the server went down. *)
Module RunExample.
Import ArrayExample.

Definition old_log : clog := {[0 := TransactionIdSetStatusBit false 600 TRANSACTION_STATUS_COMMITTED 0 zero_clog_page]}.
Definition counters : TransamVariablesData := set_nextXid (FullXid 700) VarsupShmemInit.

Lemma starts : can_start 0 700 counters 8 old_log ∅.
Proof.
  split.
  - exists (FullXid 699). split; [by vm_compute|]. split; [cbn; lia|]. split; [split; [cbn; lia|by vm_compute]|]. split; [cbn; lia|by vm_compute].
  - split; [split; [cbn; lia|by vm_compute]|]. cbn. lia.
  - done.
  - apply map_Forall_singleton. split; vm_compute; done.
  - intros _. by eexists.
  - apply map_Forall_empty.
  - lia.
Qed.

Definition started : server :=
  default {| sv_array := start; sv_log := ∅; sv_subtrans := ∅; sv_backends := ∅ |}
    (StartupXLOG 700 (CreateSharedProcArray [idle; idle; idle] 8 counters) old_log ∅).

(** Backend 2 starts the transaction 700, backend 1 the transaction 701 with the subtransaction 702 and commits. *)
Definition morning : list (nat * action) :=
  [(0, Connect); (1, Connect); (2, Connect); (2, AssignTop); (1, AssignTop); (1, AssignSub 701); (1, RecordParent);
   (1, Finish TRANSACTION_STATUS_COMMITTED); (1, WritePage); (1, End)]%nat.

Definition noon : server := default started (run 0 morning started).

Lemma noon_reached : run 0 morning started = Some noon.
Proof. unfold noon. destruct (run 0 morning started) as [s|] eqn:E; [done|]. by vm_compute in E. Qed.

Lemma noon_ok : server_ok 0 700 noon.
Proof.
  destruct (startup_ok 0 700 counters [idle; idle; idle] 8 old_log ∅ starts) as (s0 & E & Hok & _).
  apply (reachable_ok 0 700 started); [unfold started; by rewrite E|]. eapply run_reachable, noon_reached.
Qed.

Lemma server_invariant_witness : server_ok 0 700 noon.
Proof.
  destruct (server_invariant 0 700 counters [idle; idle; idle] 8 old_log ∅ starts) as (s0 & E & _ & Hok).
  apply Hok. replace s0 with started by (unfold started; by rewrite E). eapply run_reachable, noon_reached.
Defined.

(** The transaction 700 of backend 2 can commit, also when it has just assigned the id 703 to a subtransaction. *)
Definition late : server := default noon (run 0 [(2, AssignSub 700)]%nat noon).

Lemma late_ok : server_ok 0 700 late.
Proof.
  apply (reachable_ok 0 700 noon); [apply noon_ok|]. eapply (run_reachable 0 [(2, AssignSub 700)]%nat). unfold late.
  destruct (run 0 _ noon) as [s|] eqn:E; [done|]. by vm_compute in E.
Qed.

Lemma transaction_completes_witness :
  exists s', rtc (server_step 0 2) late s' /\ status s' 700 = Some TRANSACTION_STATUS_COMMITTED /\
    status s' 703 = Some TRANSACTION_STATUS_COMMITTED /\ 700 ∉ pa_xids (sv_array s').
Proof.
  destruct (sv_backends late !! 2%nat) as [b|] eqn:Hb; [|exfalso; by vm_compute in Hb].
  assert (Ht : option_map b_top (sv_backends late !! 2%nat) = Some (Some 700)) by by vm_compute.
  assert (Hw : option_map b_work (sv_backends late !! 2%nat) = Some (Recording 703 700)) by by vm_compute.
  rewrite Hb in Ht, Hw. injection Ht as Ht. injection Hw as Hw.
  destruct (transaction_completes 0 700 2 late b 700 TRANSACTION_STATUS_COMMITTED late_ok Hb Ht) as (s' & H1 & _ & _ & H2).
  - by vm_compute.
  - by left.
  - assert (H700 : 700 ∈ ids b) by (unfold ids; rewrite Ht; by left).
    assert (H703 : 703 ∈ ids b) by (unfold ids, sub_ids, pending; rewrite Hw; apply elem_of_app; right; apply elem_of_app; right; by left).
    unfold outcome in H2. rewrite Hw in H2. exists s'. split; [exact H1|]. split; [by apply H2|]. split; [by apply H2|]. by apply (H2 700 H700).
Defined.
End RunExample.
