(* ===== verification/Visibility.v ===== *)
(** * Tuple visibility

    [src/postgresql/src/backend/access/heap/heapam_visibility.c]: for every kind of
    snapshot, the function that decides whether a heap tuple is visible, and
    the ones for VACUUM and UPDATE; all of them may set hint bits.  With them
    come [MultiXactIdIsRunning] of [multixact.c] and [HeapTupleGetUpdateXid] of
    [heapam.c].

    The functions read shared transaction state that other backends change
    while they run.  Each read of it therefore happens at an instant of its
    own: the answers are functions of a clock, and every read advances the
    clock of the computation.  The class [XactEnv] lists what the functions use
    of other parts of the system. *)
From S2P Require Import Prelude TransactionId ItemPtr HeapTuple Snapshot.
Local Open Scope Z_scope.

Inductive TM_Result :=
| TM_Ok
| TM_Invisible
| TM_SelfModified
| TM_Updated
| TM_Deleted
| TM_BeingModified
| TM_WouldBlock.

Inductive HTSV_Result :=
| HEAPTUPLE_DEAD
| HEAPTUPLE_LIVE
| HEAPTUPLE_RECENTLY_DEAD
| HEAPTUPLE_INSERT_IN_PROGRESS
| HEAPTUPLE_DELETE_IN_PROGRESS.

#[export] Instance HTSV_Result_eq_dec : EqDecision HTSV_Result.
Proof. solve_decision. Defined.
#[export] Instance TM_Result_eq_dec : EqDecision TM_Result.
Proof. solve_decision. Defined.

(** What one backend sees.  Instants are natural numbers. *)
Class XactEnv := {
  TransactionIdIsCurrentTransactionId : TransactionId -> bool;
  xact_in_progress : nat -> TransactionId -> bool;
  xact_did_commit : nat -> TransactionId -> bool;
  xact_commit_lsn : nat -> TransactionId -> Z;
  xlog_needs_flush : nat -> Z -> bool;
  BufferIsPermanent : bool;
  buffer_lsn : nat -> Z;
  GetMultiXactIdMembers : MultiXactId -> bool -> list MultiXactMember;
  real_cmin : CommandId -> CommandId;
  real_cmax : CommandId -> CommandId;
  topmost_xid : TransactionId -> TransactionId;
  resolve_cids : HeapTupleData -> option (CommandId * CommandId)
}.

(** The state of a visibility check: the clock, the tuple header in the shared
    buffer, and whether the buffer was marked dirty. *)
Record vstate := VS { clock : nat; tup : HeapTupleHeaderData; dirty : bool }.

Definition V (A : Type) : Type := vstate -> A * vstate.
Definition vret {A} (a : A) : V A := fun st => (a, st).
Definition vbind {A B} (c : V A) (k : A -> V B) : V B := fun st => let (a, st') := c st in k a st'.
Definition vtup : V HeapTupleHeaderData := fun st => (tup st, st).
(** A read of shared state at the current instant. *)
Definition vask {A} (f : nat -> A) : V A := fun st => (f (clock st), VS (S (clock st)) (tup st) (dirty st)).

Notation "'let*' x := c 'in' k" := (vbind c (fun x => k))
  (at level 10, x name, c at level 100, k at level 200) : epi_scope.
Notation "c ;;; k" := (vbind c (fun _ => k)) (at level 100, right associativity) : epi_scope.

Section visibility.
Context `{env : XactEnv}.

Definition TransactionIdIsInProgress (x : TransactionId) : V bool := vask (fun t => xact_in_progress t x).
Definition TransactionIdDidCommit (x : TransactionId) : V bool := vask (fun t => xact_did_commit t x).

Definition InMVCCSnapshot (x : TransactionId) (s : SnapshotData) : bool := XidInMVCCSnapshot topmost_xid x s.

(** ** Hint bits *)

Definition SetHintBits (infomask : Z) (x : TransactionId) : V unit :=
  let* skip :=
    (if TransactionIdIsValid x then
       let* commitLSN := vask (fun t => xact_commit_lsn t x) in
       if BufferIsPermanent then
         let* needs := vask (fun t => xlog_needs_flush t commitLSN) in
         if needs then
           let* lsn := vask buffer_lsn in
           vret (lsn <? commitLSN)
         else vret false
       else vret false
     else vret false) in
  if skip then vret tt
  else fun st => (tt, VS (clock st) (set_infomask (Z.lor (t_infomask (tup st)) infomask) (tup st)) true).

Definition HeapTupleSetHintBits (infomask : Z) (x : TransactionId) : V unit := SetHintBits infomask x.

(** ** Multixacts and command ids *)

Definition MultiXactIdGetUpdateXid (xmax : TransactionId) : TransactionId :=
  match find (fun mem => ISUPDATE_from_mxstatus (mx_status mem)) (GetMultiXactIdMembers xmax false) with
  | Some mem => mx_xid mem
  | None => InvalidTransactionId
  end.

Definition HeapTupleGetUpdateXid (tuple : HeapTupleHeaderData) : TransactionId :=
  MultiXactIdGetUpdateXid (HeapTupleHeaderGetRawXmax tuple).

Definition HeapTupleHeaderGetUpdateXid (tuple : HeapTupleHeaderData) : TransactionId :=
  if negb (tst (t_infomask tuple) HEAP_XMAX_INVALID) && tst (t_infomask tuple) HEAP_XMAX_IS_MULTI &&
     negb (tst (t_infomask tuple) HEAP_XMAX_LOCK_ONLY)
  then HeapTupleGetUpdateXid tuple else HeapTupleHeaderGetRawXmax tuple.

Fixpoint any_in_progress (members : list MultiXactMember) : V bool :=
  match members with
  | [] => vret false
  | mem :: rest =>
      let* r := TransactionIdIsInProgress (mx_xid mem) in
      if r then vret true else any_in_progress rest
  end.

Definition MultiXactIdIsRunning (multi : MultiXactId) (isLockOnly : bool) : V bool :=
  let members := GetMultiXactIdMembers multi isLockOnly in
  if (length members =? 0)%nat then vret false
  else if existsb (fun mem => TransactionIdIsCurrentTransactionId (mx_xid mem)) members then vret true
  else any_in_progress members.

Definition HeapTupleHeaderGetCmin (t : HeapTupleHeaderData) : CommandId :=
  let cid := HeapTupleHeaderGetRawCommandId t in
  if tst (t_infomask t) HEAP_COMBOCID then real_cmin cid else cid.

Definition HeapTupleHeaderGetCmax (t : HeapTupleHeaderData) : CommandId :=
  let cid := HeapTupleHeaderGetRawCommandId t in
  if tst (t_infomask t) HEAP_COMBOCID then real_cmax cid else cid.

(** ** Tuples moved by pre-9.0 VACUUM FULL *)

(** The same two blocks of code open the checks below, with [running] either
    [TransactionIdIsInProgress] or the snapshot test; the result says whether
    the caller returns "not visible". *)
Definition check_moved_off (running : TransactionId -> V bool) : V bool :=
  let* tuple := vtup in
  let xvac := HeapTupleHeaderGetXvac tuple in
  if TransactionIdIsCurrentTransactionId xvac then vret true
  else
    let* r := running xvac in
    if negb r then
      let* c := TransactionIdDidCommit xvac in
      if c then SetHintBits HEAP_XMIN_INVALID InvalidTransactionId ;;; vret true
      else SetHintBits HEAP_XMIN_COMMITTED InvalidTransactionId ;;; vret false
    else vret false.

Definition check_moved_in (running : TransactionId -> V bool) : V bool :=
  let* tuple := vtup in
  let xvac := HeapTupleHeaderGetXvac tuple in
  if negb (TransactionIdIsCurrentTransactionId xvac) then
    let* r := running xvac in
    if r then vret true
    else
      let* c := TransactionIdDidCommit xvac in
      if c then SetHintBits HEAP_XMIN_COMMITTED InvalidTransactionId ;;; vret false
      else SetHintBits HEAP_XMIN_INVALID InvalidTransactionId ;;; vret true
  else vret false.

(** Return [r] when the check says "not visible", otherwise fall through. *)
Definition unless {R} (c : V bool) (r : R) : V (option R) :=
  let* b := c in vret (if b then Some r else None).

Definition early {R} (c : V (option R)) (k : V R) : V R :=
  let* r := c in match r with Some v => vret v | None => k end.

(** ** [HeapTupleSatisfiesSelf] *)

(** The tuple was inserted by the current transaction. *)
Definition own_tuple_visible : V bool :=
  let* tuple := vtup in
  if tst (t_infomask tuple) HEAP_XMAX_INVALID then vret true
  else if HEAP_XMAX_IS_LOCKED_ONLY (t_infomask tuple) then vret true
  else if tst (t_infomask tuple) HEAP_XMAX_IS_MULTI then
    let xmax := HeapTupleGetUpdateXid tuple in
    if negb (TransactionIdIsCurrentTransactionId xmax) then vret true else vret false
  else if negb (TransactionIdIsCurrentTransactionId (HeapTupleHeaderGetRawXmax tuple)) then
    SetHintBits HEAP_XMAX_INVALID InvalidTransactionId ;;; vret true
  else vret false.

Definition HeapTupleSatisfiesSelf_xmin : V (option bool) :=
  let* tuple := vtup in
  if negb (HeapTupleHeaderXminCommitted tuple) then
    if HeapTupleHeaderXminInvalid tuple then vret (Some false)
    else if tst (t_infomask tuple) HEAP_MOVED_OFF then
      unless (check_moved_off TransactionIdIsInProgress) false
    else if tst (t_infomask tuple) HEAP_MOVED_IN then
      unless (check_moved_in TransactionIdIsInProgress) false
    else if TransactionIdIsCurrentTransactionId (HeapTupleHeaderGetRawXmin tuple) then
      let* b := own_tuple_visible in vret (Some b)
    else
      let* r := TransactionIdIsInProgress (HeapTupleHeaderGetRawXmin tuple) in
      if r then vret (Some false)
      else
        let* c := TransactionIdDidCommit (HeapTupleHeaderGetRawXmin tuple) in
        if c then SetHintBits HEAP_XMIN_COMMITTED (HeapTupleHeaderGetRawXmin tuple) ;;; vret None
        else SetHintBits HEAP_XMIN_INVALID InvalidTransactionId ;;; vret (Some false)
  else vret None.

Definition HeapTupleSatisfiesSelf_xmax : V bool :=
  let* tuple := vtup in
  if tst (t_infomask tuple) HEAP_XMAX_INVALID then vret true
  else if tst (t_infomask tuple) HEAP_XMAX_COMMITTED then
    if HEAP_XMAX_IS_LOCKED_ONLY (t_infomask tuple) then vret true else vret false
  else if tst (t_infomask tuple) HEAP_XMAX_IS_MULTI then
    if HEAP_XMAX_IS_LOCKED_ONLY (t_infomask tuple) then vret true
    else
      let xmax := HeapTupleGetUpdateXid tuple in
      if TransactionIdIsCurrentTransactionId xmax then vret false
      else
        let* r := TransactionIdIsInProgress xmax in
        if r then vret true
        else
          let* c := TransactionIdDidCommit xmax in
          if c then vret false else vret true
  else if TransactionIdIsCurrentTransactionId (HeapTupleHeaderGetRawXmax tuple) then
    if HEAP_XMAX_IS_LOCKED_ONLY (t_infomask tuple) then vret true else vret false
  else
    let* r := TransactionIdIsInProgress (HeapTupleHeaderGetRawXmax tuple) in
    if r then vret true
    else
      let* c := TransactionIdDidCommit (HeapTupleHeaderGetRawXmax tuple) in
      if negb c then SetHintBits HEAP_XMAX_INVALID InvalidTransactionId ;;; vret true
      else if HEAP_XMAX_IS_LOCKED_ONLY (t_infomask tuple) then
        SetHintBits HEAP_XMAX_INVALID InvalidTransactionId ;;; vret true
      else SetHintBits HEAP_XMAX_COMMITTED (HeapTupleHeaderGetRawXmax tuple) ;;; vret false.

Definition HeapTupleSatisfiesSelf : V bool := early HeapTupleSatisfiesSelf_xmin HeapTupleSatisfiesSelf_xmax.

Definition HeapTupleSatisfiesAny : V bool := vret true.

(** ** [HeapTupleSatisfiesToast] *)

Definition HeapTupleSatisfiesToast : V bool :=
  let* tuple := vtup in
  early
    (if negb (HeapTupleHeaderXminCommitted tuple) then
       if HeapTupleHeaderXminInvalid tuple then vret (Some false)
       else if tst (t_infomask tuple) HEAP_MOVED_OFF then
         unless (check_moved_off TransactionIdIsInProgress) false
       else if tst (t_infomask tuple) HEAP_MOVED_IN then
         unless (check_moved_in TransactionIdIsInProgress) false
       else if negb (TransactionIdIsValid (HeapTupleHeaderGetXmin tuple)) then vret (Some false)
       else vret None
     else vret None)
    (vret true).

(** ** [HeapTupleSatisfiesUpdate] *)

Definition updated_or_deleted (self : ItemPointerData) (tuple : HeapTupleHeaderData) : TM_Result :=
  if negb (ItemPointerEquals self (t_ctid tuple)) then TM_Updated else TM_Deleted.

Definition self_modified (tuple : HeapTupleHeaderData) (curcid : CommandId) : TM_Result :=
  if HeapTupleHeaderGetCmax tuple >=? curcid then TM_SelfModified else TM_Invisible.

Definition HeapTupleSatisfiesUpdate_own (curcid : CommandId) : V TM_Result :=
  let* tuple := vtup in
  if HeapTupleHeaderGetCmin tuple >=? curcid then vret TM_Invisible
  else if tst (t_infomask tuple) HEAP_XMAX_INVALID then vret TM_Ok
  else if HEAP_XMAX_IS_LOCKED_ONLY (t_infomask tuple) then
    let xmax := HeapTupleHeaderGetRawXmax tuple in
    if tst (t_infomask tuple) HEAP_XMAX_IS_MULTI then
      let* r := MultiXactIdIsRunning xmax true in
      if r then vret TM_BeingModified else vret TM_Ok
    else
      let* r := TransactionIdIsInProgress xmax in
      if negb r then vret TM_Ok else vret TM_BeingModified
  else if tst (t_infomask tuple) HEAP_XMAX_IS_MULTI then
    let xmax := HeapTupleGetUpdateXid tuple in
    if negb (TransactionIdIsCurrentTransactionId xmax) then
      let* r := MultiXactIdIsRunning (HeapTupleHeaderGetRawXmax tuple) false in
      if r then vret TM_BeingModified else vret TM_Ok
    else vret (self_modified tuple curcid)
  else if negb (TransactionIdIsCurrentTransactionId (HeapTupleHeaderGetRawXmax tuple)) then
    SetHintBits HEAP_XMAX_INVALID InvalidTransactionId ;;; vret TM_Ok
  else vret (self_modified tuple curcid).

Definition HeapTupleSatisfiesUpdate_xmin (curcid : CommandId) : V (option TM_Result) :=
  let* tuple := vtup in
  if negb (HeapTupleHeaderXminCommitted tuple) then
    if HeapTupleHeaderXminInvalid tuple then vret (Some TM_Invisible)
    else if tst (t_infomask tuple) HEAP_MOVED_OFF then
      unless (check_moved_off TransactionIdIsInProgress) TM_Invisible
    else if tst (t_infomask tuple) HEAP_MOVED_IN then
      unless (check_moved_in TransactionIdIsInProgress) TM_Invisible
    else if TransactionIdIsCurrentTransactionId (HeapTupleHeaderGetRawXmin tuple) then
      let* r := HeapTupleSatisfiesUpdate_own curcid in vret (Some r)
    else
      let* r := TransactionIdIsInProgress (HeapTupleHeaderGetRawXmin tuple) in
      if r then vret (Some TM_Invisible)
      else
        let* c := TransactionIdDidCommit (HeapTupleHeaderGetRawXmin tuple) in
        if c then SetHintBits HEAP_XMIN_COMMITTED (HeapTupleHeaderGetRawXmin tuple) ;;; vret None
        else SetHintBits HEAP_XMIN_INVALID InvalidTransactionId ;;; vret (Some TM_Invisible)
  else vret None.

(** The multixact case; when there is no updating member and nobody is running,
    the code goes on with an invalid update id. *)
Definition HeapTupleSatisfiesUpdate_multi (self : ItemPointerData) (curcid : CommandId) : V TM_Result :=
  let* tuple := vtup in
  if HEAP_LOCKED_UPGRADED (t_infomask tuple) then vret TM_Ok
  else if HEAP_XMAX_IS_LOCKED_ONLY (t_infomask tuple) then
    let* r := MultiXactIdIsRunning (HeapTupleHeaderGetRawXmax tuple) true in
    if r then vret TM_BeingModified
    else SetHintBits HEAP_XMAX_INVALID InvalidTransactionId ;;; vret TM_Ok
  else
    let xmax := HeapTupleGetUpdateXid tuple in
    early
      (if negb (TransactionIdIsValid xmax) then
         let* r := MultiXactIdIsRunning (HeapTupleHeaderGetRawXmax tuple) false in
         vret (if r then Some TM_BeingModified else None)
       else vret None)
      (if TransactionIdIsCurrentTransactionId xmax then vret (self_modified tuple curcid)
       else
         let* r := MultiXactIdIsRunning (HeapTupleHeaderGetRawXmax tuple) false in
         if r then vret TM_BeingModified
         else
           let* c := TransactionIdDidCommit xmax in
           if c then vret (updated_or_deleted self tuple)
           else
             let* r := MultiXactIdIsRunning (HeapTupleHeaderGetRawXmax tuple) false in
             if negb r then SetHintBits HEAP_XMAX_INVALID InvalidTransactionId ;;; vret TM_Ok
             else vret TM_BeingModified).

Definition HeapTupleSatisfiesUpdate_xmax (self : ItemPointerData) (curcid : CommandId) : V TM_Result :=
  let* tuple := vtup in
  if tst (t_infomask tuple) HEAP_XMAX_INVALID then vret TM_Ok
  else if tst (t_infomask tuple) HEAP_XMAX_COMMITTED then
    if HEAP_XMAX_IS_LOCKED_ONLY (t_infomask tuple) then vret TM_Ok
    else vret (updated_or_deleted self tuple)
  else if tst (t_infomask tuple) HEAP_XMAX_IS_MULTI then HeapTupleSatisfiesUpdate_multi self curcid
  else if TransactionIdIsCurrentTransactionId (HeapTupleHeaderGetRawXmax tuple) then
    if HEAP_XMAX_IS_LOCKED_ONLY (t_infomask tuple) then vret TM_BeingModified
    else vret (self_modified tuple curcid)
  else
    let* r := TransactionIdIsInProgress (HeapTupleHeaderGetRawXmax tuple) in
    if r then vret TM_BeingModified
    else
      let* c := TransactionIdDidCommit (HeapTupleHeaderGetRawXmax tuple) in
      if negb c then SetHintBits HEAP_XMAX_INVALID InvalidTransactionId ;;; vret TM_Ok
      else if HEAP_XMAX_IS_LOCKED_ONLY (t_infomask tuple) then
        SetHintBits HEAP_XMAX_INVALID InvalidTransactionId ;;; vret TM_Ok
      else
        SetHintBits HEAP_XMAX_COMMITTED (HeapTupleHeaderGetRawXmax tuple) ;;;
        let* tuple := vtup in vret (updated_or_deleted self tuple).

Definition HeapTupleSatisfiesUpdate (self : ItemPointerData) (curcid : CommandId) : V TM_Result :=
  early (HeapTupleSatisfiesUpdate_xmin curcid) (HeapTupleSatisfiesUpdate_xmax self curcid).

(** ** [HeapTupleSatisfiesDirty] *)

Definition set_dirty_out (xm xM : TransactionId) (token : Z) (s : SnapshotData) : SnapshotData :=
  {| snapshot_type := snapshot_type s; xmin := xm; xmax := xM; xip := xip s; subxip := subxip s;
     suboverflowed := suboverflowed s; takenDuringRecovery := takenDuringRecovery s; curcid := curcid s;
     speculativeToken := token; vistest := vistest s |}.

(** The snapshot is also an output: the result carries its new value. *)
Definition HeapTupleSatisfiesDirty_xmin (s : SnapshotData) : V (option (bool * SnapshotData)) :=
  let* tuple := vtup in
  if negb (HeapTupleHeaderXminCommitted tuple) then
    if HeapTupleHeaderXminInvalid tuple then vret (Some (false, s))
    else if tst (t_infomask tuple) HEAP_MOVED_OFF then
      unless (check_moved_off TransactionIdIsInProgress) (false, s)
    else if tst (t_infomask tuple) HEAP_MOVED_IN then
      unless (check_moved_in TransactionIdIsInProgress) (false, s)
    else if TransactionIdIsCurrentTransactionId (HeapTupleHeaderGetRawXmin tuple) then
      let* b := own_tuple_visible in vret (Some (b, s))
    else
      let* r := TransactionIdIsInProgress (HeapTupleHeaderGetRawXmin tuple) in
      if r then
        vret (Some (true,
          set_dirty_out (HeapTupleHeaderGetRawXmin tuple) (xmax s)
            (if HeapTupleHeaderIsSpeculative tuple then HeapTupleHeaderGetSpeculativeToken tuple
             else speculativeToken s) s))
      else
        let* c := TransactionIdDidCommit (HeapTupleHeaderGetRawXmin tuple) in
        if c then SetHintBits HEAP_XMIN_COMMITTED (HeapTupleHeaderGetRawXmin tuple) ;;; vret None
        else SetHintBits HEAP_XMIN_INVALID InvalidTransactionId ;;; vret (Some (false, s))
  else vret None.

Definition HeapTupleSatisfiesDirty_xmax (s : SnapshotData) : V (bool * SnapshotData) :=
  let set_xmax := fun x => set_dirty_out (xmin s) x (speculativeToken s) s in
  let* tuple := vtup in
  if tst (t_infomask tuple) HEAP_XMAX_INVALID then vret (true, s)
  else if tst (t_infomask tuple) HEAP_XMAX_COMMITTED then
    if HEAP_XMAX_IS_LOCKED_ONLY (t_infomask tuple) then vret (true, s) else vret (false, s)
  else if tst (t_infomask tuple) HEAP_XMAX_IS_MULTI then
    if HEAP_XMAX_IS_LOCKED_ONLY (t_infomask tuple) then vret (true, s)
    else
      let xmax := HeapTupleGetUpdateXid tuple in
      if TransactionIdIsCurrentTransactionId xmax then vret (false, s)
      else
        let* r := TransactionIdIsInProgress xmax in
        if r then vret (true, set_xmax xmax)
        else
          let* c := TransactionIdDidCommit xmax in
          if c then vret (false, s) else vret (true, s)
  else if TransactionIdIsCurrentTransactionId (HeapTupleHeaderGetRawXmax tuple) then
    if HEAP_XMAX_IS_LOCKED_ONLY (t_infomask tuple) then vret (true, s) else vret (false, s)
  else
    let* r := TransactionIdIsInProgress (HeapTupleHeaderGetRawXmax tuple) in
    if r then
      if negb (HEAP_XMAX_IS_LOCKED_ONLY (t_infomask tuple))
      then vret (true, set_xmax (HeapTupleHeaderGetRawXmax tuple)) else vret (true, s)
    else
      let* c := TransactionIdDidCommit (HeapTupleHeaderGetRawXmax tuple) in
      if negb c then SetHintBits HEAP_XMAX_INVALID InvalidTransactionId ;;; vret (true, s)
      else if HEAP_XMAX_IS_LOCKED_ONLY (t_infomask tuple) then
        SetHintBits HEAP_XMAX_INVALID InvalidTransactionId ;;; vret (true, s)
      else SetHintBits HEAP_XMAX_COMMITTED (HeapTupleHeaderGetRawXmax tuple) ;;; vret (false, s).

Definition HeapTupleSatisfiesDirty (s : SnapshotData) : V (bool * SnapshotData) :=
  let s := set_dirty_out InvalidTransactionId InvalidTransactionId 0 s in
  early (HeapTupleSatisfiesDirty_xmin s) (HeapTupleSatisfiesDirty_xmax s).

(** ** [HeapTupleSatisfiesMVCC] *)

Definition HeapTupleSatisfiesMVCC_own (s : SnapshotData) : V bool :=
  let* tuple := vtup in
  if HeapTupleHeaderGetCmin tuple >=? curcid s then vret false
  else if tst (t_infomask tuple) HEAP_XMAX_INVALID then vret true
  else if HEAP_XMAX_IS_LOCKED_ONLY (t_infomask tuple) then vret true
  else if tst (t_infomask tuple) HEAP_XMAX_IS_MULTI then
    let xmax := HeapTupleGetUpdateXid tuple in
    if negb (TransactionIdIsCurrentTransactionId xmax) then vret true
    else if HeapTupleHeaderGetCmax tuple >=? curcid s then vret true else vret false
  else if negb (TransactionIdIsCurrentTransactionId (HeapTupleHeaderGetRawXmax tuple)) then
    SetHintBits HEAP_XMAX_INVALID InvalidTransactionId ;;; vret true
  else if HeapTupleHeaderGetCmax tuple >=? curcid s then vret true else vret false.

Definition HeapTupleSatisfiesMVCC_xmin (s : SnapshotData) : V (option bool) :=
  let* tuple := vtup in
  if negb (HeapTupleHeaderXminCommitted tuple) then
    if HeapTupleHeaderXminInvalid tuple then vret (Some false)
    else if tst (t_infomask tuple) HEAP_MOVED_OFF then
      unless (check_moved_off (fun x => vret (InMVCCSnapshot x s))) false
    else if tst (t_infomask tuple) HEAP_MOVED_IN then
      unless (check_moved_in (fun x => vret (InMVCCSnapshot x s))) false
    else if TransactionIdIsCurrentTransactionId (HeapTupleHeaderGetRawXmin tuple) then
      let* b := HeapTupleSatisfiesMVCC_own s in vret (Some b)
    else if InMVCCSnapshot (HeapTupleHeaderGetRawXmin tuple) s then vret (Some false)
    else
      let* c := TransactionIdDidCommit (HeapTupleHeaderGetRawXmin tuple) in
      if c then SetHintBits HEAP_XMIN_COMMITTED (HeapTupleHeaderGetRawXmin tuple) ;;; vret None
      else SetHintBits HEAP_XMIN_INVALID InvalidTransactionId ;;; vret (Some false)
  else if negb (HeapTupleHeaderXminFrozen tuple) && InMVCCSnapshot (HeapTupleHeaderGetRawXmin tuple) s
  then vret (Some false)
  else vret None.

Definition HeapTupleSatisfiesMVCC_xmax (s : SnapshotData) : V bool :=
  let* tuple := vtup in
  if tst (t_infomask tuple) HEAP_XMAX_INVALID then vret true
  else if HEAP_XMAX_IS_LOCKED_ONLY (t_infomask tuple) then vret true
  else if tst (t_infomask tuple) HEAP_XMAX_IS_MULTI then
    let xmax := HeapTupleGetUpdateXid tuple in
    if TransactionIdIsCurrentTransactionId xmax then
      if HeapTupleHeaderGetCmax tuple >=? curcid s then vret true else vret false
    else if InMVCCSnapshot xmax s then vret true
    else
      let* c := TransactionIdDidCommit xmax in
      if c then vret false else vret true
  else if negb (tst (t_infomask tuple) HEAP_XMAX_COMMITTED) then
    if TransactionIdIsCurrentTransactionId (HeapTupleHeaderGetRawXmax tuple) then
      if HeapTupleHeaderGetCmax tuple >=? curcid s then vret true else vret false
    else if InMVCCSnapshot (HeapTupleHeaderGetRawXmax tuple) s then vret true
    else
      let* c := TransactionIdDidCommit (HeapTupleHeaderGetRawXmax tuple) in
      if negb c then SetHintBits HEAP_XMAX_INVALID InvalidTransactionId ;;; vret true
      else SetHintBits HEAP_XMAX_COMMITTED (HeapTupleHeaderGetRawXmax tuple) ;;; vret false
  else if InMVCCSnapshot (HeapTupleHeaderGetRawXmax tuple) s then vret true
  else vret false.

Definition HeapTupleSatisfiesMVCC (s : SnapshotData) : V bool :=
  early (HeapTupleSatisfiesMVCC_xmin s) (HeapTupleSatisfiesMVCC_xmax s).

(** ** VACUUM *)

Definition HeapTupleHeaderIsOnlyLocked : V bool :=
  let* tuple := vtup in
  if tst (t_infomask tuple) HEAP_XMAX_INVALID then vret true
  else if tst (t_infomask tuple) HEAP_XMAX_LOCK_ONLY then vret true
  else if negb (TransactionIdIsValid (HeapTupleHeaderGetRawXmax tuple)) then vret true
  else if negb (tst (t_infomask tuple) HEAP_XMAX_IS_MULTI) then vret false
  else
    let xmax := HeapTupleGetUpdateXid tuple in
    if TransactionIdIsCurrentTransactionId xmax then vret false
    else
      let* r := TransactionIdIsInProgress xmax in
      if r then vret false
      else
        let* c := TransactionIdDidCommit xmax in
        if c then vret false else vret true.

(** The tuple was inserted by the current transaction. *)
Definition HeapTupleSatisfiesVacuum_own : V HTSV_Result :=
  let* tuple := vtup in
  if tst (t_infomask tuple) HEAP_XMAX_INVALID then vret HEAPTUPLE_INSERT_IN_PROGRESS
  else
    let* locked := (if HEAP_XMAX_IS_LOCKED_ONLY (t_infomask tuple) then vret true
                    else HeapTupleHeaderIsOnlyLocked) in
    if locked then vret HEAPTUPLE_INSERT_IN_PROGRESS
    else if TransactionIdIsCurrentTransactionId (HeapTupleHeaderGetUpdateXid tuple)
    then vret HEAPTUPLE_DELETE_IN_PROGRESS
    else vret HEAPTUPLE_INSERT_IN_PROGRESS.

Definition HeapTupleSatisfiesVacuumHorizon_xmin : V (option HTSV_Result) :=
  let* tuple := vtup in
  if negb (HeapTupleHeaderXminCommitted tuple) then
    if HeapTupleHeaderXminInvalid tuple then vret (Some HEAPTUPLE_DEAD)
    else if tst (t_infomask tuple) HEAP_MOVED_OFF then
      let xvac := HeapTupleHeaderGetXvac tuple in
      if TransactionIdIsCurrentTransactionId xvac then vret (Some HEAPTUPLE_DELETE_IN_PROGRESS)
      else
        let* r := TransactionIdIsInProgress xvac in
        if r then vret (Some HEAPTUPLE_DELETE_IN_PROGRESS)
        else
          let* c := TransactionIdDidCommit xvac in
          if c then SetHintBits HEAP_XMIN_INVALID InvalidTransactionId ;;; vret (Some HEAPTUPLE_DEAD)
          else SetHintBits HEAP_XMIN_COMMITTED InvalidTransactionId ;;; vret None
    else if tst (t_infomask tuple) HEAP_MOVED_IN then
      let xvac := HeapTupleHeaderGetXvac tuple in
      if TransactionIdIsCurrentTransactionId xvac then vret (Some HEAPTUPLE_INSERT_IN_PROGRESS)
      else
        let* r := TransactionIdIsInProgress xvac in
        if r then vret (Some HEAPTUPLE_INSERT_IN_PROGRESS)
        else
          let* c := TransactionIdDidCommit xvac in
          if c then SetHintBits HEAP_XMIN_COMMITTED InvalidTransactionId ;;; vret None
          else SetHintBits HEAP_XMIN_INVALID InvalidTransactionId ;;; vret (Some HEAPTUPLE_DEAD)
    else if TransactionIdIsCurrentTransactionId (HeapTupleHeaderGetRawXmin tuple) then
      let* r := HeapTupleSatisfiesVacuum_own in vret (Some r)
    else
      let* r := TransactionIdIsInProgress (HeapTupleHeaderGetRawXmin tuple) in
      if r then vret (Some HEAPTUPLE_INSERT_IN_PROGRESS)
      else
        let* c := TransactionIdDidCommit (HeapTupleHeaderGetRawXmin tuple) in
        if c then SetHintBits HEAP_XMIN_COMMITTED (HeapTupleHeaderGetRawXmin tuple) ;;; vret None
        else SetHintBits HEAP_XMIN_INVALID InvalidTransactionId ;;; vret (Some HEAPTUPLE_DEAD)
  else vret None.

(** The result with the value stored in [*dead_after]. *)
Definition HeapTupleSatisfiesVacuumHorizon_xmax : V (HTSV_Result * TransactionId) :=
  let* tuple := vtup in
  let raw := HeapTupleHeaderGetRawXmax tuple in
  let result := fun r => vret (r, InvalidTransactionId) in
  if tst (t_infomask tuple) HEAP_XMAX_INVALID then result HEAPTUPLE_LIVE
  else if HEAP_XMAX_IS_LOCKED_ONLY (t_infomask tuple) then
    if negb (tst (t_infomask tuple) HEAP_XMAX_COMMITTED) then
      if tst (t_infomask tuple) HEAP_XMAX_IS_MULTI then
        let* r := (if negb (HEAP_LOCKED_UPGRADED (t_infomask tuple))
                   then MultiXactIdIsRunning raw true else vret false) in
        if r then result HEAPTUPLE_LIVE
        else SetHintBits HEAP_XMAX_INVALID InvalidTransactionId ;;; result HEAPTUPLE_LIVE
      else
        let* r := TransactionIdIsInProgress raw in
        if r then result HEAPTUPLE_LIVE
        else SetHintBits HEAP_XMAX_INVALID InvalidTransactionId ;;; result HEAPTUPLE_LIVE
    else result HEAPTUPLE_LIVE
  else if tst (t_infomask tuple) HEAP_XMAX_IS_MULTI then
    let xmax := HeapTupleGetUpdateXid tuple in
    let* r := TransactionIdIsInProgress xmax in
    if r then result HEAPTUPLE_DELETE_IN_PROGRESS
    else
      let* c := TransactionIdDidCommit xmax in
      if c then vret (HEAPTUPLE_RECENTLY_DEAD, xmax)
      else
        let* r := MultiXactIdIsRunning raw false in
        if negb r then SetHintBits HEAP_XMAX_INVALID InvalidTransactionId ;;; result HEAPTUPLE_LIVE
        else result HEAPTUPLE_LIVE
  else if negb (tst (t_infomask tuple) HEAP_XMAX_COMMITTED) then
    let* r := TransactionIdIsInProgress raw in
    if r then result HEAPTUPLE_DELETE_IN_PROGRESS
    else
      let* c := TransactionIdDidCommit raw in
      if c then SetHintBits HEAP_XMAX_COMMITTED raw ;;; vret (HEAPTUPLE_RECENTLY_DEAD, raw)
      else SetHintBits HEAP_XMAX_INVALID InvalidTransactionId ;;; result HEAPTUPLE_LIVE
  else vret (HEAPTUPLE_RECENTLY_DEAD, raw).

Definition HeapTupleSatisfiesVacuumHorizon : V (HTSV_Result * TransactionId) :=
  early
    (let* r := HeapTupleSatisfiesVacuumHorizon_xmin in
     vret (option_map (fun r => (r, InvalidTransactionId)) r))
    HeapTupleSatisfiesVacuumHorizon_xmax.

Definition HeapTupleSatisfiesVacuum (OldestXmin : TransactionId) : V HTSV_Result :=
  let* res := HeapTupleSatisfiesVacuumHorizon in
  vret (if bool_decide (res.1 = HEAPTUPLE_RECENTLY_DEAD) then
          if TransactionIdPrecedes res.2 OldestXmin then HEAPTUPLE_DEAD else res.1
        else res.1).

Definition HeapTupleSatisfiesNonVacuumable (s : SnapshotData) : V bool :=
  let* res := HeapTupleSatisfiesVacuumHorizon in
  let r := if bool_decide (res.1 = HEAPTUPLE_RECENTLY_DEAD) then
             if vistest s res.2 then HEAPTUPLE_DEAD else res.1
           else res.1 in
  vret (negb (bool_decide (r = HEAPTUPLE_DEAD))).

(** [removable] is [GlobalVisTestIsRemovableXid] for the given [vistest]. *)
Definition HeapTupleIsSurelyDead (removable : TransactionId -> bool) (tuple : HeapTupleHeaderData) : bool :=
  if negb (HeapTupleHeaderXminCommitted tuple) then HeapTupleHeaderXminInvalid tuple
  else if tst (t_infomask tuple) HEAP_XMAX_INVALID then false
  else if HEAP_XMAX_IS_LOCKED_ONLY (t_infomask tuple) then false
  else if tst (t_infomask tuple) HEAP_XMAX_IS_MULTI then false
  else if negb (tst (t_infomask tuple) HEAP_XMAX_COMMITTED) then false
  else removable (HeapTupleHeaderGetRawXmax tuple).

(** ** Historic snapshots *)

(** The array is sorted, so [bsearch] decides membership. *)
Definition TransactionIdInArray (x : TransactionId) (l : list TransactionId) : bool :=
  (0 <? length l)%nat && existsb (Z.eqb x) l.

Definition HeapTupleSatisfiesHistoricMVCC_xmin (htup : HeapTupleData) (s : SnapshotData) : V (option bool) :=
  let* tuple := vtup in
  let xm := HeapTupleHeaderGetXmin tuple in
  if HeapTupleHeaderXminInvalid tuple then vret (Some false)
  else if TransactionIdInArray xm (subxip s) then
    match resolve_cids htup with
    | None => vret (Some false)
    | Some (cmin, _) => if cmin >=? curcid s then vret (Some false) else vret None
    end
  else if TransactionIdPrecedes xm (xmin s) then
    if negb (HeapTupleHeaderXminCommitted tuple) then
      let* c := TransactionIdDidCommit xm in
      if negb c then vret (Some false) else vret None
    else vret None
  else if TransactionIdFollowsOrEquals xm (xmax s) then vret (Some false)
  else if TransactionIdInArray xm (xip s) then vret None
  else vret (Some false).

Definition HeapTupleSatisfiesHistoricMVCC_xmax (htup : HeapTupleData) (s : SnapshotData) : V bool :=
  let* tuple := vtup in
  if tst (t_infomask tuple) HEAP_XMAX_INVALID then vret true
  else if HEAP_XMAX_IS_LOCKED_ONLY (t_infomask tuple) then vret true
  else
    let xM := if tst (t_infomask tuple) HEAP_XMAX_IS_MULTI then HeapTupleGetUpdateXid tuple
              else HeapTupleHeaderGetRawXmax tuple in
    if TransactionIdInArray xM (subxip s) then
      match resolve_cids htup with
      | None => vret true
      | Some (_, cmax) =>
          if cmax =? InvalidCommandId then vret true
          else if cmax >=? curcid s then vret true else vret false
      end
    else if TransactionIdPrecedes xM (xmin s) then
      if tst (t_infomask tuple) HEAP_XMAX_COMMITTED then vret false
      else let* c := TransactionIdDidCommit xM in vret (negb c)
    else if TransactionIdFollowsOrEquals xM (xmax s) then vret true
    else if TransactionIdInArray xM (xip s) then vret false
    else vret true.

Definition HeapTupleSatisfiesHistoricMVCC (htup : HeapTupleData) (s : SnapshotData) : V bool :=
  early (HeapTupleSatisfiesHistoricMVCC_xmin htup s) (HeapTupleSatisfiesHistoricMVCC_xmax htup s).

Definition HeapTupleSatisfiesVisibility (htup : HeapTupleData) (s : SnapshotData) : V (bool * SnapshotData) :=
  let keep := fun c : V bool => let* b := c in vret (b, s) in
  match snapshot_type s with
  | SNAPSHOT_MVCC => keep (HeapTupleSatisfiesMVCC s)
  | SNAPSHOT_SELF => keep HeapTupleSatisfiesSelf
  | SNAPSHOT_ANY => keep HeapTupleSatisfiesAny
  | SNAPSHOT_TOAST => keep HeapTupleSatisfiesToast
  | SNAPSHOT_DIRTY => HeapTupleSatisfiesDirty s
  | SNAPSHOT_HISTORIC_MVCC => keep (HeapTupleSatisfiesHistoricMVCC htup s)
  | SNAPSHOT_NON_VACUUMABLE => keep (HeapTupleSatisfiesNonVacuumable s)
  end.

End visibility.
