(* ===== verification/VisibilitySpec.v ===== *)
(** * What the visibility checks decide

    The class [XactLaws] states how the shared transaction state may change while
    a check runs: a transaction that is no longer in progress has its outcome
    recorded, for good.  On top of it: the hint bits on a tuple stay truthful
    and nothing else in the header changes; the MVCC check refines the
    definition of snapshot visibility, whatever the other backends do
    meanwhile; VACUUM calls a tuple dead only when no snapshot can see it. *)
From S2P Require Import Prelude TransactionId ItemPtr HeapTuple Snapshot Visibility.
Local Open Scope Z_scope.

(** ** Laws of the transaction state *)

(** The ids that may be found in storage at an instant are [known]; [committed] is the outcome of
    each transaction in the end.  The commit log is written before a transaction leaves the process array,
    so once a known id is not in progress the log answers with the outcome; the
    current transaction and its live subtransactions are in progress. *)
Class XactLaws `{env : XactEnv} := {
  known : nat -> TransactionId -> Prop;
  committed : TransactionId -> bool;
  known_mono : forall t t' x, known t x -> (t <= t')%nat -> known t' x;
  done_final : forall t t' x, known t x -> xact_in_progress t x = false -> (t <= t')%nat -> xact_did_commit t' x = committed x;
  done_stable : forall t t' x, known t x -> xact_in_progress t x = false -> (t <= t')%nat -> xact_in_progress t' x = false;
  current_in_progress : forall t x, TransactionIdIsCurrentTransactionId x = true -> xact_in_progress t x = true
}.

(** ** Reasoning about checks *)

Definition vwp {A} (c : V A) (Q : A -> vstate -> Prop) (st : vstate) : Prop :=
  let (a, st') := c st in Q a st'.

Lemma vwp_ret {A} (a : A) Q st : Q a st -> vwp (vret a) Q st.
Proof. done. Qed.
Lemma vwp_bind {A B} (c : V A) (k : A -> V B) Q st :
  vwp c (fun a st' => vwp (k a) Q st') st -> vwp (vbind c k) Q st.
Proof. unfold vwp, vbind. by destruct (c st). Qed.
Lemma vwp_tup Q st : Q (tup st) st -> vwp vtup Q st.
Proof. done. Qed.
Lemma vwp_ask {A} (f : nat -> A) Q st :
  Q (f (clock st)) (VS (S (clock st)) (tup st) (dirty st)) -> vwp (vask f) Q st.
Proof. done. Qed.
Lemma vwp_mono {A} (c : V A) (Q Q' : A -> vstate -> Prop) st :
  vwp c Q st -> (forall a st', Q a st' -> Q' a st') -> vwp c Q' st.
Proof. unfold vwp. destruct (c st). auto. Qed.

Section rules.
Context `{env : XactEnv}.

(** [SetHintBits] either sets the bits or, when the commit record might not
    reach the disk before the page, leaves the tuple alone. *)
Lemma vwp_hint bits x Q st :
  (forall t, (clock st <= t)%nat -> Q tt (VS t (tup st) (dirty st))) ->
  (forall t, (clock st <= t)%nat -> Q tt (VS t (set_infomask (Z.lor (t_infomask (tup st)) bits) (tup st)) true)) ->
  vwp (SetHintBits bits x) Q st.
Proof.
  intros Hskip Hset. unfold SetHintBits, vwp, vbind, vask, vret.
  destruct (TransactionIdIsValid x), BufferIsPermanent; simpl; try (apply Hset; lia).
  destruct (xlog_needs_flush _ _); simpl; [|apply Hset; lia].
  destruct (_ <? _); simpl; [apply Hskip|apply Hset]; lia.
Qed.

(** With no transaction to check, the bits are always set. *)
Lemma vwp_hint_always bits Q st :
  Q tt (VS (clock st) (set_infomask (Z.lor (t_infomask (tup st)) bits) (tup st)) true) ->
  vwp (SetHintBits bits InvalidTransactionId) Q st.
Proof. done. Qed.

End rules.

Ltac vstep :=
  lazymatch goal with
  | |- vwp (vbind _ _) _ _ => apply vwp_bind
  | |- vwp (vret _) _ _ => apply vwp_ret
  | |- vwp vtup _ _ => apply vwp_tup
  | |- vwp (vask _) _ _ => apply vwp_ask; cbn [clock tup dirty]
  | |- vwp (TransactionIdIsInProgress _) _ _ => apply vwp_ask; cbn [clock tup dirty]
  | |- vwp (TransactionIdDidCommit _) _ _ => apply vwp_ask; cbn [clock tup dirty]
  | |- vwp (SetHintBits _ InvalidTransactionId) _ _ => apply vwp_hint_always; cbn [clock tup dirty]
  | |- vwp (SetHintBits _ _) _ _ =>
      apply vwp_hint; cbn [clock tup dirty]; let t := fresh "t" in intros t ?
  | |- vwp (early _ _) _ _ => unfold early
  | |- vwp (unless _ _) _ _ => unfold unless
  | |- vwp (if ?b then _ else _) _ _ => destruct b eqn:?
  end.

(** ** Hint bits only *)

Definition HINT_MASK : Z :=
  Z.lor (Z.lor HEAP_XMIN_COMMITTED HEAP_XMIN_INVALID) (Z.lor HEAP_XMAX_COMMITTED HEAP_XMAX_INVALID).

(** [h'] is [h] with some more hint bits. *)
Definition hinted (h h' : HeapTupleHeaderData) : Prop :=
  exists b, Z.land b HINT_MASK = b /\ h' = set_infomask (Z.lor (t_infomask h) b) h.

Lemma set_infomask_id h : set_infomask (t_infomask h) h = h.
Proof. by destruct h. Qed.

Lemma hinted_refl h : hinted h h.
Proof. exists 0. split; [done|]. by rewrite Z.lor_0_r, set_infomask_id. Qed.

Lemma hinted_trans a b c : hinted a b -> hinted b c -> hinted a c.
Proof.
  intros (x & Hx & ->) (y & Hy & ->). exists (Z.lor x y). split.
  - by rewrite Z.land_lor_distr_l, Hx, Hy.
  - simpl. by rewrite Z.lor_assoc.
Qed.

Lemma hinted_bits b h : Z.land b HINT_MASK = b -> hinted h (set_infomask (Z.lor (t_infomask h) b) h).
Proof. intros H. by exists b. Qed.

(** A computation that reads the clock forward and only adds hint bits. *)
Definition hint_only {A} (c : V A) : Prop :=
  forall st, vwp c (fun _ st' => (clock st <= clock st')%nat /\ hinted (tup st) (tup st')) st.

Create HintDb hintonly.

Lemma hint_only_ret {A} (a : A) : hint_only (vret a).
Proof. intros st. split; [done|apply hinted_refl]. Qed.
Lemma hint_only_tup : hint_only vtup.
Proof. intros st. split; [done|apply hinted_refl]. Qed.
Lemma hint_only_ask {A} (f : nat -> A) : hint_only (vask f).
Proof. intros st. split; [simpl; lia|apply hinted_refl]. Qed.
Lemma hint_only_bind {A B} (c : V A) (k : A -> V B) :
  hint_only c -> (forall a, hint_only (k a)) -> hint_only (vbind c k).
Proof.
  intros Hc Hk st. apply vwp_bind. eapply vwp_mono; [apply Hc|]. simpl. intros a st1 [H1 H2].
  eapply vwp_mono; [apply Hk|]. simpl. intros b st2 [H3 H4]. split; [lia|by eapply hinted_trans].
Qed.
Lemma hint_only_if {A} (b : bool) (c d : V A) : hint_only c -> hint_only d -> hint_only (if b then c else d).
Proof. by destruct b. Qed.
Lemma hint_only_hint `{env : XactEnv} bits x : Z.land bits HINT_MASK = bits -> hint_only (SetHintBits bits x).
Proof.
  intros Hb st. apply vwp_hint; simpl; intros t Ht; (split; [done|]); [apply hinted_refl|by apply hinted_bits].
Qed.
Lemma hint_only_early {R} (c : V (option R)) (k : V R) : hint_only c -> hint_only k -> hint_only (early c k).
Proof. intros Hc Hk. apply hint_only_bind; [done|]. intros [r|]; [apply hint_only_ret|done]. Qed.

#[export] Hint Resolve hint_only_ret hint_only_tup hint_only_ask hint_only_bind hint_only_if hint_only_hint
  hint_only_early : hintonly.
#[export] Hint Extern 1 (Z.land _ HINT_MASK = _) => reflexivity : hintonly.

(** Walk through the structure of a check. *)
Ltac hint_walk :=
  cbv zeta;
  repeat lazymatch goal with
  | |- hint_only (early _ _) => apply hint_only_early
  | |- hint_only (vbind _ _) => apply hint_only_bind; [|intros ?]
  | |- hint_only (if _ then _ else _) => apply hint_only_if
  | |- hint_only (match ?x with Some _ => _ | None => _ end) => destruct x as [[??]|]
  | |- forall _, _ => intros ?
  | |- _ => solve [auto with hintonly]
  end.

Section hints_only.
Context `{env : XactEnv}.

Lemma hint_only_in_progress x : hint_only (TransactionIdIsInProgress x).
Proof. apply hint_only_ask. Qed.
Lemma hint_only_did_commit x : hint_only (TransactionIdDidCommit x).
Proof. apply hint_only_ask. Qed.
#[local] Hint Resolve hint_only_in_progress hint_only_did_commit : hintonly.

Lemma hint_only_any_in_progress l : hint_only (any_in_progress l).
Proof. induction l as [|m l IH]; simpl; hint_walk. Qed.
#[local] Hint Resolve hint_only_any_in_progress : hintonly.

Lemma hint_only_multi m lock : hint_only (MultiXactIdIsRunning m lock).
Proof. unfold MultiXactIdIsRunning. hint_walk. Qed.
#[local] Hint Resolve hint_only_multi : hintonly.

Lemma hint_only_moved_off running : (forall x, hint_only (running x)) -> hint_only (check_moved_off running).
Proof. intros H. unfold check_moved_off. hint_walk. Qed.
Lemma hint_only_moved_in running : (forall x, hint_only (running x)) -> hint_only (check_moved_in running).
Proof. intros H. unfold check_moved_in. hint_walk. Qed.
#[local] Hint Resolve hint_only_moved_off hint_only_moved_in : hintonly.

Lemma hint_only_unless {R} c (r : R) : hint_only c -> hint_only (unless c r).
Proof. intros H. unfold unless. hint_walk. Qed.
#[local] Hint Resolve hint_only_unless : hintonly.

Lemma hint_only_own : hint_only own_tuple_visible.
Proof. unfold own_tuple_visible. hint_walk. Qed.
#[local] Hint Resolve hint_only_own : hintonly.

Lemma hint_only_self : hint_only HeapTupleSatisfiesSelf.
Proof. unfold HeapTupleSatisfiesSelf, HeapTupleSatisfiesSelf_xmin, HeapTupleSatisfiesSelf_xmax. hint_walk. Qed.

Lemma hint_only_toast : hint_only HeapTupleSatisfiesToast.
Proof. unfold HeapTupleSatisfiesToast. hint_walk. Qed.

Lemma hint_only_update self c : hint_only (HeapTupleSatisfiesUpdate self c).
Proof.
  unfold HeapTupleSatisfiesUpdate, HeapTupleSatisfiesUpdate_xmin, HeapTupleSatisfiesUpdate_own,
    HeapTupleSatisfiesUpdate_xmax, HeapTupleSatisfiesUpdate_multi. hint_walk.
Qed.

Lemma hint_only_dirty s : hint_only (HeapTupleSatisfiesDirty s).
Proof. unfold HeapTupleSatisfiesDirty, HeapTupleSatisfiesDirty_xmin, HeapTupleSatisfiesDirty_xmax. hint_walk. Qed.

Lemma hint_only_mvcc s : hint_only (HeapTupleSatisfiesMVCC s).
Proof.
  unfold HeapTupleSatisfiesMVCC, HeapTupleSatisfiesMVCC_xmin, HeapTupleSatisfiesMVCC_own,
    HeapTupleSatisfiesMVCC_xmax. hint_walk.
Qed.

Lemma hint_only_only_locked : hint_only HeapTupleHeaderIsOnlyLocked.
Proof. unfold HeapTupleHeaderIsOnlyLocked. hint_walk. Qed.
#[local] Hint Resolve hint_only_only_locked : hintonly.

Lemma hint_only_horizon : hint_only HeapTupleSatisfiesVacuumHorizon.
Proof.
  unfold HeapTupleSatisfiesVacuumHorizon, HeapTupleSatisfiesVacuumHorizon_xmin,
    HeapTupleSatisfiesVacuum_own, HeapTupleSatisfiesVacuumHorizon_xmax. hint_walk.
Qed.
#[local] Hint Resolve hint_only_horizon : hintonly.

Lemma hint_only_historic htup s : hint_only (HeapTupleSatisfiesHistoricMVCC htup s).
Proof.
  unfold HeapTupleSatisfiesHistoricMVCC, HeapTupleSatisfiesHistoricMVCC_xmin, HeapTupleSatisfiesHistoricMVCC_xmax.
  hint_walk.
Qed.

(** Hint bits only.  Whatever the snapshot type, the transaction state
    and the tuple (tuples moved by old versions included), a visibility check,
    the check for UPDATE and the one for VACUUM change nothing in the tuple
    header but the four hint bits, and only by setting them. *)
Theorem visibility_sets_only_hints htup s self cid oldest :
  hint_only (HeapTupleSatisfiesVisibility htup s) /\
  hint_only (HeapTupleSatisfiesUpdate self cid) /\
  hint_only (HeapTupleSatisfiesVacuum oldest).
Proof.
  split; [|split].
  - unfold HeapTupleSatisfiesVisibility, HeapTupleSatisfiesAny, HeapTupleSatisfiesNonVacuumable.
    destruct (snapshot_type s); hint_walk;
      auto using hint_only_mvcc, hint_only_self, hint_only_toast, hint_only_dirty, hint_only_historic.
  - apply hint_only_update.
  - unfold HeapTupleSatisfiesVacuum. hint_walk.
Qed.

End hints_only.

(** ** Truthful hints *)

Section meaning.
Context `{laws : XactLaws}.

Definition done_at (t : nat) (x : TransactionId) : Prop := known t x /\ xact_in_progress t x = false.

Lemma done_mono t t' x : done_at t x -> (t <= t')%nat -> done_at t' x.
Proof. intros [Hk Hd] Ht. split; [by eapply known_mono|by eapply done_stable]. Qed.

Lemma done_not_current t x : done_at t x -> TransactionIdIsCurrentTransactionId x = false.
Proof.
  intros [_ H]. destruct (TransactionIdIsCurrentTransactionId x) eqn:E; [|done].
  by rewrite (current_in_progress t x E) in H.
Qed.

(** The transaction that updated or deleted the tuple, if any. *)
Definition updater (h : HeapTupleHeaderData) : option TransactionId :=
  if tst (t_infomask h) HEAP_XMAX_INVALID then None
  else if HEAP_XMAX_IS_LOCKED_ONLY (t_infomask h) then None
  else if tst (t_infomask h) HEAP_XMAX_IS_MULTI then Some (HeapTupleGetUpdateXid h)
  else Some (HeapTupleHeaderGetRawXmax h).

Definition frozen (h : HeapTupleHeaderData) : bool := HeapTupleHeaderXminFrozen h.

(** The transactions that hold the xmax of a tuple. *)
Definition holds_xmax (h : HeapTupleHeaderData) (x : TransactionId) : Prop :=
  if tst (t_infomask h) HEAP_XMAX_IS_MULTI then
    (tst (t_infomask h) HEAP_XMAX_LOCK_ONLY = false /\ x = HeapTupleGetUpdateXid h) \/ exists lock m, m ∈ GetMultiXactIdMembers (t_xmax h) lock /\ mx_xid m = x
  else x = t_xmax h.

(** The updater is known to have come to nothing. *)
Definition update_void (t : nat) (h : HeapTupleHeaderData) : Prop :=
  forall u, updater h = Some u -> done_at t u /\ committed u = false.

(** A tuple as the current version writes them, with truthful hint bits; only the
    transaction itself updates a tuple that is not committed yet. *)
Record tuple_ok (t : nat) (h : HeapTupleHeaderData) : Prop := {
  ok_known_xmin : frozen h = false -> known t (t_xmin h);
  ok_known_xmax : tst (t_infomask h) HEAP_XMAX_INVALID = false -> forall x, holds_xmax h x -> known t x;
  ok_not_moved_off : tst (t_infomask h) HEAP_MOVED_OFF = false;
  ok_not_moved_in : tst (t_infomask h) HEAP_MOVED_IN = false;
  ok_xmin_committed : tst (t_infomask h) HEAP_XMIN_COMMITTED = true ->
    tst (t_infomask h) HEAP_XMIN_INVALID = false -> done_at t (t_xmin h) /\ committed (t_xmin h) = true;
  ok_xmin_invalid : tst (t_infomask h) HEAP_XMIN_COMMITTED = false ->
    tst (t_infomask h) HEAP_XMIN_INVALID = true -> done_at t (t_xmin h) /\ committed (t_xmin h) = false;
  ok_xmax_committed : tst (t_infomask h) HEAP_XMAX_COMMITTED = true ->
    forall u, updater h = Some u -> done_at t u /\ committed u = true;
  ok_own : tst (t_infomask h) HEAP_XMIN_COMMITTED = false ->
    TransactionIdIsCurrentTransactionId (t_xmin h) = true ->
    forall u, updater h = Some u ->
      TransactionIdIsCurrentTransactionId u = true \/ (done_at t u /\ committed u = false)
}.

(** From [st] to [st'] time has passed and the tuple, still truthful, means the
    same, except that an updater that came to nothing may be gone. *)
Record evolves (st st' : vstate) : Prop := {
  ev_clock : (clock st <= clock st')%nat;
  ev_hinted : hinted (tup st) (tup st');
  ev_ok : tuple_ok (clock st') (tup st');
  ev_frozen : frozen (tup st') = frozen (tup st);
  ev_updater : updater (tup st') = updater (tup st) \/
    (updater (tup st') = None /\ update_void (clock st') (tup st))
}.

Lemma tuple_ok_mono t t' h : tuple_ok t h -> (t <= t')%nat -> tuple_ok t' h.
Proof.
  intros [K1 K2 ? ? H1 H2 H3 H4] Ht. split; [by eauto using known_mono|by eauto using known_mono|done|done|..].
  - intros A B. destruct (H1 A B). eauto using done_mono.
  - intros A B. destruct (H2 A B). eauto using done_mono.
  - intros A u B. destruct (H3 A u B). eauto using done_mono.
  - intros A B u C. destruct (H4 A B u C) as [|[? ?]]; eauto using done_mono.
Qed.

Lemma hint_mask_disjoint b k : Z.land b HINT_MASK = b -> Z.land HINT_MASK k = 0 -> tst b k = false.
Proof. intros <- Hk. unfold tst. by rewrite <- Z.land_assoc, Hk, Z.land_0_r. Qed.

(** A hint does not change whom the tuple refers to. *)
Lemma hinted_known t h h' :
  hinted h h' -> frozen h' = frozen h -> tuple_ok t h ->
  (frozen h' = false -> known t (t_xmin h')) /\
  (tst (t_infomask h') HEAP_XMAX_INVALID = false -> forall x, holds_xmax h' x -> known t x).
Proof.
  intros (b & Hb & ->) Hf [K1 K2 _ _ _ _ _ _]. cbn [t_infomask set_infomask]. split; [by rewrite Hf|].
  rewrite tst_lor. intros [HI _]%orb_false_iff x. unfold holds_xmax. cbn [t_infomask set_infomask].
  rewrite !tst_lor, (hint_mask_disjoint b HEAP_XMAX_IS_MULTI), (hint_mask_disjoint b HEAP_XMAX_LOCK_ONLY), !orb_false_r by done. exact (K2 HI x).
Qed.

Lemma evolves_trans a b c : evolves a b -> evolves b c -> evolves a c.
Proof.
  intros [C1 H1 O1 F1 U1] [C2 H2 O2 F2 U2]. split; [lia|by eapply hinted_trans|done|congruence|].
  destruct U2 as [->|[-> V2]].
  - destruct U1 as [|[? V1]]; [by left|right; split; [done|]].
    intros u Hu. destruct (V1 u Hu). eauto using done_mono.
  - right. split; [done|]. destruct U1 as [E|[E V1]].
    + intros u Hu. apply V2. congruence.
    + intros u Hu. destruct (V1 u Hu). eauto using done_mono.
Qed.

Lemma evolves_time t t' h d d' : tuple_ok t h -> (t <= t')%nat -> evolves (VS t h d) (VS t' h d').
Proof. intros Hok Ht. split; simpl; auto using hinted_refl. by eapply tuple_ok_mono. Qed.

(** The fields and flags a hint leaves alone. *)
Lemma updater_xmin_hint h b :
  tst b HEAP_XMAX_INVALID = false -> tst b HEAP_XMAX_LOCK_ONLY = false -> tst b HEAP_XMAX_IS_MULTI = false ->
  tst b HEAP_XMAX_EXCL_LOCK = false -> tst b HEAP_XMAX_KEYSHR_LOCK = false ->
  updater (set_infomask (Z.lor (t_infomask h) b) h) = updater h.
Proof.
  intros H1 H2 H3 H4 H5. unfold updater. simpl.
  by rewrite !locked_only_bits, !tst_lor, H1, H2, H3, H4, H5, !orb_false_r.
Qed.

Lemma updater_xmax_invalid h :
  updater (set_infomask (Z.lor (t_infomask h) HEAP_XMAX_INVALID) h) = None.
Proof. unfold updater. simpl. rewrite tst_lor. flag_consts. by rewrite orb_true_r. Qed.

Ltac hint_flags :=
  cbn [t_infomask set_infomask t_xmin t_xmax]; rewrite ?tst_lor; flag_consts; rewrite ?orb_false_r, ?orb_true_r.

Lemma evolves_xmin_committed t t' h d :
  tuple_ok t h -> (t <= t')%nat ->
  tst (t_infomask h) HEAP_XMIN_COMMITTED = false -> tst (t_infomask h) HEAP_XMIN_INVALID = false ->
  done_at t' (t_xmin h) -> committed (t_xmin h) = true ->
  evolves (VS t h d) (VS t' (set_infomask (Z.lor (t_infomask h) HEAP_XMIN_COMMITTED) h) true).
Proof.
  intros Hok Ht HC HI Hd Hc. apply (tuple_ok_mono _ t') in Hok; [|done]. pose proof Hok as [_ _ M1 M2 K1 K2 K3 K4].
  assert (Hu : updater (set_infomask (Z.lor (t_infomask h) HEAP_XMIN_COMMITTED) h) = updater h)
    by (by apply updater_xmin_hint).
  set (h' := set_infomask (Z.lor (t_infomask h) HEAP_XMIN_COMMITTED) h) in *.
  assert (Hf : frozen h' = frozen h) by (by unfold h', frozen; rewrite !xmin_frozen_bits; hint_flags; rewrite HI, !andb_false_r).
  assert (Hh : hinted h h') by (by apply hinted_bits).
  destruct (hinted_known t' h h' Hh Hf Hok) as [N1 N2]. unfold h' in *.
  split; cbn [clock tup]; [done|done| |done|by left].
  split; [done|done|rewrite ?Hu; hint_flags; done..].
Qed.

Lemma evolves_xmin_invalid t t' h d :
  tuple_ok t h -> (t <= t')%nat ->
  tst (t_infomask h) HEAP_XMIN_COMMITTED = false ->
  done_at t' (t_xmin h) -> committed (t_xmin h) = false ->
  evolves (VS t h d) (VS t' (set_infomask (Z.lor (t_infomask h) HEAP_XMIN_INVALID) h) true).
Proof.
  intros Hok Ht HC Hd Hc. apply (tuple_ok_mono _ t') in Hok; [|done]. pose proof Hok as [_ _ M1 M2 K1 K2 K3 K4].
  assert (Hu : updater (set_infomask (Z.lor (t_infomask h) HEAP_XMIN_INVALID) h) = updater h)
    by (by apply updater_xmin_hint).
  set (h' := set_infomask (Z.lor (t_infomask h) HEAP_XMIN_INVALID) h) in *.
  assert (Hf : frozen h' = frozen h) by (by unfold h', frozen; rewrite !xmin_frozen_bits; hint_flags; rewrite HC).
  assert (Hh : hinted h h') by (by apply hinted_bits).
  destruct (hinted_known t' h h' Hh Hf Hok) as [N1 N2]. unfold h' in *.
  split; cbn [clock tup]; [done|done| |done|by left].
  split; [done|done|rewrite ?Hu; hint_flags; done..].
Qed.

Lemma evolves_xmax_invalid t t' h d :
  tuple_ok t h -> (t <= t')%nat -> update_void t' h ->
  evolves (VS t h d) (VS t' (set_infomask (Z.lor (t_infomask h) HEAP_XMAX_INVALID) h) true).
Proof.
  intros Hok Ht Hv. apply (tuple_ok_mono _ t') in Hok; [|done]. pose proof Hok as [_ _ M1 M2 K1 K2 K3 K4].
  pose proof (updater_xmax_invalid h) as Hu.
  set (h' := set_infomask (Z.lor (t_infomask h) HEAP_XMAX_INVALID) h) in *.
  assert (Hf : frozen h' = frozen h) by (by unfold h', frozen; rewrite !xmin_frozen_bits; hint_flags).
  assert (Hh : hinted h h') by (by apply hinted_bits).
  destruct (hinted_known t' h h' Hh Hf Hok) as [N1 N2]. unfold h' in *.
  split; cbn [clock tup]; [done|done| |done|by right].
  split; [done|done|rewrite ?Hu; hint_flags; done..].
Qed.

Lemma evolves_xmax_committed t t' h d :
  tuple_ok t h -> (t <= t')%nat ->
  (forall u, updater h = Some u -> done_at t' u /\ committed u = true) ->
  evolves (VS t h d) (VS t' (set_infomask (Z.lor (t_infomask h) HEAP_XMAX_COMMITTED) h) true).
Proof.
  intros Hok Ht Hc. apply (tuple_ok_mono _ t') in Hok; [|done]. pose proof Hok as [_ _ M1 M2 K1 K2 K3 K4].
  assert (Hu : updater (set_infomask (Z.lor (t_infomask h) HEAP_XMAX_COMMITTED) h) = updater h)
    by (by apply updater_xmin_hint).
  set (h' := set_infomask (Z.lor (t_infomask h) HEAP_XMAX_COMMITTED) h) in *.
  assert (Hf : frozen h' = frozen h) by (by unfold h', frozen; rewrite !xmin_frozen_bits; hint_flags).
  assert (Hh : hinted h h') by (by apply hinted_bits).
  destruct (hinted_known t' h h' Hh Hf Hok) as [N1 N2]. unfold h' in *.
  split; cbn [clock tup]; [done|done| |done|by left].
  split; [done|done|rewrite ?Hu; hint_flags; done..].
Qed.

(** ** Snapshot visibility *)

(** Who looks at the tuple: the transactions the observer calls its own, those
    its snapshot lists as running, and whether a command id of its own lies
    before its current command. *)
Record observer := {
  own : TransactionId -> bool;
  in_snap : TransactionId -> bool;
  cmin_before : HeapTupleHeaderData -> bool;
  cmax_before : HeapTupleHeaderData -> bool
}.

(** The snapshot is older than instant [t]: what it does not list has finished. *)
Record observer_ok (t : nat) (o : observer) : Prop := {
  own_running : forall t' x, (t <= t')%nat -> own o x = true -> xact_in_progress t' x = true;
  snap_done : forall t' x, known t' x -> own o x = false -> in_snap o x = false -> done_at t x;
  cid_stable : forall h h', hinted h h' ->
    cmin_before o h' = cmin_before o h /\ cmax_before o h' = cmax_before o h
}.

Definition inserted_before (o : observer) (h : HeapTupleHeaderData) : bool :=
  frozen h ||
  (if own o (t_xmin h) then cmin_before o h
   else negb (in_snap o (t_xmin h)) && committed (t_xmin h)).

Definition deleted_before (o : observer) (h : HeapTupleHeaderData) : bool :=
  match updater h with
  | None => false
  | Some u => if own o u then cmax_before o h else negb (in_snap o u) && committed u
  end.

(** A tuple is visible when its insertion took effect before the snapshot and
    its deletion did not. *)
Definition mvcc_visible (o : observer) (h : HeapTupleHeaderData) : bool :=
  inserted_before o h && negb (deleted_before o h).

Definition snapshot_observer (s : SnapshotData) : observer :=
  {| own := TransactionIdIsCurrentTransactionId;
     in_snap := fun x => InMVCCSnapshot x s;
     cmin_before := fun h => negb (HeapTupleHeaderGetCmin h >=? curcid s);
     cmax_before := fun h => negb (HeapTupleHeaderGetCmax h >=? curcid s) |}.

(** Every transaction that is ever known, that the snapshot does not list, and that is not the
    current one, had finished when the snapshot was taken. *)
Definition snapshot_ok (t : nat) (s : SnapshotData) : Prop :=
  forall t' x, known t' x -> TransactionIdIsCurrentTransactionId x = false -> InMVCCSnapshot x s = false -> done_at t x.

Lemma snapshot_observer_ok t s : snapshot_ok t s -> observer_ok t (snapshot_observer s).
Proof.
  intros Hs. split; simpl.
  - intros t' x _. apply current_in_progress.
  - exact Hs.
  - intros h h' (b & Hb & ->). unfold HeapTupleHeaderGetCmin, HeapTupleHeaderGetCmax. simpl.
    by rewrite tst_lor, (hint_mask_disjoint b HEAP_COMBOCID), orb_false_r.
Qed.

Lemma hinted_fields h h' : hinted h h' ->
  t_xmin h' = t_xmin h /\ t_xmax h' = t_xmax h /\ t_field3 h' = t_field3 h /\ t_ctid h' = t_ctid h.
Proof. by intros (b & _ & ->). Qed.

(** The meaning of a tuple does not change under a check. *)
Lemma evolves_inserted t o st st' :
  observer_ok t o -> evolves st st' -> inserted_before o (tup st') = inserted_before o (tup st).
Proof.
  intros Ho [_ Hh _ Hf _]. unfold inserted_before. rewrite Hf.
  destruct (hinted_fields _ _ Hh) as (-> & _), (cid_stable _ _ Ho _ _ Hh) as [-> _]. done.
Qed.

Lemma evolves_deleted t o st st' :
  observer_ok t o -> (t <= clock st)%nat -> evolves st st' ->
  deleted_before o (tup st') = deleted_before o (tup st).
Proof.
  intros Ho Ht [Hc Hh _ _ Hu]. unfold deleted_before. destruct (cid_stable _ _ Ho _ _ Hh) as [_ ->].
  destruct Hu as [->|[-> Hv]]; [done|]. destruct (updater (tup st)) as [u|] eqn:E; [|done].
  destruct (Hv u E) as [Hd ->]. rewrite andb_false_r.
  destruct (own o u) eqn:Eo; [|done]. destruct Hd as [_ Hd].
  by rewrite (own_running _ _ Ho (clock st') u) in Hd by (done || lia).
Qed.

Lemma evolves_visible t o st st' :
  observer_ok t o -> (t <= clock st)%nat -> evolves st st' -> mvcc_visible o (tup st') = mvcc_visible o (tup st).
Proof.
  intros. unfold mvcc_visible. by erewrite evolves_inserted, evolves_deleted by done.
Qed.

(** A finished transaction's log entry is its outcome. *)
Lemma did_commit_done t t' x : done_at t x -> (t <= t')%nat -> xact_did_commit t' x = committed x.
Proof. intros [? ?]. by apply done_final. Qed.

Lemma updater_locked h : HEAP_XMAX_IS_LOCKED_ONLY (t_infomask h) = true -> updater h = None.
Proof. intros E. unfold updater. rewrite E. by destruct (tst _ _). Qed.

Lemma not_committed_not_frozen h : tst (t_infomask h) HEAP_XMIN_COMMITTED = false -> frozen h = false.
Proof. intros E. unfold frozen. by rewrite xmin_frozen_bits, E. Qed.

End meaning.

(** Rewrite with every boolean fact of the context. *)
Ltac use_bools :=
  repeat match goal with
  | H : ?b = true |- context [?b] => rewrite H
  | H : ?b = false |- context [?b] => rewrite H
  end.

Ltac bool_hyps :=
  repeat match goal with
  | H : negb _ = true |- _ => apply negb_true_iff in H
  | H : negb _ = false |- _ => apply negb_false_iff in H
  | H : HeapTupleHeaderXminCommitted _ = _ |- _ => rewrite xmin_committed_bit in H
  | H : HeapTupleHeaderXminInvalid _ = true |- _ =>
      rewrite xmin_invalid_bits in H; apply andb_true_iff in H as [? ?]
  end.

(** Compute the updater of the tuple from the flag tests of the context. *)
Ltac updater_in H :=
  unfold updater, HeapTupleHeaderGetRawXmax in H;
  repeat match type of H with
  | context [if ?b then _ else _] =>
      first [ match goal with E : b = true |- _ => rewrite E in H end
            | match goal with E : b = false |- _ => rewrite E in H end
            | destruct b eqn:? ]
  end;
  simplify_eq.

Ltac case_updater :=
  match goal with
  | |- context [updater ?h] =>
      let u := fresh "u" in let E := fresh "Eu" in
      destruct (updater h) as [u|] eqn:E; updater_in E
  end.

(** ** Transactions that ran during a check *)

Section running.
Context `{laws : XactLaws}.

(** The transaction was running at some instant of the check. *)
Definition was_running (t t' : nat) (x : TransactionId) : Prop :=
  exists i, (t <= i <= t')%nat /\ xact_in_progress i x = true.

(** The insertion stands. *)
Definition inserted (t : nat) (h : HeapTupleHeaderData) : Prop :=
  frozen h = true \/ (done_at t (t_xmin h) /\ committed (t_xmin h) = true).

(** Facts about the tuple after some hints that hold of the tuple before. *)
Lemma evolves_void st st1 t' :
  evolves st st1 -> (clock st1 <= t')%nat -> update_void t' (tup st1) -> update_void t' (tup st).
Proof.
  intros [_ _ _ _ Hu] Ht. destruct Hu as [E|[_ V]]; unfold update_void; [by rewrite E|].
  intros _ v Hv. destruct (V v Hv). eauto using done_mono.
Qed.

Lemma evolves_updater st st1 : evolves st st1 -> forall u, updater (tup st1) = Some u -> updater (tup st) = Some u.
Proof. intros [_ _ _ _ Hu] u. destruct Hu as [->|[-> _]]; done. Qed.

Lemma evolves_inserted_stands st st1 t' : evolves st st1 -> inserted t' (tup st1) <-> inserted t' (tup st).
Proof.
  intros [_ Hh _ Hf _]. destruct (hinted_fields _ _ Hh) as (Hx & _). unfold inserted. by rewrite Hx, Hf.
Qed.

Lemma running_now t t' i x : (t <= i <= t')%nat -> xact_in_progress i x = true -> was_running t t' x.
Proof. intros. by exists i. Qed.

Lemma was_running_wider t t' i i' x :
  was_running t t' x -> (i <= t)%nat -> (t' <= i')%nat -> was_running i i' x.
Proof. intros (j & ? & ?) ? ?. exists j. split; [lia|done]. Qed.

Lemma current_running t t' x :
  (t <= t')%nat -> TransactionIdIsCurrentTransactionId x = true -> was_running t t' x.
Proof. intros Ht Hc. exists t. split; [lia|by apply current_in_progress]. Qed.

(** A transaction seen not running has its outcome in the log. *)
Lemma log_outcome t t' x b :
  done_at t x -> (t <= t')%nat -> xact_did_commit t' x = b -> done_at t' x /\ committed x = b.
Proof. intros Hr Ht <-. split; [by eapply done_mono|symmetry; by eapply did_commit_done]. Qed.

(** The ids of a tuple are known from the start of a check on. *)
Lemma tuple_knows t t' h :
  tuple_ok t h -> (t <= t')%nat ->
  (tst (t_infomask h) HEAP_XMIN_COMMITTED = false -> known t' (t_xmin h)) /\
  (tst (t_infomask h) HEAP_XMAX_INVALID = false -> forall x, holds_xmax h x -> known t' x).
Proof.
  intros Hok Ht. apply (tuple_ok_mono _ t') in Hok; [|done]. destruct Hok as [K1 K2 _ _ _ _ _ _]. split; [|done].
  intros HC. apply K1. by apply not_committed_not_frozen.
Qed.

Lemma update_xid_updater h :
  tst (t_infomask h) HEAP_XMAX_INVALID = false -> HEAP_XMAX_IS_LOCKED_ONLY (t_infomask h) = false ->
  updater h = Some (HeapTupleHeaderGetUpdateXid h).
Proof.
  intros Hi Hl. unfold updater, HeapTupleHeaderGetUpdateXid. rewrite Hi, Hl.
  rewrite locked_only_bits in Hl. apply orb_false_iff in Hl as [-> _].
  by destruct (tst _ HEAP_XMAX_IS_MULTI).
Qed.

(** The members of a multixact are asked one after the other. *)
Lemma vwp_any_in_progress members Q t t0 h d :
  (t0 <= t)%nat -> (forall m, m ∈ members -> known t (mx_xid m)) ->
  (forall t', (t <= t')%nat -> (forall m, m ∈ members -> done_at t' (mx_xid m)) -> Q false (VS t' h d)) ->
  (forall t' m, (t <= t')%nat -> m ∈ members -> was_running t0 t' (mx_xid m) -> Q true (VS t' h d)) ->
  vwp (any_in_progress members) Q (VS t h d).
Proof.
  revert t. induction members as [|m ms IH]; simpl; intros t Ht Hkn Hno Hyes.
  - apply vwp_ret, Hno; [done|]. intros m Hm. by apply elem_of_nil in Hm.
  - apply vwp_bind. vstep. destruct (xact_in_progress t (mx_xid m)) eqn:E.
    + apply vwp_ret, (Hyes _ m); [lia|by left|]. by apply (running_now t0 _ t); [lia|].
    + apply IH; [lia| | |].
      * intros m' Hm. eapply known_mono; [apply Hkn; by right|lia].
      * intros t' Ht' Hd. apply Hno; [lia|]. intros m' [->|Hm]%elem_of_cons; [|by apply Hd].
        apply (done_mono t); [|lia]. split; [apply Hkn; by left|done].
      * intros t' m' Ht' Hm. apply Hyes; [lia|by right].
Qed.

Lemma vwp_multi m lock Q t h d :
  (forall x, x ∈ GetMultiXactIdMembers m lock -> known t (mx_xid x)) ->
  (forall t', (t <= t')%nat -> (forall x, x ∈ GetMultiXactIdMembers m lock -> done_at t' (mx_xid x)) ->
     Q false (VS t' h d)) ->
  (forall t' x, (t <= t')%nat -> x ∈ GetMultiXactIdMembers m lock -> was_running t t' (mx_xid x) ->
     Q true (VS t' h d)) ->
  vwp (MultiXactIdIsRunning m lock) Q (VS t h d).
Proof.
  intros Hkn Hno Hyes. unfold MultiXactIdIsRunning.
  destruct (Nat.eqb_spec (length (GetMultiXactIdMembers m lock)) 0) as [E|_]; [|destruct (existsb _ _) eqn:E].
  - apply vwp_ret, Hno; [done|]. apply nil_length_inv in E. rewrite E. intros x Hx. by apply elem_of_nil in Hx.
  - apply existsb_exists in E as (x & Hx%list_elem_of_In & Hc). apply vwp_ret, (Hyes _ x); [done..|].
    by apply current_running.
  - by apply (vwp_any_in_progress _ _ _ t).
Qed.

End running.

Lemma not_locked_only m : HEAP_XMAX_IS_LOCKED_ONLY m = false -> tst m HEAP_XMAX_LOCK_ONLY = false.
Proof. rewrite locked_only_bits. by intros [? _]%orb_false_iff. Qed.

(** An id of the tuple is known. *)
Ltac xmax_holder :=
  unfold holds_xmax; use_bools;
  first [ reflexivity | right; eexists _, _; split; [eassumption|reflexivity]
        | left; split; [first [assumption | by apply not_locked_only]|reflexivity] ].
Ltac known_id :=
  match goal with
  | Hok : tuple_ok ?t ?h |- known ?t' (t_xmin ?h) => by apply (proj1 (tuple_knows t t' h Hok ltac:(lia)))
  | Hok : tuple_ok ?t ?h |- known ?t' _ => by apply (proj2 (tuple_knows t t' h Hok ltac:(lia)) ltac:(done)); xmax_holder
  end.

(** Symbolic execution, with the outcomes read from the log as facts. *)
Ltac vrun :=
  repeat ((first [ vstep
                 | lazymatch goal with |- vwp (MultiXactIdIsRunning _ _) _ _ =>
                     apply vwp_multi; [intros; known_id|intros..] end ]);
          cbn [tup clock dirty]);
  bool_hyps; try discriminate;
  repeat match goal with
  | R : xact_in_progress ?t ?x = false, C : xact_did_commit _ ?x = _ |- _ =>
      eapply (log_outcome t) in C as [? ?]; [|split; [known_id|exact R]|lia]
  end.

Ltac time_passes := apply evolves_time; [done|lia].
Ltac later := eapply done_mono; [done|lia].
Ltac find_updater := unfold updater, HeapTupleHeaderGetRawXmax; use_bools; done.
Ltac updater_done :=
  let u := fresh "u" in let Hu := fresh "Hu" in
  intros u Hu; updater_in Hu; (split; [later|done]).

Section refinement.
Context `{laws : XactLaws}.

Lemma mvcc_own_spec s t h d :
  tuple_ok t h -> tst (t_infomask h) HEAP_XMIN_COMMITTED = false ->
  TransactionIdIsCurrentTransactionId (t_xmin h) = true ->
  vwp (HeapTupleSatisfiesMVCC_own s)
    (fun b st' => evolves (VS t h d) st' /\ b = mvcc_visible (snapshot_observer s) h) (VS t h d).
Proof.
  intros Hok HC Hcur. unfold HeapTupleSatisfiesMVCC_own, HeapTupleHeaderGetRawXmax.
  pose proof (not_committed_not_frozen h HC) as Hfr.
  assert (Hv : forall u, updater h = Some u -> TransactionIdIsCurrentTransactionId u = false ->
            done_at t u /\ committed u = false).
  { intros u Hu Hn. destruct (ok_own _ _ Hok HC Hcur u Hu); [congruence|done]. }
  repeat (vstep; cbn [tup clock dirty]); bool_hyps;
    (split; [|unfold mvcc_visible, inserted_before, deleted_before; simpl; rewrite Hfr, Hcur; simpl; use_bools; simpl;
              try done; case_updater; try done; use_bools; try done;
              by destruct (Hv _ eq_refl) as [_ ->]; [|rewrite andb_false_r]]).
  all: try (apply evolves_time; [done|lia]).
  apply evolves_xmax_invalid; [done|lia|]. intros u Hu. apply Hv; [done|]. updater_in Hu. done.
Qed.

Lemma not_xmin_invalid h :
  tst (t_infomask h) HEAP_XMIN_COMMITTED = false -> HeapTupleHeaderXminInvalid h = false ->
  tst (t_infomask h) HEAP_XMIN_INVALID = false.
Proof. intros E. rewrite xmin_invalid_bits, E. done. Qed.

(** The verdict on the inserting transaction: an answer, or go on. *)
Definition xmin_verdict (o : observer) (h : HeapTupleHeaderData) (r : option bool) : Prop :=
  match r with
  | Some b => b = mvcc_visible o h
  | None => inserted_before o h = true
  end.

Lemma not_inserted o h : inserted_before o h = false -> mvcc_visible o h = false.
Proof. unfold mvcc_visible. by intros ->. Qed.

(** A committed hint that does not mean frozen is the outcome of xmin. *)
Lemma xmin_hint_outcome t h :
  tuple_ok t h -> tst (t_infomask h) HEAP_XMIN_COMMITTED = true -> HeapTupleHeaderXminFrozen h = false ->
  done_at t (t_xmin h) /\ committed (t_xmin h) = true.
Proof. rewrite xmin_frozen_bits. intros Hok HC HF. rewrite HC in HF. by apply ok_xmin_committed. Qed.

(** What the snapshot takes for finished has its outcome in the log. *)
Lemma snapshot_outcome s t0 t x b :
  snapshot_ok t0 s -> (t0 <= t)%nat -> known t x -> TransactionIdIsCurrentTransactionId x = false ->
  InMVCCSnapshot x s = false -> xact_did_commit t x = b -> done_at t x /\ committed x = b.
Proof.
  intros Hs Ht Hk Hc Hi. apply (log_outcome t0); [by apply (Hs t)|done].
Qed.

Lemma mvcc_xmin_spec s t0 t h d :
  snapshot_ok t0 s -> (t0 <= t)%nat -> tuple_ok t h ->
  vwp (HeapTupleSatisfiesMVCC_xmin s)
    (fun r st' => evolves (VS t h d) st' /\ xmin_verdict (snapshot_observer s) h r) (VS t h d).
Proof.
  intros Hs Ht Hok. unfold HeapTupleSatisfiesMVCC_xmin, HeapTupleHeaderGetRawXmin.
  repeat (vstep; cbn [tup clock dirty]); bool_hyps;
    try (rewrite (ok_not_moved_off _ _ Hok) in *; done); try (rewrite (ok_not_moved_in _ _ Hok) in *; done).
  all: try match goal with
    | H : xact_did_commit _ _ = _ |- _ => eapply snapshot_outcome in H as [? ?]; [|done|done|known_id|done|done]
    end.
  - split; [by apply evolves_time|]. apply eq_sym, not_inserted. unfold inserted_before; simpl.
    destruct (ok_xmin_invalid _ _ Hok) as [Hd Hc]; [done..|].
    by rewrite not_committed_not_frozen, (done_not_current t), Hc, andb_false_r by done.
  - eapply vwp_mono; [by apply mvcc_own_spec|done].
  - split; [by apply evolves_time|]. apply eq_sym, not_inserted. unfold inserted_before; simpl.
    rewrite not_committed_not_frozen by done. by use_bools.
  - split; [apply evolves_time; [done|lia]|]. unfold xmin_verdict, inserted_before; simpl. use_bools.
    apply orb_true_r.
  - split; [|unfold xmin_verdict, inserted_before; simpl; use_bools; apply orb_true_r].
    apply evolves_xmin_committed; [done|lia|done|by apply not_xmin_invalid|eapply done_mono; [done|lia]|done].
  - split; [apply evolves_xmin_invalid; [done|lia|done|eapply done_mono; [done|lia]|done]|].
    apply eq_sym, not_inserted. unfold inserted_before; simpl.
    rewrite not_committed_not_frozen by done. by use_bools.
  - b2p. split; [by apply evolves_time|]. apply eq_sym, not_inserted. unfold inserted_before; simpl.
    unfold frozen. use_bools. destruct (xmin_hint_outcome t h) as [Hd _]; [done..|].
    by rewrite (done_not_current t).
  - split; [by apply evolves_time|]. unfold xmin_verdict, inserted_before, frozen; simpl.
    destruct (HeapTupleHeaderXminFrozen h) eqn:HF; [done|]. simpl in *.
    destruct (xmin_hint_outcome t h) as [Hd Hc]; [done..|].
    rewrite (done_not_current t) by done. by use_bools.
Qed.

Lemma xmax_void_not_deleted s t h :
  update_void t h -> deleted_before (snapshot_observer s) h = false.
Proof.
  intros Hv. unfold deleted_before. destruct (updater h) as [u|] eqn:E; [|done].
  destruct (Hv u E) as [Hd Hc]. simpl. by rewrite (done_not_current t), Hc, andb_false_r.
Qed.

Lemma mvcc_xmax_spec s t0 t h d :
  snapshot_ok t0 s -> (t0 <= t)%nat -> tuple_ok t h ->
  vwp (HeapTupleSatisfiesMVCC_xmax s)
    (fun b st' => evolves (VS t h d) st' /\ b = negb (deleted_before (snapshot_observer s) h)) (VS t h d).
Proof.
  intros Hs Ht Hok. unfold HeapTupleSatisfiesMVCC_xmax, HeapTupleHeaderGetRawXmax.
  repeat (vstep; cbn [tup clock dirty]); bool_hyps.
  all: try match goal with
    | H : xact_did_commit _ _ = _ |- _ => eapply snapshot_outcome in H as [? ?]; [|done|done|known_id|done|done]
    end.
  all: split; [try (apply evolves_time; [done|lia])|].
  all: try (unfold deleted_before; case_updater; simpl; use_bools; done).
  1: apply evolves_xmax_invalid; [done|lia|]. 2: apply evolves_xmax_committed; [done|lia|].
  1, 2: intros u Hu; updater_in Hu; split; [eapply done_mono; [done|lia]|done].
  all: assert (Hu : updater h = Some (t_xmax h)) by (unfold updater, HeapTupleHeaderGetRawXmax; by use_bools).
  all: destruct (ok_xmax_committed _ _ Hok ltac:(done) _ Hu) as [Hd Hc].
  all: unfold deleted_before; rewrite Hu; simpl; rewrite (done_not_current t) by done; by use_bools.
Qed.

Lemma mvcc_spec s t0 t h d :
  snapshot_ok t0 s -> (t0 <= t)%nat -> tuple_ok t h ->
  vwp (HeapTupleSatisfiesMVCC s)
    (fun b st' => evolves (VS t h d) st' /\ b = mvcc_visible (snapshot_observer s) h) (VS t h d).
Proof.
  intros Hs Ht Hok. apply vwp_bind. eapply vwp_mono; [by eapply mvcc_xmin_spec|].
  intros [b|] [t1 h1 d1] [He Hr]; [done|]. simpl in Hr.
  eapply vwp_mono; [eapply (mvcc_xmax_spec s t0); [done| |by apply (ev_ok _ _ He)]; pose proof (ev_clock _ _ He); simpl in *; lia|].
  intros b st2 [He2 ->]. split; [by eapply evolves_trans|].
  unfold mvcc_visible. rewrite Hr. simpl. f_equal.
  by eapply (evolves_deleted t0 _ (VS t h d) (VS t1 h1 d1)); [apply snapshot_observer_ok|..].
Qed.

(** What other backends do to a tuple between two checks: they set hint bits
    and let time pass, or a transaction that the snapshot [s] lists, or that is too new
    for it, updates or deletes the tuple when no earlier update of it stands. *)
Inductive tuple_step (s : SnapshotData) (st st' : vstate) : Prop :=
| step_hint : evolves st st' -> tuple_step s st st'
| step_update u :
    (clock st <= clock st')%nat -> tuple_ok (clock st') (tup st') ->
    t_xmin (tup st') = t_xmin (tup st) -> frozen (tup st') = frozen (tup st) ->
    TransactionIdIsCurrentTransactionId (t_xmin (tup st)) = false ->
    update_void (clock st) (tup st) -> updater (tup st') = Some u ->
    TransactionIdIsCurrentTransactionId u = false -> InMVCCSnapshot u s = true ->
    tuple_step s st st'.

Lemma tuple_step_visible s t0 st st' :
  snapshot_ok t0 s -> (t0 <= clock st)%nat -> tuple_step s st st' ->
  (clock st <= clock st')%nat /\ tuple_ok (clock st') (tup st') /\
  mvcc_visible (snapshot_observer s) (tup st') = mvcc_visible (snapshot_observer s) (tup st).
Proof.
  intros Hs Ht [He|u Hc Hok Hx Hf Hn Hv Hu Hnu Hin].
  - split; [by apply ev_clock|]. split; [by apply (ev_ok _ _ He)|].
    eapply evolves_visible; [by apply snapshot_observer_ok|done..].
  - split; [done|]. split; [done|]. unfold mvcc_visible.
    rewrite (xmax_void_not_deleted s _ _ Hv). unfold inserted_before, deleted_before.
    rewrite Hf, Hx, Hu. simpl. by rewrite Hn, Hnu, Hin.
Qed.

Lemma tuple_steps_visible s t0 st st' :
  snapshot_ok t0 s -> (t0 <= clock st)%nat -> tuple_ok (clock st) (tup st) -> rtc (tuple_step s) st st' ->
  (clock st <= clock st')%nat /\ tuple_ok (clock st') (tup st') /\
  mvcc_visible (snapshot_observer s) (tup st') = mvcc_visible (snapshot_observer s) (tup st).
Proof.
  intros Hs Ht Hok Hr. induction Hr as [|x y z H1 H2 IH]; [done|].
  destruct (tuple_step_visible s t0 x y) as (Hc & Hok' & Hv); [done..|].
  destruct IH as (? & ? & Hv'); [lia|done|]. split; [lia|]. split; [done|congruence].
Qed.

(** C5 -- [HeapTupleSatisfiesMVCC] computes snapshot visibility: on a tuple with
    truthful hint bits it answers whether the insertion took effect before the
    snapshot and the deletion did not, however the other transactions progress
    while the check runs; afterwards the hints on the tuple are still truthful
    and the tuple means the same. *)
Theorem mvcc_refines s t0 st :
  snapshot_ok t0 s -> (t0 <= clock st)%nat -> tuple_ok (clock st) (tup st) ->
  fst (HeapTupleSatisfiesMVCC s st) = mvcc_visible (snapshot_observer s) (tup st) /\
  evolves st (snd (HeapTupleSatisfiesMVCC s st)).
Proof.
  destruct st as [t h d]. simpl. intros Hs Ht Hok. pose proof (mvcc_spec s t0 t h d Hs Ht Hok) as H.
  unfold vwp in H. destruct (HeapTupleSatisfiesMVCC s (VS t h d)). by destruct H.
Qed.

(** C29 -- Repeatable read: once a snapshot has seen, or has not seen, a tuple, the
    same snapshot gives the same answer at any later time, whatever hint bits
    other backends have set and whichever transactions outside the snapshot
    have updated or deleted the tuple in the meantime. *)
Theorem mvcc_repeatable s t0 st st' :
  snapshot_ok t0 s -> (t0 <= clock st)%nat -> tuple_ok (clock st) (tup st) ->
  rtc (tuple_step s) (snd (HeapTupleSatisfiesMVCC s st)) st' ->
  fst (HeapTupleSatisfiesMVCC s st') = fst (HeapTupleSatisfiesMVCC s st).
Proof.
  destruct st as [t h d]. simpl. intros Hs Ht Hok Hr. pose proof (mvcc_spec s t0 t h d Hs Ht Hok) as H.
  unfold vwp in H. destruct (HeapTupleSatisfiesMVCC s (VS t h d)) as [b st1]. destruct H as [He ->].
  simpl in *. pose proof (ev_clock _ _ He). pose proof (ev_ok _ _ He). simpl in *.
  destruct (tuple_steps_visible s t0 st1 st') as (Hc & Hok' & Hv); [done|lia|done..|].
  destruct st' as [t' h' d']. simpl in *.
  pose proof (mvcc_spec s t0 t' h' d' Hs ltac:(lia) Hok') as H'. unfold vwp in H'.
  destruct (HeapTupleSatisfiesMVCC s (VS t' h' d')). destruct H' as [_ ->]. simpl. rewrite Hv.
  eapply (evolves_visible t0 _ (VS t h d)); [by apply snapshot_observer_ok|done..].
Qed.

End refinement.

(** ** An example history

    Transaction 100 inserted a tuple and committed; 200 deletes it and commits at
    instant 5; 500 is the current transaction, whose snapshot was taken at instant 0. *)
Module VisExample.

Definition is_current (x : TransactionId) : bool := x =? 500.
Definition running (t : nat) (x : TransactionId) : bool := (x =? 500) || ((x =? 200) && (t <? 5)%nat).
Definition outcome (x : TransactionId) : bool := (x =? 100) || (x =? 200).

#[export] Instance history : XactEnv := {|
  TransactionIdIsCurrentTransactionId := is_current;
  xact_in_progress := running;
  xact_did_commit := fun t x => (x =? 100) || ((x =? 200) && (5 <=? t)%nat);
  xact_commit_lsn := fun _ _ => 0;
  xlog_needs_flush := fun _ _ => false;
  BufferIsPermanent := true;
  buffer_lsn := fun _ => 0;
  GetMultiXactIdMembers := fun _ _ => [];
  real_cmin := fun c => c;
  real_cmax := fun c => c;
  topmost_xid := fun x => x;
  resolve_cids := fun _ => None
|}.

#[export] Instance history_laws : XactLaws.
Proof.
  refine {| known := fun _ _ => True; committed := outcome |};
    cbn [history xact_in_progress xact_did_commit TransactionIdIsCurrentTransactionId]; unfold running, outcome, is_current.
  - done.
  - intros t t' x _. destruct (Z.eqb_spec x 100), (Z.eqb_spec x 200), (x =? 500), (Nat.ltb_spec t 5), (Nat.leb_spec 5 t');
      simpl; intros; done || lia.
  - intros t t' x _. destruct (x =? 500), (x =? 200), (Nat.ltb_spec t 5), (Nat.ltb_spec t' 5); simpl; intros; done || lia.
  - intros t x ->. done.
Defined.

Definition snap : SnapshotData :=
  {| snapshot_type := SNAPSHOT_MVCC; xmin := 200; xmax := 501; xip := [200]; subxip := []; suboverflowed := false;
     takenDuringRecovery := false; curcid := 1; speculativeToken := 0; vistest := fun _ => false |}.

Definition deleted_tuple : HeapTupleHeaderData :=
  {| t_xmin := 100; t_xmax := 200; t_field3 := 0; t_ctid := {| ip_blkid := {| bi_hi := 0; bi_lo := 0 |}; ip_posid := 1 |};
     t_infomask2 := 1; t_infomask := 0; t_hoff := 24; t_bits := [] |}.

Lemma snap_ok : snapshot_ok 0 snap.
Proof.
  intros t' x _ Hc Hi. split; [done|]. simpl in *. unfold is_current, running in *. rewrite Hc.
  destruct (Z.eqb_spec x 200) as [->|]; [by vm_compute in Hi|done].
Qed.

Lemma deleted_tuple_ok t : tuple_ok t deleted_tuple.
Proof. by split. Qed.

Lemma mvcc_refines_witness :
  fst (HeapTupleSatisfiesMVCC snap (VS 7 deleted_tuple false)) = true.
Proof.
  destruct (mvcc_refines snap 0 (VS 7 deleted_tuple false)) as [H _];
    [apply snap_ok|simpl; lia|apply deleted_tuple_ok|exact H].
Defined.

Definition seen_once : vstate := snd (HeapTupleSatisfiesMVCC snap (VS 1 deleted_tuple false)).

Lemma seen_once_ok t : tuple_ok t (tup seen_once).
Proof. by split. Qed.

(** After the deleter has committed and its hint bit is set, the snapshot still
    sees the tuple. *)
Lemma mvcc_repeatable_witness :
  fst (HeapTupleSatisfiesMVCC snap
         (VS 9 (set_infomask (Z.lor (t_infomask (tup seen_once)) HEAP_XMAX_COMMITTED) (tup seen_once)) true)) =
  fst (HeapTupleSatisfiesMVCC snap (VS 1 deleted_tuple false)).
Proof.
  apply (mvcc_repeatable snap 0); [apply snap_ok|simpl; lia|apply deleted_tuple_ok|].
  apply rtc_once, step_hint. change (snd _) with (VS 4 (tup seen_once) true).
  apply evolves_xmax_committed; [apply seen_once_ok|lia|]. intros u Hu. vm_compute in Hu. by simplify_eq.
Defined.

End VisExample.
