(* ===== verification/VacuumSpec.v ===== *)
(** * What VACUUM may remove

    [HeapTupleSatisfiesVacuumHorizon] classifies a tuple; the classes are stated here
    by what the inserting and the deleting transaction did.  A tuple called dead
    is invisible to every snapshot the horizon covers, now and later; a tuple
    called live is visible to every snapshot taken afterwards; the cheap check
    [HeapTupleIsSurelyDead] never claims more than the full one. *)
From S2P Require Import Prelude TransactionId ItemPtr HeapTuple Snapshot Visibility VisibilitySpec.
Local Open Scope Z_scope.

Section vacuum.
Context `{laws : XactLaws}.

(** What each result, with its [dead_after], says of a tuple examined between the
    instants [t] and [t']. *)
Inductive htsv_status (t t' : nat) (h : HeapTupleHeaderData) : HTSV_Result -> TransactionId -> Prop :=
| status_dead :
    frozen h = false -> done_at t' (t_xmin h) -> committed (t_xmin h) = false ->
    htsv_status t t' h HEAPTUPLE_DEAD InvalidTransactionId
| status_live :
    inserted t' h -> update_void t' h -> htsv_status t t' h HEAPTUPLE_LIVE InvalidTransactionId
| status_recently_dead u :
    inserted t' h -> updater h = Some u -> done_at t' u -> committed u = true ->
    htsv_status t t' h HEAPTUPLE_RECENTLY_DEAD u
| status_insert_in_progress :
    frozen h = false -> was_running t t' (t_xmin h) ->
    htsv_status t t' h HEAPTUPLE_INSERT_IN_PROGRESS InvalidTransactionId
| status_delete_in_progress u :
    updater h = Some u -> was_running t t' u ->
    htsv_status t t' h HEAPTUPLE_DELETE_IN_PROGRESS InvalidTransactionId.

Lemma vacuum_own_spec t h d :
  tuple_ok t h -> tst (t_infomask h) HEAP_XMIN_COMMITTED = false ->
  TransactionIdIsCurrentTransactionId (t_xmin h) = true ->
  vwp HeapTupleSatisfiesVacuum_own
    (fun r st' => evolves (VS t h d) st' /\ htsv_status t (clock st') h r InvalidTransactionId) (VS t h d).
Proof.
  intros Hok HC Hcur. unfold HeapTupleSatisfiesVacuum_own, HeapTupleHeaderIsOnlyLocked.
  pose proof (not_committed_not_frozen h HC) as Hfr.
  vrun; (split; [apply evolves_time; [done|lia]|]); simpl;
    first [ apply status_insert_in_progress; [done|apply current_running; [lia|done]]
          | eapply status_delete_in_progress; [by apply update_xid_updater|apply current_running; [lia|done]] ].
Qed.

Lemma vacuum_xmin_spec t h d :
  tuple_ok t h ->
  vwp HeapTupleSatisfiesVacuumHorizon_xmin
    (fun r st' => evolves (VS t h d) st' /\
       match r with
       | Some r => htsv_status t (clock st') h r InvalidTransactionId
       | None => inserted (clock st') h
       end) (VS t h d).
Proof.
  intros Hok. unfold HeapTupleSatisfiesVacuumHorizon_xmin, HeapTupleHeaderGetRawXmin.
  vrun; try (rewrite (ok_not_moved_off _ _ Hok) in *; done); try (rewrite (ok_not_moved_in _ _ Hok) in *; done).
  - split; [time_passes|]. destruct (ok_xmin_invalid _ _ Hok) as [Hd Hc]; [done..|].
    by apply status_dead; [apply not_committed_not_frozen|..].
  - eapply vwp_mono; [by apply vacuum_own_spec|done].
  - split; [time_passes|]. apply status_insert_in_progress; [by apply not_committed_not_frozen|].
    by eapply running_now; [|done]; lia.
  - split; [time_passes|]. right. split; [later|done].
  - split; [|right; split; [later|done]].
    apply evolves_xmin_committed; [done|lia|done|by apply not_xmin_invalid|later|done].
  - split; [apply evolves_xmin_invalid; [done|lia|done|later|done]|].
    apply status_dead; [by apply not_committed_not_frozen|later|done].
  - split; [time_passes|]. unfold inserted, frozen. destruct (HeapTupleHeaderXminFrozen h) eqn:HF; [by left|right].
    by apply xmin_hint_outcome.
Qed.

Lemma vacuum_xmax_spec t0 t h d :
  tuple_ok t h -> inserted t h -> (t0 <= t)%nat ->
  vwp HeapTupleSatisfiesVacuumHorizon_xmax
    (fun r st' => evolves (VS t h d) st' /\ htsv_status t0 (clock st') h r.1 r.2) (VS t h d).
Proof.
  intros Hok Hin Ht. unfold HeapTupleSatisfiesVacuumHorizon_xmax, HeapTupleHeaderGetRawXmax.
  assert (Hin' : forall t', (t <= t')%nat -> inserted t' h).
  { intros t' Ht'. destruct Hin as [|[? ?]]; [by left|right; eauto using done_mono]. }
  vrun; (split; [first [ time_passes
                       | apply evolves_xmax_invalid; [done|lia|updater_done]
                       | apply evolves_xmax_committed; [done|lia|updater_done] ]
                |cbn [fst snd]]).
  all: try (apply status_live; [apply Hin'; lia|updater_done]).
  all: try (eapply status_delete_in_progress; [find_updater|eapply running_now; [|done]; lia]).
  all: try (apply status_recently_dead; [apply Hin'; lia|find_updater|later|done]).
  assert (Hu : updater h = Some (t_xmax h)) by find_updater.
  destruct (ok_xmax_committed _ _ Hok ltac:(done) _ Hu). by apply status_recently_dead.
Qed.

(** A status of the tuple after some hints is one of the tuple before. *)
Lemma status_evolves st st1 t t' r u :
  evolves st st1 -> (clock st1 <= t')%nat -> htsv_status t t' (tup st1) r u -> htsv_status t t' (tup st) r u.
Proof.
  intros He Ht. destruct (hinted_fields _ _ (ev_hinted _ _ He)) as (Hx & _).
  pose proof (evolves_void _ _ _ He Ht) as Hv. pose proof (evolves_updater _ _ He) as Hs.
  pose proof (ev_frozen _ _ He) as Hf.
  destruct 1; unfold inserted in *; rewrite ?Hx, ?Hf in *.
  all: by econstructor; eauto.
Qed.

Lemma vacuum_horizon_spec t h d :
  tuple_ok t h ->
  vwp HeapTupleSatisfiesVacuumHorizon
    (fun r st' => evolves (VS t h d) st' /\ htsv_status t (clock st') h r.1 r.2) (VS t h d).
Proof.
  intros Hok. apply vwp_bind, vwp_bind. eapply vwp_mono; [by apply vacuum_xmin_spec|].
  intros [r|] [t1 h1 d1] [He Hr]; apply vwp_ret; [done|]. simpl in Hr.
  pose proof (ev_clock _ _ He) as Hc. simpl in Hc.
  apply (evolves_inserted_stands _ _ t1 He) in Hr.
  eapply vwp_mono; [by apply (vacuum_xmax_spec t); [apply (ev_ok _ _ He)|..]|].
  intros r st2 [He2 Hs]. split; [by eapply evolves_trans|].
  eapply (status_evolves (VS t h d) (VS t1 h1 d1)); [done|by apply (ev_clock _ _ He2)|done].
Qed.

(** The horizon [OldestXmin] covers an observer: it counts every older transaction
    as finished. *)
Definition covered (OldestXmin : TransactionId) (o : observer) : Prop :=
  forall x, TransactionIdPrecedes x OldestXmin = true -> own o x = false /\ in_snap o x = false.

Lemma dead_invisible t t' t1 h o :
  observer_ok t1 o -> htsv_status t t' h HEAPTUPLE_DEAD InvalidTransactionId -> mvcc_visible o h = false.
Proof.
  intros Ho Hs. inversion Hs as [Hf Hd Hc| | | |]. apply not_inserted. unfold inserted_before.
  rewrite Hf, Hc, andb_false_r. simpl. destruct (own o (t_xmin h)) eqn:E; [|done].
  pose proof (own_running _ _ Ho (t1 + t') _ ltac:(lia) E) as Hr.
  destruct (done_mono t' (t1 + t') _ Hd) as [_ Hr']; [lia|congruence].
Qed.

Lemma recently_dead_invisible t t' h u o OldestXmin :
  covered OldestXmin o -> htsv_status t t' h HEAPTUPLE_RECENTLY_DEAD u ->
  TransactionIdPrecedes u OldestXmin = true -> mvcc_visible o h = false.
Proof.
  intros Ho Hs Hp. inversion Hs as [| |v Hi Hu Hd Hc| |]; subst. unfold mvcc_visible, deleted_before.
  destruct (Ho u Hp) as [H1 H2]. by rewrite Hu, H1, H2, Hc, andb_false_r.
Qed.

(** C8 -- VACUUM removes nothing that anybody can see: when [HeapTupleSatisfiesVacuum]
    answers [HEAPTUPLE_DEAD], the tuple is invisible to every observer, of any
    time, whose snapshot the horizon [OldestXmin] covers. *)
Theorem vacuum_dead_invisible OldestXmin st t1 o :
  tuple_ok (clock st) (tup st) -> observer_ok t1 o -> covered OldestXmin o ->
  fst (HeapTupleSatisfiesVacuum OldestXmin st) = HEAPTUPLE_DEAD -> mvcc_visible o (tup st) = false.
Proof.
  destruct st as [t h d]. simpl. intros Hok Ho Hcov. pose proof (vacuum_horizon_spec t h d Hok) as H.
  unfold vwp in H. unfold HeapTupleSatisfiesVacuum, vbind, vret.
  destruct (HeapTupleSatisfiesVacuumHorizon (VS t h d)) as [[r u] st']. simpl in *. destruct H as [_ H].
  case_bool_decide as E.
  - subst r. destruct (TransactionIdPrecedes u OldestXmin) eqn:Ep; [|done]. intros _.
    by eapply recently_dead_invisible.
  - intros ->. inversion H; subst. by eapply dead_invisible.
Qed.

(** C31 -- What VACUUM keeps as [HEAPTUPLE_LIVE] is visible to every snapshot taken
    after the check: to every observer that counts as running only transactions
    still in progress when the check ended. *)
Theorem vacuum_live_visible OldestXmin st o :
  tuple_ok (clock st) (tup st) ->
  (forall x, own o x = true \/ in_snap o x = true ->
     xact_in_progress (clock (snd (HeapTupleSatisfiesVacuum OldestXmin st))) x = true) ->
  fst (HeapTupleSatisfiesVacuum OldestXmin st) = HEAPTUPLE_LIVE -> mvcc_visible o (tup st) = true.
Proof.
  destruct st as [t h d]. simpl. intros Hok. pose proof (vacuum_horizon_spec t h d Hok) as H.
  unfold vwp in H. unfold HeapTupleSatisfiesVacuum, vbind, vret.
  destruct (HeapTupleSatisfiesVacuumHorizon (VS t h d)) as [[r u] st']. simpl in *. destruct H as [_ H].
  intros Hfresh Hr.
  assert (Hnone : forall x, done_at (clock st') x -> own o x = false /\ in_snap o x = false).
  { intros x [_ Hd]. split; apply not_true_is_false; intros E; (rewrite Hfresh in Hd; [done|auto]). }
  case_bool_decide as E; [destruct (TransactionIdPrecedes _ _); congruence|]. subst r.
  inversion H as [|Hi Hv| | |]; subst. unfold mvcc_visible. apply andb_true_iff. split.
  - unfold inserted_before. destruct Hi as [->|[Hd ->]]; [done|].
    destruct (Hnone _ Hd) as [-> ->]. apply orb_true_r.
  - unfold deleted_before. destruct (updater h) as [v|] eqn:Ev; [|done].
    destruct (Hv v Ev) as [Hd ->]. destruct (Hnone _ Hd) as [-> ->]. done.
Qed.

(** [HeapTupleIsSurelyDead], which looks at the hint bits alone, never claims more
    than the full check: a tuple it calls dead is one that
    [HeapTupleSatisfiesNonVacuumable] with the same removability test finds
    vacuumable, at any time, and that check leaves the tuple as it is. *)
Theorem surely_dead_agrees s st :
  HeapTupleIsSurelyDead (vistest s) (tup st) = true ->
  HeapTupleSatisfiesNonVacuumable s st = (false, st).
Proof.
  destruct st as [t h d]. unfold HeapTupleIsSurelyDead. simpl. intros H.
  unfold HeapTupleSatisfiesNonVacuumable, HeapTupleSatisfiesVacuumHorizon, HeapTupleSatisfiesVacuumHorizon_xmin,
    HeapTupleSatisfiesVacuumHorizon_xmax, early, vbind, vtup, vret. simpl.
  destruct (negb (HeapTupleHeaderXminCommitted h)); [by rewrite H|]. simpl.
  destruct_ifs; simpl in *; congruence.
Qed.

End vacuum.

(** ** The example history of [VisExample] at instant 9, when 200 has committed *)
Module VacuumExample.
Import VisExample.

Definition reader : observer :=
  {| own := is_current; in_snap := fun x => negb (TransactionIdPrecedes x 300);
     cmin_before := fun _ => true; cmax_before := fun _ => true |}.

Lemma reader_ok : observer_ok 9 reader.
Proof.
  split; simpl; [intros t' x _; unfold is_current, running; by intros ->| |done].
  unfold done_at, is_current. simpl. unfold running. intros _ x _ -> _. split; [done|]. by destruct (x =? 200).
Qed.

Lemma reader_covered : covered 300 reader.
Proof.
  intros x Hx. simpl. rewrite Hx. split; [|done]. unfold is_current.
  destruct (Z.eqb_spec x 500) as [->|]; [by vm_compute in Hx|done].
Qed.

Lemma vacuum_dead_invisible_witness :
  fst (HeapTupleSatisfiesVacuum 300 (VS 9 deleted_tuple false)) = HEAPTUPLE_DEAD /\
  mvcc_visible reader deleted_tuple = false.
Proof.
  split; [reflexivity|].
  apply (vacuum_dead_invisible 300 (VS 9 deleted_tuple false) 9 reader);
    [apply deleted_tuple_ok|apply reader_ok|apply reader_covered|reflexivity].
Defined.

Definition kept_tuple : HeapTupleHeaderData := set_infomask HEAP_XMAX_INVALID deleted_tuple.

Definition new_reader : observer :=
  {| own := is_current; in_snap := fun _ => false; cmin_before := fun _ => true; cmax_before := fun _ => true |}.

Lemma vacuum_live_visible_witness :
  fst (HeapTupleSatisfiesVacuum 300 (VS 9 kept_tuple false)) = HEAPTUPLE_LIVE /\
  mvcc_visible new_reader kept_tuple = true.
Proof.
  split; [reflexivity|].
  apply (vacuum_live_visible 300 (VS 9 kept_tuple false) new_reader); [by split| |reflexivity].
  simpl. unfold is_current, running. intros x [->|]; done.
Defined.

End VacuumExample.
