(* ===== verification/Freeze.v ===== *)
(** * Freezing tuples

    The freezing part of [src/postgresql/src/backend/access/heap/heapam.c]: the plan that [heap_prepare_freeze_tuple] makes for a
    tuple, with the members of a multixact that must be kept, the checks before it is carried out and
    its execution.

    The functions read shared transaction state, as those of [Visibility] do, can report corruption, and
    contain assertions; a failed assertion ends the program and is [Panic] here. *)
From S2P Require Import Prelude TransactionId ItemPtr Bytes Page HeapTuple Snapshot Visibility.
Local Open Scope Z_scope.

(** ** Reading, failing, asserting *)

Definition F (A : Type) : Type := nat -> outcome (A * nat).
Definition fret {A} (a : A) : F A := fun t => Done (a, t).
Definition fbind {A B} (c : F A) (k : A -> F B) : F B := fun t => do (a, t) <- c t; k a t.
Definition fask {A} (f : nat -> A) : F A := fun t => Done (f t, S t).
Definition ferror {A} : F A := fun _ => Error.
Definition Assert (b : bool) : F unit := fun t => if b then Done (tt, t) else Panic.
(** A check on the header [h] that does not change it. *)
Definition on_header {A} (h : HeapTupleHeaderData) (c : V A) : F A := fun t => let (a, st) := c (VS t h false) in Done (a, clock st).

Declare Scope freeze_scope.
Notation "'let!' x := c 'in' k" := (fbind c (fun x => k)) (at level 10, x pattern, c at level 100, k at level 200) : freeze_scope.
Notation "c ;! k" := (fbind c (fun _ => k)) (at level 100, right associativity) : freeze_scope.
Local Open Scope freeze_scope.

(** ** Data *)

Record VacuumCutoffs := {
  relfrozenxid : TransactionId;
  relminmxid : MultiXactId;
  OldestXmin : TransactionId;
  OldestMxact : MultiXactId;
  FreezeLimit : TransactionId;
  MultiXactCutoff : MultiXactId
}.

Record HeapTupleFreeze := {
  frz_xmax : TransactionId;
  frz_infomask2 : Z;
  frz_infomask : Z;
  frzflags : Z;
  checkflags : Z;
  frz_offset : OffsetNumber
}.

Record HeapPageFreeze := {
  freeze_required : bool;
  FreezePageRelfrozenXid : TransactionId;
  FreezePageRelminMxid : MultiXactId;
  NoFreezePageRelfrozenXid : TransactionId;
  NoFreezePageRelminMxid : MultiXactId
}.

Definition require_freeze (pf : HeapPageFreeze) : HeapPageFreeze := {|
  freeze_required := true; FreezePageRelfrozenXid := FreezePageRelfrozenXid pf; FreezePageRelminMxid := FreezePageRelminMxid pf;
  NoFreezePageRelfrozenXid := NoFreezePageRelfrozenXid pf; NoFreezePageRelminMxid := NoFreezePageRelminMxid pf |}.

Definition HEAP_FREEZE_CHECK_XMIN_COMMITTED : Z := 0x01.
Definition HEAP_FREEZE_CHECK_XMAX_ABORTED : Z := 0x02.
Definition XLH_FREEZE_XVAC : Z := 0x02.
Definition XLH_INVALID_XVAC : Z := 0x04.
Definition FRM_NOOP : Z := 0x0001.
Definition FRM_INVALIDATE_XMAX : Z := 0x0002.
Definition FRM_RETURN_IS_XID : Z := 0x0004.
Definition FRM_RETURN_IS_MULTI : Z := 0x0008.
Definition FRM_MARK_COMMITTED : Z := 0x0010.

Definition InvalidMultiXactId : MultiXactId := 0.
Definition MultiXactIdIsValid (multi : MultiXactId) : bool := negb (multi =? InvalidMultiXactId).
Definition MultiXactIdPrecedes (multi1 multi2 : MultiXactId) : bool := s32 (multi1 - multi2) <? 0.
Definition MultiXactIdPrecedesOrEquals (multi1 multi2 : MultiXactId) : bool := s32 (multi1 - multi2) <=? 0.

(** The modes in their order. *)
Definition LockTupleKeyShare : Z := 0.
Definition LockTupleShare : Z := 1.
Definition LockTupleNoKeyExclusive : Z := 2.
Definition LockTupleExclusive : Z := 3.

Definition TUPLOCK_from_mxstatus (s : MultiXactStatus) : Z :=
  match s with
  | MultiXactStatusForKeyShare => LockTupleKeyShare
  | MultiXactStatusForShare => LockTupleShare
  | MultiXactStatusForNoKeyUpdate => LockTupleNoKeyExclusive
  | MultiXactStatusForUpdate => LockTupleExclusive
  | MultiXactStatusNoKeyUpdate => LockTupleNoKeyExclusive
  | MultiXactStatusUpdate => LockTupleExclusive
  end.

(** The multixact that [MultiXactIdCreateFromMembers] of [multixact.c] creates, or finds, for a list of members. *)
Class MultiXactCreate := { MultiXactIdCreateFromMembers : list MultiXactMember -> MultiXactId }.

Section freeze.
Context `{env : XactEnv} {create : MultiXactCreate}.

Definition in_progress (x : TransactionId) : F bool :=
  if TransactionIdIsCurrentTransactionId x then fret true else fask (fun t => xact_in_progress t x).
Definition did_commit (x : TransactionId) : F bool := fask (fun t => xact_did_commit t x).

(** ** Multixacts *)

(** The bits for the members, one by one: the strongest mode, the bits of the second word, whether one updates. *)
Definition hint_bits_of (members : list MultiXactMember) : Z * Z * bool :=
  foldl (fun '(strongest, bits2, has_update) m =>
    let mode := TUPLOCK_from_mxstatus (mx_status m) in
    (if mode >? strongest then mode else strongest,
     match mx_status m with
     | MultiXactStatusForUpdate | MultiXactStatusUpdate => Z.lor bits2 HEAP_KEYS_UPDATED
     | _ => bits2
     end,
     match mx_status m with MultiXactStatusNoKeyUpdate | MultiXactStatusUpdate => true | _ => has_update end))
    (LockTupleKeyShare, 0, false) members.

Definition GetMultiXactIdHintBits (multi : MultiXactId) : Z * Z :=
  let '(strongest, bits2, has_update) := hint_bits_of (GetMultiXactIdMembers multi false) in
  let bits :=
    Z.lor HEAP_XMAX_IS_MULTI
      (if (strongest =? LockTupleExclusive) || (strongest =? LockTupleNoKeyExclusive) then HEAP_XMAX_EXCL_LOCK
       else if strongest =? LockTupleShare then HEAP_XMAX_SHR_LOCK
       else if strongest =? LockTupleKeyShare then HEAP_XMAX_KEYSHR_LOCK else 0) in
  (if negb has_update then Z.lor bits HEAP_XMAX_LOCK_ONLY else bits, bits2).

(** The first pass over the members: whether one is too old to be kept, and the oldest id otherwise. *)
Fixpoint oldest_member (cutoffs : VacuumCutoffs) (members : list MultiXactMember) (oldest : TransactionId) : F (bool * TransactionId) :=
  match members with
  | [] => fret (false, oldest)
  | m :: rest =>
      let xid := mx_xid m in
      Assert (negb (TransactionIdPrecedes xid (relfrozenxid cutoffs))) ;!
      if TransactionIdPrecedes xid (FreezeLimit cutoffs) then fret (true, oldest)
      else oldest_member cutoffs rest (if TransactionIdPrecedes xid oldest then xid else oldest)
  end.

Record survivors := {
  newmembers : list MultiXactMember;
  has_lockers : bool;
  update_xid : TransactionId;
  update_committed : bool
}.

(** The second pass: lockers that still run, and the updater unless it aborted. *)
Fixpoint keep_members (cutoffs : VacuumCutoffs) (members : list MultiXactMember) (s : survivors) : F survivors :=
  match members with
  | [] => fret s
  | m :: rest =>
      let xid := mx_xid m in
      Assert (negb (TransactionIdPrecedes xid (relfrozenxid cutoffs))) ;!
      if negb (ISUPDATE_from_mxstatus (mx_status m)) then
        let! running := in_progress xid in
        if running then
          if TransactionIdPrecedes xid (OldestXmin cutoffs) then ferror
          else keep_members cutoffs rest
                 {| newmembers := newmembers s ++ [m]; has_lockers := true; update_xid := update_xid s; update_committed := update_committed s |}
        else keep_members cutoffs rest s
      else if TransactionIdIsValid (update_xid s) then ferror
      else
        let keep committed :=
          if TransactionIdPrecedes xid (OldestXmin cutoffs) then ferror
          else keep_members cutoffs rest
                 {| newmembers := newmembers s ++ [m]; has_lockers := has_lockers s; update_xid := xid; update_committed := committed |} in
        let! running := in_progress xid in
        if running then keep (update_committed s)
        else
          let! c := did_commit xid in
          if c then keep true else keep_members cutoffs rest s
  end.

(** A multixact from before the cutoff, found in the header [tuple]. *)
Definition freeze_old_multi (multi : MultiXactId) (tuple : HeapTupleHeaderData) (cutoffs : VacuumCutoffs) (pf : HeapPageFreeze) :
    F (TransactionId * Z * HeapPageFreeze) :=
  let locked_only := HEAP_XMAX_IS_LOCKED_ONLY (t_infomask tuple) in
  let! running := on_header tuple (MultiXactIdIsRunning multi locked_only) in
  if running then ferror
  else if locked_only then fret (InvalidTransactionId, FRM_INVALIDATE_XMAX, require_freeze pf)
  else
    let update_xact := MultiXactIdGetUpdateXid multi in
    if TransactionIdPrecedes update_xact (relfrozenxid cutoffs) then ferror
    else if TransactionIdPrecedes update_xact (OldestXmin cutoffs) then
      let! c := did_commit update_xact in
      if c then ferror else fret (InvalidTransactionId, FRM_INVALIDATE_XMAX, require_freeze pf)
    else fret (update_xact, FRM_RETURN_IS_XID, require_freeze pf).

(** The new xmax, what kind it is, and the state of the page. *)
Definition FreezeMultiXactId (multi : MultiXactId) (tuple : HeapTupleHeaderData) (cutoffs : VacuumCutoffs) (pf : HeapPageFreeze) :
    F (TransactionId * Z * HeapPageFreeze) :=
  Assert (tst (t_infomask tuple) HEAP_XMAX_IS_MULTI) ;!
  if negb (MultiXactIdIsValid multi) || HEAP_LOCKED_UPGRADED (t_infomask tuple) then
    fret (InvalidTransactionId, FRM_INVALIDATE_XMAX, require_freeze pf)
  else if MultiXactIdPrecedes multi (relminmxid cutoffs) then ferror
  else if MultiXactIdPrecedes multi (OldestMxact cutoffs) then freeze_old_multi multi tuple cutoffs pf
  else
    let members := GetMultiXactIdMembers multi (HEAP_XMAX_IS_LOCKED_ONLY (t_infomask tuple)) in
    if (length members =? 0)%nat then fret (InvalidTransactionId, FRM_INVALIDATE_XMAX, require_freeze pf)
    else
      let! (old, oldest) := oldest_member cutoffs members (FreezePageRelfrozenXid pf) in
      if negb old && negb (MultiXactIdPrecedes multi (MultiXactCutoff cutoffs)) then
        fret (multi, FRM_NOOP,
              {| freeze_required := freeze_required pf; FreezePageRelfrozenXid := oldest;
                 FreezePageRelminMxid := if MultiXactIdPrecedes multi (FreezePageRelminMxid pf) then multi else FreezePageRelminMxid pf;
                 NoFreezePageRelfrozenXid := NoFreezePageRelfrozenXid pf; NoFreezePageRelminMxid := NoFreezePageRelminMxid pf |})
      else
        let! s := keep_members cutoffs members
                    {| newmembers := []; has_lockers := false; update_xid := InvalidTransactionId; update_committed := false |} in
        if (length (newmembers s) =? 0)%nat then fret (InvalidTransactionId, FRM_INVALIDATE_XMAX, require_freeze pf)
        else if TransactionIdIsValid (update_xid s) && negb (has_lockers s) then
          Assert (length (newmembers s) =? 1)%nat ;!
          fret (update_xid s, if update_committed s then Z.lor FRM_RETURN_IS_XID FRM_MARK_COMMITTED else FRM_RETURN_IS_XID, require_freeze pf)
        else fret (MultiXactIdCreateFromMembers (newmembers s), FRM_RETURN_IS_MULTI, require_freeze pf).

(** ** Must the page be frozen? *)

Fixpoint old_members (cutoffs : VacuumCutoffs) (members : list MultiXactMember) (oldest : TransactionId) (freeze : bool) : F (bool * TransactionId) :=
  match members with
  | [] => fret (freeze, oldest)
  | m :: rest =>
      let xid := mx_xid m in
      Assert (TransactionIdPrecedesOrEquals (relfrozenxid cutoffs) xid) ;!
      old_members cutoffs rest (if TransactionIdPrecedes xid oldest then xid else oldest) (freeze || TransactionIdPrecedes xid (FreezeLimit cutoffs))
  end.

(** One id of the header: the oldest id so far, and whether it demands freezing. *)
Definition note_xid (cutoffs : VacuumCutoffs) (xid oldest : TransactionId) (freeze always : bool) : F (bool * TransactionId) :=
  Assert (TransactionIdPrecedesOrEquals (relfrozenxid cutoffs) xid) ;!
  fret (freeze || always || TransactionIdPrecedes xid (FreezeLimit cutoffs), if TransactionIdPrecedes xid oldest then xid else oldest).

(** Whether to freeze, and the oldest ids that are left if one does not. *)
Definition heap_tuple_should_freeze (tuple : HeapTupleHeaderData) (cutoffs : VacuumCutoffs) (oldest : TransactionId) (oldestmxact : MultiXactId) :
    F (bool * TransactionId * MultiXactId) :=
  let xmin := HeapTupleHeaderGetXmin tuple in
  let! (freeze, oldest) := (if TransactionIdIsNormal xmin then note_xid cutoffs xmin oldest false false else fret (false, oldest)) in
  let is_multi := tst (t_infomask tuple) HEAP_XMAX_IS_MULTI in
  let multi := if is_multi then HeapTupleHeaderGetRawXmax tuple else InvalidMultiXactId in
  let xid := if is_multi then InvalidTransactionId else HeapTupleHeaderGetRawXmax tuple in
  let! (freeze, oldest, oldestmxact) :=
    (if TransactionIdIsNormal xid then
       let! (freeze, oldest) := note_xid cutoffs xid oldest freeze false in fret (freeze, oldest, oldestmxact)
     else if negb (MultiXactIdIsValid multi) then fret (freeze, oldest, oldestmxact)
     else if HEAP_LOCKED_UPGRADED (t_infomask tuple) then
       fret (true, oldest, if MultiXactIdPrecedes multi oldestmxact then multi else oldestmxact)
     else
       Assert (MultiXactIdPrecedesOrEquals (relminmxid cutoffs) multi) ;!
       let oldestmxact := if MultiXactIdPrecedes multi oldestmxact then multi else oldestmxact in
       let freeze := freeze || MultiXactIdPrecedes multi (MultiXactCutoff cutoffs) in
       let! (freeze, oldest) := old_members cutoffs (GetMultiXactIdMembers multi (HEAP_XMAX_IS_LOCKED_ONLY (t_infomask tuple))) oldest freeze in
       fret (freeze, oldest, oldestmxact)) in
  let xvac := HeapTupleHeaderGetXvac tuple in
  if tst (t_infomask tuple) HEAP_MOVED && TransactionIdIsNormal xvac then
    let! (freeze, oldest) := note_xid cutoffs xvac oldest freeze true in fret (freeze, oldest, oldestmxact)
  else fret (freeze, oldest, oldestmxact).

Definition heap_tuple_needs_eventual_freeze (tuple : HeapTupleHeaderData) : bool :=
  if TransactionIdIsNormal (HeapTupleHeaderGetXmin tuple) then true
  else if (if tst (t_infomask tuple) HEAP_XMAX_IS_MULTI then MultiXactIdIsValid (HeapTupleHeaderGetRawXmax tuple)
           else TransactionIdIsNormal (HeapTupleHeaderGetRawXmax tuple)) then true
  else tst (t_infomask tuple) HEAP_MOVED && TransactionIdIsNormal (HeapTupleHeaderGetXvac tuple).

(** ** The plan *)

Definition set_frz (xmax : TransactionId) (infomask2 infomask : Z) (frz : HeapTupleFreeze) : HeapTupleFreeze := {|
  frz_xmax := xmax; frz_infomask2 := infomask2; frz_infomask := infomask;
  frzflags := frzflags frz; checkflags := checkflags frz; frz_offset := frz_offset frz |}.
Definition add_checkflags (f : Z) (frz : HeapTupleFreeze) : HeapTupleFreeze := {|
  frz_xmax := frz_xmax frz; frz_infomask2 := frz_infomask2 frz; frz_infomask := frz_infomask frz;
  frzflags := frzflags frz; checkflags := Z.lor (checkflags frz) f; frz_offset := frz_offset frz |}.
Definition add_frzflags (f : Z) (frz : HeapTupleFreeze) : HeapTupleFreeze := {|
  frz_xmax := frz_xmax frz; frz_infomask2 := frz_infomask2 frz; frz_infomask := frz_infomask frz;
  frzflags := Z.lor (frzflags frz) f; checkflags := checkflags frz; frz_offset := frz_offset frz |}.

(** What is to happen to xmax. *)
Record xmax_plan := { replace_xmax : bool; freeze_xmax : bool; xmax_already_frozen : bool }.
Definition xmax_stays : xmax_plan := {| replace_xmax := false; freeze_xmax := false; xmax_already_frozen := false |}.
Definition xmax_replaced : xmax_plan := {| replace_xmax := true; freeze_xmax := false; xmax_already_frozen := false |}.
Definition xmax_goes (b : bool) : xmax_plan := {| replace_xmax := false; freeze_xmax := b; xmax_already_frozen := false |}.
Definition xmax_frozen : xmax_plan := {| replace_xmax := false; freeze_xmax := false; xmax_already_frozen := true |}.

Definition clear_bits (m bits : Z) : Z := Z.land m (Z.lnot bits).

Definition prepare_freeze_multi (tuple : HeapTupleHeaderData) (cutoffs : VacuumCutoffs) (pf : HeapPageFreeze) (frz : HeapTupleFreeze) :
    F (xmax_plan * HeapTupleFreeze * HeapPageFreeze) :=
  let xid := frz_xmax frz in
  let! (newxmax, flags, pf) := FreezeMultiXactId xid tuple cutoffs pf in
  let! (pl, frz) :=
    (if tst flags FRM_NOOP then
       Assert (negb (MultiXactIdPrecedes newxmax (MultiXactCutoff cutoffs))) ;!
       Assert (MultiXactIdIsValid newxmax && (xid =? newxmax)) ;!
       fret (xmax_stays, frz)
     else if tst flags FRM_RETURN_IS_XID then
       Assert (negb (TransactionIdPrecedes newxmax (OldestXmin cutoffs))) ;!
       let m := clear_bits (frz_infomask frz) HEAP_XMAX_BITS in
       fret (xmax_replaced, set_frz newxmax (frz_infomask2 frz) (if tst flags FRM_MARK_COMMITTED then Z.lor m HEAP_XMAX_COMMITTED else m) frz)
     else if tst flags FRM_RETURN_IS_MULTI then
       Assert (negb (MultiXactIdPrecedes newxmax (OldestMxact cutoffs))) ;!
       let (newbits, newbits2) := GetMultiXactIdHintBits newxmax in
       fret (xmax_replaced,
             set_frz newxmax (Z.lor (clear_bits (frz_infomask2 frz) HEAP_KEYS_UPDATED) newbits2)
               (Z.lor (clear_bits (frz_infomask frz) HEAP_XMAX_BITS) newbits) frz)
     else
       Assert (tst flags FRM_INVALIDATE_XMAX) ;!
       Assert (negb (TransactionIdIsValid newxmax)) ;!
       fret (xmax_goes true, frz)) in
  Assert (freeze_required pf || (negb (freeze_xmax pl) && negb (replace_xmax pl))) ;!
  fret (pl, frz, pf).

Definition prepare_freeze_xmax (tuple : HeapTupleHeaderData) (cutoffs : VacuumCutoffs) (pf : HeapPageFreeze) (frz : HeapTupleFreeze) :
    F (xmax_plan * HeapTupleFreeze * HeapPageFreeze) :=
  let xid := frz_xmax frz in
  if tst (t_infomask tuple) HEAP_XMAX_IS_MULTI then prepare_freeze_multi tuple cutoffs pf frz
  else if TransactionIdIsNormal xid then
    if TransactionIdPrecedes xid (relfrozenxid cutoffs) then ferror
    else
      let goes := TransactionIdPrecedes xid (OldestXmin cutoffs) in
      fret (xmax_goes goes,
            if goes && negb (HEAP_XMAX_IS_LOCKED_ONLY (t_infomask tuple)) then add_checkflags HEAP_FREEZE_CHECK_XMAX_ABORTED frz else frz, pf)
  else if negb (TransactionIdIsValid xid) then
    Assert (negb (tst (t_infomask tuple) HEAP_XMAX_IS_MULTI)) ;! fret (xmax_frozen, frz, pf)
  else ferror.

(** Whether there is something to do, the plan, whether the tuple is then frozen for good, and the state of the page. *)
Definition heap_prepare_freeze_tuple (tuple : HeapTupleHeaderData) (cutoffs : VacuumCutoffs) (pf : HeapPageFreeze) :
    F (bool * HeapTupleFreeze * bool * HeapPageFreeze) :=
  let frz := {| frz_xmax := HeapTupleHeaderGetRawXmax tuple; frz_infomask2 := t_infomask2 tuple; frz_infomask := t_infomask tuple;
                frzflags := 0; checkflags := 0; frz_offset := InvalidOffsetNumber |} in
  let xid := HeapTupleHeaderGetXmin tuple in
  let xmin_already_frozen := negb (TransactionIdIsNormal xid) in
  if negb xmin_already_frozen && TransactionIdPrecedes xid (relfrozenxid cutoffs) then ferror
  else
    let freeze_xmin := negb xmin_already_frozen && TransactionIdPrecedes xid (OldestXmin cutoffs) in
    let frz := if freeze_xmin then add_checkflags HEAP_FREEZE_CHECK_XMIN_COMMITTED frz else frz in
    let xvac := HeapTupleHeaderGetXvac tuple in
    let replace_xvac := TransactionIdIsNormal xvac in
    let! pf :=
      (if replace_xvac then
         Assert (TransactionIdPrecedesOrEquals (relfrozenxid cutoffs) xvac) ;!
         Assert (TransactionIdPrecedes xvac (OldestXmin cutoffs)) ;!
         fret (require_freeze pf)
       else fret pf) in
    let! (pl, frz, pf) := prepare_freeze_xmax tuple cutoffs pf frz in
    Assert (negb freeze_xmin || negb xmin_already_frozen) ;!
    let frz := if freeze_xmin then set_frz (frz_xmax frz) (frz_infomask2 frz) (Z.lor (frz_infomask frz) HEAP_XMIN_FROZEN) frz else frz in
    Assert (negb replace_xvac || freeze_required pf) ;!
    let frz :=
      if replace_xvac then add_frzflags (if tst (t_infomask tuple) HEAP_MOVED_OFF then XLH_INVALID_XVAC else XLH_FREEZE_XVAC) frz else frz in
    Assert (negb (replace_xmax pl) || (negb (xmax_already_frozen pl) && negb (freeze_xmax pl) && freeze_required pf)) ;!
    Assert (negb (freeze_xmax pl) || (negb (xmax_already_frozen pl) && negb (replace_xmax pl))) ;!
    let frz :=
      if freeze_xmax pl then
        set_frz InvalidTransactionId (clear_bits (clear_bits (frz_infomask2 frz) HEAP_HOT_UPDATED) HEAP_KEYS_UPDATED)
          (Z.lor (clear_bits (frz_infomask frz) HEAP_XMAX_BITS) HEAP_XMAX_INVALID) frz
      else frz in
    let totally_frozen := (freeze_xmin || xmin_already_frozen) && (freeze_xmax pl || xmax_already_frozen pl) in
    let! pf :=
      (if negb (freeze_required pf) && negb (xmin_already_frozen && xmax_already_frozen pl) then
         let! (required, oldest, oldestmxact) := heap_tuple_should_freeze tuple cutoffs (NoFreezePageRelfrozenXid pf) (NoFreezePageRelminMxid pf) in
         fret {| freeze_required := required; FreezePageRelfrozenXid := FreezePageRelfrozenXid pf; FreezePageRelminMxid := FreezePageRelminMxid pf;
                 NoFreezePageRelfrozenXid := oldest; NoFreezePageRelminMxid := oldestmxact |}
       else fret pf) in
    fret (freeze_xmin || replace_xvac || replace_xmax pl || freeze_xmax pl, frz, totally_frozen, pf).

(** ** Checks and execution *)

Definition pre_freeze_check (frz : HeapTupleFreeze) (htup : HeapTupleHeaderData) : F unit :=
  (if tst (checkflags frz) HEAP_FREEZE_CHECK_XMIN_COMMITTED then
     Assert (negb (HeapTupleHeaderXminFrozen htup)) ;!
     let! c := did_commit (HeapTupleHeaderGetRawXmin htup) in
     if negb c then ferror else fret tt
   else fret tt) ;!
  (if tst (checkflags frz) HEAP_FREEZE_CHECK_XMAX_ABORTED then
     Assert (TransactionIdIsNormal (HeapTupleHeaderGetRawXmax htup)) ;!
     let! c := did_commit (HeapTupleHeaderGetRawXmax htup) in
     if c then ferror else fret tt
   else fret tt).

Definition heap_execute_freeze_tuple (tuple : HeapTupleHeaderData) (frz : HeapTupleFreeze) : HeapTupleHeaderData :=
  let tuple := HeapTupleHeaderSetXmax (frz_xmax frz) tuple in
  let tuple := if tst (frzflags frz) XLH_FREEZE_XVAC then HeapTupleHeaderSetXvac FrozenTransactionId tuple else tuple in
  let tuple := if tst (frzflags frz) XLH_INVALID_XVAC then HeapTupleHeaderSetXvac InvalidTransactionId tuple else tuple in
  set_infomask2 (frz_infomask2 frz) (set_infomask (frz_infomask frz) tuple).

(** Freezing one tuple in private memory. *)
Definition heap_freeze_tuple (tuple : HeapTupleHeaderData) (relfrozenxid : TransactionId) (relminmxid : MultiXactId)
    (FreezeLimit : TransactionId) (MultiXactCutoff : MultiXactId) : F (bool * HeapTupleHeaderData) :=
  let cutoffs := {| relfrozenxid := relfrozenxid; relminmxid := relminmxid; OldestXmin := FreezeLimit; OldestMxact := MultiXactCutoff;
                    FreezeLimit := FreezeLimit; MultiXactCutoff := MultiXactCutoff |} in
  let pf := {| freeze_required := true; FreezePageRelfrozenXid := FreezeLimit; FreezePageRelminMxid := MultiXactCutoff;
               NoFreezePageRelfrozenXid := FreezeLimit; NoFreezePageRelminMxid := MultiXactCutoff |} in
  let! (do_freeze, frz, _, _) := heap_prepare_freeze_tuple tuple cutoffs pf in
  fret (do_freeze, if do_freeze then heap_execute_freeze_tuple tuple frz else tuple).
End freeze.
