(* ===== verification/FreezeSpec.v ===== *)
(** * What freezing does

    On a tuple whose ids lie within the limits of the table, [heap_prepare_freeze_tuple] reports no corruption, no assertion fails, and the plan,
    once checked and executed, leaves a tuple that means the same to everybody: frozen ids were seen as committed by all, a removed xmax had come
    to nothing.  The ids that stay are not older than the limits, and the trackers for [relfrozenxid] account for them. *)
From S2P Require Import Prelude TransactionId ItemPtr Bytes Page HeapTuple Snapshot Visibility VisibilitySpec VacuumSpec Freeze.
Local Open Scope Z_scope.
Local Open Scope freeze_scope.

(** ** Reasoning about the functions: they return, and the result satisfies [Q] *)

Definition fwp {A} (c : F A) (Q : A -> nat -> Prop) (t : nat) : Prop := exists a t', c t = Done (a, t') /\ Q a t'.

Lemma fwp_ret {A} (a : A) Q t : Q a t -> fwp (fret a) Q t.
Proof. intros H. by exists a, t. Qed.
Lemma fwp_bind {A B} (c : F A) (k : A -> F B) Q t : fwp c (fun a t' => fwp (k a) Q t') t -> fwp (fbind c k) Q t.
Proof. intros (a & t' & E & b & t'' & E' & H). exists b, t''. split; [|done]. unfold fbind. by rewrite E. Qed.
Lemma fwp_ask {A} (f : nat -> A) Q t : Q (f t) (S t) -> fwp (fask f) Q t.
Proof. intros H. by exists (f t), (S t). Qed.
Lemma fwp_assert b Q t : b = true -> Q tt t -> fwp (Assert b) Q t.
Proof. intros -> H. by exists tt, t. Qed.
Lemma fwp_mono {A} (c : F A) (Q Q' : A -> nat -> Prop) t : fwp c Q t -> (forall a t', Q a t' -> Q' a t') -> fwp c Q' t.
Proof. intros (a & t' & E & H) HQ. exists a, t'. auto. Qed.
Lemma fwp_on_header {A} h (c : V A) Q t : vwp c (fun a st => Q a (clock st)) (VS t h false) -> fwp (on_header h c) Q t.
Proof. unfold vwp, fwp, on_header. destruct (c (VS t h false)) as [a st]. intros H. by exists a, (clock st). Qed.

Ltac fstep :=
  lazymatch goal with
  | |- fwp (fbind _ _) _ _ => apply fwp_bind
  | |- fwp (fret _) _ _ => apply fwp_ret
  | |- fwp (fask _) _ _ => apply fwp_ask
  | |- fwp (did_commit _) _ _ => apply fwp_ask
  | |- fwp (Assert _) _ _ => apply fwp_assert
  end.

(** ** Flags *)

(** A flag of a list of flags, given that it is one of another. *)
Ltac among := match goal with H : _ ∈ _ |- _ ∈ _ => rewrite !elem_of_cons, elem_of_nil in H; rewrite !elem_of_cons, elem_of_nil; tauto end.

Lemma tst_clear m bits k : tst (clear_bits m bits) k = negb (Z.land m (Z.land (Z.lnot bits) k) =? 0).
Proof. unfold tst, clear_bits. by rewrite <- Z.land_assoc. Qed.

Lemma tst_bits_cleared m bits k : Z.land (Z.lnot bits) k = 0 -> tst (clear_bits m bits) k = false.
Proof. intros E. by rewrite tst_clear, E, Z.land_0_r. Qed.

Lemma tst_kept m bits k : Z.land (Z.lnot bits) k = k -> tst (clear_bits m bits) k = tst m k.
Proof. intros E. by rewrite tst_clear, E. Qed.

(** The bits of a multixact tell a lock from an update, and set no others. *)
Lemma hint_bits_update ms : (hint_bits_of ms).2 = existsb (fun m => ISUPDATE_from_mxstatus (mx_status m)) ms.
Proof.
  unfold hint_bits_of. set (f := fun '(_, _, _) _ => _). assert (H : forall a, (foldl f a ms).2 = a.2 || existsb (fun m => ISUPDATE_from_mxstatus (mx_status m)) ms).
  { induction ms as [|m ms IH]; intros [[a1 a2] a3]; cbn [foldl existsb]; [by rewrite orb_false_r|]. rewrite IH. cbn.
    destruct (mx_status m); cbn; by rewrite ?orb_true_r, ?orb_false_l. }
  apply H.
Qed.

Lemma hint_bits_flags `{env : XactEnv} multi :
  let bits := (GetMultiXactIdHintBits multi).1 in
  tst bits HEAP_XMAX_IS_MULTI = true /\ tst bits HEAP_XMAX_LOCK_ONLY = negb (existsb (fun m => ISUPDATE_from_mxstatus (mx_status m)) (GetMultiXactIdMembers multi false)) /\
  forall k, k ∈ [HEAP_XMAX_INVALID; HEAP_XMAX_COMMITTED; HEAP_XMIN_COMMITTED; HEAP_XMIN_INVALID; HEAP_COMBOCID; HEAP_MOVED_OFF; HEAP_MOVED_IN] -> tst bits k = false.
Proof.
  unfold GetMultiXactIdHintBits. rewrite <- hint_bits_update. destruct (hint_bits_of _) as [[strongest bits2] has_update]. cbn [fst snd].
  assert (Hc : forall b, b ∈ [HEAP_XMAX_EXCL_LOCK; HEAP_XMAX_SHR_LOCK; HEAP_XMAX_KEYSHR_LOCK; 0] ->
    let bits := if negb has_update then Z.lor (Z.lor HEAP_XMAX_IS_MULTI b) HEAP_XMAX_LOCK_ONLY else Z.lor HEAP_XMAX_IS_MULTI b in
    tst bits HEAP_XMAX_IS_MULTI = true /\ tst bits HEAP_XMAX_LOCK_ONLY = negb has_update /\
    forall k, k ∈ [HEAP_XMAX_INVALID; HEAP_XMAX_COMMITTED; HEAP_XMIN_COMMITTED; HEAP_XMIN_INVALID; HEAP_COMBOCID; HEAP_MOVED_OFF; HEAP_MOVED_IN] -> tst bits k = false).
  { intros b Hb. rewrite !elem_of_cons, elem_of_nil in Hb. destruct has_update; destruct Hb as [->|[->|[->|[->|[]]]]];
      (split; [reflexivity|]); (split; [reflexivity|]); intros k Hk; rewrite !elem_of_cons, elem_of_nil in Hk; decompose [or] Hk; subst; done. }
  destruct (_ || _); [apply Hc; set_solver|]. destruct (strongest =? LockTupleShare); [apply Hc; set_solver|]. destruct (strongest =? LockTupleKeyShare); apply Hc; set_solver.
Qed.

(** ** Ids counted from the limit of the table *)

Lemma s32_opp d : 0 <= s32 d -> s32 (- d) <= 0.
Proof.
  unfold s32, u32, wrap. cbv zeta. intros H. destruct (decide (d mod 2 ^ 32 = 0)) as [E|E].
  - rewrite Z_mod_zero_opp_full by done. done.
  - rewrite Z_mod_nz_opp_full by done. pose proof (Z.mod_pos_bound d (2 ^ 32) ltac:(lia)). destruct (Z.ltb_spec (d mod 2 ^ 32) (2 ^ 31)), (Z.ltb_spec (2 ^ 32 - d mod 2 ^ 32) (2 ^ 31)); lia.
Qed.

Section window.
Context (base : TransactionId) (Hbase : TransactionIdIsNormal base = true).

Definition since (x : TransactionId) : Z := u32 (x - base).
(** Not before the limit. *)
Definition recent (x : TransactionId) : Prop := TransactionIdIsNormal x = true /\ TransactionIdPrecedes x base = false.

Lemma recent_since x : recent x -> 0 <= since x < 2 ^ 31.
Proof.
  intros [Hn Hp]. unfold TransactionIdPrecedes in Hp. rewrite Hn, Hbase in Hp. cbn in Hp. apply Z.ltb_ge in Hp. unfold since.
  pose proof (u32_range (x - base)). unfold s32 in Hp. cbv zeta in Hp. destruct (Z.ltb_spec (u32 (x - base)) (2 ^ 31)); lia.
Qed.

Lemma precedes_since x y : recent x -> recent y -> TransactionIdPrecedes x y = (since x <? since y).
Proof.
  intros Hx Hy. pose proof (recent_since x Hx) as Rx. pose proof (recent_since y Hy) as Ry. destruct Hx as [Hx _], Hy as [Hy _].
  unfold TransactionIdPrecedes. rewrite Hx, Hy. cbn [negb orb]. cbv zeta. rewrite (s32_congr (x - y) (since x - since y)).
  - rewrite s32_small by lia. destruct (Z.ltb_spec (since x - since y) 0), (Z.ltb_spec (since x) (since y)); lia.
  - unfold since. rewrite u32_sub_l, u32_sub_r. f_equal. lia.
Qed.

Lemma precedes_or_equals_base x : recent x -> TransactionIdPrecedesOrEquals base x = true.
Proof.
  intros [Hx Hp]. unfold TransactionIdPrecedes in Hp. unfold TransactionIdPrecedesOrEquals. rewrite Hx, Hbase in *. cbn [negb orb] in *. cbv zeta in *.
  apply Z.leb_le. apply Z.ltb_ge in Hp. replace (base - x) with (- (x - base)) by lia. by apply s32_opp.
Qed.
End window.

(** ** Tuples that can be frozen *)

(** What the documentation of [multixact.c] says of its functions. *)
Class MultiXactLaws `{env : XactEnv} {create : MultiXactCreate} := {
  created_members : forall ms multi lock lock', ms <> [] -> ms `sublist_of` GetMultiXactIdMembers multi lock ->
    GetMultiXactIdMembers (MultiXactIdCreateFromMembers ms) lock' = ms;
  invalid_members : forall lock, GetMultiXactIdMembers InvalidMultiXactId lock = []
}.

Definition updates (m : MultiXactMember) : bool := ISUPDATE_from_mxstatus (mx_status m).

Section spec.
Context `{laws : XactLaws} {create : MultiXactCreate} {mlaws : MultiXactLaws}.
Context (c : VacuumCutoffs).

(** The limits: those of the table come first, nothing before [OldestXmin] runs, and no member of a multixact before [OldestMxact] does. *)
Record cutoffs_ok (t : nat) : Prop := {
  co_base : TransactionIdIsNormal (relfrozenxid c) = true;
  co_limit : recent (relfrozenxid c) (FreezeLimit c);
  co_oldest : recent (relfrozenxid c) (OldestXmin c);
  co_order : since (relfrozenxid c) (FreezeLimit c) <= since (relfrozenxid c) (OldestXmin c);
  co_done : forall t' x, (t <= t')%nat -> known t' x -> TransactionIdPrecedes x (OldestXmin c) = true -> xact_in_progress t' x = false;
  co_multi_done : forall t' multi lock m, (t <= t')%nat -> MultiXactIdPrecedes multi (OldestMxact c) = true ->
    m ∈ GetMultiXactIdMembers multi lock -> xact_in_progress t' (mx_xid m) = false
}.

(** Who updated or deleted the tuple, whatever the hint says. *)
Definition xmax_updater (h : HeapTupleHeaderData) : option TransactionId :=
  if HEAP_XMAX_IS_LOCKED_ONLY (t_infomask h) then None
  else if tst (t_infomask h) HEAP_XMAX_IS_MULTI then Some (HeapTupleGetUpdateXid h)
  else Some (HeapTupleHeaderGetRawXmax h).

Definition xmax_members (h : HeapTupleHeaderData) : list MultiXactMember :=
  GetMultiXactIdMembers (t_xmax h) (HEAP_XMAX_IS_LOCKED_ONLY (t_infomask h)).

Definition void (t : nat) (u : TransactionId) : Prop := done_at t u /\ committed u = false.

(** A multixact in xmax: from after the limit, with at most one updater, and one exactly when it is more than a lock. *)
Record multi_ok (t : nat) (h : HeapTupleHeaderData) : Prop := {
  mo_limit : MultiXactIdPrecedes (t_xmax h) (relminmxid c) = false;
  mo_recent : forall m, m ∈ xmax_members h -> recent (relfrozenxid c) (mx_xid m) /\ known t (mx_xid m);
  mo_updaters : HEAP_XMAX_IS_LOCKED_ONLY (t_infomask h) = true -> forall m, m ∈ xmax_members h -> updates m = false;
  mo_one : HEAP_XMAX_IS_LOCKED_ONLY (t_infomask h) = false ->
    exists l m r, xmax_members h = l ++ m :: r /\ updates m = true /\ forall m', m' ∈ l ++ r -> updates m' = false
}.

(** The tuple is well-formed, its ids are not before the limit of the table, and VACUUM has not found it dead. *)
Record freezable (t : nat) (h : HeapTupleHeaderData) : Prop := {
  fz_ok : tuple_ok t h;
  fz_xmin : frozen h = false -> TransactionIdIsNormal (t_xmin h) = true -> recent (relfrozenxid c) (t_xmin h);
  fz_inserted : frozen h = false -> TransactionIdIsNormal (t_xmin h) = true -> TransactionIdPrecedes (t_xmin h) (OldestXmin c) = true ->
    committed (t_xmin h) = true;
  fz_xmax : tst (t_infomask h) HEAP_XMAX_IS_MULTI = false -> t_xmax h = InvalidTransactionId \/ recent (relfrozenxid c) (t_xmax h);
  fz_multi : tst (t_infomask h) HEAP_XMAX_IS_MULTI = true -> multi_ok t h;
  fz_known : forall u, xmax_updater h = Some u -> TransactionIdIsValid u = true -> known t u;
  fz_kept : forall u, xmax_updater h = Some u -> TransactionIdIsNormal u = true -> TransactionIdPrecedes u (OldestXmin c) = true -> committed u = false;
  fz_hint : tst (t_infomask h) HEAP_XMAX_INVALID = true -> forall u, xmax_updater h = Some u -> TransactionIdIsValid u = true -> void t u
}.

Context (t0 : nat) (Hc : cutoffs_ok t0).
Local Abbreviation rf := (relfrozenxid c).

Lemma known_still t t' x : known t x -> (t <= t')%nat -> known t' x.
Proof. apply known_mono. Qed.

(** Nothing recent is called older than the limit. *)
Lemma recent_not_before x : recent rf x -> TransactionIdPrecedes x rf = false.
Proof. by intros [_ ?]. Qed.

(** It was seen in progress. *)
Definition ran (x : TransactionId) : Prop := exists t, (t0 <= t)%nat /\ xact_in_progress t x = true.

Lemma running_spec x Q t :
  (t0 <= t)%nat -> known t x ->
  (forall t', (t <= t')%nat -> ran x -> TransactionIdPrecedes x (OldestXmin c) = false -> Q true t') ->
  (forall t', (t < t')%nat -> done_at t x -> Q false t') ->
  fwp (in_progress x) Q t.
Proof.
  intros Ht Hk Hyes Hno. unfold in_progress. destruct (TransactionIdIsCurrentTransactionId x) eqn:E.
  - fstep. apply Hyes; [done|exists t; split; [done|by apply current_in_progress]|]. apply not_true_is_false. intros Hp. pose proof (co_done _ Hc t x Ht Hk Hp) as Hd. by rewrite (current_in_progress t x E) in Hd.
  - fstep. destruct (xact_in_progress t x) eqn:Ep.
    + apply Hyes; [lia|by exists t|]. apply not_true_is_false. intros Hp. by rewrite (co_done _ Hc t x Ht Hk Hp) in Ep.
    + apply Hno; [lia|]. by split.
Qed.

(** ** Keeping members *)

Lemma oldest_member_spec members oldest Q t :
  (forall m, m ∈ members -> recent rf (mx_xid m)) -> recent rf oldest ->
  (forall old oldest', recent rf oldest' -> since rf oldest' <= since rf oldest ->
     (old = false -> forall m, m ∈ members -> since rf oldest' <= since rf (mx_xid m) /\ TransactionIdPrecedes (mx_xid m) (FreezeLimit c) = false) ->
     Q (old, oldest') t) ->
  fwp (oldest_member c members oldest) Q t.
Proof.
  revert oldest Q. induction members as [|m ms IH]; intros oldest Q Hm Ho HQ; cbn [oldest_member].
  - fstep. apply HQ; [done|lia|]. intros _ m Hin. by apply elem_of_nil in Hin.
  - pose proof (Hm m ltac:(by left)) as Hr. fstep. fstep; [by rewrite (recent_not_before _ Hr)|].
    destruct (TransactionIdPrecedes (mx_xid m) (FreezeLimit c)) eqn:El.
    + fstep. apply HQ; [done|lia|done].
    + pose proof (precedes_since rf (co_base _ Hc) _ _ Hr Ho) as Ep. apply IH; [intros m' ?; apply Hm; by right|by destruct (TransactionIdPrecedes _ oldest)|].
      intros old oldest' Ho' Hle Hall. assert (Hle' : since rf oldest' <= since rf oldest /\ since rf oldest' <= since rf (mx_xid m)).
      { rewrite Ep in Hle. destruct (Z.ltb_spec (since rf (mx_xid m)) (since rf oldest)); lia. }
      apply HQ; [done|lia|]. intros Hold m' [->|Hin]%elem_of_cons; [split; [lia|done]|by apply Hall].
Qed.

(** The members that are kept out of those seen. *)
Record kept (t : nat) (seen : list MultiXactMember) (s : survivors) : Prop := {
  k_sub : newmembers s `sublist_of` seen;
  k_seen : forall m, m ∈ newmembers s -> m ∈ seen /\ TransactionIdPrecedes (mx_xid m) (OldestXmin c) = false;
  k_updater : forall m, m ∈ seen -> updates m = true -> (m ∈ newmembers s /\ update_xid s = mx_xid m) \/ void t (mx_xid m);
  k_none : TransactionIdIsValid (update_xid s) = false -> forall m, m ∈ newmembers s -> updates m = false;
  k_some : TransactionIdIsValid (update_xid s) = true -> exists m, m ∈ newmembers s /\ updates m = true /\ mx_xid m = update_xid s;
  k_single : has_lockers s = false -> newmembers s = [] \/ exists m, newmembers s = [m] /\ updates m = true;
  k_committed : update_committed s = true -> TransactionIdIsValid (update_xid s) = true /\ done_at t (update_xid s) /\ committed (update_xid s) = true;
  k_running : has_lockers s = true -> exists m, m ∈ newmembers s /\ ran (mx_xid m)
}.

(** At most one updates. *)
Definition one_updater (members : list MultiXactMember) : Prop :=
  forall l m r, members = l ++ m :: r -> updates m = true -> forall m', m' ∈ l -> updates m' = false.

Lemma void_later t t' u : void t u -> (t <= t')%nat -> void t' u.
Proof. intros [H1 H2] Ht. split; [by eapply done_mono|done]. Qed.

Lemma kept_later t t' seen s : kept t seen s -> (t <= t')%nat -> kept t' seen s.
Proof.
  intros [H0 H1 H2 H3 H4 H5 H6 H7] Ht. split; try done.
  - intros m Hm Hu. destruct (H2 m Hm Hu); [by left|right; by eapply void_later].
  - intros Hu. destruct (H6 Hu) as (? & ? & ?). split; [done|split; [by eapply done_mono|done]].
Qed.

Lemma recent_valid x : recent rf x -> TransactionIdIsValid x = true.
Proof. intros [Hn _]. unfold TransactionIdIsNormal, FirstNormalTransactionId in Hn. unfold TransactionIdIsValid, InvalidTransactionId. b2p. destruct (Z.eqb_spec x 0); [lia|done]. Qed.

(** A locker is kept. *)
Lemma kept_locker t seen s m :
  kept t seen s -> updates m = false -> ran (mx_xid m) -> TransactionIdPrecedes (mx_xid m) (OldestXmin c) = false ->
  kept t (seen ++ [m]) {| newmembers := newmembers s ++ [m]; has_lockers := true; update_xid := update_xid s; update_committed := update_committed s |}.
Proof.
  intros [H0 H1 H2 H3 H4 H5 H6 H7] Hu Hrun Hp. split; cbn; try done.
  - by apply sublist_app.
  - intros m' [Hm|Hm%list_elem_of_singleton]%elem_of_app; [destruct (H1 m' Hm); split; [apply elem_of_app; by left|done]|subst]. split; [apply elem_of_app; right; by left|done].
  - intros m' [Hm|Hm%list_elem_of_singleton]%elem_of_app Hu'; [|subst; congruence]. destruct (H2 m' Hm Hu') as [[? ?]|?]; [left|by right]. split; [apply elem_of_app; by left|done].
  - intros Hv m' [Hm|Hm%list_elem_of_singleton]%elem_of_app; [by apply H3|by subst].
  - intros Hv. destruct (H4 Hv) as (m' & ? & ?). exists m'. split; [apply elem_of_app; by left|done].
  - intros _. exists m. split; [apply elem_of_app; right; by left|done].
Qed.

Lemma kept_dropped t seen s m : kept t seen s -> (updates m = true -> void t (mx_xid m)) -> kept t (seen ++ [m]) s.
Proof.
  intros [H0 H1 H2 H3 H4 H5 H6 H7] Hu. split; try done.
  - by apply sublist_inserts_r.
  - intros m' Hm. destruct (H1 m' Hm). split; [apply elem_of_app; by left|done].
  - intros m' [Hm|Hm%list_elem_of_singleton]%elem_of_app Hu'; [by apply H2|subst]. right. by apply Hu.
Qed.

(** The updater is kept. *)
Lemma kept_update t seen s m b :
  kept t seen s -> updates m = true -> TransactionIdIsValid (update_xid s) = false -> (forall m', m' ∈ seen -> updates m' = false) ->
  recent rf (mx_xid m) -> TransactionIdPrecedes (mx_xid m) (OldestXmin c) = false -> (b = true -> done_at t (mx_xid m) /\ committed (mx_xid m) = true) ->
  kept t (seen ++ [m]) {| newmembers := newmembers s ++ [m]; has_lockers := has_lockers s; update_xid := mx_xid m; update_committed := b |}.
Proof.
  intros [H0 H1 H2 H3 H4 H5 H6 H7] Hu Hv Hno Hr Hp Hb. pose proof (recent_valid _ Hr) as Hval. split; cbn; try done.
  - by apply sublist_app.
  - intros m' [Hm|Hm%list_elem_of_singleton]%elem_of_app; [destruct (H1 m' Hm); split; [apply elem_of_app; by left|done]|subst]. split; [apply elem_of_app; right; by left|done].
  - intros m' [Hm|Hm%list_elem_of_singleton]%elem_of_app Hu'; [by rewrite (Hno m' Hm) in Hu'|subst]. left. split; [apply elem_of_app; right; by left|done].
  - by rewrite Hval.
  - intros _. exists m. split; [apply elem_of_app; right; by left|done].
  - intros Hl. right. exists m. destruct (H5 Hl) as [->|(m' & E & Hu')]; [done|]. destruct (H1 m'); [rewrite E; by left|]. by rewrite (Hno m') in Hu'.
  - intros Hb'. destruct (Hb Hb'). done.
  - intros Hl. destruct (H7 Hl) as (m' & ? & ?). exists m'. split; [apply elem_of_app; by left|done].
Qed.

Lemma keep_members_spec members seen s Q t :
  (t0 <= t)%nat -> kept t seen s -> one_updater (seen ++ members) -> (forall m, m ∈ members -> recent rf (mx_xid m) /\ known t (mx_xid m)) ->
  (forall m, m ∈ members -> updates m = true -> TransactionIdPrecedes (mx_xid m) (OldestXmin c) = true -> committed (mx_xid m) = false) ->
  (forall s' t', (t <= t')%nat -> kept t' (seen ++ members) s' -> Q s' t') ->
  fwp (keep_members c members s) Q t.
Proof.
  revert seen s Q t. induction members as [|m ms IH]; intros seen s Q t Ht Hk Hone Hm Hnc HQ; cbn [keep_members].
  { fstep. apply HQ; [done|]. by rewrite app_nil_r. }
  destruct (Hm m ltac:(by left)) as [Hr Hkn]. fstep. fstep; [by rewrite (recent_not_before _ Hr)|].
  assert (Hgo : forall s' t', (t <= t')%nat -> kept t' (seen ++ [m]) s' -> fwp (keep_members c ms s') Q t').
  { intros s' t' Ht' Hk'. apply (IH (seen ++ [m])); [lia|done|by rewrite <- app_assoc| | |].
    - intros m' Hin. destruct (Hm m' ltac:(by right)). split; [done|by eapply known_still].
    - intros m' Hin. apply Hnc. by right.
    - intros s'' t'' Ht'' Hk''. apply HQ; [lia|]. by rewrite <- app_assoc in Hk''. }
  fold (updates m). destruct (updates m) eqn:Eu; cbn [negb].
  - assert (Hno : forall m', m' ∈ seen -> updates m' = false) by (by eapply Hone).
    assert (Hv : TransactionIdIsValid (update_xid s) = false).
    { apply not_true_is_false. intros Hv. destruct (k_some _ _ _ Hk Hv) as (m' & Hin & Hu' & _). destruct (k_seen _ _ _ Hk m' Hin) as [Hs _]. by rewrite (Hno m' Hs) in Hu'. }
    assert (Hcf : update_committed s = false).
    { apply not_true_is_false. intros Hcm. destruct (k_committed _ _ _ Hk Hcm) as [? _]. congruence. }
    rewrite Hv. fstep. apply running_spec; [done|done| |].
    + intros t' Ht' _ Hp. rewrite Hp. apply Hgo; [done|]. apply kept_update; try done; [by eapply kept_later|]. by rewrite Hcf.
    + intros t' Ht' Hd. fstep. fstep. pose proof (did_commit_done t t' (mx_xid m) Hd ltac:(lia)) as Ec. destruct (xact_did_commit t' (mx_xid m)).
      * destruct (TransactionIdPrecedes (mx_xid m) (OldestXmin c)) eqn:Ep; [by rewrite (Hnc m ltac:(by left) Eu Ep) in Ec|]. apply Hgo; [lia|].
        apply kept_update; try done; [eapply kept_later; [done|lia]|]. intros _. split; [eapply done_mono; [done|lia]|done].
      * apply Hgo; [lia|]. apply kept_dropped; [eapply kept_later; [done|lia]|]. intros _. split; [eapply done_mono; [done|lia]|done].
  - fstep. apply running_spec; [done|done| |].
    + intros t' Ht' Hrun Hp. rewrite Hp. apply Hgo; [done|]. apply kept_locker; [by eapply kept_later|done..].
    + intros t' Ht' Hd. apply Hgo; [lia|]. apply kept_dropped; [eapply kept_later; [done|lia]|congruence].
Qed.

(** ** Multixacts *)

Lemma find_skip (l : list MultiXactMember) m r : (forall m', m' ∈ l -> updates m' = false) -> updates m = true -> find updates (l ++ m :: r) = Some m.
Proof.
  intros Hl Hm. induction l as [|a l IH]; cbn; [by rewrite Hm|]. rewrite (Hl a) by (by left). apply IH. intros m' ?. apply Hl. by right.
Qed.

(** The updater of the tuple is the member that updates. *)
Lemma updater_member t h m :
  tst (t_infomask h) HEAP_XMAX_IS_MULTI = true -> multi_ok t h -> m ∈ xmax_members h -> updates m = true -> xmax_updater h = Some (mx_xid m).
Proof.
  intros Hmul [_ _ Hno Hone] Hin Hu. unfold xmax_updater. rewrite Hmul. destruct (HEAP_XMAX_IS_LOCKED_ONLY _) eqn:El; [by rewrite (Hno eq_refl m Hin) in Hu|].
  destruct (Hone eq_refl) as (l & m1 & r & E & Hu1 & Hrest). f_equal. unfold HeapTupleGetUpdateXid, MultiXactIdGetUpdateXid, HeapTupleHeaderGetRawXmax.
  unfold xmax_members in E, Hin. rewrite El in E, Hin. fold updates. rewrite E in Hin |- *. change (fun mem => ISUPDATE_from_mxstatus (mx_status mem)) with updates.
  rewrite find_skip; [|intros m' ?; apply Hrest; apply elem_of_app; by left|done].
  apply elem_of_app in Hin as [Hin|[->|Hin]%elem_of_cons]; [|done|]; rewrite (Hrest m) in Hu; try done; apply elem_of_app; [by left|by right].
Qed.

Lemma member_updater t h u :
  tst (t_infomask h) HEAP_XMAX_IS_MULTI = true -> multi_ok t h -> xmax_updater h = Some u -> exists m, m ∈ xmax_members h /\ updates m = true /\ mx_xid m = u.
Proof.
  intros Hmul Hok Hu. destruct (HEAP_XMAX_IS_LOCKED_ONLY (t_infomask h)) eqn:El; [unfold xmax_updater in Hu; by rewrite El in Hu|].
  destruct (mo_one _ _ Hok El) as (l & m & r & E & Hm & _). assert (Hin : m ∈ xmax_members h) by (rewrite E; apply elem_of_app; right; by left).
  exists m. split; [done|]. split; [done|]. rewrite (updater_member t h m Hmul Hok Hin Hm) in Hu. by injection Hu.
Qed.

Lemma multi_one_updater t h : multi_ok t h -> one_updater (xmax_members h).
Proof.
  intros [_ _ Hno Hone] l m r E Hm m' Hm'. destruct (HEAP_XMAX_IS_LOCKED_ONLY (t_infomask h)) eqn:El.
  - apply (Hno eq_refl). rewrite E. apply elem_of_app. by left.
  - destruct (Hone eq_refl) as (l1 & m1 & r1 & E1 & Hm1 & Hrest). apply not_true_is_false. intros Hu'. rewrite E in E1. clear E.
    assert (Hl : forall x, x ∈ l1 -> updates x = false) by (intros x ?; apply Hrest, elem_of_app; by left).
    assert (Hr : forall x, x ∈ r1 -> updates x = false) by (intros x ?; apply Hrest, elem_of_app; by right). clear -E1 Hm Hm' Hu' Hl Hr.
    revert l1 E1 Hl. induction l as [|a l IH]; intros l1 E Hl; [by apply elem_of_nil in Hm'|]. destruct l1 as [|b l1].
    + cbn in E. injection E as -> E. assert (Hin : m ∈ r1) by (rewrite <- E; apply elem_of_app; right; by left). by rewrite (Hr m Hin) in Hm.
    + cbn in E. injection E as -> E. apply elem_of_cons in Hm' as [->|Hm']; [by rewrite (Hl b ltac:(by left)) in Hu'|].
      apply (IH Hm' l1 E). intros x ?. apply Hl. by right.
Qed.

Inductive multi_verdict (t : nat) (h : HeapTupleHeaderData) (pf : HeapPageFreeze) : TransactionId * Z * HeapPageFreeze -> Prop :=
| verdict_noop oldest minmxid :
    recent rf oldest -> since rf oldest <= since rf (FreezePageRelfrozenXid pf) ->
    (forall m, m ∈ xmax_members h -> since rf oldest <= since rf (mx_xid m) /\ TransactionIdPrecedes (mx_xid m) (FreezeLimit c) = false) ->
    MultiXactIdIsValid (t_xmax h) = true -> MultiXactIdPrecedes (t_xmax h) (MultiXactCutoff c) = false ->
    multi_verdict t h pf (t_xmax h, FRM_NOOP,
      {| freeze_required := freeze_required pf; FreezePageRelfrozenXid := oldest; FreezePageRelminMxid := minmxid;
         NoFreezePageRelfrozenXid := NoFreezePageRelfrozenXid pf; NoFreezePageRelminMxid := NoFreezePageRelminMxid pf |})
| verdict_invalidate :
    (forall u, xmax_updater h = Some u -> void t u) -> multi_verdict t h pf (InvalidTransactionId, FRM_INVALIDATE_XMAX, require_freeze pf)
| verdict_xid u (b : bool) :
    xmax_updater h = Some u -> recent rf u -> TransactionIdPrecedes u (OldestXmin c) = false -> (b = true -> done_at t u /\ committed u = true) ->
    multi_verdict t h pf (u, if b then Z.lor FRM_RETURN_IS_XID FRM_MARK_COMMITTED else FRM_RETURN_IS_XID, require_freeze pf)
| verdict_multi ms :
    ms <> [] -> ms `sublist_of` xmax_members h -> (forall m, m ∈ ms -> m ∈ xmax_members h /\ TransactionIdPrecedes (mx_xid m) (OldestXmin c) = false) ->
    (forall u, xmax_updater h = Some u -> (exists m, m ∈ ms /\ updates m = true /\ mx_xid m = u) \/ void t u) ->
    MultiXactIdPrecedes (MultiXactIdCreateFromMembers ms) (OldestMxact c) = false ->
    multi_verdict t h pf (MultiXactIdCreateFromMembers ms, FRM_RETURN_IS_MULTI, require_freeze pf).

Context (t : nat) (h : HeapTupleHeaderData) (Ht : (t0 <= t)%nat) (Hfz : freezable t h).

(** An updater before the horizon came to nothing. *)
Lemma old_updater_void t' u :
  (t <= t')%nat -> xmax_updater h = Some u -> recent rf u -> TransactionIdPrecedes u (OldestXmin c) = true -> void t' u.
Proof.
  intros Ht' Hu Hr Hp. pose proof (fz_known _ _ Hfz u Hu (recent_valid u Hr)) as Hk. apply (known_still _ t') in Hk; [|done]. split; [split; [done|]|].
  - apply (co_done _ Hc); [lia|done|done].
  - apply (fz_kept _ _ Hfz); [done|by destruct Hr|done].
Qed.

Lemma locked_no_updater : HEAP_XMAX_IS_LOCKED_ONLY (t_infomask h) = true -> xmax_updater h = None.
Proof. intros E. unfold xmax_updater. by rewrite E. Qed.

Lemma freeze_old_multi_spec pf Q :
  tst (t_infomask h) HEAP_XMAX_IS_MULTI = true -> MultiXactIdPrecedes (t_xmax h) (OldestMxact c) = true ->
  (forall r t', (t <= t')%nat -> multi_verdict t' h pf r -> Q r t') -> fwp (freeze_old_multi (t_xmax h) h c pf) Q t.
Proof.
  intros Hmul Hold HQ. pose proof (fz_multi _ _ Hfz Hmul) as Hok. unfold freeze_old_multi. cbv zeta. fstep. apply fwp_on_header, vwp_multi.
  - intros m Hm. by apply (mo_recent _ _ Hok).
  - cbn [clock]. intros t' Ht' Hd. destruct (HEAP_XMAX_IS_LOCKED_ONLY _) eqn:El.
    + fstep. apply HQ; [done|]. constructor. rewrite (locked_no_updater El). done.
    + assert (Hup : xmax_updater h = Some (MultiXactIdGetUpdateXid (t_xmax h))) by (unfold xmax_updater; by rewrite El, Hmul).
      destruct (member_updater t h _ Hmul Hok Hup) as (m & Hm & Hu & Em). pose proof (mo_recent _ _ Hok m Hm) as [Hr Hk]. rewrite Em in Hr, Hk.
      rewrite (recent_not_before _ Hr). destruct (TransactionIdPrecedes (MultiXactIdGetUpdateXid (t_xmax h)) (OldestXmin c)) eqn:Ep.
      * destruct (old_updater_void t' _ Ht' Hup Hr Ep) as [Hd' Hc']. fstep. fstep. rewrite (did_commit_done t' t' _ Hd' ltac:(lia)), Hc'.
        fstep. apply HQ; [lia|]. constructor. rewrite Hup. intros u [= <-]. apply (void_later t'); [by split|lia].
      * fstep. apply HQ; [done|]. by apply (verdict_xid t' h pf _ false).
  - cbn [clock]. intros t' m Ht' Hm (i & Hi & Hrun). pose proof (co_multi_done _ Hc i _ _ m ltac:(lia) Hold Hm) as Hd. congruence.
Qed.

(** A multixact with a member that was seen in progress is not before the limit. *)
Lemma new_multi_recent multi lock ms m :
  ms <> [] -> ms `sublist_of` GetMultiXactIdMembers multi lock -> m ∈ ms -> ran (mx_xid m) ->
  MultiXactIdPrecedes (MultiXactIdCreateFromMembers ms) (OldestMxact c) = false.
Proof.
  intros Hms Hsub Hm (i & Hi & Hrun). apply not_true_is_false. intros Hp.
  pose proof (co_multi_done _ Hc i _ lock m Hi Hp) as Hd. rewrite (created_members ms multi lock lock Hms Hsub), Hrun in Hd. by specialize (Hd Hm).
Qed.

Lemma freeze_multi_spec pf Q :
  tst (t_infomask h) HEAP_XMAX_IS_MULTI = true -> recent rf (FreezePageRelfrozenXid pf) ->
  (forall r t', (t <= t')%nat -> multi_verdict t' h pf r -> Q r t') -> fwp (FreezeMultiXactId (t_xmax h) h c pf) Q t.
Proof.
  intros Hmul Hpf HQ. pose proof (fz_multi _ _ Hfz Hmul) as Hok. unfold FreezeMultiXactId. fstep. fstep; [done|].
  assert (Hnil : xmax_members h = [] -> forall u, xmax_updater h = Some u -> void t u).
  { intros E u Hu. destruct (member_updater t h u Hmul Hok Hu) as (m & Hm & _). rewrite E in Hm. by apply elem_of_nil in Hm. }
  destruct (negb (MultiXactIdIsValid (t_xmax h))) eqn:Ev; cbn [orb].
  { fstep. apply HQ; [done|]. constructor. apply Hnil. unfold xmax_members. unfold MultiXactIdIsValid in Ev. rewrite negb_involutive in Ev. apply Z.eqb_eq in Ev. rewrite Ev. apply invalid_members. }
  destruct (HEAP_LOCKED_UPGRADED (t_infomask h)) eqn:Eup.
  { fstep. apply HQ; [done|]. constructor. rewrite locked_no_updater; [done|]. rewrite locked_upgraded_bits in Eup. rewrite locked_only_bits. b2p. by use_bools. }
  rewrite (mo_limit _ _ Hok). destruct (MultiXactIdPrecedes (t_xmax h) (OldestMxact c)) eqn:Eold; [by apply freeze_old_multi_spec|].
  cbv zeta. fold (xmax_members h). destruct (Nat.eqb_spec (length (xmax_members h)) 0) as [E|_]; [fstep; apply HQ; [done|]; constructor; apply Hnil; by apply nil_length_inv|].
  fstep. apply oldest_member_spec; [intros m Hm; by apply (mo_recent _ _ Hok)|done|]. intros old oldest Ho Hle Hall.
  destruct (negb old && negb (MultiXactIdPrecedes (t_xmax h) (MultiXactCutoff c))) eqn:En.
  { fstep. apply andb_true_iff in En as [En1%negb_true_iff En2%negb_true_iff]. apply HQ; [done|]. apply verdict_noop; try done; [by apply Hall|by apply negb_false_iff in Ev]. }
  fstep. apply (keep_members_spec _ []); [done| |by apply (multi_one_updater t)|intros m Hm; by apply (mo_recent _ _ Hok)| |].
  { split; cbn; try done; [intros m Hm; by apply elem_of_nil in Hm..|intros _ m Hm; by apply elem_of_nil in Hm|by left]. }
  { intros m Hm Hu Hp. pose proof (mo_recent _ _ Hok m Hm) as [Hr _]. apply (old_updater_void t); [done|by apply (updater_member t)|done|done]. }
  cbn [app]. intros s t' Ht' Hk. assert (Hupd : forall u, xmax_updater h = Some u -> (exists m, m ∈ newmembers s /\ updates m = true /\ mx_xid m = u /\ update_xid s = u) \/ void t' u).
  { intros u Hu. destruct (member_updater t h u Hmul Hok Hu) as (m & Hm & Hum & <-). destruct (k_updater _ _ _ Hk m Hm Hum) as [[? ?]|?]; [left; by exists m|by right]. }
  destruct (Nat.eqb_spec (length (newmembers s)) 0) as [E|Hne].
  { fstep. apply HQ; [done|]. constructor. intros u Hu. destruct (Hupd u Hu) as [(m & Hm & _)|?]; [|done]. apply nil_length_inv in E. rewrite E in Hm. by apply elem_of_nil in Hm. }
  destruct (TransactionIdIsValid (update_xid s) && negb (has_lockers s)) eqn:Eu.
  - apply andb_true_iff in Eu as [Eu El%negb_true_iff]. destruct (k_single _ _ _ Hk El) as [E|(m & E & Hum)]; [by rewrite E in Hne|]. fstep. fstep; [by rewrite E|]. fstep.
    destruct (k_some _ _ _ Hk Eu) as (m' & Hm' & Hum' & Em'). destruct (k_seen _ _ _ Hk m' Hm') as [Hin Hp]. apply HQ; [done|]. rewrite <- Em'.
    apply verdict_xid; [by apply (updater_member t)|by apply (mo_recent _ _ Hok)|done|]. rewrite Em'. intros Hb. by apply (k_committed _ _ _ Hk Hb).
  - fstep. apply HQ; [done|]. assert (Hms : newmembers s <> []) by (intros E; by rewrite E in Hne).
    apply verdict_multi; [done|apply (k_sub _ _ _ Hk)|apply (k_seen _ _ _ Hk)| |].
    + intros u Hu. destruct (Hupd u Hu) as [(m & ? & ? & ? & _)|?]; [left; by exists m|by right].
    + assert (El : has_lockers s = true).
      { destruct (has_lockers s) eqn:El; [done|]. rewrite andb_true_r in Eu. destruct (k_single _ _ _ Hk El) as [E|(m & E & Hum)]; [done|].
        by rewrite (k_none _ _ _ Hk Eu m) in Hum by (rewrite E; by left). }
      destruct (k_running _ _ _ Hk El) as (m & Hm & Hrun). by apply (new_multi_recent (t_xmax h) (HEAP_XMAX_IS_LOCKED_ONLY (t_infomask h)) (newmembers s) m Hms (k_sub _ _ _ Hk)).
Qed.

(** ** The plan for xmax *)

(** What the flags [bits] and the field [xmax] of a plan mean for the tuple; [oldest] is the tracker. *)
Inductive xmax_after (t' : nat) (xmax : TransactionId) (bits : Z) (oldest : TransactionId) : Prop :=
| xa_same :
    xmax = t_xmax h ->
    (forall k, k ∈ [HEAP_XMAX_INVALID; HEAP_XMAX_COMMITTED; HEAP_XMAX_IS_MULTI; HEAP_XMAX_LOCK_ONLY; HEAP_XMAX_EXCL_LOCK; HEAP_XMAX_KEYSHR_LOCK] ->
       tst bits k = tst (t_infomask h) k) ->
    (if tst (t_infomask h) HEAP_XMAX_IS_MULTI then
       forall m, m ∈ xmax_members h -> since rf oldest <= since rf (mx_xid m) /\ TransactionIdPrecedes (mx_xid m) (FreezeLimit c) = false
     else t_xmax h = InvalidTransactionId \/ TransactionIdPrecedes (t_xmax h) (OldestXmin c) = false) ->
    xmax_after t' xmax bits oldest
| xa_gone :
    xmax = InvalidTransactionId -> tst bits HEAP_XMAX_INVALID = true -> tst bits HEAP_XMAX_IS_MULTI = false -> tst bits HEAP_XMAX_COMMITTED = false ->
    (forall u, xmax_updater h = Some u -> void t' u) -> xmax_after t' xmax bits oldest
| xa_xid (b : bool) :
    xmax_updater h = Some xmax -> recent rf xmax -> TransactionIdPrecedes xmax (OldestXmin c) = false ->
    tst bits HEAP_XMAX_COMMITTED = b -> (b = true -> done_at t' xmax /\ committed xmax = true) ->
    (forall k, k ∈ [HEAP_XMAX_INVALID; HEAP_XMAX_IS_MULTI; HEAP_XMAX_LOCK_ONLY; HEAP_XMAX_EXCL_LOCK; HEAP_XMAX_KEYSHR_LOCK] -> tst bits k = false) ->
    xmax_after t' xmax bits oldest
| xa_multi ms :
    ms <> [] -> ms `sublist_of` xmax_members h -> xmax = MultiXactIdCreateFromMembers ms -> (forall m, m ∈ ms -> m ∈ xmax_members h /\ TransactionIdPrecedes (mx_xid m) (OldestXmin c) = false) ->
    (forall u, xmax_updater h = Some u -> (exists m, m ∈ ms /\ updates m = true /\ mx_xid m = u) \/ void t' u) ->
    tst bits HEAP_XMAX_IS_MULTI = true -> tst bits HEAP_XMAX_LOCK_ONLY = negb (existsb updates ms) ->
    tst bits HEAP_XMAX_INVALID = false -> tst bits HEAP_XMAX_COMMITTED = false -> tst (t_infomask h) HEAP_XMAX_IS_MULTI = true ->
    xmax_after t' xmax bits oldest.

(** Flags that have nothing to do with xmax. *)
Definition other_flags : list Z := [HEAP_XMIN_COMMITTED; HEAP_XMIN_INVALID; HEAP_COMBOCID; HEAP_MOVED_OFF; HEAP_MOVED_IN].

Lemma other_kept m k : k ∈ other_flags -> tst (clear_bits m HEAP_XMAX_BITS) k = tst m k.
Proof. unfold other_flags. rewrite !elem_of_cons, elem_of_nil. intros H. decompose [or] H; subst; (done || by rewrite tst_kept). Qed.

(** The plan for xmax, before the parts common to all plans: whether xmax goes, the new field and flags, the tracker. *)
Record xmax_planned (t' : nat) (frz : HeapTupleFreeze) (pf : HeapPageFreeze) (r : xmax_plan * HeapTupleFreeze * HeapPageFreeze) : Prop := {
  xp_others : forall k, k ∈ other_flags -> tst (frz_infomask r.1.2) k = tst (t_infomask h) k;
  xp_flags : frzflags r.1.2 = frzflags frz;
  xp_checks : checkflags r.1.2 = checkflags frz \/
    (checkflags r.1.2 = Z.lor (checkflags frz) HEAP_FREEZE_CHECK_XMAX_ABORTED /\ TransactionIdIsNormal (t_xmax h) = true /\ void t' (t_xmax h));
  xp_tracker : recent rf (FreezePageRelfrozenXid r.2) /\ since rf (FreezePageRelfrozenXid r.2) <= since rf (FreezePageRelfrozenXid pf);
  xp_nofreeze : NoFreezePageRelfrozenXid r.2 = NoFreezePageRelfrozenXid pf;
  xp_required : freeze_required pf = true -> freeze_required r.2 = true;
  xp_replace : replace_xmax r.1.1 = true -> freeze_xmax r.1.1 = false /\ xmax_already_frozen r.1.1 = false /\ freeze_required r.2 = true;
  xp_goes : freeze_xmax r.1.1 = true -> xmax_already_frozen r.1.1 = false /\ forall u, xmax_updater h = Some u -> void t' u;
  xp_frozen : xmax_already_frozen r.1.1 = true -> t_xmax h = InvalidTransactionId /\ tst (t_infomask h) HEAP_XMAX_IS_MULTI = false;
  xp_same : replace_xmax r.1.1 = false -> frz_xmax r.1.2 = t_xmax h /\ frz_infomask r.1.2 = t_infomask h /\ frz_infomask2 r.1.2 = t_infomask2 h;
  xp_after : freeze_xmax r.1.1 = false -> xmax_after t' (frz_xmax r.1.2) (frz_infomask r.1.2) (FreezePageRelfrozenXid r.2)
}.

Definition plan_of_tuple (frz : HeapTupleFreeze) : Prop :=
  frz_xmax frz = t_xmax h /\ frz_infomask2 frz = t_infomask2 h /\ frz_infomask frz = t_infomask h.

Lemma prepare_freeze_multi_spec pf frz Q :
  plan_of_tuple frz -> tst (t_infomask h) HEAP_XMAX_IS_MULTI = true -> recent rf (FreezePageRelfrozenXid pf) ->
  (forall r t', (t <= t')%nat -> xmax_planned t' frz pf r -> Q r t') -> fwp (prepare_freeze_multi h c pf frz) Q t.
Proof.
  intros (E1 & E2 & E3) Hmul Hpf HQ. unfold prepare_freeze_multi. cbv zeta. fstep. rewrite E1. apply freeze_multi_spec; [done|done|].
  intros r t' Ht' [oldest minmxid Ho Hle Hall Hv Hcut|Hvoid|u b Hu Hr Hp Hb|ms Hms Hsub Hin Hupd Hnew]; fstep.
  - cbn [fst snd]. change (tst FRM_NOOP FRM_NOOP) with true. cbn iota. fstep. fstep; [by rewrite Hcut|]. fstep. fstep; [by rewrite Hv, Z.eqb_refl|]. fstep. fstep.
    fstep; [apply orb_true_r|]. fstep. apply HQ; [done|]. split; cbn; rewrite ?E1, ?E2, ?E3; try done; [by left|]. intros _. apply xa_same; [done|done|]. by rewrite Hmul.
  - change (tst FRM_INVALIDATE_XMAX FRM_NOOP) with false. change (tst FRM_INVALIDATE_XMAX FRM_RETURN_IS_XID) with false. change (tst FRM_INVALIDATE_XMAX FRM_RETURN_IS_MULTI) with false. cbn iota.
    fstep. fstep; [done|]. fstep. fstep; [done|]. fstep. fstep. fstep; [done|]. fstep. apply HQ; [done|]. split; cbn; rewrite ?E1, ?E2, ?E3; try done. by left.
  - assert (Ef : tst (if b then Z.lor FRM_RETURN_IS_XID FRM_MARK_COMMITTED else FRM_RETURN_IS_XID) FRM_NOOP = false) by (by destruct b). rewrite Ef. clear Ef.
    assert (Ef : tst (if b then Z.lor FRM_RETURN_IS_XID FRM_MARK_COMMITTED else FRM_RETURN_IS_XID) FRM_RETURN_IS_XID = true) by (by destruct b). rewrite Ef. clear Ef.
    assert (Ef : tst (if b then Z.lor FRM_RETURN_IS_XID FRM_MARK_COMMITTED else FRM_RETURN_IS_XID) FRM_MARK_COMMITTED = b) by (by destruct b). rewrite Ef. clear Ef.
    fstep. fstep; [by rewrite Hp|]. fstep. fstep. fstep; [done|]. fstep. apply HQ; [done|]. rewrite E2, E3. set (m := clear_bits _ HEAP_XMAX_BITS).
    assert (Hm : forall k, k ∈ [HEAP_XMAX_INVALID; HEAP_XMAX_COMMITTED; HEAP_XMAX_IS_MULTI; HEAP_XMAX_LOCK_ONLY; HEAP_XMAX_EXCL_LOCK; HEAP_XMAX_KEYSHR_LOCK] -> tst m k = false).
    { intros k. rewrite !elem_of_cons, elem_of_nil. intros H. decompose [or] H; subst; try done; apply tst_bits_cleared; reflexivity. }
    split; cbn; try done; [|by left|].
    + intros k Hk. rewrite <- (other_kept (t_infomask h) k Hk). fold m. destruct b; [|done]. rewrite tst_lor. unfold other_flags in Hk. rewrite !elem_of_cons, elem_of_nil in Hk.
      decompose [or] Hk; subst; try done; flag_consts; by rewrite orb_false_r.
    + intros _. apply (xa_xid _ _ _ _ b); try done.
      * destruct b; [rewrite tst_lor; flag_consts; apply orb_true_r|]. apply Hm. set_solver.
      * intros k Hk. assert (tst m k = false) as E by (apply Hm; among). destruct b; [|done]. rewrite tst_lor, E. rewrite !elem_of_cons, elem_of_nil in Hk. decompose [or] Hk; subst; done.
  - change (tst FRM_RETURN_IS_MULTI FRM_NOOP) with false. change (tst FRM_RETURN_IS_MULTI FRM_RETURN_IS_XID) with false. change (tst FRM_RETURN_IS_MULTI FRM_RETURN_IS_MULTI) with true. cbn iota.
    fstep. fstep; [by rewrite Hnew|]. pose proof (hint_bits_flags (MultiXactIdCreateFromMembers ms)) as (Hb1 & Hb2 & Hb3). rewrite (created_members ms _ _ false Hms Hsub) in Hb2.
    destruct (GetMultiXactIdHintBits _) as [bits bits2]. cbn [fst] in Hb1, Hb2, Hb3. fstep. fstep. fstep; [done|]. fstep. apply HQ; [done|]. rewrite E2, E3.
    split; cbn; try done; [|by left|].
    + intros k Hk. rewrite tst_lor, (other_kept (t_infomask h) k Hk), Hb3, orb_false_r; [done|]. unfold other_flags in Hk. set_solver.
    + intros _. eapply xa_multi; try done; rewrite tst_lor; [rewrite Hb1; apply orb_true_r|rewrite Hb2, tst_bits_cleared by reflexivity; done| |]; rewrite tst_bits_cleared by reflexivity; apply Hb3; set_solver.
Qed.

Lemma single_updater : tst (t_infomask h) HEAP_XMAX_IS_MULTI = false -> forall u, xmax_updater h = Some u -> HEAP_XMAX_IS_LOCKED_ONLY (t_infomask h) = false /\ u = t_xmax h.
Proof. intros Hmul u. unfold xmax_updater. rewrite Hmul. destruct (HEAP_XMAX_IS_LOCKED_ONLY _); [done|]. intros [= <-]. done. Qed.

Lemma prepare_freeze_xmax_spec pf frz Q :
  plan_of_tuple frz -> recent rf (FreezePageRelfrozenXid pf) ->
  (forall r t', (t <= t')%nat -> xmax_planned t' frz pf r -> Q r t') -> fwp (prepare_freeze_xmax h c pf frz) Q t.
Proof.
  intros Hfrz Hpf HQ. pose proof Hfrz as (E1 & E2 & E3). unfold prepare_freeze_xmax. cbv zeta. destruct (tst (t_infomask h) HEAP_XMAX_IS_MULTI) eqn:Hmul; [by apply prepare_freeze_multi_spec|]. rewrite E1.
  destruct (fz_xmax _ _ Hfz Hmul) as [E0|Hr].
  - rewrite E0. change (TransactionIdIsNormal InvalidTransactionId) with false. change (TransactionIdIsValid InvalidTransactionId) with false. cbn [negb]. fstep. fstep; [done|]. fstep. apply HQ; [done|].
    split; cbn; rewrite ?E1, ?E2, ?E3; try done; [by left|]. intros _. apply xa_same; [done|done|]. rewrite Hmul. by left.
  - destruct (proj1 Hr) as []. rewrite (proj1 Hr), (recent_not_before _ Hr). fstep. apply HQ; [done|]. destruct (TransactionIdPrecedes (t_xmax h) (OldestXmin c)) eqn:Ep.
    + assert (Hvoid : forall u, xmax_updater h = Some u -> void t u) by (intros u Hu; destruct (single_updater Hmul u Hu) as [_ ->]; by apply old_updater_void).
      cbn [andb]. destruct (HEAP_XMAX_IS_LOCKED_ONLY (t_infomask h)) eqn:El; cbn [negb]; split; cbn; rewrite ?E1, ?E2, ?E3; try done; [by left|].
      right. split; [done|]. split; [by destruct Hr|]. apply Hvoid. unfold xmax_updater. by rewrite El, Hmul.
    + cbn [andb]. split; cbn; rewrite ?E1, ?E2, ?E3; try done; [by left|]. intros _. apply xa_same; [done|done|]. rewrite Hmul. by right.
Qed.

(** ** Whether the page must be frozen *)

(** The transaction ids a header holds. *)
Definition holds_id (x : TransactionId) : Prop :=
  (frozen h = false /\ TransactionIdIsNormal (t_xmin h) = true /\ x = t_xmin h) \/
  (tst (t_infomask h) HEAP_XMAX_IS_MULTI = false /\ TransactionIdIsNormal (t_xmax h) = true /\ x = t_xmax h) \/
  (tst (t_infomask h) HEAP_XMAX_IS_MULTI = true /\ HEAP_LOCKED_UPGRADED (t_infomask h) = false /\ exists m, m ∈ xmax_members h /\ mx_xid m = x).

Lemma old_members_spec members oldest freeze Q t' :
  (forall m, m ∈ members -> recent rf (mx_xid m)) -> recent rf oldest ->
  (forall freeze' oldest', recent rf oldest' -> since rf oldest' <= since rf oldest ->
     (forall m, m ∈ members -> since rf oldest' <= since rf (mx_xid m)) ->
     (freeze' = false -> freeze = false /\ forall m, m ∈ members -> TransactionIdPrecedes (mx_xid m) (FreezeLimit c) = false) -> Q (freeze', oldest') t') ->
  fwp (old_members c members oldest freeze) Q t'.
Proof.
  revert oldest freeze Q. induction members as [|m ms IH]; intros oldest freeze Q Hm Ho HQ; cbn [old_members].
  - fstep. apply HQ; [done|lia| |intros ->; split; [done|]]; intros m Hin; by apply elem_of_nil in Hin.
  - pose proof (Hm m ltac:(by left)) as Hr. fstep. fstep; [by apply (precedes_or_equals_base rf (co_base _ Hc))|].
    pose proof (precedes_since rf (co_base _ Hc) _ _ Hr Ho) as Ep. apply IH; [intros m' ?; apply Hm; by right|by destruct (TransactionIdPrecedes _ oldest)|].
    intros freeze' oldest' Ho' Hle Hall Hf. assert (Hle' : since rf oldest' <= since rf oldest /\ since rf oldest' <= since rf (mx_xid m)).
    { rewrite Ep in Hle. destruct (Z.ltb_spec (since rf (mx_xid m)) (since rf oldest)); lia. }
    apply HQ; [done|lia| |].
    + intros m' [->|Hin]%elem_of_cons; [lia|by apply Hall].
    + intros E. destruct (Hf E) as [[E1 E2]%orb_false_iff Hf']. split; [done|]. intros m' [->|Hin]%elem_of_cons; [done|by apply Hf'].
Qed.

Lemma note_xid_spec x oldest freeze Q t' :
  recent rf x -> recent rf oldest ->
  (forall freeze' oldest', recent rf oldest' -> since rf oldest' <= since rf oldest -> since rf oldest' <= since rf x ->
     (freeze' = false -> freeze = false /\ TransactionIdPrecedes x (FreezeLimit c) = false) -> Q (freeze', oldest') t') ->
  fwp (note_xid c x oldest freeze false) Q t'.
Proof.
  intros Hx Ho HQ. unfold note_xid. fstep. fstep; [by apply (precedes_or_equals_base rf (co_base _ Hc))|]. fstep. pose proof (precedes_since rf (co_base _ Hc) _ _ Hx Ho) as Ep.
  rewrite Ep. destruct (Z.ltb_spec (since rf x) (since rf oldest)); (apply HQ; [done|lia|lia|]); rewrite orb_false_r; by intros [-> ->]%orb_false_iff.
Qed.

Lemma get_xmin_normal : TransactionIdIsNormal (HeapTupleHeaderGetXmin h) = true -> frozen h = false /\ TransactionIdIsNormal (t_xmin h) = true /\ HeapTupleHeaderGetXmin h = t_xmin h.
Proof. unfold HeapTupleHeaderGetXmin, frozen. destruct (HeapTupleHeaderXminFrozen h); [by vm_compute|done]. Qed.
Lemma get_xmin_special : TransactionIdIsNormal (HeapTupleHeaderGetXmin h) = false -> frozen h = false -> TransactionIdIsNormal (t_xmin h) = false.
Proof. unfold HeapTupleHeaderGetXmin, frozen. by destruct (HeapTupleHeaderXminFrozen h). Qed.

Lemma not_moved : tst (t_infomask h) HEAP_MOVED = false.
Proof. rewrite moved_bits. by rewrite (ok_not_moved_off _ _ (fz_ok _ _ Hfz)), (ok_not_moved_in _ _ (fz_ok _ _ Hfz)). Qed.

Lemma should_freeze_spec oldest minmxid Q t' :
  recent rf oldest ->
  (forall freeze oldest' minmxid', recent rf oldest' -> since rf oldest' <= since rf oldest -> (forall x, holds_id x -> since rf oldest' <= since rf x) ->
     (freeze = false -> forall x, holds_id x -> TransactionIdPrecedes x (FreezeLimit c) = false) -> Q (freeze, oldest', minmxid') t') ->
  fwp (heap_tuple_should_freeze h c oldest minmxid) Q t'.
Proof.
  intros Ho HQ. unfold heap_tuple_should_freeze. cbv zeta. rewrite not_moved. cbn [andb].
  assert (Hmin : forall K : bool * TransactionId -> nat -> Prop,
    (forall f o, recent rf o -> since rf o <= since rf oldest -> (frozen h = false -> TransactionIdIsNormal (t_xmin h) = true ->
       since rf o <= since rf (t_xmin h) /\ (f = false -> TransactionIdPrecedes (t_xmin h) (FreezeLimit c) = false)) -> K (f, o) t') ->
    fwp (if TransactionIdIsNormal (HeapTupleHeaderGetXmin h) then note_xid c (HeapTupleHeaderGetXmin h) oldest false false else fret (false, oldest)) K t').
  { intros K HK. destruct (TransactionIdIsNormal (HeapTupleHeaderGetXmin h)) eqn:En.
    - destruct (get_xmin_normal En) as (Hf & Hn & ->). apply note_xid_spec; [by apply (fz_xmin _ _ Hfz)|done|]. intros f o H1 H2 H3 H4. apply HK; [done..|]. intros _ _. split; [done|]. intros E. by apply H4.
    - fstep. apply HK; [done|lia|]. intros Hf Hn. by rewrite (get_xmin_special En Hf) in Hn. }
  fstep. apply Hmin. intros f o Hro Hlo Hx. fstep. destruct (tst (t_infomask h) HEAP_XMAX_IS_MULTI) eqn:Hmul.
  - change (TransactionIdIsNormal InvalidTransactionId) with false. cbn iota. pose proof (fz_multi _ _ Hfz Hmul) as Hok. change (HeapTupleHeaderGetRawXmax h) with (t_xmax h).
    destruct (negb (MultiXactIdIsValid (t_xmax h))) eqn:Ev; [|destruct (HEAP_LOCKED_UPGRADED (t_infomask h)) eqn:Eup].
    + fstep. fstep. apply HQ; [done|lia| |]; [|intros Ef]; intros x [(Hf & Hn & ->)|[(? & _)|(_ & _ & m & Hm & _)]]; try congruence; try (by apply Hx);
        unfold xmax_members in Hm; unfold MultiXactIdIsValid in Ev; rewrite negb_involutive in Ev; apply Z.eqb_eq in Ev; rewrite Ev, invalid_members in Hm; by apply elem_of_nil in Hm.
    + fstep. fstep. apply HQ; [done|lia| |done]. intros x [(Hf & Hn & ->)|[(? & _)|(_ & ? & _)]]; try congruence. by apply Hx.
    + fstep. fstep; [unfold MultiXactIdPrecedesOrEquals; pose proof (mo_limit _ _ Hok) as Hl; unfold MultiXactIdPrecedes in Hl; apply Z.ltb_ge in Hl; apply Z.leb_le;
        replace (relminmxid c - t_xmax h) with (- (t_xmax h - relminmxid c)) by lia; by apply s32_opp|].
      fold (xmax_members h). fstep. apply old_members_spec; [intros m Hm; by apply (mo_recent _ _ Hok)|done|]. intros f' o' Hro' Hlo' Hall Hf'. fstep. fstep. apply HQ; [done|lia| |].
      * intros x [(Hf & Hn & ->)|[(? & _)|(_ & _ & m & Hm & <-)]]; [|congruence|by apply Hall]. destruct (Hx Hf Hn). lia.
      * intros E. destruct (Hf' E) as [[Ef _]%orb_false_iff Hlim]. intros x [(Hf & Hn & ->)|[(? & _)|(_ & _ & m & Hm & <-)]]; [|congruence|by apply Hlim]. by apply Hx.
  - change (HeapTupleHeaderGetRawXmax h) with (t_xmax h). destruct (TransactionIdIsNormal (t_xmax h)) eqn:En.
    + destruct (fz_xmax _ _ Hfz Hmul) as [E|Hr]; [by rewrite E in En|]. fstep. apply note_xid_spec; [done|done|]. intros f' o' Hro' Hlo' Hlx Hf'. fstep. fstep. apply HQ; [done|lia| |].
      * intros x [(Hf & Hn & ->)|[(_ & _ & ->)|(? & _)]]; [|done|congruence]. destruct (Hx Hf Hn). lia.
      * intros E. destruct (Hf' E) as [Ef Hlim]. intros x [(Hf & Hn & ->)|[(_ & _ & ->)|(? & _)]]; [|done|congruence]. by apply Hx.
    + change (negb (MultiXactIdIsValid InvalidMultiXactId)) with true. cbn iota. fstep. fstep.
      apply HQ; [done|lia| |]; [|intros Ef]; intros x [(Hf & Hn & ->)|[(_ & ? & _)|(? & _)]]; try congruence; by apply Hx.
Qed.
End spec.
