(* ===== verification/FreezeTuple.v ===== *)
(** * A frozen tuple means the same

    The theorems on [heap_prepare_freeze_tuple]: the plan, once executed, changes the view of no observer, and the ids left on the page respect the
    limits and the trackers from which VACUUM computes the new [relfrozenxid] of the table. *)
From S2P Require Import Prelude TransactionId ItemPtr Bytes Page HeapTuple Snapshot Visibility VisibilitySpec VacuumSpec Freeze FreezeSpec.
Local Open Scope Z_scope.
Local Open Scope freeze_scope.

Section plan.
Context `{laws : XactLaws} {create : MultiXactCreate} {mlaws : MultiXactLaws}.
Context (c : VacuumCutoffs) (t0 : nat) (Hc : cutoffs_ok c t0).
Local Abbreviation rf := (relfrozenxid c).
Context (t : nat) (h : HeapTupleHeaderData) (Ht : (t0 <= t)%nat) (Hfz : freezable c t h).

(** Flags that tell what xmax is. *)
Definition xmax_flags : list Z := [HEAP_XMAX_INVALID; HEAP_XMAX_COMMITTED; HEAP_XMAX_IS_MULTI; HEAP_XMAX_LOCK_ONLY; HEAP_XMAX_EXCL_LOCK; HEAP_XMAX_KEYSHR_LOCK].

Lemma xmax_after_flags t' xmax bits bits' oldest :
  (forall k, k ∈ xmax_flags -> tst bits' k = tst bits k) -> xmax_after c h t' xmax bits oldest -> xmax_after c h t' xmax bits' oldest.
Proof.
  intros E. unfold xmax_flags in E. assert (Ei := E HEAP_XMAX_INVALID ltac:(set_solver)). assert (Ec := E HEAP_XMAX_COMMITTED ltac:(set_solver)).
  assert (Em := E HEAP_XMAX_IS_MULTI ltac:(set_solver)). assert (El := E HEAP_XMAX_LOCK_ONLY ltac:(set_solver)).
  intros [? Hk ?|????|b ????? Hk|ms ??????????].
  - apply xa_same; [done| |done]. intros k Hin. rewrite E by done. by apply Hk.
  - apply xa_gone; try done; congruence.
  - apply (xa_xid _ _ _ _ _ _ b); try done; [congruence|]. intros k Hin. rewrite E by among. by apply Hk.
  - apply (xa_multi _ _ _ _ _ _ ms); try done; congruence.
Qed.

(** What freezing makes of the tuple. *)
Record frozen_to (t' : nat) (g : HeapTupleHeaderData) (oldest : TransactionId) : Prop := {
  ft_fields : t_xmin g = t_xmin h /\ t_field3 g = t_field3 h /\ t_ctid g = t_ctid h /\ t_hoff g = t_hoff h /\ t_bits g = t_bits h;
  ft_others : forall k, k ∈ [HEAP_COMBOCID; HEAP_MOVED_OFF; HEAP_MOVED_IN] -> tst (t_infomask g) k = tst (t_infomask h) k;
  ft_xmin :
    (tst (t_infomask g) HEAP_XMIN_COMMITTED = tst (t_infomask h) HEAP_XMIN_COMMITTED /\ tst (t_infomask g) HEAP_XMIN_INVALID = tst (t_infomask h) HEAP_XMIN_INVALID /\
     (frozen h = false -> TransactionIdIsNormal (t_xmin h) = true -> TransactionIdPrecedes (t_xmin h) (OldestXmin c) = false)) \/
    (tst (t_infomask g) HEAP_XMIN_COMMITTED = true /\ tst (t_infomask g) HEAP_XMIN_INVALID = true /\
     frozen h = false /\ TransactionIdIsNormal (t_xmin h) = true /\ TransactionIdPrecedes (t_xmin h) (OldestXmin c) = true);
  ft_xmax : xmax_after c h t' (t_xmax g) (t_infomask g) oldest
}.

(** ** The same updater, or one that came to nothing *)

Section after.
Context (t' : nat) (g : HeapTupleHeaderData) (oldest : TransactionId) (Ht' : (t <= t')%nat) (Hg : frozen_to t' g oldest).

Lemma updater_flags : (forall k, k ∈ xmax_flags -> tst (t_infomask g) k = tst (t_infomask h) k) -> t_xmax g = t_xmax h -> updater g = updater h.
Proof.
  intros E Ex. unfold updater, HeapTupleGetUpdateXid, HeapTupleHeaderGetRawXmax. rewrite !locked_only_bits, Ex. unfold xmax_flags in E.
  by rewrite !E by set_solver.
Qed.

Lemma updater_stated : tst (t_infomask h) HEAP_XMAX_INVALID = false -> updater h = xmax_updater h.
Proof. intros E. unfold updater, xmax_updater. by rewrite E. Qed.

(** An updater of the new header is the one of the old. *)
Lemma new_updater u : updater g = Some u -> updater h = Some u \/ (updater h = None /\ void t' u).
Proof.
  assert (Hold : forall v, xmax_updater h = Some v -> TransactionIdIsValid v = true -> updater h = Some v \/ (updater h = None /\ void t' v)).
  { intros v Hv Hval. destruct (tst (t_infomask h) HEAP_XMAX_INVALID) eqn:Ei.
    - right. split; [unfold updater; by rewrite Ei|]. eapply void_later; [by apply (fz_hint _ _ _ Hfz)|done].
    - left. by rewrite updater_stated. }
  intros Hu. destruct (ft_xmax _ _ _ Hg) as [Ex Hk _|_ Ei _ _ _|b Hx Hr _ _ _ Hk|ms Hms Hsub Ex Hin _ Em El Ei _ Hmul].
  - left. by rewrite <- updater_flags.
  - unfold updater in Hu. by rewrite Ei in Hu.
  - unfold updater, HeapTupleHeaderGetRawXmax in Hu. rewrite locked_only_bits, !Hk in Hu by set_solver. cbn in Hu. injection Hu as <-. apply Hold; [done|by eapply recent_valid].
  - unfold updater in Hu. rewrite Ei, locked_only_bits, El, Em in Hu. cbn in Hu. rewrite orb_false_r in Hu. destruct (existsb updates ms) eqn:Eu; cbn in Hu; [|done]. injection Hu as <-.
    unfold HeapTupleGetUpdateXid, MultiXactIdGetUpdateXid, HeapTupleHeaderGetRawXmax. rewrite Ex, (created_members _ _ _ _ Hms Hsub). change (fun mem => ISUPDATE_from_mxstatus (mx_status mem)) with updates.
    destruct (find updates ms) as [m|] eqn:Ef.
    + apply find_some in Ef as [Hm%list_elem_of_In Hum]. destruct (Hin m Hm) as [Hmem _]. pose proof (fz_multi _ _ _ Hfz Hmul) as Hok.
      apply Hold; [by eapply updater_member|]. eapply recent_valid. by apply (mo_recent _ _ _ Hok).
    + apply existsb_exists in Eu as (m & Hm & Hum). by rewrite (find_none _ _ Ef m Hm) in Hum.
Qed.

(** An updater that is gone came to nothing. *)
Lemma lost_updater : updater g = None -> forall u, updater h = Some u -> void t' u.
Proof.
  intros Hn u Hu. assert (Hx : xmax_updater h = Some u).
  { unfold updater in Hu. unfold xmax_updater. by destruct (tst (t_infomask h) HEAP_XMAX_INVALID). }
  destruct (ft_xmax _ _ _ Hg) as [Ex Hk _|_ _ _ _ Hv|b Hx' Hr _ _ _ Hk|ms Hms Hsub Ex Hin Hupd Em El Ei _ Hmul].
  - rewrite (updater_flags Hk Ex) in Hn. congruence.
  - by apply Hv.
  - unfold updater in Hn. rewrite locked_only_bits, !Hk in Hn by set_solver. done.
  - destruct (Hupd u Hx) as [(m & Hm & Hum & <-)|?]; [|done]. unfold updater in Hn. rewrite Ei, locked_only_bits, El, Em in Hn. cbn in Hn. rewrite orb_false_r in Hn.
    assert (E : existsb updates ms = true) by (apply existsb_exists; exists m; split; [by apply list_elem_of_In|done]). by rewrite E in Hn.
Qed.

(** ** Well-formed *)

Lemma frozen_bits : frozen g = false -> frozen h = false.
Proof.
  unfold frozen. rewrite !xmin_frozen_bits. destruct (ft_xmin _ _ _ Hg) as [(-> & -> & _)|(-> & -> & _)]; done.
Qed.

Lemma xmax_known : tst (t_infomask g) HEAP_XMAX_INVALID = false -> forall x, holds_xmax g x -> known t' x.
Proof.
  intros Hi x Hx. pose proof (tuple_ok_mono _ t' _ (fz_ok _ _ _ Hfz) Ht') as Hok.
  destruct (ft_xmax _ _ _ Hg) as [Ex Hk _|_ Ei _ _ _|b Hu Hr _ _ _ Hk|ms Hms Hsub Ex Hin _ Em El _ _ Hmul].
  - apply (ok_known_xmax _ _ Hok); [rewrite <- Hk by set_solver; done|]. revert Hx. unfold holds_xmax, HeapTupleGetUpdateXid, HeapTupleHeaderGetRawXmax. rewrite Ex, !Hk by set_solver. done.
  - congruence.
  - unfold holds_xmax in Hx. rewrite Hk in Hx by set_solver. subst x. eapply known_mono; [apply (fz_known _ _ _ Hfz _ Hu); by eapply recent_valid|done].
  - pose proof (fz_multi _ _ _ Hfz Hmul) as Hm. assert (Hmem : forall m, m ∈ ms -> known t' (mx_xid m)).
    { intros m Hin'. destruct (Hin m Hin') as [Hh _]. eapply known_mono; [by apply (mo_recent _ _ _ Hm)|done]. }
    unfold holds_xmax in Hx. rewrite Em, El in Hx. destruct Hx as [[Eu ->]|(lock & m & Hin' & <-)]; [|apply Hmem; by rewrite Ex, (created_members _ _ _ _ Hms Hsub) in Hin'].
    apply negb_false_iff, existsb_exists in Eu as (m & Hm1 & Hm2). unfold HeapTupleGetUpdateXid, MultiXactIdGetUpdateXid, HeapTupleHeaderGetRawXmax. rewrite Ex, (created_members _ _ _ _ Hms Hsub).
    change (fun mem => ISUPDATE_from_mxstatus (mx_status mem)) with updates. destruct (find updates ms) as [m'|] eqn:Ef; [|by rewrite (find_none _ _ Ef m Hm1) in Hm2].
    apply find_some in Ef as [Hm'%list_elem_of_In _]. by apply Hmem.
Qed.

Lemma xmax_committed_true : tst (t_infomask g) HEAP_XMAX_COMMITTED = true -> forall u, updater g = Some u -> done_at t' u /\ committed u = true.
Proof.
  intros Hcm u Hu. pose proof (tuple_ok_mono _ t' _ (fz_ok _ _ _ Hfz) Ht') as Hok. destruct (ft_xmax _ _ _ Hg) as [Ex Hk _|_ Ei _ _ _|b Hx Hr _ Eb Hb Hk|ms Hms Hsub Ex Hin _ Em El _ Ec Hmul].
  - rewrite (updater_flags Hk Ex) in Hu. apply (ok_xmax_committed _ _ Hok); [rewrite <- Hk by set_solver; done|done].
  - unfold updater in Hu. by rewrite Ei in Hu.
  - unfold updater, HeapTupleHeaderGetRawXmax in Hu. rewrite locked_only_bits, !Hk in Hu by set_solver. cbn in Hu. injection Hu as <-. apply Hb. congruence.
  - congruence.
Qed.

Lemma frozen_tuple_ok : tuple_ok t' g.
Proof.
  pose proof (tuple_ok_mono _ t' _ (fz_ok _ _ _ Hfz) Ht') as Hok. destruct (ft_fields _ _ _ Hg) as (Ex & _). split.
  - intros Hf. rewrite Ex. by apply (ok_known_xmin _ _ Hok), frozen_bits.
  - apply xmax_known.
  - rewrite (ft_others _ _ _ Hg) by set_solver. apply (ok_not_moved_off _ _ Hok).
  - rewrite (ft_others _ _ _ Hg) by set_solver. apply (ok_not_moved_in _ _ Hok).
  - rewrite Ex. destruct (ft_xmin _ _ _ Hg) as [(-> & -> & _)|(-> & -> & _)]; [apply (ok_xmin_committed _ _ Hok)|done].
  - rewrite Ex. destruct (ft_xmin _ _ _ Hg) as [(-> & -> & _)|(-> & -> & _)]; [apply (ok_xmin_invalid _ _ Hok)|done].
  - apply xmax_committed_true.
  - rewrite Ex. destruct (ft_xmin _ _ _ Hg) as [(-> & _ & _)|(-> & _)]; [|done]. intros Hxc Hcur u Hu. destruct (new_updater u Hu) as [Hu'|[_ [? ?]]]; [|by right].
    by apply (ok_own _ _ Hok).
Qed.

(** ** Seen alike by everybody *)

(** The observer reads command ids from the fields that hold them. *)
Definition cid_fields (o : observer) : Prop := forall h h',
  t_field3 h' = t_field3 h -> tst (t_infomask h') HEAP_COMBOCID = tst (t_infomask h) HEAP_COMBOCID ->
  cmin_before o h' = cmin_before o h /\ cmax_before o h' = cmax_before o h.

Lemma snapshot_cid_fields s : cid_fields (snapshot_observer s).
Proof. intros h1 h2 E3 Ec. cbn. unfold HeapTupleHeaderGetCmin, HeapTupleHeaderGetCmax, HeapTupleHeaderGetRawCommandId. by rewrite E3, Ec. Qed.

Lemma void_not_seen o t1 u b : observer_ok t1 o -> void t' u -> (if own o u then b else negb (in_snap o u) && committed u) = false.
Proof.
  intros Ho [Hd Hv]. rewrite Hv, andb_false_r. destruct (own o u) eqn:E; [|done]. pose proof (own_running _ _ Ho (t1 + t') u ltac:(lia) E) as Hr.
  destruct (done_mono t' (t1 + t') _ Hd) as [_ Hr']; [lia|congruence].
Qed.

Lemma frozen_visible t1 o : observer_ok t1 o -> covered (OldestXmin c) o -> cid_fields o -> mvcc_visible o g = mvcc_visible o h.
Proof.
  intros Ho Hcov Hcid. destruct (ft_fields _ _ _ Hg) as (Ex & E3 & _). destruct (Hcid h g E3) as [Ecmin Ecmax]; [apply (ft_others _ _ _ Hg); set_solver|]. unfold mvcc_visible. f_equal; [|f_equal].
  - unfold inserted_before, frozen. rewrite !xmin_frozen_bits, Ex, Ecmin. destruct (ft_xmin _ _ _ Hg) as [(-> & -> & _)|(-> & -> & Hf & Hn & Hp)]; [done|].
    destruct (Hcov _ Hp) as [-> ->]. rewrite (fz_inserted _ _ _ Hfz) by done. symmetry. apply orb_true_r.
  - unfold deleted_before. rewrite Ecmax. destruct (updater g) as [u|] eqn:Eg.
    + destruct (new_updater u Eg) as [->|[-> Hv]]; [done|]. by eapply void_not_seen.
    + destruct (updater h) as [u|] eqn:Eh; [|done]. symmetry. eapply void_not_seen; [done|]. by apply (lost_updater Eg).
Qed.
End after.

(** ** The plan *)

(** The new flags of xmin do not touch those of xmax. *)
Definition with_xmin (b : bool) (m : Z) : Z := if b then Z.lor m HEAP_XMIN_FROZEN else m.

Lemma with_xmin_other b m k : tst HEAP_XMIN_FROZEN k = false -> tst (with_xmin b m) k = tst m k.
Proof. intros E. destruct b; [|done]. cbn. by rewrite tst_lor, E, orb_false_r. Qed.

(** The executed plan, from the plan for xmax [frz] and whether xmin is frozen. *)
Lemma execute_plan (b : bool) (pl : xmax_plan) frz0 frz t' pf0 pf :
  (b = true -> frozen h = false /\ TransactionIdIsNormal (t_xmin h) = true /\ TransactionIdPrecedes (t_xmin h) (OldestXmin c) = true) ->
  (b = false -> frozen h = false -> TransactionIdIsNormal (t_xmin h) = true -> TransactionIdPrecedes (t_xmin h) (OldestXmin c) = false) ->
  xmax_planned c h t' frz0 pf0 (pl, frz, pf) ->
  forall f3 m2, f3 = t_field3 h ->
  let m := with_xmin b (frz_infomask frz) in
  frozen_to t' {| t_xmin := t_xmin h; t_xmax := if freeze_xmax pl then InvalidTransactionId else frz_xmax frz; t_field3 := f3; t_ctid := t_ctid h; t_infomask2 := m2;
    t_infomask := if freeze_xmax pl then Z.lor (clear_bits m HEAP_XMAX_BITS) HEAP_XMAX_INVALID else m; t_hoff := t_hoff h; t_bits := t_bits h |} (FreezePageRelfrozenXid pf).
Proof.
  intros Hb Hnb Hp f3 m2 -> m. pose proof (xp_others _ _ _ _ _ _ Hp) as Ho. cbn [fst snd] in Ho.
  assert (Ho' : forall k, k ∈ other_flags -> tst (if freeze_xmax pl then Z.lor (clear_bits m HEAP_XMAX_BITS) HEAP_XMAX_INVALID else m) k = tst m k).
  { intros k Hk. destruct (freeze_xmax pl); [|done]. rewrite tst_lor, other_kept by done. unfold other_flags in Hk. rewrite !elem_of_cons, elem_of_nil in Hk.
    decompose [or] Hk; subst; try done; flag_consts; apply orb_false_r. }
  split; cbn [t_xmin t_field3 t_ctid t_hoff t_bits t_infomask t_xmax]; [done| | |].
  - intros k Hk. rewrite Ho' by (unfold other_flags; among). unfold m. rewrite with_xmin_other; [apply Ho; unfold other_flags; among|]. rewrite !elem_of_cons, elem_of_nil in Hk. decompose [or] Hk; subst; done.
  - rewrite !Ho' by (unfold other_flags; set_solver). unfold m. destruct b; cbn [with_xmin]; [right|left].
    + rewrite !tst_lor. flag_consts. rewrite !orb_true_r. by destruct Hb as (? & ? & ?).
    + rewrite !Ho by (unfold other_flags; set_solver). auto.
  - destruct (freeze_xmax pl) eqn:Ef.
    + destruct (xp_goes _ _ _ _ _ _ Hp Ef) as [_ Hv]. apply xa_gone; [done| | | |done]; rewrite tst_lor; flag_consts; [apply orb_true_r|..]; by rewrite tst_bits_cleared.
    + eapply xmax_after_flags; [|by apply (xp_after _ _ _ _ _ _ Hp)]. intros k Hk. cbn [fst snd]. apply with_xmin_other. unfold xmax_flags in Hk. rewrite !elem_of_cons, elem_of_nil in Hk. decompose [or] Hk; subst; done.
Qed.

Lemma checks_pass frz t' :
  (tst (checkflags frz) HEAP_FREEZE_CHECK_XMIN_COMMITTED = true -> frozen h = false /\ done_at t' (t_xmin h) /\ committed (t_xmin h) = true) ->
  (tst (checkflags frz) HEAP_FREEZE_CHECK_XMAX_ABORTED = true -> TransactionIdIsNormal (t_xmax h) = true /\ void t' (t_xmax h)) ->
  fwp (pre_freeze_check frz h) (fun _ _ => True) t'.
Proof.
  intros Hmin Hmax. unfold pre_freeze_check. fstep. change (HeapTupleHeaderGetRawXmax h) with (t_xmax h). change (HeapTupleHeaderGetRawXmin h) with (t_xmin h).
  assert (Htail : forall t'', (t' <= t'')%nat ->
    fwp (if tst (checkflags frz) HEAP_FREEZE_CHECK_XMAX_ABORTED then
           Assert (TransactionIdIsNormal (t_xmax h)) ;! let! c := did_commit (t_xmax h) in if c then ferror else fret tt
         else fret tt) (fun _ _ => True) t'').
  { intros t'' Ht''. destruct (tst (checkflags frz) HEAP_FREEZE_CHECK_XMAX_ABORTED) eqn:E; [|by fstep]. destruct (Hmax eq_refl) as (Hn & Hd & Hv).
    fstep. fstep; [done|]. fstep. fstep. rewrite (did_commit_done t' t'' _ Hd Ht''), Hv. by fstep. }
  destruct (tst (checkflags frz) HEAP_FREEZE_CHECK_XMIN_COMMITTED) eqn:E; [|fstep; by apply Htail]. destruct (Hmin eq_refl) as (Hf & Hd & Hv).
  fstep. fstep; [by apply negb_true_iff|]. fstep. fstep. rewrite (did_commit_done t' t' _ Hd ltac:(lia)), Hv. cbn [negb]. fstep. apply Htail. lia.
Qed.

(** The ids left by the plan, the ids there were, and the trackers. *)
Record planned (t' : nat) (pf : HeapPageFreeze) (r : bool * HeapTupleFreeze * bool * HeapPageFreeze) : Prop := {
  pd_after : frozen_to t' (heap_execute_freeze_tuple h r.1.1.2) (FreezePageRelfrozenXid r.2);
  pd_idle : r.1.1.1 = false -> heap_execute_freeze_tuple h r.1.1.2 = h;
  pd_checks : forall t'', (t' <= t'')%nat -> fwp (pre_freeze_check r.1.1.2 h) (fun _ _ => True) t'';
  pd_total : r.1.2 = true -> heap_tuple_needs_eventual_freeze (heap_execute_freeze_tuple h r.1.1.2) = false;
  pd_freeze : recent rf (FreezePageRelfrozenXid r.2) /\ since rf (FreezePageRelfrozenXid r.2) <= since rf (FreezePageRelfrozenXid pf);
  pd_nofreeze : recent rf (NoFreezePageRelfrozenXid r.2) /\ since rf (NoFreezePageRelfrozenXid r.2) <= since rf (NoFreezePageRelfrozenXid pf);
  pd_required : freeze_required pf = true -> freeze_required r.2 = true;
  pd_left : freeze_required r.2 = false -> forall x, holds_id h x ->
    since rf (NoFreezePageRelfrozenXid r.2) <= since rf x /\ TransactionIdPrecedes x (FreezeLimit c) = false
}.

Lemma no_xvac : HeapTupleHeaderGetXvac h = InvalidTransactionId.
Proof. unfold HeapTupleHeaderGetXvac. by rewrite (not_moved c t h Hfz). Qed.

(** Whether xmin is to be frozen. *)
Definition freezes_xmin : bool :=
  negb (negb (TransactionIdIsNormal (HeapTupleHeaderGetXmin h))) && TransactionIdPrecedes (HeapTupleHeaderGetXmin h) (OldestXmin c).

Lemma freezes_xmin_true : freezes_xmin = true -> frozen h = false /\ TransactionIdIsNormal (t_xmin h) = true /\ TransactionIdPrecedes (t_xmin h) (OldestXmin c) = true.
Proof.
  unfold freezes_xmin. rewrite negb_involutive. intros [Hn Hp]%andb_true_iff. destruct (get_xmin_normal h Hn) as (Hf & Hn' & E). rewrite E in Hp. done.
Qed.

Lemma freezes_xmin_false : freezes_xmin = false -> frozen h = false -> TransactionIdIsNormal (t_xmin h) = true -> TransactionIdPrecedes (t_xmin h) (OldestXmin c) = false.
Proof.
  unfold freezes_xmin, HeapTupleHeaderGetXmin, frozen. intros E Hf Hn. rewrite Hf in E. change (HeapTupleHeaderGetRawXmin h) with (t_xmin h) in E. by rewrite Hn in E.
Qed.

Lemma xmin_done t' : (t <= t')%nat -> freezes_xmin = true -> frozen h = false /\ done_at t' (t_xmin h) /\ committed (t_xmin h) = true.
Proof.
  intros Ht' Hb. destruct (freezes_xmin_true Hb) as (Hf & Hn & Hp). split; [done|]. pose proof (ok_known_xmin _ _ (fz_ok _ _ _ Hfz) Hf) as Hk.
  apply (known_mono _ t') in Hk; [|done]. split; [split; [done|]|by apply (fz_inserted _ _ _ Hfz)]. apply (co_done _ _ Hc); [lia|done|done].
Qed.

(** The plan for the tuple, from the plan [frz] for xmax. *)
Definition whole_plan (pl : xmax_plan) (frz : HeapTupleFreeze) : HeapTupleFreeze :=
  let frz := if freezes_xmin then set_frz (frz_xmax frz) (frz_infomask2 frz) (Z.lor (frz_infomask frz) HEAP_XMIN_FROZEN) frz else frz in
  if freeze_xmax pl then
    set_frz InvalidTransactionId (clear_bits (clear_bits (frz_infomask2 frz) HEAP_HOT_UPDATED) HEAP_KEYS_UPDATED)
      (Z.lor (clear_bits (frz_infomask frz) HEAP_XMAX_BITS) HEAP_XMAX_INVALID) frz
  else frz.

Lemma execute_whole pl frz : frzflags frz = 0 -> exists m2,
  heap_execute_freeze_tuple h (whole_plan pl frz) =
  {| t_xmin := t_xmin h; t_xmax := if freeze_xmax pl then InvalidTransactionId else frz_xmax frz; t_field3 := t_field3 h; t_ctid := t_ctid h; t_infomask2 := m2;
     t_infomask := if freeze_xmax pl then Z.lor (clear_bits (with_xmin freezes_xmin (frz_infomask frz)) HEAP_XMAX_BITS) HEAP_XMAX_INVALID else with_xmin freezes_xmin (frz_infomask frz);
     t_hoff := t_hoff h; t_bits := t_bits h |}.
Proof.
  intros E. eexists. assert (Ef : frzflags (whole_plan pl frz) = 0) by (unfold whole_plan; by destruct freezes_xmin, (freeze_xmax pl)).
  unfold heap_execute_freeze_tuple. rewrite Ef. change (tst 0 XLH_FREEZE_XVAC) with false. change (tst 0 XLH_INVALID_XVAC) with false. cbn iota.
  unfold HeapTupleHeaderSetXmax, set_infomask2, set_infomask. cbn [t_xmin t_xmax t_field3 t_ctid t_infomask2 t_infomask t_hoff t_bits]. f_equal; unfold whole_plan, with_xmin; by destruct freezes_xmin, (freeze_xmax pl).
Qed.

(** Nothing is left to freeze. *)
Lemma nothing_left t' g oldest :
  frozen_to t' g oldest -> freezes_xmin || negb (TransactionIdIsNormal (HeapTupleHeaderGetXmin h)) = true ->
  t_xmax g = InvalidTransactionId -> tst (t_infomask g) HEAP_XMAX_IS_MULTI = false -> heap_tuple_needs_eventual_freeze g = false.
Proof.
  intros Hg Hmin Hx Hm. unfold heap_tuple_needs_eventual_freeze. rewrite Hm. change (HeapTupleHeaderGetRawXmax g) with (t_xmax g). rewrite Hx, moved_bits, !(ft_others _ _ _ Hg) by set_solver.
  rewrite (ok_not_moved_off _ _ (fz_ok _ _ _ Hfz)), (ok_not_moved_in _ _ (fz_ok _ _ _ Hfz)). cbn [orb andb]. change (TransactionIdIsNormal InvalidTransactionId) with false. cbn iota.
  assert (E : TransactionIdIsNormal (HeapTupleHeaderGetXmin g) = false); [|by rewrite E].
  unfold HeapTupleHeaderGetXmin. rewrite xmin_frozen_bits. destruct (ft_xmin _ _ _ Hg) as [(Ec & Ei & Hp)|(-> & -> & _)]; [|done].
  rewrite Ec, Ei, <- xmin_frozen_bits. change (HeapTupleHeaderGetRawXmin g) with (t_xmin g). rewrite (proj1 (ft_fields _ _ _ Hg)). change (t_xmin h) with (HeapTupleHeaderGetRawXmin h).
  fold (HeapTupleHeaderGetXmin h). destruct freezes_xmin eqn:Eb; [|by apply negb_true_iff]. destruct (freezes_xmin_true Eb) as (Hf & Hn & Hp'). by rewrite (Hp Hf Hn) in Hp'.
Qed.

Lemma whole_checks pl frz : checkflags (whole_plan pl frz) = checkflags frz.
Proof. unfold whole_plan. by destruct freezes_xmin, (freeze_xmax pl). Qed.

(** What is known of the plan is enough, whatever became of the trackers of the ids there were. *)
Lemma plan_complete frz0 pf pl frz pf1 pf2 t' :
  (t <= t')%nat -> frzflags frz0 = 0 -> checkflags frz0 = (if freezes_xmin then HEAP_FREEZE_CHECK_XMIN_COMMITTED else 0) ->
  xmax_planned c h t' frz0 pf (pl, frz, pf1) -> FreezePageRelfrozenXid pf2 = FreezePageRelfrozenXid pf1 ->
  (freeze_required pf1 = true -> freeze_required pf2 = true) ->
  recent rf (NoFreezePageRelfrozenXid pf2) /\ since rf (NoFreezePageRelfrozenXid pf2) <= since rf (NoFreezePageRelfrozenXid pf) ->
  (freeze_required pf2 = false -> forall x, holds_id h x -> since rf (NoFreezePageRelfrozenXid pf2) <= since rf x /\ TransactionIdPrecedes x (FreezeLimit c) = false) ->
  planned t' pf (freezes_xmin || false || replace_xmax pl || freeze_xmax pl, whole_plan pl frz,
    (freezes_xmin || negb (TransactionIdIsNormal (HeapTupleHeaderGetXmin h))) && (freeze_xmax pl || xmax_already_frozen pl), pf2).
Proof.
  intros Ht' Hfl Hck Hp Epf Hreq Hno Hleft. pose proof (xp_flags _ _ _ _ _ _ Hp) as Efl. cbn [fst snd] in Efl. destruct (execute_whole pl frz ltac:(congruence)) as [m2 Eg].
  assert (Hg : frozen_to t' (heap_execute_freeze_tuple h (whole_plan pl frz)) (FreezePageRelfrozenXid pf2)).
  { rewrite Eg, Epf. eapply execute_plan; [apply freezes_xmin_true|apply freezes_xmin_false|done|done]. }
  split; cbn [fst snd]; [done| | | | |done| |done].
  - rewrite orb_false_r. intros [[Eb Er]%orb_false_iff Ef]%orb_false_iff. destruct (xp_same _ _ _ _ _ _ Hp Er) as (E1 & E2 & E3). cbn [fst snd] in *.
    unfold heap_execute_freeze_tuple, whole_plan. rewrite Eb, Ef, Efl, Hfl. change (tst 0 XLH_FREEZE_XVAC) with false. change (tst 0 XLH_INVALID_XVAC) with false. cbn iota.
    rewrite E1, E2, E3. by destruct h.
  - intros t'' Ht''. apply checks_pass; rewrite whole_checks.
    + intros E. apply xmin_done; [lia|]. destruct freezes_xmin; [done|]. destruct (xp_checks _ _ _ _ _ _ Hp) as [Ec|(Ec & _)]; cbn [fst snd] in Ec; rewrite Ec, Hck in E; done.
    + intros E. destruct (xp_checks _ _ _ _ _ _ Hp) as [Ec|(Ec & Hn & Hv)]; cbn [fst snd] in Ec; [rewrite Ec, Hck in E; by destruct freezes_xmin|]. split; [done|by eapply void_later].
  - intros [Hmin Hmax]%andb_true_iff. eapply nothing_left; [done|done|..]; rewrite Eg; cbn [t_xmax t_infomask].
    all: destruct (freeze_xmax pl) eqn:Ef; [try done; rewrite tst_lor; flag_consts; by rewrite tst_bits_cleared|].
    all: cbn in Hmax; destruct (xp_frozen _ _ _ _ _ _ Hp Hmax) as [Hx Hm]; assert (Er : replace_xmax pl = false)
      by (apply not_true_is_false; intros Er; destruct (xp_replace _ _ _ _ _ _ Hp Er) as (_ & Ea & _); cbn [fst snd] in Ea; congruence).
    all: destruct (xp_same _ _ _ _ _ _ Hp Er) as (E1 & E2 & _); cbn [fst snd] in *; rewrite ?with_xmin_other by done; congruence.
  - rewrite Epf. apply (xp_tracker _ _ _ _ _ _ Hp).
  - intros Er. by apply Hreq, (xp_required _ _ _ _ _ _ Hp).
Qed.

Lemma prepare_freeze_tuple_spec pf Q :
  recent rf (FreezePageRelfrozenXid pf) -> recent rf (NoFreezePageRelfrozenXid pf) ->
  (forall r t', (t <= t')%nat -> planned t' pf r -> Q r t') -> fwp (heap_prepare_freeze_tuple h c pf) Q t.
Proof.
  intros Hpf Hnpf HQ. unfold heap_prepare_freeze_tuple. cbv zeta. fold freezes_xmin. rewrite no_xvac.
  change (TransactionIdIsNormal InvalidTransactionId) with false. cbn iota.
  assert (Hrel : negb (negb (TransactionIdIsNormal (HeapTupleHeaderGetXmin h))) && TransactionIdPrecedes (HeapTupleHeaderGetXmin h) rf = false).
  { rewrite negb_involutive. destruct (TransactionIdIsNormal (HeapTupleHeaderGetXmin h)) eqn:En; [|done]. destruct (get_xmin_normal h En) as (Hf & Hn & ->).
    by apply (fz_xmin _ _ _ Hfz). }
  rewrite Hrel. fstep. fstep. fstep.
  set (frz0 := if freezes_xmin then add_checkflags _ _ else _).
  assert (Hfrz0 : plan_of_tuple h frz0) by (unfold frz0; by destruct freezes_xmin).
  assert (Hflags0 : frzflags frz0 = 0) by (unfold frz0; by destruct freezes_xmin).
  assert (Hchk0 : checkflags frz0 = if freezes_xmin then HEAP_FREEZE_CHECK_XMIN_COMMITTED else 0) by (unfold frz0; by destruct freezes_xmin).
  clearbody frz0. eapply (prepare_freeze_xmax_spec c t0 Hc); [done|done|done|done|]. intros [[pl frz] pf1] t' Ht' Hp. cbn iota beta.
  fstep. fstep; [unfold freezes_xmin; destruct (TransactionIdIsNormal (HeapTupleHeaderGetXmin h)); [apply orb_true_r|done]|]. fstep. fstep; [done|].
  fstep. fstep; [destruct (replace_xmax pl) eqn:Er; [|done]; destruct (xp_replace _ _ _ _ _ _ Hp Er) as (E1 & E2 & E3); cbn [fst snd] in *; by rewrite E1, E2, E3|].
  fstep. fstep; [destruct (freeze_xmax pl) eqn:Ef; [|done]; destruct (xp_goes _ _ _ _ _ _ Hp Ef) as [E1 _]; cbn [fst snd] in *; rewrite E1; destruct (replace_xmax pl) eqn:Er; [|done];
    destruct (xp_replace _ _ _ _ _ _ Hp Er) as (E & _); cbn in E; congruence|].
  fold (whole_plan pl frz). pose proof (xp_nofreeze _ _ _ _ _ _ Hp) as En. cbn [fst snd] in En. fstep.
  destruct (negb (freeze_required pf1) && _) eqn:Eif; fstep.
  - eapply (should_freeze_spec c t0 Hc t h Ht Hfz); [by rewrite En|]. intros freeze oldest minmxid Ho Hle Hall Hlim. fstep. fstep. apply HQ; [done|].
    apply andb_true_iff in Eif as [Eif _]. apply negb_true_iff in Eif. eapply plan_complete; try done; cbn; [by rewrite Eif|by rewrite <- En|]. intros Hf x Hx. split; [by apply Hall|by apply Hlim].
  - fstep. apply HQ; [done|]. eapply plan_complete; try done; [rewrite En; split; [done|lia]|]. intros Er x Hx. rewrite Er in Eif. cbn in Eif.
    apply negb_false_iff, andb_true_iff in Eif as [Hmin Hmax]. exfalso. destruct (xp_frozen _ _ _ _ _ _ Hp Hmax) as [Hx0 Hm0].
    destruct Hx as [(Hf & Hn & _)|[(_ & Hn & _)|(Hm & _)]]; [|by rewrite Hx0 in Hn|congruence].
    unfold HeapTupleHeaderGetXmin, frozen in *. rewrite Hf in Hmin. change (HeapTupleHeaderGetRawXmin h) with (t_xmin h) in Hmin. by rewrite Hn in Hmin.
Qed.

(** The ids that stay are not before the tracker, nor before the limit. *)
Lemma ids_left t' g oldest :
  frozen_to t' g oldest -> recent rf oldest -> since rf oldest <= since rf (OldestXmin c) ->
  forall x, holds_id g x -> since rf oldest <= since rf x /\ TransactionIdPrecedes x (FreezeLimit c) = false.
Proof.
  intros Hg Ho Hle. assert (Hnew : forall x, recent rf x -> TransactionIdPrecedes x (OldestXmin c) = false -> since rf oldest <= since rf x /\ TransactionIdPrecedes x (FreezeLimit c) = false).
  { intros x Hr Hp. pose proof (co_order _ _ Hc). pose proof (co_oldest _ _ Hc). pose proof (co_limit _ _ Hc). rewrite (precedes_since rf (co_base _ _ Hc)) in Hp |- * by done.
    apply Z.ltb_ge in Hp. split; [lia|]. apply Z.ltb_ge. lia. }
  intros x [(Hf & Hn & ->)|[(Hm & Hn & ->)|(Hm & _ & m & Hin & <-)]].
  - destruct (ft_fields _ _ _ Hg) as (Ex & _). rewrite Ex in Hn |- *. pose proof (frozen_bits t' g oldest Hg Hf) as Hf'. destruct (ft_xmin _ _ _ Hg) as [(_ & _ & Hp)|(E1 & E2 & _)].
    + apply Hnew; [by apply (fz_xmin _ _ _ Hfz)|by apply Hp].
    + unfold frozen in Hf. by rewrite xmin_frozen_bits, E1, E2 in Hf.
  - destruct (ft_xmax _ _ _ Hg) as [Ex Hk H3|Ex _ _ _ _|b _ Hr Hp _ _ _|ms _ _ _ _ _ Em _ _ _ _]; [|by rewrite Ex in Hn|by apply Hnew|congruence].
    rewrite Hk in Hm by set_solver. rewrite Hm in H3. rewrite Ex in Hn |- *. destruct H3 as [E|Hp]; [by rewrite E in Hn|]. destruct (fz_xmax _ _ _ Hfz Hm) as [E|Hr]; [by rewrite E in Hn|by apply Hnew].
  - destruct (ft_xmax _ _ _ Hg) as [Ex Hk H3|_ _ Em _ _|b _ _ _ _ _ Hk|ms Hms Hsub Ex Hms' _ _ _ _ _ Hmul]; [|congruence|by rewrite Hk in Hm by set_solver|].
    + rewrite Hk in Hm by set_solver. rewrite Hm in H3. apply H3. revert Hin. clear -Hk Ex. unfold xmax_members. by rewrite !locked_only_bits, !Hk, Ex by set_solver.
    + unfold xmax_members in Hin. rewrite Ex, (created_members _ _ _ _ Hms Hsub) in Hin. destruct (Hms' m Hin) as [Hh Hp]. apply Hnew; [|done]. by apply (mo_recent _ _ _ (fz_multi _ _ _ Hfz Hmul)).
Qed.
End plan.

(** ** The theorems *)

Section theorems.
Context `{laws : XactLaws} {create : MultiXactCreate} {mlaws : MultiXactLaws}.

(** C9 -- Freezing changes nobody's view.  For a tuple whose ids lie within the limits of the table and that VACUUM has not found dead,
    [heap_prepare_freeze_tuple] returns a plan: it reports no corruption and no assertion in it fails.  The checks before the plan is carried out
    pass at any later time.  The header that [heap_execute_freeze_tuple] then writes, which is the old one when the plan says that there is
    nothing to do, has truthful hint bits, needs no freezing ever again when the plan calls it totally frozen, and is visible to exactly the
    observers that saw the tuple before, of all those that the horizon [OldestXmin] covers. *)
Theorem freeze_keeps_visibility c t0 t h pf :
  cutoffs_ok c t0 -> (t0 <= t)%nat -> freezable c t h ->
  recent (relfrozenxid c) (FreezePageRelfrozenXid pf) -> recent (relfrozenxid c) (NoFreezePageRelfrozenXid pf) ->
  exists do_freeze frz totally_frozen pf' t',
    heap_prepare_freeze_tuple h c pf t = Done (do_freeze, frz, totally_frozen, pf', t') /\ (t <= t')%nat /\
    (forall t1, (t' <= t1)%nat -> exists t2, pre_freeze_check frz h t1 = Done (tt, t2)) /\
    let g := heap_execute_freeze_tuple h frz in
    (do_freeze = false -> g = h) /\ tuple_ok t' g /\ (totally_frozen = true -> heap_tuple_needs_eventual_freeze g = false) /\
    forall t1 o, observer_ok t1 o -> covered (OldestXmin c) o -> cid_fields o -> mvcc_visible o g = mvcc_visible o h.
Proof.
  intros Hc Ht Hfz Hpf Hnpf.
  assert (H : fwp (heap_prepare_freeze_tuple h c pf) (fun r t' => (t <= t')%nat /\ planned c h t' pf r) t) by (eapply prepare_freeze_tuple_spec; eauto).
  destruct H as ([[[b frz] tf] pf'] & t' & E & Ht' & Hp). exists b, frz, tf, pf', t'. split; [done|]. split; [done|].
  pose proof (pd_after _ _ _ _ _ Hp) as Hg. split; [|split; [|split; [|split]]].
  - intros t1 Ht1. destruct (pd_checks _ _ _ _ _ Hp t1 Ht1) as ([] & t2 & E' & _). by exists t2.
  - apply (pd_idle _ _ _ _ _ Hp).
  - by eapply frozen_tuple_ok.
  - apply (pd_total _ _ _ _ _ Hp).
  - intros. by eapply frozen_visible.
Qed.

(** C10 -- The trackers keep the promise that a table's [relfrozenxid] makes.  After [heap_prepare_freeze_tuple] no id in the header as the plan would
    leave it is older than the tracker for a frozen page, nor older than the freeze limit; and unless freezing is now required, no id in the header as
    it stands is older than the tracker for a page left alone, nor older than that limit.  The trackers never advance. *)
Theorem freeze_trackers c t0 t h pf :
  cutoffs_ok c t0 -> (t0 <= t)%nat -> freezable c t h ->
  recent (relfrozenxid c) (FreezePageRelfrozenXid pf) -> recent (relfrozenxid c) (NoFreezePageRelfrozenXid pf) ->
  since (relfrozenxid c) (FreezePageRelfrozenXid pf) <= since (relfrozenxid c) (OldestXmin c) ->
  exists do_freeze frz totally_frozen pf' t',
    heap_prepare_freeze_tuple h c pf t = Done (do_freeze, frz, totally_frozen, pf', t') /\
    (forall x, holds_id (heap_execute_freeze_tuple h frz) x ->
       since (relfrozenxid c) (FreezePageRelfrozenXid pf') <= since (relfrozenxid c) x /\ TransactionIdPrecedes x (FreezeLimit c) = false) /\
    (freeze_required pf' = false -> forall x, holds_id h x ->
       since (relfrozenxid c) (NoFreezePageRelfrozenXid pf') <= since (relfrozenxid c) x /\ TransactionIdPrecedes x (FreezeLimit c) = false) /\
    since (relfrozenxid c) (FreezePageRelfrozenXid pf') <= since (relfrozenxid c) (FreezePageRelfrozenXid pf) /\
    since (relfrozenxid c) (NoFreezePageRelfrozenXid pf') <= since (relfrozenxid c) (NoFreezePageRelfrozenXid pf) /\
    (freeze_required pf = true -> freeze_required pf' = true).
Proof.
  intros Hc Ht Hfz Hpf Hnpf Hle.
  assert (H : fwp (heap_prepare_freeze_tuple h c pf) (fun r t' => (t <= t')%nat /\ planned c h t' pf r) t) by (eapply prepare_freeze_tuple_spec; eauto).
  destruct H as ([[[b frz] tf] pf'] & t' & E & Ht' & Hp). exists b, frz, tf, pf', t'. split; [done|].
  destruct (pd_freeze _ _ _ _ _ Hp) as [Hr1 Hl1]. destruct (pd_nofreeze _ _ _ _ _ Hp) as [Hr2 Hl2]. cbn [fst snd] in *. split; [|split; [|split; [|split]]]; try done.
  - eapply (ids_left c t0 Hc t h Ht Hfz); [by apply (pd_after _ _ _ _ _ Hp)|done|lia].
  - apply (pd_left _ _ _ _ _ Hp).
  - apply (pd_required _ _ _ _ _ Hp).
Qed.
End theorems.

(** ** Example: a tuple locked and updated by a multixact *)

Module FreezeExample.

(** 100 and 120 have committed, 400, 450 and the current transaction 500 run. *)
Definition is_current (x : TransactionId) : bool := x =? 500.
Definition running (x : TransactionId) : bool := bool_decide (x ∈ [400; 450; 500]).
Definition did (x : TransactionId) : bool := bool_decide (x ∈ [100; 120]).

Definition old_locker : MultiXactMember := {| mx_xid := 120; mx_status := MultiXactStatusForKeyShare |}.
Definition new_updater : MultiXactMember := {| mx_xid := 400; mx_status := MultiXactStatusNoKeyUpdate |}.
Definition new_locker : MultiXactMember := {| mx_xid := 450; mx_status := MultiXactStatusForKeyShare |}.

(** The multixacts: every non-empty part of the three members has one. *)
Definition multis : list (MultiXactId * list MultiXactMember) :=
  [(17, [old_locker]); (18, [new_updater]); (19, [new_locker]); (20, [old_locker; new_updater]); (21, [old_locker; new_locker]);
   (22, [new_updater; new_locker]); (23, [old_locker; new_updater; new_locker])].

Definition members_of (multi : MultiXactId) : list MultiXactMember := from_option snd [] (list_find (fun p => p.1 = multi) multis ≫= fun r => Some r.2).
Definition member_id (m : MultiXactMember) : TransactionId := mx_xid m.
Definition multi_of (ms : list MultiXactMember) : MultiXactId :=
  from_option fst 23 (list_find (fun p => map member_id p.2 = map member_id ms) multis ≫= fun r => Some r.2).

Definition history : XactEnv := {|
  TransactionIdIsCurrentTransactionId := is_current;
  xact_in_progress := fun _ => running;
  xact_did_commit := fun _ => did;
  xact_commit_lsn := fun _ _ => 0;
  xlog_needs_flush := fun _ _ => false;
  BufferIsPermanent := true;
  buffer_lsn := fun _ => 0;
  GetMultiXactIdMembers := fun multi _ => members_of multi;
  real_cmin := fun c => c;
  real_cmax := fun c => c;
  topmost_xid := fun x => x;
  resolve_cids := fun _ => None
|}.
#[local] Existing Instance history.

#[local] Instance history_laws : XactLaws.
Proof.
  refine {| known := fun _ _ => True; committed := did |}; try done.
  intros t x. cbn. unfold is_current, running. intros ->%Z.eqb_eq. done.
Defined.

#[local] Instance history_create : MultiXactCreate := {| MultiXactIdCreateFromMembers := multi_of |}.

Lemma members_listed multi m : m ∈ members_of multi -> multi ∈ [17; 18; 19; 20; 21; 22; 23].
Proof.
  unfold members_of. destruct (list_find _ multis) as [[i [multi' ms]]|] eqn:E; cbn; [|intros H; by apply elem_of_nil in H].
  apply list_find_Some in E as (E & Em & _). cbn in Em. subst multi'. intros _. apply list_elem_of_lookup_2 in E. unfold multis in E. rewrite !elem_of_cons, elem_of_nil in E.
  rewrite !elem_of_cons. decompose [or] E; simplify_eq; tauto.
Qed.

Lemma members_part multi : members_of multi `sublist_of` [old_locker; new_updater; new_locker].
Proof.
  destruct (members_of multi) as [|m ms] eqn:E; [apply sublist_nil_l|]. pose proof (members_listed multi m ltac:(rewrite E; by left)) as H. rewrite <- E. clear E.
  rewrite !elem_of_cons, elem_of_nil in H. decompose [or] H; subst; try done; vm_compute; repeat constructor.
Qed.

#[local] Instance history_multis : MultiXactLaws.
Proof.
  split; [|done]. intros ms multi lock lock' Hne Hsub. cbn in *. assert (Hs : ms `sublist_of` [old_locker; new_updater; new_locker]) by (etrans; [done|apply members_part]). clear Hsub.
  rewrite sublist_cons_r in Hs. setoid_rewrite sublist_cons_r in Hs. setoid_rewrite sublist_cons_r in Hs. setoid_rewrite sublist_nil_r in Hs.
  decompose [or ex and] Hs; subst; done.
Qed.

Definition limits : VacuumCutoffs :=
  {| relfrozenxid := 50; relminmxid := 3; OldestXmin := 300; OldestMxact := 10; FreezeLimit := 150; MultiXactCutoff := 5 |}.

Lemma limits_ok : cutoffs_ok limits 0.
Proof.
  split; try done.
  - intros t' x _ _. cbn. unfold running. intros Hp. apply bool_decide_eq_false. rewrite !elem_of_cons, elem_of_nil. intros H. decompose [or] H; subst; done.
  - intros t' multi lock m _ Hp Hm. cbn in Hm. apply members_listed in Hm. rewrite !elem_of_cons, elem_of_nil in Hm. decompose [or] Hm; subst; done.
Qed.

(** Inserted by 100, locked by 120 and 450, updated by 400. *)
Definition tuple : HeapTupleHeaderData :=
  {| t_xmin := 100; t_xmax := 23; t_field3 := 0; t_ctid := {| ip_blkid := {| bi_hi := 0; bi_lo := 0 |}; ip_posid := 2 |};
     t_infomask2 := 1; t_infomask := HEAP_XMAX_IS_MULTI; t_hoff := 24; t_bits := [] |}.

Lemma tuple_freezable : freezable limits 9 tuple.
Proof.
  split; try done.
  - intros _. split; try done.
    + intros m Hm. change (xmax_members tuple) with [old_locker; new_updater; new_locker] in Hm. rewrite !elem_of_cons, elem_of_nil in Hm. decompose [or] Hm; subst; done.
    + intros _. exists [old_locker], new_updater, [new_locker]. split; [done|]. split; [done|]. intros m Hm. cbn in Hm. rewrite !elem_of_cons, elem_of_nil in Hm. decompose [or] Hm; subst; done.
  - intros u Hu. vm_compute in Hu. by simplify_eq.
Qed.

Definition reader : observer :=
  {| own := is_current; in_snap := fun x => negb (TransactionIdPrecedes x 300); cmin_before := fun _ => true; cmax_before := fun _ => true |}.

Lemma freeze_reader_ok : observer_ok 9 reader.
Proof.
  split; [|intros t' x _ Ho Hi|done].
  - intros t' x _. cbn. unfold is_current, running. by intros ->%Z.eqb_eq.
  - split; [done|]. cbn in *. apply negb_false_iff in Hi. unfold running. apply bool_decide_eq_false. rewrite !elem_of_cons, elem_of_nil. intros H. decompose [or] H; subst; done.
Qed.

Lemma freeze_reader_covered : covered 300 reader.
Proof. intros x Hx. cbn. rewrite Hx. split; [|done]. unfold is_current. apply Z.eqb_neq. by intros ->. Qed.

Definition trackers : HeapPageFreeze :=
  {| freeze_required := false; FreezePageRelfrozenXid := 300; FreezePageRelminMxid := 10; NoFreezePageRelfrozenXid := 300; NoFreezePageRelminMxid := 10 |}.

(** The old locker goes, and with it the multixact; the insertion is frozen. *)
Definition planned_freeze : outcome (HeapTupleHeaderData * HeapPageFreeze) :=
  match heap_prepare_freeze_tuple tuple limits trackers 9%nat with
  | Done (_, frz, _, pf, _) => Done (heap_execute_freeze_tuple tuple frz, pf)
  | Error => Error
  | Panic => Panic
  | Undefined => Undefined
  end.

Lemma freeze_keeps_visibility_witness :
  exists g pf, planned_freeze = Done (g, pf) /\ t_xmax g = 22 /\ frozen g = true /\ mvcc_visible reader g = mvcc_visible reader tuple.
Proof.
  destruct (freeze_keeps_visibility limits 0%nat 9%nat tuple trackers limits_ok ltac:(lia) tuple_freezable ltac:(done) ltac:(done)) as (b & frz & tf & pf & t' & E & _ & _ & _ & _ & _ & H).
  exists (heap_execute_freeze_tuple tuple frz), pf. unfold planned_freeze. rewrite E. split; [done|]. specialize (H 9%nat reader freeze_reader_ok freeze_reader_covered ltac:(done)).
  vm_compute in E. injection E as <- <- <- <- <-. split; [done|]. split; [done|exact H].
Defined.

Lemma freeze_trackers_witness :
  exists g pf, planned_freeze = Done (g, pf) /\ forall x, holds_id g x -> since 50 (FreezePageRelfrozenXid pf) <= since 50 x /\ TransactionIdPrecedes x 150 = false.
Proof.
  destruct (freeze_trackers limits 0%nat 9%nat tuple trackers limits_ok ltac:(lia) tuple_freezable ltac:(done) ltac:(done) ltac:(done)) as (b & frz & tf & pf & t' & E & H & _).
  exists (heap_execute_freeze_tuple tuple frz), pf. unfold planned_freeze. rewrite E. split; [done|exact H].
Defined.
End FreezeExample.
