(* ===== verification/UpdateSpec.v ===== *)
(** * What UPDATE, DELETE and uniqueness checks are told

    [HeapTupleSatisfiesUpdate] decides whether the current command may modify a
    tuple.  Each of its results is stated here by what the transactions on the
    tuple did; in particular [TM_Ok] is returned only when no other update of the
    tuple stands or may still come to stand.  The dirty check, which uniqueness checks use, is compared
    with [HeapTupleSatisfiesSelf]. *)
From S2P Require Import Prelude TransactionId ItemPtr HeapTuple Snapshot Visibility VisibilitySpec.
Local Open Scope Z_scope.

Section update.
Context `{laws : XactLaws}.

Inductive tm_status (self : ItemPointerData) (curcid : CommandId) (t t' : nat) (h : HeapTupleHeaderData) :
  TM_Result -> Prop :=
| tm_ok :
    inserted t' h \/ (TransactionIdIsCurrentTransactionId (t_xmin h) = true /\ HeapTupleHeaderGetCmin h < curcid) ->
    update_void t' h -> tm_status self curcid t t' h TM_Ok
| tm_not_inserted :
    frozen h = false -> was_running t t' (t_xmin h) \/ (done_at t' (t_xmin h) /\ committed (t_xmin h) = false) ->
    (TransactionIdIsCurrentTransactionId (t_xmin h) = true -> curcid <= HeapTupleHeaderGetCmin h) ->
    tm_status self curcid t t' h TM_Invisible
| tm_deleted_before u :
    updater h = Some u -> TransactionIdIsCurrentTransactionId u = true -> HeapTupleHeaderGetCmax h < curcid ->
    tm_status self curcid t t' h TM_Invisible
| tm_self_modified u :
    updater h = Some u -> TransactionIdIsCurrentTransactionId u = true -> curcid <= HeapTupleHeaderGetCmax h ->
    tm_status self curcid t t' h TM_SelfModified
| tm_updated u :
    inserted t' h -> updater h = Some u -> done_at t' u -> committed u = true ->
    ItemPointerEquals self (t_ctid h) = false ->
    tm_status self curcid t t' h TM_Updated
| tm_deleted u :
    inserted t' h -> updater h = Some u -> done_at t' u -> committed u = true ->
    ItemPointerEquals self (t_ctid h) = true ->
    tm_status self curcid t t' h TM_Deleted
| tm_being_modified x :
    tst (t_infomask h) HEAP_XMAX_INVALID = false -> holds_xmax h x -> was_running t t' x ->
    tm_status self curcid t t' h TM_BeingModified.

Lemma self_modified_status self curcid t t' h u :
  updater h = Some u -> TransactionIdIsCurrentTransactionId u = true ->
  tm_status self curcid t t' h (self_modified h curcid).
Proof.
  intros. unfold self_modified. rewrite Z.geb_leb. destruct (Z.leb_spec curcid (HeapTupleHeaderGetCmax h)).
  - by eapply tm_self_modified.
  - by eapply tm_deleted_before.
Qed.

Lemma updated_or_deleted_status self curcid t t' h u :
  inserted t' h -> updater h = Some u -> done_at t' u -> committed u = true ->
  tm_status self curcid t t' h (updated_or_deleted self h).
Proof.
  intros. unfold updated_or_deleted. destruct (ItemPointerEquals self (t_ctid h)) eqn:E;
    [by eapply tm_deleted|by eapply tm_updated].
Qed.

(** The updating member of a multixact is one of its members. *)
Lemma update_xid_member h :
  TransactionIdIsValid (HeapTupleGetUpdateXid h) = true ->
  exists m, m ∈ GetMultiXactIdMembers (t_xmax h) false /\ mx_xid m = HeapTupleGetUpdateXid h.
Proof.
  unfold HeapTupleGetUpdateXid, MultiXactIdGetUpdateXid, HeapTupleHeaderGetRawXmax.
  destruct (find _ _) as [m|] eqn:E; [|done]. apply find_some in E as [Hm _]. intros _. exists m.
  by split; [apply list_elem_of_In|].
Qed.

Ltac being_modified :=
  eapply tm_being_modified; [done|xmax_holder|first [ eapply running_now; [|done]; lia | apply current_running; [lia|done] | eapply was_running_wider; [done|lia..] ]].

Lemma update_own_spec self curcid t h d :
  tuple_ok t h -> tst (t_infomask h) HEAP_XMIN_COMMITTED = false ->
  TransactionIdIsCurrentTransactionId (t_xmin h) = true ->
  vwp (HeapTupleSatisfiesUpdate_own curcid)
    (fun r st' => evolves (VS t h d) st' /\ tm_status self curcid t (clock st') h r) (VS t h d).
Proof.
  intros Hok HC Hcur. unfold HeapTupleSatisfiesUpdate_own, HeapTupleHeaderGetRawXmax.
  pose proof (not_committed_not_frozen h HC) as Hfr.
  assert (Hv : forall t' u, (t <= t')%nat -> updater h = Some u -> TransactionIdIsCurrentTransactionId u = false ->
            done_at t' u /\ committed u = false).
  { intros t' u Ht Hu Hn. destruct (ok_own _ _ Hok HC Hcur u Hu) as [|[? ?]]; [congruence|eauto using done_mono]. }
  vrun; b2p; (split; [try time_passes|]).
  all: try being_modified.
  all: try (by eapply self_modified_status; [find_updater|]).
  all: try (apply tm_ok; [by right|]).
  1: apply tm_not_inserted; [done|left; by apply current_running|done].
  all: try (apply evolves_xmax_invalid; [done|lia|]).
  all: intros u Hu; apply Hv; [lia|done|updater_in Hu; done].
Qed.

Lemma update_xmin_spec self curcid t h d :
  tuple_ok t h ->
  vwp (HeapTupleSatisfiesUpdate_xmin curcid)
    (fun r st' => evolves (VS t h d) st' /\
       match r with
       | Some r => tm_status self curcid t (clock st') h r
       | None => inserted (clock st') h
       end) (VS t h d).
Proof.
  intros Hok. unfold HeapTupleSatisfiesUpdate_xmin, HeapTupleHeaderGetRawXmin.
  vrun; try (rewrite (ok_not_moved_off _ _ Hok) in *; done); try (rewrite (ok_not_moved_in _ _ Hok) in *; done).
  all: try (assert (TransactionIdIsCurrentTransactionId (t_xmin h) = true -> curcid <= HeapTupleHeaderGetCmin h)
       by congruence).
  - split; [time_passes|]. destruct (ok_xmin_invalid _ _ Hok) as [Hd Hc]; [done..|].
    apply tm_not_inserted; [by apply not_committed_not_frozen|by right|].
    by rewrite (done_not_current t).
  - eapply vwp_mono; [by apply (update_own_spec self)|done].
  - split; [time_passes|]. apply tm_not_inserted; [by apply not_committed_not_frozen|left|done].
    by eapply running_now; [|done]; lia.
  - split; [time_passes|]. right. split; [later|done].
  - split; [|right; split; [later|done]].
    apply evolves_xmin_committed; [done|lia|done|by apply not_xmin_invalid|later|done].
  - split; [apply evolves_xmin_invalid; [done|lia|done|later|done]|].
    apply tm_not_inserted; [by apply not_committed_not_frozen|right; split; [later|done]|done].
  - split; [time_passes|]. unfold inserted, frozen. destruct (HeapTupleHeaderXminFrozen h) eqn:HF; [by left|right].
    by apply xmin_hint_outcome.
Qed.

Lemma update_multi_spec self curcid t0 t h d :
  tuple_ok t h -> inserted t h -> (t0 <= t)%nat -> updater h <> Some InvalidTransactionId ->
  tst (t_infomask h) HEAP_XMAX_INVALID = false -> tst (t_infomask h) HEAP_XMAX_IS_MULTI = true ->
  vwp (HeapTupleSatisfiesUpdate_multi self curcid)
    (fun r st' => evolves (VS t h d) st' /\ tm_status self curcid t0 (clock st') h r) (VS t h d).
Proof.
  intros Hok Hin Ht Hval HI HM. unfold HeapTupleSatisfiesUpdate_multi, HeapTupleHeaderGetRawXmax.
  assert (Hin' : forall t', (t <= t')%nat -> inserted t' h).
  { intros t' Ht'. destruct Hin as [|[? ?]]; [by left|right; eauto using done_mono]. }
  apply vwp_bind, vwp_tup. cbn [tup]. destruct (HEAP_XMAX_IS_LOCKED_ONLY (t_infomask h)) eqn:HL.
  - assert (Hnone : forall t', update_void t' h) by (intros t' u Hu; by rewrite updater_locked in Hu).
    vrun; (split; [first [time_passes | by apply evolves_xmax_invalid; [done|lia|]]|]);
      first [being_modified | apply tm_ok; [left; apply Hin'; lia|done]].
  - assert (HU : updater h = Some (HeapTupleGetUpdateXid h)) by find_updater.
    assert (HV : TransactionIdIsValid (HeapTupleGetUpdateXid h) = true).
    { unfold TransactionIdIsValid. apply negb_true_iff, Z.eqb_neq. congruence. }
    destruct (update_xid_member h HV) as (m & Hm & Em). rewrite HV. cbn [negb].
    vrun; (split; [try time_passes|]).
    all: try (by eapply self_modified_status).
    all: try match goal with
      | A : (forall x, x ∈ _ -> done_at ?i (mx_xid x)), C : xact_did_commit _ _ = _ |- _ =>
          pose proof (A m Hm) as Hd; rewrite Em in Hd; eapply (log_outcome _ _ _ _ Hd) in C as [? ?]; [|lia]
      end.
    all: try (eapply updated_or_deleted_status; [apply Hin'; lia|done|later|done]).
    all: try being_modified.
    all: try (apply tm_ok; [left; apply Hin'; lia|updater_done]).
    all: try (apply evolves_xmax_invalid; [done|lia|updater_done]).
    rewrite locked_upgraded_bits in *. rewrite locked_only_bits in *.
    b2p. congruence.
Qed.

Lemma update_xmax_spec self curcid t0 t h d :
  tuple_ok t h -> inserted t h -> (t0 <= t)%nat -> updater h <> Some InvalidTransactionId ->
  vwp (HeapTupleSatisfiesUpdate_xmax self curcid)
    (fun r st' => evolves (VS t h d) st' /\ tm_status self curcid t0 (clock st') h r) (VS t h d).
Proof.
  intros Hok Hin Ht Hval. unfold HeapTupleSatisfiesUpdate_xmax, HeapTupleHeaderGetRawXmax.
  assert (Hin' : forall t', (t <= t')%nat -> inserted t' h).
  { intros t' Ht'. destruct Hin as [|[? ?]]; [by left|right; eauto using done_mono]. }
  assert (Hhint : tst (t_infomask h) HEAP_XMAX_COMMITTED = true -> forall u, updater h = Some u ->
            done_at t u /\ committed u = true) by apply (ok_xmax_committed _ _ Hok).
  vrun; try by apply update_multi_spec.
  all: split; [first [ time_passes
                     | apply evolves_xmax_invalid; [done|lia|updater_done]
                     | apply evolves_xmax_committed; [done|lia|updater_done] ]|].
  all: try (apply tm_ok; [left; apply Hin'; lia|updater_done]).
  all: try being_modified.
  all: try (by eapply self_modified_status; [find_updater|]).
  all: try change (updated_or_deleted self (set_infomask _ h)) with (updated_or_deleted self h).
  all: try (eapply updated_or_deleted_status; [apply Hin'; lia|find_updater|later|done]).
  destruct (Hhint ltac:(done) _ (update_xid_updater _ ltac:(done) ltac:(done))).
  eapply updated_or_deleted_status; [done|by apply update_xid_updater|done..].
Qed.

Lemma hinted_cids h h' : hinted h h' ->
  HeapTupleHeaderGetCmin h' = HeapTupleHeaderGetCmin h /\ HeapTupleHeaderGetCmax h' = HeapTupleHeaderGetCmax h /\
  tst (t_infomask h') HEAP_XMAX_IS_MULTI = tst (t_infomask h) HEAP_XMAX_IS_MULTI /\
  tst (t_infomask h') HEAP_XMAX_LOCK_ONLY = tst (t_infomask h) HEAP_XMAX_LOCK_ONLY /\
  (tst (t_infomask h') HEAP_XMAX_INVALID = false -> tst (t_infomask h) HEAP_XMAX_INVALID = false).
Proof.
  intros (b & Hb & ->). unfold HeapTupleHeaderGetCmin, HeapTupleHeaderGetCmax. simpl.
  rewrite !tst_lor, (hint_mask_disjoint b HEAP_COMBOCID), (hint_mask_disjoint b HEAP_XMAX_IS_MULTI),
    (hint_mask_disjoint b HEAP_XMAX_LOCK_ONLY), !orb_false_r by done.
  do 4 (split; [done|]). by intros [? _]%orb_false_iff.
Qed.

Lemma tm_status_evolves self curcid st st1 t t' r :
  evolves st st1 -> (clock st1 <= t')%nat -> tm_status self curcid t t' (tup st1) r ->
  tm_status self curcid t t' (tup st) r.
Proof.
  intros He Ht Hs. destruct (hinted_fields _ _ (ev_hinted _ _ He)) as (Hx & HX & _ & Hctid).
  destruct (hinted_cids _ _ (ev_hinted _ _ He)) as (Hmin & Hmax & Hmulti & Hlock & Hinv).
  pose proof (evolves_void _ _ _ He Ht) as Hv. pose proof (evolves_updater _ _ He) as Hu.
  pose proof (ev_frozen _ _ He) as Hf.
  destruct Hs; unfold inserted, holds_xmax, HeapTupleGetUpdateXid, HeapTupleHeaderGetRawXmax in *; rewrite ?Hx, ?HX, ?Hf, ?Hmin, ?Hmax, ?Hmulti, ?Hlock, ?Hctid in *.
  all: by econstructor; unfold holds_xmax, HeapTupleGetUpdateXid, HeapTupleHeaderGetRawXmax; eauto.
Qed.

(** C30 -- [HeapTupleSatisfiesUpdate] reports what happened to the tuple: on a tuple
    with truthful hints every result is justified by the transactions on it.
    [TM_Ok] means that the insertion stands and no update does, nor can one
    still commit; [TM_Updated] and [TM_Deleted] that a committed transaction
    replaced the tuple, with or without a successor version;
    [TM_SelfModified] and [TM_Invisible] that the current transaction modified
    it after or before the current command, or that it is not there to
    be seen; [TM_BeingModified] that a holder of its xmax was running during the check. *)
Theorem update_result_justified self curcid st :
  tuple_ok (clock st) (tup st) -> updater (tup st) <> Some InvalidTransactionId ->
  let (r, st') := HeapTupleSatisfiesUpdate self curcid st in
  evolves st st' /\ tm_status self curcid (clock st) (clock st') (tup st) r.
Proof.
  destruct st as [t h d]. simpl. intros Hok Hval.
  change (vwp (HeapTupleSatisfiesUpdate self curcid)
    (fun r st' => evolves (VS t h d) st' /\ tm_status self curcid t (clock st') h r) (VS t h d)).
  apply vwp_bind. eapply vwp_mono; [by apply (update_xmin_spec self)|].
  intros [r|] [t1 h1 d1] [He Hr]; [done|]. simpl in Hr. pose proof (ev_clock _ _ He) as Hc. simpl in Hc.
  eapply vwp_mono; [apply (update_xmax_spec self curcid t)|].
  - apply (ev_ok _ _ He).
  - by apply (evolves_inserted_stands _ _ t1 He).
  - done.
  - intros E. by apply Hval, (evolves_updater _ _ He).
  - intros r st2 [He2 Hs]. split; [by eapply evolves_trans|].
    eapply (tm_status_evolves _ _ (VS t h d) (VS t1 h1 d1)); [done|by apply (ev_clock _ _ He2)|done].
Qed.

End update.

(** ** [SnapshotDirty] against [SnapshotSelf] *)

Section dirty.
Context `{env : XactEnv}.

(** Follow two computations that make the same reads in lockstep. *)
Ltac lockstep :=
  repeat match goal with
  | |- context [SetHintBits ?b ?x ?st] => destruct (SetHintBits b x st) as [[] ?]
  | |- context [TransactionIdIsInProgress ?x ?st] => destruct (TransactionIdIsInProgress x st) as [[] ?]
  | |- context [TransactionIdDidCommit ?x ?st] => destruct (TransactionIdDidCommit x st) as [[] ?]
  | |- context [own_tuple_visible ?st] => destruct (own_tuple_visible st) as [[] ?]
  | |- context [check_moved_off ?r ?st] => destruct (check_moved_off r st) as [[] ?]
  | |- context [check_moved_in ?r ?st] => destruct (check_moved_in r st) as [[] ?]
  | |- context [if ?b then _ else _] =>
      lazymatch b with context [if _ then _ else _] => fail | _ => destruct b eqn:? end
  end.

Lemma dirty_xmax_self s st :
  exists s', HeapTupleSatisfiesDirty_xmax s st =
    ((fst (HeapTupleSatisfiesSelf_xmax st), s'), snd (HeapTupleSatisfiesSelf_xmax st)) /\ xmin s' = xmin s.
Proof.
  unfold HeapTupleSatisfiesDirty_xmax, HeapTupleSatisfiesSelf_xmax, vbind, vtup, vret.
  lockstep; eexists; (split; [reflexivity|done]).
Qed.

(** [SnapshotSelf] rejects where [SnapshotDirty] accepts and reports the inserter. *)
Lemma dirty_xmin_self s st :
  let (r, st') := HeapTupleSatisfiesSelf_xmin st in
  exists r', HeapTupleSatisfiesDirty_xmin s st = (r', st') /\
    match r, r' with
    | None, None => True
    | Some b, Some (b', s') =>
        (b' = b /\ xmin s' = xmin s) \/ (b = false /\ b' = true /\ xmin s' = t_xmin (tup st))
    | _, _ => False
    end.
Proof.
  unfold HeapTupleSatisfiesDirty_xmin, HeapTupleSatisfiesSelf_xmin, unless, vbind, vtup, vret, HeapTupleHeaderGetRawXmin.
  lockstep; eexists; (split; [reflexivity|simpl; auto]).
Qed.

(** [SnapshotDirty] sees what [SnapshotSelf] sees and, in addition, tuples whose
    insertion is still in progress; it reports the inserting transaction in the
    [xmin] of the snapshot exactly for these, and sets the same hint bits. *)
Theorem dirty_agrees_with_self s st :
  TransactionIdIsValid (t_xmin (tup st)) = true ->
  let (b, st') := HeapTupleSatisfiesSelf st in
  exists b' s', HeapTupleSatisfiesDirty s st = ((b', s'), st') /\
    b = b' && negb (TransactionIdIsValid (xmin s')).
Proof.
  intros Hv. unfold HeapTupleSatisfiesSelf, HeapTupleSatisfiesDirty, early, vbind.
  set (s0 := set_dirty_out _ _ _ _). assert (Hs0 : xmin s0 = InvalidTransactionId) by done. clearbody s0.
  pose proof (dirty_xmin_self s0 st) as H. destruct (HeapTupleSatisfiesSelf_xmin st) as [r st1].
  destruct H as (r' & -> & H). destruct r as [b|], r' as [[b' s']|]; try done; simpl.
  - exists b', s'. split; [done|]. destruct H as [[-> ->]|(-> & -> & ->)]; [|by rewrite Hv].
    by rewrite Hs0, andb_true_r.
  - destruct (dirty_xmax_self s0 st1) as (s' & -> & Hs').
    destruct (HeapTupleSatisfiesSelf_xmax st1) as [b st2]. simpl. exists b, s'. split; [done|].
    by rewrite Hs', Hs0, andb_true_r.
Qed.

End dirty.

(** ** The example history of [VisExample] *)
Module UpdateExample.
Import VisExample.

Lemma update_result_justified_witness :
  let (r, st') := HeapTupleSatisfiesUpdate (t_ctid deleted_tuple) 1 (VS 9 deleted_tuple false) in
  evolves (VS 9 deleted_tuple false) st' /\
  tm_status (t_ctid deleted_tuple) 1 9 (clock st') deleted_tuple r.
Proof.
  apply (update_result_justified (t_ctid deleted_tuple) 1 (VS 9 deleted_tuple false));
    [apply deleted_tuple_ok|vm_compute; discriminate].
Defined.

Lemma dirty_agrees_with_self_witness :
  let st := VS 3 (set_infomask HEAP_XMAX_INVALID
                    {| t_xmin := 200; t_xmax := 0; t_field3 := 0; t_ctid := t_ctid deleted_tuple;
                       t_infomask2 := 1; t_infomask := 0; t_hoff := 24; t_bits := [] |}) false in
  fst (HeapTupleSatisfiesSelf st) = false /\
  let (b, st') := HeapTupleSatisfiesSelf st in
  exists b' s', HeapTupleSatisfiesDirty snap st = ((b', s'), st') /\
    b = b' && negb (TransactionIdIsValid (xmin s')).
Proof. split; [reflexivity|]. apply (dirty_agrees_with_self snap). reflexivity. Defined.

End UpdateExample.
