(* ===== verification/ServerLaws.v ===== *)
(** * The server keeps the laws of the transaction state

    A backend looks at tuples while the others work.  The laws that the visibility checks rely on ([XactLaws]) hold for
    the process array, the commit log and [pg_subtrans] as the backends change them; the snapshot that [GetSnapshotData]
    takes lets through exactly the transactions that had committed at that instant. *)
From S2P Require Import Prelude TransactionId ItemPtr HeapTuple Snapshot Varsup Clog Subtrans ProcArray ProcArraySpec.
From S2P Require Import Visibility VisibilitySpec.
From S2P Require Import Server ServerInv ServerArray ServerSnapshot ServerSteps ServerHistory ServerReads.
Local Open Scope Z_scope.

(** ** Histories *)

(** What happens while the backend [h_me] looks at tuples: the states of the server from one instant to the next, up to [h_end].  The
    backend itself takes no step; its two one-entry caches have some contents at every instant. *)
Record history := {
  h_lo : Z;
  h_first : Z;
  h_me : nat;
  h_backend : backend;
  h_RecentXmin : TransactionId;
  h_TransactionXmin : TransactionId;
  h_states : nat -> server;
  h_end : nat;
  h_cache : nat -> TransactionId;
  h_fetch : nat -> fetch_cache
}.

(** A check at instant [t] reads the process array first and the logs later. *)
Definition array_at (h : history) (t : nat) : server := h_states h (2 * t).
Definition logs_at (h : history) (t : nat) : server := h_states h (2 * t + 1).

Record history_ok (h : history) : Prop := {
  ho_start : server_ok (h_lo h) (h_first h) (h_states h 0);
  ho_steps : forall i, others (h_lo h) (h_me h) (h_states h i) (h_states h (S i));
  ho_end : forall i, (h_end h <= i)%nat -> h_states h i = h_states h (h_end h);
  ho_backend : sv_backends (h_states h 0) !! h_me h = Some (h_backend h);
  ho_work : b_work (h_backend h) = Working;
  ho_xmins : b_xmins (h_backend h) = Some (h_RecentXmin h, h_TransactionXmin h);
  ho_cache : forall t, cache_right (h_lo h) (h_first h) (h_me h) (array_at h t) (logs_at h t) (h_cache h t);
  ho_fetch : forall t, cache_ok (h_fetch h t) (sv_log (logs_at h t))
}.

(** What the backend sees; the rest of the environment is that of [base]. *)
Definition server_env (h : history) (base : XactEnv) : XactEnv := {|
  TransactionIdIsCurrentTransactionId := is_current (h_backend h);
  xact_in_progress := fun t =>
    in_progress_in (h_me h)
      (progress_of (h_first h) (h_backend h) (h_RecentXmin h) (h_TransactionXmin h) (h_cache h t) (h_fetch h t) (logs_at h t))
      (array_at h t);
  xact_did_commit := fun t => did_commit_in (h_first h) (logs_at h t) (h_TransactionXmin h) (h_fetch h t);
  xact_commit_lsn := @xact_commit_lsn base;
  xlog_needs_flush := @xlog_needs_flush base;
  BufferIsPermanent := @BufferIsPermanent base;
  buffer_lsn := @buffer_lsn base;
  GetMultiXactIdMembers := @GetMultiXactIdMembers base;
  real_cmin := @real_cmin base;
  real_cmax := @real_cmax base;
  topmost_xid := topmost_in (h_first h) (h_states h (h_end h)) (h_TransactionXmin h);
  resolve_cids := @resolve_cids base
|}.

(** The ids that storage may hold: those of bootstrapping and freezing, those assigned before the server started whose
    status is still in the log, and those assigned since whose parent is recorded. *)
Definition known_at (h : history) (t : nat) (x : TransactionId) : Prop :=
  (x = BootstrapTransactionId \/ x = FrozenTransactionId) \/
  exists v, x = u32 v /\ in_window (h_lo h) v /\
    ((v < h_first h /\ is_Some (status (h_states h 0) v)) \/ recorded (h_lo h) (h_first h) (array_at h t) v).

(** The transaction had committed: it was over, and the log said so. *)
Definition had_committed (lo N0 : Z) (s : server) (x : TransactionId) : Prop :=
  (x = BootstrapTransactionId \/ x = FrozenTransactionId) \/
  exists v, x = u32 v /\ in_window lo v /\ status s v = Some TRANSACTION_STATUS_COMMITTED /\ (v < N0 \/ ended lo N0 s v).

Lemma taken_exact lo N0 n cid s s' :
  server_ok lo N0 s -> takes_snapshot n cid s s' ->
  server_ok lo N0 s' /\ exists b F, sv_backends s' !! n = Some b /\ b_work b = Working /\ snap_exact lo N0 s' n (snap (b_snapshot b)) F.
Proof.
  intros Hs (b & p & r & a & Hb & Hw & Hp & E & ->). set (s' := set_backend n (with_snapshot p r b) (set_array a s)).
  assert (Hs' : server_ok lo N0 s') by (eapply (server_step_ok lo N0 s n); [done|by eapply step_snapshot_of]).
  destruct (get_snapshot_exact lo N0 s n b cid r a Hs Hb E) as [_ Ec].
  destruct (so_procs _ _ _ Hs n b Hb) as (q & Hq & Hsh). destruct (get_snapshot_effect n b cid _ _ r a q Hq Hsh E) as (Ev & _).
  assert (Hb' : sv_backends s' !! n = Some (with_snapshot p r b)) by (cbn; by rewrite lookup_insert_eq).
  split; [done|]. destruct (proj2 (so_snapshots _ _ _ Hs' n _ Hb')) as [F HF]; [|by exists (with_snapshot p r b), F].
  cbn [with_snapshot b_snapshot]. rewrite Ec. unfold completions, vars. cbn [s' set_backend set_array sv_array]. by rewrite Ev.
Qed.

Section laws.
Context (h : history) (Hh : history_ok h).
Abbreviation lo := (h_lo h).
Abbreviation N0 := (h_first h).
Abbreviation me := (h_me h).
Abbreviation tr := (h_states h).

Lemma states_ok i : server_ok lo N0 (tr i).
Proof.
  induction i as [|i IH]; [apply (ho_start _ Hh)|]. by destruct (others_later lo N0 me _ _ IH (ho_steps _ Hh i)).
Qed.

Lemma states_later i j : (i <= j)%nat \/ (h_end h <= j)%nat -> later lo N0 me (tr i) (tr j).
Proof.
  assert (Hle : forall i j, (i <= j)%nat -> later lo N0 me (tr i) (tr j)).
  { intros i0 j0. induction 1 as [|j0 _ IH]; [apply later_refl|].
    eapply later_trans; [exact IH|]. by destruct (others_later lo N0 me _ _ (states_ok j0) (ho_steps _ Hh j0)). }
  intros [Hij|Hj]; [auto|]. destruct (decide (i <= j)%nat); [auto|].
  rewrite (ho_end _ Hh i), (ho_end _ Hh j) by lia. apply later_refl.
Qed.

Lemma backend_at i : sv_backends (tr i) !! me = Some (h_backend h).
Proof. rewrite (la_me _ _ _ _ _ (states_later 0 i ltac:(lia))). apply (ho_backend _ Hh). Qed.

(** The full ids of [RecentXmin] and [TransactionXmin] are no newer than any id that ever runs. *)
Lemma xmins_at : exists R X, h_RecentXmin h = u32 R /\ h_TransactionXmin h = u32 X /\
  in_window lo R /\ in_window lo X /\ N0 <= R /\ N0 <= X /\ forall i v, live (tr i) v -> R <= v /\ X <= v.
Proof.
  assert (Hx : forall i, xmin_ok lo N0 (tr i) (h_RecentXmin h) /\ xmin_ok lo N0 (tr i) (h_TransactionXmin h)).
  { intros i. apply (so_xmins _ _ _ (states_ok i) me (h_backend h)); [apply backend_at|apply (ho_xmins _ Hh)]. }
  destruct (Hx 0%nat) as [(R & ER & HR & HR' & _) (X & EX & HX & HX' & _)]. exists R, X.
  do 4 (split; [done|]). split; [lia|]. split; [lia|]. intros i v Hv. destruct (Hx i) as [(R' & ER' & HR1 & _ & HR2) (X' & EX' & HX1 & _ & HX2)].
  rewrite ER in ER'. rewrite EX in EX'. apply (u32_window_inj lo) in ER'; [|done..]. apply (u32_window_inj lo) in EX'; [|done..]. subst R' X'. auto.
Qed.

Section env.
Context (base : XactEnv).
Local Instance the_env : XactEnv := server_env h base.

(** The answers about recorded ids. *)
Lemma progress_at t v :
  recorded lo N0 (array_at h t) v -> xact_in_progress t (u32 v) = false <-> gone lo N0 me (array_at h t) (logs_at h t) v.
Proof.
  intros Hv. destruct xmins_at as (R & X & ER & EX & HR & HX & HNR & HNX & Hlive).
  destruct (progress_spec lo N0 me (array_at h t) (logs_at h t) (h_backend h) R X (states_ok _) (states_ok _)
    (states_later (2 * t) (2 * t + 1) ltac:(lia)) (backend_at _) HR (conj HX HNX)) with (v := v) (c := h_cache h t) (k := h_fetch h t) as (my & Hmy & Hspec).
  - intros w Hw. by eapply Hlive.
  - intros w [Hw|Hw]; by eapply Hlive.
  - done.
  - apply (ho_cache _ Hh).
  - apply (ho_fetch _ Hh).
  - cbn [xact_in_progress the_env server_env]. unfold in_progress_in. rewrite Hmy, ER, EX.
    destruct (ProcArray.TransactionIdIsInProgress _ _ _ _) as [answer c']. apply Hspec.
Qed.

(** Ids from before the server started, and special ids, are not in progress. *)
Lemma old_not_running t v : in_window lo v -> v < N0 -> xact_in_progress t (u32 v) = false.
Proof.
  intros [Hv Hn] Hlt. destruct xmins_at as (R & _ & ER & _ & [HR HRn] & _ & HNR & _). cbn [xact_in_progress the_env server_env].
  unfold in_progress_in. destruct (_ !! me); [|done]. unfold ProcArray.TransactionIdIsInProgress. cbn [progress_of RecentXmin]. rewrite ER.
  rewrite precedes_window_le by (done || lia). by rewrite (proj2 (Z.ltb_lt v R) ltac:(lia)).
Qed.

Lemma special_not_running t x : x = BootstrapTransactionId \/ x = FrozenTransactionId -> xact_in_progress t x = false.
Proof.
  intros Hx. destruct xmins_at as (R & _ & ER & _ & [HR HRn] & _). cbn [xact_in_progress the_env server_env].
  unfold in_progress_in. destruct (_ !! me); [|done]. unfold ProcArray.TransactionIdIsInProgress. cbn [progress_of RecentXmin]. rewrite ER.
  unfold TransactionIdPrecedes. unfold FirstNormalTransactionId in HRn. unfold BootstrapTransactionId, FrozenTransactionId in *.
  destruct Hx as [-> | ->]; cbn [TransactionIdIsNormal]; cbn; rewrite (proj2 (Z.ltb_lt _ _)) by lia; done.
Qed.

(** Once a known id is not in progress, the log gives one answer. *)
Lemma done_outcome t x :
  known_at h t x -> xact_in_progress t x = false ->
  exists c, forall t', (t <= t')%nat \/ t' = h_end h -> xact_did_commit t' x = c.
Proof.
  intros Hk Hp. destruct xmins_at as (R & X & ER & EX & HR & HX & HNR & HNX & _).
  cbn [xact_did_commit the_env server_env]. rewrite EX. assert (Hfetch := ho_fetch _ Hh).
  destruct Hk as [Hx|(v & -> & Hw & [[Hlt [st Est]]|Hv])].
  - exists true. intros t' _. by apply read_special.
  - exists (st =? TRANSACTION_STATUS_COMMITTED). intros t' _. apply (read_old lo); [done|done|done|lia|].
    rewrite <- Est. apply (la_old _ _ _ _ _ (states_later 0 (2 * t' + 1) ltac:(lia))); [done|lia].
  - apply progress_at in Hp as [He|(_ & _ & Ha & _)]; [| |done].
    + destruct (eo_status _ _ _ _ (so_ended _ _ _ (states_ok _) v He)) as [Est|Est]; [exists true|exists false]; intros t' Ht';
        destruct (states_later (2 * t) (2 * t' + 1) ltac:(lia)) as [_ _ _ _ _ Hst _ _ _ _]; rewrite <- (Hst v He) in Est;
        eapply (read_final lo N0 _ X _ (Hfetch t') v _ Hw Est); [by left|by right].
    + exists false. intros t' Ht'. refine (proj1 (read_final lo N0 _ X _ (Hfetch t') v TRANSACTION_STATUS_ABORTED Hw _ ltac:(by right))).
      apply (la_aborted _ _ _ _ _ (states_later (2 * t + 1) (2 * t' + 1) ltac:(lia))); [|done].
      eapply later_assigned; [apply (states_later (2 * t) (2 * t + 1) ltac:(lia))|apply Hv].
Qed.

Lemma known_later t t' x : known_at h t x -> (t <= t')%nat -> known_at h t' x.
Proof.
  intros [Hx|(v & -> & Hw & [Ho|Hv])] Hle; [by left|right; exists v; auto..]. split; [done|]. split; [done|]. right.
  by apply (la_recorded _ _ _ _ _ (states_later (2 * t) (2 * t') ltac:(lia))).
Qed.

Lemma done_stays t t' x :
  known_at h t x -> xact_in_progress t x = false -> (t <= t')%nat -> xact_in_progress t' x = false.
Proof.
  intros [Hx|(v & -> & Hw & [[Hlt _]|Hv])] Hp Hle; [by apply special_not_running|by apply old_not_running|].
  apply progress_at in Hp; [|done].
  assert (Hv' : recorded lo N0 (array_at h t') v) by (by apply (la_recorded _ _ _ _ _ (states_later (2 * t) (2 * t') ltac:(lia)))).
  apply progress_at; [done|]. eapply (gone_later lo N0 me (h_backend h) (array_at h t) (logs_at h t)); [apply states_ok|apply states_ok|apply backend_at|
    apply states_later; lia|apply states_later; lia|apply states_later; lia|done|done].
Qed.

Lemma current_runs t x : is_current (h_backend h) x = true -> xact_in_progress t x = true.
Proof.
  intros Hc. pose proof Hc as (v & Hv%list_elem_of_In & E)%existsb_exists. b2p. subst x. apply not_false_iff_true.
  pose proof (backend_at (2 * t)) as Hb. assert (Hr : recorded lo N0 (array_at h t) v).
  { eapply own_recorded; [apply states_ok|exact Hb|]. unfold ids, sub_ids in Hv. rewrite (pending_working _ (ho_work _ Hh)), app_nil_r in Hv. done. }
  intros [He|((m & b' & Hm & Hb' & Hv') & _)]%progress_at; [| |done].
  - apply He, live_ids. by exists me, (h_backend h).
  - apply Hm. eapply (so_disjoint _ _ _ (states_ok (2 * t)) m me b' (h_backend h) v); try done. apply own_ids, elem_of_app. by right.
Qed.

(** The server keeps the laws of the transaction state. *)
Local Instance server_laws : XactLaws (env := the_env) := {|
  known := known_at h;
  committed := xact_did_commit (h_end h);
  known_mono := known_later;
  done_final := fun t t' x Hk Hp Hle =>
    match done_outcome t x Hk Hp with
    | ex_intro _ c H => eq_trans (H t' (or_introl Hle)) (eq_sym (H (h_end h) (or_intror eq_refl)))
    end;
  done_stable := done_stays;
  current_in_progress := current_runs
|}.

(** ** The snapshot of the backend *)

Section snapshot.
Context (r : SnapshotData) (F : full_snapshot) (HF : snap_exact lo N0 (tr 0) me r F).

(** The parents of a recorded id at the end of the history. *)
Lemma end_topmost t v :
  recorded lo N0 (array_at h t) v ->
  exists X w, h_TransactionXmin h = u32 X /\ topmost_xid (u32 v) = u32 w /\ in_window lo w /\ w <= v /\
    topmost_of (parent_id lo (tr (h_end h))) X v w /\ (forall i x, live (tr i) x -> X <= x) /\
    recorded lo N0 (tr (h_end h)) v.
Proof.
  intros Hv. destruct xmins_at as (R & X & ER & EX & HR & HX & HNR & HNX & Hlive).
  destruct (la_recorded _ _ _ _ _ (states_later (2 * t) (h_end h) ltac:(lia)) v Hv) as [He _].
  destruct (walk_topmost lo N0 (tr (h_end h)) X v (states_ok _) HX HNX (proj1 He)) as (w & Ew & Htop & Hle & Hw).
  exists X, w. split; [done|]. split; [cbn [topmost_xid the_env server_env]; by rewrite EX|]. split; [apply Hw|]. split; [done|]. split; [done|].
  split; [intros i x Hx; by eapply Hlive|done].
Qed.

(** The topmost parent of a subtransaction that another backend runs is the transaction of that backend. *)
Lemma running_topmost v w X t0 :
  recorded lo N0 (tr (h_end h)) v -> topmost_of (parent_id lo (tr (h_end h))) X v w ->
  (forall i x, live (tr i) x -> X <= x) -> joined lo N0 (tr 0) v t0 -> live (tr 0) t0 -> w = t0.
Proof.
  intros Hv Htop Hlive Hj Hl. apply (la_joined _ _ _ _ _ (states_later 0 (h_end h) ltac:(lia))) in Hj.
  eapply (chain_topmost lo N0 (tr (h_end h)) X v); [apply states_ok| |by eapply Hlive|done].
  destruct Hj as [Hj|(m & b & Hb & Ht & Hin)]; [done|]. eapply live_chain; [apply states_ok|done|done|].
  apply elem_of_app in Hin as [Hin|Hin]; [done|]. by destruct (proj2 Hv m b Hb).
Qed.

(** What another backend runs is listed. *)
Lemma live_listed t v w :
  recorded lo N0 (array_at h t) v -> v < fxmax F -> (exists m, m <> me /\ (runs_top (tr 0) m v \/ runs_sub (tr 0) m v)) ->
  topmost_xid (u32 v) = u32 w -> in_window lo w -> listed_running F r v w.
Proof.
  intros Hv Hlt (m & Hm & Hrun) Ew Hw. destruct HF as [X1 X2 X3 X4 X5 X6 X7 X8].
  destruct (end_topmost t v Hv) as (X & w' & EX & Ew' & Hw' & Hle & Htop & Hlive & He). rewrite Ew in Ew'.
  apply (u32_window_inj lo) in Ew'; [|done..]. subst w'. unfold listed_running. rewrite X2.
  assert (Htops : forall t0, runs_top (tr 0) m t0 -> t0 < fxmax F -> t0 ∈ ftop F) by (intros t0 Ht0 Hlt0; apply X6; split; [done|by exists m]).
  destruct Hrun as [Hrun|Hrun].
  - assert (Hin : v ∈ ftop F) by (by apply Htops). destruct (suboverflowed r); [|apply in_or_app; left; by apply list_elem_of_In].
    assert (w = v) as ->; [|by apply list_elem_of_In]. destruct Hrun as (b & Hb & Ht).
    eapply running_topmost; [done|done|done| |exists m; left; by exists b]. left. apply chain_top.
    + eapply own_recorded; [apply states_ok|done|]. rewrite Ht. by left.
    + apply (bo_root _ _ _ _ (so_backends _ _ _ (states_ok 0) m b Hb)), elem_of_app. left. rewrite Ht. by left.
  - destruct (top_of_sub lo N0 (tr 0) (states_ok 0) m v Hrun) as (t0 & Ht0 & Htv). destruct (suboverflowed r) eqn:Eo.
    + assert (w = t0) as ->; [|apply list_elem_of_In, Htops; [done|lia]].
      eapply running_topmost; [done|done|done| |exists m; by left]. right.
      destruct Ht0 as (b & Hb & Ht). destruct Hrun as (b' & Hb' & Hin). rewrite Hb in Hb'. injection Hb' as <-. by exists m, b.
    + apply in_or_app. right. apply list_elem_of_In. by eapply X8.
Qed.

(** A transaction that the snapshot does not list and that is not the backend's own was over. *)
Lemma unlisted_ended t v :
  recorded lo N0 (array_at h t) v -> is_current (h_backend h) (u32 v) = false -> InMVCCSnapshot (u32 v) r = false -> ended lo N0 (tr 0) v.
Proof.
  intros Hv Hc Hi. destruct (end_topmost t v Hv) as (X & w & EX & Ew & Hw & Hle & Htop & Hlive & He).
  pose proof Hv as [[Hvw Hvr] _]. destruct HF as [X1 X2 X3 X4 X5 X6 X7 X8].
  assert (Hno : ~ (fxmax F <= v \/ listed_running F r v w)).
  { intros Hin. unfold InMVCCSnapshot in Hi. by rewrite (proj2 (xid_in_snapshot_spec topmost_xid lo F r v w X1 Hvw Hw Hle Ew) Hin) in Hi. }
  assert (Hlt : v < fxmax F) by (destruct (decide (v < fxmax F)); [done|]; exfalso; apply Hno; left; lia).
  split; [split; [done|lia]|]. intros (m & Hrun). destruct (decide (m = me)) as [->|Hm].
  - apply not_true_iff_false in Hc. apply Hc. apply (current_spec lo N0 me (tr 0)); [apply states_ok|apply backend_at|done|].
    destruct Hrun as [(b & Hb & Ht)|(b & Hb & Hin)]; rewrite backend_at in Hb; injection Hb as <-; apply elem_of_ids; [by left|by right].
  - apply Hno. right. eapply live_listed; [done|done|by exists m|done|done].
Qed.

(** A transaction that had committed is not listed. *)
Lemma committed_unlisted t v :
  recorded lo N0 (array_at h t) v -> ended lo N0 (tr 0) v -> status (tr 0) v = Some TRANSACTION_STATUS_COMMITTED -> InMVCCSnapshot (u32 v) r = false.
Proof.
  intros Hv He Hc. destruct (end_topmost t v Hv) as (X & w & EX & Ew & Hw & Hle & Htop & Hlive & _).
  destruct HF as [X1 X2 X3 X4 X5 X6 X7 X8]. apply not_true_iff_false. intros Hin.
  apply (xid_in_snapshot_spec topmost_xid lo F r v w X1 (proj1 (proj1 He)) Hw Hle Ew) in Hin as [Hge|Hl]; [specialize (X5 v He); lia|].
  unfold listed_running in Hl. rewrite X2 in Hl. destruct (suboverflowed r).
  - apply list_elem_of_In, X6 in Hl as (_ & m & _ & Hr). assert (Hlw : live (tr 0) w) by (exists m; by left).
    apply (proj2 He). assert (v = w) as ->; [|done].
    eapply (committed_topmost lo N0 me (tr 0) (tr (h_end h)) X); [apply states_ok|apply states_later; lia|done|done|done|done].
  - apply in_app_or in Hl as [Hl|Hl]; apply list_elem_of_In in Hl; apply (proj2 He).
    + apply X6 in Hl as (_ & m & _ & Hr). exists m. by left.
    + destruct (X7 eq_refl v Hl) as (m & _ & Hr). exists m. by right.
Qed.

Lemma exact_snapshot_ok : snapshot_ok 0 r.
Proof.
  intros t' x Hk Hc Hi. destruct Hk as [Hx|(v & -> & Hw & [[Hlt Hst]|Hv])].
  - split; [by left|]. by apply special_not_running.
  - split; [right; exists v; auto|]. by apply old_not_running.
  - assert (He : ended lo N0 (tr 0) v) by (by eapply unlisted_ended). pose proof (ended_recorded _ _ _ _ He) as Hr.
    split; [right; exists v; auto|]. apply progress_at; [done|by left].
Qed.

Lemma old_unlisted v : in_window lo v -> v < N0 -> InMVCCSnapshot (u32 v) r = false.
Proof.
  intros [Hv Hn] Hlt. destruct HF as [X1 _ _ [X4 _] _ _ _ _]. destruct X1 as (E & _ & _ & _ & _ & _ & _ & Hw & _).
  apply Forall_cons_1 in Hw as [[Hw Hwn] _]. unfold InMVCCSnapshot, XidInMVCCSnapshot. rewrite E, precedes_window_le by (done || lia).
  by rewrite (proj2 (Z.ltb_lt v (fxmin F)) ltac:(lia)).
Qed.

Lemma special_unlisted x : x = BootstrapTransactionId \/ x = FrozenTransactionId -> InMVCCSnapshot x r = false.
Proof.
  intros Hx. destruct HF as [X1 _ _ _ _ _ _ _]. destruct X1 as (E & _ & _ & _ & _ & _ & _ & Hw & _).
  apply Forall_cons_1 in Hw as [[_ Hn] _]. unfold InMVCCSnapshot, XidInMVCCSnapshot. rewrite E. unfold TransactionIdPrecedes.
  unfold FirstNormalTransactionId in Hn. unfold BootstrapTransactionId, FrozenTransactionId in *.
  destruct Hx as [-> | ->]; cbn [TransactionIdIsNormal]; cbn; rewrite (proj2 (Z.ltb_lt _ _)) by lia; done.
Qed.

(** The snapshot lets through exactly the commits that had happened. *)
Lemma snapshot_commits t x :
  known_at h t x -> is_current (h_backend h) x = false ->
  InMVCCSnapshot x r = false /\ xact_did_commit (h_end h) x = true <-> had_committed lo N0 (tr 0) x.
Proof.
  intros Hk Hc. destruct xmins_at as (R & X & ER & EX & HR & HX & HNR & HNX & _). cbn [xact_did_commit the_env server_env]. rewrite EX.
  pose proof (ho_fetch _ Hh (h_end h)) as Hf. assert (Hcase : forall v w, u32 v = u32 w -> in_window lo v -> in_window lo w -> v = w) by (intros v w E ? ?; by apply (u32_window_inj lo)).
  destruct Hk as [Hx|(v & -> & Hw & [[Hlt [st Est]]|Hv])].
  - split; [by left|]. intros _. split; [by apply special_unlisted|by apply read_special].
  - rewrite (read_old lo N0 (logs_at h (h_end h)) X (h_fetch h (h_end h)) HX Hf v st Hw ltac:(lia)); cycle 1.
    { rewrite <- Est. apply (la_old _ _ _ _ _ (states_later 0 (2 * h_end h + 1) ltac:(lia))); [done|lia]. }
    rewrite old_unlisted by done. split.
    + intros [_ E]. b2p. right. exists v. rewrite Est, E. auto.
    + intros [Hx|(w & E & Hww & Hc' & _)]; [exfalso; destruct Hw as [_ Hn], Hx as [Hx|Hx]; rewrite Hx in Hn; by vm_compute in Hn|].
      apply Hcase in E as <-; [|done..]. rewrite Est in Hc'. injection Hc' as ->. done.
  - assert (Hread : ended lo N0 (tr 0) v -> did_commit_in N0 (logs_at h (h_end h)) (u32 X) (h_fetch h (h_end h)) (u32 v) = true <->
      status (tr 0) v = Some TRANSACTION_STATUS_COMMITTED).
    { intros He. pose proof (la_status _ _ _ _ _ (states_later 0 (2 * h_end h + 1) ltac:(lia)) v He) as Es.
      destruct (eo_status _ _ _ _ (so_ended _ _ _ (states_ok 0) v He)) as [Est|Est]; rewrite Est in *;
        rewrite (proj1 (read_final lo N0 _ X _ Hf v _ Hw Es ltac:(by (left + right)))); done. }
    split.
    + intros [Hi Hd]. assert (He : ended lo N0 (tr 0) v) by (by eapply unlisted_ended). right. exists v. split; [done|]. split; [done|].
      split; [by apply Hread|by right].
    + intros [Hx|(w & E & Hww & Hc' & He)]; [exfalso; destruct Hw as [_ Hn], Hx as [Hx|Hx]; rewrite Hx in Hn; by vm_compute in Hn|].
      apply Hcase in E as <-; [|done..]. destruct He as [Hlt|He]; [destruct Hv as [[_ Hr] _]; lia|].
      split; [by eapply committed_unlisted|by apply Hread].
Qed.
End snapshot.

(** ** Trees of transactions *)

Lemma chain_unique s v r r' : server_ok lo N0 s -> chain lo N0 s v r -> chain lo N0 s v r' -> r = r'.
Proof.
  intros Hs Hc. revert r'. induction Hc as [r Hr E|v p r Hv E Hlt Hc IH]; intros r' Hc'.
  - inversion Hc' as [r0 Hr0 E0|v0 p0 r0 Hv0 E0 Hlt0 Hc0]; subst; [done|]. exfalso. destruct (chain_recorded _ _ _ _ _ Hc0) as ([[[_ Hn] _] _] & _).
    rewrite E in E0. injection E0 as E0. rewrite <- E0 in Hn. done.
  - destruct (chain_recorded _ _ _ _ _ Hc) as ([[Hpw Hpr] _] & _).
    inversion Hc' as [r0 Hr0 E0|v0 p0 r0 Hv0 E0 Hlt0 Hc0]; subst.
    + exfalso. rewrite E in E0. injection E0 as E0. destruct Hpw as [_ Hn]. rewrite E0 in Hn. done.
    + destruct (chain_recorded _ _ _ _ _ Hc0) as ([[Hpw0 Hpr0] _] & _). rewrite E in E0. injection E0 as E0.
      apply (u32_window_inj lo) in E0; [|done..]. subst p0. by apply IH.
Qed.

(** The parents of a committed transaction have committed. *)
Lemma committed_chain t v p :
  chain lo N0 (array_at h t) v p -> ended lo N0 (tr 0) v -> status (tr 0) v = Some TRANSACTION_STATUS_COMMITTED ->
  ended lo N0 (tr 0) p /\ status (tr 0) p = Some TRANSACTION_STATUS_COMMITTED.
Proof.
  induction 1 as [r Hr E|v p r Hv E Hlt Hc IH]; [done|]. intros He Hst.
  destruct (chain_recorded _ _ _ _ _ Hc) as (Hp & _).
  destruct (la_recorded _ _ _ _ _ (states_later 0 (2 * t) ltac:(lia)) v (ended_recorded _ _ _ _ He)) as [_ Epar]. change (tr (2 * t)) with (array_at h t) in Epar.
  rewrite E in Epar. destruct (parent_cases lo N0 (tr 0) v (states_ok 0) (proj1 He)) as [E0|(q & Eq & Hq & _)]; rewrite <- Epar in *.
  - exfalso. injection E0 as E0. destruct Hp as [[[_ Hn] _] _]. rewrite E0 in Hn. done.
  - injection Eq as Eq. apply (u32_window_inj lo) in Eq; [|apply Hp|apply Hq]. subst q.
    destruct (eo_committed _ _ _ _ (so_ended _ _ _ (states_ok 0) v He) Hst p Hq (eq_sym Epar)) as [He' Hst']. auto.
Qed.

(** A transaction of a tree that has ended has ended. *)
Lemma tree_over t v p :
  chain lo N0 (array_at h t) v p -> ended lo N0 (tr 0) p -> v < next_id (tr 0) -> ended lo N0 (tr 0) v.
Proof.
  intros Hc Hp Hlt. destruct (chain_recorded _ _ _ _ _ Hc) as (Hv & _). split; [split; [apply Hv|]; destruct Hv as [[_ Hr] _]; lia|].
  intros (m & b & Hb & Hin)%live_ids. pose proof (so_backends _ _ _ (states_ok 0) m b Hb) as Hok.
  assert (Hjoin : forall t0, b_top b = Some t0 -> joined lo N0 (tr 0) v t0 -> p = t0).
  { intros t0 Ht0 Hj. apply (la_joined _ _ _ _ _ (states_later 0 (2 * t) ltac:(lia))) in Hj.
    eapply (chain_unique (array_at h t)); [apply states_ok|done|]. destruct Hj as [Hj|(m' & b' & Hb' & Ht' & Hin')]; [done|].
    eapply live_chain; [apply states_ok|done|done|]. apply elem_of_app in Hin' as [?|Hpe]; [done|]. by destruct (proj2 Hv m' b' Hb'). }
  assert (Htop : exists t0, b_top b = Some t0 /\ joined lo N0 (tr 0) v t0).
  { apply elem_of_ids in Hin as [Ht|Hin].
    - exists v. split; [done|]. left. apply chain_top; [eapply own_recorded; [apply states_ok|done|]; rewrite Ht; by left|].
      apply (bo_root _ _ _ _ Hok), elem_of_app. left. rewrite Ht. by left.
    - destruct (top_of_sub lo N0 (tr 0) (states_ok 0) m v) as (t0 & (b' & Hb' & Ht0) & _); [by exists b|].
      rewrite Hb in Hb'. injection Hb' as <-. exists t0. split; [done|]. right. by exists m, b. }
  destruct Htop as (t0 & Ht0 & Hj). pose proof (Hjoin t0 Ht0 Hj) as ->. apply Hp. exists m. left. by exists b.
Qed.

Lemma tree_commits t v p :
  chain lo N0 (array_at h t) v p -> v < next_id (tr 0) -> xact_did_commit (h_end h) (u32 v) = true ->
  had_committed lo N0 (tr 0) (u32 v) <-> had_committed lo N0 (tr 0) (u32 p).
Proof.
  intros Hc Hlt Hd. destruct (chain_recorded _ _ _ _ _ Hc) as ([[Hvw Hvr] _] & [[Hpw Hpr] _] & _).
  assert (Hcase : forall w, in_window lo w -> N0 <= w -> had_committed lo N0 (tr 0) (u32 w) <->
    ended lo N0 (tr 0) w /\ status (tr 0) w = Some TRANSACTION_STATUS_COMMITTED).
  { intros w Hw Hr. split; [|intros [He Hs]; right; exists w; auto].
    intros [Hx|(w' & E & Hw' & Hs & He)]; [exfalso; destruct Hw as [_ Hn], Hx as [Hx|Hx]; rewrite Hx in Hn; by vm_compute in Hn|].
    apply (u32_window_inj lo) in E; [|done..]. subst w'. destruct He as [?|He]; [lia|done]. }
  rewrite !Hcase by (done || lia). split; [intros [He Hs]; by eapply committed_chain|].
  intros [He Hs]. assert (Hve : ended lo N0 (tr 0) v) by (by eapply tree_over). split; [done|].
  destruct (eo_status _ _ _ _ (so_ended _ _ _ (states_ok 0) v Hve)) as [Est|Est]; [done|exfalso].
  destruct xmins_at as (R & X & _ & EX & _ & HX & _ & HNX & _). cbn [xact_did_commit the_env server_env] in Hd. rewrite EX in Hd.
  pose proof (la_status _ _ _ _ _ (states_later 0 (2 * h_end h + 1) ltac:(lia)) v Hve) as Es. rewrite Est in Es.
  by rewrite (proj1 (read_final lo N0 (logs_at h (h_end h)) X _ (ho_fetch _ Hh (h_end h)) v _ Hvw Es ltac:(by right))) in Hd.
Qed.
End env.
End laws.
