(* ===== verification/ServerSpec.v ===== *)
(** * Transactions on the server

    What the backends of a server can rely on, whatever the others do: a transaction that is not in progress has its outcome;
    a snapshot shows exactly the commits that had happened when it was taken, whole transactions only; the MVCC check
    decides visibility by them. *)
From S2P Require Import Prelude TransactionId ItemPtr HeapTuple Snapshot Varsup Clog Subtrans ProcArray ProcArraySpec.
From S2P Require Import Visibility VisibilitySpec.
From S2P Require Import Server ServerInv ServerArray ServerSnapshot ServerSteps ServerHistory ServerReads ServerLaws Startup ServerRun.
Local Open Scope Z_scope.

(** The snapshot of the backend. *)
Definition taken (h : history) : SnapshotData := snap (b_snapshot (h_backend h)).

(** What a transaction did is there for the snapshot: it is the backend's own and did it before the current command, or it had committed when
    the snapshot was taken. *)
Definition took_effect (h : history) (x : TransactionId) (before : bool) : Prop :=
  if is_current (h_backend h) x then before = true else had_committed (h_lo h) (h_first h) (h_states h 0) x.

Lemma taken_by h cid s0 :
  history_ok h -> server_ok (h_lo h) (h_first h) s0 -> takes_snapshot (h_me h) cid s0 (h_states h 0) ->
  exists F, snap_exact (h_lo h) (h_first h) (h_states h 0) (h_me h) (taken h) F.
Proof.
  intros Hh Hs Ht. destruct (taken_exact _ _ _ _ _ _ Hs Ht) as (_ & b & F & Hb & _ & HF). rewrite (ho_backend _ Hh) in Hb. injection Hb as <-. by exists F.
Qed.

Section spec.
Context (h : history) (Hh : history_ok h) (base : XactEnv).
Local Instance spec_env : XactEnv := server_env h base.
Local Instance spec_laws : XactLaws := server_laws h Hh base.

Lemma insertion_seen F tup t :
  snap_exact (h_lo h) (h_first h) (h_states h 0) (h_me h) (taken h) F -> tuple_ok t tup ->
  let o := snapshot_observer (taken h) in
  inserted_before o tup = true <-> frozen tup = true \/ took_effect h (t_xmin tup) (cmin_before o tup).
Proof.
  intros HF Hok o. unfold inserted_before, took_effect. rewrite orb_true_iff. destruct (frozen tup) eqn:Ef; [split; by left|].
  pose proof (ok_known_xmin _ _ Hok Ef) as Hk. apply or_iff_compat_l. change (own o (t_xmin tup)) with (is_current (h_backend h) (t_xmin tup)).
  destruct (is_current (h_backend h) (t_xmin tup)) eqn:Ec; [done|].
  rewrite andb_true_iff, negb_true_iff. exact (snapshot_commits h Hh base (taken h) F HF t _ Hk Ec).
Qed.

Lemma deletion_seen F tup t :
  snap_exact (h_lo h) (h_first h) (h_states h 0) (h_me h) (taken h) F -> tuple_ok t tup ->
  let o := snapshot_observer (taken h) in
  deleted_before o tup = true <-> exists u, updater tup = Some u /\ took_effect h u (cmax_before o tup).
Proof.
  intros HF Hok o. unfold deleted_before, took_effect. destruct (updater tup) as [u|] eqn:Eu; [|split; [done|by intros (u & ? & _)]].
  assert (Hk : known_at h t u).
  { unfold updater in Eu. destruct (tst _ HEAP_XMAX_INVALID) eqn:Ei; [done|]. destruct (HEAP_XMAX_IS_LOCKED_ONLY _) eqn:El; [done|].
    eapply (ok_known_xmax _ _ Hok Ei). unfold holds_xmax. destruct (tst _ HEAP_XMAX_IS_MULTI); injection Eu as <-; [left; by split; [apply not_locked_only|]|done]. }
  change (own o u) with (is_current (h_backend h) u).
  assert (Hiff : (if is_current (h_backend h) u then cmax_before o tup else negb (in_snap o u) && committed u) = true <->
    if is_current (h_backend h) u then cmax_before o tup = true else had_committed (h_lo h) (h_first h) (h_states h 0) u).
  { destruct (is_current (h_backend h) u) eqn:Ec; [done|]. rewrite andb_true_iff, negb_true_iff.
    exact (snapshot_commits h Hh base (taken h) F HF t _ Hk Ec). }
  rewrite Hiff. split; [intros H; by exists u|]. by intros (u' & [= <-] & H).
Qed.
End spec.

(** C2 -- Visibility on the server.  A backend takes a snapshot, new or used again, and looks at a tuple with truthful hint bits while
    the other backends assign ids, commit and abort.  [HeapTupleSatisfiesMVCC], asking the process array, the commit
    log and [pg_subtrans] as they change, says that the tuple is visible exactly when its inserter is the backend's own earlier command or
    had committed when the snapshot was taken, and no such transaction had deleted it. *)
Theorem server_mvcc (h : history) (Hh : history_ok h) (base : XactEnv) cid s0 t tup d :
  server_ok (h_lo h) (h_first h) s0 -> takes_snapshot (h_me h) cid s0 (h_states h 0) ->
  tuple_ok (laws := server_laws h Hh base) t tup ->
  let o := snapshot_observer (env := server_env h base) (taken h) in
  fst (HeapTupleSatisfiesMVCC (env := server_env h base) (taken h) (VS t tup d)) = true <->
  (frozen tup = true \/ took_effect h (t_xmin tup) (cmin_before o tup)) /\
  (forall u, updater (env := server_env h base) tup = Some u -> ~ took_effect h u (cmax_before o tup)).
Proof.
  intros Hs Ht Hok o. destruct (taken_by h cid s0 Hh Hs Ht) as [F HF].
  pose proof (mvcc_spec (laws := server_laws h Hh base) (taken h) 0 t tup d (exact_snapshot_ok h Hh base _ F HF) ltac:(lia) Hok) as Hspec.
  unfold vwp in Hspec. destruct (HeapTupleSatisfiesMVCC _ _) as [v st']. destruct Hspec as [_ ->]. cbn [fst]. unfold mvcc_visible.
  rewrite andb_true_iff, negb_true_iff, <- not_true_iff_false.
  rewrite (insertion_seen h Hh base F tup t HF Hok), (deletion_seen h Hh base F tup t HF Hok).
  apply and_iff_compat_l. split; [intros Hn u Hu Ht'; apply Hn; by exists u|]. intros Hn (u & Hu & Ht'). by apply (Hn u).
Qed.

(** C12 -- What the snapshot of a backend shows.  The snapshot that [GetSnapshotData] returns, built from the process array or used again because no
    transaction has completed since, lets an id of another transaction that storage may hold ([known_at]) through that the log says has committed exactly when that transaction had
    committed and left the array when the snapshot was taken, whether its subtransactions
    were cached, overflowed, or not yet recorded in [pg_subtrans]. *)
Theorem snapshot_shows_commits (h : history) (Hh : history_ok h) (base : XactEnv) cid s0 t x :
  server_ok (h_lo h) (h_first h) s0 -> takes_snapshot (h_me h) cid s0 (h_states h 0) ->
  known_at h t x -> is_current (h_backend h) x = false ->
  InMVCCSnapshot (env := server_env h base) x (taken h) = false /\ xact_did_commit (XactEnv := server_env h base) (h_end h) x = true <->
  had_committed (h_lo h) (h_first h) (h_states h 0) x.
Proof.
  intros Hs Ht Hk Hc. destruct (taken_by h cid s0 Hh Hs Ht) as [F HF]. exact (snapshot_commits h Hh base (taken h) F HF t x Hk Hc).
Qed.

(** C11 -- All or nothing.  A snapshot shows a transaction together with all its subtransactions: for a
    subtransaction that commits, assigned before the snapshot was taken, it and the top-level transaction that its parents
    lead to are both shown as committed or neither is. *)
Theorem snapshot_all_or_nothing (h : history) (Hh : history_ok h) (base : XactEnv) cid s0 t v top :
  let sees x := InMVCCSnapshot (env := server_env h base) x (taken h) = false /\ xact_did_commit (XactEnv := server_env h base) (h_end h) x = true in
  server_ok (h_lo h) (h_first h) s0 -> takes_snapshot (h_me h) cid s0 (h_states h 0) ->
  chain (h_lo h) (h_first h) (array_at h t) v top -> v < next_id (h_states h 0) ->
  is_current (h_backend h) (u32 v) = false -> is_current (h_backend h) (u32 top) = false ->
  xact_did_commit (XactEnv := server_env h base) (h_end h) (u32 v) = true ->
  sees (u32 v) <-> sees (u32 top).
Proof.
  intros sees Hs Ht Hc Hlt Hcv Hct Hd. destruct (taken_by h cid s0 Hh Hs Ht) as [F HF]. destruct (chain_recorded _ _ _ _ _ Hc) as (Hv & Hp & _).
  assert (Hk : forall w, recorded (h_lo h) (h_first h) (array_at h t) w -> known_at h t (u32 w)).
  { intros w Hw. right. exists w. split; [done|]. split; [apply Hw|by right]. }
  unfold sees. rewrite (snapshot_commits h Hh base (taken h) F HF t _ (Hk v Hv) Hcv), (snapshot_commits h Hh base (taken h) F HF t _ (Hk top Hp) Hct).
  by apply (tree_commits h Hh base t).
Qed.

(** C13 -- Not in progress means over.  For the ids that storage may hold ([known_at]: the two special ones, those assigned before the server
    started that the log still covers, and those assigned since whose parent is recorded in [pg_subtrans]): when [TransactionIdIsInProgress] has once
    denied one, reading the process array first and the logs later while other backends go on, it denies it ever after, and
    [TransactionIdDidCommit] gives the same answer at every later instant: no such transaction commits after a reader has taken it for
    aborted.  An id outside of these, a subtransaction whose parent is not yet recorded and that did not fit into the cache of its process, may be denied first and
    be found in progress later, as [varsup.c] says; [AssignTransactionId] records the parent before the id can get into a tuple. *)
Theorem not_in_progress_final (h : history) (Hh : history_ok h) (base : XactEnv) t t' x :
  known_at h t x -> xact_in_progress (XactEnv := server_env h base) t x = false -> (t <= t')%nat ->
  xact_in_progress (XactEnv := server_env h base) t' x = false /\
  xact_did_commit (XactEnv := server_env h base) t' x = xact_did_commit (XactEnv := server_env h base) t x.
Proof.
  intros Hk Hp Hle. split; [by apply (done_stays h Hh base t)|]. destruct (done_outcome h Hh base t x Hk Hp) as [c Hc].
  transitivity c; [|symmetry]; apply Hc; by left.
Qed.

(** ** An example *)

(** Backend 0 takes a snapshot at noon, when 701 and its subtransaction 702 have committed; then backend 2 commits 700. *)
Module HistoryExample.
Import RunExample.

Definition next (n : nat) (act : action) (s : server) : server := default s (exec 0 n act s).

Lemma executed n act s : bool_decide (is_Some (exec 0 n act s)) = true -> exec 0 n act s = Some (next n act s).
Proof. intros [s' E]%bool_decide_eq_true. unfold next. by rewrite E. Qed.

Definition one : server := next 0 (TakeSnapshot 0) noon.
Definition two : server := next 2 (Finish TRANSACTION_STATUS_COMMITTED) one.
Definition three : server := next 2 WritePage two.
Definition four : server := next 2 End three.
Definition afternoon (i : nat) : server := match i with 0 => one | 1 => two | 2 => three | _ => four end%nat.
Definition onlooker : backend := default new_backend (sv_backends one !! 0%nat).

Definition day : history := {|
  h_lo := 0; h_first := 700; h_me := 0; h_backend := onlooker; h_RecentXmin := 700; h_TransactionXmin := 700;
  h_states := afternoon; h_end := 3; h_cache := fun _ => InvalidTransactionId; h_fetch := fun _ => no_cache
|}.

Lemma to_one : exec 0 0 (TakeSnapshot 0) noon = Some one.
Proof. apply executed. vm_compute. reflexivity. Qed.
Lemma to_two : exec 0 2 (Finish TRANSACTION_STATUS_COMMITTED) one = Some two.
Proof. apply executed. vm_compute. reflexivity. Qed.
Lemma to_three : exec 0 2 WritePage two = Some three.
Proof. apply executed. vm_compute. reflexivity. Qed.
Lemma to_four : exec 0 2 End three = Some four.
Proof. apply executed. vm_compute. reflexivity. Qed.

Lemma onlooker_there : sv_backends one !! 0%nat = Some onlooker.
Proof.
  assert (H : bool_decide (is_Some (sv_backends one !! 0%nat)) = true) by (vm_compute; reflexivity).
  apply bool_decide_eq_true in H as [b E]. unfold onlooker. by rewrite E.
Qed.
#[local] Opaque noon one two three four onlooker.

Lemma one_ok : server_ok 0 700 one.
Proof. eapply (server_step_ok 0 700 noon 0 _ noon_ok), exec_step, to_one. Qed.

Lemma day_ok : history_ok day.
Proof.
  split.
  - exact one_ok.
  - assert (Hstep : forall act s s', exec 0 2 act s = Some s' -> others 0 0 s s').
    { intros act s s' E. apply rtc_once. exists 2%nat. split; [discriminate|]. by eapply exec_step. }
    intros [|[|[|i]]]; [exact (Hstep _ _ _ to_two)|exact (Hstep _ _ _ to_three)|exact (Hstep _ _ _ to_four)|apply rtc_refl].
  - intros [|[|[|i]]] Hi; [exfalso; inversion Hi|exfalso; cbn in Hi; lia|exfalso; cbn in Hi; lia|reflexivity].
  - exact onlooker_there.
  - vm_compute. reflexivity.
  - vm_compute. reflexivity.
  - intros t. by left.
  - intros t. by left.
Qed.
Definition all_backends (f : backend -> bool) (s : server) : bool := forallb (fun nb => f (snd nb)) (map_to_list (sv_backends s)).

Lemma all_backends_spec f s : all_backends f s = true -> forall n b, sv_backends s !! n = Some b -> f b = true.
Proof.
  unfold all_backends. rewrite forallb_forall. intros H n b Hb. apply (H (n, b)). apply list_elem_of_In. by apply elem_of_map_to_list.
Qed.

Definition recorded_now (v : Z) : bool :=
  ((0 <=? v) && (v <? 2 ^ 31) && (3 <=? u32 v) && (700 <=? v) && (v <? next_id one)) &&
  all_backends (fun b => bool_decide (v ∉ pending b)) one.
Definition over_now (v : Z) : bool := all_backends (fun b => bool_decide (b_top b <> Some v /\ v ∉ sub_ids b)) one.

Lemma recorded_one v : recorded_now v = true -> recorded 0 700 one v.
Proof.
  unfold recorded_now. rewrite !andb_true_iff, !Z.leb_le, !Z.ltb_lt. intros (((((? & ?) & ?) & ?) & ?) & Hall).
  split; [split; [split; [lia|done]|lia]|]. intros m b Hb. exact (proj1 (bool_decide_eq_true _) (all_backends_spec _ _ Hall m b Hb)).
Qed.

Lemma ended_one v : recorded_now v = true -> over_now v = true -> ended 0 700 one v.
Proof.
  intros Hr Ho. split; [apply (recorded_one v Hr)|].
  assert (H : forall m b, sv_backends one !! m = Some b -> b_top b <> Some v /\ v ∉ sub_ids b)
    by (intros m b Hb; exact (proj1 (bool_decide_eq_true _) (all_backends_spec _ _ Ho m b Hb))).
  by intros (m & [(b & Hb & Ht)|(b & Hb & Ht)]); apply (H m b Hb) in Ht.
Qed.

Lemma known_day v t : recorded_now v = true -> u32 v = v -> known_at day t v.
Proof.
  intros Hr Hv. pose proof (recorded_one v Hr) as H. eapply (known_mono (XactLaws := server_laws day day_ok VisExample.history) 0); [|lia].
  right. exists v. split; [done|]. split; [apply H|by right].
Qed.

Definition row : HeapTupleHeaderData :=
  {| t_xmin := 702; t_xmax := 700; t_field3 := 0; t_ctid := {| ip_blkid := {| bi_hi := 0; bi_lo := 0 |}; ip_posid := 1 |};
     t_infomask2 := 1; t_infomask := 0; t_hoff := 24; t_bits := [] |}.

Lemma not_mine v : negb (is_current onlooker v) = true -> is_current onlooker v = false.
Proof. apply negb_true_iff. Qed.

Lemma row_ok t : tuple_ok (laws := server_laws day day_ok VisExample.history) t row.
Proof.
  split.
  - intros _. apply known_day; [vm_compute; reflexivity|reflexivity].
  - intros _ x Hx. change (x = 700) in Hx. subst x. apply known_day; [vm_compute; reflexivity|reflexivity].
  - reflexivity.
  - reflexivity.
  - intros H. discriminate H.
  - intros _ H. discriminate H.
  - intros H. discriminate H.
  - intros _ Hc. exfalso. change (is_current onlooker 702 = true) in Hc. rewrite not_mine in Hc; [discriminate Hc|vm_compute; reflexivity].
Qed.

Lemma shown_702 : had_committed 0 700 one 702.
Proof.
  right. exists 702. split; [reflexivity|]. split; [split; [lia|by vm_compute]|]. split; [vm_compute; reflexivity|].
  right. apply ended_one; vm_compute; reflexivity.
Qed.

Lemma hidden_700 : ~ had_committed 0 700 one 700.
Proof.
  intros [[H|H]|(v & Hv & Hw & Hs & _)]; [discriminate H|discriminate H|].
  assert (v = 700) as -> by (apply (u32_window_inj 0); [done|split; [lia|by vm_compute]|done]).
  assert (Hn : bool_decide (status one 700 = Some TRANSACTION_STATUS_COMMITTED) = false) by (vm_compute; reflexivity).
  exact (proj1 (bool_decide_eq_false _) Hn Hs).
Qed.

Lemma chain_702 : chain 0 700 one 702 701.
Proof.
  apply (chain_step _ _ _ 702 701); [apply recorded_one; vm_compute; reflexivity|vm_compute; reflexivity|lia|].
  apply chain_top; [apply recorded_one; vm_compute; reflexivity|vm_compute; reflexivity].
Qed.

Lemma server_mvcc_witness :
  fst (HeapTupleSatisfiesMVCC (env := server_env day VisExample.history) (taken day) (VS 1 row false)) = true.
Proof.
  apply (server_mvcc day day_ok VisExample.history 0 noon 1 row false noon_ok (exec_takes _ _ _ _ _ to_one) (row_ok 1)). split.
  - right. unfold took_effect. cbn [day h_backend h_lo h_first h_states afternoon row t_xmin]. rewrite not_mine; [apply shown_702|vm_compute; reflexivity].
  - intros u [= <-]. unfold took_effect. cbn [day h_backend h_lo h_first h_states afternoon row].
    change (HeapTupleHeaderGetRawXmax row) with 700. rewrite not_mine; [apply hidden_700|vm_compute; reflexivity].
Defined.

Lemma snapshot_shows_commits_witness :
  InMVCCSnapshot (env := server_env day VisExample.history) 702 (taken day) = false.
Proof.
  apply (snapshot_shows_commits day day_ok VisExample.history 0 noon 0 702 noon_ok (exec_takes _ _ _ _ _ to_one)).
  - apply known_day; [vm_compute; reflexivity|reflexivity].
  - apply not_mine. vm_compute. reflexivity.
  - exact shown_702.
Defined.

Lemma snapshot_all_or_nothing_witness :
  InMVCCSnapshot (env := server_env day VisExample.history) (u32 701) (taken day) = false.
Proof.
  assert (Hd : xact_did_commit (XactEnv := server_env day VisExample.history) (h_end day) (u32 702) = true) by (vm_compute; reflexivity).
  assert (Hs : InMVCCSnapshot (env := server_env day VisExample.history) (u32 702) (taken day) = false) by (vm_compute; reflexivity).
  assert (Hlt : 702 < next_id (h_states day 0)) by (apply Z.ltb_lt; vm_compute; reflexivity).
  assert (H702 : is_current (h_backend day) (u32 702) = false) by (vm_compute; reflexivity).
  assert (H701 : is_current (h_backend day) (u32 701) = false) by (vm_compute; reflexivity).
  pose proof (snapshot_all_or_nothing day day_ok VisExample.history 0 noon 0 702 701 noon_ok (exec_takes _ _ _ _ _ to_one) chain_702
    Hlt H702 H701 Hd) as H.
  exact (proj1 (proj1 H (conj Hs Hd))).
Defined.

Lemma not_in_progress_final_witness :
  xact_in_progress (XactEnv := server_env day VisExample.history) 1 702 = false /\
  xact_did_commit (XactEnv := server_env day VisExample.history) 1 702 = xact_did_commit (XactEnv := server_env day VisExample.history) 0 702.
Proof.
  apply (not_in_progress_final day day_ok VisExample.history 0 1 702).
  - apply known_day; [vm_compute; reflexivity|reflexivity].
  - vm_compute. reflexivity.
  - lia.
Defined.
End HistoryExample.
