(* ===== verification/ComboCid.v ===== *)
(** * Combo command ids

    [src/postgresql/src/backend/utils/time/combocid.c]: a tuple header has one field
    for the inserting and the deleting command.  When one transaction does both,
    the field holds a combo command id, an index into a table of pairs private to the
    transaction.  The table is a growing array with a hash table over it; its
    state can be copied to parallel workers.

    Every memory request may fail; the error leaves the function where it is
    raised, and the state at that point remains. *)
From S2P Require Import Prelude TransactionId ItemPtr HeapTuple Snapshot Visibility VisibilitySpec.
Local Open Scope Z_scope.

(** ** State *)

Record ComboCidKeyData := { cmin : CommandId; cmax : CommandId }.

#[export] Instance ComboCidKeyData_eq_dec : EqDecision ComboCidKeyData.
Proof. solve_decision. Defined.
#[export] Instance ComboCidKeyData_countable : Countable ComboCidKeyData.
Proof.
  apply (inj_countable' (fun k => (cmin k, cmax k)) (fun p => {| cmin := p.1; cmax := p.2 |})). by intros [].
Defined.

Definition sizeof_key : Z := 8.
Definition CCID_ARRAY_SIZE : nat := 100.
Definition MaxAllocSize : Z := 0x3fffffff.

(** An array element that was not written yet is [None]; the array is empty for a null pointer. *)
Record combo_state := {
  comboHash : option (gmap ComboCidKeyData CommandId);
  comboCids : list (option ComboCidKeyData);
  usedComboCids : nat;
  sizeComboCids : nat
}.

Inductive combo_error :=
| OutOfMemory
| InvalidAllocSize
| NotEnoughSpace
| UnexpectedCommandId.

(** Which memory requests of one call succeed. *)
Record memory := {
  palloc_ok : nat -> bool;
  hash_create_ok : bool;
  hash_enter_ok : bool
}.

Definition Combo (A : Type) : Type := combo_state -> combo_state * (combo_error + A).
Definition cret {A} (a : A) : Combo A := fun st => (st, inr a).
Definition cthrow {A} (e : combo_error) : Combo A := fun st => (st, inl e).
Definition cbind {A B} (c : Combo A) (k : A -> Combo B) : Combo B :=
  fun st => match c st with
            | (st', inl e) => (st', inl e)
            | (st', inr a) => k a st'
            end.
Definition cget : Combo combo_state := fun st => (st, inr st).
Definition cput (st : combo_state) : Combo unit := fun _ => (st, inr tt).

Declare Scope combo_scope.
Delimit Scope combo_scope with combo.
Notation "'let!' x := c 'in' k" := (cbind c (fun x => k))
  (at level 10, x name, c at level 100, k at level 200, right associativity) : combo_scope.
Notation "c ;! k" := (cbind c (fun _ => k)) (at level 100, right associativity) : combo_scope.
Local Open Scope combo_scope.

(** ** Operations *)

Definition AtEOXact_ComboCid : combo_state :=
  {| comboHash := None; comboCids := []; usedComboCids := 0; sizeComboCids := 0 |}.

(** [MemoryContextAlloc] or [repalloc] of an array of [n] pairs. *)
Definition alloc_array (mem : memory) (n : nat) : Combo unit :=
  if MaxAllocSize <? sizeof_key * Z.of_nat n then cthrow InvalidAllocSize
  else if palloc_ok mem n then cret tt else cthrow OutOfMemory.

(** Create the hash table and array the first time. *)
Definition create_combo_tables (mem : memory) : Combo unit :=
  let! st := cget in
  match comboHash st with
  | Some _ => cret tt
  | None =>
      alloc_array mem CCID_ARRAY_SIZE ;!
      cput {| comboHash := None; comboCids := replicate CCID_ARRAY_SIZE None; usedComboCids := 0;
              sizeComboCids := CCID_ARRAY_SIZE |} ;!
      if hash_create_ok mem then
        cput {| comboHash := Some ∅; comboCids := replicate CCID_ARRAY_SIZE None; usedComboCids := 0;
                sizeComboCids := CCID_ARRAY_SIZE |}
      else cthrow OutOfMemory
  end.

(** Grow the array if there is not at least one free slot. *)
Definition grow_combo_array (mem : memory) : Combo unit :=
  let! st := cget in
  if (sizeComboCids st <=? usedComboCids st)%nat then
    let newsize := (sizeComboCids st * 2)%nat in
    alloc_array mem newsize ;!
    cput {| comboHash := comboHash st;
            comboCids := comboCids st ++ replicate (newsize - sizeComboCids st) None;
            usedComboCids := usedComboCids st; sizeComboCids := newsize |}
  else cret tt.

Definition GetComboCommandId (mem : memory) (c1 c2 : CommandId) : Combo CommandId :=
  create_combo_tables mem ;!
  grow_combo_array mem ;!
  let! st := cget in
  let key := {| cmin := c1; cmax := c2 |} in
  let hash := default ∅ (comboHash st) in
  match hash !! key with
  | Some combocid => cret combocid
  | None =>
      if hash_enter_ok mem then
        let combocid := Z.of_nat (usedComboCids st) in
        cput {| comboHash := Some (<[key := combocid]> hash);
                comboCids := <[usedComboCids st := Some key]> (comboCids st);
                usedComboCids := S (usedComboCids st); sizeComboCids := sizeComboCids st |} ;!
        cret combocid
      else cthrow OutOfMemory
  end.

Definition combo_at (st : combo_state) (combocid : CommandId) : option ComboCidKeyData :=
  mjoin (comboCids st !! Z.to_nat combocid).
Definition GetRealCmin (st : combo_state) (combocid : CommandId) : option CommandId :=
  cmin <$> combo_at st combocid.
Definition GetRealCmax (st : combo_state) (combocid : CommandId) : option CommandId :=
  cmax <$> combo_at st combocid.

(** The value to store into [t_cid], and whether it is a combo id; [current] is
    [TransactionIdIsCurrentTransactionId] and [get_cmin] is [HeapTupleHeaderGetCmin]. *)
Definition HeapTupleHeaderAdjustCmax (mem : memory) (current : TransactionId -> bool)
  (get_cmin : HeapTupleHeaderData -> CommandId) (tup : HeapTupleHeaderData) (c2 : CommandId) :
  Combo (CommandId * bool) :=
  if negb (HeapTupleHeaderXminCommitted tup) && current (HeapTupleHeaderGetRawXmin tup) then
    let! c := GetComboCommandId mem (get_cmin tup) c2 in cret (c, true)
  else cret (c2, false).

(** ** Copying the state to a parallel worker *)

(** A 32-bit value in little-endian bytes. *)
Definition bytes4 (x : Z) : list Z := [x mod 256; x / 256 mod 256; x / 65536 mod 256; x / 16777216 mod 256].
Definition of_bytes4 (b : list Z) : Z :=
  match b with
  | [b0; b1; b2; b3] => b0 + 256 * b1 + 65536 * b2 + 16777216 * b3
  | _ => 0
  end.

Definition key_bytes (k : ComboCidKeyData) : list Z := bytes4 (cmin k) ++ bytes4 (cmax k).

Definition EstimateComboCIDStateSpace (st : combo_state) : Z := 4 + sizeof_key * Z.of_nat (usedComboCids st).

(** The bytes written at [start_address]; an unwritten pair, which the code never
    reaches, would copy indeterminate bytes. *)
Definition SerializeComboCIDState (maxsize start_address : Z) (st : combo_state) : combo_error + list Z :=
  let endptr := u64 (start_address + 4 + sizeof_key * Z.of_nat (usedComboCids st)) in
  if (endptr <? start_address) || (endptr >? u64 (start_address + maxsize)) then inl NotEnoughSpace
  else inr (bytes4 (Z.of_nat (usedComboCids st)) ++
            concat (map (fun k => key_bytes (default {| cmin := 0; cmax := 0 |} k))
                        (take (usedComboCids st) (comboCids st)))).

Definition read4 (mem : list Z) (off : nat) : Z := of_bytes4 (take 4 (drop off mem)).

(** The loop of [RestoreComboCIDState] from element [i], with [n] to go. *)
Fixpoint restore_loop (mem : memory) (bytes : list Z) (i n : nat) : Combo unit :=
  match n with
  | O => cret tt
  | S n' =>
      let! cid := GetComboCommandId mem (read4 bytes (4 + 8 * i)) (read4 bytes (4 + 8 * i + 4)) in
      if cid =? Z.of_nat i then restore_loop mem bytes (S i) n' else cthrow UnexpectedCommandId
  end.

Definition RestoreComboCIDState (mem : memory) (bytes : list Z) : Combo unit :=
  restore_loop mem bytes 0 (Z.to_nat (s32 (read4 bytes 0))).

(** ** The table as a list of pairs *)

(** [st] represents the list [l] of the pairs allocated so far; the array has one of the
    sizes the doubling goes through, all of which can be allocated. *)
Record combo_rep (st : combo_state) (l : list ComboCidKeyData) : Prop := {
  rep_used : usedComboCids st = length l;
  rep_len : length (comboCids st) = sizeComboCids st;
  rep_fits : (length l <= sizeComboCids st)%nat;
  rep_cells : take (length l) (comboCids st) = Some <$> l;
  rep_nodup : NoDup l;
  rep_alloc : sizeof_key * Z.of_nat (sizeComboCids st) <= MaxAllocSize;
  rep_hash : match comboHash st with
             | None => l = []
             | Some h =>
                 (forall k c, h !! k = Some c <-> exists i, c = Z.of_nat i /\ l !! i = Some k) /\
                 exists n, sizeComboCids st = (CCID_ARRAY_SIZE * 2 ^ n)%nat
             end
}.

(** What a call does to the list: nothing, or one new pair at the end. *)
Definition interned (k : ComboCidKeyData) (l l' : list ComboCidKeyData) : Prop :=
  l' = l \/ ((k ∉ l) /\ l' = l ++ [k]).

Definition cwp {A} (c : Combo A) (Q : combo_state -> combo_error + A -> Prop) (st : combo_state) : Prop :=
  let (st', r) := c st in Q st' r.

Lemma cwp_bind {A B} (c : Combo A) (k : A -> Combo B) Q st :
  cwp c (fun st' r => match r with inl e => Q st' (inl e) | inr a => cwp (k a) Q st' end) st ->
  cwp (cbind c k) Q st.
Proof. unfold cwp, cbind. by destruct (c st) as [st' [e|a]]. Qed.

Lemma cwp_mono {A} (c : Combo A) (Q Q' : combo_state -> combo_error + A -> Prop) st :
  cwp c Q st -> (forall st' r, Q st' r -> Q' st' r) -> cwp c Q' st.
Proof. unfold cwp. destruct (c st). auto. Qed.

Lemma rep_empty : combo_rep AtEOXact_ComboCid [].
Proof. split; simpl; try done. constructor. Qed.

(** Every request is granted, and one more pair fits into an array that can be allocated. *)
Definition enough_memory (mem : memory) : Prop :=
  (forall n, palloc_ok mem n = true) /\ hash_create_ok mem = true /\ hash_enter_ok mem = true.
Definition table_fits (n : nat) : Prop :=
  exists m, (n < CCID_ARRAY_SIZE * 2 ^ m)%nat /\ sizeof_key * Z.of_nat (CCID_ARRAY_SIZE * 2 ^ m) <= MaxAllocSize.

Lemma alloc_array_spec mem n st :
  cwp (alloc_array mem n)
    (fun st' r => st' = st /\ (r = inr tt -> sizeof_key * Z.of_nat n <= MaxAllocSize) /\
       (enough_memory mem -> sizeof_key * Z.of_nat n <= MaxAllocSize -> r = inr tt)) st.
Proof.
  unfold alloc_array, cwp. destruct (Z.ltb_spec MaxAllocSize (sizeof_key * Z.of_nat n)).
  - split; [done|]. split; [done|lia].
  - destruct (palloc_ok mem n) eqn:E; [done|]. split; [done|]. split; [done|].
    intros [Hp _]. by rewrite Hp in E.
Qed.

Lemma create_spec mem l st :
  combo_rep st l ->
  cwp (create_combo_tables mem)
    (fun st' r => combo_rep st' l /\ (r = inr tt -> comboHash st' <> None) /\
       (enough_memory mem -> r = inr tt)) st.
Proof.
  intros H. unfold create_combo_tables. apply cwp_bind. unfold cwp at 1, cget.
  destruct (comboHash st) eqn:Eh; [by split; [|rewrite Eh]|].
  pose proof (rep_hash _ _ H) as Hl. rewrite Eh in Hl. subst l.
  apply cwp_bind. eapply cwp_mono; [apply alloc_array_spec|]. intros st1 [e|[]] (-> & Ha & Hok).
  { split; [done|]. split; [done|]. intros Hm. by specialize (Hok Hm ltac:(done)). }
  unfold cwp, cbind, cput, cret, cthrow.
  destruct (hash_create_ok mem) eqn:Ec; (split; [|split; [done|try done; intros (_ & ? & _); congruence]]);
    split; simpl; try done; try lia; try constructor.
  - intros k c. rewrite lookup_empty. split; [done|]. intros (i & _ & Hi). by rewrite lookup_nil in Hi.
  - by exists O.
Qed.

Lemma double_fits n m x :
  (x < CCID_ARRAY_SIZE * 2 ^ m)%nat -> (CCID_ARRAY_SIZE * 2 ^ n <= x)%nat ->
  (CCID_ARRAY_SIZE * 2 ^ n * 2 <= CCID_ARRAY_SIZE * 2 ^ m)%nat.
Proof.
  unfold CCID_ARRAY_SIZE. intros Hm Hn. assert (n < m)%nat by (apply (Nat.pow_lt_mono_r_iff 2); lia).
  pose proof (Nat.pow_le_mono_r 2 (S n) m). simpl in *. lia.
Qed.

Lemma grow_spec mem l st :
  combo_rep st l -> comboHash st <> None ->
  cwp (grow_combo_array mem)
    (fun st' r => combo_rep st' l /\
       (r = inr tt -> comboHash st' <> None /\ (length l < sizeComboCids st')%nat) /\
       (enough_memory mem -> table_fits (length l) -> r = inr tt)) st.
Proof.
  intros H Hh. unfold grow_combo_array. apply cwp_bind. unfold cwp at 1, cget. rewrite (rep_used _ _ H).
  destruct (Nat.leb_spec (sizeComboCids st) (length l)); [|done].
  pose proof (rep_fits _ _ H). pose proof (rep_len _ _ H). pose proof (rep_hash _ _ H) as Hr.
  destruct (comboHash st) as [h|] eqn:Eh; [|done]. destruct Hr as [Hr [n Hn]].
  apply cwp_bind. eapply cwp_mono; [apply alloc_array_spec|]. intros st1 [e|[]] (-> & Ha & Hok).
  { split; [done|]. split; [done|]. intros Hm (m & Hm1 & Hm2). specialize (Hok Hm).
    apply (double_fits n m) in Hm1; [|lia]. rewrite <- Hn in Hm1.
    unfold sizeof_key in *. by specialize (Hok ltac:(lia)). }
  assert (0 < sizeComboCids st)%nat by (rewrite Hn; unfold CCID_ARRAY_SIZE; pose proof (Nat.pow_nonzero 2 n); lia).
  unfold cwp, cput. split; [|split; [intros _; split; [done|simpl; lia]|done]]. split; simpl.
  - done.
  - rewrite length_app, length_replicate. lia.
  - lia.
  - rewrite take_app_le by lia. apply H.
  - apply H.
  - by apply Ha.
  - split; [done|]. exists (S n). rewrite Hn. simpl. lia.
Qed.

Lemma enter_spec l k st h :
  combo_rep st l -> comboHash st = Some h -> h !! k = None -> (length l < sizeComboCids st)%nat ->
  (k ∉ l) /\
  combo_rep {| comboHash := Some (<[k := Z.of_nat (length l)]> h);
               comboCids := <[length l := Some k]> (comboCids st);
               usedComboCids := S (length l); sizeComboCids := sizeComboCids st |} (l ++ [k]).
Proof.
  intros H Eh Hk Hlt. pose proof (rep_hash _ _ H) as Hr. rewrite Eh in Hr. destruct Hr as [Hr Hn].
  assert (Hnew : k ∉ l).
  { intros [i Hi]%list_elem_of_lookup. destruct (Hr k (Z.of_nat i)) as [_ Hr'].
    rewrite Hr' in Hk by eauto. done. }
  split; [done|]. split; simpl.
  - rewrite length_app. simpl. lia.
  - rewrite length_insert. apply H.
  - rewrite length_app. simpl. lia.
  - rewrite length_app, fmap_app. simpl. rewrite Nat.add_comm. simpl.
    rewrite (take_S_r _ _ (Some k)) by (apply list_lookup_insert_eq; rewrite (rep_len _ _ H); done).
    f_equal. rewrite take_insert_ge by lia. apply H.
  - apply list.NoDup_app. split; [apply H|]. split; [|apply NoDup_singleton]. intros x Hx ->%list_elem_of_singleton. done.
  - apply H.
  - split; [|done]. intros k' c. destruct (decide (k = k')) as [<-|Hne].
    + rewrite lookup_insert_eq. split.
      * intros [= <-]. exists (length l). split; [done|]. by rewrite lookup_app_r, Nat.sub_diag by lia.
      * intros (i & -> & Hi). do 2 f_equal. apply lookup_app_Some in Hi as [Hi|[Hge Hi]].
        -- by apply list_elem_of_lookup_2 in Hi.
        -- apply list_lookup_singleton_Some in Hi as [Hi _]. lia.
    + rewrite lookup_insert_ne, Hr by done. split; intros (i & -> & Hi); exists i; (split; [done|]).
      * by apply lookup_app_l_Some.
      * apply lookup_app_Some in Hi as [Hi|[_ Hi]]; [done|].
        by apply list_lookup_singleton_Some in Hi as [_ Hi].
Qed.

(** One call: an error leaves the list alone, success returns an index of the pair. *)
Lemma get_combo_spec mem c1 c2 l st :
  combo_rep st l ->
  cwp (GetComboCommandId mem c1 c2)
    (fun st' r => match r with
                  | inl _ => combo_rep st' l /\ ~ (enough_memory mem /\ table_fits (length l))
                  | inr c => exists i l', c = Z.of_nat i /\ combo_rep st' l' /\
                               l' !! i = Some {| cmin := c1; cmax := c2 |} /\
                               interned {| cmin := c1; cmax := c2 |} l l'
                  end) st.
Proof.
  intros H. unfold GetComboCommandId. set (k := {| cmin := c1; cmax := c2 |}).
  apply cwp_bind. eapply cwp_mono; [by apply create_spec|]. intros st1 [e|[]] (H1 & Hh1 & Ho1).
  { split; [done|]. intros [Hm _]. by specialize (Ho1 Hm). }
  apply cwp_bind. eapply cwp_mono; [apply grow_spec; [done|by apply Hh1]|]. intros st2 [e|[]] (H2 & Hh2 & Ho2).
  { split; [done|]. intros [Hm Hf]. by specialize (Ho2 Hm Hf). }
  destruct Hh2 as [Hh2 Hlt]; [done|]. apply cwp_bind. unfold cwp at 1, cget.
  destruct (comboHash st2) as [h|] eqn:Eh; [|done]. simpl. destruct (h !! k) as [c|] eqn:Ek.
  - pose proof (rep_hash _ _ H2) as Hr. rewrite Eh in Hr. destruct Hr as [Hr _].
    apply Hr in Ek as (i & -> & Hi). exists i, l. by split; [|split; [|split; [|left]]].
  - destruct (hash_enter_ok mem) eqn:Ee; [|split; [done|intros [(_ & _ & ?) _]; congruence]]. unfold cwp, cbind, cput, cret. rewrite (rep_used _ _ H2).
    destruct (enter_spec l k st2 h) as [Hnew Hrep]; [done..|].
    exists (length l), (l ++ [k]). split; [done|]. split; [done|]. split; [|by right].
    by rewrite lookup_app_r, Nat.sub_diag by lia.
Qed.

Lemma combo_at_rep st l i k : combo_rep st l -> l !! i = Some k -> combo_at st (Z.of_nat i) = Some k.
Proof.
  intros H Hi. unfold combo_at. rewrite Nat2Z.id.
  assert (comboCids st !! i = Some (Some k)) as ->; [|done].
  rewrite <- (lookup_take_lt _ (length l)) by (by eapply lookup_lt_Some).
  by rewrite (rep_cells _ _ H), list_lookup_fmap, Hi.
Qed.

(** ** The life of the table *)

(** One call of [GetComboCommandId], failed or not. *)
Inductive combo_call (st : combo_state) : combo_state -> Prop :=
| call mem c1 c2 : combo_call st (fst (GetComboCommandId mem c1 c2 st)).

Lemma call_extends st st' l :
  combo_rep st l -> combo_call st st' -> exists l', combo_rep st' l' /\ l `prefix_of` l'.
Proof.
  intros H [mem c1 c2]. pose proof (get_combo_spec mem c1 c2 l st H) as Hs. unfold cwp in Hs.
  destruct (GetComboCommandId mem c1 c2 st) as [st1 [e|c]]; simpl; [exists l; by destruct Hs|].
  destruct Hs as (i & l' & _ & Hrep & _ & [->|[_ ->]]); eexists; (split; [done|]); [done|by eexists].
Qed.

Lemma calls_extend st st' l :
  combo_rep st l -> rtc combo_call st st' -> exists l', combo_rep st' l' /\ l `prefix_of` l'.
Proof.
  intros H Hr. revert l H. induction Hr as [|x y z Hxy _ IH]; intros l H; [by exists l|].
  destruct (call_extends _ _ _ H Hxy) as (l1 & H1 & P1). destruct (IH l1 H1) as (l2 & H2 & P2).
  exists l2. split; [done|by etrans].
Qed.

Lemma rep_index_bound st l i k : combo_rep st l -> l !! i = Some k -> Z.of_nat i < 2 ^ 27.
Proof.
  intros H Hi. apply lookup_lt_Some in Hi. pose proof (rep_fits _ _ H). pose proof (rep_alloc _ _ H) as Ha.
  unfold sizeof_key, MaxAllocSize in Ha. lia.
Qed.

Lemma get_combo_later st l mem c1 c2 st1 c st2 :
  combo_rep st l -> GetComboCommandId mem c1 c2 st = (st1, inr c) -> rtc combo_call st1 st2 ->
  combo_at st2 c = Some {| cmin := c1; cmax := c2 |}.
Proof.
  intros Hl Hget Hlater. pose proof (get_combo_spec mem c1 c2 l st Hl) as Hs. unfold cwp in Hs. rewrite Hget in Hs.
  destruct Hs as (i & l1 & -> & H1 & Hi & _). destruct (calls_extend _ _ _ H1 Hlater) as (l2 & H2 & Hp).
  apply (combo_at_rep _ _ _ _ H2). by eapply prefix_lookup_Some.
Qed.

(** C33 -- Combo command ids keep their meaning for the whole transaction: an id returned
    for a pair translates back to this pair after any later calls, those that failed in
    the middle included; the same pair gets the same id again; and the ids stay below
    [2^27], so that neither the counter nor the array index overflows. *)
Theorem combo_roundtrip st mem c1 c2 st1 c st2 :
  rtc combo_call AtEOXact_ComboCid st -> GetComboCommandId mem c1 c2 st = (st1, inr c) ->
  rtc combo_call st1 st2 ->
  GetRealCmin st2 c = Some c1 /\ GetRealCmax st2 c = Some c2 /\ 0 <= c < 2 ^ 27 /\
  (forall mem' st3 c', GetComboCommandId mem' c1 c2 st2 = (st3, inr c') -> c' = c).
Proof.
  intros Hst Hget Hlater. destruct (calls_extend _ _ _ rep_empty Hst) as (l & Hl & _).
  pose proof (get_combo_spec mem c1 c2 l st Hl) as Hs. unfold cwp in Hs. rewrite Hget in Hs.
  destruct Hs as (i & l1 & -> & H1 & Hi & _). destruct (calls_extend _ _ _ H1 Hlater) as (l2 & H2 & Hp).
  pose proof (prefix_lookup_Some _ _ _ _ Hi Hp) as Hi2.
  unfold GetRealCmin, GetRealCmax. rewrite (combo_at_rep _ _ _ _ H2 Hi2). do 2 (split; [done|]).
  pose proof (rep_index_bound _ _ _ _ H2 Hi2). split; [lia|].
  intros mem' st3 c' Hget'. pose proof (get_combo_spec mem' c1 c2 l2 st2 H2) as Hs. unfold cwp in Hs.
  rewrite Hget' in Hs. destruct Hs as (j & l3 & -> & H3 & Hj & Hint). f_equal.
  apply (NoDup_lookup l3 j i {| cmin := c1; cmax := c2 |}); [apply H3|done|].
  destruct Hint as [->|[_ ->]]; [done|by apply lookup_app_l_Some].
Qed.

Definition good_memory : memory := {| palloc_ok := fun _ => true; hash_create_ok := true; hash_enter_ok := true |}.

Lemma combo_roundtrip_witness :
  let st1 := fst (GetComboCommandId good_memory 3 8 AtEOXact_ComboCid) in
  let st2 := fst (GetComboCommandId good_memory 4 9 st1) in
  GetRealCmin st2 0 = Some 3 /\ GetRealCmin st2 1 = Some 4.
Proof.
  split; [|reflexivity].
  refine (proj1 (combo_roundtrip AtEOXact_ComboCid good_memory 3 8
    (fst (GetComboCommandId good_memory 3 8 AtEOXact_ComboCid)) 0 _ _ _ _));
    [apply rtc_refl|reflexivity|apply rtc_once, call].
Defined.

(** ** Serialization *)

Definition cid_ok (c : CommandId) : Prop := 0 <= c < 2 ^ 32.
Definition key_ok (k : ComboCidKeyData) : Prop := cid_ok (cmin k) /\ cid_ok (cmax k).

Lemma bytes4_roundtrip x : cid_ok x -> of_bytes4 (bytes4 x) = x.
Proof.
  unfold cid_ok. intros Hx. unfold of_bytes4, bytes4.
  pose proof (Z.div_mod x 256). pose proof (Z.div_mod (x / 256) 256). pose proof (Z.div_mod (x / 65536) 256).
  rewrite (Z.mod_small (x / 16777216)) by (split; [apply Z.div_pos; lia|apply Z.div_lt_upper_bound; lia]).
  assert (x / 65536 = x / 256 / 256) by (rewrite Z.div_div by lia; done).
  assert (x / 16777216 = x / 65536 / 256) by (rewrite Z.div_div by lia; done).
  lia.
Qed.

Definition table_bytes (l : list ComboCidKeyData) : list Z := concat (map key_bytes l).

Lemma table_bytes_drop l i k :
  l !! i = Some k -> exists rest, drop (8 * i) (table_bytes l) = bytes4 (cmin k) ++ bytes4 (cmax k) ++ rest.
Proof.
  revert i. induction l as [|k0 l IH]; intros [|i] Hi; try done.
  - injection Hi as ->. exists (table_bytes l). change (table_bytes (k :: l)) with (key_bytes k ++ table_bytes l).
    unfold key_bytes. by rewrite <- app_assoc.
  - destruct (IH i Hi) as [rest Hr]. exists rest. rewrite <- Hr.
    change (table_bytes (k0 :: l)) with (key_bytes k0 ++ table_bytes l).
    replace (8 * S i)%nat with (length (key_bytes k0) + 8 * i)%nat by (simpl; lia).
    by rewrite drop_app_add.
Qed.

Lemma table_bytes_length l : length (table_bytes l) = (8 * length l)%nat.
Proof.
  induction l as [|k l IH]; [done|]. change (table_bytes (k :: l)) with (key_bytes k ++ table_bytes l).
  rewrite length_app, IH. simpl. lia.
Qed.

Lemma read_key n l i k :
  l !! i = Some k -> key_ok k ->
  read4 (bytes4 n ++ table_bytes l) (4 + 8 * i) = cmin k /\
  read4 (bytes4 n ++ table_bytes l) (4 + 8 * i + 4) = cmax k.
Proof.
  intros Hi [H1 H2]. destruct (table_bytes_drop l i k Hi) as [rest Hr]. unfold read4.
  rewrite <- (drop_drop _ 4 (4 + 8 * i)), <- (drop_drop _ (8 * i) 4).
  change (drop 4 (bytes4 n ++ table_bytes l)) with (table_bytes l). rewrite Hr.
  split; [by apply (bytes4_roundtrip (cmin k))|].
  change (drop 4 (bytes4 (cmin k) ++ bytes4 (cmax k) ++ rest)) with (bytes4 (cmax k) ++ rest).
  by apply (bytes4_roundtrip (cmax k)).
Qed.

Lemma prefix_fits st l n : combo_rep st l -> (n < length l)%nat -> table_fits n.
Proof.
  intros H Hn. pose proof (rep_hash _ _ H) as Hr. destruct (comboHash st); [|subst l; simpl in Hn; lia].
  destruct Hr as [_ [m Hm]]. exists m. rewrite <- Hm. pose proof (rep_fits _ _ H).
  split; [lia|apply H].
Qed.

(** With memory enough, interning a new pair succeeds and gives the next index. *)
Lemma get_combo_new mem k l st :
  combo_rep st l -> enough_memory mem -> table_fits (length l) -> k ∉ l ->
  exists st', GetComboCommandId mem (cmin k) (cmax k) st = (st', inr (Z.of_nat (length l))) /\ combo_rep st' (l ++ [k]).
Proof.
  intros H Hm Hf Hk. pose proof (get_combo_spec mem (cmin k) (cmax k) l st H) as Hs. unfold cwp in Hs.
  destruct (GetComboCommandId _ _ _ st) as [st' [e|c]]; [by destruct Hs as [_ []]|].
  destruct Hs as (i & l' & -> & Hrep & Hi & Hint). destruct k as [c1 c2]. simpl in *.
  destruct Hint as [->|[_ ->]]; [by apply list_elem_of_lookup_2 in Hi|]. exists st'. split; [|done].
  apply lookup_app_Some in Hi as [Hi|[? Hi]]; [by apply list_elem_of_lookup_2 in Hi|].
  apply list_lookup_singleton_Some in Hi as [? _]. do 3 f_equal. lia.
Qed.

Lemma restore_loop_spec mem n l st st0 i :
  combo_rep st0 l -> Forall key_ok l -> enough_memory mem -> combo_rep st (take i l) -> (i <= length l)%nat ->
  exists st', restore_loop mem (bytes4 n ++ table_bytes l) i (length l - i) st = (st', inr tt) /\ combo_rep st' l.
Proof.
  intros H0 Hok Hm. remember (length l - i)%nat as m eqn:Em. revert i st Em.
  induction m as [|m IH]; intros i st Em H Hi; cbn [restore_loop].
  - rewrite take_ge in H by lia. by exists st.
  - destruct (lookup_lt_is_Some_2 l i) as [k Hk]; [lia|].
    destruct (read_key n l i k Hk) as [-> ->]; [by eapply list.Forall_lookup_1|].
    assert (length (take i l) = i) as Hlen by (rewrite length_take; lia).
    destruct (get_combo_new mem k (take i l) st) as (st1 & E1 & H1); [done|done| | |].
    { rewrite Hlen. apply (prefix_fits st0 l); [done|lia]. }
    { intros [j Hj]%list_elem_of_lookup. apply lookup_take_Some in Hj as [Hj ?].
      pose proof (NoDup_lookup l i j k (rep_nodup _ _ H0) Hk Hj). lia. }
    unfold cbind. rewrite E1, Hlen, Z.eqb_refl. apply IH; [lia| |lia]. by rewrite (take_S_r _ _ k).
Qed.

Lemma serialize_bytes st l start :
  combo_rep st l -> 0 <= start -> start + EstimateComboCIDStateSpace st < 2 ^ 64 ->
  SerializeComboCIDState (EstimateComboCIDStateSpace st) start st =
  inr (bytes4 (Z.of_nat (length l)) ++ table_bytes l).
Proof.
  intros H Hs Hmax. unfold SerializeComboCIDState, EstimateComboCIDStateSpace in *.
  rewrite (rep_used _ _ H) in *. unfold sizeof_key in *. rewrite !u64_small by lia.
  destruct (Z.ltb_spec (start + 4 + 8 * Z.of_nat (length l)) start); [lia|]. rewrite Z.gtb_ltb.
  destruct (Z.ltb_spec (start + (4 + 8 * Z.of_nat (length l))) (start + 4 + 8 * Z.of_nat (length l))); [lia|].
  simpl orb. cbv iota. do 2 f_equal. rewrite (rep_cells _ _ H). unfold table_bytes. f_equal.
  change (Some <$> l) with (map Some l). by rewrite map_map.
Qed.

(** A parallel worker gets the same combo command ids: the state written by
    [SerializeComboCIDState] into a buffer of the estimated size fills it exactly, and
    [RestoreComboCIDState] in a fresh backend with memory enough rebuilds from
    these bytes a table in which every id has the same meaning. *)
Theorem combo_serialize_roundtrip st l start mem :
  combo_rep st l -> Forall key_ok l -> 0 <= start -> start + EstimateComboCIDStateSpace st < 2 ^ 64 ->
  enough_memory mem ->
  exists bytes st',
    SerializeComboCIDState (EstimateComboCIDStateSpace st) start st = inr bytes /\
    Z.of_nat (length bytes) = EstimateComboCIDStateSpace st /\
    RestoreComboCIDState mem bytes AtEOXact_ComboCid = (st', inr tt) /\
    usedComboCids st' = usedComboCids st /\
    (forall c, 0 <= c < Z.of_nat (usedComboCids st) -> combo_at st' c = combo_at st c).
Proof.
  intros H Hok Hs Hmax Hm. rewrite (serialize_bytes st l) by done.
  pose proof (rep_fits _ _ H). pose proof (rep_alloc _ _ H) as Ha. unfold sizeof_key, MaxAllocSize in Ha.
  destruct (restore_loop_spec mem (Z.of_nat (length l)) l AtEOXact_ComboCid st 0) as (st' & E & H');
    [done..|by rewrite take_0; apply rep_empty|lia|].
  eexists _, st'. split; [done|]. split.
  { unfold EstimateComboCIDStateSpace, sizeof_key. rewrite (rep_used _ _ H), length_app, table_bytes_length.
    simpl length. lia. }
  split.
  { unfold RestoreComboCIDState, read4.
    change (take 4 (drop 0 (bytes4 (Z.of_nat (length l)) ++ table_bytes l))) with (bytes4 (Z.of_nat (length l))).
    rewrite bytes4_roundtrip by (unfold cid_ok; lia).
    rewrite s32_small by lia. rewrite Nat2Z.id. by rewrite Nat.sub_0_r in E. }
  rewrite (rep_used _ _ H), (rep_used _ _ H'). split; [done|]. intros c Hc.
  destruct (lookup_lt_is_Some_2 l (Z.to_nat c)) as [k Hk]; [lia|]. rewrite <- (Z2Nat.id c) by lia.
  by rewrite (combo_at_rep _ _ _ _ H Hk), (combo_at_rep _ _ _ _ H' Hk).
Qed.

Definition two_combos : combo_state :=
  fst (GetComboCommandId good_memory 4 9 (fst (GetComboCommandId good_memory 3 8 AtEOXact_ComboCid))).

Lemma two_combos_rep : combo_rep two_combos [{| cmin := 3; cmax := 8 |}; {| cmin := 4; cmax := 9 |}].
Proof.
  assert (enough_memory good_memory) by done.
  assert (Hf : forall n, (n < 100)%nat -> table_fits n) by (intros n Hn; exists 0%nat; split; [done|by vm_compute]).
  unfold two_combos.
  destruct (get_combo_new good_memory {| cmin := 3; cmax := 8 |} [] AtEOXact_ComboCid) as (st1 & E1 & H1);
    [apply rep_empty|done|by apply Hf; simpl; lia|apply not_elem_of_nil|].
  simpl in E1. rewrite E1. simpl fst.
  destruct (get_combo_new good_memory {| cmin := 4; cmax := 9 |} [{| cmin := 3; cmax := 8 |}] st1) as (st2 & E2 & H2);
    [done|done|by apply Hf; simpl; lia|by intros ?%list_elem_of_singleton|].
  simpl in E2. by rewrite E2.
Qed.

Lemma combo_serialize_roundtrip_witness :
  exists bytes st',
    SerializeComboCIDState (EstimateComboCIDStateSpace two_combos) 4096 two_combos = inr bytes /\
    Z.of_nat (length bytes) = EstimateComboCIDStateSpace two_combos /\
    RestoreComboCIDState good_memory bytes AtEOXact_ComboCid = (st', inr tt) /\
    usedComboCids st' = usedComboCids two_combos /\
    (forall c, 0 <= c < Z.of_nat (usedComboCids two_combos) -> combo_at st' c = combo_at two_combos c).
Proof.
  apply (combo_serialize_roundtrip two_combos [{| cmin := 3; cmax := 8 |}; {| cmin := 4; cmax := 9 |}] 4096 good_memory);
    [apply two_combos_rep| |lia|vm_compute; reflexivity|done].
  repeat (apply Forall_cons_2; [split; split; vm_compute; congruence|]). apply Forall_nil_2.
Defined.

(** ** Deleting a tuple of one's own *)

(** The command id translation of the visibility checks, by the table [st]. *)
Definition combo_env (base : XactEnv) (st : combo_state) : XactEnv :=
  {| TransactionIdIsCurrentTransactionId := @TransactionIdIsCurrentTransactionId base;
     xact_in_progress := @xact_in_progress base;
     xact_did_commit := @xact_did_commit base;
     xact_commit_lsn := @xact_commit_lsn base;
     xlog_needs_flush := @xlog_needs_flush base;
     BufferIsPermanent := @BufferIsPermanent base;
     buffer_lsn := @buffer_lsn base;
     GetMultiXactIdMembers := @GetMultiXactIdMembers base;
     real_cmin := fun c => default 0 (GetRealCmin st c);
     real_cmax := fun c => default 0 (GetRealCmax st c);
     topmost_xid := @topmost_xid base;
     resolve_cids := @resolve_cids base |}.

Lemma tst_cleared m b : tst (Z.land m (Z.lnot b)) b = false.
Proof. unfold tst. by rewrite <- Z.land_assoc, (Z.land_comm (Z.lnot b)), Z.land_lnot_diag, Z.land_0_r. Qed.

(** C28 -- Deleting a tuple keeps both of its command ids: after [HeapTupleHeaderAdjustCmax]
    and [HeapTupleHeaderSetCmax] the header gives back the deleting command, and
    for a tuple the transaction inserted itself also the inserting command it gave
    before, for the rest of the transaction. *)
Theorem delete_keeps_command_ids base mem st tup c2 st1 cid iscombo st2 :
  rtc combo_call AtEOXact_ComboCid st ->
  HeapTupleHeaderAdjustCmax mem (@TransactionIdIsCurrentTransactionId base)
    (@HeapTupleHeaderGetCmin (combo_env base st)) tup c2 st = (st1, inr (cid, iscombo)) ->
  rtc combo_call st1 st2 ->
  @HeapTupleHeaderGetCmax (combo_env base st2) (HeapTupleHeaderSetCmax cid iscombo tup) = c2 /\
  (HeapTupleHeaderXminCommitted tup = false ->
   @TransactionIdIsCurrentTransactionId base (HeapTupleHeaderGetRawXmin tup) = true ->
   @HeapTupleHeaderGetCmin (combo_env base st2) (HeapTupleHeaderSetCmax cid iscombo tup) =
   @HeapTupleHeaderGetCmin (combo_env base st) tup).
Proof.
  intros Hst. destruct (calls_extend _ _ _ rep_empty Hst) as (l & Hl & _). unfold HeapTupleHeaderAdjustCmax.
  destruct (negb (HeapTupleHeaderXminCommitted tup) && _) eqn:Eown.
  - unfold cbind. destruct (GetComboCommandId mem _ c2 st) as [st' [e|c]] eqn:E; [done|]. intros [= -> -> <-] Hlater.
    pose proof (get_combo_later _ _ _ _ _ _ _ _ Hl E Hlater) as Hat.
    unfold HeapTupleHeaderGetCmax, HeapTupleHeaderGetCmin at 1, HeapTupleHeaderSetCmax. simpl.
    rewrite tst_lor. change (tst HEAP_COMBOCID HEAP_COMBOCID) with true. rewrite orb_true_r.
    unfold GetRealCmin, GetRealCmax. by rewrite Hat.
  - intros [= <- <- <-] _. split.
    + unfold HeapTupleHeaderGetCmax, HeapTupleHeaderSetCmax. simpl. by rewrite tst_cleared.
    + intros H1 H2. by rewrite H1, H2 in Eown.
Qed.

Definition own_tuple : HeapTupleHeaderData :=
  {| t_xmin := 500; t_xmax := 0; t_field3 := 3; t_ctid := t_ctid VisExample.deleted_tuple;
     t_infomask2 := 1; t_infomask := HEAP_XMAX_INVALID; t_hoff := 24; t_bits := [] |}.

Lemma delete_keeps_command_ids_witness :
  let run := HeapTupleHeaderAdjustCmax good_memory VisExample.is_current
               (@HeapTupleHeaderGetCmin (combo_env VisExample.history AtEOXact_ComboCid)) own_tuple 7 AtEOXact_ComboCid in
  let tup := HeapTupleHeaderSetCmax 0 true own_tuple in
  @HeapTupleHeaderGetCmax (combo_env VisExample.history (fst run)) tup = 7 /\
  @HeapTupleHeaderGetCmin (combo_env VisExample.history (fst run)) tup = 3.
Proof.
  destruct (delete_keeps_command_ids VisExample.history good_memory AtEOXact_ComboCid own_tuple 7
    (fst (HeapTupleHeaderAdjustCmax good_memory VisExample.is_current
            (@HeapTupleHeaderGetCmin (combo_env VisExample.history AtEOXact_ComboCid)) own_tuple 7 AtEOXact_ComboCid))
    0 true
    (fst (HeapTupleHeaderAdjustCmax good_memory VisExample.is_current
            (@HeapTupleHeaderGetCmin (combo_env VisExample.history AtEOXact_ComboCid)) own_tuple 7 AtEOXact_ComboCid)))
    as [H1 H2]; [apply rtc_refl|reflexivity|apply rtc_refl|].
  split; [exact H1|exact (H2 eq_refl eq_refl)].
Defined.
