(* ===== verification/Xact.v ===== *)
(** * Transaction control

    [src/postgresql/src/backend/access/transam/xact.c]: the stack of transaction states
    of a backend, the low-level operations that start, commit and abort a
    (sub)transaction, and the state machine of transaction blocks and savepoints
    on top of them; with the part of [tcop/postgres.c] and [tcop/utility.c] that drives
    it, and the block statement of PL/pgSQL that runs its body in a subtransaction.

    The stack is a list whose head is [CurrentTransactionState] and whose last element
    is [TopTransactionStateData].  Shared effects are kept by what later readers see of
    them: which ids are committed, aborted or prepared, the parents recorded in
    [pg_subtrans], and the rows written, each stamped with the id that wrote it.
    Memory contexts, resource owners, callbacks and the other modules that
    are told about the end of a transaction are left out, except that the work before
    the point of no return may fail. *)
From S2P Require Import Prelude TransactionId.
Local Open Scope Z_scope.

Inductive TransState :=
| TRANS_DEFAULT | TRANS_START | TRANS_INPROGRESS | TRANS_COMMIT | TRANS_ABORT | TRANS_PREPARE.

Inductive TBlockState :=
| TBLOCK_DEFAULT | TBLOCK_STARTED
| TBLOCK_BEGIN | TBLOCK_INPROGRESS | TBLOCK_IMPLICIT_INPROGRESS | TBLOCK_PARALLEL_INPROGRESS
| TBLOCK_END | TBLOCK_ABORT | TBLOCK_ABORT_END | TBLOCK_ABORT_PENDING | TBLOCK_PREPARE
| TBLOCK_SUBBEGIN | TBLOCK_SUBINPROGRESS | TBLOCK_SUBRELEASE | TBLOCK_SUBCOMMIT
| TBLOCK_SUBABORT | TBLOCK_SUBABORT_END | TBLOCK_SUBABORT_PENDING
| TBLOCK_SUBRESTART | TBLOCK_SUBABORT_RESTART.

#[export] Instance TransState_eq_dec : EqDecision TransState.
Proof. solve_decision. Defined.
#[export] Instance TBlockState_eq_dec : EqDecision TBlockState.
Proof. solve_decision. Defined.

(** ** State *)

(** [curTransactionOwner] is kept as whether it is set. *)
Record TransactionStateData := TS {
  fullTransactionId : FullTransactionId;
  subTransactionId : Z;
  ts_name : option string;
  savepointLevel : Z;
  ts_state : TransState;
  blockState : TBlockState;
  nestingLevel : Z;
  childXids : list TransactionId;
  prevXactReadOnly : bool;
  curTransactionOwner : bool;
  chain : bool
}.

Definition set_full (x : FullTransactionId) (s : TransactionStateData) : TransactionStateData :=
  TS x (subTransactionId s) (ts_name s) (savepointLevel s) (ts_state s) (blockState s) (nestingLevel s) (childXids s)
     (prevXactReadOnly s) (curTransactionOwner s) (chain s).
Definition set_name (n : option string) (s : TransactionStateData) : TransactionStateData :=
  TS (fullTransactionId s) (subTransactionId s) n (savepointLevel s) (ts_state s) (blockState s) (nestingLevel s)
     (childXids s) (prevXactReadOnly s) (curTransactionOwner s) (chain s).
Definition set_level (l : Z) (s : TransactionStateData) : TransactionStateData :=
  TS (fullTransactionId s) (subTransactionId s) (ts_name s) l (ts_state s) (blockState s) (nestingLevel s)
     (childXids s) (prevXactReadOnly s) (curTransactionOwner s) (chain s).
Definition set_state (st : TransState) (s : TransactionStateData) : TransactionStateData :=
  TS (fullTransactionId s) (subTransactionId s) (ts_name s) (savepointLevel s) st (blockState s) (nestingLevel s)
     (childXids s) (prevXactReadOnly s) (curTransactionOwner s) (chain s).
Definition set_block (b : TBlockState) (s : TransactionStateData) : TransactionStateData :=
  TS (fullTransactionId s) (subTransactionId s) (ts_name s) (savepointLevel s) (ts_state s) b (nestingLevel s)
     (childXids s) (prevXactReadOnly s) (curTransactionOwner s) (chain s).
Definition set_children (c : list TransactionId) (s : TransactionStateData) : TransactionStateData :=
  TS (fullTransactionId s) (subTransactionId s) (ts_name s) (savepointLevel s) (ts_state s) (blockState s)
     (nestingLevel s) c (prevXactReadOnly s) (curTransactionOwner s) (chain s).
Definition set_owner (o : bool) (s : TransactionStateData) : TransactionStateData :=
  TS (fullTransactionId s) (subTransactionId s) (ts_name s) (savepointLevel s) (ts_state s) (blockState s)
     (nestingLevel s) (childXids s) (prevXactReadOnly s) o (chain s).
Definition set_chain (c : bool) (s : TransactionStateData) : TransactionStateData :=
  TS (fullTransactionId s) (subTransactionId s) (ts_name s) (savepointLevel s) (ts_state s) (blockState s)
     (nestingLevel s) (childXids s) (prevXactReadOnly s) (curTransactionOwner s) c.

Definition InvalidSubTransactionId : Z := 0.
Definition TopSubTransactionId : Z := 1.
Definition FirstCommandId : Z := 0.
Definition InvalidCommandId : Z := 0xFFFFFFFF.

(** [SavedTransactionCharacteristics] *)
Record characteristics := { XactIsoLevel : Z; XactReadOnly : bool; XactDeferrable : bool }.

(** Where the ids a backend has used went, and the rows it wrote, oldest first. *)
Record shared := {
  committed : gset TransactionId;
  aborted : gset TransactionId;
  prepared : list (string * list TransactionId);
  subtrans : gmap TransactionId TransactionId;
  rows : list (TransactionId * Z)
}.

(** [id_calls] counts the calls of [GetNewTransactionId]; [precommit_ok] says whether the work
    before the point of no return of the current command succeeds; [parallel_mode]
    is [IsInParallelMode() || IsParallelWorker()]. *)
Record xstate := {
  CurrentTransactionState : TransactionStateData;
  parents : list TransactionStateData;
  XactTopFullTransactionId : FullTransactionId;
  currentSubTransactionId : Z;
  currentCommandId : Z;
  currentCommandIdUsed : bool;
  chars : characteristics;
  default_chars : characteristics;
  prepareGID : option string;
  xact_started : bool;
  id_calls : nat;
  precommit_ok : bool;
  parallel_mode : bool;
  out : shared
}.

Definition set_stack (s : TransactionStateData) (ps : list TransactionStateData) (c : xstate) : xstate :=
  {| CurrentTransactionState := s; parents := ps; XactTopFullTransactionId := XactTopFullTransactionId c;
     currentSubTransactionId := currentSubTransactionId c; currentCommandId := currentCommandId c;
     currentCommandIdUsed := currentCommandIdUsed c; chars := chars c; default_chars := default_chars c;
     prepareGID := prepareGID c; xact_started := xact_started c; id_calls := id_calls c;
     precommit_ok := precommit_ok c; parallel_mode := parallel_mode c; out := out c |}.
Definition set_top_xid (x : FullTransactionId) (c : xstate) : xstate :=
  {| CurrentTransactionState := CurrentTransactionState c; parents := parents c; XactTopFullTransactionId := x;
     currentSubTransactionId := currentSubTransactionId c; currentCommandId := currentCommandId c;
     currentCommandIdUsed := currentCommandIdUsed c; chars := chars c; default_chars := default_chars c;
     prepareGID := prepareGID c; xact_started := xact_started c; id_calls := id_calls c;
     precommit_ok := precommit_ok c; parallel_mode := parallel_mode c; out := out c |}.
Definition set_sub_counter (n : Z) (c : xstate) : xstate :=
  {| CurrentTransactionState := CurrentTransactionState c; parents := parents c;
     XactTopFullTransactionId := XactTopFullTransactionId c; currentSubTransactionId := n;
     currentCommandId := currentCommandId c; currentCommandIdUsed := currentCommandIdUsed c; chars := chars c;
     default_chars := default_chars c; prepareGID := prepareGID c; xact_started := xact_started c;
     id_calls := id_calls c; precommit_ok := precommit_ok c; parallel_mode := parallel_mode c; out := out c |}.
Definition set_command (n : Z) (used : bool) (c : xstate) : xstate :=
  {| CurrentTransactionState := CurrentTransactionState c; parents := parents c;
     XactTopFullTransactionId := XactTopFullTransactionId c; currentSubTransactionId := currentSubTransactionId c;
     currentCommandId := n; currentCommandIdUsed := used; chars := chars c; default_chars := default_chars c;
     prepareGID := prepareGID c; xact_started := xact_started c; id_calls := id_calls c;
     precommit_ok := precommit_ok c; parallel_mode := parallel_mode c; out := out c |}.
Definition set_chars (x : characteristics) (c : xstate) : xstate :=
  {| CurrentTransactionState := CurrentTransactionState c; parents := parents c;
     XactTopFullTransactionId := XactTopFullTransactionId c; currentSubTransactionId := currentSubTransactionId c;
     currentCommandId := currentCommandId c; currentCommandIdUsed := currentCommandIdUsed c; chars := x;
     default_chars := default_chars c; prepareGID := prepareGID c; xact_started := xact_started c;
     id_calls := id_calls c; precommit_ok := precommit_ok c; parallel_mode := parallel_mode c; out := out c |}.
Definition set_gid (g : option string) (c : xstate) : xstate :=
  {| CurrentTransactionState := CurrentTransactionState c; parents := parents c;
     XactTopFullTransactionId := XactTopFullTransactionId c; currentSubTransactionId := currentSubTransactionId c;
     currentCommandId := currentCommandId c; currentCommandIdUsed := currentCommandIdUsed c; chars := chars c;
     default_chars := default_chars c; prepareGID := g; xact_started := xact_started c;
     id_calls := id_calls c; precommit_ok := precommit_ok c; parallel_mode := parallel_mode c; out := out c |}.
Definition set_started (b : bool) (c : xstate) : xstate :=
  {| CurrentTransactionState := CurrentTransactionState c; parents := parents c;
     XactTopFullTransactionId := XactTopFullTransactionId c; currentSubTransactionId := currentSubTransactionId c;
     currentCommandId := currentCommandId c; currentCommandIdUsed := currentCommandIdUsed c; chars := chars c;
     default_chars := default_chars c; prepareGID := prepareGID c; xact_started := b;
     id_calls := id_calls c; precommit_ok := precommit_ok c; parallel_mode := parallel_mode c; out := out c |}.
Definition set_calls (n : nat) (c : xstate) : xstate :=
  {| CurrentTransactionState := CurrentTransactionState c; parents := parents c;
     XactTopFullTransactionId := XactTopFullTransactionId c; currentSubTransactionId := currentSubTransactionId c;
     currentCommandId := currentCommandId c; currentCommandIdUsed := currentCommandIdUsed c; chars := chars c;
     default_chars := default_chars c; prepareGID := prepareGID c; xact_started := xact_started c;
     id_calls := n; precommit_ok := precommit_ok c; parallel_mode := parallel_mode c; out := out c |}.
Definition set_out (o : shared) (c : xstate) : xstate :=
  {| CurrentTransactionState := CurrentTransactionState c; parents := parents c;
     XactTopFullTransactionId := XactTopFullTransactionId c; currentSubTransactionId := currentSubTransactionId c;
     currentCommandId := currentCommandId c; currentCommandIdUsed := currentCommandIdUsed c; chars := chars c;
     default_chars := default_chars c; prepareGID := prepareGID c; xact_started := xact_started c;
     id_calls := id_calls c; precommit_ok := precommit_ok c; parallel_mode := parallel_mode c; out := o |}.
Definition set_precommit (b : bool) (c : xstate) : xstate :=
  {| CurrentTransactionState := CurrentTransactionState c; parents := parents c;
     XactTopFullTransactionId := XactTopFullTransactionId c; currentSubTransactionId := currentSubTransactionId c;
     currentCommandId := currentCommandId c; currentCommandIdUsed := currentCommandIdUsed c; chars := chars c;
     default_chars := default_chars c; prepareGID := prepareGID c; xact_started := xact_started c;
     id_calls := id_calls c; precommit_ok := b; parallel_mode := parallel_mode c; out := out c |}.

(** ** Errors *)

Inductive reason :=
| UnexpectedState
| AlreadyCommitted
| OutOfFuel
| SavepointDoesNotExist
| NoActiveTransaction
| InFailedTransaction
| LimitExceeded
| NoTransactionId
| ParallelOperation
| StatementFailed.

Inductive xerror := ERROR (r : reason) | FATAL (r : reason).

Definition X (A : Type) : Type := xstate -> xstate * (xerror + A).
Definition xret {A} (a : A) : X A := fun c => (c, inr a).
Definition throw {A} (e : xerror) : X A := fun c => (c, inl e).
Definition xbind {A B} (m : X A) (k : A -> X B) : X B := fun c =>
  match m c with
  | (c', inl e) => (c', inl e)
  | (c', inr a) => k a c'
  end.
Definition xget {A} (f : xstate -> A) : X A := fun c => (c, inr (f c)).
Definition xmod (f : xstate -> xstate) : X unit := fun c => (f c, inr tt).

Declare Scope xact_scope.
Delimit Scope xact_scope with xact.
Notation "x <- m ; k" := (xbind m (fun x => k)) (at level 100, m at next level, right associativity) : xact_scope.
Notation "m ;; k" := (xbind m (fun _ => k)) (at level 100, right associativity) : xact_scope.
Open Scope xact_scope.

(** [s->field = v] for [s = CurrentTransactionState]. *)
Definition upd (f : TransactionStateData -> TransactionStateData) : X unit :=
  xmod (fun c => set_stack (f (CurrentTransactionState c)) (parents c) c).

(** ** Transaction ids *)

Section ids.
(** The result of the n-th call of [GetNewTransactionId], [None] when it raises an error. *)
Context (GetNewTransactionId : nat -> option FullTransactionId).

(** The stack after [AssignTransactionId] for its head: first the parents without id, from the
    outermost on; with the number of calls, whether all of them returned, and the
    entries of [pg_subtrans]. *)
Fixpoint assign_ids (l : list TransactionStateData) (calls : nat) (st : gmap TransactionId TransactionId) :
  list TransactionStateData * nat * bool * gmap TransactionId TransactionId :=
  match l with
  | [] => ([], calls, true, st)
  | s :: ps =>
      if FullTransactionIdIsValid (fullTransactionId s) then (l, calls, true, st)
      else
        match assign_ids ps calls st with
        | (ps', calls', true, st') =>
            match GetNewTransactionId calls' with
            | Some x =>
                (set_full x s :: ps', S calls', true,
                 match ps' with
                 | p :: _ => <[XidFromFullTransactionId x := XidFromFullTransactionId (fullTransactionId p)]> st'
                 | [] => st'
                 end)
            | None => (s :: ps', S calls', false, st')
            end
        | (ps', calls', false, st') => (s :: ps', calls', false, st')
        end
  end.

Definition set_subtrans (m : gmap TransactionId TransactionId) (o : shared) : shared :=
  {| committed := committed o; aborted := aborted o; prepared := prepared o; subtrans := m; rows := rows o |}.

(** The top of the stack, [TopTransactionStateData]. *)
Definition top_state (s : TransactionStateData) (ps : list TransactionStateData) : TransactionStateData :=
  List.last ps s.

Definition AssignTransactionId : X unit :=
  par <- xget parallel_mode;
  if par : bool then throw (ERROR ParallelOperation)
  else
    c <- xget id;
    match assign_ids (CurrentTransactionState c :: parents c) (id_calls c) (subtrans (out c)) with
    | (s :: ps, calls, ok, st) =>
        xmod (fun c => set_top_xid (fullTransactionId (top_state s ps))
                         (set_calls calls (set_out (set_subtrans st (out c)) (set_stack s ps c))));;
        if ok : bool then xret tt else throw (ERROR NoTransactionId)
    | ([], _, _, _) => throw (FATAL UnexpectedState)
    end.

Definition GetCurrentTransactionId : X TransactionId :=
  s <- xget CurrentTransactionState;
  (if negb (FullTransactionIdIsValid (fullTransactionId s)) then AssignTransactionId else xret tt);;
  s <- xget CurrentTransactionState;
  xret (XidFromFullTransactionId (fullTransactionId s)).

(** Binary search for [xid] between [low] and [high]; [before] is the order of the array. *)
Fixpoint xid_bsearch (fuel : nat) (before : TransactionId -> TransactionId -> bool) (xids : list TransactionId)
  (xid : TransactionId) (low high : Z) : bool :=
  match fuel with
  | O => false
  | S fuel =>
      if low <=? high then
        let middle := low + (high - low) / 2 in
        match xids !! Z.to_nat middle with
        | None => false
        | Some probe =>
            if probe =? xid then true
            else if before probe xid then xid_bsearch fuel before xids xid (middle + 1) high
            else xid_bsearch fuel before xids xid low (middle - 1)
        end
      else false
  end.

Definition xid_search (before : TransactionId -> TransactionId -> bool) (xids : list TransactionId) (xid : TransactionId) :
  bool := xid_bsearch (S (length xids)) before xids xid 0 (Z.of_nat (length xids) - 1).

(** The loop over the stack. *)
Fixpoint stack_has (xid : TransactionId) (l : list TransactionStateData) : bool :=
  match l with
  | [] => false
  | s :: ps =>
      if decide (ts_state s = TRANS_ABORT) then stack_has xid ps
      else if negb (FullTransactionIdIsValid (fullTransactionId s)) then stack_has xid ps
      else if xid =? XidFromFullTransactionId (fullTransactionId s) then true
      else if xid_search TransactionIdPrecedes (childXids s) xid then true
      else stack_has xid ps
  end.

(** [ParallelCurrentXids] is in numerical order. *)
Definition TransactionIdIsCurrentTransactionId (ParallelCurrentXids : list TransactionId) (c : xstate)
  (xid : TransactionId) : bool :=
  if negb (TransactionIdIsNormal xid) then false
  else if xid =? XidFromFullTransactionId (XactTopFullTransactionId c) then true
  else
    match ParallelCurrentXids with
    | _ :: _ => xid_search Z.ltb ParallelCurrentXids xid
    | [] => stack_has xid (CurrentTransactionState c :: parents c)
    end.

(** ** Commands inside a transaction *)

Definition CommandCounterIncrement : X unit :=
  c <- xget id;
  if currentCommandIdUsed c then
    if parallel_mode c then throw (ERROR ParallelOperation)
    else
      let next := u32 (currentCommandId c + 1) in
      if next =? InvalidCommandId then throw (ERROR LimitExceeded)
      else xmod (set_command next false)
  else xret tt.

(** ** Starting, committing and aborting *)

Definition IsTransactionState (c : xstate) : bool := bool_decide (ts_state (CurrentTransactionState c) = TRANS_INPROGRESS).

(** Outside recovery. *)
Definition StartTransaction : X unit :=
  xmod (fun c =>
    let s := top_state (CurrentTransactionState c) (parents c) in
    set_chars (default_chars c) (set_command FirstCommandId false (set_sub_counter TopSubTransactionId
      (set_stack (TS InvalidFullTransactionId TopSubTransactionId (ts_name s) (savepointLevel s) TRANS_INPROGRESS
                     (blockState s) 1 [] (prevXactReadOnly s) true (chain s)) [] c)))).

(** The fields that commit, prepare and cleanup reset. *)
Definition reset_state (s : TransactionStateData) : TransactionStateData :=
  TS InvalidFullTransactionId InvalidSubTransactionId (ts_name s) (savepointLevel s) TRANS_DEFAULT (blockState s) 0 []
     (prevXactReadOnly s) false (chain s).

Definition mark_committed (xids : list TransactionId) (o : shared) : shared :=
  {| committed := list_to_set xids ∪ committed o; aborted := aborted o; prepared := prepared o; subtrans := subtrans o;
     rows := rows o |}.
Definition mark_aborted (xids : list TransactionId) (o : shared) : shared :=
  {| committed := committed o; aborted := list_to_set xids ∪ aborted o; prepared := prepared o; subtrans := subtrans o;
     rows := rows o |}.
Definition mark_prepared (gid : string) (xids : list TransactionId) (o : shared) : shared :=
  {| committed := committed o; aborted := aborted o; prepared := (gid, xids) :: prepared o; subtrans := subtrans o;
     rows := rows o |}.

(** The transaction and its committed children get their final status by [TransactionIdCommitTree]. *)
Definition RecordTransactionCommit : X unit :=
  c <- xget id;
  let xid := XidFromFullTransactionId (XactTopFullTransactionId c) in
  if TransactionIdIsValid xid
  then xmod (set_out (mark_committed (xid :: childXids (CurrentTransactionState c)) (out c)))
  else xret tt.

Definition CommitTransaction : X unit :=
  ok <- xget precommit_ok;
  if negb ok then throw (ERROR StatementFailed)
  else
    upd (set_state TRANS_COMMIT);;
    RecordTransactionCommit;;
    upd reset_state;;
    xmod (set_top_xid InvalidFullTransactionId).

Definition PrepareTransaction : X unit :=
  xid <- GetCurrentTransactionId;
  ok <- xget precommit_ok;
  if negb ok then throw (ERROR StatementFailed)
  else
    upd (set_state TRANS_PREPARE);;
    c <- xget id;
    xmod (set_out (mark_prepared (default EmptyString (prepareGID c)) (xid :: childXids (CurrentTransactionState c)) (out c)));;
    xmod (set_gid None);;
    upd reset_state;;
    xmod (set_top_xid InvalidFullTransactionId).

(** A subtransaction also leaves the cache of the process array. *)
Definition RecordTransactionAbort : X unit :=
  c <- xget id;
  let s := CurrentTransactionState c in
  let xid := XidFromFullTransactionId (fullTransactionId s) in
  if negb (TransactionIdIsValid xid) then xret tt
  else if bool_decide (xid ∈ committed (out c)) then throw (FATAL AlreadyCommitted)
  else xmod (set_out (mark_aborted (xid :: childXids s) (out c))).

Definition AbortTransaction : X unit :=
  upd (set_state TRANS_ABORT);;
  RecordTransactionAbort.

Definition CleanupTransaction : X unit :=
  s <- xget CurrentTransactionState;
  if negb (bool_decide (ts_state s = TRANS_ABORT)) then throw (FATAL UnexpectedState)
  else
    upd reset_state;;
    xmod (set_top_xid InvalidFullTransactionId).

(** ** Subtransactions *)

Definition PushTransaction : X unit :=
  c <- xget id;
  let p := CurrentTransactionState c in
  let n := u32 (currentSubTransactionId c + 1) in
  if n =? InvalidSubTransactionId then throw (ERROR LimitExceeded)
  else
    xmod (set_sub_counter n);;
    xmod (set_stack (TS InvalidFullTransactionId n None (savepointLevel p) TRANS_DEFAULT TBLOCK_SUBBEGIN
                        (nestingLevel p + 1) [] (XactReadOnly (chars c)) false false)
                    (p :: parents c)).

Definition PopTransaction : X unit :=
  ps <- xget parents;
  match ps with
  | [] => throw (FATAL UnexpectedState)
  | p :: ps => xmod (set_stack p ps)
  end.

Definition StartSubTransaction : X unit :=
  upd (fun s => set_state TRANS_INPROGRESS (set_owner true s)).

Definition MaxAllocSize : Z := 0x3fffffff.

(** The capacity of the array is grown to twice the need, up to the allocation limit. *)
Definition AtSubCommit_childXids : X unit :=
  c <- xget id;
  let s := CurrentTransactionState c in
  match parents c with
  | [] => throw (FATAL UnexpectedState)
  | p :: ps =>
      let new_nChildXids := Z.of_nat (length (childXids p)) + Z.of_nat (length (childXids s)) + 1 in
      if MaxAllocSize / 4 <? new_nChildXids then throw (ERROR LimitExceeded)
      else xmod (set_stack s (set_children (childXids p ++ XidFromFullTransactionId (fullTransactionId s) :: childXids s) p :: ps))
  end.

Definition restore_read_only : X unit :=
  c <- xget id;
  xmod (set_chars {| XactIsoLevel := XactIsoLevel (chars c); XactReadOnly := prevXactReadOnly (CurrentTransactionState c);
                     XactDeferrable := XactDeferrable (chars c) |}).

Definition CommitSubTransaction : X unit :=
  upd (set_state TRANS_COMMIT);;
  CommandCounterIncrement;;
  s <- xget CurrentTransactionState;
  (if FullTransactionIdIsValid (fullTransactionId s) then AtSubCommit_childXids else xret tt);;
  restore_read_only;;
  upd (fun s => set_state TRANS_DEFAULT (set_owner false s));;
  PopTransaction.

Definition AtSubAbort_childXids : X unit := upd (set_children []).

Definition AbortSubTransaction : X unit :=
  upd (set_state TRANS_ABORT);;
  s <- xget CurrentTransactionState;
  (if curTransactionOwner s then
     RecordTransactionAbort;;
     if FullTransactionIdIsValid (fullTransactionId s) then AtSubAbort_childXids else xret tt
   else xret tt);;
  restore_read_only.

Definition CleanupSubTransaction : X unit :=
  upd (fun s => set_state TRANS_DEFAULT (set_owner false s));;
  PopTransaction.
(** ** Transaction blocks *)

Definition block : X TBlockState := xget (fun c => blockState (CurrentTransactionState c)).
Definition unexpected {A} : X A := throw (FATAL UnexpectedState).

Definition StartTransactionCommand : X unit :=
  b <- block;
  match b with
  | TBLOCK_DEFAULT => StartTransaction;; upd (set_block TBLOCK_STARTED)
  | TBLOCK_INPROGRESS | TBLOCK_IMPLICIT_INPROGRESS | TBLOCK_SUBINPROGRESS | TBLOCK_ABORT | TBLOCK_SUBABORT => xret tt
  | _ => throw (ERROR UnexpectedState)
  end.

(** [SAVEPOINT]; the name is [None] when [ROLLBACK TO] re-establishes a savepoint. *)
Definition DefineSavepoint (name : option string) : X unit :=
  par <- xget parallel_mode;
  if par : bool then throw (ERROR ParallelOperation)
  else
    b <- block;
    match b with
    | TBLOCK_INPROGRESS | TBLOCK_SUBINPROGRESS =>
        PushTransaction;;
        match name with Some _ => upd (set_name name) | None => xret tt end
    | TBLOCK_IMPLICIT_INPROGRESS => throw (ERROR NoActiveTransaction)
    | _ => unexpected
    end.

(** Where a block ends: start the next transaction of a chain. *)
Definition end_block (savetc : characteristics) : X unit :=
  upd (set_block TBLOCK_DEFAULT);;
  s <- xget CurrentTransactionState;
  if chain s then
    StartTransaction;;
    upd (fun s => set_chain false (set_block TBLOCK_INPROGRESS s));;
    xmod (set_chars savetc)
  else xret tt.

(** [do CommitSubTransaction(); while (blockState == b);] *)
Fixpoint commit_subs (fuel : nat) (b : TBlockState) : X unit :=
  match fuel with
  | O => throw (FATAL OutOfFuel)
  | S fuel =>
      CommitSubTransaction;;
      b' <- block;
      if decide (b' = b) then commit_subs fuel b else xret tt
  end.

(** What follows the abort of the savepoint that is rolled back to. *)
Definition restart_savepoint (name : option string) (level : Z) : X unit :=
  DefineSavepoint None;;
  upd (fun s => set_level level (set_name name s));;
  StartSubTransaction;;
  upd (set_block TBLOCK_SUBINPROGRESS).

(** True when the caller need not call again. *)
Definition CommitTransactionCommandInternal : X bool :=
  c <- xget id;
  let s := CurrentTransactionState c in
  let savetc := chars c in
  let fuel := S (length (parents c)) in
  match blockState s with
  | TBLOCK_DEFAULT | TBLOCK_PARALLEL_INPROGRESS => unexpected
  | TBLOCK_STARTED => CommitTransaction;; upd (set_block TBLOCK_DEFAULT);; xret true
  | TBLOCK_BEGIN => upd (set_block TBLOCK_INPROGRESS);; xret true
  | TBLOCK_INPROGRESS | TBLOCK_IMPLICIT_INPROGRESS | TBLOCK_SUBINPROGRESS => CommandCounterIncrement;; xret true
  | TBLOCK_END => CommitTransaction;; end_block savetc;; xret true
  | TBLOCK_ABORT | TBLOCK_SUBABORT => xret true
  | TBLOCK_ABORT_END => CleanupTransaction;; end_block savetc;; xret true
  | TBLOCK_ABORT_PENDING => AbortTransaction;; CleanupTransaction;; end_block savetc;; xret true
  | TBLOCK_PREPARE => PrepareTransaction;; upd (set_block TBLOCK_DEFAULT);; xret true
  | TBLOCK_SUBBEGIN => StartSubTransaction;; upd (set_block TBLOCK_SUBINPROGRESS);; xret true
  | TBLOCK_SUBRELEASE => commit_subs fuel TBLOCK_SUBRELEASE;; xret true
  | TBLOCK_SUBCOMMIT =>
      commit_subs fuel TBLOCK_SUBCOMMIT;;
      b <- block;
      match b with
      | TBLOCK_END => CommitTransaction;; end_block savetc;; xret true
      | TBLOCK_PREPARE => PrepareTransaction;; upd (set_block TBLOCK_DEFAULT);; xret true
      | _ => throw (ERROR UnexpectedState)
      end
  | TBLOCK_SUBABORT_END => CleanupSubTransaction;; xret false
  | TBLOCK_SUBABORT_PENDING => AbortSubTransaction;; CleanupSubTransaction;; xret false
  | TBLOCK_SUBRESTART =>
      upd (set_name None);;
      AbortSubTransaction;; CleanupSubTransaction;;
      restart_savepoint (ts_name s) (savepointLevel s);; xret true
  | TBLOCK_SUBABORT_RESTART =>
      upd (set_name None);;
      CleanupSubTransaction;;
      restart_savepoint (ts_name s) (savepointLevel s);; xret true
  end.

(** [while (!f()) ;] *)
Fixpoint until_true (fuel : nat) (f : X bool) : X unit :=
  match fuel with
  | O => throw (FATAL OutOfFuel)
  | S fuel => done <- f; if done : bool then xret tt else until_true fuel f
  end.

Definition CommitTransactionCommand : X unit :=
  ps <- xget parents;
  until_true (S (length ps)) CommitTransactionCommandInternal.

Definition abort_and_cleanup : X unit :=
  AbortTransaction;; CleanupTransaction;; upd (set_block TBLOCK_DEFAULT).

Definition AbortCurrentTransactionInternal : X bool :=
  s <- xget CurrentTransactionState;
  match blockState s with
  | TBLOCK_DEFAULT =>
      if decide (ts_state s = TRANS_DEFAULT) then xret true
      else
        (if decide (ts_state s = TRANS_START) then upd (set_state TRANS_INPROGRESS) else xret tt);;
        AbortTransaction;; CleanupTransaction;; xret true
  | TBLOCK_STARTED | TBLOCK_IMPLICIT_INPROGRESS | TBLOCK_BEGIN | TBLOCK_END | TBLOCK_ABORT_PENDING | TBLOCK_PREPARE =>
      abort_and_cleanup;; xret true
  | TBLOCK_INPROGRESS | TBLOCK_PARALLEL_INPROGRESS => AbortTransaction;; upd (set_block TBLOCK_ABORT);; xret true
  | TBLOCK_ABORT | TBLOCK_SUBABORT => xret true
  | TBLOCK_ABORT_END => CleanupTransaction;; upd (set_block TBLOCK_DEFAULT);; xret true
  | TBLOCK_SUBINPROGRESS => AbortSubTransaction;; upd (set_block TBLOCK_SUBABORT);; xret true
  | TBLOCK_SUBBEGIN | TBLOCK_SUBRELEASE | TBLOCK_SUBCOMMIT | TBLOCK_SUBABORT_PENDING | TBLOCK_SUBRESTART =>
      AbortSubTransaction;; CleanupSubTransaction;; xret false
  | TBLOCK_SUBABORT_END | TBLOCK_SUBABORT_RESTART => CleanupSubTransaction;; xret false
  end.

Definition AbortCurrentTransaction : X unit :=
  ps <- xget parents;
  until_true (S (length ps)) AbortCurrentTransactionInternal.

(** ** The transaction statements *)

Definition IsTransactionBlock (c : xstate) : bool :=
  match blockState (CurrentTransactionState c) with TBLOCK_DEFAULT | TBLOCK_STARTED => false | _ => true end.
Definition IsSubTransaction (c : xstate) : bool := 2 <=? nestingLevel (CurrentTransactionState c).
Definition IsAbortedTransactionBlockState (c : xstate) : bool :=
  match blockState (CurrentTransactionState c) with TBLOCK_ABORT | TBLOCK_SUBABORT => true | _ => false end.

(** [throwError] tells an error from a warning. *)
Definition CheckTransactionBlock (isTopLevel throwError : bool) : X unit :=
  c <- xget id;
  if IsTransactionBlock c then xret tt
  else if IsSubTransaction c then xret tt
  else if negb isTopLevel then xret tt
  else if throwError then throw (ERROR NoActiveTransaction) else xret tt.
Definition RequireTransactionBlock (isTopLevel : bool) : X unit := CheckTransactionBlock isTopLevel true.

Definition BeginTransactionBlock : X unit :=
  b <- block;
  match b with
  | TBLOCK_STARTED | TBLOCK_IMPLICIT_INPROGRESS => upd (set_block TBLOCK_BEGIN)
  | TBLOCK_INPROGRESS | TBLOCK_PARALLEL_INPROGRESS | TBLOCK_SUBINPROGRESS | TBLOCK_ABORT | TBLOCK_SUBABORT => xret tt
  | _ => unexpected
  end.

(** The loop that marks the subtransactions up to the top level, by [sub], and then the top
    level, by [top]; [None] stands for an unexpected state. *)
Fixpoint mark_stack (sub top : TBlockState -> option TBlockState) (l : list TransactionStateData) :
  option (list TransactionStateData) :=
  match l with
  | [] => None
  | [s] => b ← top (blockState s); Some [set_block b s]
  | s :: ps => b ← sub (blockState s); ps' ← mark_stack sub top ps; Some (set_block b s :: ps')
  end.

Definition commit_sub (b : TBlockState) : option TBlockState :=
  match b with TBLOCK_SUBINPROGRESS => Some TBLOCK_SUBCOMMIT | _ => None end.
Definition commit_top (b : TBlockState) : option TBlockState :=
  match b with TBLOCK_INPROGRESS => Some TBLOCK_END | _ => None end.
Definition abort_sub (b : TBlockState) : option TBlockState :=
  match b with
  | TBLOCK_SUBINPROGRESS => Some TBLOCK_SUBABORT_PENDING
  | TBLOCK_SUBABORT => Some TBLOCK_SUBABORT_END
  | _ => None
  end.
Definition abort_top (b : TBlockState) : option TBlockState :=
  match b with
  | TBLOCK_INPROGRESS => Some TBLOCK_ABORT_PENDING
  | TBLOCK_ABORT => Some TBLOCK_ABORT_END
  | _ => None
  end.

(** Mark the whole stack, then set [chain] at the top level, where [s] points to after the loop. *)
Definition set_last (f : TransactionStateData -> TransactionStateData) (l : list TransactionStateData) :
  list TransactionStateData := alter f (length l - 1)%nat l.

Definition mark_whole (sub top : TBlockState -> option TBlockState) (chain : bool) : X unit :=
  c <- xget id;
  match mark_stack sub top (CurrentTransactionState c :: parents c) with
  | Some l =>
      match set_last (set_chain chain) l with
      | s :: ps => xmod (set_stack s ps)
      | [] => unexpected
      end
  | None => unexpected
  end.

(** False when the block was already failed, so that it is rolled back. *)
Definition EndTransactionBlock (chain : bool) : X bool :=
  b <- block;
  match b with
  | TBLOCK_INPROGRESS => upd (fun s => set_chain chain (set_block TBLOCK_END s));; xret true
  | TBLOCK_IMPLICIT_INPROGRESS =>
      if chain then throw (ERROR NoActiveTransaction)
      else upd (fun s => set_chain chain (set_block TBLOCK_END s));; xret true
  | TBLOCK_ABORT => upd (fun s => set_chain chain (set_block TBLOCK_ABORT_END s));; xret false
  | TBLOCK_SUBINPROGRESS => mark_whole commit_sub commit_top chain;; xret true
  | TBLOCK_SUBABORT => mark_whole abort_sub abort_top chain;; xret false
  | TBLOCK_STARTED => if chain then throw (ERROR NoActiveTransaction) else upd (set_chain chain);; xret true
  | _ => unexpected
  end.

Definition UserAbortTransactionBlock (chain : bool) : X unit :=
  b <- block;
  match b with
  | TBLOCK_INPROGRESS => upd (fun s => set_chain chain (set_block TBLOCK_ABORT_PENDING s))
  | TBLOCK_ABORT => upd (fun s => set_chain chain (set_block TBLOCK_ABORT_END s))
  | TBLOCK_SUBINPROGRESS | TBLOCK_SUBABORT => mark_whole abort_sub abort_top chain
  | TBLOCK_STARTED | TBLOCK_IMPLICIT_INPROGRESS =>
      if chain then throw (ERROR NoActiveTransaction)
      else upd (fun s => set_chain chain (set_block TBLOCK_ABORT_PENDING s))
  | _ => unexpected
  end.

(** The result says whether the transaction will be prepared. *)
Definition PrepareTransactionBlock (gid : string) : X bool :=
  result <- EndTransactionBlock false;
  if result : bool then
    c <- xget id;
    let l := CurrentTransactionState c :: parents c in
    if decide (blockState (top_state (CurrentTransactionState c) (parents c)) = TBLOCK_END) then
      xmod (set_gid (Some gid));;
      match set_last (set_block TBLOCK_PREPARE) l with
      | s :: ps => xmod (set_stack s ps);; xret true
      | [] => unexpected
      end
    else xret false
  else xret false.

Definition BeginImplicitTransactionBlock : X unit :=
  b <- block; if decide (b = TBLOCK_STARTED) then upd (set_block TBLOCK_IMPLICIT_INPROGRESS) else xret tt.
Definition EndImplicitTransactionBlock : X unit :=
  b <- block; if decide (b = TBLOCK_IMPLICIT_INPROGRESS) then upd (set_block TBLOCK_STARTED) else xret tt.

(** The depth of the innermost savepoint with the name. *)
Definition find_savepoint (name : string) (l : list TransactionStateData) : option (nat * TransactionStateData) :=
  list_find (fun s => ts_name s = Some name) l.

(** Mark the levels above depth [n] by [above] and the one at [n] by [at_target]. *)
Fixpoint mark_to (above at_target : TBlockState -> option TBlockState) (n : nat) (l : list TransactionStateData) :
  option (list TransactionStateData) :=
  match l, n with
  | [], _ => None
  | s :: ps, O => b ← at_target (blockState s); Some (set_block b s :: ps)
  | s :: ps, S n => b ← above (blockState s); ps' ← mark_to above at_target n ps; Some (set_block b s :: ps')
  end.

Definition mark_savepoint (above at_target : TBlockState -> option TBlockState) (name : string) : X unit :=
  c <- xget id;
  let s := CurrentTransactionState c in
  match find_savepoint name (s :: parents c) with
  | None => throw (ERROR SavepointDoesNotExist)
  | Some (n, target) =>
      if negb (savepointLevel target =? savepointLevel s) then throw (ERROR SavepointDoesNotExist)
      else
        match mark_to above at_target n (s :: parents c) with
        | Some (s :: ps) => xmod (set_stack s ps)
        | _ => unexpected
        end
  end.

(** The states are only asserted where the savepoints are released. *)
Definition release_level (b : TBlockState) : option TBlockState := Some TBLOCK_SUBRELEASE.
Definition restart_level (b : TBlockState) : option TBlockState :=
  match b with
  | TBLOCK_SUBINPROGRESS => Some TBLOCK_SUBRESTART
  | TBLOCK_SUBABORT => Some TBLOCK_SUBABORT_RESTART
  | _ => None
  end.

Definition ReleaseSavepoint (name : string) : X unit :=
  par <- xget parallel_mode;
  if par : bool then throw (ERROR ParallelOperation)
  else
    b <- block;
    match b with
    | TBLOCK_INPROGRESS => throw (ERROR SavepointDoesNotExist)
    | TBLOCK_IMPLICIT_INPROGRESS => throw (ERROR NoActiveTransaction)
    | TBLOCK_SUBINPROGRESS => mark_savepoint release_level release_level name
    | _ => unexpected
    end.

Definition RollbackToSavepoint (name : string) : X unit :=
  par <- xget parallel_mode;
  if par : bool then throw (ERROR ParallelOperation)
  else
    b <- block;
    match b with
    | TBLOCK_INPROGRESS | TBLOCK_ABORT => throw (ERROR SavepointDoesNotExist)
    | TBLOCK_IMPLICIT_INPROGRESS => throw (ERROR NoActiveTransaction)
    | TBLOCK_SUBINPROGRESS | TBLOCK_SUBABORT => mark_savepoint abort_sub restart_level name
    | _ => unexpected
    end.

(** ** Subtransactions inside a statement *)

(** With [ExitOnAnyError] set, an error ends the session. *)
Definition exit_on_error (m : X unit) : X unit := fun c =>
  match m c with
  | (c', inl (ERROR r)) => (c', inl (FATAL r))
  | r => r
  end.

Definition BeginInternalSubTransaction (name : option string) : X unit :=
  exit_on_error (
    b <- block;
    match b with
    | TBLOCK_STARTED | TBLOCK_INPROGRESS | TBLOCK_IMPLICIT_INPROGRESS | TBLOCK_PARALLEL_INPROGRESS
    | TBLOCK_END | TBLOCK_PREPARE | TBLOCK_SUBINPROGRESS =>
        PushTransaction;;
        match name with Some _ => upd (set_name name) | None => xret tt end
    | _ => unexpected
    end;;
    CommitTransactionCommand;;
    StartTransactionCommand).

Definition ReleaseCurrentSubTransaction : X unit :=
  b <- block;
  if decide (b = TBLOCK_SUBINPROGRESS) then CommitSubTransaction else throw (ERROR UnexpectedState).

Definition RollbackAndReleaseCurrentSubTransaction : X unit :=
  b <- block;
  match b with
  | TBLOCK_SUBINPROGRESS => AbortSubTransaction;; CleanupSubTransaction
  | TBLOCK_SUBABORT => CleanupSubTransaction
  | _ => unexpected
  end.

(** [AbortOutOfAnyTransaction], when a session ends. *)
Definition abort_out_step : X bool :=
  s <- xget CurrentTransactionState;
  match blockState s with
  | TBLOCK_DEFAULT =>
      if decide (ts_state s = TRANS_DEFAULT) then xret true
      else
        (if decide (ts_state s = TRANS_START) then upd (set_state TRANS_INPROGRESS) else xret tt);;
        AbortTransaction;; CleanupTransaction;; xret true
  | TBLOCK_STARTED | TBLOCK_BEGIN | TBLOCK_INPROGRESS | TBLOCK_IMPLICIT_INPROGRESS | TBLOCK_PARALLEL_INPROGRESS
  | TBLOCK_END | TBLOCK_ABORT_PENDING | TBLOCK_PREPARE => abort_and_cleanup;; xret true
  | TBLOCK_ABORT | TBLOCK_ABORT_END => CleanupTransaction;; upd (set_block TBLOCK_DEFAULT);; xret true
  | TBLOCK_SUBBEGIN | TBLOCK_SUBINPROGRESS | TBLOCK_SUBRELEASE | TBLOCK_SUBCOMMIT | TBLOCK_SUBABORT_PENDING
  | TBLOCK_SUBRESTART =>
      AbortSubTransaction;; CleanupSubTransaction;;
      b <- block; xret (bool_decide (b = TBLOCK_DEFAULT))
  | TBLOCK_SUBABORT | TBLOCK_SUBABORT_END | TBLOCK_SUBABORT_RESTART =>
      CleanupSubTransaction;; b <- block; xret (bool_decide (b = TBLOCK_DEFAULT))
  end.

Definition AbortOutOfAnyTransaction : X unit :=
  ps <- xget parents;
  until_true (S (length ps)) abort_out_step.

(** What a statement does to the transaction: it writes rows, may fail, and may run blocks in a
    subtransaction, like PL/pgSQL blocks with an EXCEPTION clause; [caught] says whether
    the clause has a handler for the error. *)
Inductive prog :=
| PDone
| PWrite (row : Z) (k : prog)
| PFail
| PBlock (body : prog) (caught : bool) (k : prog).

Definition write_row (row : Z) : X unit :=
  xid <- GetCurrentTransactionId;
  xmod (fun c => set_command (currentCommandId c) true c);;
  xmod (fun c => set_out {| committed := committed (out c); aborted := aborted (out c); prepared := prepared (out c);
                            subtrans := subtrans (out c); rows := rows (out c) ++ [(xid, row)] |} c).

(** [PG_TRY] around [m]; only an [ERROR] is caught. *)
Definition catch_error (m : X unit) (h : reason -> X unit) : X unit := fun c =>
  match m c with
  | (c', inl (ERROR r)) => h r c'
  | r => r
  end.

Fixpoint run_prog (p : prog) : X unit :=
  match p with
  | PDone => xret tt
  | PWrite row k => write_row row;; run_prog k
  | PFail => throw (ERROR StatementFailed)
  | PBlock body caught k =>
      BeginInternalSubTransaction None;;
      catch_error (run_prog body;; ReleaseCurrentSubTransaction)
        (fun r => RollbackAndReleaseCurrentSubTransaction;;
                  if caught then xret tt else throw (ERROR r));;
      run_prog k
  end.

(** ** Query strings *)

Inductive statement :=
| SQuery (p : prog)
| SBegin
| SCommit (chain : bool)
| SRollback (chain : bool)
| SPrepare (gid : string)
| SSavepoint (name : string)
| SRelease (name : string)
| SRollbackTo (name : string).

Definition IsTransactionStmt (st : statement) : bool := match st with SQuery _ => false | _ => true end.
Definition IsTransactionExitStmt (st : statement) : bool :=
  match st with SCommit _ | SPrepare _ | SRollback _ | SRollbackTo _ => true | _ => false end.

(** The transaction statements of [standard_ProcessUtility], at top level. *)
Definition exec_statement (st : statement) : X unit :=
  match st with
  | SQuery p => run_prog p
  | SBegin => BeginTransactionBlock
  | SCommit chain => EndTransactionBlock chain;; xret tt
  | SRollback chain => UserAbortTransactionBlock chain
  | SPrepare gid => PrepareTransactionBlock gid;; xret tt
  | SSavepoint name => RequireTransactionBlock true;; DefineSavepoint (Some name)
  | SRelease name => RequireTransactionBlock true;; ReleaseSavepoint name
  | SRollbackTo name => RequireTransactionBlock true;; RollbackToSavepoint name
  end.

Definition start_xact_command : X unit :=
  b <- xget xact_started;
  if b : bool then xret tt else StartTransactionCommand;; xmod (set_started true).
Definition finish_xact_command : X unit :=
  b <- xget xact_started;
  if b : bool then CommitTransactionCommand;; xmod (set_started false) else xret tt.

(** The loop of [exec_simple_query] over the statements of a string. *)
Fixpoint exec_statements (use_implicit_block : bool) (l : list statement) : X unit :=
  match l with
  | [] => xret tt
  | st :: rest =>
      c <- xget id;
      if IsAbortedTransactionBlockState c && negb (IsTransactionExitStmt st) then throw (ERROR InFailedTransaction)
      else
        start_xact_command;;
        (if use_implicit_block then BeginImplicitTransactionBlock else xret tt);;
        exec_statement st;;
        match rest with
        | [] => (if use_implicit_block then EndImplicitTransactionBlock else xret tt);; finish_xact_command
        | _ => if IsTransactionStmt st then finish_xact_command else CommandCounterIncrement
        end;;
        exec_statements use_implicit_block rest
  end.

Definition exec_simple_query (l : list statement) : X unit :=
  start_xact_command;;
  exec_statements (1 <? length l)%nat l;;
  finish_xact_command.

Inductive query_result := Completed | Failed (r : reason) | Terminated (r : reason).

(** One round of [PostgresMain]: an error aborts the current transaction, a fatal one
    ends the session; [ok] says whether pre-commit work would succeed. *)
Definition PostgresMain_query (ok : bool) (l : list statement) (c : xstate) : xstate * query_result :=
  match exec_simple_query l (set_precommit ok c) with
  | (c', inr _) => (c', Completed)
  | (c', inl (ERROR r)) =>
      match (AbortCurrentTransaction;; xmod (set_started false)) c' with
      | (c'', inr _) => (c'', Failed r)
      | (c'', inl (ERROR r')) | (c'', inl (FATAL r')) => (c'', Terminated r')
      end
  | (c', inl (FATAL r)) =>
      match AbortOutOfAnyTransaction c' with
      | (c'', inr _) => (c'', Terminated r)
      | (c'', inl (ERROR r')) | (c'', inl (FATAL r')) => (c'', Terminated r')
      end
  end.

(** The rounds of a session, until one ends it. *)
Fixpoint PostgresMain (rounds : list (bool * list statement)) (c : xstate) : xstate * list query_result :=
  match rounds with
  | [] => (c, [])
  | (ok, l) :: rounds =>
      match PostgresMain_query ok l c with
      | (c', Terminated r) => (c', [Terminated r])
      | (c', res) => let '(c'', rs) := PostgresMain rounds c' in (c'', res :: rs)
      end
  end.
End ids.
