(* ===== verification/XactInv.v ===== *)
(** * The transaction stack and its ids

    What holds of the stack of [Xact] between any two operations: the ids of its levels
    are nested and in the order they were handed out, and none of them is committed, aborted or prepared yet.  For every low-level
    operation, what it does to the stack, to the ids and to the rows, errors included. *)
From stdpp Require Import sorting.
From S2P Require Import Prelude TransactionId Snapshot Xact.
Local Open Scope Z_scope.

(** ** Reading the state *)

Definition stack (c : xstate) : list TransactionStateData := CurrentTransactionState c :: parents c.

(** The ids whose work a level holds; none once it is aborted. *)
Definition ids_of (s : TransactionStateData) : list TransactionId :=
  if decide (ts_state s = TRANS_ABORT) then []
  else if FullTransactionIdIsValid (fullTransactionId s)
  then XidFromFullTransactionId (fullTransactionId s) :: childXids s else [].

(** The ids of a stack, outermost first. *)
Fixpoint stack_ids (l : list TransactionStateData) : list TransactionId :=
  match l with
  | [] => []
  | s :: ps => stack_ids ps ++ ids_of s
  end.

Definition writes (ids : list TransactionId) (o : shared) : list Z :=
  snd <$> filter (fun e => e.1 ∈ ids) (rows o).

Fixpoint saves_of (l : list TransactionStateData) (o : shared) : list (string * list Z) :=
  match l with
  | s :: ps =>
      match ps with
      | [] => []
      | _ => (default EmptyString (ts_name s), writes (stack_ids ps) o) :: saves_of ps o
      end
  | [] => []
  end.

(** ** Invariants *)

(** What the backend relies on when it asks for ids: they are normal and increasing, and the history is
    shorter than half of the id space; [Varsup] guarantees this for the ids that may still be compared. *)
Class IdSupply := {
  new_id : nat -> option FullTransactionId;
  lo : Z;
  sup_window : forall k x, new_id k = Some x -> in_window lo (value x);
  sup_order : forall j k x y, (j < k)%nat -> new_id j = Some x -> new_id k = Some y -> value x < value y
}.

Section session.
Context {ids : IdSupply}.

Definition handed (k : nat) (v : Z) : Prop := exists j x, (j < k)%nat /\ new_id j = Some x /\ value x = v.
Definition used (k : nat) (x : TransactionId) : Prop := exists v, handed k v /\ x = u32 v.

(** A level without id has no children, and levels above it have no id either. *)
Fixpoint ids_nested (l : list TransactionStateData) : Prop :=
  match l with
  | [] => True
  | s :: ps =>
      (FullTransactionIdIsValid (fullTransactionId s) = false -> childXids s = []) /\
      (FullTransactionIdIsValid (fullTransactionId s) = true ->
       Forall (fun p => FullTransactionIdIsValid (fullTransactionId p) = true) ps) /\
      ids_nested ps
  end.

(** The ids of the stack in the order they were handed out. *)
Definition ids_ordered (k : nat) (xids : list TransactionId) : Prop :=
  exists vs, xids = map u32 vs /\ StronglySorted Z.lt vs /\ Forall (handed k) vs.

Record ids_ok (l : list TransactionStateData) (top : FullTransactionId) (k : nat) (o : shared) : Prop := {
  io_nested : ids_nested l;
  io_order : ids_ordered k (stack_ids l);
  io_top : match last l with Some s => fullTransactionId s = top | None => True end;
  io_level : forall s, s ∈ l -> savepointLevel s = 0;
  io_rows : forall e, e ∈ rows o -> used k e.1;
  io_committed : forall x, x ∈ committed o -> used k x /\ (x ∉ stack_ids l) /\ (x ∉ aborted o);
  io_aborted : forall x, x ∈ aborted o -> used k x /\ (x ∉ stack_ids l);
  io_prepared : forall p x, p ∈ prepared o -> x ∈ p.2 -> used k x /\ (x ∉ stack_ids l) /\ (x ∉ committed o)
}.

(** The fields the stack operations leave alone. *)
Record frame (c c' : xstate) : Prop := {
  fr_top : XactTopFullTransactionId c' = XactTopFullTransactionId c;
  fr_calls : id_calls c' = id_calls c;
  fr_ok : precommit_ok c' = precommit_ok c;
  fr_par : parallel_mode c' = parallel_mode c;
  fr_started : xact_started c' = xact_started c;
  fr_gid : prepareGID c' = prepareGID c
}.

(** ** Ids *)

Lemma used_mono j k x : (j <= k)%nat -> used j x -> used k x.
Proof. intros Hjk (v & (i & y & Hi & H) & ->). exists v. split; [|done]. exists i, y. split; [lia|done]. Qed.

Lemma handed_window k v : handed k v -> in_window lo v.
Proof. intros (j & x & _ & Hx & <-). by eapply sup_window. Qed.

Lemma handed_before k v x : handed k v -> new_id k = Some x -> v < value x.
Proof. intros (j & y & Hj & Hy & <-) Hx. by eapply sup_order. Qed.

Lemma new_id_valid k x : new_id k = Some x -> FullTransactionIdIsValid x = true.
Proof.
  intros Hx. destruct (sup_window k x Hx) as [_ H]. unfold FullTransactionIdIsValid, TransactionIdIsValid,
    XidFromFullTransactionId, InvalidTransactionId, FirstNormalTransactionId in *. apply negb_true_iff, Z.eqb_neq. lia.
Qed.

Lemma new_id_fresh k x : new_id k = Some x -> ~ used k (XidFromFullTransactionId x).
Proof.
  intros Hx (v & Hv & E). pose proof (handed_before k v x Hv Hx).
  apply (u32_window_inj lo) in E; [lia|by eapply sup_window|by eapply handed_window].
Qed.

Lemma new_id_used k x : new_id k = Some x -> used (S k) (XidFromFullTransactionId x).
Proof. intros Hx. exists (value x). split; [|done]. exists k, x. split; [lia|done]. Qed.

Lemma ordered_used k xs x : ids_ordered k xs -> x ∈ xs -> used k x.
Proof.
  intros (vs & -> & _ & Hh) (v & -> & Hv)%list_elem_of_fmap. exists v. split; [|done].
  rewrite list.Forall_forall in Hh. auto.
Qed.

(** ** What an operation may do to the ids *)

(** Two levels that differ at most in their states and in [chain]. *)
Record same_core (s s' : TransactionStateData) : Prop := {
  sc_full : fullTransactionId s' = fullTransactionId s;
  sc_children : childXids s' = childXids s;
  sc_abort : ts_state s' = TRANS_ABORT <-> ts_state s = TRANS_ABORT;
  sc_level : savepointLevel s' = savepointLevel s;
  sc_name : ts_name s' = ts_name s
}.

Lemma same_core_ids s s' : same_core s s' -> ids_of s' = ids_of s.
Proof.
  intros [E1 E2 E3 _ _]. unfold ids_of. rewrite E1, E2.
  destruct (decide (ts_state s' = TRANS_ABORT)), (decide (ts_state s = TRANS_ABORT)); tauto.
Qed.

Lemma same_core_stack l l' : Forall2 same_core l l' -> stack_ids l' = stack_ids l.
Proof. induction 1 as [|s s' l l' Hs _ IH]; [done|]. simpl. by rewrite IH, (same_core_ids s s' Hs). Qed.

Lemma same_core_saves o l l' : Forall2 same_core l l' -> saves_of l' o = saves_of l o.
Proof.
  induction 1 as [|s s' l l' Hs Hl IH]; [done|]. pose proof (same_core_stack _ _ Hl) as E. cbn [saves_of].
  destruct Hl; [done|]. by rewrite E, IH, (sc_name _ _ Hs).
Qed.

Lemma ids_nested_same l l' : Forall2 same_core l l' -> ids_nested l -> ids_nested l'.
Proof.
  induction 1 as [|s s' l l' Hs Hl IH]; [done|]. intros (H1 & H2 & H3). cbn [ids_nested].
  rewrite (sc_full _ _ Hs), (sc_children _ _ Hs). split; [done|]. split; [|by apply IH].
  intros Hv. specialize (H2 Hv). clear -H2 Hl. induction Hl as [|p p' l l' Hp _ IH]; [constructor|].
  apply Forall_cons in H2 as [Hp' H2]. constructor; [by rewrite (sc_full _ _ Hp)|by apply IH].
Qed.

Lemma last_same l l' :
  Forall2 same_core l l' ->
  match last l, last l' with Some s, Some s' => same_core s s' | None, None => True | _, _ => False end.
Proof.
  induction 1 as [|s s' l l' Hs Hl IH]; [done|]. destruct Hl; [done|]. exact IH.
Qed.

Lemma ids_ok_same l l' top k o : Forall2 same_core l l' -> ids_ok l top k o -> ids_ok l' top k o.
Proof.
  intros Hl [H1 H2 H3 H4 H5 H6 H7 H8]. split; rewrite ?(same_core_stack _ _ Hl); try done.
  - by eapply ids_nested_same.
  - pose proof (last_same _ _ Hl) as Hlast. destruct (last l), (last l'); try done. by rewrite (sc_full _ _ Hlast).
  - intros s' (i & Hi)%list_elem_of_lookup. destruct (Forall2_lookup_r _ _ _ _ _ Hl Hi) as (s & Hs & Hsc).
    rewrite (sc_level _ _ Hsc). apply H4. by eapply list_elem_of_lookup_2.
Qed.

Lemma ordered_app_l k xs ys : ids_ordered k (xs ++ ys) -> ids_ordered k xs /\ (forall x, x ∈ xs -> x ∈ ys -> False).
Proof.
  intros (vs & E & Hs & Hh). symmetry in E. apply fmap_app_inv in E as (v1 & v2 & -> & -> & ->).
  apply StronglySorted_app in Hs as (H12 & H1 & H2). apply list.Forall_app in Hh as [Hh1 Hh2]. split.
  - by exists v1.
  - intros x (a & -> & Ha)%list_elem_of_fmap (b & Eb & Hb)%list_elem_of_fmap.
    rewrite list.Forall_forall in Hh1, Hh2. specialize (H12 a b Ha Hb).
    apply (u32_window_inj lo) in Eb; [lia|eapply handed_window; eauto..].
Qed.

Lemma ids_ok_rename n s ps top k o : ids_ok (s :: ps) top k o -> ids_ok (set_name n s :: ps) top k o.
Proof.
  intros [H1 H2 H3 H4 H5 H6 H7 H8]. split; try done; [by destruct ps|].
  intros s0 [-> | Hs0]%elem_of_cons; [apply (H4 s); by left|apply H4; by right].
Qed.

(** The work of the top level is undone and its ids are aborted. *)
Lemma ids_ok_abort s s' ps top k o :
  ts_state s' = TRANS_ABORT -> fullTransactionId s' = fullTransactionId s -> savepointLevel s' = savepointLevel s ->
  (childXids s' = [] \/ childXids s' = childXids s) ->
  ids_ok (s :: ps) top k o -> ids_ok (s' :: ps) top k (mark_aborted (ids_of s) o).
Proof.
  intros Hab Hfull Hlev Hch [H1 H2 H3 H4 H5 H6 H7 H8].
  assert (Hids : ids_of s' = []) by (unfold ids_of; by rewrite decide_True).
  cbn [stack_ids] in *. destruct (ordered_app_l _ _ _ H2) as [H2' Hdis].
  assert (Hin : forall x, x ∈ ids_of s -> used k x /\ (x ∉ stack_ids ps)).
  { intros x Hx. split; [|eauto]. apply (ordered_used k _ x H2). set_solver. }
  split; cbn [stack_ids ids_nested rows committed aborted prepared mark_aborted]; rewrite ?Hids, ?app_nil_r; try done.
  - destruct H1 as (Ha & Hb & Hc). rewrite Hfull. split; [|done]. intros Hv. specialize (Ha Hv). by destruct Hch as [-> | ->].
  - by destruct ps; cbn [last] in *; rewrite ?Hfull.
  - intros s0 [-> | Hs0]%elem_of_cons; [rewrite Hlev; apply H4; by left|apply H4; by right].
  - intros x Hx. destruct (H6 x Hx) as (? & ? & ?). set_solver.
  - intros x Hx. apply elem_of_union in Hx as [Hx%elem_of_list_to_set|Hx]; [auto|]. destruct (H7 x Hx). set_solver.
  - intros p x Hp Hx. destruct (H8 p x Hp Hx). set_solver.
Qed.

Lemma ids_ok_pop s p ps top k o : ids_of s = [] -> ids_ok (s :: p :: ps) top k o -> ids_ok (p :: ps) top k o.
Proof.
  intros Hids [H1 H2 H3 H4 H5 H6 H7 H8]. cbn [stack_ids] in *. rewrite Hids, app_nil_r in *.
  split; try done; [by apply H1|]. intros s0 Hs0. apply H4. by right.
Qed.

Lemma ids_ok_push s p ps top k o :
  FullTransactionIdIsValid (fullTransactionId s) = false -> childXids s = [] -> savepointLevel s = 0 ->
  ids_ok (p :: ps) top k o -> ids_ok (s :: p :: ps) top k o.
Proof.
  intros Hv Hc Hl [H1 H2 H3 H4 H5 H6 H7 H8].
  assert (Hids : ids_of s = []) by (unfold ids_of; rewrite Hv; by destruct (decide _)).
  split; cbn [stack_ids ids_nested] in *; rewrite ?Hids, ?app_nil_r; try done.
  - rewrite Hv, Hc. done.
  - intros s0 [-> | Hs0]%elem_of_cons; auto.
Qed.

(** A committed subtransaction leaves its ids to its parent. *)
Definition merge (s p : TransactionStateData) : TransactionStateData :=
  if FullTransactionIdIsValid (fullTransactionId s)
  then set_children (childXids p ++ XidFromFullTransactionId (fullTransactionId s) :: childXids s) p else p.

Lemma merge_ids s p ps :
  ts_state s <> TRANS_ABORT -> ts_state p <> TRANS_ABORT -> ids_nested (s :: p :: ps) ->
  stack_ids (merge s p :: ps) = stack_ids (s :: p :: ps).
Proof.
  intros Hs Hp (H1 & H2 & H3). unfold merge. cbn [stack_ids]. rewrite <- app_assoc. f_equal. unfold ids_of.
  rewrite (decide_False (P := ts_state s = _)) by done. destruct (FullTransactionIdIsValid (fullTransactionId s)) eqn:Hv.
  - rewrite !decide_False by done. specialize (H2 eq_refl). apply Forall_cons in H2 as [E _]. by cbn; rewrite E.
  - by rewrite app_nil_r.
Qed.

Lemma ids_ok_merge s p ps top k o :
  ts_state s <> TRANS_ABORT -> ts_state p <> TRANS_ABORT ->
  ids_ok (s :: p :: ps) top k o -> ids_ok (merge s p :: ps) top k o.
Proof.
  intros Hs Hp [H1 H2 H3 H4 H5 H6 H7 H8]. rewrite <- (merge_ids s p ps) in H2, H6, H7, H8 by done.
  assert (Hm : fullTransactionId (merge s p) = fullTransactionId p /\ savepointLevel (merge s p) = savepointLevel p)
    by (unfold merge; by destruct (FullTransactionIdIsValid _)).
  destruct Hm as [Hm1 Hm2]. split; try done.
  - destruct H1 as (Ha & Hb & Hc & Hd). cbn [ids_nested]. rewrite Hm1. split; [|done]. intros Hv. unfold merge.
    destruct (FullTransactionIdIsValid (fullTransactionId s)) eqn:E; [|auto].
    specialize (Hb eq_refl). apply Forall_cons in Hb as [Hb _]. congruence.
  - destruct ps; cbn [last] in *; by rewrite ?Hm1.
  - intros s0 [-> | Hs0]%elem_of_cons; [rewrite Hm2|]; apply H4; set_solver.
Qed.

(** A transaction that ended. *)
Lemma ids_ok_commit s s' top k o :
  fullTransactionId s' = InvalidFullTransactionId -> childXids s' = [] -> savepointLevel s' = savepointLevel s ->
  ids_ok [s] top k o -> ids_ok [s'] InvalidFullTransactionId k (mark_committed (ids_of s) o).
Proof.
  intros Hf Hc Hl [H1 H2 H3 H4 H5 H6 H7 H8].
  assert (Hids : ids_of s' = []) by (unfold ids_of; rewrite Hf; by destruct (decide _)).
  split; cbn [stack_ids ids_nested last rows committed aborted prepared mark_committed] in *; rewrite ?Hids, ?Hf, ?Hc; try done.
  - exists []. repeat split; constructor.
  - intros s0 ->%list_elem_of_singleton. rewrite Hl. apply H4. set_solver.
  - intros x Hx. apply elem_of_union in Hx as [Hx%elem_of_list_to_set|Hx].
    + split; [by eapply ordered_used; [exact H2|]|]. split; [set_solver|]. intros Ha. destruct (H7 x Ha). set_solver.
    + destruct (H6 x Hx) as (? & ? & ?). set_solver.
  - intros x Hx. destruct (H7 x Hx). set_solver.
  - intros p x Hp Hx. destruct (H8 p x Hp Hx) as (? & ? & ?). set_solver.
Qed.

Lemma ids_ok_prepare s s' g top k o :
  fullTransactionId s' = InvalidFullTransactionId -> childXids s' = [] -> savepointLevel s' = savepointLevel s ->
  ids_ok [s] top k o -> ids_ok [s'] InvalidFullTransactionId k (mark_prepared g (ids_of s) o).
Proof.
  intros Hf Hc Hl [H1 H2 H3 H4 H5 H6 H7 H8].
  assert (Hids : ids_of s' = []) by (unfold ids_of; rewrite Hf; by destruct (decide _)).
  split; cbn [stack_ids ids_nested last rows committed aborted prepared mark_prepared] in *; rewrite ?Hids, ?Hf, ?Hc; try done.
  - exists []. repeat split; constructor.
  - intros s0 ->%list_elem_of_singleton. rewrite Hl. apply H4. set_solver.
  - intros x Hx. destruct (H6 x Hx) as (? & ? & ?). set_solver.
  - intros x Hx. destruct (H7 x Hx). set_solver.
  - intros p x [-> | Hp]%elem_of_cons Hx.
    + split; [by eapply ordered_used; [exact H2|]|]. split; [set_solver|]. intros Ha. destruct (H6 x Ha). set_solver.
    + destruct (H8 p x Hp Hx) as (? & ? & ?). set_solver.
Qed.

(** The end of an aborted transaction. *)
Lemma ids_ok_reset s s' top k o :
  ids_of s = [] -> fullTransactionId s' = InvalidFullTransactionId -> childXids s' = [] -> savepointLevel s' = savepointLevel s ->
  ids_ok [s] top k o -> ids_ok [s'] InvalidFullTransactionId k o.
Proof.
  intros Hs Hf Hc Hl [H1 H2 H3 H4 H5 H6 H7 H8].
  assert (Hids : ids_of s' = []) by (unfold ids_of; rewrite Hf; by destruct (decide _)).
  split; cbn [stack_ids ids_nested last] in *; rewrite ?Hids, ?Hf, ?Hc, ?Hs in *; try done.
  intros s0 ->%list_elem_of_singleton. rewrite Hl. apply H4. set_solver.
Qed.

(** ** Running operations *)

(** The outcome of [m] from [c] satisfies [Q]. *)
Definition xwp {A} (m : X A) (c : xstate) (Q : xstate -> xerror + A -> Prop) : Prop := Q (m c).1 (m c).2.

Lemma xwp_bind {A B} (m : X A) (k : A -> X B) c Q :
  xwp m c (fun c' r => match r with inl e => Q c' (inl e) | inr a => xwp (k a) c' Q end) -> xwp (xbind m k) c Q.
Proof. unfold xwp, xbind. destruct (m c) as [c' [e|a]]; done. Qed.

Lemma xwp_get {A B} (f : xstate -> A) (k : A -> X B) c Q : xwp (k (f c)) c Q -> xwp (xbind (xget f) k) c Q.
Proof. done. Qed.

Lemma xwp_mono {A} (m : X A) c (Q Q' : xstate -> xerror + A -> Prop) :
  xwp m c Q -> (forall c' r, Q c' r -> Q' c' r) -> xwp m c Q'.
Proof. unfold xwp. auto. Qed.

(** The work that shows is the same. *)
Record quiet (o o' : shared) : Prop := {
  q_committed : committed o' = committed o;
  q_prepared : prepared o' = prepared o;
  q_rows : rows o' = rows o
}.

Record good (c : xstate) : Prop := {
  g_ids : ids_ok (stack c) (XactTopFullTransactionId c) (id_calls c) (out c);
  g_par : parallel_mode c = false
}.

Lemma quiet_refl o : quiet o o.
Proof. done. Qed.
Lemma quiet_trans o1 o2 o3 : quiet o1 o2 -> quiet o2 o3 -> quiet o1 o3.
Proof. intros [] []. split; congruence. Qed.
Lemma frame_refl c : frame c c.
Proof. done. Qed.
Lemma frame_trans c1 c2 c3 : frame c1 c2 -> frame c2 c3 -> frame c1 c3.
Proof. intros [] []. split; congruence. Qed.

Lemma good_frame c c' :
  frame c c' -> ids_ok (stack c') (XactTopFullTransactionId c) (id_calls c) (out c') -> good c -> good c'.
Proof. intros [F1 F2 _ F4 _ _] H [_ Hp]. split; [by rewrite F1, F2|congruence]. Qed.

Lemma upd_wp f c (Q : xstate -> xerror + unit -> Prop) :
  Q (set_stack (f (CurrentTransactionState c)) (parents c) c) (inr tt) -> xwp (upd f) c Q.
Proof. done. Qed.

Lemma cci_wp c :
  parallel_mode c = false ->
  xwp CommandCounterIncrement c (fun c' r => (r = inr tt \/ r = inl (ERROR LimitExceeded)) /\
    stack c' = stack c /\ out c' = out c /\ frame c c').
Proof.
  intros Hp. unfold xwp, CommandCounterIncrement, xbind, xget, throw. cbn. rewrite Hp.
  destruct (currentCommandIdUsed c); [destruct (_ =? _)|]; cbn; (split; [tauto|done]).
Qed.

(** A new level on the stack. *)
Record fresh_level (b : TBlockState) (s : TransactionStateData) : Prop := {
  fl_full : fullTransactionId s = InvalidFullTransactionId;
  fl_children : childXids s = [];
  fl_level : savepointLevel s = 0;
  fl_block : blockState s = b;
  fl_state : ts_state s = TRANS_DEFAULT
}.

Lemma push_wp c :
  good c ->
  xwp PushTransaction c (fun c' r => out c' = out c /\ frame c c' /\ good c' /\
    match r with
    | inr _ => exists s, stack c' = s :: stack c /\ fresh_level TBLOCK_SUBBEGIN s
    | inl e => e = ERROR LimitExceeded /\ stack c' = stack c
    end).
Proof.
  intros Hg. unfold xwp, PushTransaction, xbind, xget, xmod, throw. cbn. destruct (_ =? _); cbn; [done|].
  assert (Hl : savepointLevel (CurrentTransactionState c) = 0) by (apply (io_level _ _ _ _ (g_ids _ Hg)); by left).
  split; [done|]. split; [done|]. split.
  - apply (good_frame c); [done| |done]. cbn. apply ids_ok_push; try done. apply Hg.
  - eexists. split; [done|]. by split.
Qed.

Lemma quiet_aborted xs o : quiet o (mark_aborted xs o).
Proof. done. Qed.

Lemma mark_aborted_nil o : mark_aborted [] o = o.
Proof. destruct o. unfold mark_aborted. cbn. f_equal. apply union_empty_l_L. Qed.

(** A level that can still be aborted: its ids are not committed. *)
Lemma own_id_not_committed s ps top k o :
  ids_ok (s :: ps) top k o -> ts_state s <> TRANS_ABORT -> FullTransactionIdIsValid (fullTransactionId s) = true ->
  XidFromFullTransactionId (fullTransactionId s) ∉ committed o.
Proof.
  intros Hok Hs Hv Hc. destruct (io_committed _ _ _ _ Hok _ Hc) as (_ & Hn & _). apply Hn. cbn [stack_ids].
  apply elem_of_app. right. unfold ids_of. rewrite decide_False, Hv by done. by left.
Qed.

Definition aborted_level (s s' : TransactionStateData) : Prop :=
  ts_state s' = TRANS_ABORT /\ blockState s' = blockState s /\ ts_name s' = ts_name s /\
  chain s' = chain s /\ savepointLevel s' = savepointLevel s.

(** [RecordTransactionAbort] after the level was marked. *)
Lemma record_abort_wp c s ps (Q : xstate -> xerror + unit -> Prop) :
  good c -> stack c = s :: ps -> ts_state s <> TRANS_ABORT ->
  (forall o, good (set_out o (set_stack (set_state TRANS_ABORT s) ps c)) -> quiet (out c) o ->
     Q (set_out o (set_stack (set_state TRANS_ABORT s) ps c)) (inr tt)) ->
  xwp RecordTransactionAbort (set_stack (set_state TRANS_ABORT s) ps c) Q.
Proof.
  intros Hg [= Es Eps] Hs HQ. subst s ps. set (s := CurrentTransactionState c) in *.
  pose proof (g_ids _ Hg) as Hok. change (stack c) with (s :: parents c) in Hok.
  assert (Hgood : good (set_out (mark_aborted (ids_of s) (out c)) (set_stack (set_state TRANS_ABORT s) (parents c) c))).
  { apply (good_frame c); [done| |done]. cbn. apply ids_ok_abort; try done. by right. }
  unfold xwp, RecordTransactionAbort, xbind, xget. cbn.
  change (TransactionIdIsValid (XidFromFullTransactionId (fullTransactionId s)))
    with (FullTransactionIdIsValid (fullTransactionId s)).
  unfold ids_of in Hgood. rewrite decide_False in Hgood by done.
  destruct (FullTransactionIdIsValid (fullTransactionId s)) eqn:Hv; cbn.
  - rewrite bool_decide_eq_false_2 by (by eapply own_id_not_committed). cbn. by apply HQ.
  - rewrite mark_aborted_nil in Hgood. by apply (HQ (out c)).
Qed.

Lemma good_kept c c' : frame c c' -> out c' = out c -> Forall2 same_core (stack c) (stack c') -> good c -> good c'.
Proof. intros Hf Ho Hs Hg. apply (good_frame c); [done| |done]. rewrite Ho. eapply ids_ok_same; [done|apply Hg]. Qed.

Lemma good_same c c' : frame c c' -> out c' = out c -> stack c' = stack c -> good c -> good c'.
Proof. intros Hf Ho Hs Hg. apply (good_frame c); [done| |done]. rewrite Ho, Hs. apply Hg. Qed.

Lemma same_core_refl s : same_core s s.
Proof. done. Qed.
Lemma same_core_tail s s' l : same_core s s' -> Forall2 same_core (s :: l) (s' :: l).
Proof. intros H. constructor; [done|]. induction l; constructor; auto using same_core_refl. Qed.

(** A level whose work is undone: an aborted one. *)
Lemma good_children_nil c s ps :
  good c -> stack c = s :: ps -> ts_state s = TRANS_ABORT -> good (set_stack (set_children [] s) ps c).
Proof.
  intros Hg Hst Hs. apply (good_frame c); [done| |done]. pose proof (g_ids _ Hg) as H. rewrite Hst in H.
  apply (ids_ok_abort s (set_children [] s)) in H; try done; [|by left].
  unfold ids_of in H. rewrite decide_True, mark_aborted_nil in H by done. exact H.
Qed.

(** The owner is set when a level can have an id. *)
Definition owned (s : TransactionStateData) : Prop :=
  curTransactionOwner s = true \/ FullTransactionIdIsValid (fullTransactionId s) = false.

Lemma abort_sub_wp c s ps :
  good c -> stack c = s :: ps -> ts_state s <> TRANS_ABORT -> owned s ->
  xwp AbortSubTransaction c (fun c' r => r = inr tt /\ good c' /\ quiet (out c) (out c') /\ frame c c' /\
    exists s', stack c' = s' :: ps /\ aborted_level s s').
Proof.
  intros Hg Hst Hs Ho. pose proof Hst as [= Es Eps]. unfold AbortSubTransaction.
  apply xwp_bind, upd_wp, xwp_bind. unfold xwp at 1. cbn. rewrite Es, Eps. apply xwp_bind.
  destruct (curTransactionOwner s) eqn:Ew.
  - apply xwp_bind, record_abort_wp; [done..|]. intros o Hgo Hq. cbn.
    destruct (FullTransactionIdIsValid (fullTransactionId s)).
    + apply upd_wp. pose proof (good_children_nil _ _ _ Hgo eq_refl eq_refl) as Hg'.
      unfold xwp. cbn. split; [done|]. split; [by eapply good_same; [..|exact Hg']|]. split; [done|]. split; [done|]. by eexists.
    + unfold xwp. cbn. split; [done|]. split; [by eapply good_same; [..|exact Hgo]|]. split; [done|]. split; [done|]. by eexists.
  - destruct Ho as [|Hv]; [congruence|]. unfold xwp. cbn. split; [done|]. split; [|split; [done|split; [done|by eexists]]].
    apply (good_frame c); [done| |done]. cbn. pose proof (g_ids _ Hg) as H. rewrite Hst in H.
    apply (ids_ok_abort s (set_state TRANS_ABORT s)) in H; try done; [|by right].
    unfold ids_of in H. rewrite decide_False, Hv, mark_aborted_nil in H by done. exact H.
Qed.

(** The parent is current again. *)
Lemma cleanup_sub_wp c s p ps :
  good c -> stack c = s :: p :: ps -> ts_state s = TRANS_ABORT ->
  xwp CleanupSubTransaction c (fun c' r => r = inr tt /\ good c' /\ quiet (out c) (out c') /\ frame c c' /\ stack c' = p :: ps).
Proof.
  intros Hg Hst Hs. pose proof Hst as [= Es Eps]. unfold xwp, CleanupSubTransaction, PopTransaction, xbind, upd, xmod, xget.
  cbn. rewrite Eps. cbn. split; [done|]. split; [|done].
  apply (good_frame c); [done| |done]. cbn. pose proof (g_ids _ Hg) as H. rewrite Hst in H.
  apply ids_ok_pop in H; [done|]. unfold ids_of. by rewrite decide_True.
Qed.

Lemma drop_sub_wp c s p ps :
  good c -> stack c = s :: p :: ps -> ts_state s <> TRANS_ABORT -> owned s ->
  xwp (xbind AbortSubTransaction (fun _ => CleanupSubTransaction)) c (fun c' r => r = inr tt /\ good c' /\ quiet (out c) (out c') /\ frame c c' /\ stack c' = p :: ps).
Proof.
  intros Hg Hst Hs Ho. apply xwp_bind. eapply xwp_mono; [by eapply abort_sub_wp|].
  intros c1 r (-> & Hg1 & Hq1 & Hf1 & s1 & Hst1 & Hs1). eapply xwp_mono; [eapply cleanup_sub_wp; [done..|apply Hs1]|].
  intros c2 r (-> & Hg2 & Hq2 & Hf2 & Hst2). eauto 10 using quiet_trans, frame_trans.
Qed.

(** A subtransaction hands its ids to its parent, or runs into a limit. *)
Lemma commit_sub_wp c s p ps :
  good c -> stack c = s :: p :: ps -> ts_state s <> TRANS_ABORT -> ts_state p <> TRANS_ABORT ->
  xwp CommitSubTransaction c (fun c' r => good c' /\ out c' = out c /\ frame c c' /\
    match r with
    | inr _ => stack c' = merge s p :: ps
    | inl e => e = ERROR LimitExceeded /\ stack c' = set_state TRANS_COMMIT s :: p :: ps
    end).
Proof.
  intros Hg Hst Hs Hp. pose proof Hst as [= Es Eps]. unfold CommitSubTransaction.
  assert (Hcore : same_core s (set_state TRANS_COMMIT s)) by (by split).
  apply xwp_bind, upd_wp. rewrite Es. set (c0 := set_stack _ _ c).
  assert (E0 : stack c0 = set_state TRANS_COMMIT s :: p :: ps) by (unfold stack, c0; cbn; by rewrite Eps).
  assert (Hg0 : good c0) by (apply (good_kept c); try done; rewrite Hst, E0; by apply same_core_tail).
  apply xwp_bind. eapply xwp_mono; [apply cci_wp, Hg0|]. intros c1 r (Hr & Hst1 & Ho1 & Hf1).
  assert (Hf : frame c c1) by (by eapply frame_trans; [|exact Hf1]).
  assert (Hg1 : good c1) by (by apply (good_same c0)).
  rewrite E0 in Hst1. change (out c0) with (out c) in Ho1.
  destruct Hr as [-> | ->]; [|done]. pose proof Hst1 as [= Es1 Eps1].
  apply xwp_bind. unfold xwp at 1. cbn. rewrite Es1. cbn.
  assert (Hend : forall c2, frame c1 c2 -> out c2 = out c -> parents c2 = merge s p :: ps ->
    xwp (xbind restore_read_only (fun _ => xbind (upd (fun s => set_state TRANS_DEFAULT (set_owner false s))) (fun _ => PopTransaction))) c2
      (fun c' r => good c' /\ out c' = out c /\ frame c c' /\
         match r with inr _ => stack c' = merge s p :: ps | inl e => e = ERROR LimitExceeded /\ stack c' = set_state TRANS_COMMIT s :: p :: ps end)).
  { intros c2 Hf2 Ho2 Hps2. unfold xwp, restore_read_only, PopTransaction, xbind, upd, xmod, xget. cbn. rewrite Hps2. cbn.
    assert (Hfc : frame c1 (set_stack (merge s p) ps c2)) by (destruct Hf2; by split).
    split; [|split; [done|split; [|done]]].
    - eapply (good_same (set_stack (merge s p) ps c2)); try done.
      apply (good_frame c1); [done| |done]. cbn. rewrite Ho2, <- Ho1. apply (ids_ok_merge (set_state TRANS_COMMIT s) p ps); [done..|]. rewrite <- Hst1. apply Hg1.
    - eapply frame_trans; [exact Hf|]. by eapply frame_trans; [exact Hfc|]. }
  apply xwp_bind. unfold merge in *. destruct (FullTransactionIdIsValid (fullTransactionId s)).
  - unfold xwp at 1, AtSubCommit_childXids, xbind, xget, xmod, throw. cbn. rewrite Eps1, Es1. cbn.
    destruct (_ <? _); cbn; [done|]. apply Hend; [done|done|done].
  - apply Hend; [done|done|done].
Qed.

(** ** Top-level transactions *)

Definition ended (s s' : TransactionStateData) : Prop :=
  fullTransactionId s' = InvalidFullTransactionId /\ childXids s' = [] /\ ts_state s' = TRANS_DEFAULT /\
  blockState s' = blockState s /\ ts_name s' = ts_name s /\ savepointLevel s' = savepointLevel s /\ chain s' = chain s.

(** The fields that stay when a transaction ends. *)
Record outer (c c' : xstate) : Prop := {
  ou_par : parallel_mode c' = parallel_mode c;
  ou_ok : precommit_ok c' = precommit_ok c;
  ou_started : xact_started c' = xact_started c
}.

Lemma outer_trans c1 c2 c3 : outer c1 c2 -> outer c2 c3 -> outer c1 c3.
Proof. intros [] []. split; congruence. Qed.
Lemma frame_outer c c' : frame c c' -> outer c c'.
Proof. intros []. by split. Qed.

Lemma abort_wp c s :
  good c -> stack c = [s] -> ts_state s <> TRANS_ABORT ->
  xwp AbortTransaction c (fun c' r => r = inr tt /\ good c' /\ quiet (out c) (out c') /\ frame c c' /\
    exists s', stack c' = [s'] /\ aborted_level s s').
Proof.
  intros Hg Hst Hs. pose proof Hst as [= Es Eps]. apply xwp_bind, upd_wp. rewrite Es, Eps.
  apply record_abort_wp; [done..|]. intros o Hgo Hq. split; [done|]. split; [exact Hgo|]. split; [done|]. split; [done|]. by eexists.
Qed.

Lemma cleanup_top_wp c s :
  good c -> stack c = [s] -> ts_state s = TRANS_ABORT ->
  xwp CleanupTransaction c (fun c' r => r = inr tt /\ good c' /\ out c' = out c /\ outer c c' /\
    exists s', stack c' = [s'] /\ ended s s').
Proof.
  intros Hg Hst Hs. pose proof Hst as [= Es Eps]. unfold xwp, CleanupTransaction, xbind, xget, upd, xmod. cbn. rewrite Es.
  rewrite bool_decide_eq_true_2 by done. cbn. rewrite Es, Eps.
  split; [done|]. split; [|split; [done|split; [done|by eexists]]].
  split; [|apply Hg]. cbn. pose proof (g_ids _ Hg) as H. rewrite Hst in H.
  eapply ids_ok_reset; [..|exact H]; try done. unfold ids_of. by rewrite decide_True.
Qed.

Lemma top_ids s top k o :
  ids_ok [s] top k o -> ts_state s <> TRANS_ABORT ->
  ids_of s = if FullTransactionIdIsValid top then XidFromFullTransactionId top :: childXids s else [].
Proof. intros H Hs. unfold ids_of. rewrite decide_False by done. by rewrite <- (io_top _ _ _ _ H). Qed.

Lemma commit_wp c s :
  good c -> stack c = [s] -> ts_state s <> TRANS_ABORT ->
  xwp CommitTransaction c (fun c' r => good c' /\ outer c c' /\
    match r with
    | inr _ => out c' = mark_committed (ids_of s) (out c) /\ exists s', stack c' = [s'] /\ ended s s'
    | inl e => e = ERROR StatementFailed /\ c' = c
    end).
Proof.
  intros Hg Hst Hs. pose proof Hst as [= Es Eps]. unfold CommitTransaction. apply xwp_bind. unfold xwp at 1. cbn.
  destruct (precommit_ok c); [|done]. cbn. unfold xwp, RecordTransactionCommit, upd, xbind, xget, xmod. cbn. rewrite Es.
  pose proof (g_ids _ Hg) as H. rewrite Hst in H. pose proof (top_ids _ _ _ _ H Hs) as Hids.
  fold (FullTransactionIdIsValid (XactTopFullTransactionId c)).
  assert (Hg' : forall c', outer c c' -> id_calls c' = id_calls c -> XactTopFullTransactionId c' = InvalidFullTransactionId ->
    out c' = mark_committed (ids_of s) (out c) -> stack c' = [reset_state (set_state TRANS_COMMIT s)] -> good c').
  { intros c' [Hp _ _] Hk Ht Ho' Hst'. split; [|rewrite Hp; apply Hg]. rewrite Hst', Hk, Ht, Ho'. by eapply ids_ok_commit; [..|exact H]. }
  assert (Hmk : forall o, mark_committed [] o = o) by (intros []; unfold mark_committed; cbn; f_equal; apply union_empty_l_L).
  rewrite Hids in Hg' |- *. destruct (FullTransactionIdIsValid (XactTopFullTransactionId c)); cbn; rewrite ?Es, ?Eps, ?Hmk;
    (split; [apply Hg'; cbn; by rewrite ?Hmk|]); (split; [done|]); (split; [done|]); by eexists.
Qed.

(** ** New ids *)

Definition alive (l : list TransactionStateData) : Prop := Forall (fun s => ts_state s <> TRANS_ABORT) l.

(** The level got an id that was not used before. *)
Definition grown (k : nat) (s s' : TransactionStateData) : Prop :=
  s' = s \/ exists x, FullTransactionIdIsValid (fullTransactionId s) = false /\ s' = set_full x s /\
                     ~ used k (XidFromFullTransactionId x).

Lemma grown_refl k l : Forall2 (grown k) l l.
Proof. induction l; constructor; [by left|done]. Qed.

Lemma grown_ids k l l' x : ids_nested l -> Forall2 (grown k) l l' -> used k x -> x ∈ stack_ids l' <-> x ∈ stack_ids l.
Proof.
  intros Hn Hl Hx. induction Hl as [|s s' l l' Hs Hl IH]; [done|]. destruct Hn as (Hn1 & _ & Hn). cbn [stack_ids].
  rewrite !elem_of_app, IH by done. destruct Hs as [-> | (y & Hv & -> & Hy)]; [done|].
  unfold ids_of. cbn. rewrite Hv, (Hn1 Hv). destruct (decide _); [done|].
  destruct (FullTransactionIdIsValid y); [|done]. rewrite list_elem_of_singleton. set_solver.
Qed.

Lemma ordered_snoc k xs x :
  ids_ordered k xs -> new_id k = Some x -> ids_ordered (S k) (xs ++ [XidFromFullTransactionId x]).
Proof.
  intros (vs & -> & Hs & Hh) Hx. exists (vs ++ [value x]). split; [by rewrite map_app|]. split.
  - apply StronglySorted_app_2; [|done|repeat constructor]. intros a b Ha ->%list_elem_of_singleton.
    rewrite list.Forall_forall in Hh. by eapply handed_before; [apply Hh|].
  - apply list.Forall_app. split.
    + eapply list.Forall_impl; [done|]. intros v (j & y & Hj & Hy). exists j, y. split; [lia|done].
    + repeat constructor. exists k, x. split; [lia|done].
Qed.

Lemma ordered_mono j k xs : (j <= k)%nat -> ids_ordered j xs -> ids_ordered k xs.
Proof.
  intros Hjk (vs & -> & Hs & Hh). exists vs. split; [done|]. split; [done|].
  eapply list.Forall_impl; [done|]. intros v (i & y & Hi & Hy). exists i, y. split; [lia|done].
Qed.

Definition all_valid (l : list TransactionStateData) : Prop :=
  Forall (fun p => FullTransactionIdIsValid (fullTransactionId p) = true) l.

Lemma assign_ids_spec l : forall k st l' k' ok st',
  alive l -> ids_nested l -> ids_ordered k (stack_ids l) -> assign_ids new_id l k st = (l', k', ok, st') ->
  (k <= k')%nat /\ ids_nested l' /\ ids_ordered k' (stack_ids l') /\ Forall2 (grown k) l l' /\ (ok = true -> all_valid l').
Proof.
  induction l as [|s ps IH]; intros k st l' k' ok st' Ha Hn Ho E; cbn [assign_ids] in E.
  - injection E as <- <- <- <-. split; [lia|]. split; [done|]. split; [done|]. split; constructor.
  - destruct (FullTransactionIdIsValid (fullTransactionId s)) eqn:Hv.
    { injection E as <- <- <- <-. split; [lia|]. split; [done|]. split; [done|]. split; [apply grown_refl|].
      intros _. destruct Hn as (_ & Hn & _). constructor; auto. }
    apply Forall_cons in Ha as [Ha1 Ha2]. pose proof Hn as (Hn1 & _ & Hn2). specialize (Hn1 Hv).
    assert (Hids : ids_of s = []) by (unfold ids_of; rewrite Hv; by destruct (decide _)).
    cbn [stack_ids] in Ho. rewrite Hids, app_nil_r in Ho.
    destruct (assign_ids _ ps k st) as [[[ps' k1] ok1] st1] eqn:E1.
    destruct (IH _ _ _ _ _ _ Ha2 Hn2 Ho E1) as (Hk & Hn' & Ho' & Hg' & Hv').
    assert (Hfail : (k <= S k1)%nat /\ ids_nested (s :: ps') /\ ids_ordered k1 (stack_ids (s :: ps')) /\ Forall2 (grown k) (s :: ps) (s :: ps')).
    { split; [lia|]. cbn [ids_nested stack_ids]. rewrite Hv, Hids, app_nil_r. split; [done|]. split; [done|]. constructor; [by left|done]. }
    destruct Hfail as (Hk1 & F1 & F2 & F3).
    destruct ok1; [|injection E as <- <- <- <-; split; [lia|done]].
    destruct (new_id k1) as [x|] eqn:Hx; injection E as <- <- <- <-; split; try lia.
    + pose proof (new_id_valid _ _ Hx) as Hvx. specialize (Hv' eq_refl). split; [|split; [|split]].
      * cbn [ids_nested]. cbn. rewrite Hvx, Hn1. done.
      * cbn [stack_ids]. unfold ids_of. cbn. rewrite decide_False, Hvx, Hn1 by done. by apply ordered_snoc.
      * constructor; [|done]. right. exists x. split; [done|]. split; [done|]. intros Hu.
        eapply new_id_fresh; [exact Hx|]. by eapply used_mono; [|exact Hu].
      * constructor; done.
    + split; [done|]. split; [|done]. eapply ordered_mono; [|exact F2]. lia.
Qed.

Lemma last_top s ps : last (s :: ps) = Some (top_state s ps).
Proof. unfold top_state. induction ps as [|p [|q ps] IH]; [done..|exact IH]. Qed.

Lemma ids_ok_grown l l' top top' k k' o :
  (k <= k')%nat -> ids_nested l' -> ids_ordered k' (stack_ids l') -> Forall2 (grown k) l l' ->
  match last l' with Some s => fullTransactionId s = top' | None => True end ->
  ids_ok l top k o -> ids_ok l' top' k' o.
Proof.
  intros Hk Hn' Ho' Hl Ht [H1 H2 H3 H4 H5 H6 H7 H8].
  assert (Hout : forall x, used k x -> x ∉ stack_ids l -> used k' x /\ (x ∉ stack_ids l')).
  { intros x Hu Hx. split; [by eapply used_mono|]. by rewrite (grown_ids k l l'). }
  split; try done.
  - intros s' (i & Hi)%list_elem_of_lookup. destruct (Forall2_lookup_r _ _ _ _ _ Hl Hi) as (s & Hs & Hsc).
    specialize (H4 s ltac:(by eapply list_elem_of_lookup_2)). by destruct Hsc as [-> | (x & _ & -> & _)].
  - intros e He. eapply used_mono; eauto.
  - intros x Hx. destruct (H6 x Hx) as (Hu & Hn & Ha). destruct (Hout x Hu Hn). done.
  - intros x Hx. destruct (H7 x Hx) as (Hu & Hn). by apply Hout.
  - intros p x Hp Hx. destruct (H8 p x Hp Hx) as (Hu & Hn & Hc). destruct (Hout x Hu Hn). done.
Qed.

Lemma assign_wp c :
  good c -> alive (stack c) ->
  xwp (AssignTransactionId new_id) c (fun c' r => good c' /\ quiet (out c) (out c') /\ outer c c' /\ prepareGID c' = prepareGID c /\
    Forall2 (grown (id_calls c)) (stack c) (stack c') /\
    match r with
    | inr _ => FullTransactionIdIsValid (fullTransactionId (CurrentTransactionState c')) = true
    | inl e => e = ERROR NoTransactionId
    end).
Proof.
  intros Hg Ha. pose proof (g_ids _ Hg) as Hok. unfold AssignTransactionId.
  apply xwp_get. rewrite (g_par _ Hg). apply xwp_get. unfold id. fold (stack c).
  destruct (assign_ids _ _ _ _) as [[[l' k'] ok] st'] eqn:E.
  destruct (assign_ids_spec _ _ _ _ _ _ _ Ha (io_nested _ _ _ _ Hok) (io_order _ _ _ _ Hok) E) as (Hk & Hn & Ho & Hgr & Hv).
  destruct l' as [|s ps]; [by inversion Hgr|].
  assert (Hg' : good (set_top_xid (fullTransactionId (top_state s ps)) (set_calls k' (set_out (set_subtrans st' (out c)) (set_stack s ps c))))).
  { split; [|apply Hg]. eapply (ids_ok_grown (stack c) (s :: ps)) in Hok; [|done..|by rewrite last_top].
    destruct Hok as [H1 H2 H3 H4 H5 H6 H7 H8]. by split. }
  destruct ok; unfold xwp; cbn; (split; [exact Hg'|]); do 4 (split; [done|]); [|done].
  specialize (Hv eq_refl). by apply Forall_cons in Hv as [Hv _].
Qed.

Lemma current_id_wp c :
  good c -> alive (stack c) ->
  xwp (GetCurrentTransactionId new_id) c (fun c' r => good c' /\ quiet (out c) (out c') /\ outer c c' /\ prepareGID c' = prepareGID c /\
    Forall2 (grown (id_calls c)) (stack c) (stack c') /\
    match r with
    | inr x => FullTransactionIdIsValid (fullTransactionId (CurrentTransactionState c')) = true /\
               x = XidFromFullTransactionId (fullTransactionId (CurrentTransactionState c'))
    | inl e => e = ERROR NoTransactionId
    end).
Proof.
  intros Hg Ha. unfold GetCurrentTransactionId. apply xwp_get, xwp_bind.
  destruct (FullTransactionIdIsValid (fullTransactionId (CurrentTransactionState c))) eqn:Hv; cbn [negb].
  - unfold xwp. cbn. do 4 (split; [done|]). split; [apply grown_refl|done].
  - eapply xwp_mono; [by apply assign_wp|]. intros c' [e|[]] (H1 & H2 & H3 & H4 & H5 & H6); [done|]. by unfold xwp.
Qed.

(** The ids of a prepared transaction are kept with its name. *)
Lemma prepare_wp c s :
  good c -> stack c = [s] -> ts_state s <> TRANS_ABORT ->
  xwp (PrepareTransaction new_id) c (fun c' r => good c' /\ outer c c' /\
    match r with
    | inr _ => exists ids s' o, quiet (out c) o /\ out c' = mark_prepared (default EmptyString (prepareGID c)) ids o /\
        (forall x, used (id_calls c) x -> x ∈ ids <-> x ∈ ids_of s) /\ stack c' = [s'] /\ ended s s'
    | inl e => (e = ERROR StatementFailed \/ e = ERROR NoTransactionId) /\ quiet (out c) (out c') /\
        Forall2 (grown (id_calls c)) (stack c) (stack c')
    end).
Proof.
  intros Hg Hst Hs. unfold PrepareTransaction. apply xwp_bind.
  eapply xwp_mono; [apply current_id_wp; [done|rewrite Hst; by repeat constructor]|].
  intros c1 [e|x] (Hg1 & Hq1 & Hou1 & Hgid & Hgr & Hr); [by auto|]. destruct Hr as [Hv1 Hx]. pose proof Hgr as Hgr1.
  rewrite Hst in Hgr1. apply Forall2_cons_inv_l in Hgr1 as (s1 & l1 & Hs1 & Hnil & Hst1).
  apply Forall2_nil_inv_l in Hnil. subst l1. pose proof Hst1 as [= Es1 Eps1].
  assert (Hsame : ts_state s1 = ts_state s /\ ended s (reset_state (set_state TRANS_PREPARE s1)))
    by (by destruct Hs1 as [-> | (y & _ & -> & _)]). destruct Hsame as [Ets Hend].
  pose proof (g_ids _ Hg1) as Hok1. rewrite Hst1 in Hok1.
  assert (Hids : ids_of s1 = x :: childXids s1) by (unfold ids_of; by rewrite decide_False, <- Es1, Hv1, Hx by congruence).
  apply xwp_get. destruct (precommit_ok c1); cbn [negb]; [|by unfold xwp, throw; cbn [fst snd]; auto].
  unfold xwp, xbind, xget, upd, xmod. cbn. rewrite Es1, Eps1. split; [|split; [by destruct Hou1|]].
  - split; [|apply Hg1]. cbn. rewrite <- Hids. by eapply ids_ok_prepare; [..|exact Hok1].
  - exists (ids_of s1). do 2 eexists. split; [exact Hq1|]. split; [by rewrite Hids, Hgid|]. split; [|done].
    intros y Hy. assert (E : forall z, ids_of z = stack_ids [z]) by done. rewrite !E. apply (grown_ids (id_calls c)); [|constructor; [done|constructor]|done].
    pose proof (g_ids _ Hg) as H. rewrite Hst in H. apply H.
Qed.
End session.
