(* ===== verification/XactSpec.v ===== *)
(** * What transaction blocks and savepoints do

    The state machine of [Xact] seen from outside: a session is idle, in a transaction
    block with a list of savepoints, or in a failed block.  Every query string, with
    blocks in subtransactions, errors at any point and failing commits, does what
    this description says; the branches for unexpected states are never taken and every loop ends. *)
From stdpp Require Import gmultiset.
From S2P Require Import Prelude TransactionId Xact XactInv.
Local Open Scope Z_scope.

(** ** The description *)

(** The rows written so far in the transaction are its [work]; a savepoint has the work done before it. *)
Inductive ablock :=
| Idle
| Implicit (multi : bool) (work : list Z)
| Open (work : list Z) (saves : list (string * list Z))
| Broken (saves : list (string * list Z)).

(** The rows of committed transactions, those of prepared ones, and the session. *)
Record asession := { db : gmultiset Z; held : list (string * list Z); blk : ablock }.

(** Errors that a statement can run into whatever it does. *)
Definition resource (r : reason) : Prop := r = LimitExceeded \/ r = NoTransactionId \/ r = StatementFailed.

Inductive outcome := Fine (work : list Z) | Error (r : reason) | Fatal (r : reason).

(** What a statement with blocks does to the work of its transaction: a block is undone when an error
    leaves it, and the statement goes on if the error is caught. *)
Fixpoint prog_spec (p : prog) (w : list Z) (r : outcome) : Prop :=
  match p with
  | PDone => r = Fine w
  | PWrite row k => r = Error NoTransactionId \/ prog_spec k (w ++ [row]) r
  | PFail => r = Error StatementFailed
  | PBlock body caught k =>
      r = Fatal LimitExceeded \/
      (exists w', prog_spec body w (Fine w') /\ prog_spec k w' r) \/
      (exists e, (prog_spec body w (Error e) \/ e = LimitExceeded /\ exists w', prog_spec body w (Fine w')) /\
                 if caught then prog_spec k w r else r = Error e) \/
      (exists e, prog_spec body w (Fatal e) /\ r = Fatal e)
  end.

Definition set_blk (b : ablock) (a : asession) : asession := {| db := db a; held := held a; blk := b |}.
Definition commit_work (w : list Z) (b : ablock) (a : asession) : asession :=
  {| db := db a ⊎ list_to_set_disj w; held := held a; blk := b |}.
Definition hold_work (gid : string) (w : list Z) (b : ablock) (a : asession) : asession :=
  {| db := db a; held := (gid, w) :: held a; blk := b |}.

(** The block after one that ends [AND CHAIN] or not. *)
Definition next_block (chain : bool) : ablock := if chain then Open [] [] else Idle.

Definition find_save (n : string) (saves : list (string * list Z)) : option (nat * (string * list Z)) :=
  list_find (fun p => p.1 = n) saves.

(** What a transaction statement does in a session, or the error it raises. *)
Definition stmt_effect (st : statement) (a : asession) : reason + asession :=
  match st, blk a with
  | SBegin, Implicit _ w => inr (set_blk (Open w []) a)
  | SBegin, Open _ _ => inr a
  | SCommit ch, Implicit _ w => if ch then inl NoActiveTransaction else inr (commit_work w Idle a)
  | SCommit ch, Open w _ => inr (commit_work w (next_block ch) a)
  | SCommit ch, Broken _ => inr (set_blk (next_block ch) a)
  | SRollback ch, Implicit _ _ => if ch then inl NoActiveTransaction else inr (set_blk Idle a)
  | SRollback ch, (Open _ _ | Broken _) => inr (set_blk (next_block ch) a)
  | SPrepare gid, Implicit false w => inr (commit_work w Idle a)
  | SPrepare gid, (Implicit true w | Open w _) => inr (hold_work gid w Idle a)
  | SPrepare gid, Broken _ => inr (set_blk Idle a)
  | (SSavepoint _ | SRelease _ | SRollbackTo _), Implicit _ _ => inl NoActiveTransaction
  | SSavepoint n, Open w saves => inr (set_blk (Open w ((n, w) :: saves)) a)
  | SRelease n, Open w saves =>
      match find_save n saves with
      | Some (i, _) => inr (set_blk (Open w (drop (S i) saves)) a)
      | None => inl SavepointDoesNotExist
      end
  | SRollbackTo n, (Open _ saves | Broken saves) =>
      match find_save n saves with
      | Some (i, (_, w)) => inr (set_blk (Open w (drop i saves)) a)
      | None => inl SavepointDoesNotExist
      end
  | _, _ => inl InFailedTransaction
  end.

(** The block after an error. *)
Definition fail_block (b : ablock) : ablock :=
  match b with Open _ saves | Broken saves => Broken saves | _ => Idle end.
Definition fail_after (st : statement) (b : ablock) : ablock :=
  match st, b with
  | (SCommit _ | SRollback _ | SPrepare _), _ => Idle
  | (SRelease n | SRollbackTo n), (Open _ saves | Broken saves) =>
      match find_save n saves with
      | Some (i, _) => Broken (drop (S i) saves)
      | None => Broken saves
      end
  | _, _ => fail_block b
  end.

(** A statement outside a transaction block starts a transaction of its own. *)
Definition begin_block (multi : bool) (b : ablock) : ablock :=
  match b with Idle => Implicit multi [] | _ => b end.
Definition work_of (b : ablock) : list Z := match b with Implicit _ w | Open w _ => w | _ => [] end.
Definition with_work (w : list Z) (b : ablock) : ablock :=
  match b with Implicit multi _ => Implicit multi w | Open _ saves => Open w saves | _ => b end.
(** The end of a string commits such a transaction. *)
Definition finish_block (a : asession) : asession :=
  match blk a with Implicit _ w => commit_work w Idle a | _ => a end.

(** A query string: its outcome, and the session afterwards. *)
Fixpoint string_spec (multi : bool) (l : list statement) (a : asession) (res : query_result) (a' : asession) : Prop :=
  match l with
  | [] => res = Completed /\ a' = a
  | st :: rest =>
      let a1 := set_blk (begin_block multi (blk a)) a in
      let failed e b := res = Failed e /\ a' = set_blk b a in
      match blk a, IsTransactionExitStmt st with
      | Broken _, false => failed InFailedTransaction (blk a)
      | _, _ =>
          match st with
          | SQuery p =>
              (exists e, prog_spec p (work_of (blk a1)) (Error e) /\ failed e (fail_block (blk a1))) \/
              (exists e, prog_spec p (work_of (blk a1)) (Fatal e) /\ res = Terminated e /\ a' = set_blk Idle a) \/
              (exists w, prog_spec p (work_of (blk a1)) (Fine w) /\
                 let a2 := set_blk (with_work w (blk a1)) a in
                 (exists e, resource e /\ failed e (fail_block (blk a1))) \/
                 string_spec multi rest (match rest with [] => finish_block a2 | _ => a2 end) res a')
          | _ =>
              match stmt_effect st a1 with
              | inl e => failed e (fail_after st (blk a1))
              | inr a2 => (exists e, resource e /\ failed e (fail_after st (blk a1))) \/ string_spec multi rest a2 res a'
              end
          end
      end
  end.

Definition query_spec (l : list statement) (a : asession) (res : query_result) (a' : asession) : Prop :=
  string_spec (1 <? length l)%nat l a res a' \/
  l = [] /\ exists e, resource e /\ res = Failed e /\ a' = set_blk (fail_block (blk a)) a.

(** A session: the outcomes of its strings, and its end. *)
Fixpoint session_spec (qs : list (list statement)) (a : asession) (rs : list query_result) (a' : asession) : Prop :=
  match qs, rs with
  | [], [] => a' = a
  | l :: qs, res :: rs =>
      exists a1, query_spec l a res a1 /\
        match res with Terminated _ => rs = [] /\ a' = a1 | _ => session_spec qs a1 rs a' end
  | _, _ => False
  end.

(** ** Reading the state *)

Definition committed_rows (o : shared) : gmultiset Z :=
  list_to_set_disj (snd <$> filter (fun e => e.1 ∈ committed o) (rows o)).

Definition block_of (c : xstate) : ablock :=
  match blockState (CurrentTransactionState c) with
  | TBLOCK_DEFAULT => Idle
  | TBLOCK_STARTED => Implicit false (writes (stack_ids (stack c)) (out c))
  | TBLOCK_IMPLICIT_INPROGRESS => Implicit true (writes (stack_ids (stack c)) (out c))
  | TBLOCK_ABORT | TBLOCK_SUBABORT => Broken (saves_of (stack c) (out c))
  | _ => Open (writes (stack_ids (stack c)) (out c)) (saves_of (stack c) (out c))
  end.

Definition held_rows (o : shared) : list (string * list Z) := (fun p => (p.1, writes p.2 o)) <$> prepared o.

Definition abs (c : xstate) : asession := {| db := committed_rows (out c); held := held_rows (out c); blk := block_of c |}.

(** ** Shapes of the stack *)

Record running (b : TBlockState) (s : TransactionStateData) : Prop := {
  ru_state : ts_state s = TRANS_INPROGRESS;
  ru_block : blockState s = b;
  ru_owner : curTransactionOwner s = true
}.

(** Savepoints above a transaction in state [b]. *)
Inductive live (b : TBlockState) : list TransactionStateData -> Prop :=
| live_top s : running b s -> ts_name s = None -> nestingLevel s = 1 -> live b [s]
| live_sub s ps n : running TBLOCK_SUBINPROGRESS s -> ts_name s = Some n -> live b ps -> live b (s :: ps).

Definition idle (s : TransactionStateData) : Prop :=
  blockState s = TBLOCK_DEFAULT /\ ts_state s = TRANS_DEFAULT /\ ts_name s = None /\
  fullTransactionId s = InvalidFullTransactionId /\ childXids s = [].

(** A failed transaction block. *)
Inductive broken : list TransactionStateData -> Prop :=
| broken_top s : ts_state s = TRANS_ABORT -> blockState s = TBLOCK_ABORT -> ts_name s = None -> broken [s]
| broken_sub s ps n :
    ts_state s = TRANS_ABORT -> blockState s = TBLOCK_SUBABORT -> ts_name s = Some n -> live TBLOCK_INPROGRESS ps ->
    broken (s :: ps).

(** The shapes between two statements. *)
Inductive at_rest : list TransactionStateData -> Prop :=
| rest_idle s : idle s -> at_rest [s]
| rest_implicit b s : (b = TBLOCK_STARTED \/ b = TBLOCK_IMPLICIT_INPROGRESS) -> live b [s] -> at_rest [s]
| rest_open l : live TBLOCK_INPROGRESS l -> at_rest l
| rest_broken l : broken l -> at_rest l.

Section session.
Context {ids : IdSupply}.

(** ** Aborting *)

(** Levels that [AbortCurrentTransaction] takes off the stack. *)
Definition dropped (s : TransactionStateData) : Prop :=
  match blockState s with
  | TBLOCK_SUBBEGIN | TBLOCK_SUBRELEASE | TBLOCK_SUBCOMMIT | TBLOCK_SUBABORT_PENDING | TBLOCK_SUBRESTART =>
      ts_state s <> TRANS_ABORT /\ owned s
  | TBLOCK_SUBABORT_END | TBLOCK_SUBABORT_RESTART => ts_state s = TRANS_ABORT
  | _ => False
  end.

(** A transaction that has to end. *)
Definition doomed (s : TransactionStateData) : Prop :=
  match blockState s with
  | TBLOCK_STARTED | TBLOCK_IMPLICIT_INPROGRESS | TBLOCK_BEGIN | TBLOCK_END | TBLOCK_ABORT_PENDING | TBLOCK_PREPARE =>
      ts_state s <> TRANS_ABORT
  | TBLOCK_ABORT_END => ts_state s = TRANS_ABORT
  | _ => False
  end /\ ts_name s = None.

(** What is left of the stack below the dropped levels, and the block that an error makes of it. *)
Inductive left_over (o : shared) : list TransactionStateData -> ablock -> Prop :=
| left_doomed s : doomed s -> left_over o [s] Idle
| left_live l : live TBLOCK_INPROGRESS l -> left_over o l (Broken (saves_of l o))
| left_broken l : broken l -> left_over o l (Broken (saves_of l o)).

Definition session_ok (c : xstate) : Prop := good c /\ at_rest (stack c).

Lemma quiet_writes o o' xs : quiet o o' -> writes xs o' = writes xs o.
Proof. intros [_ _ E]. unfold writes. by rewrite E. Qed.
Lemma quiet_saves o o' l : quiet o o' -> saves_of l o' = saves_of l o.
Proof.
  intros H. induction l as [|s ps IH]; [done|]. cbn [saves_of]. destruct ps; [done|]. by rewrite IH, (quiet_writes _ _ _ H).
Qed.
Lemma quiet_committed o o' : quiet o o' -> committed_rows o' = committed_rows o.
Proof. intros [E1 _ E3]. unfold committed_rows. by rewrite E1, E3. Qed.
Lemma quiet_held o o' : quiet o o' -> held_rows o' = held_rows o.
Proof. intros H. unfold held_rows. rewrite (q_prepared _ _ H). apply list_fmap_ext. intros i p _. by rewrite (quiet_writes _ _ _ H). Qed.
Lemma quiet_left o o' l b : quiet o o' -> left_over o l b -> left_over o' l b.
Proof.
  intros H Hl. destruct Hl; rewrite <- ?(quiet_saves _ _ _ H); by constructor.
Qed.

(** Marking a level as done costs nothing that shows. *)
Lemma upd_block_wp b c s ps (Q : xstate -> xerror + unit -> Prop) :
  good c -> stack c = s :: ps -> (forall c', good c' -> out c' = out c -> frame c c' -> stack c' = set_block b s :: ps -> Q c' (inr tt)) ->
  xwp (upd (set_block b)) c Q.
Proof.
  intros Hg Hst HQ. pose proof Hst as [= Es Eps]. apply upd_wp. rewrite Es, Eps. apply HQ; try done.
  apply (good_kept c); try done. rewrite Hst. apply same_core_tail. by split.
Qed.

Lemma idle_after c s s' : good c -> stack c = [s'] -> ended s s' -> ts_name s = None ->
  xwp (upd (set_block TBLOCK_DEFAULT)) c (fun c' r => r = inr tt /\ good c' /\ out c' = out c /\ outer c c' /\
    exists s, stack c' = [s] /\ idle s /\ chain s = chain s').
Proof.
  intros Hg Hst (E1 & E2 & E3 & E4 & E5 & E6 & E7) Hname. eapply upd_block_wp; [done..|].
  intros c' Hg' Ho Hf Hst'. split; [done|]. split; [done|]. split; [done|]. split; [by apply frame_outer|].
  eexists. split; [done|]. split; [|done]. split; [done|]. cbn. by rewrite E1, E2, E3, E5.
Qed.

Lemma abort_cleanup_wp c s :
  good c -> stack c = [s] -> ts_state s <> TRANS_ABORT ->
  xwp (xbind AbortTransaction (fun _ => CleanupTransaction)) c (fun c' r => r = inr tt /\ good c' /\ quiet (out c) (out c') /\ outer c c' /\
    exists s', stack c' = [s'] /\ ended s s').
Proof.
  intros Hg Hst Hs. apply xwp_bind. eapply xwp_mono; [by eapply abort_wp|].
  intros c1 r (-> & Hg1 & Hq1 & Hf1 & s1 & Hst1 & Hs1). eapply xwp_mono; [eapply cleanup_top_wp; [done..|apply Hs1]|].
  intros c2 r (-> & Hg2 & Ho2 & Hf2 & s2 & Hst2 & Hs2). rewrite Ho2.
  split; [done|]. split; [done|]. split; [done|]. split; [eauto using outer_trans, frame_outer|].
  exists s2. split; [done|]. destruct Hs1 as (_ & E1 & E2 & E3 & E4), Hs2 as (H1 & H2 & H3 & H4 & H5 & H6 & H7).
  repeat (split; try congruence).
Qed.

Lemma abort_and_cleanup_wp c s :
  good c -> stack c = [s] -> ts_state s <> TRANS_ABORT -> ts_name s = None ->
  xwp abort_and_cleanup c (fun c' r => r = inr tt /\ good c' /\ quiet (out c) (out c') /\ outer c c' /\
    exists s', stack c' = [s'] /\ idle s').
Proof.
  intros Hg Hst Hs Hname. unfold abort_and_cleanup.
  assert (Hassoc : forall Q, xwp (xbind (xbind AbortTransaction (fun _ => CleanupTransaction)) (fun _ => upd (set_block TBLOCK_DEFAULT))) c Q ->
    xwp (xbind AbortTransaction (fun _ => xbind CleanupTransaction (fun _ => upd (set_block TBLOCK_DEFAULT)))) c Q).
  { intros Q. unfold xwp, xbind. by destruct (AbortTransaction c) as [c1 [|]]. }
  apply Hassoc, xwp_bind. eapply xwp_mono; [by eapply abort_cleanup_wp|]. intros c1 r (-> & Hg1 & Hq1 & Hf1 & s1 & Hst1 & Hs1).
  eapply xwp_mono; [by eapply idle_after|]. intros c2 r (-> & Hg2 & Ho2 & Hf2 & s2 & Hst2 & Hs2 & _).
  rewrite Ho2. eauto 10 using outer_trans.
Qed.

(** An error in a transaction block leaves a failed block; where the statement was to end the block,
    it ends without effect. *)
Lemma abort_current_step c b :
  good c -> left_over (out c) (stack c) b ->
  xwp AbortCurrentTransactionInternal c (fun c' r => r = inr true /\ session_ok c' /\ quiet (out c) (out c') /\ outer c c' /\
    block_of c' = b).
Proof.
  intros Hg Hl. unfold AbortCurrentTransactionInternal. apply xwp_get.
  remember (stack c) as l eqn:El. symmetry in El. destruct Hl as [s0 [Hd Hname]|l Hl|l Hr].
  - pose proof El as [= Es _]. rewrite Es.
    assert (Hend : forall c', good c' /\ quiet (out c) (out c') /\ outer c c' /\ (exists s', stack c' = [s'] /\ idle s') ->
       session_ok c' /\ quiet (out c) (out c') /\ outer c c' /\ block_of c' = Idle).
    { intros c' (Hg' & Hq' & Hf' & s' & Hst' & Hi'). split; [split; [done|rewrite Hst'; by constructor]|]. split; [done|]. split; [done|].
      unfold block_of. injection Hst' as -> _. by rewrite (proj1 Hi'). }
    destruct (blockState s0) eqn:Eb; try done;
      try (apply xwp_bind; eapply xwp_mono; [by eapply abort_and_cleanup_wp|]; intros c' r (-> & H); unfold xwp; cbn; split; [done|by apply Hend]).
    apply xwp_bind. eapply xwp_mono; [by eapply cleanup_top_wp|]. intros c1 r (-> & Hg1 & Ho1 & Hf1 & s1 & Hst1 & Hs1).
    apply xwp_bind. eapply xwp_mono; [by eapply idle_after|]. intros c2 r (-> & Hg2 & Ho2 & Hf2 & s2 & Hst2 & Hs2 & _).
    unfold xwp. cbn. split; [done|]. apply Hend. rewrite Ho2, Ho1. eauto 10 using outer_trans, quiet_refl.
  - destruct Hl as [s [R1 R2 R3] Hn _|s ps n [R1 R2 R3] Hn Hl]; pose proof El as [= Es Eps]; rewrite Es, R2.
    + apply xwp_bind. eapply xwp_mono; [eapply abort_wp; [done..|congruence]|]. intros c1 r (-> & Hg1 & Hq1 & Hf1 & s1 & Hst1 & Hs1).
      apply xwp_bind. eapply upd_block_wp; [done..|]. intros c2 Hg2 Ho2 Hf2 Hst2. unfold xwp. cbn. rewrite Ho2.
      destruct Hs1 as (E1 & E2 & E3 & _).
      split; [done|]. split; [split; [done|rewrite Hst2; apply rest_broken, broken_top; cbn; congruence]|]. split; [done|].
      split; [eauto using outer_trans, frame_outer|]. unfold block_of. rewrite Hst2. injection Hst2 as -> _. done.
    + apply xwp_bind. eapply xwp_mono; [eapply abort_sub_wp; [done..|congruence|by left]|]. intros c1 r (-> & Hg1 & Hq1 & Hf1 & s1 & Hst1 & Hs1).
      apply xwp_bind. eapply upd_block_wp; [done..|]. intros c2 Hg2 Ho2 Hf2 Hst2. unfold xwp. cbn. rewrite Ho2.
      destruct Hs1 as (E1 & E2 & E3 & _).
      split; [done|]. split; [split; [done|rewrite Hst2; apply rest_broken, (broken_sub _ _ n); cbn; try done; congruence]|]. split; [done|].
      split; [eauto using outer_trans, frame_outer|]. unfold block_of. rewrite Ho2, (quiet_saves _ _ _ Hq1), Hst2. injection Hst2 as -> _. cbn.
      f_equal. destruct ps; [by inversion Hl|]. by rewrite E3.
  - assert (Hb : blockState (CurrentTransactionState c) = TBLOCK_ABORT \/ blockState (CurrentTransactionState c) = TBLOCK_SUBABORT)
      by (destruct Hr; injection El as -> _; auto).
    assert (Hc : block_of c = Broken (saves_of l (out c))) by (unfold block_of; rewrite El; by destruct Hb as [-> | ->]).
    destruct Hb as [-> | ->]; unfold xwp; cbn; (split; [done|]); (split; [split; [done|rewrite El; by apply rest_broken]|]); done.
Qed.

(** ** The loops *)

Definition busy (s : TransactionStateData) : Prop := blockState s <> TBLOCK_DEFAULT.

(** A call of [f] takes the level off the stack and asks for another call. *)
Definition pops (f : X bool) (s : TransactionStateData) : Prop := forall c p ps,
  good c -> stack c = s :: p :: ps -> busy p ->
  xwp f c (fun c' r => r = inr false /\ good c' /\ quiet (out c) (out c') /\ frame c c' /\ stack c' = p :: ps).

Lemma until_pops f base Q : forall ds n c,
  good c -> stack c = ds ++ base -> base <> [] -> Forall busy (ds ++ base) -> Forall (pops f) ds -> (length ds < n)%nat ->
  (forall c', good c' -> quiet (out c) (out c') -> frame c c' -> stack c' = base ->
     xwp f c' (fun c'' r => match r with inr d => d = true /\ Q c'' (inr tt) | inl e => Q c'' (inl e) end)) ->
  xwp (until_true n f) c Q.
Proof.
  induction ds as [|s ds IH]; intros n c Hg Hst Hb Hbusy Hds Hn HQ; (destruct n as [|n]; [cbn in Hn; lia|]); cbn [until_true]; apply xwp_bind.
  - eapply xwp_mono; [by apply HQ|]. by intros c' [e|[]] H; [|destruct H..].
  - apply Forall_cons in Hds as [Hs Hds]. cbn in Hbusy. apply Forall_cons in Hbusy as [_ Hbusy]. assert (exists p ps, ds ++ base = p :: ps) as (p & ps & E) by (destruct ds, base; eauto; done).
    cbn in Hst. rewrite E in Hst. eapply xwp_mono; [eapply Hs; [done..|rewrite E in Hbusy; by inversion Hbusy]|]. intros c1 r (-> & Hg1 & Hq1 & Hf1 & Hst1).
    apply IH; [done|by rewrite E|done..|cbn in Hn; lia|].
    intros c2 Hg2 Hq2 Hf2 Hst2. apply HQ; eauto using quiet_trans, frame_trans.
Qed.

(** A step that ends with the stack popped. *)
Lemma pop_then c s p ps (f : X unit) (b : X bool) :
  xwp f c (fun c' r => r = inr tt /\ good c' /\ quiet (out c) (out c') /\ frame c c' /\ stack c' = p :: ps) ->
  (forall c', stack c' = p :: ps -> b c' = (c', inr s)) ->
  xwp (xbind f (fun _ => b)) c (fun c' r => r = inr s /\ good c' /\ quiet (out c) (out c') /\ frame c c' /\ stack c' = p :: ps).
Proof.
  intros H Hb. apply xwp_bind. eapply xwp_mono; [exact H|]. intros c' r (-> & Hg & Hq & Hf & Hst). unfold xwp. by rewrite Hb.
Qed.

Lemma drop_sub_assoc {A} (k : X A) c Q :
  xwp (xbind (xbind AbortSubTransaction (fun _ => CleanupSubTransaction)) (fun _ => k)) c Q ->
  xwp (xbind AbortSubTransaction (fun _ => xbind CleanupSubTransaction (fun _ => k))) c Q.
Proof. unfold xwp, xbind. by destruct (AbortSubTransaction c) as [c1 [|]]. Qed.

Lemma dropped_pops s : dropped s -> pops AbortCurrentTransactionInternal s.
Proof.
  intros Hd c p ps Hg Hst _. unfold AbortCurrentTransactionInternal. apply xwp_get. pose proof Hst as [= Es Eps]. rewrite Es.
  unfold dropped in Hd. destruct (blockState s); try done;
    try (destruct Hd; apply drop_sub_assoc, pop_then; [by eapply drop_sub_wp|done]); apply pop_then; [by eapply cleanup_sub_wp|done..|by eapply cleanup_sub_wp|done].
Qed.

Lemma live_nonempty b l : live b l -> l <> [].
Proof. by intros []. Qed.
Lemma live_busy b l : b <> TBLOCK_DEFAULT -> live b l -> Forall busy l.
Proof. intros Hb. induction 1 as [s [] ? ?|s ps n [] ? ? IH]; constructor; try done; unfold busy; congruence. Qed.

Lemma left_over_busy o l b : left_over o l b -> l <> [] /\ Forall busy l.
Proof.
  intros [s [H _]|l' H|l' H].
  - split; [done|]. constructor; [|constructor]. unfold busy. by destruct (blockState s).
  - split; [by eapply live_nonempty|by apply (live_busy TBLOCK_INPROGRESS)].
  - split; [by destruct H|]. destruct H as [s H1 H2|s ps n H1 H2 H3 H4]; constructor; try constructor; try (unfold busy; congruence).
    by apply (live_busy TBLOCK_INPROGRESS).
Qed.

Lemma abort_current_wp ds base b c :
  good c -> stack c = ds ++ base -> Forall dropped ds -> left_over (out c) base b ->
  xwp AbortCurrentTransaction c (fun c' r => r = inr tt /\ session_ok c' /\ quiet (out c) (out c') /\ outer c c' /\
    block_of c' = b).
Proof.
  intros Hg Hst Hds Hl. unfold AbortCurrentTransaction. apply xwp_get.
  destruct (left_over_busy _ _ _ Hl) as [Hne Hbusy].
  apply (until_pops _ base _ ds); [done..| | | |].
  - apply list.Forall_app. split; [|done]. eapply list.Forall_impl; [exact Hds|]. intros s H E. unfold dropped in H. by rewrite E in H.
  - eapply list.Forall_impl; [exact Hds|]. exact dropped_pops.
  - change (S (length (parents c))) with (length (stack c)). rewrite Hst, length_app. destruct base; [done|]. cbn. lia.
  - intros c1 Hg1 Hq1 Hf1 Hst1. eapply xwp_mono; [apply abort_current_step; [done|]|].
    + rewrite Hst1. by eapply quiet_left.
    + intros c2 r (-> & H1 & H2 & H3 & H4). eauto 10 using quiet_trans, outer_trans, frame_outer.
Qed.

(** ** The end of a session *)

(** Levels that [AbortOutOfAnyTransaction] finds. *)
Definition ends (s : TransactionStateData) : Prop :=
  match blockState s with
  | TBLOCK_SUBBEGIN | TBLOCK_SUBINPROGRESS | TBLOCK_SUBRELEASE | TBLOCK_SUBCOMMIT | TBLOCK_SUBABORT_PENDING
  | TBLOCK_SUBRESTART => ts_state s <> TRANS_ABORT /\ owned s
  | TBLOCK_SUBABORT | TBLOCK_SUBABORT_END | TBLOCK_SUBABORT_RESTART => ts_state s = TRANS_ABORT
  | _ => False
  end.
Definition ends_top (s : TransactionStateData) : Prop :=
  match blockState s with
  | TBLOCK_STARTED | TBLOCK_BEGIN | TBLOCK_INPROGRESS | TBLOCK_IMPLICIT_INPROGRESS | TBLOCK_END | TBLOCK_ABORT_PENDING
  | TBLOCK_PREPARE => ts_state s <> TRANS_ABORT
  | TBLOCK_ABORT | TBLOCK_ABORT_END => ts_state s = TRANS_ABORT
  | _ => False
  end /\ ts_name s = None.

Lemma ends_pops s : ends s -> pops abort_out_step s.
Proof.
  intros Hd c p ps Hg Hst Hp. unfold abort_out_step. apply xwp_get. pose proof Hst as [= Es Eps]. rewrite Es.
  assert (Hb : forall c', stack c' = p :: ps -> xbind block (fun b => xret (bool_decide (b = TBLOCK_DEFAULT))) c' = (c', inr false)).
  { intros c' [= E _]. unfold xbind, block, xget, xret. rewrite E. by rewrite bool_decide_eq_false_2. }
  unfold ends in Hd. destruct (blockState s); try done;
    first [destruct Hd; apply drop_sub_assoc, pop_then; [by eapply drop_sub_wp|done] | apply pop_then; [by eapply cleanup_sub_wp|done]].
Qed.

(** Whatever the state of the transaction, it ends without effect. *)
Lemma abort_out_wp ds s c :
  good c -> stack c = ds ++ [s] -> Forall ends ds -> ends_top s ->
  xwp AbortOutOfAnyTransaction c (fun c' r => r = inr tt /\ session_ok c' /\ quiet (out c) (out c') /\ outer c c' /\
    block_of c' = Idle).
Proof.
  intros Hg Hst Hds [Hs Hname]. unfold AbortOutOfAnyTransaction. apply xwp_get.
  assert (Hfin : forall c' s' c0, quiet (out c) (out c0) -> frame c c0 -> good c' -> quiet (out c0) (out c') -> outer c0 c' ->
    stack c' = [s'] -> idle s' -> session_ok c' /\ quiet (out c) (out c') /\ outer c c' /\ block_of c' = Idle).
  { intros c' s' c0 Hq0 Hf0 Hg' Hq' Hf' Hst' Hi. split; [split; [done|rewrite Hst'; by constructor]|].
    split; [by eapply quiet_trans|]. split; [eauto using outer_trans, frame_outer|]. unfold block_of. injection Hst' as -> _. by rewrite (proj1 Hi). }
  apply (until_pops _ [s] _ ds); [done..| | | |].
  - apply list.Forall_app. split; [|constructor; [|constructor]; unfold busy; by destruct (blockState s)].
    eapply list.Forall_impl; [exact Hds|]. intros s' H E. unfold ends in H. by rewrite E in H.
  - eapply list.Forall_impl; [exact Hds|]. exact ends_pops.
  - change (S (length (parents c))) with (length (stack c)). rewrite Hst, length_app. cbn. lia.
  - intros c1 Hg1 Hq1 Hf1 Hst1. unfold abort_out_step. apply xwp_get. pose proof Hst1 as [= Es _]. rewrite Es.
    destruct (blockState s) eqn:Eb; try done;
      try (apply xwp_bind; eapply xwp_mono; [by eapply abort_and_cleanup_wp|]; intros c2 r (-> & Hg2 & Hq2 & Hf2 & s2 & Hst2 & Hi2);
           unfold xwp; cbn; (split; [done|]); (split; [done|]); by eapply Hfin);
      (apply xwp_bind; eapply xwp_mono; [by eapply cleanup_top_wp|]; intros c2 r (-> & Hg2 & Ho2 & Hf2 & s2 & Hst2 & Hs2);
       apply xwp_bind; eapply xwp_mono; [by eapply idle_after|]; intros c3 r (-> & Hg3 & Ho3 & Hf3 & s3 & Hst3 & Hs3 & _);
       unfold xwp; cbn; (split; [done|]); (split; [done|]); eapply Hfin; [exact Hq1|done|done|by rewrite Ho3, Ho2|by eapply outer_trans|done|done]).
Qed.
End session.
