(* ===== verification/XactProg.v ===== *)
(** * Statements and their blocks

    What a statement that writes rows, fails, and runs blocks in subtransactions does to the
    transaction it runs in: the description of [XactSpec], whatever the depth of the
    blocks, and the savepoints of the transaction keep what they kept. *)
From S2P Require Import Prelude TransactionId Xact XactInv XactSpec.
Local Open Scope Z_scope.

Section session.
Context {ids : IdSupply}.

(** ** Statements inside a transaction *)

Definition work (c : xstate) : list Z := writes (stack_ids (stack c)) (out c).

Definition same_shape (s s' : TransactionStateData) : Prop :=
  ts_state s' = ts_state s /\ blockState s' = blockState s /\ ts_name s' = ts_name s /\
  curTransactionOwner s' = curTransactionOwner s /\ nestingLevel s' = nestingLevel s.

(** The stack and what the savepoints keep stay the same. *)
Record evolves (c c' : xstate) : Prop := {
  ev_good : good c';
  ev_shape : Forall2 same_shape (stack c) (stack c');
  ev_saves : saves_of (stack c') (out c') = saves_of (stack c) (out c);
  ev_db : committed_rows (out c') = committed_rows (out c);
  ev_held : held_rows (out c') = held_rows (out c);
  ev_outer : outer c c'
}.

Lemma same_shape_refl l : Forall2 same_shape l l.
Proof. by induction l; constructor. Qed.
Lemma same_shape_trans l1 l2 l3 : Forall2 same_shape l1 l2 -> Forall2 same_shape l2 l3 -> Forall2 same_shape l1 l3.
Proof.
  intros H. revert l3. induction H as [|s1 s2 l1 l2 Hs Hl IH]; intros l3 H3; [done|].
  apply Forall2_cons_inv_l in H3 as (s3 & l3' & Hs3 & Hl3 & ->). constructor; [|by apply IH].
  unfold same_shape in *. destruct Hs as (? & ? & ? & ? & ?), Hs3 as (? & ? & ? & ? & ?). repeat split; congruence.
Qed.

Lemma work_evolves_trans c1 c2 c3 : evolves c1 c2 -> evolves c2 c3 -> evolves c1 c3.
Proof.
  intros [A1 A2 A3 A4 A5 A6] [B1 B2 B3 B4 B5 B6].
  split; [done|by eapply same_shape_trans|congruence..|by eapply outer_trans].
Qed.

Lemma writes_ext xs ys o : (forall e, e ∈ rows o -> e.1 ∈ xs <-> e.1 ∈ ys) -> writes xs o = writes ys o.
Proof.
  intros H. unfold writes. f_equal. induction (rows o) as [|e l IH]; [done|].
  rewrite !filter_cons. rewrite IH by (intros e' He'; apply H; by right).
  specialize (H e ltac:(by left)). destruct (decide (e.1 ∈ xs)), (decide (e.1 ∈ ys)); tauto.
Qed.

Lemma grown_writes k l l' o :
  ids_nested l -> (forall e, e ∈ rows o -> used k e.1) -> Forall2 (grown k) l l' -> writes (stack_ids l') o = writes (stack_ids l) o.
Proof. intros Hn Hu Hl. apply writes_ext. intros e He. apply (grown_ids k); auto. Qed.

Lemma grown_saves k l l' o :
  ids_nested l -> (forall e, e ∈ rows o -> used k e.1) -> Forall2 (grown k) l l' -> saves_of l' o = saves_of l o.
Proof.
  intros Hn Hu Hl. induction Hl as [|s s' l l' Hs Hl IH]; [done|]. destruct Hn as (_ & _ & Hn).
  pose proof (grown_writes _ _ _ _ Hn Hu Hl) as Hw. cbn [saves_of]. destruct Hl; [done|].
  rewrite Hw, IH by done. by destruct Hs as [-> | (z & _ & -> & _)].
Qed.

Lemma grown_shape k l l' : Forall2 (grown k) l l' -> Forall2 same_shape l l'.
Proof. induction 1 as [|s s' l l' Hs Hl IH]; constructor; [|done]. by destruct Hs as [-> | (x & _ & -> & _)]. Qed.

(** Only ids were assigned. *)
Lemma grown_evolves c c' :
  good c -> good c' -> quiet (out c) (out c') -> outer c c' -> Forall2 (grown (id_calls c)) (stack c) (stack c') ->
  evolves c c' /\ work c' = work c.
Proof.
  intros Hg Hg' Hq Ho Hl. pose proof (g_ids _ Hg) as [H1 H2 H3 H4 H5 H6 H7 H8]. split.
  - split; [done|by eapply grown_shape| |by apply quiet_committed|by apply quiet_held|done].
    rewrite (quiet_saves _ _ _ Hq). by eapply grown_saves.
  - unfold work. rewrite (quiet_writes _ _ _ Hq). by eapply grown_writes.
Qed.

Definition add_row (x : TransactionId) (row : Z) (o : shared) : shared :=
  {| committed := committed o; aborted := aborted o; prepared := prepared o; subtrans := subtrans o; rows := rows o ++ [(x, row)] |}.

Lemma add_row_in xs x row o : x ∈ xs -> writes xs (add_row x row o) = writes xs o ++ [row].
Proof. intros H. unfold writes. cbn. rewrite filter_app, filter_cons_True by done. by rewrite fmap_app. Qed.
Lemma add_row_out xs x row o : x ∉ xs -> writes xs (add_row x row o) = writes xs o.
Proof. intros H. unfold writes. cbn. rewrite filter_app, filter_cons_False by done. by rewrite app_nil_r. Qed.

Lemma add_row_saves x row o l : (forall s ps, l = s :: ps -> x ∉ stack_ids ps) -> saves_of l (add_row x row o) = saves_of l o.
Proof.
  induction l as [|s ps IH]; [done|]. intros H. specialize (H s ps eq_refl). cbn [saves_of]. destruct ps as [|p ps]; [done|].
  rewrite add_row_out by done. rewrite IH; [done|]. intros s' ps' [= <- <-]. cbn [stack_ids] in H. set_solver.
Qed.

(** A row written with the id of the current level. *)
Lemma add_row_evolves c c' s ps row :
  good c -> stack c = s :: ps -> ts_state s <> TRANS_ABORT -> FullTransactionIdIsValid (fullTransactionId s) = true ->
  stack c' = stack c -> XactTopFullTransactionId c' = XactTopFullTransactionId c -> id_calls c' = id_calls c -> outer c c' ->
  out c' = add_row (XidFromFullTransactionId (fullTransactionId s)) row (out c) ->
  evolves c c' /\ work c' = work c ++ [row].
Proof.
  intros Hg Hst Hs Hv Est Etop Ecalls Hou Eout. pose proof (g_ids _ Hg) as Hok. set (x := XidFromFullTransactionId _) in *.
  assert (Hin : x ∈ ids_of s) by (unfold ids_of; rewrite decide_False, Hv by done; by left).
  rewrite Hst in Hok. destruct Hok as [H1 H2 H3 H4 H5 H6 H7 H8]. cbn [stack_ids] in H2, H6, H7, H8.
  assert (Hx : x ∈ stack_ids (s :: ps)) by (cbn [stack_ids]; apply elem_of_app; by right).
  destruct (ordered_app_l _ _ _ H2) as [_ Hdis].
  assert (Hu : used (id_calls c) x) by (eapply ordered_used; [exact H2|]; exact Hx).
  split; [split|].
  - split; [|rewrite (ou_par _ _ Hou); apply Hg]. rewrite Est, Etop, Ecalls, Eout, Hst. split; cbn; try done.
    intros e [He| ->%list_elem_of_singleton]%elem_of_app; [auto|done].
  - rewrite Est. apply same_shape_refl.
  - rewrite Est, Eout. apply add_row_saves. rewrite Hst. intros s' ps' [= <- <-] Hn. eauto.
  - rewrite Eout. unfold committed_rows. cbn. rewrite filter_app, filter_cons_False; [by rewrite app_nil_r|].
    cbn. intros Hc. destruct (H6 x Hc) as (_ & Hn & _). by apply Hn.
  - rewrite Eout. unfold held_rows. cbn. apply list_fmap_ext. intros i q Hq. f_equal. apply add_row_out. intros Hc.
    destruct (H8 q x ltac:(by eapply list_elem_of_lookup_2) Hc) as (_ & Hn & _). by apply Hn.
  - done.
  - unfold work. rewrite Est, Eout, Hst. by apply add_row_in.
Qed.

Lemma write_row_wp row c :
  good c -> alive (stack c) ->
  xwp (write_row new_id row) c (fun c' r => evolves c c' /\
    match r with inr _ => work c' = work c ++ [row] | inl e => e = ERROR NoTransactionId end).
Proof.
  intros Hg Ha. unfold write_row. apply xwp_bind. eapply xwp_mono; [by apply current_id_wp|].
  intros c1 [e|x] (Hg1 & Hq1 & Ho1 & _ & Hgr & Hr); destruct (grown_evolves _ _ Hg Hg1 Hq1 Ho1 Hgr) as [Hev Hw]; [done|].
  destruct Hr as [Hv ->]. unfold xwp. cbn.
  assert (Hs : ts_state (CurrentTransactionState c1) <> TRANS_ABORT).
  { apply grown_shape in Hgr. inversion Hgr as [|s s' l l' Hs Hl]; subst. destruct Hs as [-> _]. by inversion Ha. }
  destruct (add_row_evolves c1 (set_out (add_row (XidFromFullTransactionId (fullTransactionId (CurrentTransactionState c1))) row (out c1))
    (set_command (currentCommandId c1) true c1)) (CurrentTransactionState c1) (parents c1) row) as [Hev' Hw']; try done.
  split; [by eapply work_evolves_trans|]. by rewrite <- Hw.
Qed.

(** ** Blocks in a subtransaction *)

(** The states in which a statement runs. *)
Definition runs (s : TransactionStateData) : Prop :=
  running (blockState s) s /\
  match blockState s with TBLOCK_STARTED | TBLOCK_INPROGRESS | TBLOCK_IMPLICIT_INPROGRESS | TBLOCK_SUBINPROGRESS => True | _ => False end.

Lemma runs_alive s : runs s -> ts_state s <> TRANS_ABORT.
Proof. intros [[E _ _] _]. congruence. Qed.

Lemma same_shape_runs s s' : same_shape s s' -> runs s -> runs s'.
Proof. intros (E1 & E2 & E3 & E4 & E5) [[R1 R2 R3] H]. unfold runs. rewrite E2. split; [split; congruence|done]. Qed.

(** The first call of [CommitTransactionCommand] that has nothing more to do. *)
Lemma command_once_wp c (Q : xstate -> xerror + unit -> Prop) :
  xwp (CommitTransactionCommandInternal new_id) c (fun c' r => match r with inr d => d = true /\ Q c' (inr tt) | inl e => Q c' (inl e) end) ->
  xwp (CommitTransactionCommand new_id) c Q.
Proof.
  intros H. unfold CommitTransactionCommand. apply xwp_get. cbn [until_true]. apply xwp_bind.
  eapply xwp_mono; [exact H|]. by intros c' [e|[]] Hr; [|destruct Hr..].
Qed.

(** A level that was just pushed starts. *)
Lemma start_sub_wp c s ps :
  good c -> stack c = s :: ps -> fresh_level TBLOCK_SUBBEGIN s ->
  xwp (CommitTransactionCommand new_id) c (fun c' r => r = inr tt /\ good c' /\ out c' = out c /\ frame c c' /\
    exists s', stack c' = s' :: ps /\ running TBLOCK_SUBINPROGRESS s' /\ ts_name s' = ts_name s /\
      fullTransactionId s' = InvalidFullTransactionId /\ childXids s' = []).
Proof.
  intros Hg Hst [F1 F2 F3 F4 F5]. pose proof Hst as [= Es Eps]. apply command_once_wp.
  unfold CommitTransactionCommandInternal. apply xwp_get. unfold id. rewrite Es, F4. unfold xwp. cbn. rewrite Es, Eps.
  split; [done|]. split; [done|]. split; [|split; [done|split; [done|]]].
  - apply (good_kept c); try done. rewrite Hst. apply same_core_tail. split; try done. cbn. rewrite F5. done.
  - eexists. split; [done|]. done.
Qed.

Lemma xwp_exit m c (Q : xstate -> xerror + unit -> Prop) :
  xwp m c (fun c' r => Q c' (match r with inl (ERROR e) => inl (FATAL e) | r => r end)) -> xwp (exit_on_error m) c Q.
Proof. unfold xwp, exit_on_error. by destruct (m c) as [c' [[e|e]|[]]]. Qed.

Lemma xwp_catch m h c (Q : xstate -> xerror + unit -> Prop) :
  xwp m c (fun c' r => match r with inl (ERROR e) => xwp (h e) c' Q | r => Q c' r end) -> xwp (catch_error m h) c Q.
Proof. unfold xwp, catch_error. by destruct (m c) as [c' [[e|e]|[]]]. Qed.

Lemma begin_internal_wp c s ps :
  good c -> stack c = s :: ps -> runs s ->
  xwp (BeginInternalSubTransaction new_id None) c (fun c' r => good c' /\ out c' = out c /\ frame c c' /\
    match r with
    | inr _ => exists s', stack c' = s' :: stack c /\ running TBLOCK_SUBINPROGRESS s' /\
        fullTransactionId s' = InvalidFullTransactionId /\ childXids s' = []
    | inl e => e = FATAL LimitExceeded /\ stack c' = stack c
    end).
Proof.
  intros Hg Hst [_ Hr]. apply xwp_exit, xwp_get. pose proof Hst as [= Es _]. rewrite Es.
  pose proof (push_wp _ Hg) as Hp.
  destruct (blockState s); try done; apply xwp_bind, xwp_bind; (eapply xwp_mono; [exact Hp|]);
    (intros c1 [e|[]] (Ho1 & Hf1 & Hg1 & H1); [by destruct H1 as [-> H1]|]); destruct H1 as (s1 & Hst1 & Hs1);
    unfold xwp at 1; cbn [fst snd xret]; apply xwp_bind; (eapply xwp_mono; [by eapply start_sub_wp|]);
    intros c2 r (-> & Hg2 & Ho2 & Hf2 & s2 & Hst2 & [R1 R2 R3] & _ & Hid); pose proof Hst2 as [= Es2 _];
    unfold xwp, StartTransactionCommand, xbind, block, xget; rewrite Es2, R2; cbn; rewrite Ho2; eauto 10 using frame_trans, Build_running.
Qed.

(** A subtransaction that can be released or rolled back. *)
Definition in_sub (s : TransactionStateData) : Prop :=
  blockState s = TBLOCK_SUBINPROGRESS /\ ts_state s <> TRANS_ABORT /\ curTransactionOwner s = true.

Lemma release_wp c s p ps :
  good c -> stack c = s :: p :: ps -> in_sub s -> ts_state p <> TRANS_ABORT ->
  xwp ReleaseCurrentSubTransaction c (fun c' r => good c' /\ out c' = out c /\ frame c c' /\
    match r with
    | inr _ => stack c' = merge s p :: ps
    | inl e => e = ERROR LimitExceeded /\ stack c' = set_state TRANS_COMMIT s :: p :: ps
    end).
Proof.
  intros Hg Hst (R1 & R2 & R3) Hp. apply xwp_get. pose proof Hst as [= Es _]. rewrite Es, R1, decide_True by done.
  by apply commit_sub_wp.
Qed.

Lemma rollback_release_wp c s p ps :
  good c -> stack c = s :: p :: ps -> in_sub s ->
  xwp RollbackAndReleaseCurrentSubTransaction c (fun c' r => r = inr tt /\ good c' /\ quiet (out c) (out c') /\ frame c c' /\ stack c' = p :: ps).
Proof.
  intros Hg Hst (R1 & R2 & R3). apply xwp_get. pose proof Hst as [= Es _]. rewrite Es, R1. eapply drop_sub_wp; [done..|by left].
Qed.

(** ** Statements with nested blocks *)

(** An error that ends the session left the transaction at some depth. *)
Record fatal (c c' : xstate) : Prop := {
  fa_good : good c';
  fa_db : committed_rows (out c') = committed_rows (out c);
  fa_held : held_rows (out c') = held_rows (out c);
  fa_outer : outer c c';
  fa_stack : exists ds l, stack c' = ds ++ l /\ Forall ends ds /\ Forall2 same_shape (stack c) l
}.

Lemma saves_cons s p ps o :
  saves_of (s :: p :: ps) o = (default EmptyString (ts_name s), writes (stack_ids (p :: ps)) o) :: saves_of (p :: ps) o.
Proof. done. Qed.

(** A block begins, its body runs. *)
Record in_block (c c1 : xstate) (s1 : TransactionStateData) (l1 : list TransactionStateData) : Prop := {
  ib_good : good c1;
  ib_stack : stack c1 = s1 :: l1;
  ib_top : in_sub s1;
  ib_shape : Forall2 same_shape (stack c) l1;
  ib_work : writes (stack_ids l1) (out c1) = work c;
  ib_saves : saves_of l1 (out c1) = saves_of (stack c) (out c);
  ib_db : committed_rows (out c1) = committed_rows (out c);
  ib_held : held_rows (out c1) = held_rows (out c);
  ib_outer : outer c c1
}.

Lemma enter_block c c0 s0 :
  good c0 -> out c0 = out c -> frame c c0 -> stack c0 = s0 :: stack c -> running TBLOCK_SUBINPROGRESS s0 ->
  fullTransactionId s0 = InvalidFullTransactionId -> in_block c c0 s0 (stack c) /\ work c0 = work c.
Proof.
  intros Hg Ho Hf Hst Hs Hv. split.
  - split; try done; rewrite ?Ho; try done; [destruct Hs; split; [done|]; split; [congruence|done]|apply same_shape_refl|by apply frame_outer].
  - unfold work. rewrite Hst, Ho. cbn [stack_ids]. unfold ids_of. rewrite Hv.
    rewrite decide_False by (rewrite (ru_state _ _ Hs); done). by rewrite app_nil_r.
Qed.

Lemma evolve_block c c0 c1 s0 l0 : in_block c c0 s0 l0 -> evolves c0 c1 -> exists s1 l1, in_block c c1 s1 l1.
Proof.
  intros [B1 B2 (R1 & R2 & R3) B4 B5 B6 B7 B8 B9] [E1 E2 E3 E4 E5 E6]. rewrite B2 in E2, E3.
  apply Forall2_cons_inv_l in E2 as (s1 & l1 & (S1 & S2 & S3 & S4 & S5) & Hl & Hst). rewrite Hst in E3.
  pose proof (same_shape_trans _ _ _ B4 Hl) as Hl'. destruct l1 as [|p ps]; [by inversion Hl'|]. destruct l0; [by inversion Hl|].
  rewrite !saves_cons in E3. inversion E3.
  exists s1, (p :: ps). split; try done; try congruence; [split; [congruence|]; split; congruence|by eapply outer_trans].
Qed.

Lemma leave_block c c1 c2 s1 l1 :
  in_block c c1 s1 l1 -> good c2 -> quiet (out c1) (out c2) -> frame c1 c2 -> stack c2 = l1 -> evolves c c2 /\ work c2 = work c.
Proof.
  intros [B1 B2 B3 B4 B5 B6 B7 B8 B9] Hg Hq Hf Hst. split.
  - split; rewrite ?Hst, ?(quiet_saves _ _ _ Hq), ?(quiet_committed _ _ Hq), ?(quiet_held _ _ Hq); try done.
    by eapply outer_trans, frame_outer.
  - unfold work. by rewrite Hst, (quiet_writes _ _ _ Hq).
Qed.

Lemma merge_block c c1 c2 s1 p ps :
  in_block c c1 s1 (p :: ps) -> ts_state p <> TRANS_ABORT -> good c2 -> out c2 = out c1 -> frame c1 c2 ->
  stack c2 = merge s1 p :: ps -> evolves c c2 /\ work c2 = work c1.
Proof.
  intros [B1 B2 B3 B4 B5 B6 B7 B8 B9] Hp Hg Ho Hf Hst. split.
  - split; rewrite ?Ho; try done.
    + rewrite Hst. apply Forall2_cons_inv_r in B4 as (s & l & Hs & Hl & ->). constructor; [|done].
      unfold merge. destruct (FullTransactionIdIsValid _); [|done]. done.
    + rewrite Hst, <- B6. cbn [saves_of]. destruct ps; [done|]. unfold merge. by destruct (FullTransactionIdIsValid _).
    + by eapply outer_trans, frame_outer.
  - unfold work. rewrite Hst, Ho, B2, merge_ids; try done; [apply B3|].
    rewrite <- B2. apply (io_nested _ _ _ _ (g_ids _ B1)).
Qed.

Lemma same_shape_alive l l' : Forall2 same_shape l l' -> alive l -> alive l'.
Proof. induction 1 as [|s s' l l' (E & _) Hl IH]; intros Ha; [constructor|]. inversion Ha; subst. constructor; [congruence|by apply IH]. Qed.

Lemma runs_evolves c c' : evolves c c' -> alive (stack c) -> runs (CurrentTransactionState c) -> alive (stack c') /\ runs (CurrentTransactionState c').
Proof.
  intros [_ Hsh _ _ _ _] Ha Hr. split; [by eapply same_shape_alive|]. inversion Hsh; subst. by eapply same_shape_runs.
Qed.

Lemma evolves_refl c : good c -> evolves c c.
Proof. intros Hg. split; try done. apply same_shape_refl. Qed.

Lemma evolves_fatal c c1 c2 : evolves c c1 -> fatal c1 c2 -> fatal c c2.
Proof.
  intros [E1 E2 E3 E4 E5 E6] [F1 F2 F3 F4 (ds & l & F5 & F6 & F7)]. split; try done; try congruence; [by eapply outer_trans|].
  exists ds, l. split; [done|]. split; [done|]. by eapply same_shape_trans.
Qed.

Lemma block_fatal c c0 c1 s0 l0 : in_block c c0 s0 l0 -> fatal c0 c1 -> fatal c c1.
Proof.
  intros [B1 B2 (R1 & R2 & R3) B4 B5 B6 B7 B8 B9] [F1 F2 F3 F4 (ds & l & F5 & F6 & F7)]. rewrite B2 in F7.
  apply Forall2_cons_inv_l in F7 as (s1 & l1 & (S1 & S2 & S3 & S4 & S5) & Hl & ->).
  split; try done; try congruence; [by eapply outer_trans|]. exists (ds ++ [s1]), l1.
  split; [by rewrite F5, <- app_assoc|]. split; [|by eapply same_shape_trans].
  apply list.Forall_app. split; [done|]. constructor; [|constructor]. unfold ends, owned. rewrite S1, S2, S4, R1, R3. split; [done|by left].
Qed.

(** The body of a block failed, or the block could not be released. *)
Definition undone (body : prog) (w : list Z) (e : reason) : Prop :=
  prog_spec body w (Error e) \/ e = LimitExceeded /\ exists w', prog_spec body w (Fine w').

Definition prog_wp (p : prog) (c : xstate) : Prop :=
  xwp (run_prog new_id p) c (fun c' r =>
    match r with
    | inr _ => evolves c c' /\ prog_spec p (work c) (Fine (work c'))
    | inl (ERROR e) => evolves c c' /\ prog_spec p (work c) (Error e)
    | inl (FATAL e) => fatal c c' /\ prog_spec p (work c) (Fatal e)
    end).

Lemma undo_block_wp (caught : bool) e c c1 s1 l1 :
  in_block c c1 s1 l1 ->
  xwp (xbind RollbackAndReleaseCurrentSubTransaction (fun _ => if caught then xret tt else throw (ERROR e))) c1
    (fun c' r => evolves c c' /\ work c' = work c /\ r = if caught then inr tt else inl (ERROR e)).
Proof.
  intros Hb. pose proof Hb as [B1 B2 (R1 & R2 & R3) B4 _ _ _ _ _]. destruct l1 as [|p ps]; [by inversion B4|].
  apply xwp_bind. eapply xwp_mono; [by eapply rollback_release_wp|].
  intros c2 r (-> & Hg2 & Hq2 & Hf2 & Hst2). destruct (leave_block _ _ _ _ _ Hb Hg2 Hq2 Hf2 Hst2). by destruct caught.
Qed.

Lemma block_wp body (caught : bool) c c0 s0 :
  alive (stack c) -> in_block c c0 s0 (stack c) -> work c0 = work c -> prog_wp body c0 ->
  xwp (catch_error (xbind (run_prog new_id body) (fun _ => ReleaseCurrentSubTransaction))
         (fun r => xbind RollbackAndReleaseCurrentSubTransaction (fun _ => if caught then xret tt else throw (ERROR r)))) c0
    (fun c' r => match r with
     | inr _ => evolves c c' /\ (prog_spec body (work c) (Fine (work c')) \/
                                 caught = true /\ work c' = work c /\ exists e, undone body (work c) e)
     | inl (ERROR e) => evolves c c' /\ caught = false /\ undone body (work c) e
     | inl (FATAL e) => fatal c c' /\ prog_spec body (work c) (Fatal e)
     end).
Proof.
  intros Ha Hb0 Hw0 IH. apply xwp_catch, xwp_bind. rewrite <- Hw0. unfold prog_wp in IH. eapply xwp_mono; [exact IH|].
  assert (Hundo : forall e c1 s1 l1, in_block c c1 s1 l1 -> undone body (work c0) e ->
    xwp (xbind RollbackAndReleaseCurrentSubTransaction (fun _ => if caught then xret tt else throw (ERROR e))) c1
    (fun c' r => match r with
     | inr _ => evolves c c' /\ (prog_spec body (work c0) (Fine (work c')) \/
                                 caught = true /\ work c' = work c0 /\ exists e, undone body (work c0) e)
     | inl (ERROR e) => evolves c c' /\ caught = false /\ undone body (work c0) e
     | inl (FATAL e) => fatal c c' /\ prog_spec body (work c0) (Fatal e)
     end)).
  { intros e c1 s1 l1 Hb1 He. eapply xwp_mono; [by eapply undo_block_wp|]. rewrite Hw0 in *.
    intros c2 r (Hev & Hw & ->). destruct caught; split; try done. right. eauto. }
  intros c1 [[e|e]|[]] [H1 H1'].
  - destruct (evolve_block _ _ _ _ _ Hb0 H1) as (s1 & l1 & Hb1). eapply Hundo; [done|by left].
  - split; [by eapply block_fatal|done].
  - destruct (evolve_block _ _ _ _ _ Hb0 H1) as (s1 & l1 & Hb1). pose proof Hb1 as [B1 B2 B3 B4 _ _ _ _ _].
    apply (same_shape_alive _ _ B4) in Ha. destruct l1 as [|p ps]; [by inversion B4|]. apply Forall_cons in Ha as [Hp _].
    eapply xwp_mono; [by eapply release_wp|]. intros c2 [e|[]] (Hg2 & Ho2 & Hf2 & H2).
    + destruct H2 as [-> Hst2]. eapply (Hundo _ c2 (set_state TRANS_COMMIT s1) (p :: ps)); [|by right; eauto].
      destruct Hb1 as [C1 C2 (C3 & C4 & C5) C6 C7 C8 C9 C10 C11]. split; rewrite ?Ho2; try done. by eapply outer_trans, frame_outer.
    + destruct (merge_block c c1 c2 s1 p ps) as [Hev Hw]; try done. split; [done|]. left. by rewrite Hw.
Qed.

Lemma run_prog_wp p : forall c, good c -> alive (stack c) -> runs (CurrentTransactionState c) -> prog_wp p c.
Proof.
  induction p as [|row k IH| |body IHb caught k IHk]; intros c Hg Ha Hr; unfold prog_wp; cbn [run_prog prog_spec].
  - split; [by apply evolves_refl|done].
  - apply xwp_bind. eapply xwp_mono; [by apply write_row_wp|]. intros c1 [e|[]] [Hev H1]; [subst e; auto|].
    destruct (runs_evolves _ _ Hev Ha Hr) as [Ha1 Hr1]. specialize (IH c1 (ev_good _ _ Hev) Ha1 Hr1). unfold prog_wp in IH.
    eapply xwp_mono; [exact IH|]. rewrite H1. intros c2 [[e|e]|[]] [H2 H2']; eauto using work_evolves_trans, evolves_fatal.
  - split; [by apply evolves_refl|done].
  - apply xwp_bind. eapply xwp_mono; [by eapply begin_internal_wp|]. intros c0 [e|[]] (Hg0 & Ho0 & Hf0 & H0).
    { destruct H0 as [-> Hst0]. split; [|by left]. split; rewrite ?Ho0; try done; [by apply frame_outer|].
      exists [], (stack c). split; [done|]. split; [constructor|apply same_shape_refl]. }
    destruct H0 as (s0 & Hst0 & Hs0 & Hid0 & _). destruct (enter_block c c0 s0) as [Hb0 Hw0]; try done.
    pose proof Hst0 as [= Es0 Eps0]. apply xwp_bind. eapply xwp_mono; [apply (block_wp body caught c c0 s0); try done|].
    { apply IHb; [done| |].
      - rewrite Hst0. constructor; [rewrite (ru_state _ _ Hs0); done|done].
      - rewrite Es0. destruct Hs0 as [R1 R2 R3]. unfold runs. rewrite R2. done. }
    intros c1 [[e|e]|[]] [H1 H1'].
    + split; [done|]. destruct H1' as [-> H1']. right. right. left. eauto.
    + split; [done|]. eauto 10.
    + destruct (runs_evolves _ _ H1 Ha Hr) as [Ha1 Hr1]. specialize (IHk c1 (ev_good _ _ H1) Ha1 Hr1). unfold prog_wp in IHk.
      eapply xwp_mono; [exact IHk|].
      assert (Hk : forall r, prog_spec k (work c1) r -> prog_spec (PBlock body caught k) (work c) r).
      { intros r Hk. cbn [prog_spec]. destruct H1' as [H1'|(-> & Hw & e & He)]; [eauto 10|]. rewrite Hw in Hk. right. right. left. eauto. }
      intros c2 [[e|e]|[]] [H2 H2']; split; eauto using work_evolves_trans, evolves_fatal; by apply Hk.
Qed.
End session.
