(* ===== verification/XactEnd.v ===== *)
(** * The end of a transaction block

    [COMMIT], [ROLLBACK] and [PREPARE TRANSACTION] at any depth of savepoints: the
    stack is marked by one command and taken down by the loops of [CommitTransactionCommand];
    the loops end, and the block ends as the description of [XactSpec] says or fails without effect. *)
From stdpp Require Import gmultiset.
From S2P Require Import Prelude TransactionId Xact XactInv XactSpec XactProg.
Local Open Scope Z_scope.

Section session.
Context {ids : IdSupply}.

(** ** Ending the top level *)

Lemma committed_union xs o :
  (forall x, x ∈ xs -> x ∉ committed o) ->
  committed_rows (mark_committed xs o) = committed_rows o ⊎ list_to_set_disj (writes xs o).
Proof.
  intros Hd. unfold committed_rows, writes. cbn. induction (rows o) as [|[x r] l IH]; [symmetry; apply (right_id_L ∅ (⊎))|].
  rewrite !filter_cons. cbn [fst]. destruct (decide (x ∈ xs)) as [Hx|Hx].
  - rewrite decide_True by set_solver. rewrite (decide_False (P := x ∈ committed o)) by auto. rewrite !fmap_cons, !list_to_set_disj_cons, IH. multiset_solver.
  - destruct (decide (x ∈ committed o)) as [Hc|Hc].
    + rewrite decide_True by set_solver. rewrite !fmap_cons, !list_to_set_disj_cons, IH. multiset_solver.
    + rewrite decide_False by set_solver. exact IH.
Qed.

Lemma start_transaction_wp c s (Q : xstate -> xerror + unit -> Prop) :
  good c -> stack c = [s] -> idle s ->
  (forall c' s', good c' -> out c' = out c -> outer c c' -> stack c' = [s'] -> running TBLOCK_DEFAULT s' -> ts_name s' = None ->
     nestingLevel s' = 1 -> fullTransactionId s' = InvalidFullTransactionId -> childXids s' = [] -> Q c' (inr tt)) ->
  xwp StartTransaction c Q.
Proof.
  intros Hg Hst (I1 & I2 & I3 & I4 & I5) HQ. pose proof Hst as [= Es Eps]. unfold xwp, StartTransaction, xmod. cbn.
  rewrite Es, Eps. eapply HQ; try done.
  apply (good_frame c); [done| |done]. cbn. pose proof (g_ids _ Hg) as H. rewrite Hst in H.
  pose proof (io_top _ _ _ _ H) as Ht. cbn in Ht. rewrite <- Ht, I4. eapply ids_ok_reset; [..|exact H]; try done.
  unfold ids_of. rewrite I4. by destruct (decide _).
Qed.

(** The session a state shows, once it is at rest with block [b]. *)
Definition shows (c c' : xstate) (a : asession) : Prop := session_ok c' /\ outer c c' /\ abs c' = a.

Lemma abs_quiet c c' : quiet (out c) (out c') -> abs c' = set_blk (block_of c') (abs c).
Proof. intros H. unfold abs, set_blk. cbn. by rewrite (quiet_committed _ _ H), (quiet_held _ _ H). Qed.

Lemma writes_nil o : writes [] o = [].
Proof. unfold writes. induction (rows o) as [|e l IH]; [done|]. rewrite filter_cons_False by set_solver. done. Qed.

Lemma end_block_wp tc c s s' :
  good c -> stack c = [s'] -> ended s s' -> ts_name s = None ->
  xwp (xbind (end_block tc) (fun _ => xret true)) c (fun c' r => r = inr true /\ session_ok c' /\ out c' = out c /\ outer c c' /\
    block_of c' = next_block (chain s)).
Proof.
  intros Hg Hst Hend Hname. assert (Hch : chain s' = chain s) by apply Hend. unfold end_block.
  apply xwp_bind, xwp_bind. eapply xwp_mono; [by eapply idle_after|]. intros c1 r (-> & Hg1 & Ho1 & Hou1 & s1 & Hst1 & Hi1 & Hch1).
  apply xwp_get. pose proof Hst1 as [= Es1 _]. rewrite Es1, Hch1, Hch. destruct (chain s).
  - apply xwp_bind. eapply start_transaction_wp; [done..|]. intros c2 s2 Hg2 Ho2 Hou2 Hst2 [R1 R2 R3] Hn2 Hl2 Hf2 Hc2.
    pose proof Hst2 as [= Es2 Eps2]. unfold xwp. cbn. rewrite Es2, Eps2. split; [done|].
    split; [split|split; [congruence|split; [by destruct (outer_trans _ _ _ Hou1 Hou2)|]]].
    + eapply (good_kept c2); try done. rewrite Hst2. by apply same_core_tail.
    + apply rest_open. by apply live_top.
    + unfold block_of, stack. cbn. unfold ids_of. cbn. rewrite Hf2, R1, decide_False by done. cbn. by rewrite writes_nil.
  - unfold xwp. cbn. split; [done|]. split; [split; [done|rewrite Hst1; by apply rest_idle]|]. split; [done|]. split; [done|].
    unfold block_of. by rewrite Es1, (proj1 Hi1).
Qed.

(** A top level that is to commit. *)
Lemma top_commit_wp (k : X bool) b c s :
  good c -> stack c = [s] -> ts_state s <> TRANS_ABORT -> ts_name s = None ->
  (forall c1 s', good c1 -> stack c1 = [s'] -> ended s s' -> xwp k c1 (fun c' r => r = inr true /\ session_ok c' /\ out c' = out c1 /\ outer c1 c' /\
     block_of c' = b)) ->
  xwp (xbind CommitTransaction (fun _ => k)) c (fun c' r =>
    match r with
    | inr d => d = true /\ shows c c' (commit_work (work c) b (abs c))
    | inl e => e = ERROR StatementFailed /\ c' = c
    end).
Proof.
  intros Hg Hst Hs Hname Hk. apply xwp_bind. eapply xwp_mono; [by eapply commit_wp|].
  intros c1 [e|[]] (Hg1 & Hou1 & H1); [by destruct H1|]. destruct H1 as (Ho1 & s1 & Hst1 & Hend).
  eapply xwp_mono; [by eapply Hk|]. intros c2 r (-> & Hok2 & Ho2 & Hou2 & Hb2). split; [done|]. split; [done|]. split; [by eapply outer_trans|].
  unfold abs, commit_work. cbn. rewrite Hb2, Ho2, Ho1. f_equal. unfold work. rewrite Hst. cbn [stack_ids].
  apply committed_union. intros x Hx Hc. destruct (io_committed _ _ _ _ (g_ids _ Hg) x Hc) as (_ & Hn & _).
  rewrite Hst in Hn. by apply Hn.
Qed.

(** One that is to be rolled back. *)
Lemma top_rollback_wp tc c s :
  good c -> stack c = [s] -> ts_state s <> TRANS_ABORT -> ts_name s = None ->
  xwp (xbind AbortTransaction (fun _ => xbind CleanupTransaction (fun _ => xbind (end_block tc) (fun _ => xret true)))) c
    (fun c' r => r = inr true /\ shows c c' (set_blk (next_block (chain s)) (abs c))).
Proof.
  intros Hg Hst Hs Hname. apply xwp_bind. eapply xwp_mono; [by eapply abort_wp|].
  intros c1 r (-> & Hg1 & Hq1 & Hf1 & s1 & Hst1 & E1 & E2 & E3 & E4 & E5). apply xwp_bind. eapply xwp_mono; [by eapply cleanup_top_wp|].
  intros c2 r (-> & Hg2 & Ho2 & Hou2 & s2 & Hst2 & Hend2).
  eapply xwp_mono; [eapply end_block_wp; [done..|congruence]|]. intros c3 r (-> & Hok3 & Ho3 & Hou3 & Hb3).
  split; [done|]. split; [done|]. split; [eauto using outer_trans, frame_outer|]. rewrite (abs_quiet c), Hb3, E4; [done|]. by rewrite Ho3, Ho2.
Qed.

Lemma top_cleanup_wp tc c s :
  good c -> stack c = [s] -> ts_state s = TRANS_ABORT -> ts_name s = None ->
  xwp (xbind CleanupTransaction (fun _ => xbind (end_block tc) (fun _ => xret true))) c
    (fun c' r => r = inr true /\ shows c c' (set_blk (next_block (chain s)) (abs c))).
Proof.
  intros Hg Hst Hs Hname. apply xwp_bind. eapply xwp_mono; [by eapply cleanup_top_wp|].
  intros c2 r (-> & Hg2 & Ho2 & Hou2 & s2 & Hst2 & Hend2).
  eapply xwp_mono; [by eapply end_block_wp|]. intros c3 r (-> & Hok3 & Ho3 & Hou3 & Hb3).
  split; [done|]. split; [done|]. split; [by eapply outer_trans|]. rewrite (abs_quiet c), Hb3; [done|]. by rewrite Ho3, Ho2.
Qed.

Lemma set_default_wp c s s' :
  good c -> stack c = [s'] -> ended s s' -> ts_name s = None ->
  xwp (xbind (upd (set_block TBLOCK_DEFAULT)) (fun _ => xret true)) c (fun c' r => r = inr true /\ session_ok c' /\ out c' = out c /\ outer c c' /\
    block_of c' = Idle).
Proof.
  intros Hg Hst Hend Hname. apply xwp_bind. eapply xwp_mono; [by eapply idle_after|].
  intros c1 r (-> & Hg1 & Ho1 & Hou1 & s1 & Hst1 & Hi1 & _). pose proof Hst1 as [= Es1 _]. unfold xwp. cbn.
  split; [done|]. split; [split; [done|rewrite Hst1; by apply rest_idle]|]. split; [done|]. split; [done|].
  unfold block_of. by rewrite Es1, (proj1 Hi1).
Qed.

(** One that is to be prepared. *)
Lemma top_prepare_wp gid c s :
  good c -> stack c = [s] -> ts_state s <> TRANS_ABORT -> ts_name s = None -> prepareGID c = Some gid ->
  xwp (xbind (PrepareTransaction new_id) (fun _ => xbind (upd (set_block TBLOCK_DEFAULT)) (fun _ => xret true))) c (fun c' r =>
    match r with
    | inr d => d = true /\ shows c c' (hold_work gid (work c) Idle (abs c))
    | inl e => (e = ERROR StatementFailed \/ e = ERROR NoTransactionId) /\ evolves c c'
    end).
Proof.
  intros Hg Hst Hs Hname Hgid. apply xwp_bind. eapply xwp_mono; [by eapply prepare_wp|].
  intros c1 [e|[]] (Hg1 & Hou1 & H1).
  { destruct H1 as (He & Hq & Hgr). split; [done|]. by eapply grown_evolves. }
  destruct H1 as (xs & s1 & o & Hq & Ho1 & Hxs & Hst1 & Hend).
  eapply xwp_mono; [by eapply set_default_wp|]. intros c2 r (-> & Hok2 & Ho2 & Hou2 & Hb2). split; [done|]. split; [done|]. split; [by eapply outer_trans|].
  unfold abs, hold_work. cbn. rewrite Hb2, Ho2, Ho1. f_equal.
  - apply (quiet_committed _ _ Hq).
  - unfold held_rows. rewrite Hgid. cbn. f_equal; [f_equal|].
    + unfold work. rewrite Hst. cbn [stack_ids]. rewrite <- (quiet_writes _ _ _ Hq). apply writes_ext. intros e He. apply Hxs.
      apply (io_rows _ _ _ _ (g_ids _ Hg)). rewrite <- (q_rows _ _ Hq). exact He.
    + apply (quiet_held _ _ Hq).
Qed.

(** ** Committing the levels of savepoints *)

(** A level that commits into its parent. *)
Definition merging (b : TBlockState) (s : TransactionStateData) : Prop :=
  blockState s = b /\ ts_state s <> TRANS_ABORT /\ curTransactionOwner s = true.

Lemma merge_shape s p : same_shape p (merge s p) /\ chain (merge s p) = chain p.
Proof. unfold merge. by destruct (FullTransactionIdIsValid _). Qed.

Lemma merging_merge b s p : merging b p -> merging b (merge s p).
Proof. intros (H1 & H2 & H3). destruct (merge_shape s p) as [(E1 & E2 & _ & E4 & _) _]. split; [congruence|]. split; congruence. Qed.

Lemma commit_subs_wp b p ps : blockState p <> b -> ts_state p <> TRANS_ABORT -> forall ds s n c,
  good c -> stack c = s :: ds ++ p :: ps -> Forall (merging b) (s :: ds) -> (length ds < n)%nat ->
  xwp (commit_subs n b) c (fun c' r => good c' /\ out c' = out c /\ frame c c' /\
    match r with
    | inr _ => exists p', stack c' = p' :: ps /\ same_shape p p' /\ chain p' = chain p /\
        stack_ids (p' :: ps) = stack_ids (stack c)
    | inl e => e = ERROR LimitExceeded /\ exists ds', stack c' = ds' ++ p :: ps /\ Forall (merging b) ds'
    end).
Proof.
  intros Hpb Hpa. induction ds as [|q ds IH]; intros s n c Hg Hst Hds Hn; (destruct n as [|n]; [cbn in Hn; lia|]);
    cbn [commit_subs app] in *; apply xwp_bind; apply Forall_cons in Hds as [Hs Hds]; pose proof Hs as (S1 & S2 & S3);
    pose proof (io_nested _ _ _ _ (g_ids _ Hg)) as Hnest; rewrite Hst in Hnest.
  - eapply xwp_mono; [by eapply commit_sub_wp|]. intros c1 [e|[]] (Hg1 & Ho1 & Hf1 & H1).
    { split; [done|]. split; [done|]. split; [done|]. destruct H1 as [-> H1]. split; [done|]. exists [set_state TRANS_COMMIT s]. split; [done|].
      by repeat constructor. }
    apply xwp_get. pose proof H1 as [= E1 _]. rewrite E1. destruct (merge_shape s p) as [Hsh Hch].
    rewrite decide_False by (rewrite (proj1 (proj2 Hsh)); done). split; [done|]. split; [done|]. split; [done|].
    exists (merge s p). split; [done|]. split; [done|]. split; [done|]. rewrite Hst. by apply merge_ids.
  - apply Forall_cons in Hds as [Hq Hds]. pose proof Hq as (Q1 & Q2 & Q3).
    eapply xwp_mono; [by eapply commit_sub_wp|]. intros c1 [e|[]] (Hg1 & Ho1 & Hf1 & H1).
    { split; [done|]. split; [done|]. split; [done|]. destruct H1 as [-> H1]. split; [done|].
      exists (set_state TRANS_COMMIT s :: q :: ds). split; [done|]. constructor; [done|by constructor]. }
    apply xwp_get. pose proof H1 as [= E1 _]. rewrite E1. destruct (merging_merge b s q Hq) as (M1 & M2 & M3). rewrite decide_True by done.
    eapply xwp_mono; [eapply IH; [done|exact H1|by constructor|cbn in Hn; lia]|].
    intros c2 r (Hg2 & Ho2 & Hf2 & H2). split; [done|]. split; [congruence|]. split; [by eapply frame_trans|].
    destruct r as [e|[]]; [done|]. destruct H2 as (p' & H2a & H2b & H2c & H2d). exists p'. split; [done|]. split; [done|]. split; [done|].
    rewrite H2d, H1, Hst. by apply merge_ids.
Qed.

(** ** Marking the stack *)

Lemma mark_commit l : live TBLOCK_INPROGRESS l -> exists ds s,
  mark_stack commit_sub commit_top l = Some (ds ++ [s]) /\ Forall2 same_core l (ds ++ [s]) /\
  Forall (merging TBLOCK_SUBCOMMIT) ds /\ running TBLOCK_END s /\ ts_name s = None /\ length l = S (length ds).
Proof.
  induction 1 as [s [R1 R2 R3] Hn _|s ps n [R1 R2 R3] Hn Hl (ds & t & H1 & H2 & H3 & H4 & H5 & H6)]; cbn [mark_stack].
  - exists [], (set_block TBLOCK_END s). rewrite R2. cbn. split; [done|]. split; [by apply same_core_tail|]. split; [done|]. done.
  - destruct ps as [|p ps]; [by inversion Hl|]. exists (set_block TBLOCK_SUBCOMMIT s :: ds), t. rewrite R2, H1. cbn. split; [done|].
    split; [by constructor|]. split; [|split; [done|split; [done|cbn in *; lia]]]. constructor; [|done]. split; [done|]. cbn. rewrite R1. done.
Qed.

(** Levels that [ROLLBACK] takes off the stack. *)
Definition undoing (s : TransactionStateData) : Prop :=
  match blockState s with
  | TBLOCK_SUBABORT_PENDING => ts_state s <> TRANS_ABORT /\ owned s
  | TBLOCK_SUBABORT_END => ts_state s = TRANS_ABORT
  | _ => False
  end.
Definition undoing_top (s : TransactionStateData) : Prop :=
  match blockState s with
  | TBLOCK_ABORT_PENDING => ts_state s <> TRANS_ABORT
  | TBLOCK_ABORT_END => ts_state s = TRANS_ABORT
  | _ => False
  end.

Lemma mark_undo l : live TBLOCK_INPROGRESS l -> exists ds s,
  mark_stack abort_sub abort_top l = Some (ds ++ [s]) /\ Forall2 same_core l (ds ++ [s]) /\
  Forall undoing ds /\ undoing_top s /\ ts_name s = None.
Proof.
  induction 1 as [s [R1 R2 R3] Hn _|s ps n [R1 R2 R3] Hn Hl (ds & t & H1 & H2 & H3 & H4 & H5)]; cbn [mark_stack].
  - exists [], (set_block TBLOCK_ABORT_PENDING s). rewrite R2. cbn. split; [done|]. split; [by apply same_core_tail|]. split; [done|].
    split; [|done]. unfold undoing_top. cbn. by rewrite R1.
  - destruct ps as [|p ps]; [by inversion Hl|]. exists (set_block TBLOCK_SUBABORT_PENDING s :: ds), t. rewrite R2, H1. cbn. split; [done|].
    split; [by constructor|]. split; [|done]. constructor; [|done]. unfold undoing. cbn. rewrite R1. split; [done|by left].
Qed.

Lemma set_last_app f ds s : set_last f (ds ++ [s]) = ds ++ [f s].
Proof.
  unfold set_last. rewrite length_app. cbn. replace (length ds + 1 - 1)%nat with (length ds) by lia.
  induction ds as [|d ds IH]; [done|]. cbn. by rewrite IH.
Qed.

(** [mark_whole] leaves the marked stack. *)
Lemma mark_whole_wp sub top ch c ds s (Q : xstate -> xerror + unit -> Prop) :
  good c -> mark_stack sub top (stack c) = Some (ds ++ [s]) -> Forall2 same_core (stack c) (ds ++ [s]) ->
  (forall c', good c' -> out c' = out c -> frame c c' -> stack c' = ds ++ [set_chain ch s] -> Forall2 same_core (stack c) (stack c') -> Q c' (inr tt)) ->
  xwp (mark_whole sub top ch) c Q.
Proof.
  intros Hg Hm Hc HQ. unfold mark_whole. apply xwp_get. unfold id. fold (stack c). rewrite Hm, set_last_app.
  assert (Hc' : Forall2 same_core (stack c) (ds ++ [set_chain ch s])).
  { apply Forall2_app_inv_r in Hc as (l1 & l2 & H1 & H2 & ->). apply Forall2_app; [done|].
    apply Forall2_cons_inv_r in H2 as (s0 & l0 & [] & H3 & ->). constructor; [by split|done]. }
  destruct (ds ++ [set_chain ch s]) as [|t ps] eqn:E; [by destruct ds|]. apply HQ; try done. by apply (good_kept c).
Qed.

(** [c'] is [c] with the stack marked for the end of the block. *)
Definition marked (c c' : xstate) (ds : list TransactionStateData) (s : TransactionStateData) : Prop :=
  good c' /\ out c' = out c /\ outer c c' /\ stack c' = ds ++ [s] /\ Forall2 same_core (stack c) (stack c').

Lemma upd_marked ch b c s :
  good c -> stack c = [s] ->
  xwp (upd (fun s => set_chain ch (set_block b s))) c (fun c' r => r = inr tt /\ marked c c' [] (set_chain ch (set_block b s))).
Proof.
  intros Hg Hst. pose proof Hst as [= Es Eps]. apply upd_wp. rewrite Es, Eps. split; [done|].
  assert (Hc : Forall2 same_core (stack c) [set_chain ch (set_block b s)]) by (rewrite Hst; by apply same_core_tail).
  split; [by apply (good_kept c)|]. done.
Qed.

(** Either kind of block can be rolled back. *)
Definition undo_marked (ch : bool) (c c' : xstate) : Prop :=
  exists ds s, marked c c' ds s /\ Forall undoing ds /\ undoing_top s /\ ts_name s = None /\ chain s = ch.

Lemma mark_broken l : broken l -> exists ds s,
  mark_stack abort_sub abort_top l = Some (ds ++ [s]) /\ Forall2 same_core l (ds ++ [s]) /\
  Forall undoing ds /\ undoing_top s /\ ts_name s = None.
Proof.
  intros [s E1 E2 E3|s ps n E1 E2 E3 E4].
  - exists [], (set_block TBLOCK_ABORT_END s). cbn. rewrite E2. cbn. split; [done|]. split; [by apply same_core_tail|]. done.
  - destruct (mark_undo ps E4) as (ds & t & H1 & H2 & H3 & H4 & H5).
    exists (set_block TBLOCK_SUBABORT_END s :: ds), t. cbn [mark_stack]. destruct ps as [|p ps]; [by inversion E4|]. rewrite E2, H1. cbn. split; [done|].
    split; [by constructor|]. split; [|done]. by constructor.
Qed.

Lemma mark_abort_wp ch c :
  good c -> live TBLOCK_INPROGRESS (stack c) \/ broken (stack c) ->
  xwp (mark_whole abort_sub abort_top ch) c (fun c' r => r = inr tt /\ undo_marked ch c c').
Proof.
  intros Hg Hc.
  assert (exists ds s, mark_stack abort_sub abort_top (stack c) = Some (ds ++ [s]) /\ Forall2 same_core (stack c) (ds ++ [s]) /\
    Forall undoing ds /\ undoing_top s /\ ts_name s = None) as (ds & s & H1 & H2 & H3 & H4 & H5)
    by (destruct Hc; [by apply mark_undo|by apply mark_broken]).
  eapply mark_whole_wp; [done..|]. intros c' Hg' Ho Hf Hst Hsc. split; [done|]. exists ds, (set_chain ch s).
  split; [by unfold marked; auto using frame_outer|]. done.
Qed.

Lemma user_abort_wp ch c :
  good c -> live TBLOCK_INPROGRESS (stack c) \/ broken (stack c) ->
  xwp (UserAbortTransactionBlock ch) c (fun c' r => r = inr tt /\ undo_marked ch c c').
Proof.
  intros Hg Hc. pose proof (mark_abort_wp ch c Hg Hc) as Hm. unfold UserAbortTransactionBlock. apply xwp_get.
  remember (stack c) as l eqn:El. symmetry in El.
  destruct Hc as [Hc|Hc]; [destruct Hc as [s [R1 R2 R3] Hn _|s ps n [R1 R2 R3] Hn Hl]|destruct Hc as [s E1 E2 E3|s ps n E1 E2 E3 E4]];
    pose proof El as [= Es _]; rewrite Es, ?R2, ?E2; try done.
  - eapply xwp_mono; [by eapply upd_marked|]. intros c' r [-> Hmk]. split; [done|]. exists [], (set_chain ch (set_block TBLOCK_ABORT_PENDING s)).
    split; [done|]. unfold undoing_top. cbn. by rewrite R1.
  - eapply xwp_mono; [by eapply upd_marked|]. intros c' r [-> Hmk]. split; [done|]. exists [], (set_chain ch (set_block TBLOCK_ABORT_END s)).
    split; [done|]. unfold undoing_top. cbn. by rewrite E1.
Qed.

(** [COMMIT] of a failed block rolls it back. *)
Lemma end_broken_wp ch c :
  good c -> broken (stack c) -> xwp (EndTransactionBlock ch) c (fun c' r => r = inr false /\ undo_marked ch c c').
Proof.
  intros Hg Hc. pose proof (mark_abort_wp ch c Hg (or_intror Hc)) as Hm. unfold EndTransactionBlock. apply xwp_get.
  remember (stack c) as l eqn:El. symmetry in El.
  destruct Hc as [s E1 E2 E3|s ps n E1 E2 E3 E4]; pose proof El as [= Es _]; rewrite Es, E2; apply xwp_bind.
  - eapply xwp_mono; [by eapply upd_marked|]. intros c' r [-> Hmk]. split; [done|]. exists [], (set_chain ch (set_block TBLOCK_ABORT_END s)).
    split; [done|]. unfold undoing_top. cbn. by rewrite E1.
  - eapply xwp_mono; [exact Hm|]. by intros c' r [-> Hmk].
Qed.

Lemma undoing_pops s : undoing s -> pops (CommitTransactionCommandInternal new_id) s.
Proof.
  intros Hd c p ps Hg Hst _. unfold CommitTransactionCommandInternal. apply xwp_get. unfold id. pose proof Hst as [= Es Eps]. rewrite Es.
  unfold undoing in Hd. destruct (blockState s); try done.
  - apply pop_then; [by eapply cleanup_sub_wp|done].
  - destruct Hd. apply drop_sub_assoc, pop_then; [by eapply drop_sub_wp|done].
Qed.

Lemma same_core_work c c' : out c' = out c -> Forall2 same_core (stack c) (stack c') -> work c' = work c.
Proof. intros Ho Hs. unfold work. by rewrite Ho, (same_core_stack _ _ Hs). Qed.

(** [ROLLBACK], whatever the depth. *)
Lemma rollback_command_wp ch c0 c :
  undo_marked ch c0 c ->
  xwp (CommitTransactionCommand new_id) c (fun c' r => r = inr tt /\ shows c0 c' (set_blk (next_block ch) (abs c0))).
Proof.
  intros (ds & s & (Hg & Ho & Hf & Hst & Hsc) & Hds & Hs & Hname & Hch). unfold CommitTransactionCommand. apply xwp_get.
  apply (until_pops _ [s] _ ds); [done..| | | |].
  - apply list.Forall_app. split; [|constructor; [|constructor]; unfold busy; unfold undoing_top in Hs; by destruct (blockState s)].
    eapply list.Forall_impl; [exact Hds|]. intros s' H E. unfold undoing in H. by rewrite E in H.
  - eapply list.Forall_impl; [exact Hds|]. exact undoing_pops.
  - change (S (length (parents c))) with (length (stack c)). rewrite Hst, length_app. cbn. lia.
  - intros c1 Hg1 Hq1 Hf1 Hst1. unfold CommitTransactionCommandInternal. apply xwp_get. unfold id. pose proof Hst1 as [= Es _]. rewrite Es.
    assert (Hfin : forall c', shows c1 c' (set_blk (next_block (chain s)) (abs c1)) -> shows c0 c' (set_blk (next_block ch) (abs c0))).
    { intros c' (H1 & H2 & H3). split; [done|]. split; [eauto using outer_trans, frame_outer|]. rewrite H3, Hch, (abs_quiet c0 c1); [done|].
      by rewrite <- Ho. }
    unfold undoing_top in Hs. destruct (blockState s); try done;
      (eapply xwp_mono; [first [by apply top_cleanup_wp|by apply top_rollback_wp]|]); intros c' r [-> H]; split; auto.
Qed.

(** ** [COMMIT] and [PREPARE TRANSACTION] *)

(** An error left [c']: the session will go on with block [b], and nothing of the transaction shows. *)
Record fails (c c' : xstate) (b : ablock) : Prop := {
  fs_good : good c';
  fs_outer : outer c c';
  fs_db : committed_rows (out c') = committed_rows (out c);
  fs_held : held_rows (out c') = held_rows (out c);
  fs_stack : exists ds base, stack c' = ds ++ base /\ Forall dropped ds /\ left_over (out c') base b
}.

Lemma merging_dropped b ds : b = TBLOCK_SUBCOMMIT \/ b = TBLOCK_SUBRELEASE -> Forall (merging b) ds -> Forall dropped ds.
Proof.
  intros Hb H. eapply list.Forall_impl; [exact H|]. intros s (E1 & E2 & E3). unfold dropped, owned. rewrite E1.
  destruct Hb as [-> | ->]; auto.
Qed.

Lemma fails_same c c' ds base b :
  good c' -> outer c c' -> out c' = out c -> stack c' = ds ++ base -> Forall dropped ds -> left_over (out c') base b -> fails c c' b.
Proof. intros Hg Hou Ho Hst Hds Hl. split; try done; [by rewrite Ho..|]. eauto. Qed.

(** The block can end: the levels of the savepoints commit into the top level, which is to
    commit or to be prepared. *)
Definition end_marked (b : TBlockState) (ch : bool) (c c' : xstate) : Prop :=
  exists ds s, marked c c' ds s /\ Forall (merging TBLOCK_SUBCOMMIT) ds /\ running b s /\ ts_name s = None /\ chain s = ch.

Definition end_tail (b : TBlockState) (tc : characteristics) : X bool :=
  match b with
  | TBLOCK_END => xbind CommitTransaction (fun _ => xbind (end_block tc) (fun _ => xret true))
  | _ => xbind (PrepareTransaction new_id) (fun _ => xbind (upd (set_block TBLOCK_DEFAULT)) (fun _ => xret true))
  end.

Lemma end_command_wp b ch c0 c (Q : xstate -> xerror + unit -> Prop) :
  b = TBLOCK_END \/ b = TBLOCK_PREPARE -> end_marked b ch c0 c ->
  (forall c1 s tc, good c1 -> out c1 = out c0 -> frame c c1 -> stack c1 = [s] -> running b s -> ts_name s = None -> chain s = ch ->
     work c1 = work c0 -> xwp (end_tail b tc) c1 (fun c' r => match r with inr d => d = true /\ Q c' (inr tt) | inl e => Q c' (inl e) end)) ->
  (forall c', fails c0 c' Idle -> Q c' (inl (ERROR LimitExceeded))) ->
  xwp (CommitTransactionCommand new_id) c Q.
Proof.
  intros Hb (ds & s & (Hg & Ho & Hf & Hst & Hsc) & Hds & [R1 R2 R3] & Hn & Hch) Htail Hfail. apply command_once_wp.
  assert (Hw : work c = work c0) by (by apply same_core_work).
  unfold CommitTransactionCommandInternal. apply xwp_get. unfold id. destruct ds as [|d ds].
  - pose proof Hst as [= Es _]. rewrite Es, R2.
    destruct Hb as [-> | ->]; eapply (Htail _ _ (chars c)); eauto using Build_running; by split.
  - pose proof Hst as [= Es Eps]. rewrite Es. pose proof Hds as Hd. apply Forall_cons in Hd as [(-> & _ & _) _]. apply xwp_bind.
    eapply xwp_mono; [eapply (commit_subs_wp _ s []); [rewrite R2; by destruct Hb as [-> | ->]|congruence|done|exact Hst|done|rewrite Eps, length_app; lia]|].
    intros c1 [e|[]] (Hg1 & Ho1 & Hf1 & H1).
    + destruct H1 as (-> & ds' & Hst1 & Hds'). apply Hfail. eapply fails_same; [done|eauto using outer_trans, frame_outer|congruence|exact Hst1| |].
      * eapply merging_dropped; [by left|done].
      * apply left_doomed. split; [|done]. rewrite R2, R1. by destruct Hb as [-> | ->].
    + destruct H1 as (s1 & Hst1 & (S1 & S2 & S3 & S4 & S5) & Hc1 & Hids). apply xwp_get. pose proof Hst1 as [= Es1 _]. rewrite Es1, S2, R2.
      assert (Hw1 : work c1 = work c0) by (rewrite <- Hw; unfold work; by rewrite Ho1, Hst1, Hids).
      destruct Hb as [-> | ->]; apply (Htail c1 s1 (chars c)); try done; try congruence; by split; congruence.
Qed.

Lemma doomed_fails b c0 c1 c' s :
  b = TBLOCK_END \/ b = TBLOCK_PREPARE \/ b = TBLOCK_STARTED \/ b = TBLOCK_IMPLICIT_INPROGRESS ->
  out c1 = out c0 -> outer c0 c1 -> stack c1 = [s] -> running b s -> ts_name s = None -> evolves c1 c' ->
  fails c0 c' Idle.
Proof.
  intros Hb Ho Hou Hst [R1 R2 R3] Hn [E1 E2 E3 E4 E5 E6]. rewrite Hst in E2.
  apply Forall2_cons_inv_l in E2 as (s1 & l1 & (S1 & S2 & S3 & S4 & S5) & Hl & Hst1). apply Forall2_nil_inv_l in Hl. subst l1.
  split; [done|by eapply outer_trans|congruence..|]. exists [], [s1]. split; [done|]. split; [constructor|].
  apply left_doomed. split; [|congruence]. rewrite S2, R2, S1, R1. by destruct Hb as [-> |[-> |[-> | ->]]].
Qed.

Lemma commit_command_wp ch c0 c :
  end_marked TBLOCK_END ch c0 c ->
  xwp (CommitTransactionCommand new_id) c (fun c' r =>
    match r with
    | inr _ => shows c0 c' (commit_work (work c0) (next_block ch) (abs c0))
    | inl e => exists e', e = ERROR e' /\ resource e' /\ fails c0 c' Idle
    end).
Proof.
  intros Hm. pose proof Hm as (ds & s & (Hg & Ho & Hf & _) & _). eapply end_command_wp; [by left|done| |].
  - intros c1 s1 tc Hg1 Ho1 Hf1 Hst1 Hr1 Hn1 Hc1 Hw1. subst ch. eapply xwp_mono; [apply (top_commit_wp _ (next_block (chain s1)) c1 s1); [done..| |done|]|].
    + rewrite (ru_state _ _ Hr1). done.
    + intros c2 s2 Hg2 Hst2 Hend2. by eapply end_block_wp.
    + intros c2 [e|d] H.
      * destruct H as [-> ->]. eexists. split; [done|]. split; [unfold resource; auto|].
        eapply (doomed_fails TBLOCK_END c0 c1 c1); eauto using outer_trans, frame_outer, evolves_refl.
      * destruct H as [-> (H1 & H2 & H3)]. split; [done|]. split; [done|]. split; [eauto using outer_trans, frame_outer|].
        rewrite H3, Hw1, (abs_quiet c0 c1); [done|]. by rewrite Ho1.
  - intros c' Hfl. eexists. split; [done|]. split; [unfold resource; auto|done].
Qed.

Lemma prepare_command_wp gid c0 c :
  end_marked TBLOCK_PREPARE false c0 c -> prepareGID c = Some gid ->
  xwp (CommitTransactionCommand new_id) c (fun c' r =>
    match r with
    | inr _ => shows c0 c' (hold_work gid (work c0) Idle (abs c0))
    | inl e => exists e', e = ERROR e' /\ resource e' /\ fails c0 c' Idle
    end).
Proof.
  intros Hm Hgid. pose proof Hm as (ds & s & (Hg & Ho & Hf & _) & _). eapply end_command_wp; [by right|done| |].
  - intros c1 s1 tc Hg1 Ho1 Hf1 Hst1 Hr1 Hn1 Hc1 Hw1. eapply xwp_mono; [apply (top_prepare_wp gid c1 s1); [done..| |done|]|].
    + rewrite (ru_state _ _ Hr1). done.
    + by rewrite (fr_gid _ _ Hf1).
    + intros c2 [e|d] H.
      * destruct H as [He Hev]. assert (exists e', e = ERROR e' /\ resource e') as (e' & -> & Hres)
          by (unfold resource; destruct He as [-> | ->]; eauto). exists e'. split; [done|]. split; [done|].
        eapply (doomed_fails TBLOCK_PREPARE c0 c1 c2); eauto using outer_trans, frame_outer.
      * destruct H as [-> (H1 & H2 & H3)]. split; [done|]. split; [done|]. split; [eauto using outer_trans, frame_outer|].
        rewrite H3, Hw1, (abs_quiet c0 c1); [done|]. by rewrite Ho1.
  - intros c' Hfl. eexists. split; [done|]. split; [unfold resource; auto|done].
Qed.
End session.
