(* ===== verification/XactStmt.v ===== *)
(** * Transaction statements

    Every transaction statement, with the command that ends it, refines its description in
    [XactSpec], in each state of the transaction block: savepoints are found by name,
    released and rolled back to at any depth, and the errors leave the block the
    description says. *)
From stdpp Require Import gmultiset.
From S2P Require Import Prelude TransactionId Xact XactInv XactSpec XactProg XactEnd.
Local Open Scope Z_scope.

Section session.
Context {ids : IdSupply}.

(** ** The block a state shows *)

Lemma block_of_live c : live TBLOCK_INPROGRESS (stack c) -> block_of c = Open (work c) (saves_of (stack c) (out c)).
Proof.
  intros Hl. remember (stack c) as l eqn:El. symmetry in El. unfold block_of, work. rewrite El.
  destruct Hl as [s [R1 R2 R3] Hn _|s ps n [R1 R2 R3] Hn Hl]; pose proof El as [= -> _]; by rewrite R2.
Qed.

Lemma block_of_broken c : broken (stack c) -> block_of c = Broken (saves_of (stack c) (out c)).
Proof.
  intros Hl. remember (stack c) as l eqn:El. symmetry in El. unfold block_of. rewrite El.
  destruct Hl as [s E1 E2 E3|s ps n E1 E2 E3 E4]; pose proof El as [= -> _]; by rewrite E2.
Qed.

(** ** Savepoints *)

(** Every level but the top one has the name of its savepoint. *)
Fixpoint named (l : list TransactionStateData) : Prop :=
  match l with
  | [] => False
  | s :: ps => match ps with [] => ts_name s = None | _ => is_Some (ts_name s) /\ named ps end
  end.

Lemma live_named b l : live b l -> named l.
Proof. induction 1 as [|s ps n Hr Hn Hl IH]; [done|]. cbn. destruct ps; [done|]. split; [by eexists|done]. Qed.
Lemma broken_named l : broken l -> named l.
Proof. intros []; [done|]. cbn. apply live_named in H2. destruct ps; [done|]. split; [by eexists|done]. Qed.

Lemma find_cons {A} (P : A -> Prop) `{forall x, Decision (P x)} x l :
  list_find P (x :: l) = if decide (P x) then Some (0%nat, x) else prod_map S id <$> list_find P l.
Proof. done. Qed.

(** The savepoint a name stands for is found at the same depth. *)
Lemma find_named n l o : named l ->
  match find_savepoint n l with
  | Some (i, t) => find_save n (saves_of l o) = Some (i, (n, writes (stack_ids (drop (S i) l)) o)) /\
                   l !! i = Some t /\ (S i < length l)%nat /\ ts_name t = Some n
  | None => find_save n (saves_of l o) = None
  end.
Proof.
  unfold find_savepoint, find_save. induction l as [|s ps IH]; [done|]. intros Hn. rewrite find_cons.
  destruct ps as [|p ps].
  - cbn in Hn. rewrite decide_False by congruence. done.
  - destruct Hn as [[m Hm] Hn]. specialize (IH Hn). rewrite saves_cons, (find_cons _ (default EmptyString _, _)). cbn [fst].
    rewrite Hm. cbn [default]. destruct (decide (Some m = Some n)) as [[= ->]|E].
    + rewrite decide_True by done. cbn. split; [done|]. split; [done|]. split; [lia|done].
    + rewrite (decide_False (P := m = n)) by congruence.
      destruct (list_find _ (p :: ps)) as [[i t]|].
      * destruct IH as (IH1 & IH2 & IH3 & IH4). rewrite IH1. cbn. split; [done|]. split; [done|]. split; [cbn in *; lia|done].
      * by rewrite IH.
Qed.

Lemma saves_drop l o : forall k, (k < length l)%nat -> saves_of (drop k l) o = drop k (saves_of l o).
Proof.
  induction l as [|s ps IH]; intros k Hk; [by destruct k|]. destruct k as [|k]; [done|]. cbn in Hk.
  destruct ps as [|p ps]; [cbn in Hk; lia|]. rewrite saves_cons. cbn [drop]. apply IH. cbn in *. lia.
Qed.

Lemma live_drop b l : forall k, live b l -> (k < length l)%nat -> live b (drop k l).
Proof.
  intros k Hl. revert k. induction Hl as [s Hr Hn Hl|s ps n Hr Hn Hl IH]; intros k Hk; (destruct k as [|k]; [by econstructor|]); cbn in *; [lia|].
  apply IH. lia.
Qed.

Lemma mark_release l : forall i, live TBLOCK_INPROGRESS l -> (S i < length l)%nat -> exists d ds,
  mark_to release_level release_level i l = Some (d :: ds ++ drop (S i) l) /\
  Forall2 same_core l (d :: ds ++ drop (S i) l) /\ Forall (merging TBLOCK_SUBRELEASE) (d :: ds) /\ length ds = i.
Proof.
  intros i Hl. revert i. induction Hl as [s Hr Hn Hl|s ps n [R1 R2 R3] Hn Hl IH]; intros i Hi; [cbn in Hi; lia|].
  assert (Hs : merging TBLOCK_SUBRELEASE (set_block TBLOCK_SUBRELEASE s)) by (split; [done|]; split; [cbn; rewrite R1; done|done]).
  destruct i as [|i]; cbn [mark_to drop].
  - exists (set_block TBLOCK_SUBRELEASE s), []. split; [done|]. split; [by apply same_core_tail|]. split; [by constructor|done].
  - destruct (IH i) as (d & ds & H1 & H2 & H3 & H4); [cbn in *; lia|]. cbn [drop] in H1, H2. rewrite H1.
    exists (set_block TBLOCK_SUBRELEASE s), (d :: ds). split; [done|]. split; [by constructor|]. split; [by constructor|cbn; lia].
Qed.

(** The level of the savepoint that is rolled back to. *)
Definition restarting (s : TransactionStateData) : Prop :=
  match blockState s with
  | TBLOCK_SUBRESTART => ts_state s <> TRANS_ABORT /\ owned s
  | TBLOCK_SUBABORT_RESTART => ts_state s = TRANS_ABORT
  | _ => False
  end.

Lemma mark_restart_live l : forall i, live TBLOCK_INPROGRESS l -> (S i < length l)%nat -> exists ds t,
  mark_to abort_sub restart_level i l = Some (ds ++ t :: drop (S i) l) /\
  Forall2 same_core l (ds ++ t :: drop (S i) l) /\ Forall undoing ds /\ restarting t /\ length ds = i.
Proof.
  intros i Hl. revert i. induction Hl as [s Hr Hn Hl|s ps n [R1 R2 R3] Hn Hl IH]; intros i Hi; [cbn in Hi; lia|].
  destruct i as [|i]; cbn [mark_to drop]; rewrite R2; cbn.
  - exists [], (set_block TBLOCK_SUBRESTART s). split; [done|]. split; [by apply same_core_tail|]. split; [done|].
    split; [|done]. unfold restarting, owned. cbn. rewrite R1. split; [done|by left].
  - destruct (IH i) as (ds & t & H1 & H2 & H3 & H4 & H5); [cbn in *; lia|]. cbn [drop] in H1, H2. rewrite H1. cbn.
    exists (set_block TBLOCK_SUBABORT_PENDING s :: ds), t. split; [done|]. split; [by constructor|].
    split; [|split; [done|cbn; lia]]. constructor; [|done]. unfold undoing, owned. cbn. rewrite R1. split; [done|by left].
Qed.

Lemma mark_restart l i : live TBLOCK_INPROGRESS l \/ broken l -> (S i < length l)%nat -> exists ds t,
  mark_to abort_sub restart_level i l = Some (ds ++ t :: drop (S i) l) /\
  Forall2 same_core l (ds ++ t :: drop (S i) l) /\ Forall undoing ds /\ restarting t /\ length ds = i /\
  live TBLOCK_INPROGRESS (drop (S i) l).
Proof.
  intros [Hl|Hl] Hi.
  - destruct (mark_restart_live l i Hl Hi) as (ds & t & H). exists ds, t. split_and!; try apply H. by apply live_drop.
  - destruct Hl as [s E1 E2 E3|s ps n E1 E2 E3 E4]; [cbn in Hi; lia|]. destruct i as [|i]; cbn [mark_to drop]; rewrite E2; cbn.
    + exists [], (set_block TBLOCK_SUBABORT_RESTART s). split; [done|]. split; [by apply same_core_tail|]. done.
    + destruct (mark_restart_live ps i E4) as (ds & t & H1 & H2 & H3 & H4 & H5); [cbn in *; lia|]. cbn [drop] in H1, H2. rewrite H1. cbn.
      exists (set_block TBLOCK_SUBABORT_END s :: ds), t. split; [done|]. split; [by constructor|]. split; [by constructor|].
      split; [done|]. split; [cbn; lia|]. apply live_drop; [done|cbn in *; lia].
Qed.

(** ** Statements *)

(** A transaction statement, with the command that ends it, does what the description says, or raises an error. *)
Definition stmt_post (st : statement) (c c' : xstate) (r : xerror + unit) : Prop :=
  match r with
  | inr _ => exists a', stmt_effect st (abs c) = inr a' /\ shows c c' a'
  | inl (ERROR e) =>
      (stmt_effect st (abs c) = inl e \/ (exists a', stmt_effect st (abs c) = inr a') /\ resource e) /\
      fails c c' (fail_after st (block_of c))
  | inl (FATAL _) => False
  end.

Lemma resource_limit : resource LimitExceeded.
Proof. by left. Qed.

Lemma fails_live c c' l :
  good c' -> frame c c' -> quiet (out c) (out c') -> stack c' = l -> live TBLOCK_INPROGRESS l -> fails c c' (Broken (saves_of l (out c))).
Proof.
  intros Hg Hf Hq Hst Hl. split; [done|by apply frame_outer|by apply quiet_committed|by apply quiet_held|].
  exists [], l. split; [done|]. split; [constructor|]. rewrite <- (quiet_saves _ _ _ Hq). by apply left_live.
Qed.

(** Where a block is open, the check for one passes. *)
Lemma require_open_wp c (m : X unit) Q :
  live TBLOCK_INPROGRESS (stack c) \/ broken (stack c) -> xwp m c Q -> xwp (xbind (RequireTransactionBlock true) (fun _ => m)) c Q.
Proof.
  intros Hl H. apply xwp_bind. unfold RequireTransactionBlock, CheckTransactionBlock. apply xwp_get.
  assert (Hb : IsTransactionBlock c = true).
  { remember (stack c) as l eqn:El. symmetry in El. unfold IsTransactionBlock.
    destruct Hl as [Hl|Hl]; [destruct Hl as [s [R1 R2 R3]|s ps n [R1 R2 R3]]|destruct Hl as [s E1 R2|s ps n E1 R2]];
      pose proof El as [= -> _]; by rewrite R2. }
  unfold id. by rewrite Hb.
Qed.

Lemma fails_broken c : good c -> broken (stack c) -> fails c c (Broken (saves_of (stack c) (out c))).
Proof.
  intros Hg Hb. split; try done. exists [], (stack c). split; [done|]. split; [constructor|by apply left_broken].
Qed.

(** A savepoint on top of an open block. *)
Lemma savepoint_shows n c c' s' :
  good c' -> out c' = out c -> outer c c' -> live TBLOCK_INPROGRESS (stack c) -> stack c' = s' :: stack c ->
  running TBLOCK_SUBINPROGRESS s' -> ts_name s' = Some n -> fullTransactionId s' = InvalidFullTransactionId ->
  session_ok c' /\ abs c' = set_blk (Open (work c) ((n, work c) :: saves_of (stack c) (out c))) (abs c).
Proof.
  intros Hg Ho Hou Hl Hst Hr Hn Hv. assert (Hl' : live TBLOCK_INPROGRESS (stack c')) by (rewrite Hst; by eapply live_sub).
  split; [split; [done|by apply rest_open]|]. unfold abs, set_blk. cbn. rewrite Ho. f_equal. rewrite (block_of_live _ Hl').
  assert (Hids : ids_of s' = []) by (unfold ids_of; rewrite Hv; by destruct (decide _)).
  f_equal.
  - unfold work. by rewrite Hst, Ho; cbn [stack_ids]; rewrite Hids, app_nil_r.
  - rewrite Hst, Ho. unfold stack. by rewrite saves_cons, Hn.
Qed.

Lemma define_wp name c :
  good c -> live TBLOCK_INPROGRESS (stack c) ->
  xwp (DefineSavepoint name) c (fun c' r => out c' = out c /\ frame c c' /\ good c' /\
    match r with
    | inr _ => exists s, stack c' = s :: stack c /\ fresh_level TBLOCK_SUBBEGIN s /\ (is_Some name -> ts_name s = name)
    | inl e => e = ERROR LimitExceeded /\ stack c' = stack c
    end).
Proof.
  intros Hg Hl. unfold DefineSavepoint. apply xwp_get. rewrite (g_par _ Hg). apply xwp_get.
  assert (Hpush : xwp (xbind PushTransaction (fun _ => match name with Some _ => upd (set_name name) | None => xret tt end)) c
    (fun c' r => out c' = out c /\ frame c c' /\ good c' /\
    match r with
    | inr _ => exists s, stack c' = s :: stack c /\ fresh_level TBLOCK_SUBBEGIN s /\ (is_Some name -> ts_name s = name)
    | inl e => e = ERROR LimitExceeded /\ stack c' = stack c
    end)).
  { apply xwp_bind. eapply xwp_mono; [by apply push_wp|]. intros c1 [e|[]] (Ho1 & Hf1 & Hg1 & H1); [done|].
    destruct H1 as (s1 & Hst1 & Hs1). destruct name as [n|].
    - pose proof Hst1 as [= Es1 Eps1]. apply upd_wp. rewrite Es1, Eps1.
      split; [done|]. split; [by destruct Hf1|]. split; [|destruct Hs1; by eexists].
      apply (good_frame c1); [done| |done]. pose proof (g_ids _ Hg1) as Hok. rewrite Hst1 in Hok. exact (ids_ok_rename _ _ _ _ _ _ Hok).
    - unfold xwp. cbn. split; [done|]. split; [done|]. split; [done|]. exists s1. split; [done|]. split; [done|]. by intros []. }
  remember (stack c) as l eqn:El. symmetry in El.
  destruct Hl as [s [R1 R2 R3]|s ps n [R1 R2 R3]]; pose proof El as [= -> _]; by rewrite R2.
Qed.

Lemma savepoint_wp n c :
  good c -> live TBLOCK_INPROGRESS (stack c) ->
  xwp (xbind (exec_statement new_id (SSavepoint n)) (fun _ => CommitTransactionCommand new_id)) c (stmt_post (SSavepoint n) c).
Proof.
  intros Hg Hl. apply xwp_bind, require_open_wp; [by left|]. pose proof (block_of_live _ Hl) as Hb.
  assert (Heff : stmt_effect (SSavepoint n) (abs c) = inr (set_blk (Open (work c) ((n, work c) :: saves_of (stack c) (out c))) (abs c))).
  { unfold stmt_effect. change (blk (abs c)) with (block_of c). by rewrite Hb. }
  eapply xwp_mono; [by apply define_wp|]. intros c1 [e|[]] (Ho1 & Hf1 & Hg1 & H1).
  - destruct H1 as [-> Hst1]. split; [right; split; [by eauto|apply resource_limit]|]. unfold fail_after. rewrite Hb. apply (fails_live c c1 (stack c)); try done. by rewrite Ho1.
  - destruct H1 as (s1 & Hst1 & Hs1 & Hn1). eapply xwp_mono; [by eapply start_sub_wp|].
    intros c2 r (-> & Hg2 & Ho2 & Hf2 & s2 & Hst2 & Hr2 & Hn2 & Hv2 & _).
    assert (Hou : outer c c2) by eauto using outer_trans, frame_outer.
    destruct (savepoint_shows n c c2 s2) as [H1 H2]; try done; [congruence|by rewrite Hn2, Hn1 by (by eexists)|]. eexists. split; [exact Heff|]. done.
Qed.

(** *** [RELEASE] *)

Lemma same_shape_live b l l' : Forall2 same_shape l l' -> live b l -> live b l'.
Proof.
  intros H Hl. revert l' H. induction Hl as [s [R1 R2 R3] Hn Hl|s ps n [R1 R2 R3] Hn Hl IH]; intros l' H;
    apply Forall2_cons_inv_l in H as (s' & l1 & (E1 & E2 & E3 & E4 & E5) & H & ->).
  - apply Forall2_nil_inv_l in H. subst l1. apply live_top; [split|..]; congruence.
  - eapply live_sub; [split; congruence|by rewrite E3|by apply IH].
Qed.

Lemma live_head_block b l s ps : live b l -> l = s :: ps -> (blockState s = b \/ blockState s = TBLOCK_SUBINPROGRESS) /\ ts_state s = TRANS_INPROGRESS.
Proof. intros [s' [R1 R2 R3]|s' ps' n [R1 R2 R3]] [= <- <-]; auto. Qed.

(** The levels are marked and the command takes them down. *)
Lemma mark_savepoint_wp above at_target name c i t l (Q : xstate -> xerror + unit -> Prop) :
  good c -> find_savepoint name (stack c) = Some (i, t) -> stack c !! i = Some t ->
  mark_to above at_target i (stack c) = Some l -> Forall2 same_core (stack c) l ->
  (forall c', good c' -> out c' = out c -> frame c c' -> stack c' = l -> Q c' (inr tt)) ->
  xwp (mark_savepoint above at_target name) c Q.
Proof.
  intros Hg Hfind Ht Hm Hsc HQ. unfold mark_savepoint. apply xwp_get. unfold id. fold (stack c). rewrite Hfind.
  pose proof (io_level _ _ _ _ (g_ids _ Hg)) as Hlev. rewrite (Hlev t), (Hlev (CurrentTransactionState c)); [|by left|by eapply list_elem_of_lookup_2].
  cbn [Z.eqb negb]. rewrite Hm. destruct l as [|s ps]; [by inversion Hsc|]. apply HQ; try done. by apply (good_kept c).
Qed.

Lemma mark_savepoint_none above at_target name c :
  find_savepoint name (stack c) = None ->
  mark_savepoint above at_target name c = (c, inl (ERROR SavepointDoesNotExist)).
Proof. intros H. unfold mark_savepoint, xbind, xget, id. fold (stack c). by rewrite H. Qed.

Lemma release_command_wp c0 c l d ds p ps :
  good c -> out c = out c0 -> outer c0 c -> l = p :: ps -> live TBLOCK_INPROGRESS l -> stack c = d :: ds ++ l ->
  Forall (merging TBLOCK_SUBRELEASE) (d :: ds) -> work c = work c0 ->
  xwp (CommitTransactionCommand new_id) c (fun c' r =>
    match r with
    | inr _ => shows c0 c' (set_blk (Open (work c0) (saves_of l (out c0))) (abs c0))
    | inl e => e = ERROR LimitExceeded /\ fails c0 c' (Broken (saves_of l (out c0)))
    end).
Proof.
  intros Hg Ho Hou El Hl Hst Hds Hw. destruct (live_head_block _ _ _ _ Hl El) as [Hpb Hps]. rewrite El in Hst.
  apply command_once_wp. unfold CommitTransactionCommandInternal. apply xwp_get. unfold id. pose proof Hst as [= Es Eps].
  rewrite Es. pose proof Hds as Hd. apply Forall_cons in Hd as [(-> & _ & _) _]. apply xwp_bind.
  eapply xwp_mono; [eapply (commit_subs_wp _ p ps); [destruct Hpb as [-> | ->]; done|congruence|done|exact Hst|done|rewrite Eps, length_app; lia]|].
  intros c1 [e|[]] (Hg1 & Ho1 & Hf1 & H1).
  - destruct H1 as (-> & ds' & Hst1 & Hds'). split; [done|]. eapply fails_same; [done|eauto using outer_trans, frame_outer|congruence|exact Hst1| |].
    + eapply merging_dropped; [by right|done].
    + rewrite Ho1, Ho, <- El. by apply left_live.
  - destruct H1 as (p' & Hst1 & Hsh & _ & Hids). unfold xwp. cbn. split; [done|].
    assert (Hsh' : Forall2 same_shape l (stack c1)) by (rewrite El, Hst1; constructor; [done|apply same_shape_refl]).
    pose proof (same_shape_live _ _ _ Hsh' Hl) as Hl1. split; [split; [done|by apply rest_open]|]. split; [eauto using outer_trans, frame_outer|].
    rewrite (abs_quiet c0 c1) by (by rewrite Ho1, Ho). rewrite (block_of_live _ Hl1). f_equal. f_equal.
    + rewrite <- Hw. unfold work. by rewrite Ho1, Hst1, Hids.
    + rewrite Ho1, Ho, El, Hst1. cbn [saves_of]. destruct ps; [done|]. by rewrite (proj1 (proj2 (proj2 Hsh))).
Qed.

Lemma release_stmt_wp n c :
  good c -> live TBLOCK_INPROGRESS (stack c) ->
  xwp (xbind (exec_statement new_id (SRelease n)) (fun _ => CommitTransactionCommand new_id)) c (stmt_post (SRelease n) c).
Proof.
  intros Hg Hl. apply xwp_bind, require_open_wp; [by left|]. pose proof (block_of_live _ Hl) as Hb. unfold ReleaseSavepoint.
  apply xwp_get. rewrite (g_par _ Hg). apply xwp_get.
  pose proof (find_named n (stack c) (out c) (live_named _ _ Hl)) as Hfind.
  assert (Hnone : find_savepoint n (stack c) = None -> stmt_post (SRelease n) c c (inl (ERROR SavepointDoesNotExist))).
  { intros E. rewrite E in Hfind. split.
    - left. unfold stmt_effect. change (blk (abs c)) with (block_of c). by rewrite Hb, Hfind.
    - unfold fail_after. rewrite Hb, Hfind. by apply (fails_live c c (stack c)). }
  assert (Hsub : xwp (mark_savepoint release_level release_level n) c (fun c1 r =>
    match r with inr _ => xwp (CommitTransactionCommand new_id) c1 (stmt_post (SRelease n) c) | inl e => stmt_post (SRelease n) c c1 (inl e) end)).
  { destruct (find_savepoint n (stack c)) as [[i t]|] eqn:Ef; [|unfold xwp; rewrite mark_savepoint_none by done; by apply Hnone].
    destruct Hfind as (Hfs & Ht & Hi & Hnt). destruct (mark_release _ i Hl Hi) as (d & ds & Hm & Hsc & Hds & Hlen).
    eapply mark_savepoint_wp; [done..|]. intros c1 Hg1 Ho1 Hf1 Hst1.
    assert (Hl' : live TBLOCK_INPROGRESS (drop (S i) (stack c))) by (by apply live_drop).
    destruct (drop (S i) (stack c)) as [|p ps] eqn:Ed; [by inversion Hl'|].
    assert (Hsv : saves_of (p :: ps) (out c) = drop (S i) (saves_of (stack c) (out c))) by (rewrite <- Ed; by apply saves_drop).
    eapply xwp_mono; [eapply (release_command_wp c c1 (p :: ps) d ds p ps); try done; [by apply frame_outer|]|].
    - apply same_core_work; [done|by rewrite Hst1].
    - rewrite Hsv. assert (Heff : stmt_effect (SRelease n) (abs c) =
        inr (set_blk (Open (work c) (drop (S i) (saves_of (stack c) (out c)))) (abs c)))
        by (unfold stmt_effect; change (blk (abs c)) with (block_of c); by rewrite Hb, Hfs).
      intros c2 [e|[]] H2; [|by eexists]. destruct H2 as [-> H2]. split; [right; split; [by eauto|apply resource_limit]|].
      unfold fail_after. by rewrite Hb, Hfs. }
  remember (stack c) as l eqn:El. symmetry in El.
  destruct Hl as [s [R1 R2 R3] Hn ?|s ps m [R1 R2 R3]]; pose proof El as [= -> _]; rewrite R2; [|done].
  apply Hnone. unfold find_savepoint. rewrite find_cons, decide_False by congruence. done.
Qed.

(** *** [ROLLBACK TO] *)

Lemma restart_savepoint_wp n c :
  good c -> live TBLOCK_INPROGRESS (stack c) ->
  xwp (xbind (restart_savepoint (Some n) 0) (fun _ => xret true)) c (fun c' r =>
    match r with
    | inr d => d = true /\ shows c c' (set_blk (Open (work c) ((n, work c) :: saves_of (stack c) (out c))) (abs c))
    | inl e => e = ERROR LimitExceeded /\ fails c c' (Broken (saves_of (stack c) (out c)))
    end).
Proof.
  intros Hg Hl. apply xwp_bind, xwp_bind. eapply xwp_mono; [by apply define_wp|]. intros c1 [e|[]] (Ho1 & Hf1 & Hg1 & H1).
  { destruct H1 as [-> Hst1]. split; [done|]. apply (fails_live c c1 (stack c)); try done. by rewrite Ho1. }
  destruct H1 as (s1 & Hst1 & [F1 F2 F3 F4 F5] & _). pose proof Hst1 as [= Es1 Eps1]. unfold xwp. cbn. rewrite Es1, Eps1. split; [done|].
  set (s2 := set_block _ _). set (c2 := set_stack s2 _ _).
  assert (Hg2 : good c2).
  { apply (good_frame c1); [done| |done]. pose proof (g_ids _ Hg1) as Hok. rewrite Hst1 in Hok. apply ids_ok_pop in Hok.
    - apply ids_ok_push; try done; unfold s2; cbn; by rewrite ?F1, ?F2.
    - unfold ids_of. rewrite F1. by destruct (decide _). }
  assert (Hou : outer c c2) by (by destruct (frame_outer _ _ Hf1)).
  by destruct (savepoint_shows n c c2 s2).
Qed.

Lemma rollback_to_command_wp n c0 c ds t p ps :
  good c -> out c = out c0 -> outer c0 c -> live TBLOCK_INPROGRESS (p :: ps) -> stack c = ds ++ t :: p :: ps ->
  Forall undoing ds -> restarting t -> ts_name t = Some n ->
  xwp (CommitTransactionCommand new_id) c (fun c' r =>
    let w := writes (stack_ids (p :: ps)) (out c0) in
    match r with
    | inr _ => shows c0 c' (set_blk (Open w ((n, w) :: saves_of (p :: ps) (out c0))) (abs c0))
    | inl e => e = ERROR LimitExceeded /\ fails c0 c' (Broken (saves_of (p :: ps) (out c0)))
    end).
Proof.
  intros Hg Ho Hou Hl Hst Hds Ht Hn. unfold CommitTransactionCommand. apply xwp_get.
  apply (until_pops _ (t :: p :: ps) _ ds); [done..| | | |].
  - apply list.Forall_app. split; [|constructor; [unfold busy; unfold restarting in Ht; by destruct (blockState t)|by apply (live_busy TBLOCK_INPROGRESS)]].
    eapply list.Forall_impl; [exact Hds|]. intros s' H E. unfold undoing in H. by rewrite E in H.
  - eapply list.Forall_impl; [exact Hds|]. exact undoing_pops.
  - change (S (length (parents c))) with (length (stack c)). rewrite Hst, length_app. cbn. lia.
  - intros c1 Hg1 Hq1 Hf1 Hst1. unfold CommitTransactionCommandInternal. apply xwp_get. unfold id. pose proof Hst1 as [= Es Eps]. rewrite Es, Hn.
    rewrite (io_level _ _ _ _ (g_ids _ Hg1) t) by (rewrite Hst1; by left).
    assert (Hfin : forall c2, good c2 -> quiet (out c1) (out c2) -> frame c1 c2 -> stack c2 = p :: ps ->
      xwp (xbind (restart_savepoint (Some n) 0) (fun _ => xret true)) c2 (fun c' r => let w := writes (stack_ids (p :: ps)) (out c0) in
        match r with
        | inr d => d = true /\ shows c0 c' (set_blk (Open w ((n, w) :: saves_of (p :: ps) (out c0))) (abs c0))
        | inl e => e = ERROR LimitExceeded /\ fails c0 c' (Broken (saves_of (p :: ps) (out c0)))
        end)).
    { intros c2 Hg2 Hq2 Hf2 Hst2. assert (Hq : quiet (out c0) (out c2)) by (rewrite <- Ho; by eapply quiet_trans).
      assert (Hl2 : live TBLOCK_INPROGRESS (stack c2)) by (by rewrite Hst2). assert (Hou2 : outer c0 c2) by eauto using outer_trans, frame_outer.
      eapply xwp_mono; [by apply restart_savepoint_wp|]. unfold work. rewrite Hst2, (quiet_writes _ _ _ Hq), (quiet_saves _ _ _ Hq), (abs_quiet _ _ Hq).
      intros c3 [e|d] H3.
      - destruct H3 as [-> [A1 A2 A3 A4 A5]]. split; [done|]. split; [done|by eapply outer_trans|..|done].
        + by rewrite A3, (quiet_committed _ _ Hq).
        + by rewrite A4, (quiet_held _ _ Hq).
      - destruct H3 as [-> (A1 & A2 & A3)]. split; [done|]. split; [done|]. split; [by eapply outer_trans|done]. }
    set (c2 := set_stack (set_name None t) (p :: ps) c1).
    assert (Hg2 : good c2).
    { apply (good_frame c1); [done| |done]. pose proof (g_ids _ Hg1) as Hok. rewrite Hst1 in Hok. exact (ids_ok_rename _ _ _ _ _ _ Hok). }
    assert (Hst2 : stack c2 = set_name None t :: p :: ps) by done.
    unfold restarting in Ht. destruct (blockState t); try done; apply xwp_bind, upd_wp; rewrite Es, Eps; fold c2.
    + destruct Ht. apply drop_sub_assoc, xwp_bind. eapply xwp_mono; [by eapply drop_sub_wp|].
      intros c3 r (-> & Hg3 & Hq3 & Hf3 & Hst3).
      apply Hfin; [done|exact Hq3|by apply (frame_trans c1 c2)|done].
    + apply xwp_bind. eapply xwp_mono; [by eapply cleanup_sub_wp|]. intros c3 r (-> & Hg3 & Hq3 & Hf3 & Hst3).
      apply Hfin; [done|exact Hq3|by apply (frame_trans c1 c2)|done].
Qed.

Lemma rollback_to_wp n c :
  good c -> live TBLOCK_INPROGRESS (stack c) \/ broken (stack c) ->
  xwp (xbind (exec_statement new_id (SRollbackTo n)) (fun _ => CommitTransactionCommand new_id)) c (stmt_post (SRollbackTo n) c).
Proof.
  intros Hg Hl. apply xwp_bind, require_open_wp; [done|].
  assert (Hsaves : forall i w, find_save n (saves_of (stack c) (out c)) = Some (i, (n, w)) ->
    stmt_effect (SRollbackTo n) (abs c) = inr (set_blk (Open w (drop i (saves_of (stack c) (out c)))) (abs c)) /\
    fail_after (SRollbackTo n) (block_of c) = Broken (drop (S i) (saves_of (stack c) (out c)))).
  { intros i w E. unfold stmt_effect, fail_after. change (blk (abs c)) with (block_of c).
    destruct Hl as [Hl|Hl]; [rewrite (block_of_live _ Hl)|rewrite (block_of_broken _ Hl)]; by rewrite E. }
  assert (Hnamed : named (stack c)) by (destruct Hl; [by eapply live_named|by apply broken_named]).
  pose proof (find_named n (stack c) (out c) Hnamed) as Hfind.
  unfold RollbackToSavepoint. apply xwp_get. rewrite (g_par _ Hg). apply xwp_get.
  assert (Hnone : find_savepoint n (stack c) = None -> stmt_post (SRollbackTo n) c c (inl (ERROR SavepointDoesNotExist))).
  { intros E. rewrite E in Hfind. unfold stmt_post, stmt_effect, fail_after. change (blk (abs c)) with (block_of c).
    destruct Hl as [Hl|Hl]; [rewrite (block_of_live _ Hl)|rewrite (block_of_broken _ Hl)]; rewrite Hfind; (split; [by left|]).
    - by apply (fails_live c c (stack c)).
    - by apply fails_broken. }
  assert (Hsub : xwp (mark_savepoint abort_sub restart_level n) c (fun c1 r =>
    match r with inr _ => xwp (CommitTransactionCommand new_id) c1 (stmt_post (SRollbackTo n) c) | inl e => stmt_post (SRollbackTo n) c c1 (inl e) end)).
  { destruct (find_savepoint n (stack c)) as [[i t]|] eqn:Ef; [|unfold xwp; rewrite mark_savepoint_none by done; by apply Hnone].
    destruct Hfind as (Hfs & Ht & Hi & Hnt). destruct (mark_restart _ i Hl Hi) as (ds & t' & Hm & Hsc & Hds & Hre & Hlen & Hl').
    destruct (Hsaves _ _ Hfs) as [Heff Hfa].
    eapply mark_savepoint_wp; [done..|]. intros c1 Hg1 Ho1 Hf1 Hst1.
    assert (Hnt' : ts_name t' = Some n).
    { eapply Forall2_lookup_lr in Hsc; [|exact Ht|rewrite lookup_app_r by lia; by rewrite Hlen, Nat.sub_diag]. by rewrite (sc_name _ _ Hsc). }
    assert (Hsv : saves_of (drop (S i) (stack c)) (out c) = drop (S i) (saves_of (stack c) (out c))) by (by apply saves_drop).
    assert (Hdr : drop i (saves_of (stack c) (out c)) = (n, writes (stack_ids (drop (S i) (stack c))) (out c)) :: drop (S i) (saves_of (stack c) (out c))).
    { apply list_find_Some in Hfs as (Hfs & _ & _). by apply drop_S. }
    rewrite Hdr in Heff. destruct (drop (S i) (stack c)) as [|p ps] eqn:Ed; [by inversion Hl'|].
    eapply xwp_mono; [eapply (rollback_to_command_wp n c c1 ds t' p ps); try done; by apply frame_outer|].
    cbv zeta. rewrite Hsv. intros c2 [e|[]] H2; [|by eexists]. destruct H2 as [-> H2]. split; [right; split; [by eauto|apply resource_limit]|]. by rewrite Hfa. }
  remember (stack c) as l eqn:El. symmetry in El.
  destruct Hl as [Hl|Hl]; [destruct Hl as [s [R1 R2 R3] Hn ?|s ps m [R1 R2 R3]]|destruct Hl as [s E1 R2 Hn|s ps m E1 R2]];
    pose proof El as [= -> _]; rewrite R2; try done; apply Hnone; unfold find_savepoint; by rewrite find_cons, decide_False by congruence.
Qed.

(** *** The ends of a block *)

Lemma end_open_wp ch c :
  good c -> live TBLOCK_INPROGRESS (stack c) ->
  xwp (EndTransactionBlock ch) c (fun c' r => r = inr true /\ end_marked TBLOCK_END ch c c').
Proof.
  intros Hg Hl. unfold EndTransactionBlock. apply xwp_get. pose proof (mark_commit _ Hl) as (ds & s & H1 & H2 & H3 & [R1 R2 R3] & H5 & H6).
  assert (Hm : xwp (mark_whole commit_sub commit_top ch) c (fun c' r => r = inr tt /\ end_marked TBLOCK_END ch c c')).
  { eapply mark_whole_wp; [done..|]. intros c' Hg' Ho Hf Hst Hsc. split; [done|]. exists ds, (set_chain ch s).
    split; [by unfold marked; auto using frame_outer|]. done. }
  remember (stack c) as l eqn:El. symmetry in El.
  destruct Hl as [t [T1 T2 T3] Hn ?|t ps m [T1 T2 T3] Hn Hl]; pose proof El as [= -> _]; rewrite T2; apply xwp_bind.
  - eapply xwp_mono; [by eapply upd_marked|]. intros c' r [-> Hmk]. split; [done|]. exists [], (set_chain ch (set_block TBLOCK_END t)). done.
  - eapply xwp_mono; [exact Hm|]. by intros c' r [-> Hmk].
Qed.

Lemma commit_open_wp ch c :
  good c -> live TBLOCK_INPROGRESS (stack c) ->
  xwp (xbind (exec_statement new_id (SCommit ch)) (fun _ => CommitTransactionCommand new_id)) c (stmt_post (SCommit ch) c).
Proof.
  intros Hg Hl. apply xwp_bind, xwp_bind. eapply xwp_mono; [by apply end_open_wp|]. intros c1 r [-> Hm]. unfold xwp at 1. cbn.
  eapply xwp_mono; [by eapply commit_command_wp|].
  assert (Heff : stmt_effect (SCommit ch) (abs c) = inr (commit_work (work c) (next_block ch) (abs c)))
    by (unfold stmt_effect; change (blk (abs c)) with (block_of c); by rewrite (block_of_live _ Hl)).
  intros c2 [e|[]] H2; [|by eexists]. destruct H2 as (e' & -> & Hr & Hf). split; [right; split; [by eauto|done]|done].
Qed.

Lemma rollback_wp ch c :
  good c -> live TBLOCK_INPROGRESS (stack c) \/ broken (stack c) ->
  xwp (xbind (exec_statement new_id (SRollback ch)) (fun _ => CommitTransactionCommand new_id)) c (stmt_post (SRollback ch) c).
Proof.
  intros Hg Hl. apply xwp_bind. eapply xwp_mono; [by apply user_abort_wp|]. intros c1 r [-> Hm].
  eapply xwp_mono; [by eapply rollback_command_wp|]. intros c2 r [-> H]. eexists. split; [|exact H].
  unfold stmt_effect. change (blk (abs c)) with (block_of c). destruct Hl as [Hl|Hl]; [by rewrite (block_of_live _ Hl)|by rewrite (block_of_broken _ Hl)].
Qed.

(** [COMMIT] and [PREPARE TRANSACTION] of a failed block. *)
Lemma commit_broken_wp ch c :
  good c -> broken (stack c) ->
  xwp (xbind (exec_statement new_id (SCommit ch)) (fun _ => CommitTransactionCommand new_id)) c (stmt_post (SCommit ch) c).
Proof.
  intros Hg Hl. apply xwp_bind, xwp_bind. eapply xwp_mono; [by apply end_broken_wp|]. intros c1 r [-> Hm]. unfold xwp at 1. cbn.
  eapply xwp_mono; [by eapply rollback_command_wp|]. intros c2 r [-> H]. eexists. split; [|exact H].
  unfold stmt_effect. change (blk (abs c)) with (block_of c). by rewrite (block_of_broken _ Hl).
Qed.

Lemma prepare_broken_wp gid c :
  good c -> broken (stack c) ->
  xwp (xbind (exec_statement new_id (SPrepare gid)) (fun _ => CommitTransactionCommand new_id)) c (stmt_post (SPrepare gid) c).
Proof.
  intros Hg Hl. apply xwp_bind, xwp_bind, xwp_bind. eapply xwp_mono; [by apply end_broken_wp|]. intros c1 r [-> Hm]. unfold xwp at 1 2. cbn.
  eapply xwp_mono; [by eapply rollback_command_wp|]. intros c2 r [-> H]. eexists. split; [|exact H].
  unfold stmt_effect. change (blk (abs c)) with (block_of c). by rewrite (block_of_broken _ Hl).
Qed.

(** The top level is marked to be prepared instead. *)
Lemma prepare_block_wp gid c0 c (m : X bool) :
  xwp m c (fun c' r => r = inr true /\ end_marked TBLOCK_END false c0 c') ->
  xwp (xbind m (fun result => if result : bool then
      c <- xget id;
      let l := CurrentTransactionState c :: parents c in
      if decide (blockState (top_state (CurrentTransactionState c) (parents c)) = TBLOCK_END) then
        xmod (set_gid (Some gid));;
        match set_last (set_block TBLOCK_PREPARE) l with
        | s :: ps => xmod (set_stack s ps);; xret true
        | [] => unexpected
        end
      else xret false
    else xret false)%xact) c (fun c' r => r = inr true /\ end_marked TBLOCK_PREPARE false c0 c' /\ prepareGID c' = Some gid).
Proof.
  intros H. apply xwp_bind. eapply xwp_mono; [exact H|]. intros c1 r [-> (ds & s & (Hg & Ho & Hou & Hst & Hsc) & Hds & [R1 R2 R3] & Hn & Hch)].
  apply xwp_get. unfold id. cbv zeta. pose proof (last_top (CurrentTransactionState c1) (parents c1)) as Hlast. fold (stack c1) in *.
  rewrite Hst, last_snoc in Hlast. injection Hlast as Hlast. rewrite <- Hlast, decide_True by done. rewrite Hst, set_last_app.
  assert (Hsc1 : Forall2 same_core (stack c1) (ds ++ [set_block TBLOCK_PREPARE s])).
  { rewrite Hst. clear. induction ds; [by apply same_core_tail|]. by constructor. }
  assert (Hsc0 : Forall2 same_core (stack c0) (ds ++ [set_block TBLOCK_PREPARE s])).
  { rewrite Hst in Hsc. apply Forall2_app_inv_r in Hsc as (l1 & l2 & H1 & H2 & ->). apply Forall2_app; [done|].
    apply Forall2_cons_inv_r in H2 as (s0 & l0 & [] & H3 & ->). constructor; [by split|done]. }
  destruct (ds ++ [set_block TBLOCK_PREPARE s]) as [|t ps] eqn:E; [by destruct ds|]. unfold xwp. cbn. split; [done|]. split; [|done].
  exists ds, (set_block TBLOCK_PREPARE s). split; [|done]. split; [|split; [done|split; [by destruct Hou|split; [by rewrite E|done]]]].
  split; [|apply Hg]. cbn. eapply ids_ok_same; [exact Hsc1|]. apply (g_ids _ Hg).
Qed.

Lemma prepare_stmt_wp gid c w :
  xwp (EndTransactionBlock false) c (fun c' r => r = inr true /\ end_marked TBLOCK_END false c c') ->
  stmt_effect (SPrepare gid) (abs c) = inr (hold_work gid w Idle (abs c)) -> w = work c ->
  xwp (xbind (exec_statement new_id (SPrepare gid)) (fun _ => CommitTransactionCommand new_id)) c (stmt_post (SPrepare gid) c).
Proof.
  intros H Heff ->. apply xwp_bind, xwp_bind. eapply xwp_mono; [by apply prepare_block_wp|].
  intros c1 r (-> & Hm & Hgid). unfold xwp at 1. cbn. eapply xwp_mono; [by eapply prepare_command_wp|].
  intros c2 [e|[]] H2; [|by eexists]. destruct H2 as (e' & -> & Hr & Hf). split; [right; split; [by eauto|done]|done].
Qed.

(** *** Outside a transaction block *)

Lemma live_single b s : live b [s] -> running b s /\ ts_name s = None /\ nestingLevel s = 1.
Proof. intros H. inversion H as [|? ? ? ? ? H']; subst; [done|]. inversion H'. Qed.

Definition implicit (b : TBlockState) (c : xstate) (s : TransactionStateData) : Prop :=
  good c /\ stack c = [s] /\ running b s /\ ts_name s = None /\ nestingLevel s = 1.

Lemma implicit_fails b c s : b = TBLOCK_STARTED \/ b = TBLOCK_IMPLICIT_INPROGRESS -> implicit b c s -> fails c c Idle.
Proof.
  intros Hb (Hg & Hst & Hr & Hn & _). eapply (doomed_fails b c c c); [by tauto|done..|by apply evolves_refl].
Qed.

Lemma commit_started_wp c s :
  implicit TBLOCK_STARTED c s ->
  xwp (CommitTransactionCommand new_id) c (fun c' r =>
    match r with
    | inr _ => shows c c' (commit_work (work c) Idle (abs c))
    | inl e => exists e', e = ERROR e' /\ resource e' /\ fails c c' Idle
    end).
Proof.
  intros Hi. pose proof Hi as (Hg & Hst & [R1 R2 R3] & Hn & _). apply command_once_wp. unfold CommitTransactionCommandInternal.
  apply xwp_get. unfold id. pose proof Hst as [= Es _]. rewrite Es, R2.
  eapply xwp_mono; [apply (top_commit_wp _ Idle c s); [done..|congruence|done|]|].
  - intros c1 s1 Hg1 Hst1 Hend. by eapply set_default_wp.
  - intros c1 [e|d] H1; [|done]. destruct H1 as [-> ->]. eexists. split; [done|]. split; [unfold resource; auto|].
    eapply (implicit_fails TBLOCK_STARTED); [by left|exact Hi].
Qed.

Lemma implicit_end_wp b c s :
  (b = TBLOCK_IMPLICIT_INPROGRESS) -> implicit b c s ->
  xwp (EndTransactionBlock false) c (fun c' r => r = inr true /\ end_marked TBLOCK_END false c c').
Proof.
  intros -> (Hg & Hst & [R1 R2 R3] & Hn & _). unfold EndTransactionBlock. apply xwp_get. pose proof Hst as [= Es _]. rewrite Es, R2.
  apply xwp_bind. eapply xwp_mono; [by eapply upd_marked|]. intros c' r [-> Hmk]. split; [done|].
  exists [], (set_chain false (set_block TBLOCK_END s)). done.
Qed.

Definition multi_of (b : TBlockState) : bool := match b with TBLOCK_IMPLICIT_INPROGRESS => true | _ => false end.

Lemma block_of_implicit b c s :
  b = TBLOCK_STARTED \/ b = TBLOCK_IMPLICIT_INPROGRESS -> implicit b c s -> block_of c = Implicit (multi_of b) (work c).
Proof.
  intros Hb (Hg & Hst & [R1 R2 R3] & Hn & _). unfold block_of. pose proof Hst as [= Es _]. rewrite Es, R2.
  by destruct Hb as [-> | ->].
Qed.

Section implicit.
Context (b : TBlockState) (c : xstate) (s : TransactionStateData).
Context (Hb : b = TBLOCK_STARTED \/ b = TBLOCK_IMPLICIT_INPROGRESS) (Hi : implicit b c s).

Lemma implicit_effect st : stmt_effect st (abs c) = stmt_effect st (set_blk (Implicit (multi_of b) (work c)) (abs c)).
Proof. unfold abs, set_blk. cbn [db held]. by rewrite (block_of_implicit b c s Hb Hi). Qed.

Lemma implicit_error st e :
  stmt_effect st (abs c) = inl e -> fail_after st (Implicit (multi_of b) (work c)) = Idle -> stmt_post st c c (inl (ERROR e)).
Proof.
  intros He Hf. split; [by left|]. rewrite (block_of_implicit b c s Hb Hi), Hf. by apply (implicit_fails b c s).
Qed.

(** Savepoints need a transaction block. *)
Lemma implicit_savepoint_wp st :
  (exists n, st = SSavepoint n \/ st = SRelease n \/ st = SRollbackTo n) ->
  xwp (xbind (exec_statement new_id st) (fun _ => CommitTransactionCommand new_id)) c (stmt_post st c).
Proof.
  intros (n & Hst). pose proof Hi as (Hg & Hstk & [R1 R2 R3] & Hn & Hnest). pose proof Hstk as [= Es _].
  assert (Herr : stmt_post st c c (inl (ERROR NoActiveTransaction))).
  { apply implicit_error; [rewrite implicit_effect|]; by destruct Hst as [-> |[-> | ->]]. }
  assert (Hreq : forall m : X unit, (b = TBLOCK_IMPLICIT_INPROGRESS -> m c = (c, inl (ERROR NoActiveTransaction))) ->
     xwp (xbind (RequireTransactionBlock true) (fun _ => m)) c (fun c' r =>
       match r with inr _ => xwp (CommitTransactionCommand new_id) c' (stmt_post st c) | inl e => stmt_post st c c' (inl e) end)).
  { intros m Hm. unfold xwp at 1, RequireTransactionBlock, CheckTransactionBlock, IsTransactionBlock, IsSubTransaction, xbind, xget, id.
    rewrite Es, R2, Hnest. destruct Hb as [E|E]; rewrite E; cbn; [done|]. by rewrite (Hm E). }
  apply xwp_bind. destruct Hst as [-> |[-> | ->]]; apply Hreq; intros E;
    unfold DefineSavepoint, ReleaseSavepoint, RollbackToSavepoint, xbind, block, xget; rewrite (g_par _ Hg); cbv beta iota; by rewrite Es, R2, E.
Qed.

Definition own_commit (c2 : xstate) (r : xerror + unit) : Prop :=
  match r with
  | inr _ => shows c c2 (commit_work (work c) Idle (abs c))
  | inl e => exists e', e = ERROR e' /\ resource e' /\ fails c c2 Idle
  end.

Lemma own_commit_post st c2 r :
  stmt_effect st (abs c) = inr (commit_work (work c) Idle (abs c)) -> fail_after st (block_of c) = Idle -> own_commit c2 r -> stmt_post st c c2 r.
Proof.
  intros Heff Hfa. destruct r as [e|[]]; intros H; [|by eexists]. destruct H as (e' & -> & Hr & Hf).
  split; [right; split; [by eauto|done]|by rewrite Hfa].
Qed.

(** [COMMIT] outside a block only clears [chain]. *)
Lemma started_commit_wp :
  b = TBLOCK_STARTED -> xwp (CommitTransactionCommand new_id) (set_stack (set_chain false s) [] c) own_commit.
Proof.
  intros E. pose proof Hi as (Hg & Hstk & Hrun & Hn & Hnest). set (c1 := set_stack _ _ c).
  assert (Hsc : Forall2 same_core (stack c) (stack c1)) by (rewrite Hstk; by apply same_core_tail).
  assert (Hi1 : implicit TBLOCK_STARTED c1 (set_chain false s)).
  { rewrite <- E. split; [by apply (good_kept c)|]. destruct Hrun. done. }
  eapply xwp_mono; [by eapply commit_started_wp|]. intros c2 r H.
  assert (Hw : work c1 = work c) by (by apply same_core_work).
  destruct r as [e|[]].
  - destruct H as (e' & -> & Hr & [A1 A2 A3 A4 A5]). exists e'. split; [done|]. split; [done|]. split; try done. by destruct A2.
  - destruct H as (A1 & A2 & A3). split; [done|]. split; [by destruct A2|]. by rewrite A3, Hw.
Qed.

Lemma implicit_commit_wp ch :
  xwp (xbind (exec_statement new_id (SCommit ch)) (fun _ => CommitTransactionCommand new_id)) c (stmt_post (SCommit ch) c).
Proof.
  pose proof Hi as (Hg & Hstk & [R1 R2 R3] & Hn & Hnest). pose proof Hstk as [= Es Eps].
  destruct ch; [|destruct Hb as [E|E]].
  - apply xwp_bind, xwp_bind. unfold EndTransactionBlock. apply xwp_get. rewrite Es, R2.
    destruct Hb as [E|E]; rewrite E; apply implicit_error; by rewrite ?implicit_effect.
  - apply xwp_bind, xwp_bind. unfold EndTransactionBlock. apply xwp_get. rewrite Es, R2, E. unfold xwp at 1 2. cbn. rewrite Es, Eps.
    eapply xwp_mono; [by apply started_commit_wp|]. intros c2 r H. apply own_commit_post; [by rewrite implicit_effect|done..].
  - apply xwp_bind, xwp_bind. eapply xwp_mono; [by eapply implicit_end_wp|]. intros c1 r [-> Hm]. unfold xwp at 1. cbn.
    eapply xwp_mono; [by eapply commit_command_wp|]. intros c2 r H. apply own_commit_post; [by rewrite implicit_effect|done..].
Qed.

Lemma implicit_rollback_wp ch :
  xwp (xbind (exec_statement new_id (SRollback ch)) (fun _ => CommitTransactionCommand new_id)) c (stmt_post (SRollback ch) c).
Proof.
  pose proof Hi as (Hg & Hstk & [R1 R2 R3] & Hn & Hnest). pose proof Hstk as [= Es Eps].
  apply xwp_bind. unfold exec_statement, UserAbortTransactionBlock. apply xwp_get. rewrite Es, R2. destruct ch.
  - destruct Hb as [E|E]; rewrite E; apply implicit_error; by rewrite ?implicit_effect.
  - assert (Hup : xwp (upd (fun s => set_chain false (set_block TBLOCK_ABORT_PENDING s))) c (fun c1 r =>
      match r with inr _ => xwp (CommitTransactionCommand new_id) c1 (stmt_post (SRollback false) c) | inl e => stmt_post (SRollback false) c c1 (inl e) end)).
    { eapply xwp_mono; [by eapply upd_marked|]. intros c1 r [-> Hm]. eapply xwp_mono; [eapply (rollback_command_wp false c)|].
      - exists [], (set_chain false (set_block TBLOCK_ABORT_PENDING s)). split; [done|]. unfold undoing_top. cbn. by rewrite R1.
      - intros c2 r [-> H]. eexists. split; [by rewrite implicit_effect|done]. }
    by destruct Hb as [E|E]; rewrite E.
Qed.

Lemma implicit_prepare_wp gid :
  xwp (xbind (exec_statement new_id (SPrepare gid)) (fun _ => CommitTransactionCommand new_id)) c (stmt_post (SPrepare gid) c).
Proof.
  pose proof Hi as (Hg & Hstk & [R1 R2 R3] & Hn & Hnest). pose proof Hstk as [= Es Eps]. destruct Hb as [E|E].
  - apply xwp_bind, xwp_bind, xwp_bind. unfold EndTransactionBlock. apply xwp_get. rewrite Es, R2, E. unfold xwp at 1 2 3. cbn. rewrite Es, Eps.
    cbn. rewrite R2, E. cbn. eapply xwp_mono; [by apply started_commit_wp|].
    intros c2 r H. apply own_commit_post; [by rewrite implicit_effect, E|done..].
  - eapply prepare_stmt_wp; [by eapply implicit_end_wp|by rewrite implicit_effect, E|done].
Qed.

Lemma implicit_begin_wp :
  xwp (xbind (exec_statement new_id SBegin) (fun _ => CommitTransactionCommand new_id)) c (stmt_post SBegin c).
Proof.
  pose proof Hi as (Hg & Hstk & [R1 R2 R3] & Hn & Hnest). pose proof Hstk as [= Es Eps].
  assert (Hup : xwp (upd (set_block TBLOCK_BEGIN)) c (fun c1 r =>
    match r with inr _ => xwp (CommitTransactionCommand new_id) c1 (stmt_post SBegin c) | inl e => stmt_post SBegin c c1 (inl e) end)).
  { eapply upd_block_wp; [done..|]. intros c1 Hg1 Ho1 Hf1 Hst1. pose proof Hst1 as [= Es1 Eps1].
    apply command_once_wp. unfold CommitTransactionCommandInternal. apply xwp_get. unfold id. rewrite Es1. cbn [blockState set_block].
    apply xwp_bind. eapply upd_block_wp; [done..|]. intros c2 Hg2 Ho2 Hf2 Hst2.
    change (true = true /\ stmt_post SBegin c c2 (inr tt)). split; [done|]. exists (set_blk (Open (work c) []) (abs c)). split; [by rewrite implicit_effect|].
    assert (Hl2 : live TBLOCK_INPROGRESS (stack c2)) by (rewrite Hst2; by apply live_top).
    split; [split; [done|by apply rest_open]|]. split; [eauto using outer_trans, frame_outer|].
    rewrite (abs_quiet c c2) by (by rewrite Ho2, Ho1). rewrite (block_of_live _ Hl2). unfold set_blk. cbn [db held]. f_equal. f_equal.
    - apply same_core_work; [congruence|]. rewrite Hst2, Hstk. by apply same_core_tail.
    - by rewrite Hst2. }
  apply xwp_bind. unfold exec_statement, BeginTransactionBlock. apply xwp_get. rewrite Es, R2. by destruct Hb as [E|E]; rewrite E.
Qed.
End implicit.

(** ** Between two statements *)

Lemma abs_same c c' : stack c' = stack c -> out c' = out c -> abs c' = abs c.
Proof. intros Hst Ho. unfold abs, block_of. rewrite Ho, Hst. by pose proof Hst as [= -> _]. Qed.

Definition in_block_state (b : TBlockState) : Prop :=
  b = TBLOCK_INPROGRESS \/ b = TBLOCK_IMPLICIT_INPROGRESS \/ b = TBLOCK_SUBINPROGRESS.

Lemma next_command_wp c :
  good c -> in_block_state (blockState (CurrentTransactionState c)) ->
  xwp (CommitTransactionCommand new_id) c (fun c' r => (r = inr tt \/ r = inl (ERROR LimitExceeded)) /\
    stack c' = stack c /\ out c' = out c /\ frame c c' /\ good c').
Proof.
  intros Hg Hb. apply command_once_wp. unfold CommitTransactionCommandInternal. apply xwp_get. unfold id.
  assert (H : xwp (xbind CommandCounterIncrement (fun _ => xret true)) c (fun c' r =>
    match r with inr d => d = true /\ ((inr tt : xerror + unit) = inr tt \/ (inr tt : xerror + unit) = inl (ERROR LimitExceeded)) /\ stack c' = stack c /\ out c' = out c /\ frame c c' /\ good c'
    | inl e => ((inl e : xerror + unit) = inr tt \/ (inl e : xerror + unit) = inl (ERROR LimitExceeded)) /\ stack c' = stack c /\ out c' = out c /\ frame c c' /\ good c' end)).
  { apply xwp_bind. eapply xwp_mono; [apply cci_wp, Hg|]. intros c1 r (Hr & Hst & Ho & Hf).
    assert (Hg1 : good c1) by (by apply (good_same c)). destruct r as [e|[]]; [done|]. unfold xwp. cbn. split; [done|]. split; [by left|done]. }
  destruct Hb as [-> |[-> | ->]]; exact H.
Qed.

Lemma begin_open_wp c :
  good c -> live TBLOCK_INPROGRESS (stack c) ->
  xwp (xbind (exec_statement new_id SBegin) (fun _ => CommitTransactionCommand new_id)) c (stmt_post SBegin c).
Proof.
  intros Hg Hl. pose proof (block_of_live _ Hl) as Hblk.
  assert (Hb : blockState (CurrentTransactionState c) = TBLOCK_INPROGRESS \/ blockState (CurrentTransactionState c) = TBLOCK_SUBINPROGRESS)
    by (by eapply live_head_block).
  assert (Heff : stmt_effect SBegin (abs c) = inr (abs c)) by (unfold stmt_effect; change (blk (abs c)) with (block_of c); by rewrite Hblk).
  assert (H : xwp (CommitTransactionCommand new_id) c (stmt_post SBegin c)).
  { eapply xwp_mono; [apply next_command_wp; [done|unfold in_block_state; tauto]|].
    intros c1 r (Hr & Hst & Ho & Hf & Hg1). destruct Hr as [-> | ->].
    - exists (abs c). split; [done|]. split; [split; [done|rewrite Hst; by apply rest_open]|]. split; [by apply frame_outer|].
      by apply abs_same.
    - split; [right; split; [by eauto|apply resource_limit]|]. unfold fail_after. rewrite Hblk. apply (fails_live c c1 (stack c)); try done. by rewrite Ho. }
  apply xwp_bind. unfold exec_statement, BeginTransactionBlock. apply xwp_get. destruct Hb as [-> | ->]; exact H.
Qed.

(** Every transaction statement refines its description. *)
Lemma stmt_wp st c :
  session_ok c -> IsTransactionStmt st = true -> block_of c <> Idle ->
  (IsTransactionExitStmt st = false -> IsAbortedTransactionBlockState c = false) ->
  xwp (xbind (exec_statement new_id st) (fun _ => CommitTransactionCommand new_id)) c (stmt_post st c).
Proof.
  intros [Hg Hr] Hst Hidle Hab. remember (stack c) as l eqn:El. symmetry in El. destruct Hr as [s Hi|b s Hb Hl|l Hl|l Hl].
  - exfalso. apply Hidle. unfold block_of. injection El as -> _. by rewrite (proj1 Hi).
  - apply live_single in Hl. assert (Hi : implicit b c s) by (by split).
    destruct st; try done; [by eapply implicit_begin_wp|by eapply implicit_commit_wp|by eapply implicit_rollback_wp|by eapply implicit_prepare_wp|..];
      eapply implicit_savepoint_wp; eauto.
  - subst l. destruct st; try done;
      [by apply begin_open_wp|by apply commit_open_wp|apply rollback_wp; auto| |by apply savepoint_wp|by apply release_stmt_wp|apply rollback_to_wp; auto].
    eapply prepare_stmt_wp; [by apply end_open_wp| |done]. unfold stmt_effect. change (blk (abs c)) with (block_of c). by rewrite (block_of_live _ Hl).
  - subst l. assert (E : IsAbortedTransactionBlockState c = true).
    { unfold IsAbortedTransactionBlockState. pose proof (block_of_broken _ Hl) as Hb. unfold block_of in Hb. by destruct (blockState _). }
    destruct st; try done; try (specialize (Hab eq_refl); congruence);
      [by apply commit_broken_wp|apply rollback_wp; auto|by apply prepare_broken_wp|apply rollback_to_wp; auto].
Qed.
End session.
