(* ===== verification/XactSession.v ===== *)
(** * Sessions

    Query strings and sequences of them: [exec_simple_query] and the round of [PostgresMain]
    refine the description of [XactSpec], from every state a session can be in. *)
From stdpp Require Import gmultiset.
From S2P Require Import Prelude TransactionId Snapshot Xact XactInv XactSpec XactProg XactEnd XactStmt.
Local Open Scope Z_scope.

Section session.
Context {ids : IdSupply}.

(** ** What the statements leave alone *)

(** A statement does not touch [xact_started], and does not end in an implicit block. *)
Definition tame (m : X unit) (c : xstate) : Prop :=
  xwp m c (fun c' r => xact_started c' = xact_started c /\
    (r = inr tt -> blockState (CurrentTransactionState c') <> TBLOCK_IMPLICIT_INPROGRESS)).

Lemma mark_stack_head sub top l s ps :
  (forall b b', sub b = Some b' -> b' <> TBLOCK_IMPLICIT_INPROGRESS) -> (forall b b', top b = Some b' -> b' <> TBLOCK_IMPLICIT_INPROGRESS) ->
  mark_stack sub top l = Some (s :: ps) -> blockState s <> TBLOCK_IMPLICIT_INPROGRESS.
Proof.
  intros Hsub Htop. destruct l as [|t [|p ts]]; cbn [mark_stack]; unfold mbind, option_bind; [done|..].
  - destruct (top _) eqn:E; cbn; intros [= <- <-]. by eapply Htop.
  - destruct (sub _) eqn:E; cbn; [|done]. destruct (match ts with [] => _ | _ => _ end); cbn; intros [= <- <-]. by eapply Hsub.
Qed.

Lemma set_last_head f s ps t ts :
  (forall s, blockState (f s) = blockState s) -> set_last f (s :: ps) = t :: ts -> blockState t = blockState s.
Proof. unfold set_last. cbn. intros Hf. destruct ps; cbn; intros [= <- <-]; [apply Hf|done]. Qed.

Lemma mark_whole_tame sub top ch c :
  (forall b b', sub b = Some b' -> b' <> TBLOCK_IMPLICIT_INPROGRESS) -> (forall b b', top b = Some b' -> b' <> TBLOCK_IMPLICIT_INPROGRESS) ->
  tame (mark_whole sub top ch) c.
Proof.
  intros Hsub Htop. unfold tame, mark_whole. apply xwp_get. unfold id.
  destruct (mark_stack sub top _) as [[|s ps]|] eqn:E; [done| |done].
  destruct (set_last _ _) as [|t ts] eqn:E'; [done|]. split; [done|]. intros _. cbn.
  rewrite (set_last_head (set_chain ch) _ _ _ _ (fun s => eq_refl) E'). exact (mark_stack_head sub top _ s ps Hsub Htop E).
Qed.

Lemma mark_to_head above at_target i l s ps :
  (forall b b', above b = Some b' -> b' <> TBLOCK_IMPLICIT_INPROGRESS) -> (forall b b', at_target b = Some b' -> b' <> TBLOCK_IMPLICIT_INPROGRESS) ->
  mark_to above at_target i l = Some (s :: ps) -> blockState s <> TBLOCK_IMPLICIT_INPROGRESS.
Proof.
  intros Ha Ht. destruct l as [|t ts], i as [|i]; cbn [mark_to]; unfold mbind, option_bind; try done.
  - destruct (at_target _) eqn:E; cbn; intros [= <- <-]. by eapply Ht.
  - destruct (above _) eqn:E; cbn; [|done]. destruct (mark_to _ _ i ts); cbn; intros [= <- <-]. by eapply Ha.
Qed.

Lemma mark_savepoint_tame above at_target n c :
  (forall b b', above b = Some b' -> b' <> TBLOCK_IMPLICIT_INPROGRESS) -> (forall b b', at_target b = Some b' -> b' <> TBLOCK_IMPLICIT_INPROGRESS) ->
  tame (mark_savepoint above at_target n) c.
Proof.
  intros Ha Ht. unfold tame, mark_savepoint. apply xwp_get. unfold id.
  destruct (find_savepoint _ _) as [[i t]|]; [|done]. destruct (negb _); [done|].
  destruct (mark_to _ _ _ _) as [[|s ps]|] eqn:E; [done| |done]. split; [done|]. intros _. exact (mark_to_head above at_target _ _ s ps Ha Ht E).
Qed.

Lemma mark_functions_tame : forall f, f = commit_sub \/ f = commit_top \/ f = abort_sub \/ f = abort_top \/ f = release_level \/ f = restart_level ->
  forall b b', f b = Some b' -> b' <> TBLOCK_IMPLICIT_INPROGRESS.
Proof. intros f Hf b b' H ->. destruct Hf as [-> |[-> |[-> |[-> |[-> | ->]]]]]; by destruct b. Qed.

Lemma end_tame ch c :
  xwp (EndTransactionBlock ch) c (fun c' r => xact_started c' = xact_started c /\
    (forall d, r = inr d -> blockState (CurrentTransactionState c') <> TBLOCK_IMPLICIT_INPROGRESS)).
Proof.
  pose proof mark_functions_tame as Hf.
  assert (H : forall d sub top, (sub = commit_sub /\ top = commit_top \/ sub = abort_sub /\ top = abort_top) ->
    xwp (xbind (mark_whole sub top ch) (fun _ => xret d)) c (fun c' r => xact_started c' = xact_started c /\
    (forall d : bool, r = inr d -> blockState (CurrentTransactionState c') <> TBLOCK_IMPLICIT_INPROGRESS))).
  { intros d sub top Hst. apply xwp_bind. assert (Ht : tame (mark_whole sub top ch) c) by (apply mark_whole_tame; apply Hf; tauto).
    unfold tame in Ht. eapply xwp_mono; [exact Ht|]. intros c1 [e|[]] [A1 A2]; split; auto; done. }
  unfold EndTransactionBlock. apply xwp_get. destruct (blockState _) eqn:E; try done; try (apply H; tauto).
  all: try (destruct ch); (split; [done|]); try done; intros d _; cbn; congruence.
Qed.

Lemma exec_tame st c : IsTransactionStmt st = true -> tame (exec_statement new_id st) c.
Proof.
  intros Hst. pose proof mark_functions_tame as Hf.
  assert (Hreq : forall m, tame m c -> tame (xbind (RequireTransactionBlock true) (fun _ => m)) c).
  { intros m Hm. apply xwp_bind. unfold RequireTransactionBlock, CheckTransactionBlock. apply xwp_get. unfold id.
    destruct (IsTransactionBlock c); [exact Hm|]. destruct (IsSubTransaction c); [exact Hm|done]. }
  destruct st as [p| |ch|ch|gid|n|n|n]; try done; unfold exec_statement.
  - unfold tame, BeginTransactionBlock. apply xwp_get. destruct (blockState _) eqn:E; split; try done; cbn; congruence.
  - apply xwp_bind. eapply xwp_mono; [apply end_tame|]. intros c1 [e|d] [A1 A2]; [by split|]. unfold xwp. cbn. eauto.
  - unfold tame, UserAbortTransactionBlock. apply xwp_get.
    assert (H : tame (mark_whole abort_sub abort_top ch) c) by (apply mark_whole_tame; apply Hf; tauto).
    destruct (blockState _) eqn:E; try done; try apply H; destruct ch; split; done.
  - apply xwp_bind, xwp_bind. eapply xwp_mono; [apply end_tame|]. intros c1 [e|[]] [A1 A2]; [by split| |unfold xwp; cbn; eauto].
    apply xwp_get. unfold id. cbv zeta. destruct (decide _) as [Et|]; [|unfold xwp; cbn; eauto].
    destruct (set_last _ _) as [|t ts] eqn:E'; [done|]. unfold xwp. cbn. split; [done|]. intros _.
    unfold set_last in E'. cbn in E'. destruct (parents c1); cbn in E'; injection E' as <- <-; [done|by eapply A2].
  - apply Hreq. unfold tame, DefineSavepoint. apply xwp_get. destruct (parallel_mode c); [done|]. apply xwp_get.
    assert (H : tame (xbind PushTransaction (fun _ => upd (set_name (Some n)))) c).
    { apply xwp_bind. unfold PushTransaction. apply xwp_get. unfold id. by destruct (_ =? _). }
    destruct (blockState _); try done; exact H.
  - apply Hreq. unfold tame, ReleaseSavepoint. apply xwp_get. destruct (parallel_mode c); [done|]. apply xwp_get.
    destruct (blockState _); try done. apply mark_savepoint_tame; apply Hf; tauto.
  - apply Hreq. unfold tame, RollbackToSavepoint. apply xwp_get. destruct (parallel_mode c); [done|]. apply xwp_get.
    destruct (blockState _); try done; apply mark_savepoint_tame; apply Hf; tauto.
Qed.

(** ** Starting a statement *)

(** [c] is about to run a statement in session [a]; before the first one of a string the transaction is already started. *)
Inductive at_stmt (multi : bool) (c : xstate) (a : asession) : Prop :=
| at_fresh : xact_started c = false -> abs c = a -> (forall m w, blk a <> Implicit m w) -> at_stmt multi c a
| at_going : xact_started c = true -> abs c = a -> blk a <> Idle -> (forall m w, blk a = Implicit m w -> m = true /\ multi = true) ->
    at_stmt multi c a
| at_first : xact_started c = true -> blk a = Idle -> abs c = set_blk (Implicit false []) a -> at_stmt multi c a.

Lemma set_blk_same a : set_blk (blk a) a = a.
Proof. by destruct a. Qed.

Lemma set_started_ok b c : session_ok c -> session_ok (set_started b c).
Proof. intros [[Hi Hp] Hr]. done. Qed.

(** [start_xact_command] *)
Lemma start_command_wp c :
  session_ok c -> xact_started c = true \/ (forall m w, block_of c <> Implicit m w) ->
  xwp start_xact_command c (fun c' r => r = inr tt /\ session_ok c' /\ xact_started c' = true /\
    abs c' = if xact_started c then abs c else set_blk (begin_block false (block_of c)) (abs c)).
Proof.
  intros [Hg Hr] Hc. unfold start_xact_command. apply xwp_get. destruct (xact_started c) eqn:Est; [done|].
  destruct Hc as [|Hc]; [done|]. apply xwp_bind. unfold StartTransactionCommand. apply xwp_get.
  assert (Hsame : block_of c <> Idle -> xwp (xret tt) c (fun c' r => match r with inl e => False | inr _ =>
    xwp (xmod (set_started true)) c' (fun c' r => r = inr tt /\ session_ok c' /\ xact_started c' = true /\ abs c' = set_blk (begin_block false (block_of c)) (abs c)) end)).
  { intros Hi. unfold xwp. cbn. split; [done|]. split; [by apply set_started_ok|]. split; [done|]. change (block_of c) with (blk (abs c)).
    replace (begin_block false (blk (abs c))) with (blk (abs c)); [by rewrite set_blk_same|]. cbn in *. by destruct (block_of c). }
  remember (stack c) as l eqn:El. symmetry in El. destruct Hr as [s Hi|b s Hb Hl|l Hl|l Hl].
  - injection El as Es Eps. rewrite Es, (proj1 Hi). apply xwp_bind. eapply start_transaction_wp; [done|unfold stack; by rewrite Es, Eps|done|].
    intros c1 s1 Hg1 Ho1 Hou1 Hst1 [R1 R2 R3] Hn1 Hnest1 Hf1 Hc1. eapply upd_block_wp; [done..|]. intros c2 Hg2 Ho2 Hf2 Hst2. unfold xwp. cbn.
    split; [done|]. split; [apply set_started_ok; split; [done|rewrite Hst2; eapply rest_implicit; [by left|by apply live_top]]|]. split; [done|].
    change (abs (set_started true c2)) with (abs c2). rewrite (abs_quiet c c2) by (by rewrite Ho2, Ho1).
    assert (Hb : block_of c = Idle) by (unfold block_of; by rewrite Es, (proj1 Hi)). rewrite Hb. f_equal. unfold block_of.
    pose proof Hst2 as [= -> _]. cbn [blockState set_block]. rewrite Hst2. cbn [stack_ids begin_block]. f_equal. unfold ids_of. cbn. rewrite Hf1.
    rewrite R1, decide_False by done. cbn. apply writes_nil.
  - exfalso. apply live_single in Hl. by eapply Hc, (block_of_implicit b c s).
  - subst l. pose proof (block_of_live _ Hl) as Hb. destruct (live_head_block _ _ _ _ Hl eq_refl) as [[E|E] _]; rewrite E; apply Hsame; by rewrite Hb.
  - subst l. pose proof (block_of_broken _ Hl) as Hb.
    assert (E : blockState (CurrentTransactionState c) = TBLOCK_ABORT \/ blockState (CurrentTransactionState c) = TBLOCK_SUBABORT).
    { unfold block_of in Hb. destruct (blockState _); try done; auto. }
    destruct E as [E|E]; rewrite E; apply Hsame; by rewrite Hb.
Qed.

Definition to_multi (multi : bool) (b : ablock) : ablock :=
  match b with Implicit m w => Implicit (m || multi) w | _ => b end.

Lemma begin_implicit_wp (multi : bool) c :
  session_ok c -> block_of c <> Idle ->
  xwp (if multi then BeginImplicitTransactionBlock else xret tt) c (fun c' r => r = inr tt /\ session_ok c' /\ outer c c' /\
    abs c' = set_blk (to_multi multi (block_of c)) (abs c)).
Proof.
  intros [Hg Hr] Hidle.
  assert (Hsame : (forall w, block_of c = Implicit false w -> multi = false) -> set_blk (to_multi multi (block_of c)) (abs c) = abs c).
  { intros H. rewrite <- (set_blk_same (abs c)) at 2. f_equal. change (blk (abs c)) with (block_of c).
    unfold to_multi. destruct (block_of c) as [|[] w| |]; try done. by rewrite (H w). }
  destruct multi; [|unfold xwp; cbn; rewrite Hsame by done; split; [done|]; split; [by split|]; split; [done|done]].
  unfold BeginImplicitTransactionBlock. apply xwp_get. destruct (decide _) as [E|E].
  - remember (stack c) as l eqn:El. symmetry in El.
    assert (exists s, l = [s] /\ live TBLOCK_STARTED [s]) as (s & -> & Hl).
    { destruct Hr as [s Hi|b s Hb Hl|l Hl|l Hl].
      - injection El as Es _. rewrite Es, (proj1 Hi) in E. done.
      - exists s. split; [done|]. pose proof (live_single _ _ Hl) as ([R1 R2 R3] & _). injection El as Es _. congruence.
      - subst l. destruct (live_head_block _ _ _ _ Hl eq_refl) as [[E'|E'] _]; congruence.
      - subst l. pose proof (block_of_broken _ Hl) as Hb. unfold block_of in Hb. rewrite E in Hb. done. }
    apply live_single in Hl as ([R1 R2 R3] & Hn & Hnest).
    eapply upd_block_wp; [done..|]. intros c1 Hg1 Ho1 Hf1 Hst1. split; [done|].
    split; [split; [done|rewrite Hst1; eapply rest_implicit; [by right|by apply live_top]]|]. split; [by apply frame_outer|].
    rewrite (abs_quiet c c1) by (by rewrite Ho1). f_equal. unfold block_of. rewrite E. pose proof Hst1 as [= -> _]. cbn [blockState set_block orb to_multi].
    f_equal. apply same_core_work; [done|]. rewrite El, Hst1. by apply same_core_tail.
  - unfold xwp. cbn. rewrite Hsame; [split; [done|]; split; [by split|]; split; done|].
    intros w Hw. exfalso. unfold block_of in Hw. destruct (blockState (CurrentTransactionState c)); done.
Qed.

Lemma start_stmt_wp multi c a (m : X unit) Q :
  session_ok c -> at_stmt multi c a ->
  (forall c', session_ok c' -> xact_started c' = true -> abs c' = set_blk (begin_block multi (blk a)) a -> block_of c' <> Idle -> xwp m c' Q) ->
  xwp (xbind start_xact_command (fun _ => xbind (if multi then BeginImplicitTransactionBlock else xret tt) (fun _ => m))) c Q.
Proof.
  intros Hok Hat Hm. apply xwp_bind. eapply xwp_mono; [apply start_command_wp; [done|]|].
  { destruct Hat as [_ <- H|H|H]; auto. }
  intros c1 r (-> & Hok1 & Hst1 & Ha1).
  assert (Hb1 : exists b, abs c1 = set_blk b a /\ b <> Idle /\ to_multi multi b = begin_block multi (blk a)).
  { destruct Hat as [Hs <- Hi|Hs <- Hi Hmul|Hs Hi Hf]; rewrite Hs in Ha1.
    - exists (begin_block false (block_of c)). split; [done|]. change (blk (abs c)) with (block_of c) in *. destruct (block_of c) eqn:E; try done. exfalso. by eapply Hi.
    - exists (blk (abs c)). rewrite set_blk_same. split; [done|]. split; [done|]. destruct (blk (abs c)) as [|m0 w| |] eqn:E; try done.
      destruct (Hmul m0 w eq_refl) as [-> ->]. done.
    - exists (Implicit false []). rewrite Ha1, Hf. split; [done|]. split; [done|]. by rewrite Hi. }
  destruct Hb1 as (b & Hb1 & Hni & Hbb). assert (Hblk : block_of c1 = b) by (change (blk (abs c1) = b); by rewrite Hb1).
  apply xwp_bind. eapply xwp_mono; [apply begin_implicit_wp; [done|by rewrite Hblk]|]. intros c2 r (-> & Hok2 & Hou2 & Ha2).
  rewrite Hblk, Hbb, Hb1 in Ha2. apply Hm; [done|by rewrite (ou_started _ _ Hou2)|done|].
  change (blk (abs c2) <> Idle). rewrite Ha2. cbn. by destruct (blk a).
Qed.

(** ** Queries *)

(** An error that ends the session left [c']. *)
Record dies (c c' : xstate) : Prop := {
  di_good : good c';
  di_outer : outer c c';
  di_db : committed_rows (out c') = committed_rows (out c);
  di_held : held_rows (out c') = held_rows (out c);
  di_stack : exists ds s, stack c' = ds ++ [s] /\ Forall ends ds /\ ends_top s
}.

Lemma live_ends b l : b = TBLOCK_STARTED \/ b = TBLOCK_IMPLICIT_INPROGRESS \/ b = TBLOCK_INPROGRESS -> live b l ->
  exists ds s, l = ds ++ [s] /\ Forall ends ds /\ ends_top s.
Proof.
  intros Hb. induction 1 as [s [R1 R2 R3] Hn _|s ps n [R1 R2 R3] Hn Hl (ds & t & -> & Hds & Ht)].
  - exists [], s. split; [done|]. split; [constructor|]. split; [|done]. rewrite R1, R2. by destruct Hb as [-> |[-> | ->]].
  - exists (s :: ds), t. split; [done|]. split; [|done]. constructor; [|done]. unfold ends, owned. rewrite R1, R2. split; [done|by left].
Qed.

(** The levels of a transaction that a query runs in. *)
Definition top_block (b : TBlockState) : Prop := b = TBLOCK_STARTED \/ b = TBLOCK_IMPLICIT_INPROGRESS \/ b = TBLOCK_INPROGRESS.

Lemma rest_live c :
  session_ok c -> block_of c <> Idle -> (forall sv, block_of c <> Broken sv) ->
  exists b, top_block b /\ live b (stack c) /\ (b <> TBLOCK_INPROGRESS -> parents c = []) /\
    block_of c = match b with TBLOCK_INPROGRESS => Open (work c) (saves_of (stack c) (out c)) | _ => Implicit (multi_of b) (work c) end.
Proof.
  intros [Hg Hr] Hidle Hbr. remember (stack c) as l eqn:El. symmetry in El. destruct Hr as [s Hi|b s Hb Hl|l Hl|l Hl].
  - exfalso. apply Hidle. unfold block_of. injection El as -> _. by rewrite (proj1 Hi).
  - exists b. pose proof (live_single _ _ Hl) as Hs. rewrite (block_of_implicit b c s Hb) by (by split).
    injection El as _ Eps. split; [unfold top_block; tauto|]. split; [done|]. split; [done|]. by destruct Hb as [-> | ->].
  - subst l. exists TBLOCK_INPROGRESS. split; [unfold top_block; tauto|]. split; [done|]. split; [done|]. by apply block_of_live.
  - subst l. exfalso. eapply Hbr. by apply block_of_broken.
Qed.

Lemma live_alive b l : live b l -> alive l.
Proof. induction 1 as [s [R1 _ _]|s ps n [R1 _ _] _ _ IH]; constructor; try done; try constructor; congruence. Qed.

Definition live_block (b : TBlockState) (c : xstate) : ablock :=
  match b with TBLOCK_INPROGRESS => Open (work c) (saves_of (stack c) (out c)) | _ => Implicit (multi_of b) (work c) end.

Lemma live_implicit b c :
  top_block b -> b <> TBLOCK_INPROGRESS -> good c -> live b (stack c) -> parents c = [] ->
  (b = TBLOCK_STARTED \/ b = TBLOCK_IMPLICIT_INPROGRESS) /\ implicit b c (CurrentTransactionState c).
Proof.
  intros Hb Hn Hg Hl Hps. assert (Hst : stack c = [CurrentTransactionState c]) by (unfold stack; by rewrite Hps).
  rewrite Hst in Hl. apply live_single in Hl. split; [unfold top_block in Hb; tauto|by split].
Qed.

Lemma parents_shape c c1 : Forall2 same_shape (stack c) (stack c1) -> parents c = [] -> parents c1 = [].
Proof. intros H E. inversion H as [|s s' l l' Hs Hl]; subst. rewrite E in Hl. by inversion Hl. Qed.

Lemma evolves_fails b c c1 :
  top_block b -> live b (stack c) -> (b <> TBLOCK_INPROGRESS -> parents c = []) -> good c -> evolves c c1 -> fails c c1 (fail_block (live_block b c)).
Proof.
  intros Hb Hl Hps Hg Hev. destruct (decide (b = TBLOCK_INPROGRESS)) as [-> |Hn].
  - destruct Hev as [E1 E2 E3 E4 E5 E6]. split; try done. exists [], (stack c1). split; [done|]. split; [constructor|]. cbn [live_block fail_block].
    rewrite <- E3. apply left_live. by eapply same_shape_live.
  - destruct (live_implicit b c Hb Hn Hg Hl (Hps Hn)) as [Hb' (_ & Hst & Hr & Hnm & _)].
    replace (fail_block (live_block b c)) with Idle by (by destruct Hb' as [-> | ->]).
    eapply (doomed_fails b c c c1); try done. tauto.
Qed.

Lemma evolves_shows b c c1 :
  top_block b -> live b (stack c) -> (b <> TBLOCK_INPROGRESS -> parents c = []) -> block_of c = live_block b c -> evolves c c1 ->
  shows c c1 (set_blk (with_work (work c1) (block_of c)) (abs c)).
Proof.
  intros Hb Hl Hps Hblk [E1 E2 E3 E4 E5 E6]. pose proof (same_shape_live _ _ _ E2 Hl) as Hl1. rewrite Hblk.
  assert (Habs : forall bl, block_of c1 = bl -> abs c1 = set_blk bl (abs c)) by (intros bl <-; unfold abs, set_blk; cbn; congruence).
  destruct (decide (b = TBLOCK_INPROGRESS)) as [-> |Hn].
  - split; [split; [done|by apply rest_open]|]. split; [done|]. apply Habs. by rewrite (block_of_live _ Hl1), E3.
  - pose proof (parents_shape _ _ E2 (Hps Hn)) as Hps1. destruct (live_implicit b c1 Hb Hn E1 Hl1 Hps1) as [Hb' Hi].
    split; [split; [done|]|split; [done|]].
    + unfold stack in *. rewrite Hps1 in *. by eapply rest_implicit.
    + apply Habs. rewrite (block_of_implicit b c1 _ Hb' Hi). by destruct Hb' as [-> | ->].
Qed.

Lemma query_wp p c :
  session_ok c -> block_of c <> Idle -> (forall sv, block_of c <> Broken sv) ->
  xwp (run_prog new_id p) c (fun c' r =>
    match r with
    | inr _ => exists w, prog_spec p (work_of (block_of c)) (Fine w) /\ shows c c' (set_blk (with_work w (block_of c)) (abs c))
    | inl (ERROR e) => prog_spec p (work_of (block_of c)) (Error e) /\ fails c c' (fail_block (block_of c))
    | inl (FATAL e) => prog_spec p (work_of (block_of c)) (Fatal e) /\ dies c c'
    end).
Proof.
  intros Hok Hidle Hbr. destruct (rest_live c Hok Hidle Hbr) as (b & Hb & Hl & Hps & Hblk). pose proof (proj1 Hok) as Hg.
  assert (Hw : work_of (block_of c) = work c) by (rewrite Hblk; by destruct Hb as [-> |[-> | ->]]). rewrite Hw.
  assert (Hruns : runs (CurrentTransactionState c)).
  { remember (stack c) as l eqn:El. symmetry in El. destruct Hl as [s [R1 R2 R3] ? ?|s ps n [R1 R2 R3] ? ?]; injection El as -> _; unfold runs; rewrite R2.
    - split; [done|]. by destruct Hb as [-> |[-> | ->]].
    - done. }
  pose proof (run_prog_wp p c Hg (live_alive _ _ Hl) Hruns) as Hp. unfold prog_wp in Hp. eapply xwp_mono; [exact Hp|].
  intros c1 [[e|e]|[]] [H1 H1'].
  - split; [done|]. rewrite Hblk. by eapply evolves_fails.
  - split; [done|]. destruct H1 as [F1 F2 F3 F4 (ds & l & F5 & F6 & F7)]. split; try done.
    destruct (live_ends b l Hb) as (es & s & -> & Hes & Hs); [by eapply same_shape_live|]. exists (ds ++ es), s.
    split; [by rewrite F5, app_assoc|]. split; [by apply list.Forall_app|done].
  - exists (work c1). split; [done|]. by eapply evolves_shows.
Qed.

(** ** The end of a statement *)

Lemma finish_wp c (Q : xstate -> xerror + unit -> Prop) :
  xact_started c = true ->
  xwp (CommitTransactionCommand new_id) c (fun c' r => match r with inr _ => Q (set_started false c') (inr tt) | inl e => Q c' (inl e) end) ->
  xwp (finish_xact_command new_id) c Q.
Proof.
  intros Hs H. unfold finish_xact_command. apply xwp_get. rewrite Hs. apply xwp_bind. eapply xwp_mono; [exact H|]. by intros c' [e|[]] Hc.
Qed.

(** The state of a session in which a query ran. *)
Definition query_state (multi : bool) (c : xstate) : Prop :=
  session_ok c /\ xact_started c = true /\ block_of c <> Idle /\ (forall sv, block_of c <> Broken sv) /\
  (forall m w, block_of c = Implicit m w -> m = multi).

Lemma in_transaction_fails c c1 b :
  top_block b -> live b (stack c) -> (b <> TBLOCK_INPROGRESS -> parents c = []) -> good c ->
  stack c1 = stack c -> out c1 = out c -> frame c c1 -> good c1 -> fails c c1 (fail_block (live_block b c)).
Proof.
  intros Hb Hl Hps Hg Hst Ho Hf Hg1. eapply evolves_fails; try done.
  split; rewrite ?Hst, ?Ho; try done; [apply same_shape_refl|by apply frame_outer].
Qed.

(** Between two statements of a string. *)
Lemma query_next_wp multi c :
  query_state multi c ->
  xwp CommandCounterIncrement c (fun c' r =>
    match r with
    | inr _ => session_ok c' /\ xact_started c' = true /\ abs c' = abs c
    | inl e => exists e', e = ERROR e' /\ resource e' /\ fails c c' (fail_block (block_of c))
    end).
Proof.
  intros (Hok & Hs & Hi & Hb & _). destruct (rest_live c Hok Hi Hb) as (b & Htb & Hl & Hps & Hblk). pose proof (proj1 Hok) as Hg.
  eapply xwp_mono; [apply cci_wp, Hg|]. intros c1 r (Hr & Hst & Ho & Hf). assert (Hg1 : good c1) by (by apply (good_same c)).
  destruct Hr as [-> | ->].
  - split; [split; [done|rewrite Hst; apply Hok]|]. split; [by rewrite (fr_started _ _ Hf)|by apply abs_same].
  - eexists. split; [done|]. split; [apply resource_limit|]. rewrite Hblk. by eapply in_transaction_fails.
Qed.

(** The end of a string commits what is not in a transaction block. *)
Lemma query_last_wp multi c :
  query_state multi c ->
  xwp (xbind (if multi then EndImplicitTransactionBlock else xret tt) (fun _ => finish_xact_command new_id)) c (fun c' r =>
    match r with
    | inr _ => session_ok c' /\ xact_started c' = false /\ abs c' = finish_block (abs c)
    | inl e => exists e', e = ERROR e' /\ resource e' /\ fails c c' (fail_block (block_of c))
    end).
Proof.
  intros (Hok & Hs & Hi & Hb & Hmul). destruct (rest_live c Hok Hi Hb) as (b & Htb & Hl & Hps & Hblk). pose proof (proj1 Hok) as Hg.
  apply xwp_bind. destruct (decide (b = TBLOCK_INPROGRESS)) as [-> |Hn].
  - assert (Hnone : (if multi then EndImplicitTransactionBlock else xret tt) c = (c, inr tt)).
    { destruct multi; [|done]. unfold EndImplicitTransactionBlock, xbind, block, xget. cbv beta iota.
      destruct (live_head_block _ _ _ _ Hl eq_refl) as [[E|E] _]; rewrite E; done. }
    unfold xwp at 1. rewrite Hnone. cbn [fst snd]. apply finish_wp; [done|].
    eapply xwp_mono; [apply next_command_wp; [done|]|].
    { destruct (live_head_block _ _ _ _ Hl eq_refl) as [[E|E] _]; rewrite E; unfold in_block_state; tauto. }
    intros c1 r (Hr & Hst & Ho & Hf & Hg1). destruct Hr as [-> | ->].
    + split; [apply set_started_ok; split; [done|rewrite Hst; apply Hok]|]. split; [done|].
      change (abs (set_started false c1)) with (abs c1). rewrite (abs_same _ _ Hst Ho). unfold finish_block.
      change (blk (abs c)) with (block_of c). by rewrite Hblk.
    + eexists. split; [done|]. split; [apply resource_limit|]. rewrite Hblk. by eapply (in_transaction_fails c c1 TBLOCK_INPROGRESS).
  - destruct (live_implicit b c Htb Hn Hg Hl (Hps Hn)) as [Hb' Himp]. pose proof Himp as (_ & Hst & [R1 R2 R3] & Hnm & Hnest).
    assert (Hfin : finish_block (abs c) = commit_work (work c) Idle (abs c)).
    { unfold finish_block. change (blk (abs c)) with (block_of c). rewrite (block_of_implicit _ _ _ Hb' Himp). done. }
    assert (Hfa : fail_block (block_of c) = Idle) by (by rewrite (block_of_implicit _ _ _ Hb' Himp)). rewrite Hfa, Hfin.
    assert (Hcommit : forall c1 s1, implicit TBLOCK_STARTED c1 s1 -> xact_started c1 = true -> out c1 = out c -> outer c c1 -> work c1 = work c ->
      xwp (finish_xact_command new_id) c1 (fun c' r => match r with
      | inr _ => session_ok c' /\ xact_started c' = false /\ abs c' = commit_work (work c) Idle (abs c)
      | inl e => exists e', e = ERROR e' /\ resource e' /\ fails c c' Idle end)).
    { intros c1 s1 Hi1 Hs1 Ho1 Hou1 Hw1. apply finish_wp; [done|]. eapply xwp_mono; [by eapply commit_started_wp|]. intros c2 [e|[]] H2.
      - destruct H2 as (e' & -> & Hr & [A1 A2 A3 A4 A5]). exists e'. split; [done|]. split; [done|]. rewrite Ho1 in *. split; try done. by eapply outer_trans.
      - destruct H2 as (A1 & A2 & A3). split; [by apply set_started_ok|]. split; [done|]. change (abs (set_started false c2)) with (abs c2).
        rewrite A3, Hw1, (abs_quiet c c1); [done|]. by rewrite Ho1. }
    destruct multi.
    + assert (E : b = TBLOCK_IMPLICIT_INPROGRESS).
      { pose proof (Hmul _ _ (block_of_implicit _ _ _ Hb' Himp)). by destruct Hb' as [-> | ->]. }
      unfold EndImplicitTransactionBlock. apply xwp_get. rewrite R2, E, decide_True by done.
      eapply upd_block_wp; [done..|]. intros c1 Hg1 Ho1 Hf1 Hst1.
      apply (Hcommit c1 (set_block TBLOCK_STARTED (CurrentTransactionState c))); [|by rewrite (fr_started _ _ Hf1)|done|by apply frame_outer|].
      * split; [done|]. split; [done|]. done.
      * apply same_core_work; [done|]. rewrite Hst, Hst1. by apply same_core_tail.
    + assert (E : b = TBLOCK_STARTED).
      { pose proof (Hmul _ _ (block_of_implicit _ _ _ Hb' Himp)). by destruct Hb' as [-> | ->]. }
      unfold xwp at 1. cbn. subst b. by eapply Hcommit.
Qed.

(** ** Query strings *)

Definition halts (c : xstate) (b : ablock) : Prop :=
  good c /\ exists ds base, stack c = ds ++ base /\ Forall dropped ds /\ left_over (out c) base b.
Definition dead (c : xstate) : Prop := good c /\ exists ds s, stack c = ds ++ [s] /\ Forall ends ds /\ ends_top s.

Definition not_implicit (b : ablock) : Prop := forall m w, b <> Implicit m w.

Definition string_post (multi : bool) (l : list statement) (a : asession) (c' : xstate) (r : xerror + unit) : Prop :=
  match r with
  | inr _ => session_ok c' /\ xact_started c' = false /\ not_implicit (block_of c') /\ string_spec multi l a Completed (abs c')
  | inl (ERROR e) => exists b, halts c' b /\ string_spec multi l a (Failed e) (set_blk b (abs c'))
  | inl (FATAL e) => dead c' /\ string_spec multi l a (Terminated e) (set_blk Idle (abs c'))
  end.

Lemma fails_halts c c' b x : fails c c' b -> halts c' b /\ set_blk x (abs c') = set_blk x (abs c).
Proof. intros [A1 A2 A3 A4 A5]. split; [by split|]. unfold abs, set_blk. cbn. by rewrite A3, A4. Qed.

Lemma set_blk_blk b b' a : set_blk b (set_blk b' a) = set_blk b a.
Proof. done. Qed.

(** The check for a failed block does not stop the statement. *)
Definition passes (st : statement) (b : ablock) : Prop := forall sv, b = Broken sv -> IsTransactionExitStmt st = true.

Lemma string_query_failed multi p rest a e a' :
  passes (SQuery p) (blk a) -> let b := begin_block multi (blk a) in
  prog_spec p (work_of b) (Error e) -> a' = set_blk (fail_block b) a -> string_spec multi (SQuery p :: rest) a (Failed e) a'.
Proof. intros Hp b H1 H2. cbn -[prog_spec]. destruct (blk a) eqn:E; [..|by specialize (Hp _ eq_refl)]; left; exists e; done. Qed.

Lemma string_query_fatal multi p rest a e a' :
  passes (SQuery p) (blk a) -> let b := begin_block multi (blk a) in
  prog_spec p (work_of b) (Fatal e) -> a' = set_blk Idle a -> string_spec multi (SQuery p :: rest) a (Terminated e) a'.
Proof. intros Hp b H1 H2. cbn -[prog_spec]. destruct (blk a) eqn:E; [..|by specialize (Hp _ eq_refl)]; right; left; exists e; done. Qed.

Lemma string_query_late multi p rest a w e a' :
  passes (SQuery p) (blk a) -> let b := begin_block multi (blk a) in
  prog_spec p (work_of b) (Fine w) -> resource e -> a' = set_blk (fail_block b) a -> string_spec multi (SQuery p :: rest) a (Failed e) a'.
Proof. intros Hp b H1 H2 H3. cbn -[prog_spec]. destruct (blk a) eqn:E; [..|by specialize (Hp _ eq_refl)]; right; right; exists w; (split; [done|]); left; exists e; done. Qed.

Lemma string_query_fine multi p rest a w res a' :
  passes (SQuery p) (blk a) -> let b := begin_block multi (blk a) in
  prog_spec p (work_of b) (Fine w) ->
  string_spec multi rest (match rest with [] => finish_block (set_blk (with_work w b) a) | _ => set_blk (with_work w b) a end) res a' ->
  string_spec multi (SQuery p :: rest) a res a'.
Proof. intros Hp b H1 H2. cbn -[prog_spec]. destruct (blk a) eqn:E; [..|by specialize (Hp _ eq_refl)]; right; right; exists w; (split; [done|]); right; exact H2. Qed.

Lemma string_stmt multi st rest a res a' :
  passes st (blk a) -> IsTransactionStmt st = true ->
  let a1 := set_blk (begin_block multi (blk a)) a in
  match stmt_effect st a1 with
  | inl e => res = Failed e /\ a' = set_blk (fail_after st (blk a1)) a
  | inr a2 => (exists e, resource e /\ res = Failed e /\ a' = set_blk (fail_after st (blk a1)) a) \/ string_spec multi rest a2 res a'
  end -> string_spec multi (st :: rest) a res a'.
Proof.
  intros Hp Hst a1 H. cbn -[stmt_effect fail_after]. fold a1.
  destruct (blk a) eqn:E; [..|rewrite (Hp _ eq_refl)]; destruct st; try done; exact H.
Qed.

Lemma at_stmt_aborted multi c a st :
  session_ok c -> at_stmt multi c a -> IsAbortedTransactionBlockState c && negb (IsTransactionExitStmt st) = false -> passes st (blk a).
Proof.
  intros Hok Hat H sv Hsv. destruct Hat as [Hs Ha Hi|Hs Ha Hi Hm|Hs Hi Hf]; [..|congruence].
  all: subst a; change (blk (abs c)) with (block_of c) in Hsv; unfold block_of in Hsv; unfold IsAbortedTransactionBlockState in H;
    destruct (blockState _); try done; by destruct (IsTransactionExitStmt st).
Qed.

Lemma at_stmt_broken multi c a st rest :
  session_ok c -> at_stmt multi c a -> IsAbortedTransactionBlockState c && negb (IsTransactionExitStmt st) = true ->
  string_post multi (st :: rest) a c (inl (ERROR InFailedTransaction)).
Proof.
  intros Hok Hat H. apply andb_true_iff in H as [H1 H2%negb_true_iff].
  assert (Hbr : exists sv, block_of c = Broken sv) by (unfold block_of; unfold IsAbortedTransactionBlockState in H1; destruct (blockState _); eauto; done).
  destruct Hbr as [sv Hsv].
  assert (Ha : abs c = a /\ blk a = Broken sv).
  { destruct Hat as [Hs <- Hi|Hs <- Hi Hm|Hs Hi Hf]; try done. assert (block_of c = Implicit false []) by (change (blk (abs c) = Implicit false []); by rewrite Hf). congruence. }
  destruct Ha as [Ha Hb]. exists (Broken sv). split.
  - destruct Hok as [Hg Hr]. split; [done|]. exists [], (stack c). split; [done|]. split; [constructor|].
    remember (stack c) as l eqn:El. destruct Hr as [s Hi|b s Hb' Hl|l Hl|l Hl].
    + unfold block_of in Hsv. injection El as -> _. by rewrite (proj1 Hi) in Hsv.
    + rewrite (block_of_implicit b c s) in Hsv; [done|done|]. apply live_single in Hl. by split.
    + subst l. by rewrite (block_of_live _ Hl) in Hsv.
    + subst l. rewrite (block_of_broken _ Hl) in Hsv. injection Hsv as <-. by apply left_broken.
  - cbn. rewrite Hb, H2. by rewrite Ha, <- Hb.
Qed.

Lemma stmt_effect_block st a a' : IsTransactionStmt st = true -> stmt_effect st a = inr a' -> not_implicit (blk a').
Proof.
  unfold stmt_effect, not_implicit. intros Hst H m w Hb. destruct st; try done; destruct (blk a) as [|[] ?| |] eqn:E; simplify_eq; cbn in *; try congruence;
    repeat (case_match; simplify_eq; cbn in *; try congruence); unfold next_block in *; repeat (case_match; simplify_eq; cbn in *; try congruence).
Qed.

(** A transaction statement with what follows it. *)
Lemma stmt_finish_wp (multi : bool) st (rest : list statement) c :
  session_ok c -> IsTransactionStmt st = true -> block_of c <> Idle -> passes st (block_of c) -> xact_started c = true ->
  forall Q : xstate -> xerror + unit -> Prop,
  (forall c' r, stmt_post st c c' r -> match r with inr _ => Q (set_started false c') (inr tt) | inl e => Q c' (inl e) end) ->
  xwp (xbind (exec_statement new_id st) (fun _ => match rest with
    | [] => xbind (if multi then EndImplicitTransactionBlock else xret tt) (fun _ => finish_xact_command new_id)
    | _ => finish_xact_command new_id
    end)) c Q.
Proof.
  intros Hok Hst Hidle Hpass Hs Q HQ.
  assert (Hw : xwp (xbind (exec_statement new_id st) (fun _ => CommitTransactionCommand new_id)) c (stmt_post st c)).
  { apply stmt_wp; [done..|]. intros Hex. unfold IsAbortedTransactionBlockState.
    destruct (blockState (CurrentTransactionState c)) eqn:E; try done; exfalso;
      specialize (Hpass (saves_of (stack c) (out c)) ltac:(unfold block_of; by rewrite E)); congruence. }
  pose proof (exec_tame st c Hst) as Ht. unfold tame, xwp in Ht. unfold xwp, xbind in Hw. apply xwp_bind. unfold xwp at 1.
  destruct (exec_statement new_id st c) as [c1 [e|[]]]; cbn [fst snd] in *; [exact (HQ c1 (inl e) Hw)|].
  destruct Ht as [Hs1 Hb1]. specialize (Hb1 eq_refl).
  assert (Hfin : xwp (finish_xact_command new_id) c1 Q).
  { apply finish_wp; [by rewrite Hs1|]. unfold xwp. specialize (HQ _ _ Hw). exact HQ. }
  destruct rest as [|st' rest]; [|exact Hfin]. apply xwp_bind. unfold xwp at 1.
  assert (Hend : (if multi then EndImplicitTransactionBlock else xret tt) c1 = (c1, inr tt)).
  { destruct multi; [|done]. unfold EndImplicitTransactionBlock, xbind, block, xget. by rewrite decide_False by done. }
  rewrite Hend. exact Hfin.
Qed.

Lemma bind_assoc {A B C} (m : X A) (k : A -> X B) (h : B -> X C) c Q :
  xwp (xbind (xbind m k) h) c Q -> xwp (xbind m (fun a => xbind (k a) h)) c Q.
Proof. unfold xwp, xbind. by destruct (m c) as [c1 [|]]. Qed.

Lemma at_stmt_multi multi c a m w : at_stmt multi c a -> begin_block multi (blk a) = Implicit m w -> m = multi.
Proof.
  intros [Hs <- Hi|Hs <- Hi Hm|Hs Hi Hf] H; [..|rewrite Hi in H; cbn in H; congruence].
  - destruct (blk (abs c)) eqn:E; cbn in H; congruence.
  - destruct (blk (abs c)) eqn:E; cbn in H; try congruence. by destruct (Hm _ _ H) as [-> ->].
Qed.

Lemma string_post_mono multi l l' a a0 c r :
  (forall res a', string_spec multi l a res a' -> string_spec multi l' a0 res a') -> string_post multi l a c r -> string_post multi l' a0 c r.
Proof.
  intros H. destruct r as [[e|e]|[]]; cbn [string_post].
  - intros (b & Hb & Hs). eauto.
  - intros [Hd Hs]. eauto.
  - intros (H1 & H2 & H3 & H4). eauto.
Qed.

(** The loop from the second statement on. *)
Definition rest_wp (multi : bool) (rest : list statement) : Prop := forall c a,
  session_ok c -> at_stmt multi c a -> (rest = [] -> xact_started c = false) ->
  xwp (exec_statements new_id multi rest) c (string_post multi rest a).

(** What holds when a statement runs. *)
Record at_exec (multi : bool) (st : statement) (rest : list statement) (c : xstate) (a : asession) : Prop := {
  ae_ok : session_ok c;
  ae_started : xact_started c = true;
  ae_abs : abs c = set_blk (begin_block multi (blk a)) a;
  ae_busy : block_of c <> Idle;
  ae_block : block_of c = begin_block multi (blk a);
  ae_passes : passes st (blk a);
  ae_multi : forall m w, block_of c = Implicit m w -> m = multi;
  ae_one : multi = false -> rest = []
}.

Lemma exec_stmt_wp multi st rest c1 a :
  at_exec multi st rest c1 a -> IsTransactionStmt st = true -> rest_wp multi rest ->
  xwp (xbind (exec_statement new_id st) (fun _ => xbind match rest with
    | [] => xbind (if multi then EndImplicitTransactionBlock else xret tt) (fun _ => finish_xact_command new_id)
    | _ => finish_xact_command new_id
    end (fun _ => exec_statements new_id multi rest))) c1 (string_post multi (st :: rest) a).
Proof.
  intros [Hok1 Hs1 Ha1 Hni1 Hb1 Hpass Hmulti Hone] Hst IH.
  assert (Hab1 : forall b, set_blk b (abs c1) = set_blk b a) by (intros b; by rewrite Ha1).
  apply bind_assoc, xwp_bind. eapply stmt_finish_wp; try done.
  { rewrite Hb1. intros sv Hsv. destruct (blk a) eqn:E; try done. by apply (Hpass sv). }
  intros c2 r Hpost. destruct r as [[e|e]|[]]; [|done|].
  - destruct Hpost as [He Hf]. eexists. destruct (fails_halts _ _ _ (fail_after st (block_of c1)) Hf) as [Hh Hab2]. split; [exact Hh|].
    rewrite Hab2, Hab1. apply string_stmt; [done..|]. cbv zeta. rewrite <- Ha1. change (blk (abs c1)) with (block_of c1).
    destruct He as [He|[[a' He] Hr]]; rewrite He; eauto.
  - destruct Hpost as (a2 & Heff & Hok2 & Hou2 & Ha2). pose proof (stmt_effect_block _ _ _ Hst Heff) as Hni.
    eapply xwp_mono; [apply (IH (set_started false c2) a2); [by apply set_started_ok|by apply at_fresh|done]|].
    intros c3 r H3. eapply string_post_mono; [|exact H3]. intros res a' H. apply string_stmt; [done..|]. cbv zeta.
    rewrite <- Ha1, Heff. by right.
Qed.

(** After the query: the rest of the string runs from the session with its work. *)
Lemma after_query_wp multi p rest w c2 a :
  let b := begin_block multi (blk a) in
  query_state multi c2 -> abs c2 = set_blk (with_work w b) a -> passes (SQuery p) (blk a) -> prog_spec p (work_of b) (Fine w) ->
  (multi = false -> rest = []) -> rest_wp multi rest ->
  xwp (xbind match rest with
    | [] => xbind (if multi then EndImplicitTransactionBlock else xret tt) (fun _ => finish_xact_command new_id)
    | _ => CommandCounterIncrement
    end (fun _ => exec_statements new_id multi rest)) c2 (string_post multi (SQuery p :: rest) a).
Proof.
  intros b Hq2 Ha2 Hpass Hp Hone IH.
  assert (Hb2 : block_of c2 = with_work w b) by (change (blk (abs c2) = with_work w b); by rewrite Ha2).
  assert (Hlate : forall c3 e, resource e -> fails c2 c3 (fail_block (block_of c2)) -> string_post multi (SQuery p :: rest) a c3 (inl (ERROR e))).
  { intros c3 e He Hf. eexists. destruct (fails_halts _ _ _ (fail_block (block_of c2)) Hf) as [Hh Hab3]. split; [exact Hh|].
    eapply string_query_late; [done..|]. rewrite Hab3, Ha2, Hb2. unfold b. by destruct (blk a). }
  apply xwp_bind. destruct rest as [|st rest].
  - eapply xwp_mono; [by apply query_last_wp|]. intros c3 [e|[]] H3; [destruct H3 as (e' & -> & He & Hf); by apply Hlate|].
    destruct H3 as (Hok3 & Hs3 & Ha3). split; [done|]. split; [done|]. split; [|eapply string_query_fine; [done..|]; cbn; by rewrite Ha3, Ha2].
    change (not_implicit (blk (abs c3))). rewrite Ha3. unfold finish_block, not_implicit. by destruct (blk (abs c2)) eqn:E; rewrite ?E.
  - eapply xwp_mono; [by eapply query_next_wp|]. intros c3 [e|[]] H3; [destruct H3 as (e' & -> & He & Hf); by apply Hlate|].
    destruct H3 as (Hok3 & Hs3 & Ha3). destruct Hq2 as (_ & _ & Hq2a & _ & Hq2).
    eapply xwp_mono; [apply (IH c3 (set_blk (with_work w b) a)); try done|].
    + apply at_going; [done|by rewrite Ha3|cbn; by rewrite <- Hb2|]. cbn. intros m w' Hm. rewrite <- Hb2 in Hm.
      rewrite (Hq2 _ _ Hm). destruct multi; [done|]. by specialize (Hone eq_refl).
    + intros c4 r H4. eapply string_post_mono; [|exact H4]. intros res a' H. by eapply string_query_fine.
Qed.

Lemma exec_query_wp multi p rest c1 a :
  at_exec multi (SQuery p) rest c1 a -> rest_wp multi rest ->
  xwp (xbind (run_prog new_id p) (fun _ => xbind match rest with
    | [] => xbind (if multi then EndImplicitTransactionBlock else xret tt) (fun _ => finish_xact_command new_id)
    | _ => CommandCounterIncrement
    end (fun _ => exec_statements new_id multi rest))) c1 (string_post multi (SQuery p :: rest) a).
Proof.
  intros [Hok1 Hs1 Ha1 Hni1 Hb1 Hpass Hmulti Hone] IH.
  assert (Hab1 : forall b, set_blk b (abs c1) = set_blk b a) by (intros b; by rewrite Ha1).
  assert (Hbr1 : forall sv, block_of c1 <> Broken sv) by (rewrite Hb1; intros sv Hsv; destruct (blk a) eqn:E; try done; by specialize (Hpass _ eq_refl)).
  apply xwp_bind. eapply xwp_mono; [by apply query_wp|]. intros c2 r H2. rewrite Hb1 in H2. destruct r as [[e|e]|[]].
  - destruct H2 as [Hp Hf]. eexists. destruct (fails_halts _ _ _ (fail_block (begin_block multi (blk a))) Hf) as [Hh Hab2]. split; [exact Hh|].
    by apply string_query_failed; [..|rewrite Hab2, Hab1].
  - destruct H2 as [Hp [D1 D2 D3 D4 D5]]. split; [by split|]. apply string_query_fatal; [done..|].
    rewrite <- Hab1. unfold abs, set_blk. cbn. by rewrite D3, D4.
  - destruct H2 as (w & Hp & Hok2 & Hou2 & Ha2). rewrite Hab1 in Ha2.
    assert (Hb2 : block_of c2 = with_work w (block_of c1)) by (change (blk (abs c2) = with_work w (block_of c1)); by rewrite Ha2, Hb1).
    apply (after_query_wp multi p rest w c2 a); try done.
    split; [done|]. split; [by rewrite (ou_started _ _ Hou2)|]. rewrite Hb2. split; [by destruct (block_of c1)|].
    split; [destruct (block_of c1) eqn:E; try done; by specialize (Hbr1 _ eq_refl)|].
    intros m w' Hm. destruct (block_of c1) as [|m1 w1| |] eqn:E; cbn in Hm; try done. injection Hm as <- _. by eapply Hmulti.
Qed.

Lemma exec_statements_wp multi l : forall c a,
  (multi = false -> (length l <= 1)%nat) -> session_ok c -> at_stmt multi c a -> (l = [] -> xact_started c = false) ->
  xwp (exec_statements new_id multi l) c (string_post multi l a).
Proof.
  induction l as [|st rest IH]; intros c a Hlen Hok Hat Hnil; cbn [exec_statements].
  { specialize (Hnil eq_refl). destruct Hat as [Hs Ha Hi|Hs|Hs]; try congruence. subst a. split; [done|]. split; [done|]. split; [exact Hi|]. done. }
  apply xwp_get. unfold id. destruct (IsAbortedTransactionBlockState c && negb (IsTransactionExitStmt st)) eqn:Hab.
  { by apply at_stmt_broken. }
  pose proof (at_stmt_aborted _ _ _ _ Hok Hat Hab) as Hpass.
  eapply start_stmt_wp; [done..|]. intros c1 Hok1 Hs1 Ha1 Hni1.
  assert (Hb1 : block_of c1 = begin_block multi (blk a)) by (change (blk (abs c1) = begin_block multi (blk a)); by rewrite Ha1).
  assert (Hone : multi = false -> rest = []) by (intros E; specialize (Hlen E); cbn in Hlen; destruct rest; [done|cbn in Hlen; lia]).
  assert (Hae : at_exec multi st rest c1 a).
  { split; try done. intros m w Hm. eapply at_stmt_multi; [exact Hat|]. by rewrite <- Hb1. }
  assert (Hrest : rest_wp multi rest).
  { intros c' a' H1 H2 H3. apply IH; try done. intros E. rewrite (Hone E). cbn. lia. }
  destruct st; [by apply exec_query_wp|by apply exec_stmt_wp..].
Qed.

(** ** Rounds of a session *)

Definition resting (c : xstate) : Prop := session_ok c /\ xact_started c = false /\ not_implicit (block_of c).

Definition query_post (l : list statement) (a : asession) (c' : xstate) (r : xerror + unit) : Prop :=
  match r with
  | inr _ => resting c' /\ query_spec l a Completed (abs c')
  | inl (ERROR e) => exists b, halts c' b /\ query_spec l a (Failed e) (set_blk b (abs c'))
  | inl (FATAL e) => dead c' /\ query_spec l a (Terminated e) (set_blk Idle (abs c'))
  end.

Lemma set_blk_at a b : blk a = b -> set_blk b a = a.
Proof. intros <-. apply set_blk_same. Qed.

Lemma commit_nothing a : blk a = Idle -> commit_work [] Idle a = a.
Proof.
  intros H. destruct a as [d h b]. unfold commit_work. cbn in *. subst b. f_equal. apply (right_id_L ∅ (⊎)).
Qed.

Lemma finish_query_wp c :
  query_state false c ->
  xwp (finish_xact_command new_id) c (fun c' r =>
    match r with
    | inr _ => session_ok c' /\ xact_started c' = false /\ abs c' = finish_block (abs c)
    | inl e => exists e', e = ERROR e' /\ resource e' /\ fails c c' (fail_block (block_of c))
    end).
Proof. exact (query_last_wp false c). Qed.

(** An empty string runs an empty transaction. *)
Lemma empty_query_wp c c1 :
  resting c -> session_ok c1 -> xact_started c1 = true -> abs c1 = set_blk (begin_block false (block_of c)) (abs c) ->
  xwp (finish_xact_command new_id) c1 (query_post [] (abs c)).
Proof.
  intros (Hok & Hs & Hni) Hok1 Hs1 Ha1.
  assert (Hb1 : block_of c1 = begin_block false (block_of c)) by (change (blk (abs c1) = begin_block false (block_of c)); by rewrite Ha1).
  assert (Hfail : forall c2 e, resource e -> fails c1 c2 (fail_block (block_of c1)) -> query_post [] (abs c) c2 (inl (ERROR e))).
  { intros c2 e He Hf. eexists. destruct (fails_halts _ _ _ (fail_block (block_of c1)) Hf) as [Hh Hab]. split; [exact Hh|].
    right. split; [done|]. exists e. split; [done|]. split; [done|]. rewrite Hab, Ha1, Hb1. cbn. by destruct (block_of c). }
  assert (Hdone : forall c2, session_ok c2 -> xact_started c2 = false -> abs c2 = abs c -> query_post [] (abs c) c2 (inr tt)).
  { intros c2 H1 H2 H3. split; [|left; done]. split; [done|]. split; [done|]. change (not_implicit (blk (abs c2))). by rewrite H3. }
  assert (Hq : (forall sv, block_of c1 <> Broken sv) -> query_state false c1).
  { intros Hbr. split; [done|]. split; [done|]. split; [rewrite Hb1; by destruct (block_of c)|]. split; [done|].
    intros m w Hm. rewrite Hb1 in Hm. destruct (block_of c) eqn:Ec; cbn in Hm; try done; [by injection Hm as <- _|by exfalso; eapply Hni]. }
  destruct (block_of c1) as [|m w|w sv|sv] eqn:E; [by destruct (block_of c)|..].
  1, 2: eapply xwp_mono; [by apply finish_query_wp, Hq|];
    intros c2 [e|[]] H2; [destruct H2 as (e' & -> & He & Hf); rewrite E in Hf; by apply Hfail|]; destruct H2 as (H2a & H2b & H2c); apply Hdone; try done;
    rewrite H2c; unfold finish_block; change (blk (abs c1)) with (block_of c1); rewrite E.
  - destruct (block_of c) as [|m0 w0| |] eqn:Ec; cbn in Hb1; try done; [|by exfalso; eapply Hni].
    injection Hb1 as -> ->. rewrite Ha1. exact (commit_nothing (abs c) Ec).
  - rewrite Ha1. destruct (block_of c) eqn:Ec; cbn in Hb1; try done. exact (set_blk_at (abs c) _ Ec).
  - assert (Hc : CommitTransactionCommand new_id c1 = (c1, inr tt)).
    { unfold block_of in E. unfold CommitTransactionCommand, xbind, xget, until_true, CommitTransactionCommandInternal, xbind, xget, id, xret.
      destruct (blockState _); try done; by destruct (length (parents c1)). }
    apply finish_wp; [done|]. unfold xwp. rewrite Hc. cbn [fst snd]. apply Hdone; [by apply set_started_ok|done|].
    change (abs c1 = abs c). rewrite Ha1. destruct (block_of c) eqn:Ec; cbn in Hb1; try done. exact (set_blk_at (abs c) _ Ec).
Qed.

Lemma simple_query_wp l c : resting c -> xwp (exec_simple_query new_id l) c (query_post l (abs c)).
Proof.
  intros Hrest. pose proof Hrest as (Hok & Hs & Hni). unfold exec_simple_query. apply xwp_bind.
  eapply xwp_mono; [apply start_command_wp; [done|by right]|]. intros c1 r (-> & Hok1 & Hs1 & Ha1). rewrite Hs in Ha1.
  destruct l as [|st l]; [exact (empty_query_wp c c1 Hrest Hok1 Hs1 Ha1)|].
  apply xwp_bind. eapply xwp_mono; [apply (exec_statements_wp _ _ c1 (abs c)); [|done| |done]|].
  - intros E%Nat.ltb_ge. done.
  - change (blk (abs c)) with (block_of c) in *. destruct (block_of c) eqn:E.
    + by apply at_first.
    + exfalso. by eapply Hni.
    + apply at_going; [done| |by change (block_of c <> Idle); rewrite E|intros m w'; change (block_of c = Implicit m w' -> m = true /\ (1 <? length (st :: l))%nat = true); by rewrite E].
      rewrite Ha1. exact (set_blk_at (abs c) _ E).
    + apply at_going; [done| |by change (block_of c <> Idle); rewrite E|intros m w'; change (block_of c = Implicit m w' -> m = true /\ (1 <? length (st :: l))%nat = true); by rewrite E].
      rewrite Ha1. exact (set_blk_at (abs c) _ E).
  - intros c2 [[e|e]|[]] H2.
    + destruct H2 as (b & Hb & H2). exists b. split; [done|by left].
    + destruct H2 as [Hd H2]. split; [done|by left].
    + destruct H2 as (H2a & H2b & H2c & H2d). unfold finish_xact_command, xwp, xbind, xget. rewrite H2b. cbn. split; [by split|by left].
Qed.

Lemma left_over_block o l b : left_over o l b -> not_implicit b.
Proof. by intros []. Qed.

Lemma query_round_refines ok l c :
  resting c ->
  match PostgresMain_query new_id ok l c with
  | (c', res) => session_ok c' /\ match res with Terminated _ => block_of c' = Idle | _ => resting c' end /\ query_spec l (abs c) res (abs c')
  end.
Proof.
  intros Hrest. unfold PostgresMain_query.
  pose proof (simple_query_wp l (set_precommit ok c)) as H. unfold xwp in H.
  assert (Hrest' : resting (set_precommit ok c)) by (destruct Hrest as ([[? ?] ?] & ? & ?); done). specialize (H Hrest').
  change (abs (set_precommit ok c)) with (abs c) in H.
  destruct (exec_simple_query new_id l (set_precommit ok c)) as [c1 [[e|e]|[]]]; cbn [fst snd query_post] in H.
  - destruct H as (b & (Hg & ds & base & Hst & Hds & Hl) & Hq). pose proof (abort_current_wp ds base b c1 Hg Hst Hds Hl) as Ha. unfold xwp in Ha.
    unfold xbind. destruct (AbortCurrentTransaction c1) as [c2 r2]. destruct Ha as (E & Hok2 & Hq2 & Hou2 & Hb2). cbn in E. subst r2. cbn in *.
    change (abs (set_started false c2)) with (abs c2). rewrite (abs_quiet _ _ Hq2), Hb2. split; [by apply set_started_ok|]. split; [|done].
    split; [by apply set_started_ok|]. split; [done|]. change (block_of (set_started false c2)) with (block_of c2). rewrite Hb2. by eapply left_over_block.
  - destruct H as [(Hg & ds & s & Hst & Hds & Hs) Hq]. pose proof (abort_out_wp ds s c1 Hg Hst Hds Hs) as Ha. unfold xwp in Ha.
    destruct (AbortOutOfAnyTransaction c1) as [c2 r2]. destruct Ha as (E & Hok2 & Hq2 & Hou2 & Hb2). cbn in E. subst r2. cbn in *.
    rewrite (abs_quiet _ _ Hq2), Hb2. done.
  - destruct H as [Hr Hq]. split; [apply Hr|]. done.
Qed.

Lemma session_ends_ok rounds : forall c, resting c -> session_ok (PostgresMain new_id rounds c).1.
Proof.
  induction rounds as [|[ok l] rounds IH]; intros c Hr; [apply Hr|]. cbn [PostgresMain]. pose proof (query_round_refines ok l c Hr) as H.
  destruct (PostgresMain_query new_id ok l c) as [c1 res]. destruct H as (H1 & H2 & _).
  destruct res; [..|done]; specialize (IH c1 H2); by destruct (PostgresMain new_id rounds c1).
Qed.

Definition goes_on (r : query_result) : bool := match r with Terminated _ => false | _ => true end.

Lemma session_resting rounds : forall c,
  resting c -> forallb goes_on (PostgresMain new_id rounds c).2 = true -> resting (PostgresMain new_id rounds c).1.
Proof.
  induction rounds as [|[ok l] rounds IH]; intros c Hr; [done|]. cbn [PostgresMain]. pose proof (query_round_refines ok l c Hr) as H.
  destruct (PostgresMain_query new_id ok l c) as [c1 res]. destruct H as (_ & H2 & _).
  destruct res; [..|done]; specialize (IH c1 H2); destruct (PostgresMain new_id rounds c1); exact IH.
Qed.

(** *** Reasons *)

(** The errors a statement can raise; those for broken invariants of the code are not among them. *)
Definition expected (r : reason) : Prop :=
  match r with UnexpectedState | AlreadyCommitted | OutOfFuel | ParallelOperation => False | _ => True end.

Lemma prog_spec_expected p : forall w r, prog_spec p w r -> match r with Fine _ => True | Error e | Fatal e => expected e end.
Proof.
  induction p as [|row k IH| |body IHb caught k IHk]; intros w r; cbn [prog_spec].
  - by intros ->.
  - intros [-> |H]; [done|]. by apply IH in H.
  - by intros ->.
  - intros [-> |[(w' & _ & H)|[(e & He & H)|(e & He & ->)]]]; [done|by apply IHk in H| |by apply IHb in He].
    assert (expected e) by (destruct He as [He|[-> _]]; [by apply IHb in He|done]). destruct caught; [by apply IHk in H|by subst r].
Qed.

Lemma resource_expected e : resource e -> expected e.
Proof. by intros [-> |[-> | ->]]. Qed.

Lemma stmt_effect_expected st a e : stmt_effect st a = inl e -> expected e.
Proof. unfold stmt_effect. intros H. repeat (case_match; simplify_eq; try done). Qed.

Definition expected_result (r : query_result) : Prop := match r with Completed => True | Failed e | Terminated e => expected e end.

Lemma query_case_expected p w (P Q : reason -> Prop) (R : list Z -> Prop) res :
  (exists e, prog_spec p w (Error e) /\ res = Failed e /\ P e) \/ (exists e, prog_spec p w (Fatal e) /\ res = Terminated e /\ Q e) \/
  (exists w', prog_spec p w (Fine w') /\ ((exists e, resource e /\ res = Failed e /\ P e) \/ R w')) ->
  (forall w', R w' -> expected_result res) -> expected_result res.
Proof.
  intros [(e & He & -> & _)|[(e & He & -> & _)|(w' & _ & [(e & He & -> & _)|Hr])]] HR;
    [by apply prog_spec_expected in He..|by apply resource_expected|by eapply HR].
Qed.

Lemma string_spec_expected multi l : forall a res a', string_spec multi l a res a' -> expected_result res.
Proof.
  induction l as [|st rest IH]; intros a res a'; [by intros [-> _]|]. cbn -[prog_spec stmt_effect fail_after]. intros H.
  destruct (blk a); [..|destruct (IsTransactionExitStmt st) eqn:E; [|by destruct H as [-> _]]];
    (destruct st; [try done|match type of H with context [stmt_effect ?s ?b] => destruct (stmt_effect s b) eqn:Eff end..]).
  all: try (destruct H as [-> _]; by eapply stmt_effect_expected).
  all: try (destruct H as [(e' & He & -> & _)|H]; [by apply resource_expected|by eapply IH]).
  all: eapply (query_case_expected p); [exact H|]; intros w' H'; exact (IH _ _ _ H').
Qed.

Lemma query_spec_expected l a res a' : query_spec l a res a' -> expected_result res.
Proof. intros [H|(_ & e & He & -> & _)]; [by eapply string_spec_expected|by apply resource_expected]. Qed.

(** *** [ROLLBACK] *)

Lemma rollback_string_wp c :
  resting c ->
  xwp (exec_simple_query new_id [SRollback false]) c (fun c' r => r = inr tt /\ resting c' /\ abs c' = set_blk Idle (abs c)).
Proof.
  intros (Hok & Hs & Hni). unfold exec_simple_query. apply xwp_bind. eapply xwp_mono; [apply start_command_wp; [done|by right]|].
  intros c1 r (-> & Hok1 & Hs1 & Ha1). rewrite Hs in Ha1.
  assert (Hb1 : block_of c1 = begin_block false (block_of c)) by (change (blk (abs c1) = begin_block false (block_of c)); by rewrite Ha1).
  assert (Hmark : xwp (UserAbortTransactionBlock false) c1 (fun c' r => r = inr tt /\ undo_marked false c1 c')).
  { destruct Hok1 as [Hg1 Hr1]. remember (stack c1) as l eqn:El. symmetry in El. destruct Hr1 as [s Hi|b s Hb Hl|l Hl|l Hl].
    - exfalso. unfold block_of at 1 in Hb1. pose proof El as [= Es _]. rewrite Es, (proj1 Hi) in Hb1. by destruct (block_of c).
    - apply live_single in Hl as ([R1 R2 R3] & Hn & _). unfold UserAbortTransactionBlock. apply xwp_get. pose proof El as [= Es _]. rewrite Es, R2.
      assert (H : xwp (upd (fun s => set_chain false (set_block TBLOCK_ABORT_PENDING s))) c1 (fun c' r => r = inr tt /\ undo_marked false c1 c')).
      { eapply xwp_mono; [by eapply upd_marked|]. intros c2 r [-> Hm]. split; [done|].
        exists [], (set_chain false (set_block TBLOCK_ABORT_PENDING s)). split; [done|]. unfold undoing_top. cbn. by rewrite R1. }
      destruct Hb as [-> | ->]; exact H.
    - subst l. apply user_abort_wp; auto.
    - subst l. apply user_abort_wp; auto. }
  apply xwp_bind. cbn [exec_statements length Nat.ltb Nat.leb]. apply xwp_get. rewrite andb_false_r. apply xwp_bind. unfold start_xact_command. apply xwp_get.
  rewrite Hs1. unfold xwp at 1. cbn [fst snd xret]. apply xwp_bind. unfold xwp at 1. cbn [fst snd xret]. apply xwp_bind.
  eapply xwp_mono; [exact Hmark|]. intros c2 r [-> Hm]. apply xwp_bind, xwp_bind. unfold xwp at 1. cbn [fst snd xret].
  pose proof Hm as (ds & s & (_ & _ & Hou & _) & _). apply finish_wp; [by rewrite (ou_started _ _ Hou)|].
  eapply xwp_mono; [by eapply rollback_command_wp|]. intros c3 r (-> & Hok3 & Hou3 & Ha3). unfold xwp. cbn. split; [done|].
  assert (Ha : abs c3 = set_blk Idle (abs c)) by (by rewrite Ha3, Ha1).
  split; [|exact Ha]. split; [by apply set_started_ok|]. split; [done|]. change (not_implicit (blk (abs c3))). by rewrite Ha.
Qed.

(** ** Theorems *)

(** C6 -- sessions refine their description: whatever query strings a backend runs, with transaction blocks,
    savepoints released and rolled back to at any depth, [AND CHAIN], [PREPARE TRANSACTION], statements with nested
    exception blocks, errors at any point and commits that fail, the rows that are committed, the
    rows that are prepared, the state of the transaction block and the outcome of every string are those of the
    description in [XactSpec]: a failed statement or subtransaction leaves nothing, a savepoint gives back exactly the work done before it, and
    a commit publishes all the work of the transaction or none. *)
Theorem session_refines (rounds : list (bool * list statement)) (c : xstate) :
  resting c ->
  let '(c', rs) := PostgresMain new_id rounds c in session_spec (map snd rounds) (abs c) rs (abs c').
Proof.
  revert c. induction rounds as [|[ok l] rounds IH]; intros c Hr; [done|]. cbn [PostgresMain map snd session_spec].
  pose proof (query_round_refines ok l c Hr) as H. destruct (PostgresMain_query new_id ok l c) as [c1 res]. destruct H as (_ & H1 & H2).
  destruct res as [|r|r]; [specialize (IH c1 H1); destruct (PostgresMain new_id rounds c1) as [c2 rs]..|]; exists (abs c1); done.
Qed.

(** C24 -- the branches of the state machine for states that cannot be are never taken, the loops over the stack of transaction
    states end, and no transaction that was committed is aborted: the error of every string is one that a statement raises for
    what the user or the limits of the system did. *)
Theorem session_errors_expected (ok : bool) (l : list statement) (c : xstate) :
  resting c ->
  match (PostgresMain_query new_id ok l c).2 with
  | Completed => True
  | Failed r | Terminated r => r <> UnexpectedState /\ r <> AlreadyCommitted /\ r <> OutOfFuel /\ r <> ParallelOperation
  end.
Proof.
  intros Hr. pose proof (query_round_refines ok l c Hr) as H. destruct (PostgresMain_query new_id ok l c) as [c1 res]. destruct H as (_ & _ & H).
  apply query_spec_expected in H. cbn. destruct res as [|r|r]; [done|destruct r; done..].
Qed.

(** C7 -- a session can always get out: from every state between two strings, in an open or a failed block with any number of
    savepoints or outside one, [ROLLBACK] completes, whether or not pre-commit work would succeed, and leaves the session idle
    with the committed and the prepared rows as they were. *)
Theorem rollback_always_completes (ok : bool) (c : xstate) :
  resting c ->
  exists c', PostgresMain_query new_id ok [SRollback false] c = (c', Completed) /\ resting c' /\ abs c' = set_blk Idle (abs c).
Proof.
  intros Hr. assert (Hr' : resting (set_precommit ok c)) by (destruct Hr as ([[? ?] ?] & ? & ?); done).
  pose proof (rollback_string_wp _ Hr') as H. unfold xwp in H. unfold PostgresMain_query.
  destruct (exec_simple_query new_id [SRollback false] (set_precommit ok c)) as [c1 r]. destruct H as (E & H1 & H2). cbn in E. subst r.
  exists c1. done.
Qed.

(** C25 -- the fate of an id is final: after any session no id is both committed and aborted, none of a prepared transaction is
    committed, and the ids of the open transaction are none of these. *)
Theorem session_ids_exclusive (rounds : list (bool * list statement)) (c : xstate) :
  resting c ->
  let c' := (PostgresMain new_id rounds c).1 in
  (forall x, x ∈ committed (out c') -> (x ∉ aborted (out c')) /\ (x ∉ stack_ids (stack c'))) /\
  (forall x, x ∈ aborted (out c') -> x ∉ stack_ids (stack c')) /\
  (forall p x, p ∈ prepared (out c') -> x ∈ p.2 -> (x ∉ committed (out c')) /\ (x ∉ stack_ids (stack c'))).
Proof.
  intros Hr c'. destruct (session_ends_ok rounds c Hr) as [Hg _]. fold c' in Hg. destruct (g_ids _ Hg) as [_ _ _ _ _ H6 H7 H8].
  split; [|split].
  - intros x Hx. by destruct (H6 x Hx) as (_ & H1 & H2).
  - intros x Hx. by destruct (H7 x Hx).
  - intros p x Hp Hx. by destruct (H8 p x Hp Hx) as (_ & H1 & H2).
Qed.
End session.

(** ** A session *)

Module SessionExample.

(** Ids on both sides of 2^32; the ones that are not normal are skipped. *)
Definition ids_from (k : nat) : option FullTransactionId :=
  if (k <? 6)%nat then Some {| value := 4294967290 + Z.of_nat k |}
  else if (k <? 1000)%nat then Some {| value := 4294967293 + Z.of_nat k |}
  else None.

Lemma ids_from_value k x : ids_from k = Some x -> value x = if (k <? 6)%nat then 4294967290 + Z.of_nat k else 4294967293 + Z.of_nat k.
Proof. unfold ids_from. destruct (Nat.ltb_spec k 6); [by intros [= <-]|]. by destruct (Nat.ltb_spec k 1000); [intros [= <-]|]. Qed.

Lemma ids_from_window k x : ids_from k = Some x -> in_window 4294967290 (value x).
Proof.
  unfold in_window, ids_from, u32, wrap, FirstNormalTransactionId.
  destruct (Nat.ltb_spec k 6); [|destruct (Nat.ltb_spec k 1000); [|done]]; intros [= <-]; cbn [value]; split; try lia; Z.div_mod_to_equations; lia.
Qed.

Lemma ids_from_order j k x y : (j < k)%nat -> ids_from j = Some x -> ids_from k = Some y -> value x < value y.
Proof.
  intros Hjk Hx Hy. rewrite (ids_from_value _ _ Hx), (ids_from_value _ _ Hy). destruct (Nat.ltb_spec j 6), (Nat.ltb_spec k 6); lia.
Qed.

Definition supply : IdSupply := {| new_id := ids_from; lo := 4294967290; sup_window := ids_from_window; sup_order := ids_from_order |}.

Definition nothing : shared := {| committed := ∅; aborted := ∅; prepared := []; subtrans := ∅; rows := [] |}.
Definition top : TransactionStateData :=
  TS InvalidFullTransactionId InvalidSubTransactionId None 0 TRANS_DEFAULT TBLOCK_DEFAULT 0 [] false false false.
Definition read_committed : characteristics := {| XactIsoLevel := 1; XactReadOnly := false; XactDeferrable := false |}.
Definition start : xstate :=
  {| CurrentTransactionState := top; parents := []; XactTopFullTransactionId := InvalidFullTransactionId;
     currentSubTransactionId := 0; currentCommandId := 0; currentCommandIdUsed := false; chars := read_committed;
     default_chars := read_committed; prepareGID := None; xact_started := false; id_calls := 0; precommit_ok := true;
     parallel_mode := false; out := nothing |}.

Lemma start_resting : @resting supply start.
Proof.
  split; [split|].
  - split; [|done]. split; cbn; try done; try set_solver. exists []. repeat split; constructor.
  - by apply rest_idle.
  - by split.
Qed.

Definition rounds : list (bool * list statement) :=
  [(true, [SBegin; SQuery (PWrite 1 PDone)]); (true, [SSavepoint "a"]); (true, [SQuery (PWrite 2 PFail)]); (true, [SQuery PDone]);
   (true, [SRollbackTo "a"]); (true, [SQuery (PBlock (PWrite 3 PFail) true (PWrite 4 PDone))]); (true, [SCommit false]);
   (false, [SQuery (PWrite 5 PDone)]); (true, [SBegin; SQuery (PWrite 6 PDone); SPrepare "p"])]%string.

Lemma session_refines_witness :
  @resting supply start /\ session_spec (map snd rounds) (abs start) (PostgresMain ids_from rounds start).2 (abs (PostgresMain ids_from rounds start).1) /\
  (PostgresMain ids_from rounds start).2 =
    [Completed; Completed; Failed StatementFailed; Failed InFailedTransaction; Completed; Completed; Completed; Failed StatementFailed; Completed] /\
  writes (elements (committed (out (PostgresMain ids_from rounds start).1))) (out (PostgresMain ids_from rounds start).1) = [1; 4].
Proof.
  split; [exact start_resting|]. split.
  - pose proof (@session_refines supply rounds start start_resting) as H. change (@new_id supply) with ids_from in H.
    destruct (PostgresMain ids_from rounds start) as [c' rs]. exact H.
  - split; vm_compute; reflexivity.
Defined.

Lemma session_errors_expected_witness :
  @resting supply start /\
  match (PostgresMain_query ids_from true [SBegin; SRelease "x"] start).2 with
  | Completed => True
  | Failed r | Terminated r => r <> UnexpectedState /\ r <> AlreadyCommitted /\ r <> OutOfFuel /\ r <> ParallelOperation
  end.
Proof. split; [exact start_resting|exact (@session_errors_expected supply true [SBegin; SRelease "x"%string] start start_resting)]. Defined.

(** The failed block in the middle of the session. *)
Definition failed : xstate := Eval vm_compute in (PostgresMain ids_from (take 4 rounds) start).1.

Lemma failed_resting : @resting supply failed.
Proof. exact (@session_resting supply (take 4 rounds) start start_resting eq_refl). Qed.

Lemma rollback_always_completes_witness :
  @resting supply failed /\ blockState (CurrentTransactionState failed) = TBLOCK_SUBABORT /\
  exists c', PostgresMain_query ids_from true [SRollback false] failed = (c', Completed) /\ @resting supply c' /\ abs c' = set_blk Idle (abs failed).
Proof. split; [exact failed_resting|]. split; [reflexivity|]. exact (@rollback_always_completes supply true failed failed_resting). Defined.

Lemma session_ids_exclusive_witness :
  @resting supply start /\
  let c' := (PostgresMain ids_from rounds start).1 in
  (forall x, x ∈ committed (out c') -> (x ∉ aborted (out c')) /\ (x ∉ stack_ids (stack c'))) /\
  (forall x, x ∈ aborted (out c') -> x ∉ stack_ids (stack c')) /\
  (forall p x, p ∈ prepared (out c') -> x ∈ p.2 -> (x ∉ committed (out c')) /\ (x ∉ stack_ids (stack c'))).
Proof. split; [exact start_resting|exact (@session_ids_exclusive supply rounds start start_resting)]. Defined.
End SessionExample.
