(* ===== verification/XactCurrent.v ===== *)
(** * Ids of the current transaction

    [TransactionIdIsCurrentTransactionId]: the binary search in the arrays of committed children finds what
    is there, because the invariant of [XactInv] keeps the arrays in the order of
    the ids, across 2^32. *)
From stdpp Require Import sorting.
From S2P Require Import Prelude TransactionId Snapshot Xact XactInv XactSpec XactSession.
Local Open Scope Z_scope.

(** ** Binary search *)

Lemma xid_bsearch_found before xids xid fuel : forall low high,
  0 <= low -> xid_bsearch fuel before xids xid low high = true -> xid ∈ xids.
Proof.
  induction fuel as [|fuel IH]; intros low high Hlow; cbn [xid_bsearch]; [done|]. destruct (Z.leb_spec low high); [|done].
  assert (Hd := Z.div_mod (high - low) 2 ltac:(lia)). assert (Hm := Z.mod_pos_bound (high - low) 2 ltac:(lia)).
  destruct (xids !! _) as [probe|] eqn:E; [|done]. destruct (Z.eqb_spec probe xid) as [-> |].
  - intros _. by eapply list_elem_of_lookup_2.
  - destruct (before probe xid); apply IH; lia.
Qed.

(** The array is in the order of [before] around the position of [xid]. *)
Definition splits (before : TransactionId -> TransactionId -> bool) (xids : list TransactionId) (i : nat) (xid : TransactionId) : Prop :=
  forall j p, xids !! j = Some p -> j <> i -> before p xid = bool_decide (j < i)%nat.

Lemma xid_bsearch_finds before xids xid i fuel : forall low high,
  xids !! i = Some xid -> splits before xids i xid -> 0 <= low <= Z.of_nat i -> Z.of_nat i <= high < Z.of_nat (length xids) ->
  (Z.to_nat (high - low) < fuel)%nat -> xid_bsearch fuel before xids xid low high = true.
Proof.
  intros low high Hi Hsp. revert low high. induction fuel as [|fuel IH]; intros low high Hlow Hhigh Hf; [lia|]. cbn [xid_bsearch].
  destruct (Z.leb_spec low high); [|lia].
  assert (Hd := Z.div_mod (high - low) 2 ltac:(lia)). assert (Hm := Z.mod_pos_bound (high - low) 2 ltac:(lia)).
  set (middle := low + (high - low) / 2) in *.
  destruct (lookup_lt_is_Some_2 xids (Z.to_nat middle)) as [probe E]; [lia|]. rewrite E.
  destruct (Z.eqb_spec probe xid) as [-> |Hne]; [done|].
  assert (Hmi : Z.to_nat middle <> i) by congruence. rewrite (Hsp _ _ E Hmi).
  destruct (bool_decide_reflect (Z.to_nat middle < i)%nat); apply IH; lia.
Qed.

(** A search from end to end. *)
Lemma xid_search_spec before xids xid :
  (forall i, xids !! i = Some xid -> splits before xids i xid) -> xid_search before xids xid = bool_decide (xid ∈ xids).
Proof.
  intros H. apply Bool.eq_iff_eq_true. rewrite bool_decide_eq_true. unfold xid_search. split.
  - intros Hs. by eapply xid_bsearch_found in Hs.
  - intros (i & Hi)%list_elem_of_lookup. pose proof (lookup_lt_Some _ _ _ Hi). eapply xid_bsearch_finds; [done|by apply H|lia..].
Qed.

Lemma sorted_lookup vs i j v w : StronglySorted Z.lt vs -> vs !! i = Some v -> vs !! j = Some w -> i <> j -> (w <? v) = bool_decide (j < i)%nat.
Proof.
  intros Hs Hi Hj Hne. apply Bool.eq_iff_eq_true. rewrite Z.ltb_lt, bool_decide_eq_true.
  assert (H : forall a b x y, vs !! a = Some x -> vs !! b = Some y -> (a < b)%nat -> x < y).
  { intros a b x y Ha Hb Hab. rewrite <- (take_drop b vs) in Hs. apply StronglySorted_app in Hs as (Hs & _ & _). apply Hs.
    - apply (list_elem_of_lookup_2 _ a). rewrite lookup_take_lt by done. done.
    - apply (list_elem_of_lookup_2 _ 0%nat). by rewrite lookup_drop, Nat.add_0_r. }
  split; intros Hlt.
  - destruct (decide (j < i)%nat); [done|]. specialize (H i j v w Hi Hj ltac:(lia)). lia.
  - by eapply H.
Qed.

(** [ParallelCurrentXids] is in numerical order. *)
Lemma search_parallel par xid : StronglySorted Z.lt par -> xid_search Z.ltb par xid = bool_decide (xid ∈ par).
Proof. intros Hs. apply xid_search_spec. intros i Hi j p Hj Hne. by eapply sorted_lookup. Qed.

Section current.
Context {ids : IdSupply}.

(** The children of a level are in the order of [TransactionIdPrecedes]. *)
Lemma search_children k xs xid : ids_ordered k xs -> xid_search TransactionIdPrecedes xs xid = bool_decide (xid ∈ xs).
Proof.
  intros (vs & -> & Hs & Hh). apply xid_search_spec. intros i Hi j p Hj Hne.
  apply list_lookup_fmap_Some in Hi as (v & -> & Hv). apply list_lookup_fmap_Some in Hj as (w & -> & Hw).
  rewrite list.Forall_forall in Hh.
  destruct (handed_window k v) as [Wv Nv]; [apply Hh; by eapply list_elem_of_lookup_2|].
  destruct (handed_window k w) as [Ww Nw]; [apply Hh; by eapply list_elem_of_lookup_2|].
  rewrite precedes_window_le by lia. by eapply sorted_lookup.
Qed.

Lemma ordered_app_r k xs ys : ids_ordered k (xs ++ ys) -> ids_ordered k ys.
Proof.
  intros (vs & E & Hs & Hh). symmetry in E. apply fmap_app_inv in E as (v1 & v2 & -> & -> & ->).
  apply StronglySorted_app in Hs as (_ & _ & H2). apply list.Forall_app in Hh as [_ Hh2]. by exists v2.
Qed.

Lemma stack_has_spec k xid l : ids_ordered k (stack_ids l) -> stack_has xid l = bool_decide (xid ∈ stack_ids l).
Proof.
  induction l as [|s ps IH]; intros Ho; [done|]. cbn [stack_has stack_ids] in *.
  destruct (ordered_app_l _ _ _ Ho) as [Hps _]. pose proof (ordered_app_r _ _ _ Ho) as Hs. specialize (IH Hps). unfold ids_of in *.
  destruct (decide (ts_state s = TRANS_ABORT)); [by rewrite app_nil_r|].
  destruct (FullTransactionIdIsValid (fullTransactionId s)); cbn [negb]; [|by rewrite app_nil_r].
  apply (ordered_app_r k [_]) in Hs. rewrite (search_children _ _ _ Hs), IH. apply Bool.eq_iff_eq_true.
  rewrite bool_decide_eq_true, elem_of_app, elem_of_cons.
  destruct (Z.eqb_spec xid (XidFromFullTransactionId (fullTransactionId s))); [tauto|]. destruct (bool_decide_reflect (xid ∈ childXids s)); [tauto|].
  rewrite bool_decide_eq_true. tauto.
Qed.

Lemma ordered_normal k xs x : ids_ordered k xs -> x ∈ xs -> TransactionIdIsNormal x = true.
Proof.
  intros Ho Hx. destruct (ordered_used _ _ _ Ho Hx) as (v & Hv & ->). destruct (handed_window _ _ Hv) as [_ Hn]. by apply normal_is_normal.
Qed.

Lemma last_ids l s x : last l = Some s -> x ∈ ids_of s -> x ∈ stack_ids l.
Proof.
  intros Hl Hx. apply last_Some in Hl as [ps ->]. induction ps as [|p ps IH]; [done|]. cbn [stack_ids app]. apply elem_of_app. by left.
Qed.

Lemma top_current c xid :
  good c -> (forall s, last (stack c) = Some s -> ts_state s <> TRANS_ABORT) -> TransactionIdIsNormal xid = true ->
  xid = XidFromFullTransactionId (XactTopFullTransactionId c) -> xid ∈ stack_ids (stack c).
Proof.
  intros Hg Ha Hn ->. pose proof (io_top _ _ _ _ (g_ids _ Hg)) as Ht.
  destruct (last (stack c)) as [s|] eqn:Hl; [|by apply last_None in Hl]. specialize (Ha s eq_refl).
  eapply last_ids; [exact Hl|]. unfold ids_of. rewrite decide_False by done. rewrite Ht.
  destruct (FullTransactionIdIsValid _) eqn:Hv; [by left|]. exfalso. revert Hn Hv.
  unfold FullTransactionIdIsValid, TransactionIdIsValid, TransactionIdIsNormal, InvalidTransactionId, FirstNormalTransactionId.
  generalize (XidFromFullTransactionId (XactTopFullTransactionId c)). intros z H1 H2%negb_false_iff%Z.eqb_eq. subst z. done.
Qed.

(** C26 -- an id is one of the current transaction exactly when it is the id of a level of the transaction stack
    that is not aborted, or of a subtransaction committed into such a level: the
    binary search of [TransactionIdIsCurrentTransactionId] in the arrays of committed children misses none,
    also where the ids wrap around.  In a parallel worker the ids handed over by the leader, sorted by value, are searched instead. *)
Theorem current_transaction_ids (ParallelCurrentXids : list TransactionId) (c : xstate) (xid : TransactionId) :
  good c -> (forall s, last (stack c) = Some s -> ts_state s <> TRANS_ABORT) -> StronglySorted Z.lt ParallelCurrentXids ->
  TransactionIdIsCurrentTransactionId ParallelCurrentXids c xid = true <->
  match ParallelCurrentXids with
  | [] => xid ∈ stack_ids (stack c)
  | _ => TransactionIdIsNormal xid = true /\
         (xid = XidFromFullTransactionId (XactTopFullTransactionId c) \/ xid ∈ ParallelCurrentXids)
  end.
Proof.
  intros Hg Ha Hp. pose proof (io_order _ _ _ _ (g_ids _ Hg)) as Ho. unfold TransactionIdIsCurrentTransactionId.
  destruct (TransactionIdIsNormal xid) eqn:Hn; cbn [negb].
  - destruct (Z.eqb_spec xid (XidFromFullTransactionId (XactTopFullTransactionId c))) as [E|E].
    + pose proof (top_current c xid Hg Ha Hn E). destruct ParallelCurrentXids; tauto.
    + destruct ParallelCurrentXids as [|p ps]; [|rewrite search_parallel, bool_decide_eq_true by done; tauto].
      fold (stack c). rewrite (stack_has_spec _ _ _ Ho), bool_decide_eq_true. done.
  - split; [done|]. destruct ParallelCurrentXids; [|by intros []]. intros Hx. by rewrite (ordered_normal _ _ _ Ho Hx) in Hn.
Qed.
End current.

(** ** A transaction with a savepoint and a released one *)

Module CurrentExample.
Import SessionExample.

Definition work_rounds : list (bool * list statement) :=
  [(true, [SBegin; SQuery (PWrite 1 PDone); SSavepoint "a"; SQuery (PWrite 2 PDone); SRelease "a"; SSavepoint "b";
           SQuery (PBlock (PWrite 3 PDone) true (PWrite 4 PDone))])]%string.
Definition inside : xstate := Eval vm_compute in (PostgresMain ids_from work_rounds start).1.

Lemma inside_good : @good supply inside.
Proof. exact (proj1 (proj1 (@session_resting supply work_rounds start start_resting eq_refl))). Qed.

Lemma current_transaction_ids_witness :
  @good supply inside /\ stack_ids (stack inside) = [4294967290; 4294967291; 4294967292; 4294967293] /\
  (TransactionIdIsCurrentTransactionId [] inside 4294967291 = true <-> 4294967291 ∈ stack_ids (stack inside)) /\
  TransactionIdIsCurrentTransactionId [] inside 4294967294 = false.
Proof.
  split; [exact inside_good|]. split; [vm_compute; reflexivity|]. split; [|vm_compute; reflexivity].
  apply (@current_transaction_ids supply [] inside 4294967291 inside_good); [intros s [= <-]; discriminate|constructor].
Defined.
End CurrentExample.
